(* ===== verification/_CoqProject ===== *)
-Q . S2P
Prelude.v
Utf8.v
Sync.v
BlockDev.v
Fat.v
FatRep.v
FatChain.v
FatFile.v
FatSpec.v
FatOps.v
FatFormat.v
FatBoot.v
FatHandle.v
FatWrite.v
FatOpen.v
FatList.v
FatApi.v
FatStale.v
FatTheorems.v
KefTool.v
Pipe.v
FileTable.v
FileInv.v
Frame.v
FrameProofs.v
Heap.v
HeapInv.v
HeapLarge.v
HeapOps.v
HeapTheorems.v
Paging.v
PagingProofs.v
Space.v
SpaceDrop.v
SpaceHeap.v
SpaceTheorems.v
Acpi.v
AcpiTheorems.v
Loader.v
Sched.v
SchedInv.v
SchedSteps.v
SchedTheorems.v
SchedSafety.v
Context.v
Syscall.v
SyscallMem.v
SyscallInv.v
SyscallAct.v
SyscallWorld.v
SyscallTheorems.v
Checksum.v
Dns.v
Tcp.v
TcpWire.v
TcpInv.v
TcpTx.v
TcpSteps.v
TcpStream.v
TcpTheorems.v
NetTcp.v
Udp.v
UdpInv.v
Net.v
NetRx.v
NetFrames.v
NetEcho.v
NetTheorems.v
