(* ===== verification/Prelude.v ===== *)
(** * KaguyaOS: a verification of the kernel

    KaguyaOS is an x86_64 kernel in Rust with a small user land.  This library
    models the parts of it that carry its state and its logic, function by
    function, and proves what each part promises to the others.

    ** The program and its parts

    A UEFI loader hands the kernel a memory map.  From it the boot allocator
    takes frames, the global frame pool takes over (src/src/memory), page tables
    and address spaces are built from frames, and the KEF loader
    (src/src/loader.rs) puts a program into an address space.  The scheduler
    (src/src/process/mod.rs) runs its tasks on all processors; every shared
    structure is protected by a spinlock (src/src/sync/mod.rs), and blocking
    calls wait on event keys of the scheduler.  System calls reach the KAGFAT16
    file system (src/src/fs.rs) through per-process descriptor tables
    (src/src/file.rs), which also hold pipes (src/src/pipe.rs) and sockets
    (src/src/drivers/net).  The processors and the PCIe configuration space are
    found in the firmware's ACPI tables (src/src/acpi.rs).  On the host,
    src/tools/kef-tool prepares the disk images the kernel mounts.

    ** How the code is represented

    Functions that change a shared state are functions on a record of that
    state, fallible ones in the state and error monad [M] of this file, whose
    outcomes [Ok], [Err], [Panic] and [Hang] keep the changes made before an
    error.  Integers are [Z] with the wrap-around written out ([u16], [u32],
    [u64]) where the code relies on it; bytes are [Z] in [0, 256); slices are
    lists, cut and copied with [slice] and [splice].  What runs under a lock is
    one atomic function; what runs without one is split into steps, and step
    relations interleave them ([Heap.realloc], which takes its lock three times,
    is one function all the same).  [usize::MAX] used as "none" is [None].  Code
    that is not in the Rust sources (the NVMe device, the variant of some
    functions built with the feature jihoo-kernel) is an interface or is left
    out.

    Cargo builds the kernel with overflow checks (dev) or without (release).
    Where an operand comes from a program or from the network, so that the
    builds differ, the functions are parametrised by the class [Build]: [arith64]
    panics in the one and wraps in the other, and theorems hold of both unless
    they say otherwise.

    ** The files

    - Prelude: errors, the monad, machine integers, byte strings, list lemmas,
      the class [Build], the hint database [kaguya] and the tactics [dlia], [zcase], [inv_bind].
    - Sync: the spinlock as steps of any number of processors with interrupts;
      at most one holder, and no handler spins on a lock its own processor
      holds.
    - BlockDev: the interface [BlockDevice] and contract [ReliableDevice] of a
      disk; the RAM disk keeps the contract.
    - Fat: every unlocked function of fs.rs.  FatRep, FatChain, FatFile and
      FatSpec relate the sectors to an abstract volume and the volume to a map
      from names to contents; FatOps, FatFormat and FatTheorems show that
      create, read, delete and format implement the operations of that map, on
      every branch, and that freeing a chain ends on any disk.  FatHandle,
      FatWrite and FatOpen do the same for open files: reads and writes at an
      offset act on the bytes of the named file, and holes are zeros.  FatStale
      runs sequences of operations: a handle to a file that was deleted,
      replaced or formatted away is refused, also when its slot is used again.
      FatList is the directory listing (Utf8 has
      the decoding of names), FatApi the functions that take the lock, FatBoot
      shows that files come and go without a change of the boot sector.
    - KefTool: the host tool kef-tool, which has its own copy of the file
      system; the kernel reads every image the tool prepares.
    - Pipe: the two loops of a pipe as steps of any number of threads: bytes
      come out in order, no wakeup is lost, no thread sleeps while it could go
      on.
    - FileTable, FileInv: descriptor tables over files, pipes and sockets;
      every reference count is the number of its references.
    - Frame, FrameProofs: the boot allocator and the frame pool; a frame is
      handed out once until it is freed.
    - Heap, HeapInv, HeapLarge, HeapOps, HeapTheorems: the kernel heap on the
      bytes it manages; whatever is allocated, freed, resized or written, it is
      a table of disjoint buffers that hold what was last written to them.
    - Paging, PagingProofs, Space, SpaceDrop, SpaceHeap, SpaceTheorems: page
      tables in byte memory, an address space as a tree of frames; creating,
      growing and dropping one neither leaks nor doubles a frame, and the range
      checks of system calls are exact.  The half of the tables all spaces share
      with the kernel is a parameter, the class [KernelHalf].
    - Acpi, AcpiTheorems: the firmware's tables, read in place; what is made of
      a well-formed MADT and of arbitrary bytes, which tables are chosen, where
      the functions of PCIe devices are.
    - Loader: the KEF header and the image a program sees when it starts.
    - Sched, SchedInv, SchedSteps, SchedTheorems, SchedSafety: the scheduler
      and all interleavings of its processors: a stack is used by one processor
      at a time, a queued task is in exactly one queue, a stack is freed only
      after it has been left, no wakeup is lost between check and wait.  The
      first three hold when tasks are woken only off their stacks, which two of
      the three functions that wake tasks do not check ([stale_resume]).
    - Context: the assembly of [context_switch] on registers and stack words.
    - Syscall: the dispatcher and the handlers of the system calls, over all of
      the above.  SyscallMem and SyscallInv relate user memory to the address
      spaces, SyscallAct gives every handler one of a few effects, SyscallWorld
      shows that each effect keeps the machine well formed, SyscallTheorems
      that no call touches memory its caller could not, at once or after a
      wait, that programs are isolated from each other, and what starting a
      program does; and the one call that breaks this in a build without
      overflow checks ([fsls_overflow]).
    - Checksum: the Internet checksum.
    - Dns: the DNS client; its parser takes any bytes, and takes the address out
      of any well-formed reply.
    - Tcp, TcpWire, TcpInv, TcpTx, TcpSteps, TcpStream, TcpTheorems: TCP
      connections, from the control block to delivery in both directions over a
      lossy network.  The kernel only connects; the host at the other end is
      abstract, any that follows the protocol.
    - Udp, UdpInv: UDP sockets, their table of ports and their queues, well
      formed in every interleaving.
    - Net: ARP, IPv4, ICMP and the receive path, which join the sockets to the
      network card, an interface ([NetworkDriver], with the contract [Wire]).
      NetTcp and NetRx show which frames the receive path survives (all but
      malformed pings and, with overflow checks, ping replies of impossible
      length), NetFrames and NetEcho what the frames hold,
      NetTheorems that datagrams, ARP requests and pings reach the other host.

    ** Fuel

    Loops that are not structural take fuel.  It is chosen from the data: the
    clusters of a file ([read_fuel] of Fat), the entries of the FAT for a chain
    (in KefTool, whose loop is not confined to the FAT, the cluster numbers),
    the pages of a range, the bytes of a send buffer, the length of a firmware
    table, two rounds for the carries of a checksum.  The termination theorems and lemmas ([free_chain_terminates],
    [Synced_loop], [fold_carries_sum]) show that the loops end before the fuel
    does; elsewhere an operation's theorem gives its result, which excludes
    [Hang].

    ** What is not modelled

    Device drivers that only move data to and from registers and DMA rings
    (xHCI, NVMe, e1000, virtio-gpu, PCI, the console), AP start-up,
    interrupt entry, boot, the graphics demo and the shell: their correctness
    is a matter of hardware that has no description in the sources.  The user
    programs and their library, which are clients of the system calls, and the
    bindings to the kernel parts written in Jihoo are not modelled either.  Loading
    CR3, TLB flushes and the lines printed to the console are left out of the
    functions that do them. *)

From stdpp Require Export base list list_numbers numbers option functions gmap relations.
From Stdlib Require Export ZArith Lia.
#[export] Set Default Goal Selector "!".
#[export] Set Warnings "-notation-overridden,-clear-no-such-hyp".
Open Scope Z_scope.

(** * Errors and results *)

(** [FsError] of src/src/fs.rs, the error type shared by the file system, the
    descriptor tables, the pipes and the sockets. *)
Inductive FsError : Type :=
| NotReady
| InvalidArgument
| DeviceError
| NotFormatted
| NoSpace
| FileNotFound
| BadDescriptor
| TooManyOpenFiles
| BrokenPipe
| AddressInUse
| TimedOut
| NetworkUnreachable
| NotConnected
| ConnectionRefused
| ConnectionReset.

#[export] Instance FsError_eq_dec : EqDecision FsError.
Proof. solve_decision. Defined.

Definition code (e : FsError) : Z :=
  match e with
  | NotReady => -1
  | InvalidArgument => -2
  | DeviceError => -3
  | NotFormatted => -4
  | NoSpace => -5
  | FileNotFound => -6
  | BadDescriptor => -7
  | TooManyOpenFiles => -8
  | BrokenPipe => -9
  | AddressInUse => -10
  | TimedOut => -11
  | NetworkUnreachable => -12
  | NotConnected => -13
  | ConnectionRefused => -14
  | ConnectionReset => -15
  end.

(** The outcome of a Rust function returning [FsResult<A>]: a value, an error,
    a panic (bounds or arithmetic check), or [Hang] when the fuel of a loop is
    exhausted.  Loops are given enough fuel that [Hang] never shows; the
    termination theorems say so. *)
Inductive res (A : Type) : Type :=
| Ok (a : A)
| Err (e : FsError)
| Panic
| Hang.
Arguments Ok {A} a.
Arguments Err {A} e.
Arguments Panic {A}.
Arguments Hang {A}.

(** * The state and error monad

    An operation on a shared state keeps the changes made before an error:
    the state is returned with every outcome. *)
Definition M (S A : Type) : Type := S -> S * res A.

Section monad.
Context {S A B : Type}.

Definition kret (a : A) : M S A := fun s => (s, Ok a).
Definition kfail (e : FsError) : M S A := fun s => (s, Err e).
Definition kpanic : M S A := fun s => (s, Panic).
Definition khang : M S A := fun s => (s, Hang).

Definition kbind (m : M S A) (k : A -> M S B) : M S B :=
  fun s =>
    match m s with
    | (s', Ok a) => k a s'
    | (s', Err e) => (s', Err e)
    | (s', Panic) => (s', Panic)
    | (s', Hang) => (s', Hang)
    end.

Definition lift_res (r : res A) : M S A := fun s => (s, r).
Definition modify (f : S -> S) : M S unit := fun s => (f s, Ok tt).
Definition gets (f : S -> A) : M S A := fun s => (s, Ok (f s)).

(** [Option::ok_or(e)?]. *)
Definition ok_or (o : option A) (e : FsError) : M S A :=
  match o with Some a => kret a | None => kfail e end.
End monad.

Declare Scope kmonad_scope.
Delimit Scope kmonad_scope with kmonad.
Notation "'let!' x := m 'in' k" := (kbind m (fun x => k))
  (at level 10, x pattern, m at level 200, k at level 200,
   format "'[v' 'let!'  x  :=  m  'in' '/' k ']'") : kmonad_scope.
Notation "'run!' m 'in' k" := (kbind m (fun _ => k))
  (at level 10, m at level 200, k at level 200,
   format "'[v' 'run!'  m  'in' '/' k ']'") : kmonad_scope.

(** Rewriting of a bind whose first computation is known. *)
Lemma kbind_Ok {S A B} (m : M S A) (k : A -> M S B) s s' a :
  m s = (s', Ok a) -> kbind m k s = k a s'.
Proof. unfold kbind. by intros ->. Qed.

Lemma kbind_Err {S A B} (m : M S A) (k : A -> M S B) s s' e :
  m s = (s', Err e) -> kbind m k s = (s', Err e).
Proof. unfold kbind. by intros ->. Qed.

Lemma kbind_modify {S B} (f : S -> S) (k : unit -> M S B) s : kbind (modify f) k s = k tt (f s).
Proof. done. Qed.

Lemma kbind_ext {S A B} (m : M S A) (k k' : A -> M S B) s :
  (forall a s, k a s = k' a s) -> kbind m k s = kbind m k' s.
Proof. intros Hk. unfold kbind. destruct (m s) as [s1 [a|e| |]]; done || apply Hk. Qed.

Lemma kbind_assoc {S A B C} (m : M S A) (k : A -> M S B) (h : B -> M S C) s :
  kbind (kbind m k) h s = kbind m (fun a => kbind (k a) h) s.
Proof. unfold kbind. by destruct (m s) as [s1 [a|e| |]]. Qed.

(** A bind that succeeds is a success of both parts. *)
Lemma kbind_inv_Ok {S A B} (m : M S A) (k : A -> M S B) s s' b :
  kbind m k s = (s', Ok b) ->
  exists a s1, m s = (s1, Ok a) /\ k a s1 = (s', Ok b).
Proof. unfold kbind. destruct (m s) as [s1 [a|e| |]]; intros ?; simplify_eq; eauto. Qed.

(** Splits every bind of a successful run in the context. *)
Ltac inv_bind :=
  repeat match goal with
  | H : kbind _ _ _ = (_, Ok _) |- _ =>
      let a := fresh "a" in let s := fresh "s" in
      let H1 := fresh "Hrun" in
      apply kbind_inv_Ok in H; destruct H as (a & s & H1 & H)
  | H : kret _ _ = (_, _) |- _ => unfold kret in H; simplify_eq
  | H : kfail _ _ = (_, _) |- _ => unfold kfail in H; simplify_eq
  end.

(** * Machine integers *)

Definition u8 (x : Z) : Z := x mod 2 ^ 8.
Definition u16 (x : Z) : Z := x mod 2 ^ 16.
Definition u32 (x : Z) : Z := x mod 2 ^ 32.
Definition u64 (x : Z) : Z := x mod 2 ^ 64.

Definition u8_max : Z := 2 ^ 8 - 1.
Definition u16_max : Z := 2 ^ 16 - 1.
Definition u32_max : Z := 2 ^ 32 - 1.
Definition u64_max : Z := 2 ^ 64 - 1.
(** x86_64: [usize] is 64 bits wide. *)
Definition usize_max : Z := u64_max.

(** [x as i32] for a [u32]. *)
Definition as_i32 (x : Z) : Z := if x <? 2 ^ 31 then x else x - 2 ^ 32.

Definition checked_add64 (a b : Z) : option Z :=
  if a + b <=? u64_max then Some (a + b) else None.

(** The build of the kernel.  With overflow checks (the dev profile of Cargo,
    its default) the operators [+], [-] and [*] panic when the result does not
    fit; without them (the release profile) it wraps around. *)
Class Build : Type := overflow_checks : bool.
Definition dev_build : Build := true.
Definition release_build : Build := false.

(** The 64-bit result of an operator, [x] being the exact one. *)
Definition arith64 {S} `{Build} (x : Z) : M S Z :=
  if (0 <=? x) && (x <=? u64_max) then kret x
  else if overflow_checks then kpanic else kret (u64 x).

Lemma arith64_small {S} `{Build} (x : Z) (s : S) : 0 <= x <= u64_max -> arith64 x s = (s, Ok x).
Proof. intros Hx. unfold arith64. by rewrite !(proj2 (Z.leb_le _ _)) by lia. Qed.

Definition saturating_add64 (a b : Z) : Z := Z.min (a + b) u64_max.
Definition saturating_sub (a b : Z) : Z := Z.max 0 (a - b).

(** * Byte strings

    A byte is a [Z] in [0, 256). *)
Definition is_byte (b : Z) : Prop := 0 <= b < 256.
Definition bytes_ok (l : list Z) : Prop := Forall is_byte l.

Definition zlen {A} (l : list A) : Z := Z.of_nat (length l).

(** [to_le_bytes] and [from_le_bytes] of an [n]-byte integer. *)
Fixpoint le_bytes (n : nat) (z : Z) : list Z :=
  match n with
  | O => []
  | S n => z mod 256 :: le_bytes n (z / 256)
  end.

Fixpoint le_val (l : list Z) : Z :=
  match l with
  | [] => 0
  | b :: l => b + 256 * le_val l
  end.

Definition be_bytes (n : nat) (z : Z) : list Z := rev (le_bytes n z).
Definition be_val (l : list Z) : Z := le_val (rev l).

(** [&l[lo..hi]] *)
Definition slice {A} (lo hi : Z) (l : list A) : list A :=
  take (Z.to_nat (hi - lo)) (drop (Z.to_nat lo) l).

(** [l[off..off + src.len()].copy_from_slice(src)] *)
Definition splice {A} (off : Z) (src l : list A) : list A :=
  take (Z.to_nat off) l ++ src ++ drop (Z.to_nat off + length src) l.

(** [l[i]] with a default, for indexes that are in range. *)
Definition byte_at (l : list Z) (i : Z) : Z := nth (Z.to_nat i) l 0.

(** [[0u8; n]] and [alloc::vec![0u8; n]] *)
Definition zeros (n : Z) : list Z := replicate (Z.to_nat n) 0.

(** ** Lemmas on byte strings *)

Lemma length_le_bytes n z : length (le_bytes n z) = n.
Proof. revert z. induction n; intros; simpl; auto. Qed.

Lemma le_bytes_ok n z : bytes_ok (le_bytes n z).
Proof.
  revert z. induction n as [|n IH]; intros z; constructor; [|apply IH].
  apply Z.mod_pos_bound. lia.
Qed.

Lemma le_val_le_bytes n z : le_val (le_bytes n z) = z mod 2 ^ (8 * Z.of_nat n).
Proof.
  revert z. induction n as [|n IH]; intros z; cbn [le_bytes le_val].
  - by rewrite Z.mod_1_r.
  - rewrite IH. replace (8 * Z.of_nat (S n)) with (8 + 8 * Z.of_nat n) by lia.
    rewrite Z.pow_add_r by lia. change (2 ^ 8) with 256.
    rewrite Z.rem_mul_r by lia. lia.
Qed.

Lemma le_val_bound l : bytes_ok l -> 0 <= le_val l < 2 ^ (8 * zlen l).
Proof.
  unfold zlen. induction 1 as [|b l Hb _ IH]; cbn [le_val length].
  - done.
  - replace (8 * Z.of_nat (S (length l))) with (8 + 8 * Z.of_nat (length l)) by lia.
    rewrite Z.pow_add_r by lia. change (2 ^ 8) with 256.
    unfold is_byte in Hb. nia.
Qed.

Lemma le_bytes_le_val l : bytes_ok l -> le_bytes (length l) (le_val l) = l.
Proof.
  induction 1 as [|b l Hb Hl IH]; cbn [le_bytes le_val length]; [done|].
  unfold is_byte in Hb. f_equal.
  - rewrite (Z.mul_comm 256), Z.mod_add by lia. apply Z.mod_small. lia.
  - etrans; [|exact IH]. f_equal.
    rewrite (Z.mul_comm 256), Z.div_add by lia. rewrite Z.div_small by lia. lia.
Qed.

Lemma length_be_bytes n z : length (be_bytes n z) = n.
Proof. unfold be_bytes. by rewrite length_rev, length_le_bytes. Qed.

Lemma be_val_be_bytes n z : be_val (be_bytes n z) = z mod 2 ^ (8 * Z.of_nat n).
Proof. unfold be_val, be_bytes. rewrite rev_involutive. apply le_val_le_bytes. Qed.

Lemma be_bytes_ok n z : bytes_ok (be_bytes n z).
Proof. unfold bytes_ok, be_bytes. apply Forall_rev, le_bytes_ok. Qed.

Lemma zlen_nonneg {A} (l : list A) : 0 <= zlen l.
Proof. unfold zlen. lia. Qed.

Lemma zlen_app {A} (l k : list A) : zlen (l ++ k) = zlen l + zlen k.
Proof. unfold zlen. rewrite length_app. lia. Qed.

Lemma zlen_zeros n : 0 <= n -> zlen (zeros n) = n.
Proof. intros. unfold zlen, zeros. rewrite length_replicate. lia. Qed.

Lemma zeros_ok n : bytes_ok (zeros n).
Proof. unfold bytes_ok, zeros. apply Forall_replicate. unfold is_byte. lia. Qed.

Lemma lookup_slice {A} lo hi (l : list A) (i : nat) :
  0 <= lo -> (Z.of_nat i < hi - lo) -> slice lo hi l !! i = l !! (Z.to_nat lo + i)%nat.
Proof. intros. unfold slice. rewrite lookup_take_lt, lookup_drop by lia. done. Qed.

Lemma zlen_slice {A} lo hi (l : list A) :
  0 <= lo <= hi -> hi <= zlen l -> zlen (slice lo hi l) = hi - lo.
Proof. unfold zlen, slice. intros. rewrite length_take, length_drop. lia. Qed.

Lemma length_splice {A} off (src l : list A) :
  0 <= off -> off + zlen src <= zlen l -> length (splice off src l) = length l.
Proof.
  unfold zlen, splice. intros. rewrite !length_app, length_take, length_drop. lia.
Qed.

Lemma zlen_splice {A} off (src l : list A) :
  0 <= off -> off + zlen src <= zlen l -> zlen (splice off src l) = zlen l.
Proof. intros. unfold zlen. f_equal. by apply length_splice. Qed.

Lemma slice_all {A} (l : list A) : slice 0 (zlen l) l = l.
Proof. unfold slice, zlen. rewrite drop_0. apply firstn_all2. lia. Qed.

(** Reading back what was copied, and what was not touched. *)
Lemma slice_splice_same {A} off (src l : list A) :
  0 <= off -> off + zlen src <= zlen l -> slice off (off + zlen src) (splice off src l) = src.
Proof.
  unfold slice, splice, zlen. intros.
  rewrite drop_app_ge by (rewrite length_take; lia).
  rewrite length_take_le by lia. replace (Z.to_nat off - Z.to_nat off)%nat with 0%nat by lia.
  rewrite drop_0, take_app_le by lia. apply take_ge. lia.
Qed.

Lemma slice_splice_before {A} lo hi off (src l : list A) :
  0 <= lo <= hi -> hi <= off -> off + zlen src <= zlen l ->
  slice lo hi (splice off src l) = slice lo hi l.
Proof.
  unfold slice, splice, zlen. intros.
  rewrite drop_app_le by (rewrite length_take; lia).
  rewrite take_app_le by (rewrite length_drop, length_take; lia).
  rewrite skipn_firstn_comm, take_take. f_equal. lia.
Qed.

Lemma slice_splice_after {A} lo hi off (src l : list A) :
  0 <= off -> off + zlen src <= lo <= hi -> off + zlen src <= zlen l ->
  slice lo hi (splice off src l) = slice lo hi l.
Proof.
  unfold slice, splice, zlen. intros.
  rewrite drop_app_ge by (rewrite length_take; lia).
  rewrite drop_app_ge by (rewrite length_take; lia).
  rewrite drop_drop, length_take_le by lia. do 2 f_equal. lia.
Qed.

Lemma splice_ok off src l : bytes_ok src -> bytes_ok l -> bytes_ok (splice off src l).
Proof.
  unfold splice, bytes_ok. intros. rewrite !Forall_app. auto using Forall_take, Forall_drop.
Qed.

Lemma slice_ok lo hi l : bytes_ok l -> bytes_ok (slice lo hi l).
Proof. unfold slice, bytes_ok. auto using Forall_take, Forall_drop. Qed.

Lemma slice_app_l {A} lo hi (l k : list A) :
  0 <= lo <= hi -> hi <= zlen l -> slice lo hi (l ++ k) = slice lo hi l.
Proof.
  unfold slice, zlen. intros. rewrite drop_app_le by lia.
  apply take_app_le. rewrite length_drop. lia.
Qed.

Lemma slice_app_r {A} lo hi (l k : list A) :
  zlen l <= lo <= hi -> slice lo hi (l ++ k) = slice (lo - zlen l) (hi - zlen l) k.
Proof.
  unfold slice, zlen. intros. rewrite drop_app_ge by lia.
  f_equal; [lia|]. f_equal. lia.
Qed.

Lemma slice_join {A} lo mid hi (l : list A) :
  0 <= lo <= mid -> mid <= hi -> hi <= zlen l ->
  slice lo mid l ++ slice mid hi l = slice lo hi l.
Proof.
  unfold slice, zlen. intros.
  replace (Z.to_nat (hi - lo)) with (Z.to_nat (mid - lo) + Z.to_nat (hi - mid))%nat by lia.
  rewrite <- take_take_drop. f_equal. rewrite drop_drop. do 2 f_equal. lia.
Qed.

Lemma slice2 o l :
  0 <= o -> o + 2 <= zlen l -> slice o (o + 2) l = [byte_at l o; byte_at l (o + 1)].
Proof.
  unfold slice, byte_at, zlen. intros.
  replace (Z.to_nat (o + 2 - o)) with 2%nat by lia.
  replace (Z.to_nat (o + 1)) with (S (Z.to_nat o)) by lia.
  destruct (drop (Z.to_nat o) l) as [|a [|b k]] eqn:E.
  - apply (f_equal length) in E. rewrite length_drop in E. simpl in E. lia.
  - apply (f_equal length) in E. rewrite length_drop in E. simpl in E. lia.
  - simpl. rewrite take_0.
    assert (l = take (Z.to_nat o) l ++ a :: b :: k) as Hl by (by rewrite <- E, take_drop).
    assert (length (take (Z.to_nat o) l) = Z.to_nat o) as Ht by (rewrite length_take; lia).
    rewrite Hl at 1 2. do 2 (rewrite app_nth2 by lia). rewrite Ht.
    replace (Z.to_nat o - Z.to_nat o)%nat with 0%nat by lia.
    by replace (S (Z.to_nat o) - Z.to_nat o)%nat with 1%nat by lia.
Qed.

Lemma byte_at_slice l lo hi i :
  0 <= lo -> 0 <= i < hi - lo -> hi <= zlen l -> byte_at (slice lo hi l) i = byte_at l (lo + i).
Proof.
  unfold byte_at, zlen. intros. rewrite !nth_lookup, lookup_slice by lia.
  do 2 f_equal. lia.
Qed.

Lemma byte_at_app_l l k i : 0 <= i < zlen l -> byte_at (l ++ k) i = byte_at l i.
Proof. unfold byte_at, zlen. intros. apply app_nth1. lia. Qed.

Lemma byte_at_app_r l k i : zlen l <= i -> byte_at (l ++ k) i = byte_at k (i - zlen l).
Proof. unfold byte_at, zlen. intros. rewrite app_nth2 by lia. f_equal. lia. Qed.

Lemma byte_at_take l n i : 0 <= i < n -> byte_at (take (Z.to_nat n) l) i = byte_at l i.
Proof. unfold byte_at. intros. rewrite !nth_lookup, lookup_take_lt by lia. done. Qed.

Lemma byte_at_drop l n i : 0 <= n -> 0 <= i -> byte_at (drop (Z.to_nat n) l) i = byte_at l (n + i).
Proof. unfold byte_at. intros. rewrite !nth_lookup, lookup_drop. do 2 f_equal. lia. Qed.

Lemma byte_at_beyond l i : zlen l <= i -> byte_at l i = 0.
Proof. unfold byte_at, zlen. intros. apply nth_overflow. lia. Qed.

Lemma byte_at_zeros n i : byte_at (zeros n) i = 0.
Proof.
  unfold byte_at, zeros. rewrite nth_lookup. destruct (decide (Z.to_nat i < Z.to_nat n)%nat).
  - by rewrite lookup_replicate_2.
  - by rewrite lookup_ge_None_2 by (rewrite length_replicate; lia).
Qed.

Lemma byte_at_splice off src l i :
  0 <= off <= zlen l -> 0 <= i ->
  byte_at (splice off src l) i =
    if (off <=? i) && (i <? off + zlen src) then byte_at src (i - off) else byte_at l i.
Proof.
  intros Ho Hi. unfold splice.
  assert (zlen (take (Z.to_nat off) l) = off) as Et by (unfold zlen in *; rewrite length_take; lia).
  destruct (Z.leb_spec off i) as [H1|H1]; simpl.
  - rewrite byte_at_app_r, Et by lia. destruct (Z.ltb_spec i (off + zlen src)) as [H2|H2].
    + apply byte_at_app_l. lia.
    + rewrite byte_at_app_r by lia.
      replace (Z.to_nat off + length src)%nat with (Z.to_nat (off + zlen src)) by (unfold zlen; lia).
      pose proof (zlen_nonneg src). rewrite byte_at_drop by lia. f_equal. lia.
  - rewrite byte_at_app_l by lia. apply byte_at_take. lia.
Qed.

(** Lists with the same bytes are equal. *)
Lemma bytes_eq (l k : list Z) :
  zlen l = zlen k -> (forall i, 0 <= i < zlen l -> byte_at l i = byte_at k i) -> l = k.
Proof.
  unfold zlen. intros Hl Hb. apply list_eq. intros i. destruct (decide (i < length l)%nat) as [Hi|Hi].
  - specialize (Hb (Z.of_nat i) ltac:(lia)). unfold byte_at in Hb. rewrite Nat2Z.id in Hb.
    destruct (lookup_lt_is_Some_2 l i Hi) as [x Hx], (lookup_lt_is_Some_2 k i ltac:(lia)) as [y Hy].
    rewrite Hx, Hy. f_equal. rewrite !nth_lookup, Hx, Hy in Hb. exact Hb.
  - rewrite !lookup_ge_None_2 by lia. done.
Qed.

(** * Automation *)

Create HintDb kaguya.
Create Rewrite HintDb kaguya.
#[export] Hint Resolve le_bytes_ok be_bytes_ok zeros_ok splice_ok slice_ok zlen_nonneg : kaguya.
#[export] Hint Rewrite @zlen_app @length_le_bytes @length_be_bytes : kaguya.

(** [lia] with quotients and remainders. *)
Ltac dlia := zify; Z.div_mod_to_equations; lia.

(** Case analysis on the boolean comparisons of the goal or the context. *)
Ltac zcase :=
  repeat match goal with
  | |- context [?a <=? ?b] => destruct (Z.leb_spec a b)
  | |- context [?a <? ?b] => destruct (Z.ltb_spec a b)
  | |- context [?a =? ?b] => destruct (Z.eqb_spec a b)
  | H : context [?a <=? ?b] |- _ => destruct (Z.leb_spec a b)
  | H : context [?a <? ?b] |- _ => destruct (Z.ltb_spec a b)
  | H : context [?a =? ?b] |- _ => destruct (Z.eqb_spec a b)
  end.

(** * Scans *)

(** The first element of a list that satisfies a test. *)
Fixpoint first_such {A} (f : A -> bool) (l : list A) : option A :=
  match l with
  | [] => None
  | x :: l => if f x then Some x else first_such f l
  end.

Lemma first_such_Some {A} (f : A -> bool) l x :
  first_such f l = Some x -> x ∈ l /\ f x = true.
Proof.
  induction l as [|y l IH]; [done|]. simpl. destruct (f y) eqn:E; intros ?; simplify_eq.
  - split; [left|done].
  - destruct IH as [? ?]; [done|]. split; [by right|done].
Qed.

Lemma first_such_None {A} (f : A -> bool) l :
  first_such f l = None <-> forall x, x ∈ l -> f x = false.
Proof.
  induction l as [|y l IH]; simpl.
  - split; [intros _ x Hx; by apply not_elem_of_nil in Hx|done].
  - destruct (f y) eqn:E.
    + split; [done|]. intros Hall. specialize (Hall y (list_elem_of_here _ _)). congruence.
    + rewrite IH. setoid_rewrite elem_of_cons. split; [|by eauto].
      intros Hall x [->|Hx]; [done|by apply Hall].
Qed.

Lemma first_such_ext {A} (f g : A -> bool) l :
  (forall x, x ∈ l -> f x = g x) -> first_such f l = first_such g l.
Proof.
  induction l as [|y l IH]; intros Hfg; [done|]. simpl.
  rewrite Hfg by left. destruct (g y); [done|]. apply IH. intros x Hx. apply Hfg. by right.
Qed.

(** * Counting *)

(** How many elements of a list satisfy a test. *)
Definition count {A} (f : A -> bool) (l : list A) : nat := length (filter (fun x => f x = true) l).

Lemma count_cons {A} (f : A -> bool) x l : count f (x :: l) = ((if f x then 1 else 0) + count f l)%nat.
Proof. unfold count. rewrite filter_cons. case_decide as H; [by rewrite H|]. by destruct (f x). Qed.

Lemma count_ext {A} (f g : A -> bool) l :
  (forall x, x ∈ l -> f x = g x) -> count f l = count g l.
Proof.
  induction l as [|y l IH]; intros Hfg; [done|]. rewrite !count_cons, Hfg by left.
  rewrite IH; [done|]. intros x Hx. apply Hfg. by right.
Qed.

(** Turning one element off lowers the count by one. *)
Lemma count_flip {A} `{EqDecision A} (f g : A -> bool) l c :
  NoDup l -> c ∈ l -> f c = true -> g c = false -> (forall x, x <> c -> g x = f x) ->
  count f l = S (count g l).
Proof.
  induction 1 as [|y l Hy Hnd IH]; intros Hc Hf Hg Hne; [by apply not_elem_of_nil in Hc|].
  rewrite !count_cons. destruct (decide (y = c)) as [->|Hyc].
  - rewrite Hf, Hg. simpl. f_equal. apply count_ext. intros x Hx. symmetry. apply Hne.
    intros ->. done.
  - rewrite (Hne y) by done. apply elem_of_cons in Hc as [->|Hc]; [done|].
    rewrite IH by done. lia.
Qed.

Lemma count_pos {A} (f : A -> bool) l : first_such f l <> None <-> (0 < count f l)%nat.
Proof.
  induction l as [|y l IH]; simpl; [unfold count; simpl; split; [done|lia]|].
  rewrite count_cons. destruct (f y); [|done].
  split; [lia|done].
Qed.

Lemma count_le {A} (f : A -> bool) l : (count f l <= length l)%nat.
Proof. unfold count. apply length_filter. Qed.

Lemma count_all {A} (f : A -> bool) l : (forall x, x ∈ l -> f x = true) -> count f l = length l.
Proof.
  induction l as [|y l IH]; intros Hf; [done|]. rewrite count_cons, Hf by left. simpl. f_equal.
  apply IH. intros x Hx. apply Hf. by right.
Qed.

(** Replacing one element. *)
Lemma count_insert {A} (f : A -> bool) l i x y :
  l !! i = Some x ->
  (count f (<[i := y]> l) + (if f x then 1 else 0) = count f l + (if f y then 1 else 0))%nat.
Proof.
  revert i. induction l as [|z l IH]; intros [|i] Hi; simplify_eq/=; rewrite !count_cons; [lia|].
  specialize (IH i Hi). lia.
Qed.

Lemma count_fmap {A} (f : A -> bool) (g : A -> A) l :
  (forall x, f (g x) = f x) -> count f (g <$> l) = count f l.
Proof. intros Hg. induction l as [|x l IH]; [done|]. by rewrite fmap_cons, !count_cons, Hg, IH. Qed.

Lemma count_elem {A} (f : A -> bool) l i x : l !! i = Some x -> f x = true -> (0 < count f l)%nat.
Proof.
  revert i. induction l as [|z l IH]; intros [|i] Hi Hf; simplify_eq/=; rewrite count_cons.
  - rewrite Hf. lia.
  - specialize (IH i Hi Hf). lia.
Qed.

Lemma count_none {A} (f : A -> bool) l : Forall (fun x => f x = false) l -> count f l = 0%nat.
Proof. induction 1 as [|x l Hx _ IH]; [done|]. by rewrite count_cons, Hx, IH. Qed.

Arguments count : simpl never.
