(* ===== verification/Utf8.v ===== *)
(** UTF-8 as the standard library of Rust checks and repairs it. *)

From S2P Require Import Prelude.

Module Utf8.

Definition cont (b : Z) : bool := (0x80 <=? b) && (b <=? 0xBF).
Definition within (lo hi b : Z) : bool := (lo <=? b) && (b <=? hi).

(** The second byte of a sequence of three or four. *)
Definition second3 (b0 b1 : Z) : bool :=
  ((b0 =? 0xE0) && within 0xA0 0xBF b1) || (within 0xE1 0xEC b0 && cont b1) ||
  ((b0 =? 0xED) && within 0x80 0x9F b1) || (within 0xEE 0xEF b0 && cont b1).
Definition second4 (b0 b1 : Z) : bool :=
  ((b0 =? 0xF0) && within 0x90 0xBF b1) || (within 0xF1 0xF3 b0 && cont b1) ||
  ((b0 =? 0xF4) && within 0x80 0x8F b1).

(** The sequence at the start of [l]: whether it is a character, and its
    length, or the length of what is wrong with it.  A missing byte counts as
    zero, as in the library. *)
Definition utf8_char (l : list Z) : bool * nat :=
  let b0 := nth 0 l 0 in let b1 := nth 1 l 0 in let b2 := nth 2 l 0 in let b3 := nth 3 l 0 in
  if b0 <? 0x80 then (true, 1%nat)
  else if within 0xC2 0xDF b0 then (if cont b1 then (true, 2%nat) else (false, 1%nat))
  else if within 0xE0 0xEF b0 then
    (if second3 b0 b1 then (if cont b2 then (true, 3%nat) else (false, 2%nat)) else (false, 1%nat))
  else if within 0xF0 0xF4 b0 then
    (if second4 b0 b1 then
       (if cont b2 then (if cont b3 then (true, 4%nat) else (false, 3%nat)) else (false, 2%nat))
     else (false, 1%nat))
  else (false, 1%nat).

(** [str::from_utf8(l).is_ok()]; every sequence has at least one byte. *)
Fixpoint valid_from (fuel : nat) (l : list Z) : bool :=
  match fuel, l with
  | _, [] => true
  | O, _ => false
  | S fuel, _ => let '(ok, n) := utf8_char l in ok && valid_from fuel (drop n l)
  end.

Definition from_utf8 (l : list Z) : bool := valid_from (length l) l.

(** [String::from_utf8_lossy(l)]: each wrong sequence becomes U+FFFD. *)
Fixpoint lossy_from (fuel : nat) (l : list Z) : list Z :=
  match fuel, l with
  | _, [] => []
  | O, _ => []
  | S fuel, _ =>
      let '(ok, n) := utf8_char l in
      (if ok then take n l else [0xEF; 0xBF; 0xBD]) ++ lossy_from fuel (drop n l)
  end.

Definition from_utf8_lossy (l : list Z) : list Z := lossy_from (length l) l.

Lemma utf8_char_length l : l <> [] -> (1 <= (utf8_char l).2)%nat.
Proof. intros _. unfold utf8_char. cbv zeta. repeat case_match; simpl; lia. Qed.

Lemma lossy_valid fuel l : valid_from fuel l = true -> lossy_from fuel l = l.
Proof.
  revert l. induction fuel as [|fuel IH]; intros [|b l] Hv; try done. cbn [valid_from lossy_from] in *.
  destruct (utf8_char (b :: l)) as [ok n]. apply andb_true_iff in Hv as [-> Hv].
  rewrite IH by exact Hv. apply take_drop.
Qed.

(** Valid text is left alone. *)
Lemma from_utf8_lossy_valid l : from_utf8 l = true -> from_utf8_lossy l = l.
Proof. apply lossy_valid. Qed.

(** The repaired text of a byte that starts no character. *)
Example lossy_demo : from_utf8_lossy [104; 0xFF; 0xC3; 0xA9; 0xE2; 0x82] = [104; 0xEF; 0xBF; 0xBD; 0xC3; 0xA9; 0xEF; 0xBF; 0xBD].
Proof. reflexivity. Qed.

End Utf8.
