(* ===== verification/Sync.v ===== *)
(** The interrupt-safe spinlock (src/src/sync/mod.rs).

    Any number of processors run [lock], [try_lock] and the guard's [drop] on
    one lock.  A processor is interrupted only while its interrupt flag is
    set; the handler runs on the same processor, with interrupts off, and may
    use the same lock.  A processor is therefore a stack of activities, the
    running one first. *)

From S2P Require Import Prelude.

(** What an activity is doing with the lock.  The argument is the guard's
    [interrupts_enabled], the flag saved before [cli]. *)
Inductive frame : Type :=
| Out
| Spin (interrupts_enabled : bool)
| Hold (interrupts_enabled : bool)
| Rel (interrupts_enabled : bool).

Record cpu : Type := mk_cpu { iflag : bool; frames : list frame }.
Record machine : Type := mk_machine { locked : bool; cpus : list cpu }.

Definition set_cpu (m : machine) (b : bool) (i : nat) (c : cpu) : machine :=
  mk_machine b (<[i := c]> (cpus m)).

(** The atomic steps. [lock] saves the flag and disables interrupts, then
    spins on the compare-exchange; the guard's [drop] clears the lock and then
    enables interrupts if they were enabled. *)
Inductive step (m : machine) : machine -> Prop :=
| lock_cli i f fs :
    cpus m !! i = Some (mk_cpu f (Out :: fs)) ->
    step m (set_cpu m (locked m) i (mk_cpu false (Spin f :: fs)))
| lock_acquire i b f fs :
    cpus m !! i = Some (mk_cpu b (Spin f :: fs)) -> locked m = false ->
    step m (set_cpu m true i (mk_cpu b (Hold f :: fs)))
| try_lock_ok i f fs :
    cpus m !! i = Some (mk_cpu f (Out :: fs)) -> locked m = false ->
    step m (set_cpu m true i (mk_cpu false (Hold f :: fs)))
| try_lock_busy i f fs :
    cpus m !! i = Some (mk_cpu f (Out :: fs)) -> locked m = true ->
    step m (set_cpu m true i (mk_cpu f (Out :: fs)))
| drop_store i b f fs :
    cpus m !! i = Some (mk_cpu b (Hold f :: fs)) ->
    step m (set_cpu m false i (mk_cpu b (Rel f :: fs)))
| drop_sti i b f fs :
    cpus m !! i = Some (mk_cpu b (Rel f :: fs)) ->
    step m (set_cpu m (locked m) i (mk_cpu (if f then true else b) (Out :: fs)))
| irq i fs :
    cpus m !! i = Some (mk_cpu true fs) ->
    step m (set_cpu m (locked m) i (mk_cpu false (Out :: fs)))
| iret i b g fs :
    cpus m !! i = Some (mk_cpu b (Out :: g :: fs)) ->
    step m (set_cpu m (locked m) i (mk_cpu true (g :: fs))).

Definition init (k : nat) (f : bool) : machine := mk_machine false (replicate k (mk_cpu f [Out])).
Definition reachable (k : nat) (f : bool) (m : machine) : Prop := rtc step (init k f) m.

(** * The invariant *)

Definition holds (c : cpu) : bool := match frames c with Hold _ :: _ => true | _ => false end.

(** Only the running activity can be busy with the lock, and then interrupts
    are off. *)
Definition cpu_ok (c : cpu) : Prop :=
  match frames c with
  | [] => False
  | Out :: fs => Forall (eq Out) fs
  | _ :: fs => iflag c = false /\ Forall (eq Out) fs
  end.

Record Inv (m : machine) : Prop := {
  inv_cpus : Forall cpu_ok (cpus m);
  inv_holders : count holds (cpus m) = if locked m then 1%nat else 0%nat;
}.

Lemma sync_init_Inv k f : Inv (init k f).
Proof.
  split; simpl; [by apply Forall_replicate; constructor|]. apply count_none. by apply Forall_replicate.
Qed.

Lemma sync_step_Inv m m' : Inv m -> step m m' -> Inv m'.
Proof.
  intros [Hok Hc] Hstep.
  destruct Hstep; match goal with H : cpus m !! ?i = Some ?c |- Inv (set_cpu m _ _ ?c') =>
    pose proof (proj1 (Forall_lookup _ _) Hok i c H) as Hi;
    pose proof (count_insert holds (cpus m) i c c' H) as Hn end;
  unfold cpu_ok in Hi; cbn in Hi, Hn.
  all: repeat match goal with H : locked ?x = _ |- _ => rewrite H in * end.
  all: split; [apply Forall_insert; [done|]; unfold cpu_ok; simpl|cbn; try lia]; destruct_and?; try done.
  - destruct (locked m); lia.
  - destruct fs as [|[] fs]; try done; [by constructor|..]; by destruct Hi.
  - destruct (locked m), fs as [|[] fs]; cbn in *; try lia; by destruct Hi.
  - apply Forall_cons in Hi as [<- Hi]. done.
  - apply Forall_cons in Hi as [<- Hi]. cbn in *. lia.
Qed.

Lemma sync_reachable_Inv k f m : reachable k f m -> Inv m.
Proof.
  intros Hr. pattern m. eapply rtc_ind_r; [apply sync_init_Inv| |exact Hr].
  intros x y _ Hxy Hx. by eapply sync_step_Inv.
Qed.

Lemma count_one {A} (f : A -> bool) l i j x y :
  (count f l <= 1)%nat -> l !! i = Some x -> l !! j = Some y -> f x = true -> f y = true -> i = j.
Proof.
  revert i j. induction l as [|z l IH]; intros [|i] [|j] Hc Hi Hj Hx Hy; simplify_eq/=; try done;
    rewrite count_cons in Hc.
  - rewrite Hx in Hc. pose proof (count_elem f l j y Hj Hy). lia.
  - rewrite Hy in Hc. pose proof (count_elem f l i x Hi Hx). lia.
  - f_equal. apply IH; [lia|done..].
Qed.

(** C29: Mutual exclusion and no re-entry.  On any number of processors, with
    interrupts arriving at any time they are enabled, at most one processor
    holds the lock; the activity that holds it is the running one, with
    interrupts off, and no activity it interrupted is busy with the lock.  So
    a handler never spins on a lock its own processor holds. *)
Theorem spinlock_exclusive k f m i c :
  reachable k f m -> cpus m !! i = Some c -> Exists (fun fr => exists b, fr = Hold b) (frames c) ->
  locked m = true /\ iflag c = false /\
  (exists b fs, frames c = Hold b :: fs /\ Forall (eq Out) fs) /\
  forall j c', cpus m !! j = Some c' -> Exists (fun fr => exists b, fr = Hold b) (frames c') -> j = i.
Proof.
  intros Hr Hi Hex. destruct (sync_reachable_Inv k f m Hr) as [Hok Hc].
  assert (forall j c', cpus m !! j = Some c' -> Exists (fun fr => exists b, fr = Hold b) (frames c') ->
    iflag c' = false /\ exists b fs, frames c' = Hold b :: fs /\ Forall (eq Out) fs) as Htop.
  { intros j c' Hj Hex'. pose proof (proj1 (Forall_lookup _ _) Hok j c' Hj) as Hc'. unfold cpu_ok in Hc'.
    apply Exists_exists in Hex' as (fr & Hin & b & ->).
    assert (forall fs, Forall (eq Out) fs -> Hold b ∈ fs -> False) as Hno
      by (intros fs Hf Hb; rewrite Forall_forall in Hf; by specialize (Hf _ Hb)).
    destruct (frames c') as [|[] fs]; [done|..]; destruct_and?; apply elem_of_cons in Hin as [Hin|Hin];
      simplify_eq; try (by exfalso; eapply Hno); eauto 6. }
  destruct (Htop i c Hi Hex) as [Hf (b & fs & Hfr & Hout)].
  assert (holds c = true) as Hh by (unfold holds; by rewrite Hfr).
  pose proof (count_elem holds _ _ _ Hi Hh) as Hpos.
  split; [destruct (locked m); [done|lia]|]. split; [done|]. split; [by eauto|].
  intros j c' Hj Hex'. destruct (Htop j c' Hj Hex') as [_ (b' & fs' & Hfr' & _)].
  apply (count_one holds (cpus m) j i c' c); try done; [destruct (locked m); lia|].
  unfold holds. by rewrite Hfr'.
Qed.

(** Two processors: one holds the lock in an interrupt handler, the other spins. *)
Definition busy : machine :=
  mk_machine true [mk_cpu false [Hold false; Out]; mk_cpu false [Spin true]].

Lemma busy_reachable : reachable 2 true busy.
Proof.
  unfold reachable.
  eapply rtc_l; [apply (irq _ 0 [Out]); done|].
  eapply rtc_l; [apply (try_lock_ok _ 0 false [Out]); done|].
  eapply rtc_l; [apply (lock_cli _ 1 true []); done|].
  apply rtc_refl.
Qed.

Lemma spinlock_exclusive_witness :
  locked busy = true /\ iflag (mk_cpu false [Hold false; Out]) = false /\
  (exists b fs, frames (mk_cpu false [Hold false; Out]) = Hold b :: fs /\ Forall (eq Out) fs) /\
  forall j c', cpus busy !! j = Some c' -> Exists (fun fr => exists b, fr = Hold b) (frames c') -> j = 0%nat.
Proof.
  apply (spinlock_exclusive 2 true busy 0 _ busy_reachable); [reflexivity|].
  left. exists false. reflexivity.
Defined.
