(* ===== verification/BlockDev.v ===== *)
(** The block device below the file system (src/src/fs.rs).

    The file system reaches its disk only through [read_blocks_unlocked] and
    [write_blocks_unlocked].  [BlockDevice] is that interface,
    [ReliableDevice] is the contract a healthy device keeps (a read returns
    the blocks last written, a write changes exactly the blocks it names), and
    [ram_device] is the RAM disk of the diskless shell ([ram_transfer]), which
    is proved to keep the contract.  The file system's theorems are proved
    against the contract. *)

From S2P Require Import Prelude.
Open Scope kmonad_scope.

Definition BLOCK_SIZE : Z := 512.

(** * The interface *)

(** What the file system can observe of its disk. [dev_read d lba count]
    reads [count] sectors; a read leaves the contents alone. *)
Class BlockDevice (D : Type) : Type := {
  TOTAL_SECTORS : Z;
  is_ready : D -> bool;
  dev_read : D -> Z -> Z -> res (list Z);
  dev_write : D -> Z -> Z -> list Z -> D * res unit;
}.

(** The sectors [lba, lba + count) of a disk whose sector [i] is [blk i]. *)
Definition sectors (blk : Z -> list Z) (lba count : Z) : list Z :=
  concat (blk <$> seqZ lba count).

(** The contract of a working device. [dev_ok] is its invariant and [block]
    its contents. [dev_size]: the disk has room for the layout of KAGFAT16 and
    one cluster, and its sector count fits the [u32] fields of the boot
    sector. *)
Class ReliableDevice (D : Type) `{BlockDevice D} : Type := {
  dev_ok : D -> Prop;
  block : D -> Z -> list Z;
  dev_size : 89 <= TOTAL_SECTORS < 2 ^ 32;
  dev_ok_ready d : dev_ok d -> is_ready d = true;
  block_len d lba : dev_ok d -> 0 <= lba < TOTAL_SECTORS -> zlen (block d lba) = BLOCK_SIZE;
  block_bytes d lba : dev_ok d -> 0 <= lba < TOTAL_SECTORS -> bytes_ok (block d lba);
  dev_read_ok d lba count :
    dev_ok d -> 0 <= lba -> 0 < count -> lba + count <= TOTAL_SECTORS ->
    dev_read d lba count = Ok (sectors (block d) lba count);
  dev_write_ok d lba count data :
    dev_ok d -> 0 <= lba -> 0 < count -> lba + count <= TOTAL_SECTORS ->
    zlen data = count * BLOCK_SIZE -> bytes_ok data ->
    exists d', dev_write d lba count data = (d', Ok tt) /\ dev_ok d' /\
      forall i, block d' i =
        if (lba <=? i) && (i <? lba + count)
        then slice ((i - lba) * BLOCK_SIZE) ((i - lba + 1) * BLOCK_SIZE) data
        else block d i;
}.

(** * The RAM disk of the diskless shell *)

Module Ram.
(** 8 MiB *)
Definition RAM_SECTORS : Z := 8 * 1024 * 1024 / BLOCK_SIZE.

(** [RAM_DISK]: [None] is the null pointer. The region is kept sector by
    sector; a sector that was never written holds the zeros the caller of
    [init_ram_disk] supplied. *)
Definition ram_disk : Type := option (gmap Z (list Z)).

Definition ram_block (m : gmap Z (list Z)) (lba : Z) : list Z :=
  default (zeros BLOCK_SIZE) (m !! lba).

Fixpoint store_sectors (m : gmap Z (list Z)) (lba : Z) (n : nat) (data : list Z)
  : gmap Z (list Z) :=
  match n with
  | O => m
  | S n =>
      store_sectors (<[lba := slice 0 BLOCK_SIZE data]> m) (lba + 1) n
        (drop (Z.to_nat BLOCK_SIZE) data)
  end.

(** The checks [ram_transfer] makes before it copies. *)
Definition transfer_check (disk : ram_disk) (lba count : Z) : res (gmap Z (list Z)) :=
  match disk with
  | None => Err NotReady
  | Some m =>
      match checked_add64 lba count with
      | Some fin => if fin <=? RAM_SECTORS then Ok m else Err InvalidArgument
      | None => Err InvalidArgument
      end
  end.

Definition ram_read (disk : ram_disk) (lba count : Z) : res (list Z) :=
  match transfer_check disk lba count with
  | Ok m => Ok (sectors (ram_block m) lba count)
  | Err e => Err e
  | Panic => Panic
  | Hang => Hang
  end.

Definition ram_write (disk : ram_disk) (lba count : Z) (data : list Z) : ram_disk * res unit :=
  match transfer_check disk lba count with
  | Ok m => (Some (store_sectors m lba (Z.to_nat count) data), Ok tt)
  | Err e => (disk, Err e)
  | Panic => (disk, Panic)
  | Hang => (disk, Hang)
  end.

#[export] Instance ram_device : BlockDevice ram_disk := {
  TOTAL_SECTORS := RAM_SECTORS;
  is_ready disk := match disk with Some _ => true | None => false end;
  dev_read := ram_read;
  dev_write := ram_write;
}.

(** Every sector ever written holds 512 bytes. *)
Definition ram_ok (disk : ram_disk) : Prop :=
  match disk with
  | None => False
  | Some m => map_Forall (fun _ b => zlen b = BLOCK_SIZE /\ bytes_ok b) m
  end.

Definition ram_contents (disk : ram_disk) (lba : Z) : list Z :=
  match disk with None => [] | Some m => ram_block m lba end.

Lemma ram_block_shape disk lba :
  ram_ok disk -> zlen (ram_contents disk lba) = BLOCK_SIZE /\ bytes_ok (ram_contents disk lba).
Proof.
  destruct disk as [m|]; [|done]. intros Hok. unfold ram_contents, ram_block.
  destruct (m !! lba) as [b|] eqn:E; simpl; [by apply (Hok lba)|].
  split; [by apply zlen_zeros|apply zeros_ok].
Qed.

Lemma store_sectors_ok m lba n data :
  ram_ok (Some m) -> zlen data = Z.of_nat n * BLOCK_SIZE -> bytes_ok data ->
  ram_ok (Some (store_sectors m lba n data)).
Proof.
  unfold BLOCK_SIZE. revert m lba data. induction n as [|n IH]; intros m lba data Hm Hl Hb; [done|].
  cbn [store_sectors]. apply IH.
  - apply map_Forall_insert_2; [|done]. unfold BLOCK_SIZE.
    rewrite zlen_slice by lia. auto with kaguya.
  - unfold zlen in *. rewrite length_drop. unfold BLOCK_SIZE. lia.
  - by apply Forall_drop.
Qed.

Lemma store_sectors_lookup m lba n data i :
  zlen data = Z.of_nat n * BLOCK_SIZE ->
  ram_block (store_sectors m lba n data) i =
    if (lba <=? i) && (i <? lba + Z.of_nat n)
    then slice ((i - lba) * BLOCK_SIZE) ((i - lba + 1) * BLOCK_SIZE) data
    else ram_block m i.
Proof.
  revert m lba data. induction n as [|n IH]; intros m lba data Hl.
  - zcase; simpl; try lia; done.
  - cbn [store_sectors]. rewrite IH.
    2: { unfold zlen, BLOCK_SIZE in *. rewrite length_drop. lia. }
    assert (slice 0 BLOCK_SIZE data = slice ((lba - lba) * BLOCK_SIZE) ((lba - lba + 1) * BLOCK_SIZE) data)
      as Hz by (f_equal; lia).
    zcase; simpl; try lia.
    { unfold slice. rewrite drop_drop. unfold BLOCK_SIZE. f_equal; [lia|f_equal; lia]. }
    all: unfold ram_block; destruct (decide (lba = i)) as [<-|Hne];
      [rewrite lookup_insert_eq|rewrite lookup_insert_ne by done]; first [lia|done|exact Hz].
Qed.

Lemma transfer_check_ok m lba count :
  0 <= lba -> 0 < count -> lba + count <= RAM_SECTORS -> transfer_check (Some m) lba count = Ok m.
Proof.
  intros. unfold transfer_check, checked_add64.
  change RAM_SECTORS with 16384 in *. change u64_max with 18446744073709551615.
  zcase; simpl; try lia; done.
Qed.

#[export] Program Instance ram_reliable : ReliableDevice ram_disk := {
  dev_ok := ram_ok;
  block := ram_contents;
}.
Next Obligation. done. Qed.
Next Obligation. by intros [m|]. Qed.
Next Obligation. intros d lba Hd _. by apply ram_block_shape. Qed.
Next Obligation. intros d lba Hd _. by apply ram_block_shape. Qed.
Next Obligation.
  intros [m|] lba count Hok; [|done]. intros. cbn. unfold ram_read.
  by rewrite transfer_check_ok.
Qed.
Next Obligation.
  intros [m|] lba count data Hok Hlba Hc Hr Hl Hb; [|done].
  exists (Some (store_sectors m lba (Z.to_nat count) data)).
  cbn -[store_sectors]. unfold ram_write. rewrite transfer_check_ok by done.
  split; [done|]. assert (Z.of_nat (Z.to_nat count) = count) as Hn by lia.
  split; [apply store_sectors_ok; [done|by rewrite Hn|done]|].
  intros i. rewrite store_sectors_lookup by (by rewrite Hn). by rewrite Hn.
Qed.
End Ram.

(** * The file system's access to the device *)

Section access.
Context {D : Type} `{BlockDevice D}.

(** [SLOT_GENERATIONS] lives next to the device: both are protected by
    [FS_LOCK]. *)
Record fs : Type := mk_fs {
  dev : D;
  gens : list Z;
}.

Definition read_blocks_unlocked (lba count : Z) : M fs (list Z) :=
  if count =? 0 then kfail InvalidArgument
  else fun s => (s, dev_read (dev s) lba count).

Definition write_blocks_unlocked (lba count : Z) (buffer : list Z) : M fs unit :=
  if count =? 0 then kfail InvalidArgument
  else fun s =>
    let '(d, r) := dev_write (dev s) lba count buffer in (mk_fs d (gens s), r).

Definition read_block_unlocked (lba : Z) : M fs (list Z) := read_blocks_unlocked lba 1.
Definition write_block_unlocked (lba : Z) (buffer : list Z) : M fs unit :=
  write_blocks_unlocked lba 1 buffer.
End access.
Arguments fs : clear implicits.
