(* ===== verification/Fat.v ===== *)
(** The KAGFAT16 file system: the operations of src/src/fs.rs.

    State: the block device and the slot generations ([fs] of BlockDev).
    Every function below the public, locked API is a definition in the state
    and error monad; the public API calls it under [FS_LOCK], so each call is
    one atomic step.  FatRep, FatChain and FatSpec hold the theorems. *)

From S2P Require Import Prelude BlockDev.
Open Scope kmonad_scope.

(** * Layout *)

Definition SECTORS_PER_CLUSTER : Z := 8.
Definition BOOT_SECTOR_LBA : Z := 0.
Definition FAT_SECTORS : Z := 64.
Definition FAT_START_LBA : Z := 1.
Definition ROOT_DIR_SECTORS : Z := 16.
Definition ROOT_DIR_ENTRIES : Z := (ROOT_DIR_SECTORS * BLOCK_SIZE) / 32.
Definition ROOT_DIR_START_LBA : Z := FAT_START_LBA + FAT_SECTORS.
Definition DATA_START_LBA : Z := ROOT_DIR_START_LBA + ROOT_DIR_SECTORS.
Definition FAT_ENTRY_FREE : Z := 0x0000.
Definition FAT_ENTRY_EOC : Z := 0xFFFF.
Definition FAT_ENTRY_RESERVED : Z := 0xFFF0.
Definition FAT_MAGIC : Z := 0x4B41474641543136.
Definition DIR_ENTRIES_PER_SECTOR : Z := BLOCK_SIZE / 32.
Definition CLUSTER_BYTES : Z := SECTORS_PER_CLUSTER * BLOCK_SIZE.

(** * On-disk structures *)

Record BootSector : Type := mk_boot {
  magic : Z;
  bytes_per_sector : Z;
  sectors_per_cluster : Z;
  fat_start_lba : Z;
  fat_sectors : Z;
  root_dir_start_lba : Z;
  root_dir_sectors : Z;
  data_start_lba : Z;
  total_clusters : Z;
  padding : list Z;
}.

(** [repr(C, packed)] *)
Definition boot_to_bytes (bs : BootSector) : list Z :=
  le_bytes 8 (magic bs) ++ le_bytes 2 (bytes_per_sector bs) ++
  le_bytes 4 (sectors_per_cluster bs) ++ le_bytes 4 (fat_start_lba bs) ++
  le_bytes 4 (fat_sectors bs) ++ le_bytes 4 (root_dir_start_lba bs) ++
  le_bytes 4 (root_dir_sectors bs) ++ le_bytes 4 (data_start_lba bs) ++
  le_bytes 4 (total_clusters bs) ++ padding bs.

Definition boot_of_bytes (b : list Z) : BootSector := {|
  magic := le_val (slice 0 8 b);
  bytes_per_sector := le_val (slice 8 10 b);
  sectors_per_cluster := le_val (slice 10 14 b);
  fat_start_lba := le_val (slice 14 18 b);
  fat_sectors := le_val (slice 18 22 b);
  root_dir_start_lba := le_val (slice 22 26 b);
  root_dir_sectors := le_val (slice 26 30 b);
  data_start_lba := le_val (slice 30 34 b);
  total_clusters := le_val (slice 34 38 b);
  padding := slice 38 512 b;
|}.

Record FatDirEntry : Type := mk_entry {
  name : list Z;
  first_cluster : Z;
  size : Z;
  in_use : Z;
  reserved : list Z;
}.

Definition entry_to_bytes (e : FatDirEntry) : list Z :=
  name e ++ le_bytes 2 (first_cluster e) ++ le_bytes 4 (size e) ++ [in_use e] ++ reserved e.

Definition entry_of_bytes (b : list Z) : FatDirEntry := {|
  name := slice 0 22 b;
  first_cluster := le_val (slice 22 24 b);
  size := le_val (slice 24 28 b);
  in_use := byte_at b 28;
  reserved := slice 29 32 b;
|}.

(** The cleared entry that [create_file_unlocked] and [delete_file_unlocked] write. *)
Definition empty_entry : FatDirEntry := {|
  name := zeros 22; first_cluster := 0; size := 0; in_use := 0; reserved := zeros 3;
|}.

(** An entry for a new file: its name is zero padded to 22 bytes. *)
Definition new_entry (name_bytes : list Z) (fc sz : Z) : FatDirEntry := {|
  name := splice 0 name_bytes (zeros 22);
  first_cluster := fc; size := sz; in_use := 1; reserved := zeros 3;
|}.

(** [while len < 22 && entry.name[len] != 0 { len += 1 }] *)
Fixpoint name_len (l : list Z) : nat :=
  match l with
  | [] => 0
  | b :: l => if b =? 0 then 0 else S (name_len l)
  end.

Definition entry_name (e : FatDirEntry) : list Z := take (name_len (name e)) (name e).

Record FileId : Type := mk_id { slot : Z; generation : Z }.

#[export] Instance FileId_eq_dec : EqDecision FileId.
Proof. solve_decision. Defined.

Definition is_data_cluster (cluster : Z) : bool :=
  (2 <=? cluster) && (cluster <? FAT_ENTRY_RESERVED).

Definition cluster_to_lba (cluster : Z) : Z :=
  DATA_START_LBA + (cluster - 2) * SECTORS_PER_CLUSTER.

Section fat.
Context {D : Type} `{BlockDevice D}.
Abbreviation fs := (fs D).

Definition TOTAL_CLUSTERS : Z :=
  u32 ((TOTAL_SECTORS - DATA_START_LBA) / SECTORS_PER_CLUSTER).

(** * Boot sector *)

Definition read_boot_sector_unlocked : M fs BootSector :=
  let! ready := gets (fun s => is_ready (dev s)) in
  if negb ready then kfail NotReady else
  let! buf := read_block_unlocked BOOT_SECTOR_LBA in
  let bs := boot_of_bytes buf in
  if magic bs =? FAT_MAGIC then kret bs else kfail NotFormatted.

Definition write_boot_sector_unlocked (bs : BootSector) : M fs unit :=
  let! ready := gets (fun s => is_ready (dev s)) in
  if negb ready then kfail NotReady else
  write_block_unlocked BOOT_SECTOR_LBA (boot_to_bytes bs).

(** * The FAT *)

Definition entries_per_sector : Z := BLOCK_SIZE / 2.

Definition read_fat_entry_unlocked (cluster : Z) : M fs Z :=
  let sector_index := cluster / entries_per_sector in
  let entry_index := cluster mod entries_per_sector in
  if FAT_SECTORS <=? sector_index then kfail InvalidArgument else
  let lba := FAT_START_LBA + sector_index in
  let! buf := read_block_unlocked lba in
  let offset := entry_index * 2 in
  kret (le_val [byte_at buf offset; byte_at buf (offset + 1)]).

Definition write_fat_entry_unlocked (cluster value : Z) : M fs unit :=
  let sector_index := cluster / entries_per_sector in
  let entry_index := cluster mod entries_per_sector in
  if FAT_SECTORS <=? sector_index then kfail InvalidArgument else
  let lba := FAT_START_LBA + sector_index in
  let! buf := read_block_unlocked lba in
  let offset := entry_index * 2 in
  write_block_unlocked lba (splice offset (le_bytes 2 value) buf).

Definition max_cluster : Z :=
  u16 (Z.min (TOTAL_CLUSTERS + 1) (FAT_SECTORS * (BLOCK_SIZE / 2) - 1)).

Fixpoint alloc_scan (clusters : list Z) : M fs Z :=
  match clusters with
  | [] => kfail NoSpace
  | cluster :: rest =>
      let! entry := read_fat_entry_unlocked cluster in
      if entry =? FAT_ENTRY_FREE then
        run! write_fat_entry_unlocked cluster FAT_ENTRY_EOC in
        kret cluster
      else alloc_scan rest
  end.

(** [for cluster in 2u16..=max_cluster] *)
Definition alloc_cluster_unlocked : M fs Z := alloc_scan (seqZ 2 (max_cluster - 1)).

Fixpoint free_loop (fuel : nat) (current : Z) : M fs unit :=
  match fuel with
  | O => khang
  | S fuel =>
      if (current <? 2) || (FAT_ENTRY_RESERVED <=? current) then kret tt else
      let! next := read_fat_entry_unlocked current in
      run! write_fat_entry_unlocked current FAT_ENTRY_FREE in
      if FAT_ENTRY_RESERVED <=? next then kret tt
      else free_loop fuel next
  end.

(** One iteration for each entry of the FAT and one more: every iteration
    but the last clears an entry. *)
Definition free_fuel : nat := Z.to_nat (FAT_SECTORS * entries_per_sector + 2).
Definition free_cluster_chain_unlocked (first : Z) : M fs unit := free_loop free_fuel first.

(** * Root directory *)

Definition retire_slot_unlocked (i : Z) : M fs unit :=
  fun s =>
    match gens s !! Z.to_nat i with
    | Some g => (mk_fs (dev s) (<[Z.to_nat i := u32 (g + 1)]> (gens s)), Ok tt)
    | None => (s, Panic)
    end.

Definition file_id_unlocked (i : Z) : M fs FileId :=
  fun s =>
    match gens s !! Z.to_nat i with
    | Some g => (s, Ok (mk_id i g))
    | None => (s, Panic)
    end.

Definition read_dir_entry_unlocked (index : Z) : M fs FatDirEntry :=
  if ROOT_DIR_ENTRIES <=? index then kfail InvalidArgument else
  let sector := index / DIR_ENTRIES_PER_SECTOR in
  let slot := index mod DIR_ENTRIES_PER_SECTOR in
  let lba := ROOT_DIR_START_LBA + sector in
  let! buf := read_block_unlocked lba in
  let offset := slot * 32 in
  kret (entry_of_bytes (slice offset (offset + 32) buf)).

Definition write_dir_entry_unlocked (index : Z) (entry : FatDirEntry) : M fs unit :=
  if ROOT_DIR_ENTRIES <=? index then kfail InvalidArgument else
  run! (if in_use entry =? 0 then retire_slot_unlocked index else kret tt) in
  let sector := index / DIR_ENTRIES_PER_SECTOR in
  let slot := index mod DIR_ENTRIES_PER_SECTOR in
  let lba := ROOT_DIR_START_LBA + sector in
  let! buf := read_block_unlocked lba in
  let offset := slot * 32 in
  write_block_unlocked lba (splice offset (entry_to_bytes entry) buf).

Definition bad_name (name_bytes : list Z) : bool :=
  (zlen name_bytes =? 0) || (21 <? zlen name_bytes).

Fixpoint find_scan (name_bytes : list Z) (indexes : list Z) : M fs (option (Z * FatDirEntry)) :=
  match indexes with
  | [] => kret None
  | i :: rest =>
      let! entry := read_dir_entry_unlocked i in
      if (in_use entry =? 1) && bool_decide (entry_name entry = name_bytes)
      then kret (Some (i, entry))
      else find_scan name_bytes rest
  end.

Definition dir_indexes : list Z := seqZ 0 ROOT_DIR_ENTRIES.

Definition find_file_unlocked (name_bytes : list Z) : M fs (option (Z * FatDirEntry)) :=
  if bad_name name_bytes then kfail InvalidArgument
  else find_scan name_bytes dir_indexes.

Fixpoint free_slot_scan (indexes : list Z) : M fs (option Z) :=
  match indexes with
  | [] => kret None
  | i :: rest =>
      let! entry := read_dir_entry_unlocked i in
      if in_use entry =? 0 then kret (Some i) else free_slot_scan rest
  end.

Definition find_free_dir_slot_unlocked : M fs (option Z) := free_slot_scan dir_indexes.

(** * Whole-file operations *)

Fixpoint each (f : Z -> M fs unit) (l : list Z) : M fs unit :=
  match l with
  | [] => kret tt
  | x :: l => run! f x in each f l
  end.

Definition format_boot : BootSector := {|
  magic := FAT_MAGIC;
  bytes_per_sector := BLOCK_SIZE;
  sectors_per_cluster := SECTORS_PER_CLUSTER;
  fat_start_lba := FAT_START_LBA;
  fat_sectors := FAT_SECTORS;
  root_dir_start_lba := ROOT_DIR_START_LBA;
  root_dir_sectors := ROOT_DIR_SECTORS;
  data_start_lba := DATA_START_LBA;
  total_clusters := TOTAL_CLUSTERS;
  padding := zeros 474;
|}.

Definition format_unlocked : M fs unit :=
  let! ready := gets (fun s => is_ready (dev s)) in
  if negb ready then kfail NotReady else
  run! write_boot_sector_unlocked format_boot in
  let zero_buf := zeros BLOCK_SIZE in
  run! each (fun i => write_block_unlocked (FAT_START_LBA + i) zero_buf) (seqZ 0 FAT_SECTORS) in
  run! write_fat_entry_unlocked 0 0xFFF8 in
  run! write_fat_entry_unlocked 1 FAT_ENTRY_EOC in
  run! each retire_slot_unlocked (seqZ 0 ROOT_DIR_ENTRIES) in
  each (fun i => write_block_unlocked (ROOT_DIR_START_LBA + i) zero_buf) (seqZ 0 ROOT_DIR_SECTORS).

(** One iteration [i] of the allocation loop of [create_file_unlocked]:
    allocate, link to the previous cluster, write the zero padded chunk. *)
Definition create_step (data : list Z) (i : Z) (prev : option Z) : M fs Z :=
  let! c := alloc_cluster_unlocked in
  run! (match prev with
        | Some prev => write_fat_entry_unlocked prev c
        | None => kret tt
        end) in
  let src_offset := i * CLUSTER_BYTES in
  let src_end := Z.min (src_offset + CLUSTER_BYTES) (zlen data) in
  let chunk := slice src_offset src_end data in
  let cluster_buf := splice 0 chunk (zeros CLUSTER_BYTES) in
  run! write_blocks_unlocked (cluster_to_lba c) SECTORS_PER_CLUSTER cluster_buf in
  kret c.

(** [for i in 0..clusters_needed]; the result is [first]. *)
Fixpoint create_loop (data : list Z) (idxs : list Z) (prev : option Z) (first : Z) : M fs Z :=
  match idxs with
  | [] => kret first
  | i :: rest =>
      let! c := create_step data i prev in
      create_loop data rest (Some c) (if i =? 0 then c else first)
  end.

Definition clusters_needed (data : list Z) : Z :=
  (zlen data + CLUSTER_BYTES - 1) / CLUSTER_BYTES.

Definition create_file_unlocked (name_bytes data : list Z) : M fs unit :=
  if bad_name name_bytes then kfail InvalidArgument else
  run! read_boot_sector_unlocked in
  let! old := find_file_unlocked name_bytes in
  run! (match old with
        | Some (idx, old_entry) =>
            run! (if 2 <=? first_cluster old_entry
                  then free_cluster_chain_unlocked (first_cluster old_entry) else kret tt) in
            write_dir_entry_unlocked idx empty_entry
        | None => kret tt
        end) in
  let! found := find_free_dir_slot_unlocked in
  let! slot_idx := ok_or found NoSpace in
  let! first :=
    (if zlen data =? 0 then kret 0
     else create_loop data (seqZ 0 (clusters_needed data)) None 0) in
  write_dir_entry_unlocked slot_idx (new_entry name_bytes first (u32 (zlen data))).

(** [while current >= 2 && current < FAT_ENTRY_RESERVED && written < size] *)
Fixpoint read_loop (fuel : nat) (sz current written : Z) (result : list Z) : M fs (list Z) :=
  match fuel with
  | O => khang
  | S fuel =>
      if is_data_cluster current && (written <? sz) then
        let to_read := Z.min (sz - written) CLUSTER_BYTES in
        let! cluster_buf := read_blocks_unlocked (cluster_to_lba current) SECTORS_PER_CLUSTER in
        let result := splice written (slice 0 to_read cluster_buf) result in
        let! next := read_fat_entry_unlocked current in
        read_loop fuel sz next (written + to_read) result
      else kret result
  end.

Definition read_fuel (sz : Z) : nat := Z.to_nat (sz / CLUSTER_BYTES + 2).

Definition read_file_unlocked (name_bytes : list Z) : M fs (list Z) :=
  let! found := find_file_unlocked name_bytes in
  let! (_, entry) := ok_or found FileNotFound in
  if size entry =? 0 then kret []
  else read_loop (read_fuel (size entry)) (size entry) (first_cluster entry) 0 (zeros (size entry)).

Definition delete_file_unlocked (name_bytes : list Z) : M fs unit :=
  let! found := find_file_unlocked name_bytes in
  let! (idx, entry) := ok_or found FileNotFound in
  run! (if 2 <=? first_cluster entry
        then free_cluster_chain_unlocked (first_cluster entry) else kret tt) in
  write_dir_entry_unlocked idx empty_entry.

(** * Offset-based access *)

Definition open_entry_unlocked (id : FileId) : M fs FatDirEntry :=
  let! now := file_id_unlocked (slot id) in
  if negb (bool_decide (now = id)) then kfail FileNotFound else
  let! entry := read_dir_entry_unlocked (slot id) in
  if negb (in_use entry =? 1) then kfail FileNotFound else kret entry.

Fixpoint walk_chain (steps : nat) (prev cluster : Z) : M fs (Z * Z) :=
  match steps with
  | O => kret (prev, cluster)
  | S steps =>
      if negb (is_data_cluster cluster) then kfail DeviceError else
      let! next := read_fat_entry_unlocked cluster in
      walk_chain steps cluster next
  end.

Definition walk_chain_unlocked (first steps : Z) : M fs (Z * Z) :=
  walk_chain (Z.to_nat steps) 0 first.

Definition set_chain (e : FatDirEntry) (fc sz : Z) : FatDirEntry :=
  mk_entry (name e) fc sz (in_use e) (reserved e).

Definition open_file_unlocked (name_bytes : list Z) (create truncate : bool) : M fs FileId :=
  run! read_boot_sector_unlocked in
  let! found := find_file_unlocked name_bytes in
  match found with
  | Some (slot, entry) =>
      run! (if truncate && (negb (size entry =? 0) || negb (first_cluster entry =? 0)) then
              let old_chain := first_cluster entry in
              run! write_dir_entry_unlocked slot (set_chain entry 0 0) in
              if is_data_cluster old_chain then free_cluster_chain_unlocked old_chain else kret tt
            else kret tt) in
      file_id_unlocked slot
  | None =>
      if create then
        let! found := find_free_dir_slot_unlocked in
        let! slot := ok_or found NoSpace in
        run! write_dir_entry_unlocked slot (new_entry name_bytes 0 0) in
        file_id_unlocked slot
      else kfail FileNotFound
  end.

(** [while done < len]; the result is [done] and the caller's buffer. *)
Fixpoint read_at_loop (fuel : nat) (len cluster within done : Z) (buf : list Z)
  : M fs (Z * list Z) :=
  match fuel with
  | O => khang
  | S fuel =>
      if done <? len then
        if negb (is_data_cluster cluster) then kfail DeviceError else
        let! cluster_buf := read_blocks_unlocked (cluster_to_lba cluster) SECTORS_PER_CLUSTER in
        let n := Z.min (CLUSTER_BYTES - within) (len - done) in
        let buf := splice done (slice within (within + n) cluster_buf) buf in
        let done := done + n in
        let! cluster := (if done <? len then read_fat_entry_unlocked cluster else kret cluster) in
        read_at_loop fuel len cluster 0 done buf
      else kret (done, buf)
  end.

Definition read_at_unlocked (id : FileId) (offset : Z) (buf : list Z) : M fs (Z * list Z) :=
  let! entry := open_entry_unlocked id in
  let sz := size entry in
  if (sz <=? offset) || (zlen buf =? 0) then kret (0, buf) else
  let len := Z.min (zlen buf) (sz - offset) in
  let! (_, cluster) := walk_chain_unlocked (first_cluster entry) (offset / CLUSTER_BYTES) in
  read_at_loop (Z.to_nat (len / CLUSTER_BYTES + 3)) len cluster (offset mod CLUSTER_BYTES) 0 buf.

(** The variables the closure of [write_at_unlocked] captures and changes;
    they keep their values when it returns an error. *)
Record wstate : Type := mk_w {
  w_entry : FatDirEntry;
  w_prev : Z;
  w_cluster : Z;
  w_start : Z;
  w_reached : Z;
  w_buf : list Z;
}.

Definition on_fs {A} (m : M fs A) : M (fs * wstate) A :=
  fun '(s, w) => let '(s', r) := m s in ((s', w), r).

Definition set_w (f : wstate -> wstate) : M (fs * wstate) unit := modify (fun '(s, w) => (s, f w)).

(** The bytes of the cluster buffer that a write of [data] at [offset] sets:
    zeros in the gap behind the old end, then the part of [data] that falls
    into the cluster. *)
Definition fill_cluster (offset fin sz cluster_start : Z) (data buf : list Z) : list Z :=
  let cluster_end := cluster_start + CLUSTER_BYTES in
  let gap_lo := Z.max sz cluster_start in
  let gap_hi := Z.min offset cluster_end in
  let buf := if gap_lo <? gap_hi then splice (gap_lo - cluster_start) (zeros (gap_hi - gap_lo)) buf
             else buf in
  let lo := Z.max offset cluster_start in
  let hi := Z.min fin cluster_end in
  if lo <? hi then splice (lo - cluster_start) (slice (lo - offset) (hi - offset) data) buf else buf.

(** One iteration of the closure's [loop]; [true] when it returns. *)
Definition write_step (offset fin sz : Z) (data : list Z) : M (fs * wstate) bool :=
  let! w := gets snd in
  let cluster_end := w_start w + CLUSTER_BYTES in
  run! (if negb (is_data_cluster (w_cluster w)) then
          let! c := on_fs alloc_cluster_unlocked in
          run! set_w (fun w => mk_w (w_entry w) (w_prev w) c (w_start w) (w_reached w) (w_buf w)) in
          run! (if w_prev w =? 0
                then set_w (fun w => mk_w (set_chain (w_entry w) c (size (w_entry w))) (w_prev w)
                                       (w_cluster w) (w_start w) (w_reached w) (w_buf w))
                else on_fs (write_fat_entry_unlocked (w_prev w) c)) in
          set_w (fun w => mk_w (w_entry w) (w_prev w) (w_cluster w) (w_start w) (w_reached w)
                            (zeros CLUSTER_BYTES))
        else if (w_start w <? offset) || (fin <? cluster_end) then
          let! b := on_fs (read_blocks_unlocked (cluster_to_lba (w_cluster w)) SECTORS_PER_CLUSTER) in
          set_w (fun w => mk_w (w_entry w) (w_prev w) (w_cluster w) (w_start w) (w_reached w) b)
        else kret tt) in
  let! w := gets snd in
  let buf := fill_cluster offset fin sz (w_start w) data (w_buf w) in
  run! set_w (fun w => mk_w (w_entry w) (w_prev w) (w_cluster w) (w_start w) (w_reached w) buf) in
  run! on_fs (write_blocks_unlocked (cluster_to_lba (w_cluster w)) SECTORS_PER_CLUSTER buf) in
  let reached := Z.max (Z.min fin cluster_end) (Z.min offset cluster_end) in
  run! set_w (fun w => mk_w (w_entry w) (w_prev w) (w_cluster w) (w_start w) reached (w_buf w)) in
  if fin <=? cluster_end then kret true else
  let! next := on_fs (read_fat_entry_unlocked (w_cluster w)) in
  run! set_w (fun w => mk_w (w_entry w) (w_cluster w) next cluster_end (w_reached w) (w_buf w)) in
  kret false.

Fixpoint write_loop (fuel : nat) (offset fin sz : Z) (data : list Z) : M (fs * wstate) unit :=
  match fuel with
  | O => khang
  | S fuel =>
      let! returned := write_step offset fin sz data in
      if returned then kret tt else write_loop fuel offset fin sz data
  end.

(** [cluster_start] is assigned before [prev] and [cluster] in the source;
    the three assignments do not depend on each other and only the read of
    the FAT entry can fail, after which none of them is used again. *)
Definition write_closure (offset fin sz : Z) (data : list Z) : M (fs * wstate) unit :=
  let! w := gets snd in
  let! (prev, cluster) :=
    on_fs (walk_chain_unlocked (first_cluster (w_entry w)) (w_start w / CLUSTER_BYTES)) in
  run! set_w (fun w => mk_w (w_entry w) prev cluster (w_start w) (w_reached w) (w_buf w)) in
  write_loop (Z.to_nat ((fin - w_start w) / CLUSTER_BYTES + 2)) offset fin sz data.

Definition write_at_unlocked (id : FileId) (offset : option Z) (data : list Z) : M fs (Z * Z) :=
  let! entry := open_entry_unlocked id in
  let sz := size entry in
  let offset := default sz offset in
  if zlen data =? 0 then kret (offset, 0) else
  let! fin := ok_or (match checked_add64 offset (zlen data) with
                     | Some e => if e <=? u32_max then Some e else None
                     | None => None
                     end) NoSpace in
  let start := Z.min offset sz in
  let w0 := mk_w entry 0 0 (start - start mod CLUSTER_BYTES) start (zeros CLUSTER_BYTES) in
  fun s =>
    let '((s, w), result) := write_closure offset fin sz data (s, w0) in
    let written := saturating_sub (w_reached w) offset in
    let entry := if 0 <? written
                 then set_chain (w_entry w) (first_cluster (w_entry w)) (u32 (Z.max sz (w_reached w)))
                 else w_entry w in
    match result with
    | Panic => (s, Panic)
    | Hang => (s, Hang)
    | _ =>
        (run! write_dir_entry_unlocked (slot id) entry in
         match result with
         | Ok _ => kret (offset, zlen data)
         | Err e => if 0 <? written then kret (offset, written) else kfail e
         | Panic => kpanic
         | Hang => khang
         end) s
    end.

Definition file_size_unlocked (id : FileId) : M fs Z :=
  let! entry := open_entry_unlocked id in kret (size entry).
End fat.
