(* ===== verification/FatRep.v ===== *)
(** The abstract volume and the simulation relation of the file system.

    A formatted device represents a [vol]: a FAT, a directory, the contents of
    the data clusters and the slot generations.  [Rep s v] says that the state
    [s] of Fat represents [v].  The lemmas of this file show that each access
    to the FAT, the directory or a cluster reads or updates exactly the part
    of [v] it names; the files above it never look at a sector again. *)

From S2P Require Import Prelude BlockDev Fat.
Open Scope kmonad_scope.

Record vol : Type := mk_vol {
  vfat : Z -> Z;
  vdir : Z -> FatDirEntry;
  vdata : Z -> list Z;
  vgens : list Z;
}.

Definition in_fat (c : Z) : Prop := 0 <= c < 16384.
Definition in_dir (i : Z) : Prop := 0 <= i < 256.

(** An entry that fits its 32 bytes. *)
Record entry_ok (e : FatDirEntry) : Prop := {
  ok_name : zlen (name e) = 22 /\ bytes_ok (name e);
  ok_first : 0 <= first_cluster e < 2 ^ 16;
  ok_size : 0 <= size e < 2 ^ 32;
  ok_use : is_byte (in_use e);
  ok_reserved : zlen (reserved e) = 3 /\ bytes_ok (reserved e);
}.

Definition set_fat (c x : Z) (v : vol) : vol :=
  mk_vol (<[c := x]> (vfat v)) (vdir v) (vdata v) (vgens v).
Definition set_data (c : Z) (b : list Z) (v : vol) : vol :=
  mk_vol (vfat v) (vdir v) (<[c := b]> (vdata v)) (vgens v).
Definition set_dir (i : Z) (e : FatDirEntry) (v : vol) : vol :=
  mk_vol (vfat v) (<[i := e]> (vdir v)) (vdata v) (vgens v).

(** The generation of a slot advances when the slot is freed. *)
Definition retire (i : Z) (v : vol) : vol :=
  mk_vol (vfat v) (vdir v) (vdata v)
    (<[Z.to_nat i := u32 (nth (Z.to_nat i) (vgens v) 0 + 1)]> (vgens v)).
Definition put_entry (i : Z) (e : FatDirEntry) (v : vol) : vol :=
  set_dir i e (if in_use e =? 0 then retire i v else v).

(** Layout constants to numbers. *)
Ltac layout :=
  unfold cluster_to_lba, DATA_START_LBA, ROOT_DIR_START_LBA, ROOT_DIR_ENTRIES, CLUSTER_BYTES,
    DIR_ENTRIES_PER_SECTOR, entries_per_sector, FAT_SECTORS, FAT_START_LBA, ROOT_DIR_SECTORS,
    SECTORS_PER_CLUSTER, BOOT_SECTOR_LBA, BLOCK_SIZE, in_fat, in_dir, FAT_ENTRY_FREE,
    FAT_ENTRY_EOC, FAT_ENTRY_RESERVED in *;
  change (512 / 2) with 256 in *; change (512 / 32) with 16 in *;
  change (16 * 512 / 32) with 256 in *; change (1 + 64 + 16) with 81 in *;
  change (1 + 64) with 65 in *; change (8 * 512) with 4096 in *.

(** ** Directory entries as bytes *)

Lemma zlen_entry_to_bytes e : entry_ok e -> zlen (entry_to_bytes e) = 32.
Proof.
  intros [[Hn _] _ _ _ [Hr _]]. unfold entry_to_bytes. rewrite !zlen_app, Hn, Hr.
  unfold zlen. rewrite !length_le_bytes. done.
Qed.

Lemma entry_to_bytes_ok e : entry_ok e -> bytes_ok (entry_to_bytes e).
Proof.
  intros [[_ Hn] _ _ Hu [_ Hr]]. unfold entry_to_bytes, bytes_ok.
  rewrite !Forall_app. repeat split; try done; try apply le_bytes_ok. by constructor.
Qed.

(** Cuts a slice out of a concatenation of pieces of known length. *)
Ltac cut_slices :=
  repeat first
    [ rewrite slice_app_r by (unfold zlen in *; rewrite ?length_le_bytes; cbn [length]; lia)
    | rewrite slice_app_l by (unfold zlen in *; rewrite ?length_le_bytes; cbn [length]; lia) ].

Lemma slice_exact {A} lo hi (l : list A) : lo = 0 -> hi = zlen l -> slice lo hi l = l.
Proof. intros -> ->. apply slice_all. Qed.

Lemma entry_roundtrip e : entry_ok e -> entry_of_bytes (entry_to_bytes e) = e.
Proof.
  intros He. pose proof (zlen_entry_to_bytes e He) as Hlen. destruct He as [[Hn _] Hf Hs Hu [Hr _]].
  destruct e as [n f sz u r]; unfold entry_of_bytes, entry_to_bytes in *; simpl name in *;
    simpl first_cluster in *; simpl size in *; simpl in_use in *; simpl reserved in *.
  f_equal.
  - cut_slices. by apply slice_exact.
  - cut_slices. rewrite slice_exact by (unfold zlen in *; rewrite ?length_le_bytes; cbn [length]; lia).
    rewrite le_val_le_bytes. by apply Z.mod_small.
  - cut_slices. rewrite slice_exact by (unfold zlen in *; rewrite ?length_le_bytes; cbn [length]; lia).
    rewrite le_val_le_bytes. by apply Z.mod_small.
  - unfold byte_at. unfold zlen in *. do 3 (rewrite app_nth2 by (rewrite ?length_le_bytes; lia)).
    rewrite !length_le_bytes.
    replace (Z.to_nat 28 - length n - 2 - 4)%nat with 0%nat by lia. done.
  - cut_slices. apply slice_exact; unfold zlen in *; rewrite ?length_le_bytes; simpl; lia.
Qed.

Lemma boot_roundtrip bs :
  0 <= magic bs < 2 ^ 64 -> 0 <= bytes_per_sector bs < 2 ^ 16 ->
  Forall (fun x => 0 <= x < 2 ^ 32)
    [sectors_per_cluster bs; fat_start_lba bs; fat_sectors bs; root_dir_start_lba bs;
     root_dir_sectors bs; data_start_lba bs; total_clusters bs] ->
  zlen (padding bs) = 474 ->
  boot_of_bytes (boot_to_bytes bs) = bs /\ zlen (boot_to_bytes bs) = BLOCK_SIZE.
Proof.
  intros Hm Hb Hf Hp. decompose_Forall_hyps. destruct bs as [m b sp fs fsec rs rsec ds tc pad].
  unfold boot_of_bytes, boot_to_bytes; cbn [magic bytes_per_sector sectors_per_cluster
    fat_start_lba fat_sectors root_dir_start_lba root_dir_sectors data_start_lba
    total_clusters padding] in *.
  split.
  - f_equal; cut_slices; rewrite slice_exact by (unfold zlen in *; rewrite ?length_le_bytes; lia);
      rewrite ?le_val_le_bytes; try done; by apply Z.mod_small.
  - rewrite !zlen_app, Hp. unfold zlen. rewrite !length_le_bytes. done.
Qed.

Section rep.
Context {D : Type} `{RD : ReliableDevice D}.
Abbreviation fs := (fs D).
Implicit Types (s : fs) (v : vol).

Definition fat_of (d : D) (c : Z) : Z :=
  le_val (slice (c mod 256 * 2) (c mod 256 * 2 + 2) (block d (FAT_START_LBA + c / 256))).
Definition dir_of (d : D) (i : Z) : FatDirEntry :=
  entry_of_bytes (slice (i mod 16 * 32) (i mod 16 * 32 + 32) (block d (ROOT_DIR_START_LBA + i / 16))).
Definition data_of (d : D) (c : Z) : list Z :=
  sectors (block d) (cluster_to_lba c) SECTORS_PER_CLUSTER.

Definition in_data (c : Z) : Prop := 2 <= c <= max_cluster.

Record Rep s v : Prop := {
  rep_ok : dev_ok (dev s);
  rep_boot : magic (boot_of_bytes (block (dev s) 0)) = FAT_MAGIC;
  rep_fat c : in_fat c -> fat_of (dev s) c = vfat v c;
  rep_dir i : in_dir i -> dir_of (dev s) i = vdir v i;
  rep_data c : in_data c -> data_of (dev s) c = vdata v c;
  rep_gens : gens s = vgens v;
  rep_gens_len : length (vgens v) = 256%nat;
}.

Lemma max_cluster_range : 2 <= max_cluster <= 16383 /\ max_cluster <= TOTAL_CLUSTERS + 1.
Proof.
  pose proof dev_size as Hsz. unfold max_cluster, TOTAL_CLUSTERS, u16, u32. layout.
  change (64 * 256 - 1) with 16383.
  assert (1 <= (TOTAL_SECTORS - 81) / 8 < 2 ^ 32) as Ht.
  { split; [apply Z.div_le_lower_bound; lia|apply Z.div_lt_upper_bound; lia]. }
  rewrite (Z.mod_small _ (2 ^ 32)) by lia. rewrite Z.mod_small by lia. lia.
Qed.

(** The sectors of a data cluster lie on the disk, behind the directory. *)
Lemma cluster_sectors c :
  in_data c -> 81 <= cluster_to_lba c /\ cluster_to_lba c + SECTORS_PER_CLUSTER <= TOTAL_SECTORS.
Proof.
  intros Hc. pose proof dev_size as Hsz. destruct max_cluster_range as [H1 H2].
  unfold in_data, TOTAL_CLUSTERS, u32 in *. layout.
  rewrite Z.mod_small in H2 by (split; [apply Z.div_pos; lia|apply Z.div_lt_upper_bound; lia]).
  pose proof (Z.mul_div_le (TOTAL_SECTORS - 81) 8). lia.
Qed.

Lemma in_data_fat c : in_data c -> in_fat c.
Proof. destruct max_cluster_range. unfold in_data, in_fat. lia. Qed.

Lemma in_data_is_data c : in_data c -> is_data_cluster c = true.
Proof.
  destruct max_cluster_range. unfold in_data, is_data_cluster. layout. intros. zcase; simpl; lia.
Qed.

(** ** Sectors *)

Lemma sectors_one blk lba : sectors blk lba 1 = blk lba.
Proof. unfold sectors. change 1 with (Z.of_nat 1). simpl. by rewrite Z.add_0_l, app_nil_r. Qed.

Lemma sectors_ext f g lba n :
  (forall i, lba <= i < lba + n -> f i = g i) -> sectors f lba n = sectors g lba n.
Proof.
  intros Hfg. unfold sectors. f_equal. apply list_fmap_ext. intros k x Hk.
  apply lookup_seqZ in Hk. apply Hfg. lia.
Qed.

Lemma sectors_succ f lba n :
  0 <= n -> sectors f lba (n + 1) = f lba ++ sectors f (lba + 1) n.
Proof.
  intros. unfold sectors. rewrite seqZ_cons by lia.
  replace (Z.pred (n + 1)) with n by lia. by replace (Z.succ lba) with (lba + 1) by lia.
Qed.

Lemma sectors_slices f lba n data :
  zlen data = Z.of_nat n * BLOCK_SIZE ->
  (forall i, lba <= i < lba + Z.of_nat n ->
     f i = slice ((i - lba) * BLOCK_SIZE) ((i - lba + 1) * BLOCK_SIZE) data) ->
  sectors f lba (Z.of_nat n) = data.
Proof.
  unfold BLOCK_SIZE. revert lba data. induction n as [|n IH]; intros lba data Hl Hf.
  - destruct data; [done|]. unfold zlen in Hl. simpl in Hl. lia.
  - rewrite Nat2Z.inj_succ. unfold Z.succ. rewrite sectors_succ by lia.
    rewrite Hf by lia. rewrite (IH _ (drop (Z.to_nat 512) data)).
    + unfold slice. replace (Z.to_nat ((lba - lba) * 512)) with 0%nat by lia.
      rewrite drop_0. replace (Z.to_nat _) with (Z.to_nat 512) by lia. apply take_drop.
    + unfold zlen in *. rewrite length_drop. lia.
    + intros i Hi. rewrite Hf by lia. unfold slice. rewrite drop_drop. f_equal; [lia|]. f_equal. lia.
Qed.

Lemma zlen_sectors f lba n :
  (forall i, lba <= i < lba + Z.of_nat n -> zlen (f i) = BLOCK_SIZE /\ bytes_ok (f i)) ->
  zlen (sectors f lba (Z.of_nat n)) = Z.of_nat n * BLOCK_SIZE /\
  bytes_ok (sectors f lba (Z.of_nat n)).
Proof.
  revert lba. induction n as [|n IH]; intros lba Hf; [by split; [|constructor]|].
  rewrite Nat2Z.inj_succ. unfold Z.succ. rewrite sectors_succ by lia.
  destruct (Hf lba) as [H1 H2]; [lia|]. destruct (IH (lba + 1)) as [H3 H4].
  { intros i Hi. apply Hf. lia. }
  rewrite zlen_app. split; [lia|]. by apply Forall_app.
Qed.

Lemma read_block_spec s lba :
  dev_ok (dev s) -> 0 <= lba < TOTAL_SECTORS ->
  read_block_unlocked lba s = (s, Ok (block (dev s) lba)).
Proof.
  intros. unfold read_block_unlocked, read_blocks_unlocked. simpl.
  rewrite dev_read_ok by (done || lia). by rewrite sectors_one.
Qed.

Lemma write_block_spec s lba buf :
  dev_ok (dev s) -> 0 <= lba < TOTAL_SECTORS -> zlen buf = BLOCK_SIZE -> bytes_ok buf ->
  exists d, write_block_unlocked lba buf s = (mk_fs d (gens s), Ok tt) /\ dev_ok d /\
    forall i, block d i = if i =? lba then buf else block (dev s) i.
Proof.
  intros Hd Hl Hz Hb. unfold write_block_unlocked, write_blocks_unlocked. simpl.
  destruct (dev_write_ok (dev s) lba 1 buf) as (d & -> & Hok & Hblk); try done; try lia.
  exists d. split; [done|]. split; [done|]. intros i. rewrite Hblk.
  destruct (Z.eqb_spec i lba) as [->|Hne]; [|zcase; simpl; try lia; done].
  zcase; simpl; try lia. apply slice_exact; unfold BLOCK_SIZE in *; lia.
Qed.

(** ** The FAT *)

Lemma read_fat_spec s v c :
  Rep s v -> in_fat c -> read_fat_entry_unlocked c s = (s, Ok (vfat v c)).
Proof.
  intros Hr Hc. pose proof dev_size. destruct Hr as [Hd _ Hf _ _ _ _].
  unfold read_fat_entry_unlocked. rewrite <- Hf by done. unfold fat_of. layout.
  assert (0 <= c / 256 < 64) by dlia. destruct (Z.leb_spec 64 (c / 256)); [lia|].
  assert (0 <= 1 + c / 256 < TOTAL_SECTORS) as Hl by lia.
  rewrite (kbind_Ok _ _ _ _ _ (read_block_spec _ _ Hd Hl)).
  rewrite slice2; [done|dlia|]. rewrite block_len by done. layout. dlia.
Qed.

Lemma fat_of_write d d' c x :
  dev_ok d -> in_fat c -> 0 <= x < 2 ^ 16 ->
  (forall i, block d' i = if i =? FAT_START_LBA + c / 256
     then splice (c mod 256 * 2) (le_bytes 2 x) (block d (FAT_START_LBA + c / 256)) else block d i) ->
  forall k, in_fat k -> fat_of d' k = if k =? c then x else fat_of d k.
Proof.
  intros Hd Hc Hx Hb k Hk. pose proof dev_size. unfold fat_of. rewrite Hb. layout.
  assert (zlen (block d (1 + c / 256)) = 512) as Hlen by (apply block_len; [done|dlia]).
  assert (zlen (le_bytes 2 x) = 2) as H2 by (unfold zlen; by rewrite length_le_bytes).
  destruct (Z.eqb_spec k c) as [->|Hne].
  - rewrite Z.eqb_refl. rewrite <- H2. rewrite slice_splice_same by dlia.
    rewrite le_val_le_bytes. by apply Z.mod_small.
  - destruct (Z.eqb_spec (1 + k / 256) (1 + c / 256)) as [Heq|Heq]; [|done].
    rewrite Heq. f_equal. destruct (Z.lt_ge_cases (k mod 256) (c mod 256)).
    + apply slice_splice_before; dlia.
    + apply slice_splice_after; dlia.
Qed.

Lemma write_fat_spec s v c x :
  Rep s v -> in_fat c -> 0 <= x < 2 ^ 16 ->
  exists s', write_fat_entry_unlocked c x s = (s', Ok tt) /\ Rep s' (set_fat c x v).
Proof.
  intros Hr Hc Hx. pose proof dev_size as Hsz. destruct Hr as [Hd Hb Hf Hdir Hdata Hg Hgl].
  unfold write_fat_entry_unlocked.
  assert (0 <= FAT_START_LBA + c / entries_per_sector < 65) as Hl by (layout; dlia).
  destruct (Z.leb_spec FAT_SECTORS (c / entries_per_sector)); [layout; dlia|].
  assert (0 <= FAT_START_LBA + c / entries_per_sector < TOTAL_SECTORS) as Hlba by lia.
  rewrite (kbind_Ok _ _ _ _ _ (read_block_spec _ _ Hd Hlba)).
  pose proof (block_len _ _ Hd Hlba) as Hlen. pose proof (block_bytes _ _ Hd Hlba) as Hby.
  set (buf := block (dev s) (FAT_START_LBA + c / entries_per_sector)) in *.
  destruct (write_block_spec s (FAT_START_LBA + c / entries_per_sector)
    (splice (c mod entries_per_sector * 2) (le_bytes 2 x) buf)) as (d' & Hrun & Hok & Hblk);
    [done|lia| |auto with kaguya|].
  { rewrite zlen_splice; [done|layout; dlia|]. unfold zlen at 1. rewrite length_le_bytes. layout. dlia. }
  exists (mk_fs d' (gens s)). split; [exact Hrun|].
  assert (forall k, in_fat k -> fat_of d' k = if k =? c then x else fat_of (dev s) k) as Hfat.
  { apply fat_of_write; [done..|]. exact Hblk. }
  split; simpl; [done| | | | |done|done].
  - rewrite Hblk. destruct (Z.eqb_spec 0 (FAT_START_LBA + c / entries_per_sector)); [|done].
    layout. dlia.
  - intros k Hk. rewrite Hfat by done. destruct (Z.eqb_spec k c) as [->|].
    + by rewrite fn_lookup_insert.
    + rewrite fn_lookup_insert_ne by done. by apply Hf.
  - intros i Hi. rewrite <- Hdir by done. unfold dir_of. rewrite Hblk.
    destruct (Z.eqb_spec (ROOT_DIR_START_LBA + i / 16) (FAT_START_LBA + c / entries_per_sector)); [|done].
    layout. dlia.
  - intros k Hk. rewrite <- Hdata by done. apply sectors_ext. intros i Hi. rewrite Hblk.
    destruct (cluster_sectors k Hk).
    destruct (Z.eqb_spec i (FAT_START_LBA + c / entries_per_sector)); [|done]. layout. dlia.
Qed.

(** ** The directory *)

Lemma read_dir_spec s v i :
  Rep s v -> in_dir i -> read_dir_entry_unlocked i s = (s, Ok (vdir v i)).
Proof.
  intros Hr Hi. pose proof dev_size. destruct Hr as [Hd _ _ Hdir _ _ _].
  unfold read_dir_entry_unlocked. rewrite <- Hdir by done. unfold dir_of.
  destruct (Z.leb_spec ROOT_DIR_ENTRIES i); [layout; lia|].
  assert (0 <= ROOT_DIR_START_LBA + i / DIR_ENTRIES_PER_SECTOR < TOTAL_SECTORS) as Hl by (layout; dlia).
  by rewrite (kbind_Ok _ _ _ _ _ (read_block_spec _ _ Hd Hl)).
Qed.

Lemma dir_of_write d d' i e :
  dev_ok d -> in_dir i -> entry_ok e ->
  (forall k, block d' k = if k =? ROOT_DIR_START_LBA + i / 16
     then splice (i mod 16 * 32) (entry_to_bytes e) (block d (ROOT_DIR_START_LBA + i / 16))
     else block d k) ->
  forall k, in_dir k -> dir_of d' k = if k =? i then e else dir_of d k.
Proof.
  intros Hd Hi He Hb k Hk. pose proof dev_size. unfold dir_of. rewrite Hb. layout.
  assert (zlen (block d (65 + i / 16)) = 512) as Hlen by (apply block_len; [done|dlia]).
  pose proof (zlen_entry_to_bytes e He) as H32.
  destruct (Z.eqb_spec k i) as [->|Hne].
  - rewrite Z.eqb_refl.
    replace (i mod 16 * 32 + 32) with (i mod 16 * 32 + zlen (entry_to_bytes e)) by lia.
    rewrite slice_splice_same by dlia.
    by apply entry_roundtrip.
  - destruct (Z.eqb_spec (65 + k / 16) (65 + i / 16)) as [Heq|Heq]; [|done].
    rewrite Heq. f_equal. destruct (Z.lt_ge_cases (k mod 16) (i mod 16)).
    + apply slice_splice_before; dlia.
    + apply slice_splice_after; dlia.
Qed.

(** Replacing an entry's 32 bytes on disk. *)
Lemma put_bytes_spec s v i e :
  Rep s v -> in_dir i -> entry_ok e ->
  exists s', (let! buf := read_block_unlocked (ROOT_DIR_START_LBA + i / DIR_ENTRIES_PER_SECTOR) in
      write_block_unlocked (ROOT_DIR_START_LBA + i / DIR_ENTRIES_PER_SECTOR)
        (splice (i mod DIR_ENTRIES_PER_SECTOR * 32) (entry_to_bytes e) buf)) s = (s', Ok tt) /\
    Rep s' (set_dir i e v).
Proof.
  intros Hr Hi He. pose proof dev_size as Hsz. destruct Hr as [Hd Hb Hf Hdir Hdata Hg Hgl].
  assert (65 <= ROOT_DIR_START_LBA + i / DIR_ENTRIES_PER_SECTOR < 81) as Hl by (layout; dlia).
  assert (0 <= ROOT_DIR_START_LBA + i / DIR_ENTRIES_PER_SECTOR < TOTAL_SECTORS) as Hlba by lia.
  rewrite (kbind_Ok _ _ _ _ _ (read_block_spec _ _ Hd Hlba)).
  pose proof (block_len _ _ Hd Hlba) as Hlen. pose proof (block_bytes _ _ Hd Hlba) as Hby.
  set (buf := block (dev s) (ROOT_DIR_START_LBA + i / DIR_ENTRIES_PER_SECTOR)) in *.
  pose proof (zlen_entry_to_bytes e He) as H32. pose proof (entry_to_bytes_ok e He) as Hok32.
  destruct (write_block_spec s (ROOT_DIR_START_LBA + i / DIR_ENTRIES_PER_SECTOR)
    (splice (i mod DIR_ENTRIES_PER_SECTOR * 32) (entry_to_bytes e) buf))
    as (d' & Hrun & Hok & Hblk); [done|lia| |auto with kaguya|].
  { rewrite zlen_splice; [done|layout; dlia|layout; dlia]. }
  exists (mk_fs d' (gens s)). split; [exact Hrun|].
  assert (forall k, in_dir k -> dir_of d' k = if k =? i then e else dir_of (dev s) k) as Hdir'.
  { apply dir_of_write; [done..|]. exact Hblk. }
  assert (forall k, ~ 65 <= k < 81 -> block d' k = block (dev s) k) as Hframe.
  { intros k Hk. rewrite Hblk. destruct (Z.eqb_spec k (ROOT_DIR_START_LBA + i / DIR_ENTRIES_PER_SECTOR)); [lia|done]. }
  split; simpl; [done| | | | |done|done].
  - by rewrite Hframe by lia.
  - intros k Hk. rewrite <- Hf by done. unfold fat_of. rewrite Hframe; [done|]. layout. dlia.
  - intros k Hk. rewrite Hdir' by done. destruct (Z.eqb_spec k i) as [->|].
    + by rewrite fn_lookup_insert.
    + rewrite fn_lookup_insert_ne by done. by apply Hdir.
  - intros k Hk. rewrite <- Hdata by done. apply sectors_ext. intros j Hj.
    destruct (cluster_sectors k Hk). apply Hframe. lia.
Qed.

Lemma Rep_retire s v i :
  Rep s v -> in_dir i ->
  exists s', retire_slot_unlocked i s = (s', Ok tt) /\ Rep s' (retire i v).
Proof.
  intros [Hd Hb Hf Hdir Hdata Hg Hgl] Hi. unfold retire_slot_unlocked. rewrite Hg.
  assert (Z.to_nat i < length (vgens v))%nat as Hlt by (layout; lia).
  destruct (lookup_lt_is_Some_2 _ _ Hlt) as [g Hgi]. rewrite Hgi.
  eexists. split; [done|]. split; simpl; try done.
  - by rewrite nth_lookup, Hgi.
  - by rewrite length_insert.
Qed.

Lemma write_dir_spec s v i e :
  Rep s v -> in_dir i -> entry_ok e ->
  exists s', write_dir_entry_unlocked i e s = (s', Ok tt) /\ Rep s' (put_entry i e v).
Proof.
  intros Hr Hi He. unfold write_dir_entry_unlocked, put_entry.
  destruct (Z.leb_spec ROOT_DIR_ENTRIES i); [layout; lia|].
  destruct (in_use e =? 0).
  - destruct (Rep_retire s v i Hr Hi) as (s1 & H1 & Hr1).
    rewrite (kbind_Ok _ _ _ _ _ H1). by apply put_bytes_spec.
  - rewrite (kbind_Ok _ _ s s tt) by done. by apply put_bytes_spec.
Qed.

(** ** Data clusters *)

Lemma read_data_spec s v c :
  Rep s v -> in_data c ->
  read_blocks_unlocked (cluster_to_lba c) SECTORS_PER_CLUSTER s = (s, Ok (vdata v c)).
Proof.
  intros Hr Hc. destruct (cluster_sectors c Hc). destruct Hr as [Hd _ _ _ Hdata _ _].
  rewrite <- Hdata by done. unfold read_blocks_unlocked. simpl.
  rewrite dev_read_ok; [done|done|lia|layout; lia|lia].
Qed.

Lemma data_shape s v c :
  Rep s v -> in_data c -> zlen (vdata v c) = CLUSTER_BYTES /\ bytes_ok (vdata v c).
Proof.
  intros Hr Hc. destruct (cluster_sectors c Hc). destruct Hr as [Hd _ _ _ Hdata _ _].
  rewrite <- Hdata by done. unfold data_of. change SECTORS_PER_CLUSTER with (Z.of_nat 8) in *.
  apply (zlen_sectors _ _ 8). intros i Hi.
  split; [apply block_len|apply block_bytes]; (done || lia).
Qed.

(** Different clusters share no sector. *)
Lemma clusters_disjoint c k i :
  c <> k -> cluster_to_lba c <= i < cluster_to_lba c + SECTORS_PER_CLUSTER ->
  ~ cluster_to_lba k <= i < cluster_to_lba k + SECTORS_PER_CLUSTER.
Proof. layout. lia. Qed.

Lemma write_data_spec s v c buf :
  Rep s v -> in_data c -> zlen buf = CLUSTER_BYTES -> bytes_ok buf ->
  exists s', write_blocks_unlocked (cluster_to_lba c) SECTORS_PER_CLUSTER buf s = (s', Ok tt) /\
    Rep s' (set_data c buf v).
Proof.
  intros Hr Hc Hz Hb. destruct (cluster_sectors c Hc) as [Hlo Hhi].
  destruct Hr as [Hd Hboot Hf Hdir Hdata Hg Hgl].
  unfold write_blocks_unlocked. simpl.
  destruct (dev_write_ok (dev s) (cluster_to_lba c) SECTORS_PER_CLUSTER buf)
    as (d' & -> & Hok & Hblk); [done|lia|layout; lia|lia|done|done|].
  eexists. split; [done|].
  assert (forall i, ~ cluster_to_lba c <= i < cluster_to_lba c + SECTORS_PER_CLUSTER ->
    block d' i = block (dev s) i) as Hframe.
  { intros i Hi. rewrite Hblk. zcase; simpl; try lia; done. }
  split; simpl; [done| | | | |done|done].
  - rewrite Hframe by lia. done.
  - intros k Hk. rewrite <- Hf by done. unfold fat_of. rewrite Hframe; [done|]. layout. dlia.
  - intros k Hk. rewrite <- Hdir by done. unfold dir_of. rewrite Hframe; [done|]. layout. dlia.
  - intros k Hk. destruct (decide (c = k)) as [<-|Hne].
    + rewrite fn_lookup_insert. unfold data_of. change SECTORS_PER_CLUSTER with (Z.of_nat 8) in *.
      apply sectors_slices; [done|]. intros i Hi. rewrite Hblk. zcase; simpl; try lia; done.
    + rewrite fn_lookup_insert_ne, <- Hdata by done. apply sectors_ext. intros i Hi.
      apply Hframe. intros Hi'. by apply (clusters_disjoint c k i).
Qed.

Lemma boot_spec s v :
  Rep s v -> exists bs, read_boot_sector_unlocked s = (s, Ok bs).
Proof.
  intros [Hd Hb _ _ _ _ _]. pose proof dev_size.
  unfold read_boot_sector_unlocked. rewrite (kbind_Ok _ _ s s true).
  2: { unfold gets. by rewrite dev_ok_ready. }
  cbn iota beta delta [negb].
  rewrite (kbind_Ok _ _ _ _ _ (read_block_spec _ BOOT_SECTOR_LBA Hd ltac:(layout; lia))).
  unfold BOOT_SECTOR_LBA. cbn zeta. rewrite Hb, Z.eqb_refl. eexists. done.
Qed.
End rep.
