(* ===== verification/FatChain.v ===== *)
(** Cluster chains: allocation, freeing, and the loops that write and read a
    file's chain, on the abstract volume of FatRep. *)

From S2P Require Import Prelude BlockDev Fat FatRep.
Open Scope kmonad_scope.

Section chain.
Context {D : Type} `{RD : ReliableDevice D}.
Abbreviation fs := (fs D).
Implicit Types (s : fs) (v : vol).

(** The clusters [alloc_cluster_unlocked] scans, in order. *)
Definition data_clusters : list Z := seqZ 2 (max_cluster - 1).

Definition is_free v (c : Z) : bool := vfat v c =? FAT_ENTRY_FREE.
Definition free_count v : nat := count (is_free v) data_clusters.

Lemma elem_of_data_clusters c : c ∈ data_clusters <-> in_data c.
Proof. unfold data_clusters, in_data. rewrite elem_of_seqZ. lia. Qed.

Lemma NoDup_data_clusters : NoDup data_clusters.
Proof. apply NoDup_seqZ. Qed.

(** * Allocation *)

(** Allocation takes the lowest free cluster and marks it end-of-chain, or
    reports a full disk and changes nothing. *)
Lemma alloc_spec s v :
  Rep s v ->
  match first_such (is_free v) data_clusters with
  | Some c => exists s', alloc_cluster_unlocked s = (s', Ok c) /\
                Rep s' (set_fat c FAT_ENTRY_EOC v)
  | None => alloc_cluster_unlocked s = (s, Err NoSpace)
  end.
Proof.
  intros Hr. unfold alloc_cluster_unlocked. fold data_clusters.
  assert (forall c, c ∈ data_clusters -> in_fat c) as Hin.
  { intros c Hc. apply in_data_fat. by apply elem_of_data_clusters. }
  revert Hin. induction data_clusters as [|c l IH]; intros Hin; [done|].
  cbn [alloc_scan first_such]. specialize (Hin c (list_elem_of_here _ _)) as Hc.
  rewrite (kbind_Ok _ _ _ _ _ (read_fat_spec s v c Hr Hc)). fold (is_free v c).
  destruct (is_free v c) eqn:E.
  - destruct (write_fat_spec s v c FAT_ENTRY_EOC Hr Hc) as (s' & Hw & Hr'); [done|].
    exists s'. by rewrite (kbind_Ok _ _ _ _ _ Hw).
  - apply IH. intros x Hx. apply Hin. by right.
Qed.

(** With a free cluster left, allocation succeeds on one of them. *)
Lemma alloc_some s v :
  Rep s v -> (0 < free_count v)%nat ->
  exists c s', alloc_cluster_unlocked s = (s', Ok c) /\ Rep s' (set_fat c FAT_ENTRY_EOC v) /\
    in_data c /\ vfat v c = 0 /\ free_count v = S (free_count (set_fat c FAT_ENTRY_EOC v)).
Proof.
  intros Hr Hpos. apply count_pos in Hpos. pose proof (alloc_spec s v Hr) as Ha.
  destruct (first_such (is_free v) data_clusters) as [c|] eqn:E; [|done].
  apply first_such_Some in E as [Hc Hf]. destruct Ha as (s' & Ha & Hr').
  exists c, s'. split; [done|]. split; [done|].
  split; [by apply elem_of_data_clusters|]. split; [by apply Z.eqb_eq in Hf|].
  apply (count_flip _ _ _ c); [apply NoDup_data_clusters|done|done| |].
  - unfold is_free, set_fat. simpl. by rewrite fn_lookup_insert.
  - intros x Hx. unfold is_free, set_fat. simpl. by rewrite fn_lookup_insert_ne.
Qed.

Lemma alloc_none s v :
  Rep s v -> free_count v = 0%nat -> alloc_cluster_unlocked s = (s, Err NoSpace).
Proof.
  intros Hr H0. pose proof (alloc_spec s v Hr) as Ha.
  destruct (first_such (is_free v) data_clusters) as [c|] eqn:E; [|done].
  assert (0 < free_count v)%nat; [|lia]. apply count_pos. by rewrite E.
Qed.

(** * Chains *)

(** [rest] is what follows cluster [c] in the FAT [f], up to an
    end-of-chain mark. *)
Fixpoint linked (f : Z -> Z) (c : Z) (rest : list Z) : Prop :=
  in_data c /\
  match rest with
  | [] => FAT_ENTRY_RESERVED <= f c
  | c' :: rest => f c = c' /\ linked f c' rest
  end.

(** The chain of an entry whose [first_cluster] is [first]. *)
Definition chain (f : Z -> Z) (first : Z) (cs : list Z) : Prop :=
  match cs with
  | [] => first = 0
  | c :: rest => first = c /\ linked f c rest
  end.

Lemma linked_ext f g c rest :
  (forall x, x ∈ c :: rest -> f x = g x) -> linked f c rest -> linked g c rest.
Proof.
  revert c. induction rest as [|c' rest IH]; intros c Hfg; simpl; intros [Hc Hl].
  - split; [done|]. by rewrite <- Hfg by left.
  - split; [done|]. destruct Hl as [Hf Hl]. rewrite <- Hfg by left. split; [done|].
    apply IH; [|done]. intros x Hx. apply Hfg. by right.
Qed.

Lemma chain_ext f g first cs :
  (forall x, x ∈ cs -> f x = g x) -> chain f first cs -> chain g first cs.
Proof. destruct cs as [|c rest]; [done|]. simpl. intros Hfg [-> Hl]. split; [done|]. by apply (linked_ext f). Qed.

Lemma linked_in_data f c rest x : linked f c rest -> x ∈ c :: rest -> in_data x.
Proof.
  revert c. induction rest as [|c' rest IH]; intros c; simpl; intros [Hc Hl] Hx.
  - apply list_elem_of_singleton in Hx. by subst.
  - apply elem_of_cons in Hx as [->|Hx]; [done|]. destruct Hl as [_ Hl]. by apply (IH c').
Qed.

Lemma chain_in_data f first cs x : chain f first cs -> x ∈ cs -> in_data x.
Proof.
  destruct cs as [|c rest]; [intros _ Hx; by apply not_elem_of_nil in Hx|].
  intros [_ Hl]. by apply linked_in_data with f.
Qed.

(** Clusters of a chain are not free. *)
Lemma linked_used f c rest x : linked f c rest -> x ∈ c :: rest -> f x <> 0.
Proof.
  revert c. induction rest as [|c' rest IH]; intros c; simpl; intros [Hc Hl] Hx.
  - apply list_elem_of_singleton in Hx. subst. layout. lia.
  - destruct Hl as [Hf Hl]. apply elem_of_cons in Hx as [->|Hx].
    + rewrite Hf. destruct rest as [|? ?]; destruct Hl as [Hc' _]; unfold in_data in Hc'; lia.
    + by apply (IH c').
Qed.

Lemma chain_used f first cs x : chain f first cs -> x ∈ cs -> f x <> 0.
Proof.
  destruct cs as [|c rest]; [intros _ Hx; by apply not_elem_of_nil in Hx|].
  intros [_ Hl]. by apply linked_used.
Qed.

Lemma chain_length f first cs : chain f first cs -> NoDup cs -> zlen cs <= 16382.
Proof.
  intros Hch Hnd. destruct max_cluster_range as [[H1 H2] _].
  assert (length cs <= length data_clusters)%nat as Hle.
  { apply submseteq_length. apply NoDup_submseteq; [done|]. intros x Hx.
    apply elem_of_data_clusters. by apply chain_in_data with f first cs. }
  unfold data_clusters in Hle. rewrite length_seqZ in Hle. unfold zlen. lia.
Qed.

(** * Freeing a chain *)

Definition clear_fat (cs : list Z) v : vol :=
  mk_vol (fun c => if decide (c ∈ cs) then FAT_ENTRY_FREE else vfat v c) (vdir v) (vdata v) (vgens v).

(** [Rep] looks at the FAT only through its values. *)
Lemma Rep_fat_ext s v f :
  Rep s v -> (forall c, f c = vfat v c) -> Rep s (mk_vol f (vdir v) (vdata v) (vgens v)).
Proof. intros [? ? Hf ? ? ? ?] Hff. split; simpl; try done. intros c Hc. rewrite Hff. by apply Hf. Qed.

Lemma clear_fat_cons c cs v :
  c ∉ cs -> forall k, vfat (clear_fat (c :: cs) v) k = vfat (clear_fat cs (set_fat c FAT_ENTRY_FREE v)) k.
Proof.
  intros Hc k. unfold clear_fat, set_fat. simpl.
  destruct (decide (k ∈ cs)) as [Hin|Hout].
  - rewrite decide_True by by right. done.
  - destruct (decide (c = k)) as [->|Hne].
    + rewrite decide_True by left. by rewrite fn_lookup_insert.
    + rewrite decide_False by (rewrite elem_of_cons; intros [->|?]; done). by rewrite fn_lookup_insert_ne.
Qed.

Lemma free_linked fuel s v c rest :
  Rep s v -> linked (vfat v) c rest -> NoDup (c :: rest) -> (length rest < fuel)%nat ->
  exists s', free_loop fuel c s = (s', Ok tt) /\ Rep s' (clear_fat (c :: rest) v).
Proof.
  revert fuel s v c. induction rest as [|c' rest IH]; intros [|fuel] s v c Hr Hl Hnd Hfuel;
    simpl in Hfuel; try lia.
  all: apply NoDup_cons in Hnd as [Hnin Hnd].
  all: assert (in_data c) as Hc by (apply (linked_in_data _ _ _ _ Hl); left).
  all: cbn [free_loop]; pose proof (in_data_is_data c Hc) as Hd; unfold is_data_cluster in Hd.
  all: destruct (Z.ltb_spec c 2); [unfold in_data in Hc; lia|].
  all: destruct (Z.leb_spec FAT_ENTRY_RESERVED c);
    [destruct max_cluster_range; unfold in_data in Hc; layout; lia|]; cbn [orb].
  all: rewrite (kbind_Ok _ _ _ _ _ (read_fat_spec s v c Hr (in_data_fat c Hc))).
  all: destruct (write_fat_spec s v c FAT_ENTRY_FREE Hr (in_data_fat c Hc) ltac:(done)) as (s1 & Hw & Hr1);
    rewrite (kbind_Ok _ _ _ _ _ Hw).
  - destruct Hl as [_ Hend]. destruct (Z.leb_spec FAT_ENTRY_RESERVED (vfat v c)); [|lia].
    exists s1. split; [done|]. apply (Rep_fat_ext s1 (set_fat c FAT_ENTRY_FREE v) (vfat (clear_fat [c] v))); [done|].
    intros k. rewrite (clear_fat_cons c [] v Hnin k). done.
  - destruct Hl as [_ [Hf Hl]]. rewrite Hf.
    assert (in_data c') as Hc' by (apply (linked_in_data _ _ _ _ Hl); left).
    destruct (Z.leb_spec FAT_ENTRY_RESERVED c');
      [destruct max_cluster_range; unfold in_data in Hc'; layout; lia|].
    destruct (IH fuel s1 (set_fat c FAT_ENTRY_FREE v) c' Hr1) as (s' & Hrun & Hr'); try done; [|lia|].
    { apply linked_ext with (vfat v); [|done]. intros x Hx. unfold set_fat; simpl.
      rewrite fn_lookup_insert_ne; [done|]. by intros ->. }
    exists s'. split; [done|].
    apply (Rep_fat_ext s' (clear_fat (c' :: rest) (set_fat c FAT_ENTRY_FREE v))
      (vfat (clear_fat (c :: c' :: rest) v))); [done|].
    intros k. by apply clear_fat_cons.
Qed.

(** Freeing a well-formed chain clears exactly its clusters. *)
Lemma free_chain_spec s v first cs :
  Rep s v -> chain (vfat v) first cs -> NoDup cs ->
  exists s', free_cluster_chain_unlocked first s = (s', Ok tt) /\ Rep s' (clear_fat cs v).
Proof.
  intros Hr Hch Hnd. pose proof (chain_length _ _ _ Hch Hnd) as Hlen.
  unfold free_cluster_chain_unlocked.
  assert (16384 < Z.of_nat free_fuel) as Hfuel by (unfold free_fuel; layout; lia).
  destruct cs as [|c rest]; simpl in Hch.
  - subst first. exists s. destruct free_fuel; [lia|]. split; [done|].
    by apply Rep_fat_ext with (v := v).
  - destruct Hch as [-> Hl]. unfold zlen in Hlen. simpl in Hlen. apply free_linked; [done..|lia].
Qed.

(** ** Termination

    Each iteration clears the entry it has read; a cleared entry ends the
    walk.  So freeing terminates on every FAT, a cyclic or corrupt one
    included. *)

Definition used_count v : nat := count (fun c => negb (is_free v c)) (seqZ 0 16384).

Lemma used_count_le v : Z.of_nat (used_count v) <= 16384.
Proof.
  pose proof (count_le (fun c => negb (is_free v c)) (seqZ 0 16384)) as H1.
  rewrite length_seqZ in H1. unfold used_count. lia.
Qed.

Lemma used_count_clear v c :
  in_fat c -> vfat v c <> 0 -> used_count v = S (used_count (set_fat c FAT_ENTRY_FREE v)).
Proof.
  intros Hc Hu. apply (count_flip _ _ _ c); [apply NoDup_seqZ|..].
  - apply elem_of_seqZ. layout. lia.
  - unfold is_free. layout. by destruct (Z.eqb_spec (vfat v c) 0).
  - unfold is_free, set_fat. simpl. rewrite fn_lookup_insert. done.
  - intros x Hx. unfold is_free, set_fat. simpl. by rewrite fn_lookup_insert_ne.
Qed.

Lemma free_loop_total fuel s v c :
  Rep s v -> 0 <= c -> (used_count v + 1 < fuel)%nat ->
  exists s' v' r, free_loop fuel c s = (s', r) /\ Rep s' v' /\ (r = Ok tt \/ r = Err InvalidArgument).
Proof.
  revert s v c. induction fuel as [|fuel IH]; intros s v c Hr Hc Hfuel; [lia|].
  cbn [free_loop]. destruct ((c <? 2) || (FAT_ENTRY_RESERVED <=? c)) eqn:Eend.
  { exists s, v, (Ok tt). by eauto. }
  destruct (Z.lt_ge_cases c 16384) as [Hlt|Hge].
  2: { exists s, v, (Err InvalidArgument). split; [|by eauto].
       apply kbind_Err. unfold read_fat_entry_unlocked. layout.
       destruct (Z.leb_spec 64 (c / 256)); [done|dlia]. }
  assert (in_fat c) as Hin by (layout; lia).
  rewrite (kbind_Ok _ _ _ _ _ (read_fat_spec s v c Hr Hin)).
  destruct (write_fat_spec s v c FAT_ENTRY_FREE Hr Hin ltac:(done)) as (s1 & Hw & Hr1).
  rewrite (kbind_Ok _ _ _ _ _ Hw).
  destruct (Z.leb_spec FAT_ENTRY_RESERVED (vfat v c)); [by eauto 10|].
  destruct (decide (vfat v c = 0)) as [E0|Hne].
  - rewrite E0. destruct fuel as [|fuel]; [lia|]. cbn [free_loop]. by eauto 10.
  - pose proof (used_count_clear v c Hin Hne). apply (IH s1 (set_fat c FAT_ENTRY_FREE v)); [done| |lia].
    rewrite <- (rep_fat _ _ Hr c Hin). unfold fat_of. apply le_val_bound.
    apply slice_ok. apply block_bytes; [apply Hr|]. pose proof dev_size. layout. dlia.
Qed.

(** * Writing a chain: the allocation loop of [create_file_unlocked] *)

Definition padded (data : list Z) (i : Z) : list Z :=
  splice 0 (slice (i * CLUSTER_BYTES) (Z.min (i * CLUSTER_BYTES + CLUSTER_BYTES) (zlen data)) data)
    (zeros CLUSTER_BYTES).

Lemma padded_shape data i :
  bytes_ok data -> 0 <= i -> i * CLUSTER_BYTES < zlen data ->
  zlen (padded data i) = CLUSTER_BYTES /\ bytes_ok (padded data i).
Proof.
  intros Hd Hi Hlt. unfold padded. split; [|auto with kaguya].
  rewrite zlen_splice; [by apply zlen_zeros|lia|].
  rewrite zlen_slice by (layout; lia). rewrite zlen_zeros by done. layout. lia.
Qed.

Lemma free_count_used v p x :
  vfat v p <> 0 -> x <> 0 -> free_count (set_fat p x v) = free_count v.
Proof.
  intros Hp Hx. apply count_ext. intros c _. unfold is_free, set_fat. simpl. layout.
  destruct (decide (p = c)) as [->|Hne]; [|by rewrite fn_lookup_insert_ne].
  rewrite fn_lookup_insert. by destruct (Z.eqb_spec x 0), (Z.eqb_spec (vfat v c) 0).
Qed.

Definition link_prev (prev : option Z) (c : Z) v : vol :=
  match prev with Some p => set_fat p c v | None => v end.

Lemma create_step_spec s v data i prev :
  Rep s v -> bytes_ok data -> 0 <= i -> i * CLUSTER_BYTES < zlen data -> (0 < free_count v)%nat ->
  (forall p, prev = Some p -> linked (vfat v) p []) ->
  exists c s' v1, create_step data i prev s = (s', Ok c) /\ in_data c /\ vfat v c = 0 /\
    v1 = link_prev prev c (set_fat c FAT_ENTRY_EOC v) /\
    Rep s' (set_data c (padded data i) v1) /\ free_count v = S (free_count v1).
Proof.
  intros Hr Hd Hi Hlt Hfree Hprev. unfold create_step.
  destruct (alloc_some s v Hr Hfree) as (c & s1 & Ha & Hr1 & Hc & H0 & Hcnt).
  rewrite (kbind_Ok _ _ _ _ _ Ha).
  set (v1 := link_prev prev c (set_fat c FAT_ENTRY_EOC v)).
  assert (exists s2, (match prev with Some p => write_fat_entry_unlocked p c | None => kret tt end) s1
    = (s2, Ok tt) /\ Rep s2 v1 /\ free_count v = S (free_count v1)) as (s2 & Hl & Hr2 & Hcnt2).
  { destruct prev as [p|]; simpl in *; [|by exists s1].
    destruct (Hprev p eq_refl) as [Hp Hpend]. layout.
    assert (p <> c) as Hpc by (intros ->; lia).
    destruct (write_fat_spec s1 _ p c Hr1 (in_data_fat p Hp)) as (s2 & Hw & Hr2).
    { pose proof (in_data_fat c Hc). layout. lia. }
    exists s2. split; [done|]. split; [done|]. unfold v1. simpl. rewrite free_count_used; [done|..].
    - unfold set_fat. simpl. rewrite fn_lookup_insert_ne by done. lia.
    - unfold in_data in Hc. lia. }
  rewrite (kbind_Ok _ _ _ _ _ Hl). cbn zeta. fold (padded data i).
  destruct (padded_shape data i Hd Hi Hlt) as [Hz Hb].
  destruct (write_data_spec s2 v1 c (padded data i) Hr2 Hc Hz Hb) as (s3 & Hw & Hr3).
  rewrite (kbind_Ok _ _ _ _ _ Hw). exists c, s3, v1. by eauto 10.
Qed.
End chain.
