(* ===== verification/FatFile.v ===== *)
(** Whole files: the loops that write and read a chain, and the directory
    scans, on the abstract volume. *)

From S2P Require Import Prelude BlockDev Fat FatRep FatChain.
Open Scope kmonad_scope.

Section file.
Context {D : Type} `{RD : ReliableDevice D}.
Abbreviation fs := (fs D).
Implicit Types (s : fs) (v : vol).

(** What the allocation loop leaves behind when it links the clusters [cs]
    after [prev] and fills them with the chunks [k ..] of [data]. *)
Record written v v' (prev : option Z) (cs : list Z) : Prop := {
  wr_fresh c : c ∈ cs -> in_data c /\ vfat v c = 0;
  wr_nodup : NoDup cs;
  wr_fat c : c ∉ cs -> prev <> Some c -> vfat v' c = vfat v c;
  wr_data c : c ∉ cs -> vdata v' c = vdata v c;
  wr_dir : vdir v' = vdir v;
  wr_gens : vgens v' = vgens v;
}.

Lemma written_nil v prev : written v v prev [].
Proof.
  split; try done; [|constructor]. intros c Hc. by apply not_elem_of_nil in Hc.
Qed.

(** The chain after [prev], or the whole chain when there is no [prev]. *)
Definition linked_from (f : Z -> Z) (prev : option Z) (cs : list Z) : Prop :=
  match prev, cs with
  | Some p, _ => linked f p cs
  | None, c :: cs => linked f c cs
  | None, [] => True
  end.

Definition first_of (k first : Z) (cs : list Z) : Z :=
  match cs with c :: _ => if k =? 0 then c else first | [] => first end.

(** One step of the loop, as a [written] of a single cluster. *)
Lemma create_step_written s v data i prev :
  Rep s v -> bytes_ok data -> 0 <= i -> i * CLUSTER_BYTES < zlen data -> (0 < free_count v)%nat ->
  (forall p, prev = Some p -> linked (vfat v) p []) ->
  exists c s' v', create_step data i prev s = (s', Ok c) /\ Rep s' v' /\ written v v' prev [c] /\
    linked (vfat v') c [] /\ (forall p, prev = Some p -> vfat v' p = c) /\
    vdata v' c = padded data i /\ free_count v = S (free_count v').
Proof.
  intros Hr Hd Hi Hlt Hfree Hprev.
  destruct (create_step_spec s v data i prev) as (c & s' & v1 & Hstep & Hc & H0 & Hv1 & Hr' & Hcnt); try done.
  assert (forall p, prev = Some p -> p <> c) as Hpc.
  { intros p Hp ->. destruct (Hprev c Hp) as [_ Hend]. layout. lia. }
  exists c, s', (set_data c (padded data i) v1). split; [done|]. split; [done|].
  split; [|split; [|split; [|split; [apply fn_lookup_insert|exact Hcnt]]]].
  - split; [|by apply NoDup_singleton|..]; subst v1.
    + intros x ->%list_elem_of_singleton. done.
    + intros x Hx Hp. apply not_elem_of_cons in Hx as [Hx _]. destruct prev as [p|]; simpl.
      * do 2 rewrite fn_lookup_insert_ne by congruence. done.
      * by rewrite fn_lookup_insert_ne.
    + intros x Hx. apply not_elem_of_cons in Hx as [Hx _]. simpl.
      rewrite fn_lookup_insert_ne by done. by destruct prev.
    + by destruct prev.
    + by destruct prev.
  - split; [done|]. subst v1. destruct prev as [p|]; simpl.
    + rewrite fn_lookup_insert_ne by (by apply Hpc). by rewrite fn_lookup_insert.
    + by rewrite fn_lookup_insert.
  - intros p ->. subst v1. simpl. by rewrite fn_lookup_insert.
Qed.

(** Clusters written later are new to the volume before. *)
Lemma written_later v v1 v' prev c cs :
  written v v1 prev [c] -> linked (vfat v1) c [] -> (forall p, prev = Some p -> vfat v1 p = c) ->
  written v1 v' (Some c) cs ->
  (c ∉ cs) /\ (forall x, x ∈ cs -> vfat v x = 0 /\ prev <> Some x).
Proof.
  intros W1 [Hc Hend] Hp W2.
  assert (c ∉ cs) as Hccs.
  { intros Hin. destruct (wr_fresh _ _ _ _ W2 c Hin) as [_ Hz]. layout. lia. }
  split; [done|]. intros x Hx. destruct (wr_fresh _ _ _ _ W2 x Hx) as [_ Hxz].
  assert (prev <> Some x) as Hpx.
  { intros Hpx. rewrite (Hp x Hpx) in Hxz. unfold in_data in Hc. lia. }
  split; [|done]. rewrite <- (wr_fat _ _ _ _ W1); [done| |done].
  rewrite list_elem_of_singleton. by intros ->.
Qed.

Lemma written_cons v v1 v' prev c cs :
  written v v1 prev [c] -> linked (vfat v1) c [] -> (forall p, prev = Some p -> vfat v1 p = c) ->
  written v1 v' (Some c) cs -> written v v' prev (c :: cs).
Proof.
  intros W1 Hl Hp W2. destruct (written_later v v1 v' prev c cs) as [Hccs Hnew]; try done.
  destruct W1 as [Fr1 _ Fat1 Dat1 Dir1 Gen1], W2 as [Fr2 Nd2 Fat2 Dat2 Dir2 Gen2]. split.
  - intros x Hx. apply elem_of_cons in Hx as [->|Hx]; [apply Fr1; left|].
    split; [by apply Fr2|by apply Hnew].
  - by constructor.
  - intros x [Hxc Hx]%not_elem_of_cons Hpx. rewrite Fat2 by (done || congruence).
    apply Fat1; [|done]. by rewrite list_elem_of_singleton.
  - intros x [Hxc Hx]%not_elem_of_cons. rewrite Dat2 by done. apply Dat1. by rewrite list_elem_of_singleton.
  - congruence.
  - congruence.
Qed.

Lemma create_loop_ok data n s v k prev first :
  Rep s v -> bytes_ok data -> (n <= free_count v)%nat -> 0 <= k ->
  (k + Z.of_nat n - 1) * CLUSTER_BYTES < zlen data ->
  (forall p, prev = Some p -> linked (vfat v) p []) ->
  exists s' v' cs, create_loop data (seqZ k (Z.of_nat n)) prev first s
      = (s', Ok (first_of k first cs)) /\ Rep s' v' /\ length cs = n /\
    written v v' prev cs /\ linked_from (vfat v') prev cs /\
    vdata v' <$> cs = padded data <$> seqZ k (Z.of_nat n) /\
    free_count v = (n + free_count v')%nat.
Proof.
  revert s v k prev first. induction n as [|n IH]; intros s v k prev first Hr Hd Hn Hk Hlt Hprev.
  - exists s, v, []. split; [done|]. split; [done|]. split; [done|].
    split; [apply written_nil|]. split; [|done]. destruct prev as [p|]; [by apply Hprev|done].
  - rewrite Nat2Z.inj_succ, seqZ_cons, Z.pred_succ by lia. cbn [create_loop].
    destruct (create_step_written s v data k prev)
      as (c & s1 & v1 & Hstep & Hr1 & W1 & Hl1 & Hp1 & Hd1 & Hcnt1); try done; [layout; lia|lia|].
    rewrite (kbind_Ok _ _ _ _ _ Hstep).
    destruct (IH s1 v1 (Z.succ k) (Some c) (if k =? 0 then c else first) Hr1 Hd)
      as (s' & v' & cs & Hrun & Hr' & Hlen & W2 & Hl2 & Hd2 & Hcnt2); [lia|lia|layout; lia| |].
    { intros p [= <-]. exact Hl1. }
    destruct (written_later v v1 v' prev c cs) as [Hccs Hnew]; try done.
    exists s', v', (c :: cs).
    split; [|split; [done|split; [by simpl; f_equal|split; [by apply written_cons with v1|split; [|split]]]]].
    + rewrite Hrun. do 2 f_equal. destruct cs; [done|]. simpl. by destruct (Z.eqb_spec (Z.succ k) 0); [lia|].
    + destruct prev as [p|]; [|exact Hl2]. simpl. split; [by apply (Hprev p)|]. split; [|exact Hl2].
      rewrite (wr_fat _ _ _ _ W2); [by apply Hp1| |].
      * intros Hin. by destruct (Hnew p Hin).
      * intros [= ->]. destruct (Hprev p eq_refl) as [_ He].
        destruct (wr_fresh _ _ _ _ W1 p) as [_ Hz]; [left|]. layout. lia.
    + cbn. f_equal; [|done]. by rewrite (wr_data _ _ _ _ W2).
    + lia.
Qed.

(** Without enough free clusters the loop reports a full disk.  Nothing that
    was in use before has changed, but the clusters allocated on the way stay
    allocated. *)
Lemma create_loop_full data n s v k prev first :
  Rep s v -> bytes_ok data -> (free_count v < n)%nat -> 0 <= k ->
  (k + Z.of_nat n - 1) * CLUSTER_BYTES < zlen data ->
  (forall p, prev = Some p -> linked (vfat v) p []) ->
  exists s' v', create_loop data (seqZ k (Z.of_nat n)) prev first s = (s', Err NoSpace) /\ Rep s' v' /\
    vdir v' = vdir v /\ vgens v' = vgens v /\ free_count v' = 0%nat /\
    (forall c, vfat v c <> 0 -> prev <> Some c -> vfat v' c = vfat v c /\ vdata v' c = vdata v c).
Proof.
  revert s v k prev first. induction n as [|n IH]; intros s v k prev first Hr Hd Hn Hk Hlt Hprev; [lia|].
  rewrite Nat2Z.inj_succ, seqZ_cons, Z.pred_succ by lia. cbn [create_loop].
  destruct (decide (free_count v = 0%nat)) as [H0|Hpos].
  - exists s, v. split; [|by eauto]. apply kbind_Err. unfold create_step. apply kbind_Err.
    by apply alloc_none with v.
  - destruct (create_step_written s v data k prev)
      as (c & s1 & v1 & Hstep & Hr1 & W1 & Hl1 & Hp1 & Hd1 & Hcnt1); try done; [layout; lia|lia|].
    rewrite (kbind_Ok _ _ _ _ _ Hstep).
    destruct (IH s1 v1 (Z.succ k) (Some c) (if k =? 0 then c else first) Hr1 Hd)
      as (s' & v' & Hrun & Hr' & Hdir & Hgen & Hfull & Hkeep); [lia|lia|layout; lia| |].
    { intros p [= <-]. exact Hl1. }
    exists s', v'. split; [done|]. split; [done|].
    split; [by rewrite Hdir; apply W1|]. split; [by rewrite Hgen; apply W1|]. split; [done|].
    intros x Hx Hpx. assert (x <> c) as Hxc.
    { intros ->. destruct (wr_fresh _ _ _ _ W1 c) as [_ Hz]; [left|]. done. }
    assert (x ∉ [c]) as Hxl by (by rewrite list_elem_of_singleton).
    rewrite <- (wr_fat _ _ _ _ W1 x Hxl Hpx), <- (wr_data _ _ _ _ W1 x Hxl).
    apply Hkeep; [|congruence]. by rewrite (wr_fat _ _ _ _ W1 x Hxl Hpx).
Qed.

(** * Reading a chain *)

Lemma chain_next f c rest : linked f c rest -> rest <> [] -> chain f (f c) rest.
Proof. destruct rest as [|c' rest]; [done|]. by intros [_ [-> Hl]]. Qed.

(** The read loop appends the clusters of the chain to what it has read. *)
Lemma read_loop_spec fuel s v sz cur written result cs :
  Rep s v -> chain (vfat v) cur cs -> 0 <= written <= sz -> zlen result = sz ->
  sz - written <= CLUSTER_BYTES * zlen cs -> sz - written <= CLUSTER_BYTES * (Z.of_nat fuel - 1) ->
  (0 < fuel)%nat ->
  read_loop fuel sz cur written result s =
    (s, Ok (slice 0 written result ++ take (Z.to_nat (sz - written)) (concat (vdata v <$> cs)))).
Proof.
  revert cur written result cs. induction fuel as [|fuel IH];
    intros cur wr result cs Hr Hch Hw Hz Hcs Hfuel Hpos; [lia|].
  cbn [read_loop]. destruct (Z.ltb_spec wr sz) as [Hlt|Hge]; cycle 1.
  { assert (wr = sz) as -> by lia. rewrite andb_false_r. unfold kret.
    replace (Z.to_nat (sz - sz)) with 0%nat by lia. rewrite take_0, app_nil_r, <- Hz. by rewrite slice_all. }
  destruct cs as [|c rest]; [unfold zlen in Hcs; simpl in Hcs; lia|].
  destruct Hch as [-> Hl]. assert (in_data c) as Hc by (apply (linked_in_data _ _ _ _ Hl); left).
  rewrite (in_data_is_data c Hc). cbn [andb].
  rewrite (kbind_Ok _ _ _ _ _ (read_data_spec s v c Hr Hc)).
  rewrite (kbind_Ok _ _ _ _ _ (read_fat_spec s v c Hr (in_data_fat c Hc))).
  destruct (data_shape s v c Hr Hc) as [Hdl _].
  set (m := Z.min (sz - wr) CLUSTER_BYTES). set (piece := slice 0 m (vdata v c)).
  assert (0 < m <= CLUSTER_BYTES) as Hm by (unfold m; layout; lia).
  assert (zlen piece = m) as Hp by (unfold piece; rewrite zlen_slice; lia).
  assert (zlen (splice wr piece result) = sz) as Hz2 by (rewrite zlen_splice; lia).
  assert (zlen (c :: rest) = 1 + zlen rest) as Hzc by (unfold zlen; simpl; lia).
  destruct (decide (rest = [])) as [->|Hne].
  - (* last cluster: the loop stops at the end mark or because all is read *)
    assert (sz - wr = m) as Hlast by (unfold m, zlen in *; simpl in Hcs; lia).
    destruct fuel as [|fuel]; [simpl in Hfuel; lia|]. cbn [read_loop].
    destruct (Z.ltb_spec (wr + m) sz); [lia|]. rewrite andb_false_r. unfold kret. do 2 f_equal.
    unfold splice. rewrite drop_ge by (unfold zlen in *; lia). rewrite app_nil_r.
    unfold slice. rewrite drop_0, Z.sub_0_r. f_equal. simpl. rewrite app_nil_r.
    unfold piece, slice. rewrite drop_0. f_equal. lia.
  - assert (1 <= zlen rest) as Hr1 by (unfold zlen; destruct rest; [done|simpl; lia]).
    rewrite (IH (vfat v c) (wr + m) (splice wr piece result) rest); try done.
    + do 2 f_equal. replace (wr + m) with (wr + zlen piece) by lia.
      rewrite <- (slice_join 0 wr (wr + zlen piece)) by lia.
      rewrite slice_splice_before by lia. rewrite slice_splice_same by lia.
      rewrite <- app_assoc, Hp. f_equal. cbn. unfold piece, slice. rewrite drop_0, Z.sub_0_r.
      destruct (Z.le_gt_cases (sz - wr) CLUSTER_BYTES) as [Hle|Hgt].
      * replace (Z.to_nat (sz - (wr + m))) with 0%nat by lia.
        rewrite take_0, app_nil_r. rewrite take_app_le by (unfold zlen in *; layout; lia).
        f_equal. unfold m. lia.
      * rewrite take_ge by (unfold zlen in *; layout; lia).
        rewrite take_app_ge by (unfold zlen in *; layout; lia). do 2 f_equal. unfold zlen in *. lia.
    + by apply chain_next.
    + lia.
    + unfold m. layout. lia.
    + unfold m. layout. lia.
    + unfold m in *. layout. destruct fuel; simpl in *; lia.
Qed.
End file.
