(* ===== verification/FatSpec.v ===== *)
(** The file system refines a map from names to contents.

    [Volume v files tbl] relates the abstract volume to the map [files]; [tbl]
    gives the cluster chain of each used directory slot.  [FS s files n] is
    the relation between a file system state, the map it implements and the
    number of its free clusters. *)

From S2P Require Import Prelude BlockDev Fat FatRep FatChain FatFile.
Open Scope kmonad_scope.

(** * Names *)

(** Names the directory can hold and give back: 1 to 21 bytes, none of them zero. *)
Definition good_name (nm : list Z) : Prop := 1 <= zlen nm <= 21 /\ bytes_ok nm /\ (0 ∉ nm).

#[export] Instance good_name_dec nm : Decision (good_name nm).
Proof. unfold good_name, bytes_ok, is_byte. apply _. Defined.

Lemma good_name_bad nm : good_name nm -> bad_name nm = false.
Proof. intros [? _]. unfold bad_name. zcase; simpl; lia. Qed.

Lemma name_len_pad nm k : (0 ∉ nm) -> name_len (nm ++ replicate k 0) = length nm.
Proof.
  induction nm as [|b nm IH]; intros H0; simpl.
  - by destruct k.
  - apply not_elem_of_cons in H0 as [Hb H0]. destruct (Z.eqb_spec b 0); [by subst|]. by rewrite IH.
Qed.

Lemma new_entry_name nm fc sz :
  good_name nm -> name (new_entry nm fc sz) = nm ++ replicate (22 - length nm) 0.
Proof.
  intros [Hl _]. unfold new_entry, splice, zeros. cbn [name].
  change (Z.to_nat 0) with 0%nat. rewrite take_0. cbn [app Nat.add].
  by rewrite drop_replicate.
Qed.

Lemma entry_name_new nm fc sz : good_name nm -> entry_name (new_entry nm fc sz) = nm.
Proof.
  intros Hg. unfold entry_name. rewrite new_entry_name, name_len_pad by (done || apply Hg).
  by rewrite take_app_length.
Qed.

Lemma new_entry_ok nm fc sz :
  good_name nm -> 0 <= fc < 2 ^ 16 -> 0 <= sz < 2 ^ 32 -> entry_ok (new_entry nm fc sz).
Proof.
  intros Hg Hf Hs. split; try done.
  - rewrite new_entry_name by done. destruct Hg as [Hl [Hb _]]. split.
    + unfold zlen in *. rewrite length_app, length_replicate. lia.
    + apply Forall_app. split; [done|]. apply Forall_replicate. unfold is_byte. lia.
  - split; [done|]. apply zeros_ok.
Qed.

Lemma empty_entry_ok : entry_ok empty_entry.
Proof. split; try done; split; try done; apply zeros_ok. Qed.

Section spec.
Context {D : Type} `{RD : ReliableDevice D}.
Abbreviation fs := (fs D).
Implicit Types (s : fs) (v : vol) (files : gmap (list Z) (list Z)) (tbl : gmap Z (list Z)).

(** * Directory scans *)

Definition slot_of v (nm : list Z) : option Z :=
  first_such (fun i => (in_use (vdir v i) =? 1) && bool_decide (entry_name (vdir v i) = nm)) dir_indexes.
Definition free_slot_of v : option Z := first_such (fun i => in_use (vdir v i) =? 0) dir_indexes.

Lemma elem_of_dir_indexes i : i ∈ dir_indexes <-> in_dir i.
Proof. unfold dir_indexes. rewrite elem_of_seqZ. layout. lia. Qed.

Lemma find_spec s v nm :
  Rep s v -> bad_name nm = false ->
  find_file_unlocked nm s = (s, Ok ((fun i => (i, vdir v i)) <$> slot_of v nm)).
Proof.
  intros Hr Hn. unfold find_file_unlocked, slot_of. rewrite Hn.
  assert (forall i, i ∈ dir_indexes -> in_dir i) as Hin by (intros i; apply elem_of_dir_indexes).
  revert Hin. induction dir_indexes as [|i l IH]; intros Hin; [done|].
  cbn [find_scan first_such].
  rewrite (kbind_Ok _ _ _ _ _ (read_dir_spec s v i Hr (Hin i (list_elem_of_here _ _)))).
  destruct ((in_use (vdir v i) =? 1) && bool_decide (entry_name (vdir v i) = nm)); [done|].
  apply IH. intros j Hj. apply Hin. by right.
Qed.

Lemma free_slot_spec s v :
  Rep s v -> find_free_dir_slot_unlocked s = (s, Ok (free_slot_of v)).
Proof.
  intros Hr. unfold find_free_dir_slot_unlocked, free_slot_of.
  assert (forall i, i ∈ dir_indexes -> in_dir i) as Hin by (intros i; apply elem_of_dir_indexes).
  revert Hin. induction dir_indexes as [|i l IH]; intros Hin; [done|].
  cbn [free_slot_scan first_such].
  rewrite (kbind_Ok _ _ _ _ _ (read_dir_spec s v i Hr (Hin i (list_elem_of_here _ _)))).
  destruct (in_use (vdir v i) =? 0); [done|]. apply IH. intros j Hj. apply Hin. by right.
Qed.

(** * The invariant *)

Definition contents v (e : FatDirEntry) (cs : list Z) : list Z :=
  take (Z.to_nat (size e)) (concat (vdata v <$> cs)).

Record slot_ok v files (i : Z) (cs : list Z) : Prop := {
  so_dir : in_dir i;
  so_use : in_use (vdir v i) = 1;
  so_chain : chain (vfat v) (first_cluster (vdir v i)) cs;
  so_nodup : NoDup cs;
  so_size : size (vdir v i) <= CLUSTER_BYTES * zlen cs;
  so_name : good_name (entry_name (vdir v i));
  so_file : files !! entry_name (vdir v i) = Some (contents v (vdir v i) cs);
}.

Record Volume v files tbl : Prop := {
  vol_entry i : in_dir i -> entry_ok (vdir v i);
  vol_free i : in_dir i -> tbl !! i = None -> in_use (vdir v i) = 0;
  vol_slot i cs : tbl !! i = Some cs -> slot_ok v files i cs;
  vol_inj i j cs cs' : tbl !! i = Some cs -> tbl !! j = Some cs' ->
    entry_name (vdir v i) = entry_name (vdir v j) -> i = j;
  vol_disj i j cs cs' c : tbl !! i = Some cs -> tbl !! j = Some cs' -> c ∈ cs -> c ∈ cs' -> i = j;
  vol_files nm d : files !! nm = Some d ->
    exists i cs, tbl !! i = Some cs /\ entry_name (vdir v i) = nm;
}.

(** [s] holds [files] and has [n] free clusters. *)
Definition FS s files (n : Z) : Prop :=
  exists v tbl, Rep s v /\ Volume v files tbl /\ n = Z.of_nat (free_count v).

(** The clusters some file uses. *)
Definition owned tbl (c : Z) : Prop := exists i cs, tbl !! i = Some cs /\ c ∈ cs.

Lemma owned_used v files tbl c : Volume v files tbl -> owned tbl c -> vfat v c <> 0.
Proof.
  intros Hv (i & cs & Hi & Hc). eapply chain_used; [|exact Hc]. by apply (vol_slot _ _ _ Hv i cs Hi).
Qed.

(** A slot keeps its contents when its entry and its clusters stay. *)
Lemma slot_ok_frame v v' files files' i cs :
  slot_ok v files i cs -> vdir v' i = vdir v i ->
  (forall c, c ∈ cs -> vfat v' c = vfat v c /\ vdata v' c = vdata v c) ->
  files' !! entry_name (vdir v i) = files !! entry_name (vdir v i) -> slot_ok v' files' i cs.
Proof.
  intros [Hd Hu Hch Hnd Hs Hn Hf] Hdir Hkeep Hff. split; rewrite ?Hdir; try done.
  - apply chain_ext with (vfat v); [|done]. intros c Hc. symmetry. by apply Hkeep.
  - rewrite Hff, Hf. f_equal. unfold contents. f_equal. f_equal.
    apply list_fmap_ext. intros k c Hc. symmetry. apply Hkeep. by apply list_elem_of_lookup_2 in Hc.
Qed.

Lemma Volume_frame v v' files tbl :
  Volume v files tbl -> (forall i, vdir v' i = vdir v i) ->
  (forall c, owned tbl c -> vfat v' c = vfat v c /\ vdata v' c = vdata v c) -> Volume v' files tbl.
Proof.
  intros [He Hf Hs Hi Hd Hfl] Hdir Hkeep. split.
  - intros i. rewrite Hdir. apply He.
  - intros i. rewrite Hdir. apply Hf.
  - intros i cs Hics. apply slot_ok_frame with v files; [by apply Hs|apply Hdir| |done].
    intros c Hc. apply Hkeep. by exists i, cs.
  - intros i j cs cs'. rewrite !Hdir. apply Hi.
  - apply Hd.
  - intros nm d Hnm. destruct (Hfl nm d Hnm) as (i & cs & ? & ?). exists i, cs. by rewrite Hdir.
Qed.

(** ** Looking a name up *)

Lemma slot_of_Some v files tbl nm i :
  Volume v files tbl -> slot_of v nm = Some i ->
  exists cs, tbl !! i = Some cs /\ entry_name (vdir v i) = nm.
Proof.
  intros Hv Hs. apply first_such_Some in Hs as [Hin Ht]. apply andb_true_iff in Ht as [Hu Hn].
  apply elem_of_dir_indexes in Hin. apply bool_decide_eq_true in Hn. apply Z.eqb_eq in Hu.
  destruct (tbl !! i) as [cs|] eqn:E; [by exists cs|].
  rewrite (vol_free _ _ _ Hv i Hin E) in Hu. done.
Qed.

Lemma slot_of_None v files tbl nm :
  Volume v files tbl -> slot_of v nm = None -> files !! nm = None.
Proof.
  intros Hv Hs. destruct (files !! nm) as [d|] eqn:E; [|done].
  destruct (vol_files _ _ _ Hv nm d E) as (i & cs & Hi & Hn).
  destruct (vol_slot _ _ _ Hv i cs Hi) as [Hd Hu _ _ _ _ _].
  pose proof (proj1 (first_such_None _ _) Hs i (proj2 (elem_of_dir_indexes i) Hd)) as Hfalse.
  simpl in Hfalse. rewrite Hu, Hn in Hfalse. by rewrite bool_decide_true in Hfalse.
Qed.

Lemma free_slot_of_Some v files tbl i :
  Volume v files tbl -> free_slot_of v = Some i -> in_dir i /\ tbl !! i = None.
Proof.
  intros Hv Hs. apply first_such_Some in Hs as [Hin Hu]. apply elem_of_dir_indexes in Hin.
  apply Z.eqb_eq in Hu. split; [done|]. destruct (tbl !! i) as [cs|] eqn:E; [|done].
  destruct (vol_slot _ _ _ Hv i cs E) as [_ Hu1 _ _ _ _ _]. lia.
Qed.

(** ** Removing and adding a file *)

Lemma Volume_remove v files tbl i cs :
  Volume v files tbl -> tbl !! i = Some cs ->
  Volume (put_entry i empty_entry (clear_fat cs v))
    (delete (entry_name (vdir v i)) files) (delete i tbl).
Proof.
  intros Hv Hi. set (v' := put_entry i empty_entry (clear_fat cs v)).
  assert (forall j, j <> i -> vdir v' j = vdir v j) as Hdir.
  { intros j Hj. unfold v', put_entry, set_dir. simpl. by rewrite fn_lookup_insert_ne. }
  assert (vdir v' i = empty_entry) as Hdi by (unfold v', put_entry, set_dir; simpl; by rewrite fn_lookup_insert).
  assert (forall j cs', j <> i -> tbl !! j = Some cs' -> forall c, c ∈ cs' -> c ∉ cs) as Hout.
  { intros j cs' Hj Hcs' c Hc Hc'. apply Hj. by apply (vol_disj _ _ _ Hv j i cs' cs c). }
  destruct Hv as [He Hf Hs Hin Hd Hfl]. split.
  - intros j Hj. destruct (decide (j = i)) as [->|Hne]; [rewrite Hdi; apply empty_entry_ok|].
    rewrite Hdir by done. by apply He.
  - intros j Hj Hnone. destruct (decide (j = i)) as [->|Hne]; [by rewrite Hdi|].
    rewrite Hdir by done. apply Hf; [done|]. by rewrite lookup_delete_ne in Hnone.
  - intros j cs' [Hne Hj]%lookup_delete_Some. apply slot_ok_frame with v files.
    + by apply Hs.
    + apply Hdir. done.
    + intros c Hc. unfold v', put_entry, set_dir, clear_fat. simpl. split; [|done].
      rewrite decide_False; [done|]. apply (Hout j cs'); done.
    + rewrite lookup_delete_ne; [done|]. intros Hnm. apply Hne. by apply (Hin i j cs cs').
  - intros j k cs1 cs2 [Hj H1]%lookup_delete_Some [Hk H2]%lookup_delete_Some.
    rewrite !Hdir by done. by apply (Hin j k cs1 cs2).
  - intros j k cs1 cs2 c [Hj H1]%lookup_delete_Some [Hk H2]%lookup_delete_Some. by apply (Hd j k cs1 cs2).
  - intros nm d [Hnm Hfd]%lookup_delete_Some. destruct (Hfl nm d Hfd) as (j & cs' & Hj & Hjn).
    assert (j <> i) as Hne by congruence. exists j, cs'.
    rewrite lookup_delete_ne by done. by rewrite Hdir.
Qed.

Lemma Volume_add v files tbl i cs nm fc sz :
  Volume v files tbl -> in_dir i -> tbl !! i = None -> good_name nm -> files !! nm = None ->
  chain (vfat v) fc cs -> NoDup cs -> (forall c, c ∈ cs -> ~ owned tbl c) ->
  0 <= fc < 2 ^ 16 -> 0 <= sz < 2 ^ 32 -> sz <= CLUSTER_BYTES * zlen cs ->
  Volume (put_entry i (new_entry nm fc sz) v)
    (<[nm := take (Z.to_nat sz) (concat (vdata v <$> cs))]> files) (<[i := cs]> tbl).
Proof.
  intros Hv Hi Hnone Hg Hnm Hch Hnd Hnew Hfc Hsz Hle.
  set (e := new_entry nm fc sz). set (v' := put_entry i e v).
  assert (forall j, j <> i -> vdir v' j = vdir v j) as Hdir.
  { intros j Hj. unfold v', put_entry, set_dir. simpl. by rewrite fn_lookup_insert_ne. }
  assert (vdir v' i = e) as Hdi by (unfold v', put_entry, set_dir; simpl; by rewrite fn_lookup_insert).
  assert (entry_name e = nm) as Hen by (by apply entry_name_new).
  destruct Hv as [He Hf Hs Hin Hd Hfl].
  assert (forall j cs', tbl !! j = Some cs' -> entry_name (vdir v j) <> nm) as Hother.
  { intros j cs' Hj Heq. destruct (Hs j cs' Hj) as [_ _ _ _ _ _ Hfile]. rewrite Heq in Hfile. congruence. }
  split.
  - intros j Hj. destruct (decide (j = i)) as [->|Hne]; [rewrite Hdi; by apply new_entry_ok|].
    rewrite Hdir by done. by apply He.
  - intros j Hj [Hnj Hij]%lookup_insert_None. rewrite Hdir by done. by apply Hf.
  - intros j cs' [[<- <-]|[Hne Hj]]%lookup_insert_Some.
    + split; rewrite ?Hdi; try done; [by rewrite Hen|]. rewrite Hen. by rewrite lookup_insert_eq.
    + apply slot_ok_frame with v files; [by apply Hs|by apply Hdir|done|].
      rewrite lookup_insert_ne; [done|]. intros Heq. by apply (Hother j cs' Hj).
  - intros j k cs1 cs2 [[<- <-]|[Hj H1]]%lookup_insert_Some [[<- <-]|[Hk H2]]%lookup_insert_Some;
      rewrite ?Hdi, ?Hdir, ?Hen by done; [done| | |by apply (Hin j k cs1 cs2)].
    + intros Heq. by destruct (Hother k cs2 H2).
    + intros Heq. by destruct (Hother j cs1 H1).
  - intros j k cs1 cs2 c [[<- <-]|[Hj H1]]%lookup_insert_Some [[<- <-]|[Hk H2]]%lookup_insert_Some Hc1 Hc2;
      [done| | |by apply (Hd j k cs1 cs2 c)].
    + destruct (Hnew c Hc1). by exists k, cs2.
    + destruct (Hnew c Hc2). by exists j, cs1.
  - intros nm' d [[<- <-]|[Hne Hfd]]%lookup_insert_Some.
    + exists i, cs. rewrite lookup_insert_eq, Hdi. done.
    + destruct (Hfl nm' d Hfd) as (j & cs' & Hj & Hjn). exists j, cs'.
      assert (j <> i) as Hji by congruence. rewrite lookup_insert_ne by done. by rewrite Hdir.
Qed.
End spec.
