(* ===== verification/FatOps.v ===== *)
(** Correctness of the file system operations against the map of files. *)

From S2P Require Import Prelude BlockDev Fat FatRep FatChain FatFile FatSpec.
Open Scope kmonad_scope.

(** * The chunks of a file *)

Lemma padded_last data k :
  0 <= k -> k * CLUSTER_BYTES < zlen data <= (k + 1) * CLUSTER_BYTES ->
  take (Z.to_nat (zlen data - k * CLUSTER_BYTES)) (padded data k) =
    drop (Z.to_nat (k * CLUSTER_BYTES)) data.
Proof.
  intros Hk Hlt. unfold padded. rewrite Z.min_r by lia.
  set (p := slice (k * CLUSTER_BYTES) (zlen data) data).
  assert (p = drop (Z.to_nat (k * CLUSTER_BYTES)) data) as Hp.
  { unfold p, slice. apply take_ge. rewrite length_drop. unfold zlen in *. layout. lia. }
  unfold splice. change (Z.to_nat 0) with 0%nat. rewrite take_0. cbn [app].
  rewrite take_app_le by (rewrite Hp, length_drop; unfold zlen in *; layout; lia).
  rewrite take_ge by (rewrite Hp, length_drop; unfold zlen in *; layout; lia). done.
Qed.

Lemma padded_full data k :
  0 <= k -> (k + 1) * CLUSTER_BYTES <= zlen data ->
  padded data k = slice (k * CLUSTER_BYTES) ((k + 1) * CLUSTER_BYTES) data.
Proof.
  intros Hk Hle. unfold padded. rewrite Z.min_l by lia.
  replace (k * CLUSTER_BYTES + CLUSTER_BYTES) with ((k + 1) * CLUSTER_BYTES) by lia.
  unfold splice. change (Z.to_nat 0) with 0%nat. rewrite take_0. cbn [app].
  rewrite drop_ge, app_nil_r; [done|].
  assert (zlen (slice (k * CLUSTER_BYTES) ((k + 1) * CLUSTER_BYTES) data) = CLUSTER_BYTES) as Hz
    by (rewrite zlen_slice; layout; lia).
  unfold zeros. rewrite length_replicate. unfold zlen in Hz. lia.
Qed.

Lemma concat_padded_from data m k :
  0 <= k -> (k + Z.of_nat m - 1) * CLUSTER_BYTES < zlen data <= (k + Z.of_nat m) * CLUSTER_BYTES ->
  (0 < m)%nat ->
  take (Z.to_nat (zlen data - k * CLUSTER_BYTES)) (concat (padded data <$> seqZ k (Z.of_nat m))) =
    drop (Z.to_nat (k * CLUSTER_BYTES)) data.
Proof.
  revert k. induction m as [|m IH]; intros k Hk Hlt Hpos; [lia|].
  rewrite Nat2Z.inj_succ, seqZ_cons, Z.pred_succ by lia. cbn [fmap list_fmap concat].
  destruct m as [|m].
  - simpl. rewrite app_nil_r. apply padded_last; [done|]. simpl in Hlt. lia.
  - rewrite padded_full by (layout; lia).
    set (p := slice _ _ data). assert (zlen p = CLUSTER_BYTES) as Hp
      by (unfold p; rewrite zlen_slice; layout; lia).
    rewrite take_app_ge by (unfold zlen in *; layout; lia).
    replace (Z.to_nat (zlen data - k * CLUSTER_BYTES) - length p)%nat
      with (Z.to_nat (zlen data - Z.succ k * CLUSTER_BYTES)) by (unfold zlen in *; layout; lia).
    rewrite IH by (layout; lia). unfold p, slice.
    replace (Z.to_nat (Z.succ k * CLUSTER_BYTES))
      with (Z.to_nat (k * CLUSTER_BYTES) + Z.to_nat CLUSTER_BYTES)%nat by (layout; lia).
    rewrite <- drop_drop. replace (Z.to_nat (_ - _)) with (Z.to_nat CLUSTER_BYTES) by (layout; lia).
    apply take_drop.
Qed.

Lemma clusters_needed_bounds data :
  0 < zlen data ->
  (clusters_needed data - 1) * CLUSTER_BYTES < zlen data <= clusters_needed data * CLUSTER_BYTES.
Proof. intros. unfold clusters_needed. layout. dlia. Qed.

Lemma concat_padded data :
  0 < zlen data ->
  take (Z.to_nat (zlen data)) (concat (padded data <$> seqZ 0 (clusters_needed data))) = data.
Proof.
  intros Hpos. pose proof (clusters_needed_bounds data Hpos) as Hb.
  assert (0 < clusters_needed data) as Hn by (layout; lia).
  pose proof (concat_padded_from data (Z.to_nat (clusters_needed data)) 0) as Hc.
  rewrite Z2Nat.id, Z.mul_0_l, Z.sub_0_r in Hc by lia. apply Hc; lia.
Qed.

Section ops.
Context {D : Type} `{RD : ReliableDevice D}.
Abbreviation fs := (fs D).
Implicit Types (s : fs) (v : vol) (files : gmap (list Z) (list Z)) (tbl : gmap Z (list Z)).

(** * Space *)

Lemma free_count_clear v cs first :
  chain (vfat v) first cs -> NoDup cs -> free_count (clear_fat cs v) = (length cs + free_count v)%nat.
Proof.
  intros Hch Hnd.
  assert (forall c, c ∈ cs -> in_data c /\ vfat v c <> 0) as Hin.
  { intros c Hc. split; [by apply (chain_in_data _ _ _ _ Hch)|by apply (chain_used _ _ _ _ Hch)]. }
  clear Hch. revert v Hin. induction Hnd as [|c cs Hc Hnd IH]; intros v Hin.
  - apply count_ext. done.
  - destruct (Hin c (list_elem_of_here _ _)) as [Hd Hu].
    transitivity (free_count (clear_fat cs (set_fat c FAT_ENTRY_FREE v))).
    { apply count_ext. intros x _. unfold is_free. by rewrite clear_fat_cons. }
    rewrite IH.
    + unfold free_count. simpl. rewrite (count_flip (is_free (set_fat c FAT_ENTRY_FREE v)) (is_free v) data_clusters c);
        [lia|apply NoDup_data_clusters|by apply elem_of_data_clusters|..].
      * unfold is_free, set_fat. simpl. by rewrite fn_lookup_insert.
      * unfold is_free. layout. by destruct (Z.eqb_spec (vfat v c) 0).
      * intros x Hx. unfold is_free, set_fat. simpl. by rewrite fn_lookup_insert_ne.
    + intros x Hx. assert (x <> c) as Hxc by (by intros ->).
      split; [apply Hin; by right|]. unfold set_fat. simpl. rewrite fn_lookup_insert_ne by done.
      apply Hin. by right.
Qed.

Lemma free_count_put i e v : free_count (put_entry i e v) = free_count v.
Proof. apply count_ext. intros c _. unfold is_free, put_entry. by destruct (in_use e =? 0). Qed.

(** The clusters a used slot gives back cover its contents. *)
Lemma slot_clusters v files i cs :
  slot_ok v files i cs -> 0 <= size (vdir v i) ->
  clusters_needed (contents v (vdir v i) cs) <= zlen cs.
Proof.
  intros [_ _ _ _ Hs _ _] H0. unfold clusters_needed, contents.
  assert (zlen (take (Z.to_nat (size (vdir v i))) (concat (vdata v <$> cs))) <= size (vdir v i)) as Ht
    by (unfold zlen; rewrite length_take; lia).
  layout. apply Z.lt_succ_r, Z.div_lt_upper_bound; lia.
Qed.

(** The directory has a free slot as long as it holds fewer than 256 files. *)
Lemma free_slot_of_room v files tbl :
  Volume v files tbl -> is_Some (free_slot_of v) <-> Z.of_nat (base.size files) < ROOT_DIR_ENTRIES.
Proof.
  intros Hv.
  set (nm := fun i => entry_name (vdir v i)).
  assert (forall i, in_dir i -> tbl !! i <> None -> nm i ∈ dom files) as Hdom.
  { intros i Hi Hs. destruct (tbl !! i) as [cs|] eqn:E; [|done].
    apply elem_of_dom. eexists. apply (vol_slot _ _ _ Hv i cs E). }
  rewrite <- size_dom. split.
  - intros [i Hi]. destruct (free_slot_of_Some _ _ _ _ Hv Hi) as [Hin Hnone].
    assert (base.size (dom files) <= length (filter (fun k => k <> i) dir_indexes))%nat as Hle.
    { rewrite <- (length_fmap nm). apply submseteq_length.
      change (base.size (dom files)) with (length (elements (dom files))). apply NoDup_submseteq; [apply NoDup_elements|].
      intros x Hx. apply elem_of_elements, elem_of_dom in Hx as [d Hd].
      destruct (vol_files _ _ _ Hv x d Hd) as (k & cs & Hk & Hkn).
      apply list_elem_of_fmap. exists k. split; [done|]. apply list_elem_of_filter. split; [congruence|].
      apply elem_of_dir_indexes. apply (vol_slot _ _ _ Hv k cs Hk). }
    assert (length (filter (fun k => k <> i) dir_indexes) < length dir_indexes)%nat as Hlt.
    { apply length_filter_lt with i; [by apply elem_of_dir_indexes|]. by intros []. }
    unfold dir_indexes in Hlt at 2. rewrite length_seqZ in Hlt. layout. lia.
  - intros Hlt. destruct (free_slot_of v) as [i|] eqn:E; [by eexists|].
    pose proof (proj1 (first_such_None _ _) E) as Hall.
    assert (forall i, i ∈ dir_indexes -> in_dir i /\ exists cs, tbl !! i = Some cs) as Hused.
    { intros i Hi. pose proof (Hall i Hi) as Hu. cbn beta in Hu. apply elem_of_dir_indexes in Hi. split; [done|].
      destruct (tbl !! i) as [cs|] eqn:Et; [by exists cs|].
      rewrite (vol_free _ _ _ Hv i Hi Et) in Hu. done. }
    assert (length dir_indexes <= base.size (dom files))%nat as Hle.
    { rewrite <- (length_fmap nm). change (base.size (dom files)) with (length (elements (dom files))). apply submseteq_length.
      apply NoDup_submseteq.
      - apply NoDup_fmap_2_strong; [|apply NoDup_seqZ]. intros i k Hi Hk Hik.
        destruct (Hused i Hi) as [_ [cs Hcs]], (Hused k Hk) as [_ [cs' Hcs']].
        by apply (vol_inj _ _ _ Hv i k cs cs').
      - intros x [i [-> Hi]]%list_elem_of_fmap. apply elem_of_elements.
        destruct (Hused i Hi) as [Hd [cs Hcs]]. apply Hdom; [done|congruence]. }
    unfold dir_indexes in Hle. rewrite length_seqZ in Hle. layout. lia.
Qed.

(** * Removing a file *)

(** Freeing a used slot, as [create_file_unlocked] and
    [delete_file_unlocked] do it. *)
Lemma remove_slot_spec s v files tbl i cs :
  Rep s v -> Volume v files tbl -> tbl !! i = Some cs ->
  exists s', (run! (if 2 <=? first_cluster (vdir v i)
                    then free_cluster_chain_unlocked (first_cluster (vdir v i)) else kret tt) in
              write_dir_entry_unlocked i empty_entry) s = (s', Ok tt) /\
    Rep s' (put_entry i empty_entry (clear_fat cs v)).
Proof.
  intros Hr Hv Hi. destruct (vol_slot _ _ _ Hv i cs Hi) as [Hd _ Hch Hnd _ _ _].
  assert (exists s1, (if 2 <=? first_cluster (vdir v i)
      then free_cluster_chain_unlocked (first_cluster (vdir v i)) else kret tt) s = (s1, Ok tt) /\
    Rep s1 (clear_fat cs v)) as (s1 & H1 & Hr1).
  { destruct (Z.leb_spec 2 (first_cluster (vdir v i))).
    - by apply free_chain_spec.
    - exists s. split; [done|]. destruct cs as [|c cs].
      + by apply (Rep_fat_ext s v (vfat (clear_fat [] v))).
      + pose proof (chain_in_data _ _ _ c Hch ltac:(left)) as Hc. destruct Hch as [Hfc _].
        unfold in_data in Hc. lia. }
  rewrite (kbind_Ok _ _ _ _ _ H1). apply write_dir_spec; [done..|apply empty_entry_ok].
Qed.

(** The effect of that on the map of files. *)
Lemma remove_slot_volume v files tbl i cs :
  Volume v files tbl -> tbl !! i = Some cs ->
  exists d, files !! entry_name (vdir v i) = Some d /\
    let v' := put_entry i empty_entry (clear_fat cs v) in
    Volume v' (delete (entry_name (vdir v i)) files) (delete i tbl) /\
    Z.of_nat (free_count v) + clusters_needed d <= Z.of_nat (free_count v').
Proof.
  intros Hv Hi. pose proof (vol_slot _ _ _ Hv i cs Hi) as Hs.
  eexists. split; [apply Hs|]. split; [by apply Volume_remove|].
  rewrite free_count_put, (free_count_clear _ _ (first_cluster (vdir v i))) by apply Hs.
  pose proof (slot_clusters _ _ _ _ Hs) as Hle. unfold zlen in Hle.
  pose proof (ok_size _ (vol_entry _ _ _ Hv i (so_dir _ _ _ _ Hs))). lia.
Qed.

(** Deleting the old version of a file, if there is one. *)
Definition remove_old (nm : list Z) : M fs unit :=
  let! old := find_file_unlocked nm in
  match old with
  | Some (idx, old_entry) =>
      run! (if 2 <=? first_cluster old_entry
            then free_cluster_chain_unlocked (first_cluster old_entry) else kret tt) in
      write_dir_entry_unlocked idx empty_entry
  | None => kret tt
  end.

Lemma remove_old_spec s v files tbl nm :
  Rep s v -> Volume v files tbl -> good_name nm ->
  exists s1 v1 tbl1, remove_old nm s = (s1, Ok tt) /\ Rep s1 v1 /\ Volume v1 (delete nm files) tbl1 /\
    (files !! nm = None -> s1 = s /\ free_count v1 = free_count v) /\
    Z.of_nat (free_count v) + default 0 (clusters_needed <$> files !! nm) <= Z.of_nat (free_count v1).
Proof.
  intros Hr Hv Hg. unfold remove_old.
  rewrite (kbind_Ok _ _ _ _ _ (find_spec s v nm Hr (good_name_bad nm Hg))).
  destruct (slot_of v nm) as [i|] eqn:E; cbn.
  - destruct (slot_of_Some _ _ _ _ _ Hv E) as (cs & Hi & Hn).
    destruct (remove_slot_spec s v files tbl i cs Hr Hv Hi) as (s1 & Hrun & Hr1).
    destruct (remove_slot_volume v files tbl i cs Hv Hi) as (d & Hd & Hv1 & Hcnt).
    rewrite Hn in *. exists s1, (put_entry i empty_entry (clear_fat cs v)), (delete i tbl).
    rewrite Hd. by split_and!.
  - pose proof (slot_of_None _ _ _ _ Hv E) as Hnone.
    exists s, v, tbl. rewrite delete_id, Hnone by done. simpl. split_and!; try done. lia.
Qed.

(** The allocation part of [create_file_unlocked], with its two outcomes. *)
Definition create_data (data : list Z) : M fs Z :=
  if zlen data =? 0 then kret 0 else create_loop data (seqZ 0 (clusters_needed data)) None 0.

Lemma create_data_ok s v data :
  Rep s v -> bytes_ok data -> clusters_needed data <= Z.of_nat (free_count v) ->
  exists s' v' cs fc, create_data data s = (s', Ok fc) /\ Rep s' v' /\ written v v' None cs /\
    chain (vfat v') fc cs /\ zlen data <= CLUSTER_BYTES * zlen cs /\
    take (Z.to_nat (zlen data)) (concat (vdata v' <$> cs)) = data /\
    Z.of_nat (free_count v) = clusters_needed data + Z.of_nat (free_count v').
Proof.
  intros Hr Hd Hfree. unfold create_data. destruct (Z.eqb_spec (zlen data) 0) as [H0|Hne].
  - exists s, v, [], 0. split; [done|]. split; [done|]. split; [apply written_nil|].
    split; [done|]. split; [unfold zlen in *; simpl; lia|]. rewrite H0. destruct data; [done|].
    unfold zlen in H0. simpl in H0. lia.
  - pose proof (zlen_nonneg data) as Hnn. assert (0 < zlen data) as Hpos by lia.
    pose proof (clusters_needed_bounds data Hpos) as Hb.
    assert (0 < clusters_needed data) as Hn by (layout; lia).
    rewrite <- (Z2Nat.id (clusters_needed data)) by lia.
    destruct (create_loop_ok data (Z.to_nat (clusters_needed data)) s v 0 None 0)
      as (s' & v' & cs & Hrun & Hr' & Hlen & Hw & Hl & Hdat & Hcnt); try done; try (layout; lia).
    destruct cs as [|c cs]; [simpl in Hlen; lia|].
    exists s', v', (c :: cs), c. split; [done|]. split; [done|]. split; [done|].
    split; [by split|]. split; [unfold zlen at 2; rewrite Hlen; layout; lia|].
    rewrite Hdat, Z2Nat.id by lia. split; [by apply concat_padded|]. lia.
Qed.

Lemma create_data_full s v data :
  Rep s v -> bytes_ok data -> Z.of_nat (free_count v) < clusters_needed data ->
  exists s' v', create_data data s = (s', Err NoSpace) /\ Rep s' v' /\ vdir v' = vdir v /\
    free_count v' = 0%nat /\
    (forall c, vfat v c <> 0 -> vfat v' c = vfat v c /\ vdata v' c = vdata v c).
Proof.
  intros Hr Hd Hfree. unfold create_data. destruct (Z.eqb_spec (zlen data) 0) as [H0|Hne].
  - unfold clusters_needed in Hfree. rewrite H0 in Hfree. layout. change ((0 + 4096 - 1) / 4096) with 0 in Hfree. lia.
  - pose proof (zlen_nonneg data) as Hnn. assert (0 < zlen data) as Hpos by lia.
    pose proof (clusters_needed_bounds data Hpos) as Hb.
    assert (0 < clusters_needed data) as Hn by (layout; lia).
    rewrite <- (Z2Nat.id (clusters_needed data)) by lia.
    destruct (create_loop_full data (Z.to_nat (clusters_needed data)) s v 0 None 0)
      as (s' & v' & Hrun & Hr' & Hdir & _ & Hz & Hkeep); try done; try (layout; lia).
    exists s', v'. split; [done|]. split; [done|]. split; [done|]. split; [done|].
    intros c Hc. by apply Hkeep.
Qed.

(** * The operations on the map of files *)

Lemma read_file_spec s files n nm :
  FS s files n -> good_name nm ->
  read_file_unlocked nm s =
    (s, match files !! nm with Some d => Ok d | None => Err FileNotFound end).
Proof.
  intros (v & tbl & Hr & Hv & _) Hg. unfold read_file_unlocked.
  rewrite (kbind_Ok _ _ _ _ _ (find_spec s v nm Hr (good_name_bad nm Hg))).
  destruct (slot_of v nm) as [i|] eqn:E; cbn.
  2: { by rewrite (slot_of_None _ _ _ _ Hv E). }
  destruct (slot_of_Some _ _ _ _ _ Hv E) as (cs & Hi & <-).
  pose proof (vol_slot _ _ _ Hv i cs Hi) as [Hd Hu Hch Hnd Hs Hn Hf]. rewrite Hf.
  pose proof (ok_size _ (vol_entry _ _ _ Hv i Hd)) as Hsz. unfold kbind, kret. unfold contents.
  destruct (Z.eqb_spec (size (vdir v i)) 0) as [->|Hne]; [done|].
  rewrite (read_loop_spec _ s v _ _ _ _ cs); try done.
  - rewrite Z.sub_0_r. unfold slice. change (Z.to_nat (0 - 0)) with 0%nat. by rewrite take_0.
  - lia.
  - apply zlen_zeros. lia.
  - lia.
  - unfold read_fuel. layout. dlia.
  - unfold read_fuel. layout. dlia.
Qed.

Lemma delete_file_spec s files n nm :
  FS s files n -> good_name nm ->
  match files !! nm with
  | Some d => exists s' m, delete_file_unlocked nm s = (s', Ok tt) /\ FS s' (delete nm files) m /\
                n + clusters_needed d <= m
  | None => delete_file_unlocked nm s = (s, Err FileNotFound)
  end.
Proof.
  intros (v & tbl & Hr & Hv & ->) Hg. unfold delete_file_unlocked.
  rewrite (kbind_Ok _ _ _ _ _ (find_spec s v nm Hr (good_name_bad nm Hg))).
  destruct (slot_of v nm) as [i|] eqn:E; cbn.
  2: { by rewrite (slot_of_None _ _ _ _ Hv E). }
  destruct (slot_of_Some _ _ _ _ _ Hv E) as (cs & Hi & Hn).
  destruct (remove_slot_spec s v files tbl i cs Hr Hv Hi) as (s1 & Hrun & Hr1).
  destruct (remove_slot_volume v files tbl i cs Hv Hi) as (d & Hd & Hv1 & Hcnt).
  rewrite Hn in *. rewrite Hd. exists s1, (Z.of_nat (free_count (put_entry i empty_entry (clear_fat cs v)))).
  split; [done|]. split; [|lia]. by eexists _, _.
Qed.

(** [create_file_unlocked] as the sequence of its phases. *)
Lemma create_file_phases nm data :
  bad_name nm = false ->
  forall s, create_file_unlocked nm data s =
    (run! read_boot_sector_unlocked in
     run! remove_old nm in
     let! found := find_free_dir_slot_unlocked in
     let! slot_idx := ok_or found NoSpace in
     let! first := create_data data in
     write_dir_entry_unlocked slot_idx (new_entry nm first (u32 (zlen data)))) s.
Proof.
  intros Hn s. unfold create_file_unlocked, remove_old. rewrite Hn. apply kbind_ext.
  intros bs s1. by rewrite kbind_assoc.
Qed.

(** A new file in a volume that has a slot and the space for it. *)
Lemma create_add s v files tbl i nm data :
  Rep s v -> Volume v files tbl -> files !! nm = None -> free_slot_of v = Some i -> good_name nm ->
  bytes_ok data -> zlen data < 2 ^ 32 -> clusters_needed data <= Z.of_nat (free_count v) ->
  exists s', (let! first := create_data data in
              write_dir_entry_unlocked i (new_entry nm first (u32 (zlen data)))) s = (s', Ok tt) /\
    FS s' (<[nm := data]> files) (Z.of_nat (free_count v) - clusters_needed data).
Proof.
  intros Hr Hv Hnone Hslot Hg Hd Hsz Hfree. destruct (free_slot_of_Some _ _ _ _ Hv Hslot) as [Hi Htbl].
  destruct (create_data_ok s v data Hr Hd Hfree)
    as (s1 & v1 & cs & fc & Hrun & Hr1 & W & Hch & Hle & Hcat & Hcnt).
  rewrite (kbind_Ok _ _ _ _ _ Hrun). pose proof (zlen_nonneg data) as Hnn.
  unfold u32. rewrite Z.mod_small by lia.
  assert (0 <= fc < 2 ^ 16) as Hfc.
  { destruct cs as [|c cs]; [by simpl in Hch; subst|].
    pose proof (chain_in_data _ _ _ c Hch ltac:(left)) as Hc. destruct Hch as [-> _].
    apply in_data_fat in Hc. unfold in_fat in Hc. lia. }
  destruct (write_dir_spec s1 v1 i (new_entry nm fc (zlen data)) Hr1 Hi) as (s' & Hw & Hr').
  { by apply new_entry_ok. }
  exists s'. split; [done|]. eexists _, (<[i := cs]> tbl). split; [done|]. split.
  - rewrite <- Hcat at 2. apply Volume_add; try done.
    + apply Volume_frame with v; [done|by intros; rewrite (wr_dir _ _ _ _ W)|].
      intros c Ho. assert (c ∉ cs) as Hc.
      { intros Hin. apply (owned_used _ _ _ _ Hv Ho). by apply (wr_fresh _ _ _ _ W). }
      by rewrite (wr_fat _ _ _ _ W), (wr_data _ _ _ _ W).
    + by apply W.
    + intros c Hin Ho. apply (owned_used _ _ _ _ Hv Ho). by apply (wr_fresh _ _ _ _ W).
  - rewrite free_count_put. lia.
Qed.

(** A new file in a volume that has a slot but not the space. *)
Lemma create_full s v files tbl i nm data :
  Rep s v -> Volume v files tbl -> bytes_ok data -> Z.of_nat (free_count v) < clusters_needed data ->
  exists s', (let! first := create_data data in
              write_dir_entry_unlocked i (new_entry nm first (u32 (zlen data)))) s = (s', Err NoSpace) /\
    FS s' files 0.
Proof.
  intros Hr Hv Hd Hfull. destruct (create_data_full s v data Hr Hd Hfull)
    as (s' & v' & Hrun & Hr' & Hdir & Hz & Hkeep).
  exists s'. split; [by apply kbind_Err|]. exists v', tbl. split; [done|].
  split; [|by rewrite Hz]. apply Volume_frame with v; [done|by rewrite Hdir|].
  intros c Ho. apply Hkeep. by apply (owned_used _ _ _ _ Hv).
Qed.

Lemma create_file_spec s files n nm data :
  FS s files n -> good_name nm -> bytes_ok data -> zlen data < 2 ^ 32 ->
  exists s' m, n + default 0 (clusters_needed <$> files !! nm) <= m /\ (files !! nm = None -> m = n) /\
    if decide (Z.of_nat (base.size (delete nm files)) < ROOT_DIR_ENTRIES) then
      if decide (clusters_needed data <= m) then
        create_file_unlocked nm data s = (s', Ok tt) /\
        FS s' (<[nm := data]> files) (m - clusters_needed data)
      else create_file_unlocked nm data s = (s', Err NoSpace) /\ FS s' (delete nm files) 0
    else create_file_unlocked nm data s = (s', Err NoSpace) /\ FS s' (delete nm files) m.
Proof.
  intros (v & tbl & Hr & Hv & ->) Hg Hd Hsz. destruct (boot_spec s v Hr) as [bs Hb].
  destruct (remove_old_spec s v files tbl nm Hr Hv Hg) as (s1 & v1 & tbl1 & Hold & Hr1 & Hv1 & Hnew & Hcnt).
  pose proof (create_file_phases nm data (good_name_bad nm Hg) s) as Hrun.
  rewrite (kbind_Ok _ _ _ _ _ Hb), (kbind_Ok _ _ _ _ _ Hold) in Hrun.
  rewrite (kbind_Ok _ _ _ _ _ (free_slot_spec s1 v1 Hr1)) in Hrun.
  pose proof (free_slot_of_room v1 _ tbl1 Hv1) as Hroom.
  assert (files !! nm = None -> Z.of_nat (free_count v1) = Z.of_nat (free_count v)) as Hsame
    by (intros Hn; by rewrite (proj2 (Hnew Hn))).
  destruct (free_slot_of v1) as [i|] eqn:E.
  - rewrite (kbind_Ok _ _ s1 s1 i eq_refl) in Hrun.
    destruct (decide (clusters_needed data <= Z.of_nat (free_count v1))) as [Hfit|Hfit].
    + destruct (create_add s1 v1 (delete nm files) tbl1 i nm data) as (s' & Hc & HF); try done;
        [apply lookup_delete_eq|].
      exists s', (Z.of_nat (free_count v1)). split; [done|]. split; [done|].
      rewrite decide_True by (apply Hroom; by eexists). rewrite decide_True by done.
      rewrite Hrun. split; [done|]. by rewrite insert_delete_eq in HF.
    + destruct (create_full s1 v1 (delete nm files) tbl1 i nm data) as (s' & Hc & HF); try done; [lia|].
      exists s', (Z.of_nat (free_count v1)). split; [done|]. split; [done|].
      rewrite decide_True by (apply Hroom; by eexists). rewrite decide_False by done.
      by rewrite Hrun.
  - exists s1, (Z.of_nat (free_count v1)). split; [done|]. split; [done|].
    rewrite decide_False by (intros Hlt; apply Hroom in Hlt as [? ?]; done).
    rewrite Hrun. split; [done|]. by exists v1, tbl1.
Qed.
End ops.
