(* ===== verification/FatFormat.v ===== *)
(** [format_unlocked] turns any working device into an empty volume. *)

From S2P Require Import Prelude BlockDev Fat FatRep FatChain FatFile FatSpec.
Open Scope kmonad_scope.

(** A zero sector as FAT entries and as directory entries. *)
Lemma slice_zeros lo hi n : 0 <= lo <= hi -> hi <= n -> slice lo hi (zeros n) = zeros (hi - lo).
Proof.
  intros. unfold slice, zeros. rewrite drop_replicate, take_replicate. f_equal. lia.
Qed.

Lemma entry_of_zeros : entry_of_bytes (zeros 32) = empty_entry.
Proof. reflexivity. Qed.

Section format.
Context {D : Type} `{RD : ReliableDevice D}.
Abbreviation fs := (fs D).
Implicit Types (s : fs) (v : vol).

(** The volume a device with a boot sector represents, whatever it holds. *)
Definition vol_of s : vol := mk_vol (fat_of (dev s)) (dir_of (dev s)) (data_of (dev s)) (gens s).

Lemma Rep_vol_of s :
  dev_ok (dev s) -> magic (boot_of_bytes (block (dev s) 0)) = FAT_MAGIC -> length (gens s) = 256%nat ->
  Rep s (vol_of s).
Proof. intros. by split. Qed.

Lemma zero_blocks_spec base n s :
  dev_ok (dev s) -> 0 <= base -> base + Z.of_nat n <= TOTAL_SECTORS ->
  exists d, each (fun i => write_block_unlocked (base + i) (zeros BLOCK_SIZE)) (seqZ 0 (Z.of_nat n)) s
      = (mk_fs d (gens s), Ok tt) /\ dev_ok d /\
    forall i, block d i = if (base <=? i) && (i <? base + Z.of_nat n) then zeros BLOCK_SIZE
                          else block (dev s) i.
Proof.
  intros Hd Hb Hn.
  assert (forall k, 0 <= k -> k + Z.of_nat n <= TOTAL_SECTORS - base -> forall s, dev_ok (dev s) ->
    exists d, each (fun i => write_block_unlocked (base + i) (zeros BLOCK_SIZE)) (seqZ k (Z.of_nat n)) s
        = (mk_fs d (gens s), Ok tt) /\ dev_ok d /\
      forall i, block d i = if (base + k <=? i) && (i <? base + k + Z.of_nat n) then zeros BLOCK_SIZE
                            else block (dev s) i) as Hgen.
  2: { destruct (Hgen 0 ltac:(lia) ltac:(lia) s Hd) as (d & He & Hok & Hblk). exists d.
       split; [done|]. split; [done|]. intros i. rewrite Hblk. by rewrite Z.add_0_r. }
  clear s Hd Hn. induction n as [|n IH]; intros k Hk Hle s Hd.
  - exists (dev s). split; [by destruct s|]. split; [done|]. intros i. zcase; simpl; try lia; done.
  - rewrite Nat2Z.inj_succ, seqZ_cons, Z.pred_succ by lia. cbn [each].
    destruct (write_block_spec s (base + k) (zeros BLOCK_SIZE)) as (d1 & Hw & Hok1 & Hb1);
      [done|lia|by apply zlen_zeros|apply zeros_ok|].
    rewrite (kbind_Ok _ _ _ _ _ Hw).
    destruct (IH (Z.succ k) ltac:(lia) ltac:(lia) (mk_fs d1 (gens s)) Hok1) as (d & He & Hok & Hblk).
    exists d. split; [done|]. split; [done|]. intros i. rewrite Hblk. simpl dev. rewrite Hb1.
    zcase; simpl; try lia; done.
Qed.

(** Formatting retires every slot: all handles of the old volume go stale. *)
Lemma retire_all_spec l s v :
  Rep s v -> (forall i, i ∈ l -> in_dir i) ->
  exists s' g, each retire_slot_unlocked l s = (s', Ok tt) /\ dev s' = dev s /\
    Rep s' (mk_vol (vfat v) (vdir v) (vdata v) g).
Proof.
  revert s v. induction l as [|i l IH]; intros s v Hr Hin.
  - exists s, (vgens v). split; [done|]. split; [done|]. by destruct v.
  - cbn [each]. destruct (Rep_retire s v i Hr) as (s1 & H1 & Hr1); [apply Hin; left|].
    rewrite (kbind_Ok _ _ _ _ _ H1).
    destruct (IH s1 (retire i v) Hr1) as (s' & g & He & Hd & Hr'); [intros j Hj; apply Hin; by right|].
    exists s', g. split; [done|]. split; [|done]. rewrite Hd. clear -H1.
    unfold retire_slot_unlocked in H1. by destruct (gens s !! Z.to_nat i); simplify_eq.
Qed.

Lemma boot_write_spec s :
  dev_ok (dev s) ->
  exists d, write_boot_sector_unlocked format_boot s = (mk_fs d (gens s), Ok tt) /\ dev_ok d /\
    magic (boot_of_bytes (block d 0)) = FAT_MAGIC.
Proof.
  intros Hd. pose proof dev_size as Hsz. unfold write_boot_sector_unlocked.
  rewrite (kbind_Ok _ _ s s true) by (unfold gets; by rewrite dev_ok_ready).
  cbn iota beta delta [negb].
  destruct (boot_roundtrip format_boot) as [Hrt Hlen]; try done.
  { unfold TOTAL_CLUSTERS, u32. repeat constructor; try done; cbn [total_clusters format_boot];
      unfold TOTAL_CLUSTERS, u32; apply Z.mod_pos_bound; lia. }
  destruct (write_block_spec s BOOT_SECTOR_LBA (boot_to_bytes format_boot)) as (d & Hw & Hok & Hblk);
    [done|layout; lia|done| |].
  { unfold boot_to_bytes, bytes_ok. rewrite !Forall_app. repeat split; try apply le_bytes_ok. apply zeros_ok. }
  exists d. split; [done|]. split; [done|]. rewrite Hblk. change (0 =? BOOT_SECTOR_LBA) with true.
  cbn iota. by rewrite Hrt.
Qed.

Lemma fat_of_zero d c :
  in_fat c -> (forall i, 1 <= i < 65 -> block d i = zeros BLOCK_SIZE) -> fat_of d c = 0.
Proof.
  intros Hc Hz. unfold fat_of. rewrite Hz by (layout; dlia). rewrite slice_zeros by (layout; dlia).
  by replace (c mod 256 * 2 + 2 - c mod 256 * 2) with 2 by lia.
Qed.

Lemma dir_of_zero d i :
  in_dir i -> (forall k, 65 <= k < 81 -> block d k = zeros BLOCK_SIZE) -> dir_of d i = empty_entry.
Proof.
  intros Hc Hz. unfold dir_of. rewrite Hz by (layout; dlia). rewrite slice_zeros by (layout; dlia).
  replace (i mod 16 * 32 + 32 - i mod 16 * 32) with 32 by lia. apply entry_of_zeros.
Qed.

(** Clearing the directory sectors leaves the FAT and the clusters alone. *)
Lemma clear_dir_spec s v :
  Rep s v ->
  exists s', each (fun i => write_block_unlocked (ROOT_DIR_START_LBA + i) (zeros BLOCK_SIZE))
      (seqZ 0 ROOT_DIR_SECTORS) s = (s', Ok tt) /\
    Rep s' (mk_vol (vfat v) (fun _ => empty_entry) (vdata v) (vgens v)).
Proof.
  intros [Hd Hb Hf Hdir Hdata Hg Hgl]. pose proof dev_size as Hsz.
  destruct (zero_blocks_spec ROOT_DIR_START_LBA 16 s) as (d & He & Hok & Hblk); [done|layout; lia..|].
  change (Z.of_nat 16) with 16 in *. change ROOT_DIR_START_LBA with 65 in *.
  assert (forall i, ~ 65 <= i < 81 -> block d i = block (dev s) i) as Hout.
  { intros i Hi. rewrite Hblk. zcase; simpl; try lia; done. }
  exists (mk_fs d (gens s)). split; [exact He|]. split; simpl; try done.
  - by rewrite Hout by lia.
  - intros c Hc. rewrite <- Hf by done. unfold fat_of. rewrite Hout; [done|]. layout. dlia.
  - intros i Hi. apply dir_of_zero; [done|]. intros k Hk. rewrite Hblk. zcase; simpl; try lia; done.
  - intros c Hc. rewrite <- Hdata by done. unfold data_of. apply sectors_ext. intros i Hi.
    destruct (cluster_sectors c Hc). apply Hout. lia.
Qed.

(** A volume without files. *)
Lemma Volume_empty v : (forall i, vdir v i = empty_entry) -> Volume v ∅ ∅.
Proof.
  intros Hv. split; try by intros *; rewrite lookup_empty.
  - intros i _. rewrite Hv. apply empty_entry_ok.
  - intros i _ _. by rewrite Hv.
Qed.

(** [format_unlocked] behind the write of the boot sector. *)
Definition format_rest : M fs unit :=
  run! each (fun i => write_block_unlocked (FAT_START_LBA + i) (zeros BLOCK_SIZE)) (seqZ 0 FAT_SECTORS) in
  run! write_fat_entry_unlocked 0 0xFFF8 in
  run! write_fat_entry_unlocked 1 FAT_ENTRY_EOC in
  run! each retire_slot_unlocked (seqZ 0 ROOT_DIR_ENTRIES) in
  each (fun i => write_block_unlocked (ROOT_DIR_START_LBA + i) (zeros BLOCK_SIZE)) (seqZ 0 ROOT_DIR_SECTORS).

Lemma format_rest_spec s :
  dev_ok (dev s) -> magic (boot_of_bytes (block (dev s) 0)) = FAT_MAGIC -> length (gens s) = 256%nat ->
  exists s', format_rest s = (s', Ok tt) /\ FS s' ∅ (max_cluster - 1).
Proof.
  intros Hok0 Hm0 Hg. pose proof dev_size as Hsz. unfold format_rest.
  destruct (zero_blocks_spec FAT_START_LBA 64 s) as (d1 & H1 & Hok1 & Hb1);
    [done|layout; lia..|]. rewrite (kbind_Ok _ _ _ _ _ H1).
  change (Z.of_nat 64) with 64 in *. unfold FAT_START_LBA in Hb1.
  set (s1 := mk_fs d1 (gens s)). assert (Rep s1 (vol_of s1)) as Hr1.
  { apply Rep_vol_of; try done. simpl. by rewrite Hb1. }
  destruct (write_fat_spec s1 _ 0 0xFFF8 Hr1) as (s2 & H2 & Hr2); [layout; lia|done|].
  rewrite (kbind_Ok _ _ _ _ _ H2).
  destruct (write_fat_spec s2 _ 1 FAT_ENTRY_EOC Hr2) as (s3 & H3 & Hr3); [layout; lia|done|].
  rewrite (kbind_Ok _ _ _ _ _ H3).
  destruct (retire_all_spec (seqZ 0 ROOT_DIR_ENTRIES) s3 _ Hr3) as (s4 & g & H4 & _ & Hr4).
  { intros i Hi. by apply elem_of_dir_indexes. }
  rewrite (kbind_Ok _ _ _ _ _ H4).
  destruct (clear_dir_spec s4 _ Hr4) as (s5 & H5 & Hr5). exists s5. split; [exact H5|].
  eexists _, ∅. split; [exact Hr5|]. split; [by apply Volume_empty|].
  unfold free_count. rewrite count_all.
  - unfold data_clusters. rewrite length_seqZ. destruct max_cluster_range. lia.
  - intros c Hc%elem_of_data_clusters. pose proof (in_data_fat c Hc) as Hcf. unfold is_free. simpl.
    unfold in_data in Hc. rewrite !fn_lookup_insert_ne by lia.
    unfold s1. rewrite fat_of_zero; [done|done|]. intros i Hi. simpl. rewrite Hb1.
    zcase; simpl; try lia; done.
Qed.

Lemma format_spec s :
  dev_ok (dev s) -> length (gens s) = 256%nat ->
  exists s', format_unlocked s = (s', Ok tt) /\ FS s' ∅ (max_cluster - 1).
Proof.
  intros Hd Hg. unfold format_unlocked.
  rewrite (kbind_Ok _ _ s s true) by (unfold gets; by rewrite dev_ok_ready). cbn iota beta zeta delta [negb].
  destruct (boot_write_spec s Hd) as (d0 & H0 & Hok0 & Hm0). rewrite (kbind_Ok _ _ _ _ _ H0).
  by apply format_rest_spec.
Qed.
End format.
