(* ===== verification/FatBoot.v ===== *)
(** [create_file_unlocked] leaves the boot sector as it is: every write it makes
    goes to the FAT, to the directory or to a data cluster.  So does
    [format_unlocked] once it has written it. *)

From S2P Require Import Prelude BlockDev Fat FatRep FatChain FatFile FatSpec FatOps FatFormat.
Open Scope kmonad_scope.

Section boot.
Context {D : Type} `{RD : ReliableDevice D}.
Abbreviation fs := (fs D).
Implicit Types (s : fs).

(** A success of [m] keeps the boot sector and returns a value with [Q]. *)
Definition boot_kept {A} (m : M fs A) (Q : A -> Prop) : Prop :=
  forall s s' a, dev_ok (dev s) -> m s = (s', Ok a) ->
    dev_ok (dev s') /\ block (dev s') 0 = block (dev s) 0 /\ Q a.

Definition u16_ok (z : Z) : Prop := 0 <= z < 2 ^ 16.
Definition any {A} (_ : A) : Prop := True.

Lemma kept_bind {A B} (m : M fs A) (k : A -> M fs B) P Q :
  boot_kept m P -> (forall a, P a -> boot_kept (k a) Q) -> boot_kept (kbind m k) Q.
Proof.
  intros Hm Hk s s' b Hd (a & s1 & E1 & E2)%kbind_inv_Ok.
  destruct (Hm s s1 a Hd E1) as (Hd1 & Hb1 & Ha). destruct (Hk a Ha s1 s' b Hd1 E2) as (? & Hb2 & ?).
  by rewrite Hb2.
Qed.

Lemma kept_ret {A} (a : A) (Q : A -> Prop) : Q a -> boot_kept (kret a) Q.
Proof. by intros Hq s s' b Hd [= <- <-]. Qed.

Lemma kept_fail {A} e (Q : A -> Prop) : boot_kept (kfail e) Q.
Proof. by intros s s' b Hd. Qed.

Lemma kept_read lba :
  0 <= lba < TOTAL_SECTORS ->
  boot_kept (read_block_unlocked lba) (fun b => zlen b = BLOCK_SIZE /\ bytes_ok b).
Proof.
  intros Hl s s' b Hd. rewrite read_block_spec by done. intros [= <- <-].
  split_and!; [done..|by apply block_len|by apply block_bytes].
Qed.

Lemma kept_write lba buf :
  0 < lba < TOTAL_SECTORS -> zlen buf = BLOCK_SIZE -> bytes_ok buf ->
  boot_kept (write_block_unlocked lba buf) any.
Proof.
  intros Hl Hz Hb s s' [] Hd.
  destruct (write_block_spec s lba buf) as (d & -> & Hok & Hblk); [done|lia|done..|].
  intros [= <-]. split; [done|]. split; [|done]. simpl. rewrite Hblk. by destruct (Z.eqb_spec 0 lba); [lia|].
Qed.

(** ** The FAT *)

Lemma kept_read_fat c : 0 <= c -> boot_kept (read_fat_entry_unlocked c) u16_ok.
Proof.
  intros Hc. pose proof dev_size as Hsz. unfold read_fat_entry_unlocked. cbv zeta. layout.
  destruct (Z.leb_spec 64 (c / 256)); [apply kept_fail|].
  eapply kept_bind; [apply kept_read; dlia|]. intros b [Hl Hb]. apply kept_ret. layout.
  rewrite <- slice2 by dlia. pose proof (le_val_bound (slice (c mod 256 * 2) (c mod 256 * 2 + 2) b)) as Hv.
  assert (zlen (slice (c mod 256 * 2) (c mod 256 * 2 + 2) b) = 2) as H2 by (rewrite zlen_slice; dlia).
  unfold u16_ok. rewrite H2 in Hv. apply Hv. by apply slice_ok.
Qed.

Lemma kept_write_fat c x : 0 <= c -> boot_kept (write_fat_entry_unlocked c x) any.
Proof.
  intros Hc. pose proof dev_size as Hsz. unfold write_fat_entry_unlocked. cbv zeta. layout.
  destruct (Z.leb_spec 64 (c / 256)); [apply kept_fail|].
  eapply kept_bind; [apply kept_read; dlia|]. intros b [Hl Hb]. apply kept_write; [dlia| |].
  - rewrite zlen_splice; [done|dlia|]. rewrite Hl. unfold zlen. rewrite length_le_bytes. layout. dlia.
  - apply splice_ok; [apply le_bytes_ok|done].
Qed.

Lemma kept_alloc : boot_kept alloc_cluster_unlocked in_data.
Proof.
  unfold alloc_cluster_unlocked.
  assert (forall c, c ∈ seqZ 2 (max_cluster - 1) -> in_data c) as Hin.
  { intros c Hc%elem_of_seqZ. unfold in_data. lia. }
  revert Hin. induction (seqZ 2 (max_cluster - 1)) as [|c l IH]; intros Hin; [apply kept_fail|].
  assert (in_data c) as Hc by (apply Hin; left). assert (0 <= c) by (unfold in_data in Hc; lia).
  cbn [alloc_scan]. eapply kept_bind; [by apply kept_read_fat|]. intros e _.
  destruct (e =? FAT_ENTRY_FREE); [|apply IH; intros x Hx; apply Hin; by right].
  eapply kept_bind; [by apply kept_write_fat|]. intros ? _. by apply kept_ret.
Qed.

Lemma kept_free c : 0 <= c -> boot_kept (free_cluster_chain_unlocked c) any.
Proof.
  unfold free_cluster_chain_unlocked. generalize free_fuel. intros fuel. revert c.
  induction fuel as [|fuel IH]; intros c Hc; [by intros s s' a|]. cbn [free_loop].
  destruct ((c <? 2) || (FAT_ENTRY_RESERVED <=? c)); [by apply kept_ret|].
  eapply kept_bind; [by apply kept_read_fat|]. intros next Hn.
  eapply kept_bind; [by apply kept_write_fat|]. intros ? _.
  destruct (FAT_ENTRY_RESERVED <=? next); [by apply kept_ret|]. apply IH, Hn.
Qed.

(** ** The directory *)

Lemma kept_read_dir i :
  0 <= i -> boot_kept (read_dir_entry_unlocked i) (fun e => 0 <= first_cluster e).
Proof.
  intros Hi. pose proof dev_size as Hsz. unfold read_dir_entry_unlocked. cbv zeta. layout.
  destruct (Z.leb_spec 256 i); [apply kept_fail|].
  eapply kept_bind; [apply kept_read; dlia|]. intros b [Hl Hb]. apply kept_ret.
  apply le_val_bound. by apply slice_ok, slice_ok.
Qed.

Lemma kept_write_dir i e :
  0 <= i -> entry_ok e -> boot_kept (write_dir_entry_unlocked i e) any.
Proof.
  intros Hi He. pose proof dev_size as Hsz. unfold write_dir_entry_unlocked. cbv zeta.
  pose proof (zlen_entry_to_bytes e He) as Hz. layout.
  destruct (Z.leb_spec 256 i); [apply kept_fail|]. apply (kept_bind _ _ any).
  { destruct (in_use e =? 0); [|by apply kept_ret]. intros s s' a Hd. unfold retire_slot_unlocked.
    by destruct (gens s !! Z.to_nat i); [intros [= <- <-]|]. }
  intros ? _. eapply kept_bind; [apply kept_read; dlia|]. intros b [Hl Hb]. apply kept_write; [dlia| |].
  - rewrite zlen_splice; [done|dlia|]. rewrite Hl, Hz. layout. dlia.
  - apply splice_ok; [by apply entry_to_bytes_ok|done].
Qed.

(** The directory indexes are not negative. *)
Lemma dir_indexes_pos : Forall (fun i => 0 <= i) dir_indexes.
Proof. apply Forall_forall. intros i Hi%elem_of_dir_indexes. apply Hi. Qed.

Lemma kept_find nm :
  boot_kept (find_file_unlocked nm)
    (fun o => match o with Some (i, e) => 0 <= i /\ 0 <= first_cluster e | None => True end).
Proof.
  unfold find_file_unlocked. destruct (bad_name nm); [apply kept_fail|].
  induction dir_indexes_pos as [|i l Hi _ IH]; [by apply kept_ret|]. cbn [find_scan].
  eapply kept_bind; [by apply kept_read_dir|]. intros e He.
  destruct (_ && _); [by apply kept_ret|]. exact IH.
Qed.

Lemma kept_slot :
  boot_kept find_free_dir_slot_unlocked (fun o => match o with Some i => 0 <= i | None => True end).
Proof.
  unfold find_free_dir_slot_unlocked.
  induction dir_indexes_pos as [|i l Hi _ IH]; [by apply kept_ret|]. cbn [free_slot_scan].
  eapply kept_bind; [by apply kept_read_dir|]. intros e _.
  destruct (in_use e =? 0); [by apply kept_ret|]. exact IH.
Qed.

Lemma kept_remove nm : boot_kept (remove_old nm) any.
Proof.
  unfold remove_old. eapply kept_bind; [apply kept_find|]. intros [[i e]|]; [|by intros; apply kept_ret].
  intros [Hi He]. apply (kept_bind _ _ any).
  { destruct (2 <=? first_cluster e); [by apply kept_free|by apply kept_ret]. }
  intros ? _. apply kept_write_dir; [done|apply empty_entry_ok].
Qed.

(** ** Data *)

Lemma kept_write_data c buf :
  in_data c -> zlen buf = CLUSTER_BYTES -> bytes_ok buf ->
  boot_kept (write_blocks_unlocked (cluster_to_lba c) SECTORS_PER_CLUSTER buf) any.
Proof.
  intros Hc Hz Hb s s' [] Hd. destruct (cluster_sectors c Hc) as [H1 H2].
  unfold write_blocks_unlocked. change (SECTORS_PER_CLUSTER =? 0) with false. cbn iota.
  destruct (dev_write_ok (dev s) (cluster_to_lba c) SECTORS_PER_CLUSTER buf) as (d & -> & Hok & Hblk);
    [done|lia|done..|].
  intros [= <-]. split; [done|]. split; [|done]. simpl. rewrite Hblk. by zcase; simpl; try lia.
Qed.

Lemma kept_create_step data i prev :
  bytes_ok data -> 0 <= i -> i * CLUSTER_BYTES < zlen data ->
  (forall p, prev = Some p -> in_data p) -> boot_kept (create_step data i prev) in_data.
Proof.
  intros Hd Hi Hlt Hp. unfold create_step. eapply kept_bind; [apply kept_alloc|]. intros c Hc.
  apply (kept_bind _ _ any).
  { destruct prev as [p|]; [|by apply kept_ret]. apply kept_write_fat.
    specialize (Hp p eq_refl). unfold in_data in Hp. lia. }
  intros ? _. cbv zeta. fold (padded data i). destruct (padded_shape data i Hd Hi Hlt).
  eapply kept_bind; [by apply kept_write_data|]. intros ? _. by apply kept_ret.
Qed.

Lemma kept_create_loop data l prev first :
  bytes_ok data -> Forall (fun i => 0 <= i /\ i * CLUSTER_BYTES < zlen data) l ->
  (forall p, prev = Some p -> in_data p) -> u16_ok first ->
  boot_kept (create_loop data l prev first) u16_ok.
Proof.
  intros Hd Hl. revert prev first. induction Hl as [|i l [Hi Hlt] _ IH]; intros prev first Hp Hf;
    [by apply kept_ret|].
  cbn [create_loop]. eapply kept_bind; [by apply kept_create_step|]. intros c Hc.
  apply IH; [by intros p [= <-]|]. destruct (i =? 0); [|done].
  pose proof (in_data_fat c Hc). unfold u16_ok. layout. lia.
Qed.

Lemma kept_create_data data : bytes_ok data -> boot_kept (create_data data) u16_ok.
Proof.
  intros Hd. unfold create_data. destruct (Z.eqb_spec (zlen data) 0); [by apply kept_ret|].
  apply kept_create_loop; try done. pose proof (zlen_nonneg data).
  pose proof (clusters_needed_bounds data ltac:(lia)) as Hb.
  apply Forall_forall. intros i Hi%elem_of_seqZ. layout. lia.
Qed.

Lemma kept_create nm data :
  good_name nm -> bytes_ok data -> boot_kept (create_file_unlocked nm data) any.
Proof.
  intros Hg Hd s s' a Hok. rewrite create_file_phases by (by apply good_name_bad).
  intros E. revert s s' a Hok E. apply (kept_bind _ _ any).
  { apply (kept_bind _ _ any); [by intros s s' a Hd' [= <- <-]|]. intros r _.
    destruct (negb r); [apply kept_fail|]. pose proof dev_size.
    eapply kept_bind; [apply kept_read; layout; lia|]. intros b _. cbv zeta.
    destruct (_ =? FAT_MAGIC); [by apply kept_ret|apply kept_fail]. }
  intros ? _. eapply kept_bind; [apply kept_remove|]. intros ? _.
  eapply kept_bind; [apply kept_slot|]. intros found Hfound.
  apply (kept_bind _ _ (fun i => 0 <= i)).
  { destruct found; [by apply kept_ret|apply kept_fail]. }
  intros i Hi. eapply kept_bind; [by apply kept_create_data|]. intros first Hf.
  apply kept_write_dir; [done|]. apply new_entry_ok; [done|exact Hf|].
  unfold u32. apply Z.mod_pos_bound. lia.
Qed.

(** ** Formatting *)

Lemma kept_each (f : Z -> M fs unit) l :
  Forall (fun i => boot_kept (f i) any) l -> boot_kept (each f l) any.
Proof.
  induction 1 as [|i l Hi _ IH]; [by apply kept_ret|]. cbn [each].
  eapply kept_bind; [exact Hi|]. intros ? _. exact IH.
Qed.

Lemma kept_zero_blocks base n :
  0 < base -> base + n <= TOTAL_SECTORS ->
  boot_kept (each (fun i => write_block_unlocked (base + i) (zeros BLOCK_SIZE)) (seqZ 0 n)) any.
Proof.
  intros Hb Hn. apply kept_each, Forall_forall. intros i Hi%elem_of_seqZ.
  apply kept_write; [lia|by apply zlen_zeros|apply zeros_ok].
Qed.

Lemma kept_format_rest : boot_kept format_rest any.
Proof.
  pose proof dev_size as Hsz. unfold format_rest.
  eapply kept_bind; [apply kept_zero_blocks; layout; lia|]. intros ? _.
  eapply kept_bind; [by apply kept_write_fat|]. intros ? _.
  eapply kept_bind; [by apply kept_write_fat|]. intros ? _. apply (kept_bind _ _ any).
  { apply kept_each, Forall_forall. intros i _ s s' [] Hd. unfold retire_slot_unlocked.
    by destruct (gens s !! Z.to_nat i); [intros [= <-]|]. }
  intros ? _. apply kept_zero_blocks; layout; lia.
Qed.
End boot.
