(* ===== verification/FatHandle.v ===== *)
(** Open files: handles, reads and writes at an offset.

    A handle names a directory slot and its generation.  Reads and writes are
    related to the bytes of the file's contents one by one; a write that runs
    out of space keeps what it has written. *)

From S2P Require Import Prelude BlockDev Fat FatRep FatChain FatFile FatSpec FatOps.
Open Scope kmonad_scope.

(** ** The bytes of a chain *)

(** Byte [x] of the clusters [cs], one behind the other. *)
Definition chain_byte (data : Z -> list Z) (cs : list Z) (x : Z) : Z :=
  byte_at (data (nth (Z.to_nat (x / CLUSTER_BYTES)) cs 0)) (x mod CLUSTER_BYTES).

Lemma concat_byte (f : Z -> list Z) cs x :
  (forall c, c ∈ cs -> zlen (f c) = CLUSTER_BYTES) -> 0 <= x < CLUSTER_BYTES * zlen cs ->
  byte_at (concat (f <$> cs)) x = chain_byte f cs x.
Proof.
  unfold chain_byte. revert x. induction cs as [|c cs IH]; intros x Hf Hx; [layout; unfold zlen in Hx; simpl in Hx; lia|].
  change (concat (f <$> c :: cs)) with (f c ++ concat (f <$> cs)). assert (zlen (f c) = CLUSTER_BYTES) as Hc by (apply Hf; left).
  assert (zlen (c :: cs) = zlen cs + 1) as El by (unfold zlen; simpl; lia). layout.
  destruct (Z.lt_ge_cases x 4096) as [Hlt|Hge].
  - rewrite byte_at_app_l by lia. rewrite Z.div_small, Z.mod_small by lia. done.
  - rewrite byte_at_app_r by lia. rewrite Hc, IH by (lia || (intros; apply Hf; by right)).
    assert (x / 4096 = (x - 4096) / 4096 + 1) as Ed by dlia.
    assert (x mod 4096 = (x - 4096) mod 4096) as Em by dlia.
    rewrite Ed, Em. rewrite Z2Nat.inj_add by dlia. rewrite Nat.add_comm. done.
Qed.

Lemma zlen_concat (f : Z -> list Z) cs :
  (forall c, c ∈ cs -> zlen (f c) = CLUSTER_BYTES) -> zlen (concat (f <$> cs)) = CLUSTER_BYTES * zlen cs.
Proof.
  induction cs as [|c cs IH]; intros Hf; [done|].
  change (concat (f <$> c :: cs)) with (f c ++ concat (f <$> cs)). rewrite zlen_app, IH, Hf.
  - unfold zlen. simpl. lia.
  - left.
  - intros. apply Hf. by right.
Qed.

(** ** What a write does to the contents *)

(** [data] at [off] in [d], with zeros in a gap behind the end. *)
Definition overwrite (d : list Z) (off : Z) (data : list Z) : list Z :=
  splice off data (d ++ zeros (off - zlen d)).

Lemma zlen_overwrite d off data :
  0 <= off -> zlen (overwrite d off data) = Z.max (zlen d) (off + zlen data) \/ zlen data = 0.
Proof.
  intros Ho. destruct (decide (zlen data = 0)) as [|Hn]; [by right|left].
  unfold overwrite, splice, zlen, zeros in *.
  rewrite !length_app, length_take, length_drop, length_app, length_replicate. lia.
Qed.

Lemma byte_at_overwrite d off data x :
  0 <= off -> 0 <= x ->
  byte_at (overwrite d off data) x =
    if (off <=? x) && (x <? off + zlen data) then byte_at data (x - off) else byte_at d x.
Proof.
  intros Ho Hx. unfold overwrite. pose proof (zlen_nonneg d) as Hd.
  assert (zlen (zeros (off - zlen d)) = Z.max 0 (off - zlen d)) as Ez.
  { unfold zlen, zeros in *. rewrite length_replicate. lia. }
  rewrite byte_at_splice by (rewrite ?zlen_app; lia). destruct (_ && _); [done|].
  destruct (Z.lt_ge_cases x (zlen d)) as [H1|H1]; [by rewrite byte_at_app_l by lia|].
  rewrite byte_at_app_r, byte_at_zeros by lia. by rewrite byte_at_beyond.
Qed.

(** The bytes of a cluster buffer after [fill_cluster]. *)
Lemma zlen_fill off fin sz cstart data buf :
  0 <= off -> zlen data = fin - off -> 0 <= cstart -> zlen buf = CLUSTER_BYTES ->
  zlen (fill_cluster off fin sz cstart data buf) = CLUSTER_BYTES.
Proof.
  intros Ho Hf Hc Hb. unfold fill_cluster. layout.
  set (b1 := if _ <? _ then _ else buf).
  assert (zlen b1 = 4096) as H1.
  { unfold b1. zcase; [|done]. rewrite zlen_splice; [done|lia|]. rewrite zlen_zeros; lia. }
  zcase; [|done]. rewrite zlen_splice; [done|lia|]. rewrite zlen_slice; lia.
Qed.

Lemma fill_ok off fin sz cstart data buf :
  bytes_ok data -> bytes_ok buf -> bytes_ok (fill_cluster off fin sz cstart data buf).
Proof. intros Hd Hb. unfold fill_cluster. zcase; auto with kaguya. Qed.

Lemma byte_at_fill off fin sz cstart data buf y :
  0 <= off -> zlen data = fin - off -> 0 <= cstart -> zlen buf = CLUSTER_BYTES -> 0 <= y < CLUSTER_BYTES ->
  let x := cstart + y in
  byte_at (fill_cluster off fin sz cstart data buf) y =
    if (off <=? x) && (x <? fin) then byte_at data (x - off)
    else if (sz <=? x) && (x <? off) then 0 else byte_at buf y.
Proof.
  intros Ho Hf Hc Hb Hy x. unfold fill_cluster. layout.
  set (b1 := if _ <? _ then _ else buf).
  assert (zlen b1 = 4096) as H1.
  { unfold b1. zcase; [|done]. rewrite zlen_splice; [done|lia|]. rewrite zlen_zeros; lia. }
  assert (byte_at b1 y = if (sz <=? x) && (x <? off) then 0 else byte_at buf y) as E1.
  { unfold b1. destruct (Z.ltb_spec (Z.max sz cstart) (Z.min off (cstart + 4096))) as [Hg|Hg].
    - rewrite byte_at_splice, zlen_zeros, byte_at_zeros by lia.
      destruct (Z.leb_spec sz x), (Z.ltb_spec x off); simpl; zcase; simpl; lia || done.
    - destruct (Z.leb_spec sz x), (Z.ltb_spec x off); simpl; lia || done. }
  destruct (Z.ltb_spec (Z.max off cstart) (Z.min fin (cstart + 4096))) as [Hd|Hd].
  - rewrite byte_at_splice by lia. rewrite zlen_slice by lia.
    destruct (Z.leb_spec off x), (Z.ltb_spec x fin); simpl;
      (destruct (Z.leb_spec (Z.max off cstart - cstart) y),
        (Z.ltb_spec y (Z.max off cstart - cstart + (Z.min fin (cstart + 4096) - off - (Z.max off cstart - off)))); simpl; try lia; try done).
    rewrite byte_at_slice by lia. f_equal. lia.
  - destruct (Z.leb_spec off x), (Z.ltb_spec x fin); simpl; lia || done.
Qed.

Lemma splice_twice off (a b l : list Z) :
  0 <= off -> off + zlen a + zlen b <= zlen l ->
  splice (off + zlen a) b (splice off a l) = splice off (a ++ b) l.
Proof.
  intros Ho Hl. pose proof (zlen_nonneg a). pose proof (zlen_nonneg b).
  assert (zlen (splice off a l) = zlen l) as E1 by (apply zlen_splice; lia).
  assert (zlen (splice off (a ++ b) l) = zlen l) as E2 by (apply zlen_splice; rewrite ?zlen_app; lia).
  apply bytes_eq; [rewrite zlen_splice; lia|]. intros i Hi. rewrite zlen_splice in Hi by lia.
  rewrite !byte_at_splice, zlen_app by lia.
  destruct (Z.leb_spec (off + zlen a) i), (Z.leb_spec off i), (Z.ltb_spec i (off + zlen a + zlen b)),
    (Z.ltb_spec i (off + (zlen a + zlen b))), (Z.ltb_spec i (off + zlen a)); simpl; try lia; try done.
  - rewrite byte_at_app_r by lia. f_equal. lia.
  - by rewrite byte_at_app_l by lia.
Qed.

Section handle.
Context {D : Type} `{RD : ReliableDevice D}.
Abbreviation fs := (fs D).
Implicit Types (s : fs) (v : vol) (files : gmap (list Z) (list Z)) (tbl : gmap Z (list Z)).

(** The handle [id] is open on the file [nm]. *)
Definition handle s (id : FileId) (nm : list Z) : Prop :=
  in_dir (slot id) /\ gens s !! Z.to_nat (slot id) = Some (generation id) /\
  in_use (dir_of (dev s) (slot id)) = 1 /\ entry_name (dir_of (dev s) (slot id)) = nm.

Lemma handle_vol s v id nm :
  Rep s v ->
  handle s id nm <-> in_dir (slot id) /\ vgens v !! Z.to_nat (slot id) = Some (generation id) /\
                     in_use (vdir v (slot id)) = 1 /\ entry_name (vdir v (slot id)) = nm.
Proof.
  intros Hr. unfold handle. rewrite (rep_gens _ _ Hr).
  split; (intros (Hd & ?); split; [done|]); pose proof (rep_dir _ _ Hr _ Hd) as E; [by rewrite <- E|by rewrite E].
Qed.

(** The slot of an open file. *)
Lemma handle_slot s v files tbl id nm :
  Rep s v -> Volume v files tbl -> handle s id nm ->
  exists cs d, tbl !! slot id = Some cs /\ slot_ok v files (slot id) cs /\ entry_name (vdir v (slot id)) = nm /\
    files !! nm = Some d /\ d = contents v (vdir v (slot id)) cs /\ zlen d = size (vdir v (slot id)) /\
    open_entry_unlocked id s = (s, Ok (vdir v (slot id))).
Proof.
  intros Hr Hv Hh. apply (handle_vol s v id nm Hr) in Hh as (Hd & Hg & Hu & Hn).
  destruct (tbl !! slot id) as [cs|] eqn:E; [|rewrite (vol_free _ _ _ Hv _ Hd E) in Hu; lia].
  pose proof (vol_slot _ _ _ Hv _ _ E) as Hs. exists cs, (contents v (vdir v (slot id)) cs).
  pose proof (ok_size _ (vol_entry _ _ _ Hv _ Hd)) as Hz.
  assert (zlen (concat (vdata v <$> cs)) = CLUSTER_BYTES * zlen cs) as Hc.
  { apply zlen_concat. intros c Hc. apply (data_shape s v c Hr). by apply (chain_in_data _ _ _ _ (so_chain _ _ _ _ Hs)). }
  split_and!; try done.
  - rewrite <- Hn. apply Hs.
  - unfold contents. pose proof (so_size _ _ _ _ Hs). unfold zlen in *. rewrite length_take. lia.
  - unfold open_entry_unlocked, file_id_unlocked, kbind. rewrite (rep_gens _ _ Hr), Hg.
    rewrite bool_decide_true by (by destruct id). simpl. rewrite (read_dir_spec s v _ Hr Hd), Hu. done.
Qed.

(** ** Walking a chain *)

(** The clusters [cs] lie ahead of [first]. *)
Definition ahead (f : Z -> Z) (first : Z) (cs : list Z) : Prop :=
  match cs with
  | [] => is_data_cluster first = false
  | c :: rest => first = c /\ linked f c rest
  end.

Lemma chain_ahead f first cs : chain f first cs -> ahead f first cs.
Proof. destruct cs; simpl; [by intros ->|done]. Qed.

Lemma linked_ahead f c rest : linked f c rest -> ahead f (f c) rest.
Proof.
  destruct rest as [|c' rest]; simpl; [|tauto]. intros [_ Hend]. unfold is_data_cluster.
  destruct (Z.ltb_spec (f c) FAT_ENTRY_RESERVED); [lia|]. apply andb_false_r.
Qed.

Lemma walk_chain_spec s v k : forall prev first cs,
  Rep s v -> ahead (vfat v) first cs -> (k <= length cs)%nat ->
  exists c, walk_chain k prev first s = (s, Ok (match k with O => prev | S j => nth j cs 0 end, c)) /\
            ahead (vfat v) c (drop k cs).
Proof.
  induction k as [|k IH]; intros prev first cs Hr Ha Hk; [by exists first|].
  destruct cs as [|c cs]; simpl in Hk; [lia|]. destruct Ha as [-> Hl].
  assert (in_data c) as Hc by (apply (linked_in_data _ _ _ _ Hl); left).
  cbn [walk_chain]. rewrite (in_data_is_data c Hc). cbn [negb].
  rewrite (kbind_Ok _ _ _ _ _ (read_fat_spec s v c Hr (in_data_fat c Hc))).
  destruct (IH c (vfat v c) cs Hr (linked_ahead _ _ _ Hl) ltac:(lia)) as (c' & E & Ha').
  exists c'. rewrite E. split; [|done]. destruct k; [done|]. done.
Qed.

(** ** Reading *)

Lemma read_at_loop_spec s v fuel : forall len cluster within done buf cs,
  Rep s v -> ahead (vfat v) cluster cs -> 0 <= within < CLUSTER_BYTES -> 0 <= done <= len -> len <= zlen buf ->
  within + (len - done) <= CLUSTER_BYTES * zlen cs -> within + (len - done) <= CLUSTER_BYTES * (Z.of_nat fuel - 1) ->
  (0 < fuel)%nat ->
  read_at_loop fuel len cluster within done buf s =
    (s, Ok (len, splice done (slice within (within + (len - done)) (concat (vdata v <$> cs))) buf)).
Proof.
  induction fuel as [|fuel IH]; intros len cluster within done buf cs Hr Ha Hw Hd Hb Hcs Hf Hpos; [lia|].
  cbn [read_at_loop]. destruct (Z.ltb_spec done len) as [Hlt|Hge]; cycle 1.
  { assert (done = len) as -> by lia. unfold kret. replace (within + (len - len)) with within by lia.
    unfold slice, splice. rewrite Z.sub_diag. simpl. rewrite Nat.add_0_r, take_drop. done. }
  destruct cs as [|c rest]; [unfold zlen in Hcs; simpl in Hcs; layout; lia|].
  destruct Ha as [-> Hl]. assert (in_data c) as Hc by (apply (linked_in_data _ _ _ _ Hl); left).
  rewrite (in_data_is_data c Hc). cbn [negb].
  rewrite (kbind_Ok _ _ _ _ _ (read_data_spec s v c Hr Hc)). cbn zeta.
  destruct (data_shape s v c Hr Hc) as [Hz _]. set (n := Z.min (CLUSTER_BYTES - within) (len - done)).
  assert (zlen (slice within (within + n) (vdata v c)) = n) as Hn by (rewrite zlen_slice; unfold n; lia).
  assert (zlen (c :: rest) = zlen rest + 1) as El by (unfold zlen; simpl; lia).
  assert (forall x, x ∈ rest -> zlen (vdata v x) = CLUSTER_BYTES) as Hrest.
  { intros x Hx. apply (data_shape s v x Hr). apply (linked_in_data _ _ _ _ Hl). by right. }
  pose proof (zlen_concat (vdata v) rest Hrest) as Hzr.
  change (concat (vdata v <$> c :: rest)) with (vdata v c ++ concat (vdata v <$> rest)).
  destruct (Z.ltb_spec (done + n) len) as [Hm|Hm].
  - assert (n = CLUSTER_BYTES - within) as En by (unfold n in *; lia). layout.
    rewrite (kbind_Ok _ _ _ _ _ (read_fat_spec s v c Hr (in_data_fat c Hc))).
    rewrite (IH len (vfat v c) 0 (done + n) _ rest Hr (linked_ahead _ _ _ Hl)); try (rewrite ?zlen_splice; lia).
    do 3 f_equal. rewrite <- Hn at 1. rewrite splice_twice; [|lia|rewrite Hn, zlen_slice; lia].
    f_equal. rewrite <- (slice_join within (within + n) (within + (len - done))); [|lia|lia|rewrite zlen_app; lia].
    f_equal; [by rewrite slice_app_l by lia|]. rewrite slice_app_r by lia. f_equal; lia.
  - assert (n = len - done) as En by (unfold n in *; lia). rewrite (kbind_Ok _ _ s s c) by done.
    assert (done + n = len) as -> by lia.
    destruct fuel as [|fuel]; [layout; lia|]. cbn [read_at_loop]. rewrite Z.ltb_irrefl. unfold kret.
    do 3 f_equal. rewrite slice_app_l by (unfold n in *; lia). by rewrite En.
Qed.

Lemma read_at_spec s files n id nm d off buf :
  FS s files n -> handle s id nm -> files !! nm = Some d -> 0 <= off ->
  let k := Z.max 0 (Z.min (zlen buf) (zlen d - off)) in
  read_at_unlocked id off buf s = (s, Ok (k, splice 0 (slice off (off + k) d) buf)).
Proof.
  intros (v & tbl & Hr & Hv & _) Hh Hd Ho k.
  destruct (handle_slot s v files tbl id nm Hr Hv Hh) as (cs & d' & Ht & Hs & Hn & Hd' & Ec & Ez & Eo).
  assert (d' = d) as -> by congruence. unfold read_at_unlocked. rewrite (kbind_Ok _ _ _ _ _ Eo). cbn zeta.
  pose proof (zlen_nonneg buf). rewrite <- Ez.
  destruct ((zlen d <=? off) || (zlen buf =? 0)) eqn:Eq.
  { assert (k = 0) as ->. { unfold k. apply orb_true_iff in Eq as [?|?]; lia. }
    rewrite Z.add_0_r. unfold kret, slice, splice. rewrite Z.sub_diag. simpl. done. }
  apply orb_false_iff in Eq as [E1 E2]. assert (k = Z.min (zlen buf) (zlen d - off)) as Ek by (unfold k; lia).
  rewrite <- Ek. pose proof (so_size _ _ _ _ Hs) as Hsz. set (q := off / CLUSTER_BYTES).
  assert (0 <= off mod CLUSTER_BYTES < CLUSTER_BYTES /\ off = CLUSTER_BYTES * q + off mod CLUSTER_BYTES) as [Hw Hq].
  { unfold q. split; [apply Z.mod_pos_bound; layout; lia|apply Z.div_mod; layout; lia]. }
  assert (0 <= q) as Hq0 by (unfold q; layout; dlia).
  assert (q < zlen cs) as Hq1 by (apply Z.leb_gt in E1; layout; lia).
  clearbody q.
  destruct (walk_chain_spec s v (Z.to_nat q) 0 (first_cluster (vdir v (slot id))) cs Hr) as (c & Ew & Ha).
  { apply chain_ahead. apply Hs. } { unfold zlen in *. lia. }
  unfold walk_chain_unlocked. rewrite (kbind_Ok _ _ _ _ _ Ew).
  assert (zlen (drop (Z.to_nat q) cs) = zlen cs - q) as El by (clear - Hq0 Hq1; unfold zlen in *; rewrite length_drop; lia).
  rewrite (read_at_loop_spec s v _ _ _ _ _ _ (drop (Z.to_nat q) cs)); try done; try (layout; lia).
  - f_equal. f_equal. f_equal. f_equal. rewrite Z.sub_0_r, Ec. unfold contents.
    assert (concat (vdata v <$> drop (Z.to_nat q) cs) = drop (Z.to_nat (CLUSTER_BYTES * q)) (concat (vdata v <$> cs))) as ->.
    { rewrite <- (take_drop (Z.to_nat q) cs) at 2. rewrite fmap_app, concat_app.
      rewrite drop_app_length'; [done|].
      assert (zlen (concat (vdata v <$> take (Z.to_nat q) cs)) = CLUSTER_BYTES * q) as Hz.
      { rewrite zlen_concat; [f_equal; clear - Hq0 Hq1; unfold zlen in *; rewrite length_take; lia|].
        intros x Hx. apply (data_shape s v x Hr). apply (chain_in_data _ _ _ _ (so_chain _ _ _ _ Hs)).
        by apply elem_of_take in Hx as (j & Hj & _); apply list_elem_of_lookup_2 in Hj. }
      unfold zlen in Hz. lia. }
    unfold slice. rewrite drop_drop, skipn_firstn_comm, take_take. f_equal; [lia|]. f_equal. layout. lia.
  - layout. dlia.
  - layout. dlia.
Qed.

End handle.
