(* ===== verification/FatWrite.v ===== *)
(** Writing at an offset: the loop of [write_at_unlocked] fills the clusters of
    the file and appends new ones, until it is done or the disk is full. *)

From S2P Require Import Prelude BlockDev Fat FatRep FatChain FatFile FatSpec FatOps FatHandle.
Open Scope kmonad_scope.

Section write.
Context {D : Type} `{RD : ReliableDevice D}.
Abbreviation fs := (fs D).
Implicit Types (s : fs) (v : vol) (files : gmap (list Z) (list Z)) (tbl : gmap Z (list Z)).

(** ** Extending a chain *)

Lemma linked_snoc f c rest p n :
  linked f c rest -> NoDup (c :: rest) -> List.last (c :: rest) 0 = p -> in_data n -> n ∉ c :: rest ->
  forall g, g p = n -> (forall x, x ∈ c :: rest -> x <> p -> g x = f x) -> FAT_ENTRY_RESERVED <= g n ->
  linked g c (rest ++ [n]).
Proof.
  revert c. induction rest as [|c' rest IH]; intros c Hl Hnd Hp Hn Hnew g Hg Hkeep Hend.
  - simpl in *. subst p. destruct Hl as [Hc _]. by split_and!.
  - destruct Hl as [Hc [Hf Hl]]. apply NoDup_cons in Hnd as [Hnin Hnd].
    assert (p ∈ c' :: rest) as Hpin.
    { rewrite <- Hp. change (List.last (c :: c' :: rest) 0) with (List.last (c' :: rest) 0).
      apply list_elem_of_In. destruct (exists_last (l := c' :: rest) ltac:(done)) as (l & x & E).
      rewrite E, last_last. apply in_app_iff. right. by left. }
    simpl app. split; [done|]. split.
    + rewrite Hkeep; [done|left|]. by intros ->.
    + apply IH; try done.
      * intros Hx. apply Hnew. by right.
      * intros x Hx. apply Hkeep. by right.
Qed.

Lemma chain_snoc f fc cs p n g :
  chain f fc cs -> NoDup cs -> cs <> [] -> List.last cs 0 = p -> in_data n -> n ∉ cs ->
  g p = n -> (forall x, x ∈ cs -> x <> p -> g x = f x) -> FAT_ENTRY_RESERVED <= g n ->
  chain g fc (cs ++ [n]).
Proof.
  destruct cs as [|c rest]; [done|]. intros [-> Hl] Hnd _ Hp Hn Hnew Hg Hkeep Hend.
  split; [done|]. by apply (linked_snoc f c rest p).
Qed.

(** The chain behind one of its clusters. *)
Lemma chain_linked f fc cs i c : chain f fc cs -> cs !! i = Some c -> linked f c (drop (S i) cs).
Proof.
  revert fc cs. induction i as [|i IH]; intros fc [|d cs] Hch Hc; try done.
  - simpl in Hc. injection Hc as ->. by destruct Hch as [_ Hl].
  - simpl in Hc. destruct Hch as [_ Hl]. destruct cs as [|d' cs]; [done|]. destruct Hl as [_ [_ Hl]].
    by apply (IH d' (d' :: cs)).
Qed.

(** ** The chain grows *)

Record grew v v' (cs : list Z) (fc' : Z) (cs' : list Z) : Prop := {
  gr_app : exists new, cs' = cs ++ new /\ (forall c, c ∈ new -> in_data c /\ vfat v c = 0) /\
                       (free_count v = free_count v' + length new)%nat;
  gr_chain : chain (vfat v') fc' cs';
  gr_nodup : NoDup cs';
  gr_fat c : c ∉ cs' -> vfat v' c = vfat v c;
  gr_data c : c ∉ cs' -> vdata v' c = vdata v c;
  gr_dir : vdir v' = vdir v;
  gr_gens : vgens v' = vgens v;
}.

Lemma grew_refl v cs fc : chain (vfat v) fc cs -> NoDup cs -> grew v v cs fc cs.
Proof.
  intros Hc Hn. constructor; try done. exists []. rewrite app_nil_r. split_and!; [done|set_solver|simpl; lia].
Qed.

(** The bytes of a cluster of the chain are replaced. *)
Lemma grew_data v v' cs fc' cs' c b :
  grew v v' cs fc' cs' -> c ∈ cs' -> grew v (set_data c b v') cs fc' cs'.
Proof.
  intros [G1 G2 G3 G4 G5 G6 G7] Hc. constructor; try done.
  intros x Hx. simpl. rewrite fn_lookup_insert_ne; [by apply G5|]. by intros ->.
Qed.

(** A free cluster is appended. *)
Definition link v (cs : list Z) (c : Z) : vol :=
  match cs with [] => v | _ => set_fat (List.last cs 0) c v end.

Lemma last_elem (cs : list Z) : cs <> [] -> List.last cs 0 ∈ cs.
Proof.
  intros Hne. destruct (exists_last Hne) as (l & x & ->). rewrite last_last. apply elem_of_app. right. left.
Qed.

Lemma link_eq v cs c : cs <> [] -> link v cs c = set_fat (List.last cs 0) c v.
Proof. by destruct cs. Qed.

Definition head_of (fc : Z) (cs : list Z) (c : Z) : Z := match cs with [] => c | _ => fc end.

Lemma link_fat v cs c x :
  x <> c -> x ∉ cs -> vfat (link (set_fat c FAT_ENTRY_EOC v) cs c) x = vfat v x.
Proof.
  intros Hc Hx. destruct (decide (cs = [])) as [->|Hne]; [simpl; by rewrite fn_lookup_insert_ne|].
  rewrite link_eq by done. simpl. rewrite fn_lookup_insert_ne by (intros <-; by apply Hx, last_elem).
  by rewrite fn_lookup_insert_ne.
Qed.

Lemma link_free v fc cs c :
  chain (vfat v) fc cs -> c ∉ cs -> in_data c ->
  free_count (link (set_fat c FAT_ENTRY_EOC v) cs c) = free_count (set_fat c FAT_ENTRY_EOC v).
Proof.
  intros Hch Hout Hc. destruct (decide (cs = [])) as [->|Hne]; [done|]. rewrite link_eq by done.
  pose proof (last_elem cs Hne) as Hl. apply free_count_used; [|unfold in_data in Hc; lia].
  unfold set_fat. simpl. rewrite fn_lookup_insert_ne by (intros ->; done). by apply (chain_used _ _ _ _ Hch).
Qed.

Lemma link_chain v fc cs c :
  chain (vfat v) fc cs -> NoDup cs -> c ∉ cs -> in_data c ->
  chain (vfat (link (set_fat c FAT_ENTRY_EOC v) cs c)) (head_of fc cs c) (cs ++ [c]).
Proof.
  intros Hch Hnd Hout Hc. destruct (decide (cs = [])) as [->|Hne].
  - simpl. split; [done|]. split; [done|]. rewrite fn_lookup_insert. layout. lia.
  - pose proof (last_elem cs Hne) as Hl. assert (head_of fc cs c = fc) as -> by (by destruct cs).
    rewrite link_eq by done. apply (chain_snoc (vfat v) fc cs (List.last cs 0)); try done; simpl.
    + apply fn_lookup_insert.
    + intros x Hx Hx'. rewrite !fn_lookup_insert_ne; [done|by intros ->|done].
    + rewrite fn_lookup_insert_ne by (intros E; by rewrite E in Hl). rewrite fn_lookup_insert. layout. lia.
Qed.

Lemma grew_append v v' cs fc' cs' c :
  grew v v' cs fc' cs' -> in_data c -> vfat v' c = 0 ->
  free_count v' = S (free_count (set_fat c FAT_ENTRY_EOC v')) ->
  grew v (link (set_fat c FAT_ENTRY_EOC v') cs' c) cs (head_of fc' cs' c) (cs' ++ [c]).
Proof.
  intros [(new & E & Hnew & Hcnt) G2 G3 G4 G5 G6 G7] Hc H0 Hfree.
  assert (c ∉ cs') as Hout by (intros Hin; by apply (chain_used _ _ _ c G2 Hin)).
  constructor.
  - exists (new ++ [c]). split; [by rewrite E, app_assoc|]. split.
    + intros x [Hx|Hx]%elem_of_app; [by apply Hnew|]. apply list_elem_of_singleton in Hx as ->.
      split; [done|]. rewrite <- G4; done.
    + rewrite length_app, (link_free _ fc') by done. simpl. lia.
  - by apply link_chain.
  - apply NoDup_app. split; [done|]. split; [|apply NoDup_singleton].
    intros x Hx Hx'. apply list_elem_of_singleton in Hx' as ->. done.
  - intros x Hx. apply not_elem_of_app in Hx as [Hx Hxc]. rewrite list_elem_of_singleton in Hxc.
    rewrite link_fat by done. by apply G4.
  - intros x Hx. apply not_elem_of_app in Hx as [Hx _]. destruct cs'; simpl; by apply G5.
  - destruct cs'; done.
  - destruct cs'; done.
Qed.

(** ** Bytes of a growing chain *)

Lemma chain_byte_app f cs l x :
  0 <= x < CLUSTER_BYTES * zlen cs -> chain_byte f (cs ++ l) x = chain_byte f cs x.
Proof.
  intros Hx. unfold chain_byte. rewrite app_nth1; [done|]. unfold zlen in Hx. layout. dlia.
Qed.

Lemma chain_byte_ext f g cs x :
  (forall c, c ∈ cs -> g c = f c) -> 0 <= x < CLUSTER_BYTES * zlen cs -> chain_byte g cs x = chain_byte f cs x.
Proof.
  intros Hc Hx. unfold chain_byte. rewrite Hc; [done|]. apply list_elem_of_In, nth_In.
  unfold zlen in Hx. layout. dlia.
Qed.

Lemma chain_byte_set (f : Z -> list Z) cs k c b x :
  NoDup cs -> 0 <= k -> cs !! Z.to_nat k = Some c -> 0 <= x < CLUSTER_BYTES * zlen cs ->
  chain_byte (<[c := b]> f) cs x =
    if x / CLUSTER_BYTES =? k then byte_at b (x mod CLUSTER_BYTES) else chain_byte f cs x.
Proof.
  intros Hnd Hk Hc Hx. unfold chain_byte. destruct (Z.eqb_spec (x / CLUSTER_BYTES) k) as [E|E].
  - rewrite E. erewrite nth_lookup_Some by exact Hc. by rewrite fn_lookup_insert.
  - assert (0 <= x / CLUSTER_BYTES) as Hq by (layout; dlia).
    destruct (lookup_lt_is_Some_2 cs (Z.to_nat (x / CLUSTER_BYTES))) as [d Hd].
    { unfold zlen in Hx. layout. dlia. }
    erewrite !nth_lookup_Some by exact Hd. rewrite fn_lookup_insert_ne; [done|]. intros <-.
    pose proof (NoDup_lookup cs _ _ _ Hnd Hc Hd). lia.
Qed.

(** ** The loop *)

Section loop.
Context (v0 : vol) (e : FatDirEntry) (cs : list Z) (off : Z) (data : list Z).
Context (Hoff : 0 <= off) (Hdata : bytes_ok data).
Abbreviation fin := (off + zlen data).
Abbreviation sz := (size e).
Context (Hsz : 0 <= sz <= CLUSTER_BYTES * zlen cs).

(** The bytes before the write, and after it. *)
Definition orig (x : Z) : Z := if x <? CLUSTER_BYTES * zlen cs then chain_byte (vdata v0) cs x else 0.
Definition goal (x : Z) : Z :=
  if (off <=? x) && (x <? fin) then byte_at data (x - off)
  else if (sz <=? x) && (x <? off) then 0 else orig x.

(** The first [k] clusters have been written. *)
Definition done_upto v (cs' : list Z) (k : Z) (except : Z -> Prop) : Prop :=
  forall x, 0 <= x < CLUSTER_BYTES * zlen cs' -> ~ except x ->
    chain_byte (vdata v) cs' x = if x <? CLUSTER_BYTES * k then goal x else orig x.

Record Loop s (w : wstate) v (cs' : list Z) (k : Z) : Prop := {
  lp_rep : Rep s v;
  lp_grew : grew v0 v cs (first_cluster (w_entry w)) cs';
  lp_entry : w_entry w = set_chain e (first_cluster (w_entry w)) sz;
  lp_start : w_start w = CLUSTER_BYTES * k;
  lp_k : 0 <= k <= zlen cs';
  lp_prev : w_prev w = if k =? 0 then 0 else nth (Z.to_nat (k - 1)) cs' 0;
  lp_ahead : ahead (vfat v) (w_cluster w) (drop (Z.to_nat k) cs');
  lp_buf : zlen (w_buf w) = CLUSTER_BYTES /\ bytes_ok (w_buf w);
  lp_bytes : done_upto v cs' k (fun _ => False);
}.

(** The cluster of the chain is at hand, and its bytes where they are needed. *)
Record Got s (w : wstate) v (cs' : list Z) (k : Z) : Prop := {
  gt_rep : Rep s v;
  gt_grew : grew v0 v cs (first_cluster (w_entry w)) cs';
  gt_entry : w_entry w = set_chain e (first_cluster (w_entry w)) sz;
  gt_start : w_start w = CLUSTER_BYTES * k;
  gt_k : 0 <= k;
  gt_cluster : cs' !! Z.to_nat k = Some (w_cluster w);
  gt_buf : zlen (w_buf w) = CLUSTER_BYTES /\ bytes_ok (w_buf w);
  gt_bytes : done_upto v cs' k (fun x => x / CLUSTER_BYTES = k);
  gt_old y : 0 <= y < CLUSTER_BYTES ->
    byte_at (w_buf w) y = orig (CLUSTER_BYTES * k + y) \/ off <= CLUSTER_BYTES * k + y < fin;
}.

(** The first part of [write_step]. *)
Definition get_cluster (w : wstate) : M (fs * wstate) unit :=
  let cluster_end := w_start w + CLUSTER_BYTES in
  if negb (is_data_cluster (w_cluster w)) then
    let! c := on_fs alloc_cluster_unlocked in
    run! set_w (fun w => mk_w (w_entry w) (w_prev w) c (w_start w) (w_reached w) (w_buf w)) in
    run! (if w_prev w =? 0
          then set_w (fun w => mk_w (set_chain (w_entry w) c (size (w_entry w))) (w_prev w)
                                 (w_cluster w) (w_start w) (w_reached w) (w_buf w))
          else on_fs (write_fat_entry_unlocked (w_prev w) c)) in
    set_w (fun w => mk_w (w_entry w) (w_prev w) (w_cluster w) (w_start w) (w_reached w)
                      (zeros CLUSTER_BYTES))
  else if (w_start w <? off) || (fin <? cluster_end) then
    let! b := on_fs (read_blocks_unlocked (cluster_to_lba (w_cluster w)) SECTORS_PER_CLUSTER) in
    set_w (fun w => mk_w (w_entry w) (w_prev w) (w_cluster w) (w_start w) (w_reached w) b)
  else kret tt.

(** The cluster is in the chain already. *)
Lemma get_old s w v cs' k :
  Loop s w v cs' k -> k < zlen cs' ->
  exists b, let w' := mk_w (w_entry w) (w_prev w) (w_cluster w) (w_start w) (w_reached w) b in
    get_cluster w (s, w) = ((s, w'), Ok tt) /\ Got s w' v cs' k.
Proof using All.
  intros [L1 L2 L3 L4 L5 L6 L7 [L8 L8'] L9] Hk.
  destruct (lookup_lt_is_Some_2 cs' (Z.to_nat k)) as [c Hc]; [unfold zlen in Hk; lia|].
  rewrite (drop_S cs' c (Z.to_nat k) Hc) in L7. destruct L7 as [Ec Hl].
  assert (in_data c) as Hd by (apply (linked_in_data _ _ _ _ Hl); left).
  unfold get_cluster. rewrite Ec, (in_data_is_data c Hd). cbn [negb]. rewrite L4.
  assert (forall y, 0 <= y < CLUSTER_BYTES -> byte_at (vdata v c) y = orig (CLUSTER_BYTES * k + y)) as Hold.
  { intros y Hy. assert (0 <= CLUSTER_BYTES * k + y < CLUSTER_BYTES * zlen cs') as Hr by (layout; lia).
    pose proof (L9 _ Hr ltac:(tauto)) as E. rewrite (proj2 (Z.ltb_ge _ _)) in E by lia. rewrite <- E.
    unfold chain_byte. rewrite (Z.mul_comm CLUSTER_BYTES k), Z.div_add_l, Z.div_small, Z.add_0_r by (layout; lia).
    rewrite (Z.add_comm (k * CLUSTER_BYTES)), Z.mod_add, Z.mod_small by (layout; lia).
    by erewrite nth_lookup_Some by exact Hc. }
  destruct ((CLUSTER_BYTES * k <? off) || (fin <? CLUSTER_BYTES * k + CLUSTER_BYTES)) eqn:Eb.
  - exists (vdata v c). unfold on_fs, kbind. rewrite (read_data_spec s v c L1 Hd). split; [unfold set_w, modify; by rewrite Ec, L4|].
    constructor; simpl; try done; [lia|by apply (data_shape s v)| |].
    + intros x Hx _. apply L9; [done|tauto].
    + intros y Hy. left. by apply Hold.
  - exists (w_buf w). split; [rewrite <- Ec, <- L4; by destruct w|]. apply orb_false_iff in Eb as [E1 E2].
    constructor; simpl; try done; [lia| |].
    + intros x Hx _. apply L9; [done|tauto].
    + intros y Hy. right. lia.
Qed.

(** A cluster is allocated and appended. *)
Lemma get_new s w v cs' k :
  Loop s w v cs' k -> k = zlen cs' ->
  (free_count v = 0%nat /\ get_cluster w (s, w) = ((s, w), Err NoSpace)) \/
  (exists s' w' v' c, get_cluster w (s, w) = ((s', w'), Ok tt) /\ Got s' w' v' (cs' ++ [c]) k /\
     w_reached w' = w_reached w).
Proof using All.
  intros [L1 L2 L3 L4 L5 L6 L7 _ L9] ->.
  rewrite drop_ge in L7 by (unfold zlen; lia). simpl in L7. unfold get_cluster. rewrite L7. cbn [negb].
  destruct (decide (free_count v = 0%nat)) as [H0|Hpos].
  { left. split; [done|]. unfold kbind, on_fs. by rewrite (alloc_none s v L1 H0). }
  right. destruct (alloc_some s v L1 ltac:(lia)) as (c & s1 & Ha & Hr1 & Hc & Hz & Hcnt).
  pose proof (grew_append _ _ _ _ _ c L2 Hc Hz Hcnt) as HG. set (v1 := set_fat c FAT_ENTRY_EOC v) in *.
  assert (exists s2, (if w_prev w =? 0 then kret tt else write_fat_entry_unlocked (w_prev w) c) s1 = (s2, Ok tt) /\
            Rep s2 (link v1 cs' c) /\ (w_prev w =? 0) = bool_decide (cs' = [])) as (s2 & Hw & Hr2 & Ep).
  { destruct (decide (cs' = [])) as [->|Hne]; [by rewrite L6; exists s1|].
    assert (w_prev w = List.last cs' 0) as Elast.
    { rewrite L6. destruct (exists_last Hne) as (l & x & ->). rewrite last_last, zlen_app.
      assert ((zlen l + zlen [x] =? 0) = false) as -> by (pose proof (zlen_nonneg l); change (zlen [x]) with 1; lia).
      rewrite app_nth2 by (unfold zlen; simpl; lia). change (zlen [x]) with 1.
      replace (Z.to_nat (zlen l + 1 - 1) - length l)%nat with 0%nat by (unfold zlen; lia). done. }
    pose proof (chain_in_data _ _ _ _ (gr_chain _ _ _ _ _ L2) (last_elem cs' Hne)) as Hp.
    rewrite bool_decide_false by done. rewrite Elast, link_eq by done.
    destruct (Z.eqb_spec (List.last cs' 0) 0); [unfold in_data in Hp; lia|].
    destruct (write_fat_spec s1 v1 (List.last cs' 0) c Hr1 (in_data_fat _ Hp)) as (s2 & Hw & Hr2); [|by exists s2].
    apply in_data_fat in Hc. unfold in_fat in Hc. lia. }
  set (fc := head_of (first_cluster (w_entry w)) cs' c) in *.
  exists s2, (mk_w (set_chain e fc sz) (w_prev w) c (w_start w) (w_reached w) (zeros CLUSTER_BYTES)), (link v1 cs' c), c.
  split_and!; [|constructor; simpl|done].
  - unfold kbind, on_fs, set_w, modify. rewrite Ha. simpl. destruct (w_prev w =? 0) eqn:E0.
    + unfold kret in Hw. injection Hw as <-. symmetry in Ep. apply bool_decide_eq_true in Ep. subst cs'.
      simpl in fc. unfold fc. do 3 f_equal. rewrite L3. done.
    + rewrite Hw. symmetry in Ep. apply bool_decide_eq_false in Ep. do 3 f_equal. rewrite L3.
      unfold fc. by destruct cs'.
  - done.
  - done.
  - done.
  - done.
  - lia.
  - unfold zlen. rewrite Nat2Z.id. by rewrite lookup_app_r, Nat.sub_diag by lia.
  - split; [by apply zlen_zeros|apply zeros_ok].
  - intros x Hx Hex. assert (zlen (cs' ++ [c]) = zlen cs' + 1) as El by (rewrite zlen_app; done).
    assert (0 <= x < CLUSTER_BYTES * zlen cs') as Hx'.
    { split; [lia|]. apply Z.nle_gt. intros Hge. apply Hex. layout. rewrite El in Hx. dlia. }
    rewrite chain_byte_app by done. rewrite <- (L9 x Hx') by tauto. apply chain_byte_ext; [|done].
    intros y Hy. by destruct cs'.
  - intros y Hy. left. rewrite byte_at_zeros. unfold orig. destruct (gr_app _ _ _ _ _ L2) as (new & -> & _).
    rewrite zlen_app. pose proof (zlen_nonneg new). destruct (Z.ltb_spec (CLUSTER_BYTES * (zlen cs + zlen new) + y) (CLUSTER_BYTES * zlen cs)); [|done].
    layout. lia.
Qed.

(** The clusters before [k] hold what they should. *)
Record Written s (w : wstate) v (cs' : list Z) (k : Z) : Prop := {
  wt_rep : Rep s v;
  wt_grew : grew v0 v cs (first_cluster (w_entry w)) cs';
  wt_entry : w_entry w = set_chain e (first_cluster (w_entry w)) sz;
  wt_k : 0 <= k <= zlen cs';
  wt_bytes : done_upto v cs' k (fun _ => False);
  wt_reached : w_reached w = Z.max (Z.min fin (CLUSTER_BYTES * k)) (Z.min off (CLUSTER_BYTES * k));
}.

(** The rest of [write_step]. *)
Definition put_cluster (cluster_end : Z) : M (fs * wstate) bool :=
  let! w := gets snd in
  let buf := fill_cluster off fin sz (w_start w) data (w_buf w) in
  run! set_w (fun w => mk_w (w_entry w) (w_prev w) (w_cluster w) (w_start w) (w_reached w) buf) in
  run! on_fs (write_blocks_unlocked (cluster_to_lba (w_cluster w)) SECTORS_PER_CLUSTER buf) in
  let reached := Z.max (Z.min fin cluster_end) (Z.min off cluster_end) in
  run! set_w (fun w => mk_w (w_entry w) (w_prev w) (w_cluster w) (w_start w) reached (w_buf w)) in
  if fin <=? cluster_end then kret true else
  let! next := on_fs (read_fat_entry_unlocked (w_cluster w)) in
  run! set_w (fun w => mk_w (w_entry w) (w_cluster w) next cluster_end (w_reached w) (w_buf w)) in
  kret false.

Lemma write_step_parts x : write_step off fin sz data x =
  (run! get_cluster x.2 in put_cluster (w_start x.2 + CLUSTER_BYTES)) x.
Proof using All. destruct x as [s w]. reflexivity. Qed.

(** The buffer holds the bytes of the cluster after the write. *)
Lemma fill_goal s w v cs' k y :
  Got s w v cs' k -> 0 <= y < CLUSTER_BYTES ->
  byte_at (fill_cluster off fin sz (w_start w) data (w_buf w)) y = goal (CLUSTER_BYTES * k + y).
Proof using All.
  intros G Hy. pose proof (gt_k _ _ _ _ _ G). destruct (gt_buf _ _ _ _ _ G) as [Hz _].
  rewrite (gt_start _ _ _ _ _ G). rewrite byte_at_fill; try done; [|lia|layout; lia]. cbn zeta. unfold goal.
  destruct ((off <=? CLUSTER_BYTES * k + y) && (CLUSTER_BYTES * k + y <? fin)) eqn:E1; [done|].
  destruct ((sz <=? CLUSTER_BYTES * k + y) && (CLUSTER_BYTES * k + y <? off)); [done|].
  destruct (gt_old _ _ _ _ _ G y Hy) as [->|Hin]; [done|]. apply andb_false_iff in E1 as [?|?]; lia.
Qed.

Lemma put_bytes s w v cs' k :
  Got s w v cs' k ->
  done_upto (set_data (w_cluster w) (fill_cluster off fin sz (w_start w) data (w_buf w)) v) cs' (k + 1) (fun _ => False).
Proof using All.
  intros G x Hx _. pose proof (gt_k _ _ _ _ _ G). simpl.
  rewrite (chain_byte_set _ _ k); [|apply G|lia|apply G|done].
  destruct (Z.eqb_spec (x / CLUSTER_BYTES) k) as [E|E].
  - assert (x = CLUSTER_BYTES * k + x mod CLUSTER_BYTES /\ 0 <= x mod CLUSTER_BYTES < CLUSTER_BYTES) as [Ex Hm]
      by (layout; dlia).
    rewrite (fill_goal s w v cs' k) by done. rewrite <- Ex. rewrite (proj2 (Z.ltb_lt _ _)) by (layout; lia). done.
  - rewrite (gt_bytes _ _ _ _ _ G x Hx E).
    destruct (Z.ltb_spec x (CLUSTER_BYTES * k)), (Z.ltb_spec x (CLUSTER_BYTES * (k + 1))); try done; layout; dlia.
Qed.

Lemma put_cluster_spec s w v cs' k :
  Got s w v cs' k ->
  exists s' w' v', put_cluster (CLUSTER_BYTES * (k + 1)) (s, w) = ((s', w'), Ok (fin <=? CLUSTER_BYTES * (k + 1))) /\
    Written s' w' v' cs' (k + 1) /\ (CLUSTER_BYTES * (k + 1) < fin -> Loop s' w' v' cs' (k + 1)).
Proof using All.
  intros G. pose proof (put_bytes s w v cs' k G) as Hb. pose proof G as [G1 G2 G3 G4 G5 G6 [G7 G7'] _ _].
  set (buf := fill_cluster off fin sz (w_start w) data (w_buf w)) in *.
  assert (w_cluster w ∈ cs') as Hin by (by apply list_elem_of_lookup_2 in G6).
  pose proof (chain_in_data _ _ _ _ (gr_chain _ _ _ _ _ G2) Hin) as Hd.
  assert (k < zlen cs') as Hk by (apply lookup_lt_Some in G6; unfold zlen; lia).
  assert (zlen buf = CLUSTER_BYTES /\ bytes_ok buf) as [Hz Hbo].
  { unfold buf. rewrite G4. split; [apply zlen_fill; try done; [lia|layout; lia]|by apply fill_ok]. }
  destruct (write_data_spec s v (w_cluster w) buf G1 Hd Hz Hbo) as (s' & Hw & Hr').
  pose proof (grew_data _ _ _ _ _ (w_cluster w) buf G2 Hin) as HG.
  set (R := Z.max (Z.min fin (CLUSTER_BYTES * (k + 1))) (Z.min off (CLUSTER_BYTES * (k + 1)))).
  assert (put_cluster (CLUSTER_BYTES * (k + 1)) (s, w) =
    (if fin <=? CLUSTER_BYTES * (k + 1) then kret true else
     let! next := on_fs (read_fat_entry_unlocked (w_cluster w)) in
     run! set_w (fun w => mk_w (w_entry w) (w_cluster w) next (CLUSTER_BYTES * (k + 1)) (w_reached w) (w_buf w)) in
     kret false) (s', mk_w (w_entry w) (w_prev w) (w_cluster w) (w_start w) R buf)) as ->.
  { unfold put_cluster, kbind at 1, gets. cbn [snd]. fold buf. unfold kbind at 1, set_w at 1, modify at 1.
    unfold kbind at 1, on_fs at 1. by rewrite Hw. }
  destruct (Z.leb_spec fin (CLUSTER_BYTES * (k + 1))) as [Hf|Hf].
  - do 3 eexists. split; [reflexivity|]. split; [|lia].
    constructor; simpl; try done; lia.
  - unfold kbind at 1, on_fs. rewrite (read_fat_spec _ _ _ Hr' (in_data_fat _ Hd)). do 3 eexists. split; [reflexivity|].
    split; [constructor; simpl; try done; lia|]. intros _. constructor; simpl; try done; [lia| |].
    + destruct (Z.eqb_spec (k + 1) 0); [lia|]. replace (k + 1 - 1) with k by lia. by erewrite nth_lookup_Some by exact G6.
    + pose proof (gr_chain _ _ _ _ _ G2) as Hch. replace (Z.to_nat (k + 1)) with (S (Z.to_nat k)) by lia.
      apply linked_ahead. by apply (chain_linked _ (first_cluster (w_entry w)) cs').
Qed.

Lemma write_step_spec s w v cs' k :
  Loop s w v cs' k -> 
  (k = zlen cs' /\ free_count v = 0%nat /\ write_step off fin sz data (s, w) = ((s, w), Err NoSpace)) \/
  (exists s' w' v' cs2, write_step off fin sz data (s, w) = ((s', w'), Ok (fin <=? CLUSTER_BYTES * (k + 1))) /\
     Written s' w' v' cs2 (k + 1) /\ (CLUSTER_BYTES * (k + 1) < fin -> Loop s' w' v' cs2 (k + 1))).
Proof using All.
  intros L. rewrite write_step_parts. cbn [snd]. rewrite (lp_start _ _ _ _ _ L).
  replace (CLUSTER_BYTES * k + CLUSTER_BYTES) with (CLUSTER_BYTES * (k + 1)) by lia.
  destruct (Z.lt_ge_cases k (zlen cs')) as [Hk|Hk].
  - right. destruct (get_old s w v cs' k L Hk) as (b & E & G). rewrite (kbind_Ok _ _ _ _ _ E).
    destruct (put_cluster_spec _ _ _ _ _ G) as (s' & w' & v' & ?). by exists s', w', v', cs'.
  - assert (k = zlen cs') as Ek by (pose proof (lp_k _ _ _ _ _ L); lia).
    destruct (get_new s w v cs' k L Ek) as [[H0 E]|(s1 & w1 & v1 & c & E & G & _)].
    + left. split_and!; [done|done|]. by apply kbind_Err.
    + right. rewrite (kbind_Ok _ _ _ _ _ E).
      destruct (put_cluster_spec _ _ _ _ _ G) as (s' & w' & v' & ?). by exists s', w', v', (cs' ++ [c]).
Qed.

(** The end of the loop: everything up to [w_reached] has been written. *)
Record Final s (w : wstate) v (cs' : list Z) : Prop := {
  fl_rep : Rep s v;
  fl_grew : grew v0 v cs (first_cluster (w_entry w)) cs';
  fl_entry : w_entry w = set_chain e (first_cluster (w_entry w)) sz;
  fl_room : Z.max sz (w_reached w) <= CLUSTER_BYTES * zlen cs';
  fl_bytes : forall x, 0 <= x < Z.max sz (w_reached w) ->
    chain_byte (vdata v) cs' x = if x <? w_reached w then goal x else orig x;
}.

Lemma grew_longer v v' fc' cs' : grew v v' cs fc' cs' -> zlen cs <= zlen cs'.
Proof using. intros [(new & -> & _) _ _ _ _ _ _]. rewrite zlen_app. pose proof (zlen_nonneg new). lia. Qed.

Lemma Written_Final s w v cs' k : Written s w v cs' k -> fin <= CLUSTER_BYTES * k -> Final s w v cs' /\ w_reached w = fin.
Proof using All.
  intros [W1 W2 W3 W4 W5 W6] Hf. pose proof (zlen_nonneg data). pose proof (grew_longer _ _ _ _ W2).
  assert (w_reached w = fin) as Er by (rewrite W6; lia). split; [|done]. constructor; try done; rewrite Er.
  - layout. lia.
  - intros x Hx. rewrite (W5 x); [|layout; lia|tauto]. unfold goal.
    destruct (Z.ltb_spec x (CLUSTER_BYTES * k)), (Z.ltb_spec x fin); try done; try lia.
    destruct (Z.leb_spec off x), (Z.leb_spec sz x), (Z.ltb_spec x off); simpl; lia || done.
Qed.

Lemma Loop_Final s w v cs' k : Loop s w v cs' k -> w_reached w = CLUSTER_BYTES * k -> Final s w v cs'.
Proof using All.
  intros [L1 L2 L3 L4 L5 L6 L7 L8 L9] Hr. pose proof (grew_longer _ _ _ _ L2). constructor; try done; rewrite Hr.
  - layout. lia.
  - intros x Hx. apply L9; [layout; lia|tauto].
Qed.

Lemma write_loop_spec fuel : forall s w v cs' k,
  Loop s w v cs' k -> CLUSTER_BYTES * k < fin -> (k = zlen cs' -> w_reached w = CLUSTER_BYTES * k) ->
  fin - CLUSTER_BYTES * k <= CLUSTER_BYTES * Z.of_nat fuel ->
  exists s' w' v' cs2, Final s' w' v' cs2 /\
    ((write_loop fuel off fin sz data (s, w) = ((s', w'), Ok tt) /\ w_reached w' = fin) \/
     (write_loop fuel off fin sz data (s, w) = ((s', w'), Err NoSpace) /\ w_reached w' < fin /\
      free_count v' = 0%nat /\ w_reached w' = CLUSTER_BYTES * zlen cs2)).
Proof using All.
  induction fuel as [|fuel IH]; intros s w v cs' k L Hk Hreach Hf; [lia|]. cbn [write_loop].
  destruct (write_step_spec s w v cs' k L) as [(Ek & H0 & E)|(s1 & w1 & v1 & cs1 & E & W & HL)].
  - exists s, w, v, cs'. specialize (Hreach Ek). split; [by apply (Loop_Final s w v cs' k)|]. right.
    split_and!; [by apply kbind_Err|lia|done|by rewrite Hreach, Ek].
  - rewrite (kbind_Ok _ _ _ _ _ E). destruct (Z.leb_spec fin (CLUSTER_BYTES * (k + 1))) as [Hd|Hd].
    + destruct (Written_Final _ _ _ _ _ W Hd) as [F Er]. exists s1, w1, v1, cs1. split; [done|]. by left.
    + apply (IH s1 w1 v1 cs1 (k + 1) (HL Hd)); [done| |lia]. intros _. rewrite (wt_reached _ _ _ _ _ W). lia.
Qed.

(** The closure of [write_at_unlocked] on the chain of the file. *)
Lemma write_closure_spec s b :
  Rep s v0 -> chain (vfat v0) (first_cluster e) cs -> NoDup cs -> 0 < zlen data ->
  zlen b = CLUSTER_BYTES -> bytes_ok b ->
  let start := Z.min off sz in
  exists s' w' v' cs2, Final s' w' v' cs2 /\
    ((write_closure off fin sz data (s, mk_w e 0 0 (start - start mod CLUSTER_BYTES) start b) = ((s', w'), Ok tt) /\ w_reached w' = fin) \/
     (write_closure off fin sz data (s, mk_w e 0 0 (start - start mod CLUSTER_BYTES) start b) = ((s', w'), Err NoSpace) /\
      w_reached w' < fin /\ free_count v' = 0%nat /\ w_reached w' = CLUSTER_BYTES * zlen cs2)).
Proof using All.
  intros Hr Hch Hnd Hpos Hz Hb start. set (k := start / CLUSTER_BYTES).
  assert (start - start mod CLUSTER_BYTES = CLUSTER_BYTES * k /\ 0 <= start mod CLUSTER_BYTES < CLUSTER_BYTES /\
          start = CLUSTER_BYTES * k + start mod CLUSTER_BYTES /\ 0 <= k) as (-> & Hm & Es & Hk0)
    by (unfold k, start; layout; dlia).
  assert (start <= off /\ start <= sz /\ (start = off \/ start = sz)) as (Hs1 & Hs2 & Hs3) by (unfold start; lia).
  clearbody start k. assert (k <= zlen cs) as Hk by (layout; lia).
  destruct (walk_chain_spec s v0 (Z.to_nat k) 0 (first_cluster e) cs Hr (chain_ahead _ _ _ Hch)) as (c & Ew & Ha);
    [clear - Hk; unfold zlen in Hk; lia|].
  assert (match Z.to_nat k with O => 0 | S j => nth j cs 0 end = if k =? 0 then 0 else nth (Z.to_nat (k - 1)) cs 0) as Eprev.
  { destruct (Z.eqb_spec k 0) as [->|Hne]; [done|]. replace (Z.to_nat k) with (S (Z.to_nat (k - 1))) by lia. done. }
  set (w1 := mk_w e (if k =? 0 then 0 else nth (Z.to_nat (k - 1)) cs 0) c (CLUSTER_BYTES * k) start b).
  assert (write_closure off fin sz data (s, mk_w e 0 0 (CLUSTER_BYTES * k) start b) =
          write_loop (Z.to_nat ((fin - CLUSTER_BYTES * k) / CLUSTER_BYTES + 2)) off fin sz data (s, w1)) as ->.
  { unfold write_closure, kbind at 1, gets. cbn [snd w_entry w_start]. unfold kbind at 1, on_fs, walk_chain_unlocked.
    replace (CLUSTER_BYTES * k / CLUSTER_BYTES) with k by (layout; dlia). rewrite Ew, Eprev. reflexivity. }
  apply (write_loop_spec _ s w1 v0 cs k).
  - constructor; simpl; try done; [by apply grew_refl|by destruct e|].
    intros x Hx _. assert (orig x = chain_byte (vdata v0) cs x) as Eo.
    { unfold orig. by rewrite (proj2 (Z.ltb_lt x (CLUSTER_BYTES * zlen cs))) by lia. }
    destruct (Z.ltb_spec x (CLUSTER_BYTES * k)); [|done]. unfold goal.
    rewrite (proj2 (Z.leb_gt off x)), (proj2 (Z.leb_gt sz x)) by lia. done.
  - lia.
  - simpl. intros Ek. layout. lia.
  - layout. dlia.
Qed.

End loop.
End write.
