(* ===== verification/FatOpen.v ===== *)
(** Opening files and writing through handles, on the map of files. *)

From S2P Require Import Prelude BlockDev Fat FatRep FatChain FatFile FatSpec FatOps FatHandle FatWrite.
Open Scope kmonad_scope.

Section open.
Context {D : Type} `{RD : ReliableDevice D}.
Abbreviation fs := (fs D).
Implicit Types (s : fs) (v : vol) (files : gmap (list Z) (list Z)) (tbl : gmap Z (list Z)).

(** ** A file changes in place *)

Lemma entry_name_chain e fc sz : entry_name (set_chain e fc sz) = entry_name e.
Proof. done. Qed.

Lemma Volume_replace v v' files tbl i cs fc' cs' sz' :
  Volume v files tbl -> tbl !! i = Some cs -> vdir v' = vdir v -> chain (vfat v') fc' cs' -> NoDup cs' ->
  (forall j cs1 c, tbl !! j = Some cs1 -> j <> i -> c ∈ cs1 ->
     (c ∉ cs') /\ vfat v' c = vfat v c /\ vdata v' c = vdata v c) ->
  0 <= sz' < 2 ^ 32 -> sz' <= CLUSTER_BYTES * zlen cs' ->
  Volume (put_entry i (set_chain (vdir v i) fc' sz') v')
    (<[entry_name (vdir v i) := take (Z.to_nat sz') (concat (vdata v' <$> cs'))]> files) (<[i := cs']> tbl).
Proof.
  intros Hv Hi Hdirs Hch Hnd Hout Hsz Hle. pose proof (vol_slot _ _ _ Hv i cs Hi) as Hs.
  set (e := set_chain (vdir v i) fc' sz').
  assert (in_use e = 1) as Hu by apply Hs. set (v2 := put_entry i e v').
  assert (forall j, j <> i -> vdir v2 j = vdir v j) as Hdir.
  { intros j Hj. unfold v2, put_entry. rewrite Hu. simpl. rewrite fn_lookup_insert_ne by done. by rewrite Hdirs. }
  assert (vdir v2 i = e) as Hdi by (unfold v2, put_entry, set_dir; simpl; by rewrite fn_lookup_insert).
  assert (vfat v2 = vfat v' /\ vdata v2 = vdata v') as [Hfat Hdat] by (unfold v2, put_entry; by rewrite Hu).
  assert (0 <= fc' < 2 ^ 16) as Hfc.
  { destruct cs' as [|c l]; [by simpl in Hch; subst|].
    pose proof (chain_in_data _ _ _ c Hch ltac:(left)) as Hc. destruct Hch as [-> _].
    apply in_data_fat in Hc. unfold in_fat in Hc. lia. }
  destruct Hv as [He Hf Hsl Hin Hd Hfl]. split.
  - intros j Hj. destruct (decide (j = i)) as [->|Hne]; [rewrite Hdi|rewrite Hdir by done; by apply He].
    destruct (He i Hj). by split.
  - intros j Hj [Hnone Hne]%lookup_insert_None. rewrite Hdir by done. by apply Hf.
  - intros j cs1 [[<- <-]|[Hne Hj]]%lookup_insert_Some.
    + destruct Hs. split; rewrite ?Hdi, ?Hfat; try done. rewrite lookup_insert_eq.
      unfold contents. by rewrite Hdat.
    + apply (slot_ok_frame v v2 files); [by apply Hsl|by apply Hdir| |].
      * intros c Hc. rewrite Hfat, Hdat. by apply (Hout j cs1).
      * rewrite lookup_insert_ne; [done|]. intros E. apply Hne. by apply (Hin i j cs cs1).
  - intros j k cs1 cs2 [[<- <-]|[Hj H1]]%lookup_insert_Some [[<- <-]|[Hk H2]]%lookup_insert_Some;
      rewrite ?Hdi, ?Hdir by done; [done| | |by apply (Hin j k cs1 cs2)]; intros E.
    + by apply (Hin i k cs cs2).
    + by apply (Hin j i cs1 cs).
  - intros j k cs1 cs2 c [[<- <-]|[Hj H1]]%lookup_insert_Some [[<- <-]|[Hk H2]]%lookup_insert_Some Hc1 Hc2;
      [done| | |by apply (Hd j k cs1 cs2 c)].
    + exfalso. by apply (Hout k cs2 c H2).
    + exfalso. by apply (Hout j cs1 c H1).
  - intros nm d [[<- <-]|[Hne Hfd]]%lookup_insert_Some.
    + exists i, cs'. by rewrite lookup_insert_eq, Hdi.
    + destruct (Hfl nm d Hfd) as (j & cs1 & Hj & Hn). assert (j <> i) as Hji by congruence.
      exists j, cs1. rewrite lookup_insert_ne by done. by rewrite Hdir.
Qed.

Lemma Volume_update v v' files tbl i cs fc' cs' sz' :
  Volume v files tbl -> tbl !! i = Some cs -> grew v v' cs fc' cs' ->
  0 <= sz' < 2 ^ 32 -> sz' <= CLUSTER_BYTES * zlen cs' ->
  Volume (put_entry i (set_chain (vdir v i) fc' sz') v')
    (<[entry_name (vdir v i) := take (Z.to_nat sz') (concat (vdata v' <$> cs'))]> files) (<[i := cs']> tbl).
Proof.
  intros Hv Hi [(new & Ecs & Hnew & _) G2 G3 G4 G5 G6 G7] Hsz Hle. apply (Volume_replace v v' files tbl i cs); try done.
  intros j cs1 c Hj Hne Hc. assert (c ∉ cs') as Hout.
  { rewrite Ecs. intros [Hin|Hin]%elem_of_app.
    - apply Hne. by apply (vol_disj _ _ _ Hv j i cs1 cs c).
    - apply (owned_used _ _ _ c Hv); [by exists j, cs1|by apply Hnew]. }
  split_and!; [done|by apply G4|by apply G5].
Qed.

(** The file is cut to nothing and its clusters are free. *)
Lemma Volume_truncate v files tbl i cs :
  Volume v files tbl -> tbl !! i = Some cs ->
  Volume (clear_fat cs (put_entry i (set_chain (vdir v i) 0 0) v))
    (<[entry_name (vdir v i) := []]> files) (<[i := []]> tbl).
Proof.
  intros Hv Hi. pose proof (so_use _ _ _ _ (vol_slot _ _ _ Hv i cs Hi)) as Hu.
  assert (clear_fat cs (put_entry i (set_chain (vdir v i) 0 0) v) =
          put_entry i (set_chain (vdir v i) 0 0) (clear_fat cs v)) as ->.
  { unfold put_entry. simpl. rewrite Hu. done. }
  apply (Volume_replace v (clear_fat cs v) files tbl i cs 0 [] 0); try done; [apply NoDup_nil_2|].
  intros j cs1 c Hj Hne Hc. split_and!; [apply not_elem_of_nil| |done]. unfold clear_fat. simpl.
  rewrite decide_False; [done|]. intros Hc'. apply Hne. by apply (vol_disj _ _ _ Hv j i cs1 cs c).
Qed.

(** Handles stay open while their slots keep their names and generations. *)
Lemma handles_kept s s' v v' :
  Rep s v -> Rep s' v' -> vgens v' = vgens v ->
  (forall i, in_dir i -> in_use (vdir v i) = 1 ->
     in_use (vdir v' i) = 1 /\ entry_name (vdir v' i) = entry_name (vdir v i)) ->
  forall id nm, handle s id nm -> handle s' id nm.
Proof.
  intros Hr Hr' Hg Hd id nm Hh. apply (handle_vol s v id nm Hr) in Hh as (H1 & H2 & H3 & H4).
  apply (handle_vol s' v' id nm Hr'). destruct (Hd _ H1 H3) as [H5 H6]. rewrite Hg, H6. by split_and!.
Qed.

Lemma handles_update s s' v v' files tbl i cs fc' cs' sz' :
  Rep s v -> Volume v files tbl -> tbl !! i = Some cs -> grew v v' cs fc' cs' ->
  Rep s' (put_entry i (set_chain (vdir v i) fc' sz') v') ->
  forall id nm, handle s id nm -> handle s' id nm.
Proof.
  intros Hr Hv Hi G Hr'. pose proof (so_use _ _ _ _ (vol_slot _ _ _ Hv i cs Hi)) as Hu.
  apply (handles_kept s s' v _ Hr Hr').
  - unfold put_entry. simpl. rewrite Hu. simpl. apply G.
  - intros j Hj Huj. unfold put_entry, set_dir. simpl. destruct (decide (i = j)) as [<-|Hne].
    + rewrite fn_lookup_insert. done.
    + rewrite fn_lookup_insert_ne by done. rewrite Hu. simpl. by rewrite (gr_dir _ _ _ _ _ G).
Qed.

(** ** Writing *)

(** The contents after [k] bytes of [data] have been written. *)
Definition put_data (d : list Z) (off : Z) (data : list Z) (k : Z) : list Z :=
  if k =? 0 then d else overwrite d off (take (Z.to_nat k) data).

Lemma Final_contents v0 e cs off data s w v cs' :
  Rep s v -> (forall c, c ∈ cs -> zlen (vdata v0 c) = CLUSTER_BYTES) ->
  0 <= off -> 0 <= size e <= CLUSTER_BYTES * zlen cs -> Final v0 e cs off data s w v cs' ->
  w_reached w <= off + zlen data ->
  let k := saturating_sub (w_reached w) off in
  let sz' := if 0 <? k then Z.max (size e) (w_reached w) else size e in
  sz' <= CLUSTER_BYTES * zlen cs' /\
  take (Z.to_nat sz') (concat (vdata v <$> cs')) =
    put_data (take (Z.to_nat (size e)) (concat (vdata v0 <$> cs))) off data k.
Proof.
  intros Hr Hshape Ho Hsz [F1 F2 F3 F4 F5] HR k sz'. pose proof (zlen_nonneg data).
  assert (k = Z.max 0 (w_reached w - off)) as Ek by done.
  assert (zlen (concat (vdata v <$> cs')) = CLUSTER_BYTES * zlen cs') as Hz.
  { apply zlen_concat. intros c Hc. apply (data_shape s v c Hr). by apply (chain_in_data _ _ _ _ (gr_chain _ _ _ _ _ F2)). }
  assert (sz' <= CLUSTER_BYTES * zlen cs' /\ 0 <= sz' <= Z.max (size e) (w_reached w)) as [Hle Hs'] by (unfold sz'; zcase; lia).
  split; [done|]. set (d := take (Z.to_nat (size e)) (concat (vdata v0 <$> cs))).
  assert (zlen d = size e) as Hd.
  { unfold d. pose proof (zlen_concat (vdata v0) cs Hshape) as E. unfold zlen in *. rewrite length_take. lia. }
  assert (forall x, 0 <= x < size e -> orig v0 cs x = byte_at d x) as Hor.
  { intros x Hx. unfold orig, d. rewrite (proj2 (Z.ltb_lt _ _)) by lia. rewrite byte_at_take by lia.
    by rewrite concat_byte by (done || lia). }
  assert (zlen (take (Z.to_nat sz') (concat (vdata v <$> cs'))) = sz') as Hlen.
  { unfold zlen in *. rewrite length_take. lia. }
  unfold put_data. destruct (Z.eqb_spec k 0) as [E0|E0].
  - assert (sz' = size e) as Esz by (unfold sz'; destruct (Z.ltb_spec 0 k); [lia|done]). apply bytes_eq; [lia|]. rewrite Hlen. intros x Hx.
    rewrite byte_at_take, concat_byte, F5 by (lia || (intros c Hc; apply (data_shape s v c Hr); by apply (chain_in_data _ _ _ _ (gr_chain _ _ _ _ _ F2)))).
    rewrite <- Hor by lia. destruct (Z.ltb_spec x (w_reached w)); [|done]. unfold goal.
    rewrite (proj2 (Z.leb_gt off x)), (proj2 (Z.leb_gt (size e) x)) by lia. done.
  - assert (0 < k) as Hk by lia. assert (sz' = Z.max (size e) (w_reached w)) as Esz by (unfold sz'; destruct (Z.ltb_spec 0 k); [done|lia]).
    assert (zlen (take (Z.to_nat k) data) = k) as Htk by (unfold zlen in *; rewrite length_take; lia).
    apply bytes_eq.
    + rewrite Hlen. destruct (zlen_overwrite d off (take (Z.to_nat k) data) Ho) as [->|?]; lia.
    + rewrite Hlen. intros x Hx.
      rewrite byte_at_take, concat_byte, F5 by (lia || (intros c Hc; apply (data_shape s v c Hr); by apply (chain_in_data _ _ _ _ (gr_chain _ _ _ _ _ F2)))).
      rewrite byte_at_overwrite, Htk by lia. replace (off + k) with (w_reached w) by lia. unfold goal.
      destruct (Z.ltb_spec x (w_reached w)), (Z.leb_spec off x); simpl; try lia; try (by apply Hor; lia).
      * rewrite (proj2 (Z.ltb_lt x _)) by lia. by rewrite byte_at_take by lia.
      * destruct (Z.leb_spec (size e) x) as [Hx'|Hx']; [|apply Hor; lia]. rewrite (proj2 (Z.ltb_lt x off)) by lia. simpl.
        by rewrite byte_at_beyond by lia.
Qed.

(** [write_at] on the map of files: [k] bytes are written, all of them unless
    the disk is full. *)
Lemma write_at_spec s files n id nm d o data :
  FS s files n -> handle s id nm -> files !! nm = Some d -> bytes_ok data -> 0 < zlen data ->
  let off := default (zlen d) o in
  0 <= off -> off + zlen data <= u32_max ->
  exists s' m k, FS s' (<[nm := put_data d off data k]> files) m /\ 0 <= k <= zlen data /\ m <= n /\
    (k < zlen data -> m = 0) /\ (forall id' nm', handle s id' nm' -> handle s' id' nm') /\
    write_at_unlocked id o data s = (s', if k =? 0 then Err NoSpace else Ok (off, k)).
Proof.
  intros (v & tbl & Hr & Hv & ->) Hh Hd Hb Hpos off Ho Hfin.
  destruct (handle_slot s v files tbl id nm Hr Hv Hh) as (cs & d' & Ht & Hs & Hn & Hd' & Ec & Ez & Eo).
  assert (d' = d) as -> by congruence. set (e := vdir v (slot id)) in *.
  pose proof (vol_entry _ _ _ Hv _ (so_dir _ _ _ _ Hs)) as He. fold e in He.
  pose proof (so_size _ _ _ _ Hs) as Hsz. fold e in Hsz. destruct (ok_size _ He) as [Hs0 Hs1].
  assert (forall c, c ∈ cs -> zlen (vdata v c) = CLUSTER_BYTES) as Hshape.
  { intros c Hc. apply (data_shape s v c Hr). by apply (chain_in_data _ _ _ _ (so_chain _ _ _ _ Hs)). }
  destruct (write_closure_spec v e cs off data Ho Hb ltac:(lia) s (zeros CLUSTER_BYTES) Hr (so_chain _ _ _ _ Hs)
              (so_nodup _ _ _ _ Hs) Hpos (zlen_zeros CLUSTER_BYTES ltac:(done)) (zeros_ok _)) as (s1 & w & v1 & cs1 & F & Hrun).
  assert (w_reached w <= off + zlen data) as HR by (destruct Hrun as [[_ ->]|(_ & ? & _)]; lia).
  pose proof (fl_rep _ _ _ _ _ _ _ _ _ F) as Hr1. pose proof (fl_grew _ _ _ _ _ _ _ _ _ F) as G.
  destruct (Final_contents v e cs off data s1 w v1 cs1 Hr1 Hshape Ho ltac:(lia) F HR) as [Hroom Hcont].
  set (k := saturating_sub (w_reached w) off) in *. cbv zeta in Hroom, Hcont.
  set (sz' := if 0 <? k then Z.max (size e) (w_reached w) else size e) in *.
  assert (k = Z.max 0 (w_reached w - off)) as Ek by done.
  assert (0 <= sz' < 2 ^ 32) as Hsz' by (unfold sz', u32_max in *; zcase; lia).
  set (fc := first_cluster (w_entry w)) in *.
  assert (entry_ok (set_chain e fc sz')) as He'.
  { destruct (vol_entry _ _ _ (Volume_update _ _ _ _ _ _ _ _ sz' Hv Ht G Hsz' Hroom) (slot id) (so_dir _ _ _ _ Hs)) as [].
    unfold put_entry, set_dir in *. simpl in *. rewrite !fn_lookup_insert in *. by split. }
  destruct (write_dir_spec s1 v1 (slot id) (set_chain e fc sz') Hr1 (so_dir _ _ _ _ Hs) He') as (s' & Hw & Hr').
  exists s', (Z.of_nat (free_count v1)), k. split_and!.
  - exists (put_entry (slot id) (set_chain e fc sz') v1), (<[slot id := cs1]> tbl). split; [done|]. split.
    + pose proof (Volume_update _ _ _ _ _ _ _ _ sz' Hv Ht G Hsz' Hroom) as HV.
      fold e in HV. rewrite Hn, Hcont in HV. rewrite Ec. exact HV.
    + by rewrite free_count_put.
  - lia.
  - lia.
  - destruct (gr_app _ _ _ _ _ G) as (new & _ & _ & ->). lia.
  - intros Hk. destruct Hrun as [[_ Er]|(_ & _ & H0 & _)]; [lia|by rewrite H0].
  - by apply (handles_update s s' v v1 files tbl (slot id) cs fc cs1 sz').
  - unfold write_at_unlocked. rewrite (kbind_Ok _ _ _ _ _ Eo). fold e. cbv zeta. rewrite <- Ez. fold off.
    destruct (Z.eqb_spec (zlen data) 0); [lia|].
    assert (checked_add64 off (zlen data) = Some (off + zlen data)) as ->.
    { unfold checked_add64. rewrite (proj2 (Z.leb_le _ _)); [done|]. unfold u32_max, u64_max in *. lia. }
    rewrite (proj2 (Z.leb_le (off + zlen data) u32_max)) by lia. unfold ok_or. rewrite (kbind_Ok _ _ s s (off + zlen data)) by done.
    rewrite Ez.
    assert ((if 0 <? k then set_chain (w_entry w) (first_cluster (w_entry w)) (u32 (Z.max (size e) (w_reached w))) else w_entry w)
            = set_chain e fc sz') as Eent.
    { rewrite (fl_entry _ _ _ _ _ _ _ _ _ F). fold fc. unfold sz'. destruct (Z.ltb_spec 0 k); [|done].
      unfold u32. rewrite Z.mod_small; [done|]. unfold sz', u32_max in *. lia. }
    destruct Hrun as [[E Er]|(E & Er & _ & _)]; rewrite E; fold k; rewrite Eent, (kbind_Ok _ _ _ _ _ Hw).
    + assert (k = zlen data) as Ek' by lia. rewrite Ek'. destruct (Z.eqb_spec (zlen data) 0); [lia|]. done.
    + destruct (Z.eqb_spec k 0) as [E0|E0], (Z.ltb_spec 0 k); try lia; done.
Qed.

(** ** Opening *)

Lemma file_id_handle s v files tbl i cs :
  Rep s v -> Volume v files tbl -> tbl !! i = Some cs ->
  exists id, file_id_unlocked i s = (s, Ok id) /\ handle s id (entry_name (vdir v i)).
Proof.
  intros Hr Hv Hi. destruct (vol_slot _ _ _ Hv i cs Hi) as [Hd Hu _ _ _ _ _].
  destruct (lookup_lt_is_Some_2 (vgens v) (Z.to_nat i)) as [g Hg]; [rewrite (rep_gens_len _ _ Hr); layout; lia|].
  exists (mk_id i g). unfold file_id_unlocked. rewrite (rep_gens _ _ Hr), Hg. split; [done|].
  apply (handle_vol s v _ _ Hr). by split_and!.
Qed.

(** The truncation of [open_file_unlocked]. *)
Lemma truncate_spec s v files tbl i cs :
  Rep s v -> Volume v files tbl -> tbl !! i = Some cs ->
  let old_chain := first_cluster (vdir v i) in
  exists s' v', (run! write_dir_entry_unlocked i (set_chain (vdir v i) 0 0) in
            if is_data_cluster old_chain then free_cluster_chain_unlocked old_chain else kret tt) s = (s', Ok tt) /\
    Rep s' v' /\ Volume v' (<[entry_name (vdir v i) := []]> files) (<[i := []]> tbl) /\
    (free_count v <= free_count v')%nat /\ entry_name (vdir v' i) = entry_name (vdir v i) /\
    (forall id nm, handle s id nm -> handle s' id nm).
Proof.
  intros Hr Hv Hi old. pose proof (vol_slot _ _ _ Hv i cs Hi) as [Hd Hu Hch Hnd _ _ _].
  pose proof (vol_entry _ _ _ Hv i Hd) as He. set (e := set_chain (vdir v i) 0 0).
  destruct (write_dir_spec s v i e Hr Hd) as (s1 & Hw & Hr1); [destruct He; by split|].
  rewrite (kbind_Ok _ _ _ _ _ Hw). assert (in_use e = 1) as Hue by done.
  assert (vfat (put_entry i e v) = vfat v) as Hfat by (unfold put_entry; by rewrite Hue).
  assert (exists s', (if is_data_cluster old then free_cluster_chain_unlocked old else kret tt) s1 = (s', Ok tt) /\
            Rep s' (clear_fat cs (put_entry i e v))) as (s' & Hf & Hr').
  { destruct (is_data_cluster old) eqn:Eo; [apply free_chain_spec; [done|by rewrite Hfat|done]|].
    destruct cs as [|c cs]; [exists s1; split; [done|]; by apply (Rep_fat_ext s1 _ (vfat (clear_fat [] (put_entry i e v))))|].
    pose proof (chain_in_data _ _ _ c Hch ltac:(left)) as Hc. destruct Hch as [Hfc _].
    apply in_data_is_data in Hc. unfold old in Eo. congruence. }
  exists s', (clear_fat cs (put_entry i e v)). split_and!; [done|done|by apply Volume_truncate| | |].
  - rewrite (free_count_clear _ cs old); [rewrite free_count_put; lia|by rewrite Hfat|done].
  - unfold put_entry, set_dir, clear_fat. simpl. by rewrite fn_lookup_insert.
  - apply (handles_kept s s' v _ Hr Hr').
    + unfold put_entry, clear_fat. rewrite Hue. done.
    + intros j Hj Huj. unfold put_entry, set_dir, clear_fat. rewrite Hue. simpl.
      destruct (decide (i = j)) as [<-|Hne]; [by rewrite fn_lookup_insert|by rewrite fn_lookup_insert_ne].
Qed.

(** A new, empty file. *)
Lemma create_empty_spec s v files tbl i nm :
  Rep s v -> Volume v files tbl -> files !! nm = None -> free_slot_of v = Some i -> good_name nm ->
  exists s' id v', (run! write_dir_entry_unlocked i (new_entry nm 0 0) in file_id_unlocked i) s = (s', Ok id) /\
    Rep s' v' /\ Volume v' (<[nm := []]> files) (<[i := []]> tbl) /\ free_count v' = free_count v /\
    handle s' id nm /\ (forall id nm, handle s id nm -> handle s' id nm).
Proof.
  intros Hr Hv Hn Hslot Hg. destruct (free_slot_of_Some _ _ _ _ Hv Hslot) as [Hi Htbl].
  assert (in_use (vdir v i) = 0) as Hfree by (by apply (vol_free _ _ _ Hv)).
  destruct (write_dir_spec s v i (new_entry nm 0 0) Hr Hi (new_entry_ok nm 0 0 Hg ltac:(done) ltac:(done))) as (s' & Hw & Hr').
  rewrite (kbind_Ok _ _ _ _ _ Hw).
  assert (Volume (put_entry i (new_entry nm 0 0) v) (<[nm := []]> files) (<[i := []]> tbl)) as Hv'.
  { apply (Volume_add v files tbl i [] nm 0 0); try done; [apply NoDup_nil_2|].
    intros c Hc. by apply not_elem_of_nil in Hc. }
  destruct (file_id_handle s' _ _ _ i [] Hr' Hv') as (id & Eid & Hh); [by rewrite lookup_insert_eq|].
  exists s', id, (put_entry i (new_entry nm 0 0) v). split_and!; [done|done|done|apply free_count_put| |].
  - unfold put_entry, set_dir in Hh. simpl in Hh. rewrite fn_lookup_insert in Hh. by rewrite entry_name_new in Hh.
  - apply (handles_kept s s' v _ Hr Hr'); [done|]. intros j Hj Huj. unfold put_entry, set_dir. simpl.
    destruct (decide (i = j)) as [<-|Hne]; [congruence|by rewrite fn_lookup_insert_ne].
Qed.

Lemma open_file_spec s files n nm create truncate :
  FS s files n -> good_name nm ->
  match files !! nm with
  | Some d => exists s' id m, open_file_unlocked nm create truncate s = (s', Ok id) /\ handle s' id nm /\
      FS s' (<[nm := if truncate then [] else d]> files) m /\ n <= m /\
      (forall id nm, handle s id nm -> handle s' id nm)
  | None =>
      if create && bool_decide (Z.of_nat (base.size files) < ROOT_DIR_ENTRIES) then
        exists s' id, open_file_unlocked nm create truncate s = (s', Ok id) /\ handle s' id nm /\
          FS s' (<[nm := []]> files) n /\ (forall id nm, handle s id nm -> handle s' id nm)
      else open_file_unlocked nm create truncate s = (s, Err (if create then NoSpace else FileNotFound))
  end.
Proof.
  intros (v & tbl & Hr & Hv & ->) Hg. destruct (boot_spec s v Hr) as [bs Hb]. unfold open_file_unlocked.
  rewrite (kbind_Ok _ _ _ _ _ Hb), (kbind_Ok _ _ _ _ _ (find_spec s v nm Hr (good_name_bad nm Hg))).
  destruct (slot_of v nm) as [i|] eqn:E; cbn [fmap option_fmap option_map].
  - destruct (slot_of_Some _ _ _ _ _ Hv E) as (cs & Hi & Hn).
    pose proof (vol_slot _ _ _ Hv i cs Hi) as Hs. pose proof (so_file _ _ _ _ Hs) as Hf. rewrite Hn in Hf. rewrite Hf.
    destruct (truncate && (negb (size (vdir v i) =? 0) || negb (first_cluster (vdir v i) =? 0))) eqn:Et.
    + apply andb_true_iff in Et as [-> _].
      destruct (truncate_spec s v files tbl i cs Hr Hv Hi) as (s1 & v1 & Ht & Hr1 & Hv1 & Hcnt & Hn1 & Hk).
      rewrite (kbind_Ok _ _ _ _ _ Ht). rewrite Hn in *.
      destruct (file_id_handle s1 v1 _ _ i [] Hr1 Hv1) as (id & Eid & Hh); [by rewrite lookup_insert_eq|].
      exists s1, id, (Z.of_nat (free_count v1)). rewrite Hn1 in Hh. split_and!; [done|done| |lia|done].
      by exists v1, (<[i := []]> tbl).
    + rewrite (kbind_Ok _ _ s s tt) by done.
      destruct (file_id_handle s v files tbl i cs Hr Hv Hi) as (id & Eid & Hh). rewrite Hn in Hh.
      exists s, id, (Z.of_nat (free_count v)). split_and!; [done|done| |lia|done].
      exists v, tbl. split_and!; [done| |done]. rewrite insert_id; [done|]. rewrite Hf. f_equal.
      destruct truncate; [|done]. cbn [andb] in Et. apply orb_false_iff in Et as [Es _].
      apply negb_false_iff, Z.eqb_eq in Es. unfold contents. by rewrite Es.
  - rewrite (slot_of_None _ _ _ _ Hv E). destruct create; [|done]. cbn [andb].
    rewrite (kbind_Ok _ _ _ _ _ (free_slot_spec s v Hr)). pose proof (free_slot_of_room v files tbl Hv) as Hroom.
    destruct (free_slot_of v) as [i|] eqn:Ef.
    + rewrite bool_decide_true by (apply Hroom; by eexists). rewrite (kbind_Ok _ _ s s i) by done.
      destruct (create_empty_spec s v files tbl i nm Hr Hv (slot_of_None _ _ _ _ Hv E) Ef Hg)
        as (s' & id & v' & Ec & Hr' & Hv' & Hcnt & Hh & Hk).
      exists s', id. split_and!; [done|done| |done]. exists v', (<[i := []]> tbl). by rewrite Hcnt.
    + rewrite bool_decide_false; [done|]. intros Hlt. apply Hroom in Hlt as [? ?]. done.
Qed.

End open.
