(* ===== verification/FatList.v ===== *)
(** The directory listing. *)

From S2P Require Import Prelude Utf8 BlockDev Fat FatRep FatChain FatFile FatSpec.
Open Scope kmonad_scope.

(** [PublicFileEntry]; the name is a string, as its bytes. *)
Record PublicFileEntry : Type := mk_public { pname : list Z; psize : Z; pfirst : Z }.

Definition public (e : FatDirEntry) : PublicFileEntry :=
  mk_public (Utf8.from_utf8_lossy (entry_name e)) (size e) (first_cluster e).

Section list.
Context {D : Type} `{BlockDevice D}.
Abbreviation fs := (fs D).

Fixpoint list_scan (indexes : list Z) (files : list PublicFileEntry) : M fs (list PublicFileEntry) :=
  match indexes with
  | [] => kret files
  | i :: indexes =>
      let! entry := read_dir_entry_unlocked i in
      list_scan indexes (if in_use entry =? 1 then files ++ [public entry] else files)
  end.

Definition list_files_unlocked : M fs (list PublicFileEntry) :=
  run! read_boot_sector_unlocked in
  list_scan dir_indexes [].
End list.

Section proofs.
Context {D : Type} `{RD : ReliableDevice D}.
Abbreviation fs := (fs D).
Implicit Types (s : fs) (v : vol) (files : gmap (list Z) (list Z)) (tbl : gmap Z (list Z)).

Definition used v (i : Z) : option PublicFileEntry :=
  if in_use (vdir v i) =? 1 then Some (public (vdir v i)) else None.

Lemma list_scan_spec s v l acc :
  Rep s v -> (forall i, i ∈ l -> in_dir i) -> list_scan l acc s = (s, Ok (acc ++ omap (used v) l)).
Proof.
  intros Hr. revert acc. induction l as [|i l IH]; intros acc Hin; [by rewrite app_nil_r|].
  cbn [list_scan omap list_omap]. rewrite (kbind_Ok _ _ _ _ _ (read_dir_spec s v i Hr (Hin i ltac:(left)))).
  rewrite IH by (intros; apply Hin; by right). unfold used. destruct (in_use (vdir v i) =? 1); [|done].
  by rewrite <- app_assoc.
Qed.

Lemma list_scan_all s v l :
  Rep s v -> (forall i, i ∈ l -> in_dir i) -> list_scan l [] s = (s, Ok (omap (used v) l)).
Proof. intros Hr Hin. apply (list_scan_spec s v l [] Hr Hin). Qed.

(** A file as it is listed. *)
Definition listed (f : list Z * list Z) : list Z * Z := (f.1, zlen f.2).

Lemma NoDup_omap_used v files tbl (l : list Z) :
  Volume v files tbl -> (forall nm, is_Some (files !! nm) -> Utf8.from_utf8 nm = true) ->
  NoDup l -> (forall i, i ∈ l -> in_dir i) ->
  NoDup ((fun f => (pname f, psize f)) <$> omap (used v) l) /\
  (forall x, x ∈ (fun f => (pname f, psize f)) <$> omap (used v) l ->
     exists i cs, i ∈ l /\ tbl !! i = Some cs /\ x = (entry_name (vdir v i), size (vdir v i))).
Proof.
  intros Hv Hu Hnd Hin.
  assert (forall i, in_dir i -> in_use (vdir v i) = 1 -> exists cs, tbl !! i = Some cs /\
            public (vdir v i) = mk_public (entry_name (vdir v i)) (size (vdir v i)) (first_cluster (vdir v i))) as Hp.
  { intros i Hi Hus. destruct (tbl !! i) as [cs|] eqn:E; [|rewrite (vol_free _ _ _ Hv i Hi E) in Hus; lia].
    exists cs. split; [done|]. unfold public. rewrite Utf8.from_utf8_lossy_valid; [done|]. apply Hu.
    eexists. apply (vol_slot _ _ _ Hv i cs E). }
  induction Hnd as [|i l Hi Hnd IH]; [split; [apply NoDup_nil_2|intros x Hx; by apply not_elem_of_nil in Hx]|].
  destruct IH as [IH1 IH2]; [intros; apply Hin; by right|]. cbn [omap list_omap].
  destruct (used v i) as [f|] eqn:Ef; unfold used in Ef;
    (destruct (Z.eqb_spec (in_use (vdir v i)) 1) as [Hus|Hus]; [|try done]); try done; cycle 1.
  { split; [done|]. intros x Hx. destruct (IH2 x Hx) as (j & cs & ? & ? & ?). exists j, cs. split_and!; [by right|done|done]. }
  injection Ef as <-. destruct (Hp i (Hin i ltac:(left)) Hus) as (cs & Hcs & ->). cbn [fmap list_fmap pname psize]. split.
  - apply NoDup_cons. split; [|done]. intros Hx. destruct (IH2 _ Hx) as (j & cs' & Hj & Hcs' & [= E1 _]).
    assert (i = j) as -> by (by apply (vol_inj _ _ _ Hv i j cs cs')). done.
  - intros x [->|Hx]%elem_of_cons; [exists i, cs; by split_and!; [left|..]|].
    destruct (IH2 x Hx) as (j & cs' & ? & ? & ?). exists j, cs'. split_and!; [by right|done|done].
Qed.

Lemma slot_listed s v files tbl i cs :
  Rep s v -> Volume v files tbl -> tbl !! i = Some cs ->
  exists d, files !! entry_name (vdir v i) = Some d /\ zlen d = size (vdir v i).
Proof.
  intros Hr Hv Hi. pose proof (vol_slot _ _ _ Hv i cs Hi) as Hs. eexists. split; [apply Hs|].
  pose proof (ok_size _ (vol_entry _ _ _ Hv i (so_dir _ _ _ _ Hs))). pose proof (so_size _ _ _ _ Hs) as Hle.
  assert (zlen (concat (vdata v <$> cs)) = CLUSTER_BYTES * zlen cs) as Hz; [|unfold contents, zlen in *; rewrite length_take; lia].
  assert (forall c, c ∈ cs -> zlen (vdata v c) = CLUSTER_BYTES) as Hc.
  { intros c Hc. apply (data_shape s v c Hr). by apply (chain_in_data _ _ _ _ (so_chain _ _ _ _ Hs)). }
  clear - Hc. induction cs as [|c cs IH]; [done|]. change (concat (vdata v <$> c :: cs)) with (vdata v c ++ concat (vdata v <$> cs)).
  rewrite zlen_app, IH, Hc; [unfold zlen; simpl; lia|left|intros; apply Hc; by right].
Qed.

Lemma list_files_spec s files n :
  FS s files n -> (forall nm, is_Some (files !! nm) -> Utf8.from_utf8 nm = true) ->
  exists l, list_files_unlocked s = (s, Ok l) /\
    ((fun f => (pname f, psize f)) <$> l) ≡ₚ listed <$> map_to_list files.
Proof.
  intros (v & tbl & Hr & Hv & _) Hu. destruct (boot_spec s v Hr) as [bs Hb]. unfold list_files_unlocked.
  rewrite (kbind_Ok _ _ _ _ _ Hb). assert (forall i, i ∈ dir_indexes -> in_dir i) as Hin by (intros i; apply elem_of_dir_indexes).
  exists (omap (used v) dir_indexes). split; [exact (list_scan_all s v dir_indexes Hr Hin)|].
  destruct (NoDup_omap_used v files tbl dir_indexes Hv Hu (NoDup_seqZ _ _) Hin) as [Hnd Hel].
  apply NoDup_Permutation; [done| |].
  - apply (NoDup_fmap_1 fst). rewrite <- list_fmap_compose. apply NoDup_fst_map_to_list.
  - intros x. split.
    + intros Hx. destruct (Hel x Hx) as (i & cs & Hi & Hcs & ->). destruct (slot_listed s v files tbl i cs Hr Hv Hcs) as (d & Hd & Hz).
      apply list_elem_of_fmap. exists (entry_name (vdir v i), d). split; [unfold listed; simpl; by rewrite Hz|].
      by apply elem_of_map_to_list.
    + intros ([nm d] & -> & Hd)%list_elem_of_fmap. apply elem_of_map_to_list in Hd.
      destruct (vol_files _ _ _ Hv nm d Hd) as (i & cs & Hcs & Hn). pose proof (vol_slot _ _ _ Hv i cs Hcs) as Hs.
      destruct (slot_listed s v files tbl i cs Hr Hv Hcs) as (d' & Hd' & Hz). rewrite Hn, Hd in Hd'. injection Hd' as <-.
      apply list_elem_of_fmap. exists (public (vdir v i)). split.
      * unfold listed, public. simpl. rewrite Hn, Utf8.from_utf8_lossy_valid by (apply Hu; by eexists). by rewrite Hz.
      * apply list_elem_of_omap. exists i. split; [apply elem_of_dir_indexes; apply Hs|]. unfold used.
        by rewrite (so_use _ _ _ _ Hs).
Qed.
End proofs.
