(* ===== verification/FatApi.v ===== *)
(** The public functions of src/src/fs.rs: each runs its unlocked version
    under [FS_LOCK], so it is one atomic step of the file system. *)

From S2P Require Import Prelude BlockDev Fat FatList.

Open Scope kmonad_scope.

Section api.
Context {D : Type} `{BlockDevice D}.
Abbreviation fs := (fs D).

Definition read_block (lba : Z) : M fs (list Z) := read_block_unlocked lba.
Definition write_block (lba : Z) (buffer : list Z) : M fs unit := write_block_unlocked lba buffer.
Definition read_blocks (lba count : Z) : M fs (list Z) := read_blocks_unlocked lba count.
Definition write_blocks (lba count : Z) (buffer : list Z) : M fs unit := write_blocks_unlocked lba count buffer.

Definition format : M fs unit := format_unlocked.
Definition create_file (name data : list Z) : M fs unit := create_file_unlocked name data.
Definition read_file (name : list Z) : M fs (list Z) := read_file_unlocked name.
Definition delete_file (name : list Z) : M fs unit := delete_file_unlocked name.
Definition list_files : M fs (list PublicFileEntry) := list_files_unlocked.
Definition open_file (name : list Z) (create truncate : bool) : M fs FileId := open_file_unlocked name create truncate.
Definition read_at (id : FileId) (offset : Z) (buf : list Z) : M fs (Z * list Z) := read_at_unlocked id offset buf.
Definition write_at (id : FileId) (offset : option Z) (data : list Z) : M fs (Z * Z) := write_at_unlocked id offset data.
Definition file_size (id : FileId) : M fs Z := file_size_unlocked id.

Definition read_boot_sector : M fs BootSector := read_boot_sector_unlocked.
Definition write_boot_sector (bs : BootSector) : M fs unit := write_boot_sector_unlocked bs.
Definition read_fat_entry (cluster : Z) : M fs Z := read_fat_entry_unlocked cluster.
Definition write_fat_entry (cluster value : Z) : M fs unit := write_fat_entry_unlocked cluster value.
Definition read_dir_entry (index : Z) : M fs FatDirEntry := read_dir_entry_unlocked index.
Definition write_dir_entry (index : Z) (entry : FatDirEntry) : M fs unit := write_dir_entry_unlocked index entry.
Definition find_file (name : list Z) : M fs (option (Z * FatDirEntry)) := find_file_unlocked name.

(** ** A disk that holds bytes *)

Definition disk_bytes (s : fs) : Prop := forall lba count l, dev_read (dev s) lba count = Ok l -> bytes_ok l.

(** [m] changes nothing. *)
Definition reads {A} (m : M fs A) : Prop := forall s, (m s).1 = s.

Lemma reads_bind {A B} (m : M fs A) (k : A -> M fs B) : reads m -> (forall a, reads (k a)) -> reads (kbind m k).
Proof.
  intros Hm Hk s. specialize (Hm s). unfold kbind. destruct (m s) as [s1 [a|e| |]]; simpl in Hm; subst; try done. apply Hk.
Qed.

Lemma reads_blocks lba count : reads (read_blocks_unlocked lba count).
Proof. intros s. unfold read_blocks_unlocked. by destruct (count =? 0). Qed.

Lemma reads_fat_entry cluster : reads (read_fat_entry_unlocked cluster).
Proof.
  unfold read_fat_entry_unlocked. destruct (_ <=? _); [done|]. apply reads_bind; [apply reads_blocks|done].
Qed.

Lemma reads_find name : reads (find_file_unlocked name).
Proof.
  unfold find_file_unlocked. destruct (bad_name name); [done|]. generalize dir_indexes as l.
  induction l as [|i l IH]; [done|]. cbn [find_scan]. apply reads_bind.
  - unfold read_dir_entry_unlocked. destruct (_ <=? _); [done|]. apply reads_bind; [apply reads_blocks|done].
  - intros e. destruct (_ && _); [done|apply IH].
Qed.

Lemma read_loop_bytes fuel sz current written result s s' l :
  disk_bytes s -> bytes_ok result -> read_loop fuel sz current written result s = (s', Ok l) -> bytes_ok l.
Proof.
  revert current written result. induction fuel as [|fuel IH]; intros current written result Hd Hr; cbn [read_loop]; [done|].
  destruct (_ && _); [|by intros [= _ <-]]. intros Hrun.
  apply kbind_inv_Ok in Hrun as (buf & s1 & H1 & Hrun). apply kbind_inv_Ok in Hrun as (next & s2 & H2 & Hrun).
  pose proof (reads_blocks (cluster_to_lba current) SECTORS_PER_CLUSTER s) as E1. rewrite H1 in E1.
  pose proof (reads_fat_entry current s1) as E2. rewrite H2 in E2. simpl in E1, E2. subst s1 s2.
  revert Hrun. apply IH; [done|]. apply splice_ok; [|done]. apply slice_ok.
  unfold read_blocks_unlocked in H1. destruct (_ =? 0); [done|]. injection H1 as H1. by apply Hd in H1.
Qed.

Lemma read_file_bytes name s s' l : disk_bytes s -> read_file name s = (s', Ok l) -> bytes_ok l.
Proof.
  intros Hd Hrun. unfold read_file, read_file_unlocked in Hrun.
  apply kbind_inv_Ok in Hrun as (found & s1 & H1 & Hrun).
  pose proof (reads_find name s) as E1. rewrite H1 in E1. simpl in E1. subst s1.
  destruct found as [[i e]|]; [|done]. cbn in Hrun. destruct (_ =? 0); [by injection Hrun as _ <-; constructor|].
  revert Hrun. apply read_loop_bytes; [done|apply zeros_ok].
Qed.

(** Reading into a buffer keeps its length, whatever the disk holds. *)
Lemma read_at_loop_len fuel len cluster within done buf s s' n buf' :
  0 <= done <= len -> 0 <= within <= CLUSTER_BYTES -> len <= zlen buf ->
  read_at_loop fuel len cluster within done buf s = (s', Ok (n, buf')) -> zlen buf' = zlen buf.
Proof.
  revert cluster within done buf s. induction fuel as [|fuel IH]; intros cluster within done buf s Hd Hw Hl; cbn [read_at_loop]; [easy|].
  destruct (Z.ltb_spec done len) as [Hlt|]; [|by intros [= _ _ <-]]. destruct (negb _); [easy|]. intros Hrun.
  apply kbind_inv_Ok in Hrun as (cb & s1 & _ & Hrun). apply kbind_inv_Ok in Hrun as (next & s2 & _ & Hrun).
  set (k := Z.min (CLUSTER_BYTES - within) (len - done)) in *.
  assert (0 <= k <= len - done) as Hk by (unfold k; lia).
  assert (zlen (slice within (within + k) cb) <= k) as Hs.
  { clear Hrun. unfold slice, zlen. rewrite length_take. lia. }
  pose proof (zlen_nonneg (slice within (within + k) cb)) as Hs0.
  assert (0 <= CLUSTER_BYTES) as HC by done.
  assert (zlen (splice done (slice within (within + k) cb) buf) = zlen buf) as Hb by (apply zlen_splice; lia).
  rewrite <- Hb. revert Hrun. apply IH; [lia|lia|]. rewrite Hb. lia.
Qed.

Lemma read_at_len id off buf s s' n buf' : read_at id off buf s = (s', Ok (n, buf')) -> zlen buf' = zlen buf.
Proof.
  unfold read_at, read_at_unlocked. intros Hrun. apply kbind_inv_Ok in Hrun as (e & s1 & _ & Hrun).
  destruct (Z.leb_spec (size e) off); [by injection Hrun as _ _ <-|].
  destruct (zlen buf =? 0); [by injection Hrun as _ _ <-|]. cbn [orb] in Hrun.
  apply kbind_inv_Ok in Hrun as ([pr cl] & s2 & _ & Hrun). pose proof (zlen_nonneg buf).
  pose proof (Z.mod_pos_bound off CLUSTER_BYTES ltac:(done)).
  revert Hrun. apply read_at_loop_len; lia.
Qed.
End api.
