(* ===== verification/FatStale.v ===== *)
(** Handles on files that are gone stay refused.

    Removing a file advances the generation of its directory slot, and every
    operation of the file system advances a generation by at most one.  So a
    handle of the old generation is refused until the counter has gone round,
    whoever uses the slot in the meantime. *)

From S2P Require Import Prelude BlockDev Fat FatRep FatChain FatFile FatSpec FatOps FatFormat FatHandle FatOpen FatList FatApi.
Open Scope kmonad_scope.

Definition next_gen (g : Z) : Z := u32 (g + 1).

Lemma iter_next_gen k g : Nat.iter (S k) next_gen g = u32 (g + Z.of_nat (S k)).
Proof.
  induction k as [|k IH]; [done|]. change (next_gen (Nat.iter (S k) next_gen g) = u32 (g + Z.of_nat (S (S k)))).
  rewrite IH. unfold next_gen, u32. rewrite Zplus_mod_idemp_l. f_equal. lia.
Qed.

(** The counter comes back to a generation only after [2 ^ 32] steps. *)
Lemma iter_next_gen_ne k g : Z.of_nat (S k) < 2 ^ 32 -> Nat.iter (S k) next_gen g <> g.
Proof.
  intros Hk. rewrite iter_next_gen. unfold u32. intros E.
  pose proof (Z.mod_pos_bound (g + Z.of_nat (S k)) (2 ^ 32) ltac:(lia)). dlia.
Qed.

Section ages.
Context {D : Type} `{BlockDevice D}.
Abbreviation fs := (fs D).

(** ** How far an operation advances the generation of one slot *)

Context (i : nat).

Definition aged (n : nat) (l l' : list Z) : Prop :=
  forall g, l !! i = Some g -> exists k, (k <= n)%nat /\ l' !! i = Some (Nat.iter k next_gen g).

Lemma aged_refl n l : aged n l l.
Proof. intros g Hg. exists 0%nat. split; [lia|done]. Qed.

Lemma aged_trans n1 n2 l1 l2 l3 : aged n1 l1 l2 -> aged n2 l2 l3 -> aged (n1 + n2) l1 l3.
Proof.
  intros H1 H2 g Hg. destruct (H1 g Hg) as (k1 & ? & H1'). destruct (H2 _ H1') as (k2 & ? & ->).
  exists (k2 + k1)%nat. split; [lia|]. by rewrite Nat.iter_add.
Qed.

Lemma aged_weaken n n' l l' : (n <= n')%nat -> aged n l l' -> aged n' l l'.
Proof. intros Hn Ha g Hg. destruct (Ha g Hg) as (k & ? & ?). exists k. split; [lia|done]. Qed.

(** [m] advances it by at most [n], however it ends; [pr] is where the
    generations are in the state. *)
Definition ages {S A} (pr : S -> list Z) (n : nat) (m : M S A) : Prop := forall s, aged n (pr s) (pr (m s).1).

Lemma ages_bind {S A B} (pr : S -> list Z) n1 n2 (m : M S A) (k : A -> M S B) :
  ages pr n1 m -> (forall a, ages pr n2 (k a)) -> ages pr (n1 + n2) (kbind m k).
Proof.
  intros Hm Hk s. specialize (Hm s). unfold kbind. destruct (m s) as [s1 [a|e| |]];
    [|by apply (aged_weaken n1); [lia|]..].
  eapply aged_trans; [exact Hm|apply Hk].
Qed.

Lemma ages_then {S A B} (pr : S -> list Z) n (m : M S A) (k : A -> M S B) :
  ages pr 0 m -> (forall a, ages pr n (k a)) -> ages pr n (kbind m k).
Proof. apply (ages_bind pr 0 n). Qed.

(** What leaves the state alone. *)
Lemma ages_same {S A} (pr : S -> list Z) n (m : M S A) : (forall s, pr (m s).1 = pr s) -> ages pr n m.
Proof. intros Hm s. rewrite Hm. apply aged_refl. Qed.

Lemma ages_ret {S A} (pr : S -> list Z) n (a : A) : ages pr n (kret a).
Proof. by apply ages_same. Qed.
Lemma ages_fail {S A} (pr : S -> list Z) n e : ages pr n (kfail (A := A) e).
Proof. by apply ages_same. Qed.
Lemma ages_hang {S A} (pr : S -> list Z) n : ages pr n (khang (A := A)).
Proof. by apply ages_same. Qed.
Lemma ages_gets {S A} (pr : S -> list Z) n (f : S -> A) : ages pr n (gets f).
Proof. by apply ages_same. Qed.
Lemma ages_ok_or {S A} (pr : S -> list Z) n (o : option A) e : ages pr n (ok_or o e).
Proof. destruct o; [apply ages_ret|apply ages_fail]. Qed.

Abbreviation fs_ages := (ages (gens (D := D))).

Lemma ages_read_blocks n lba count : fs_ages n (read_blocks_unlocked lba count).
Proof. apply ages_same. intros s. unfold read_blocks_unlocked. by destruct (count =? 0). Qed.

Lemma ages_write_blocks n lba count buf : fs_ages n (write_blocks_unlocked lba count buf).
Proof.
  apply ages_same. intros s. unfold write_blocks_unlocked. destruct (count =? 0); [done|].
  by destruct (dev_write _ _ _ _).
Qed.

Lemma ages_file_id n j : fs_ages n (file_id_unlocked j).
Proof. apply ages_same. intros s. unfold file_id_unlocked. by destruct (gens s !! Z.to_nat j). Qed.

Lemma ages_retire j : fs_ages (if decide (Z.to_nat j = i) then 1 else 0) (retire_slot_unlocked j).
Proof.
  intros s. unfold retire_slot_unlocked. destruct (gens s !! Z.to_nat j) as [g|] eqn:E; [|apply aged_refl].
  simpl. intros g' Hg'. case_decide as Hj.
  - exists 1%nat. split; [done|]. subst i. rewrite list_lookup_insert_eq by (by apply lookup_lt_Some in E). by simplify_eq.
  - exists 0%nat. split; [done|]. by rewrite list_lookup_insert_ne.
Qed.

Lemma ages_retire_1 j : fs_ages 1 (retire_slot_unlocked j).
Proof. intros s. eapply aged_weaken; [|apply ages_retire]. case_decide; lia. Qed.

Create HintDb ages.
#[local] Hint Resolve ages_ret ages_fail ages_hang ages_gets ages_ok_or ages_read_blocks ages_write_blocks
  ages_file_id ages_then : ages.
#[local] Hint Unfold read_block_unlocked write_block_unlocked : ages.

Ltac ages := intros; autounfold with ages; first [solve [auto 8 with ages] | apply ages_ret | apply ages_fail | apply ages_hang].

(** ** The operations *)

Lemma ages_read_fat n c : fs_ages n (read_fat_entry_unlocked c).
Proof. unfold read_fat_entry_unlocked. cbn zeta. destruct (_ <=? _); ages. Qed.

Lemma ages_write_fat n c x : fs_ages n (write_fat_entry_unlocked c x).
Proof. unfold write_fat_entry_unlocked. cbn zeta. destruct (_ <=? _); ages. Qed.

Lemma ages_read_dir n j : fs_ages n (read_dir_entry_unlocked j).
Proof. unfold read_dir_entry_unlocked. cbn zeta. destruct (_ <=? _); ages. Qed.

Lemma ages_read_boot n : fs_ages n read_boot_sector_unlocked.
Proof.
  apply ages_then; [ages|]. intros ready. destruct (negb ready); [ages|].
  apply ages_then; [ages|]. intros buf. cbn zeta. destruct (_ =? _); ages.
Qed.

Lemma ages_write_boot n bs : fs_ages n (write_boot_sector_unlocked bs).
Proof. apply ages_then; [ages|]. intros ready. destruct (negb ready); ages. Qed.

#[local] Hint Resolve ages_read_fat ages_write_fat ages_read_dir ages_read_boot ages_write_boot : ages.

(** Only an entry that is not in use retires its slot. *)
Lemma ages_write_dir n j e : (in_use e = 0 -> (1 <= n)%nat) -> fs_ages n (write_dir_entry_unlocked j e).
Proof.
  intros Hn. unfold write_dir_entry_unlocked. cbn zeta. destruct (_ <=? _); [ages|].
  destruct (Z.eqb_spec (in_use e) 0) as [E|E]; [|ages].
  replace n with (1 + (n - 1))%nat by (specialize (Hn E); lia).
  apply ages_bind; [apply ages_retire_1|ages].
Qed.

Lemma ages_find n nm : fs_ages n (find_file_unlocked nm).
Proof.
  unfold find_file_unlocked. destruct (bad_name nm); [ages|].
  induction dir_indexes as [|j l IH]; [ages|]. cbn [find_scan].
  apply ages_then; [ages|]. intros e. destruct (_ && _); [ages|exact IH].
Qed.

Lemma ages_free_slot n : fs_ages n find_free_dir_slot_unlocked.
Proof.
  unfold find_free_dir_slot_unlocked. induction dir_indexes as [|j l IH]; [ages|]. cbn [free_slot_scan].
  apply ages_then; [ages|]. intros e. destruct (_ =? _); [ages|exact IH].
Qed.

Lemma ages_alloc n : fs_ages n alloc_cluster_unlocked.
Proof.
  unfold alloc_cluster_unlocked. induction (seqZ 2 _) as [|c l IH]; [ages|]. cbn [alloc_scan].
  apply ages_then; [ages|]. intros e. destruct (_ =? _); [ages|exact IH].
Qed.

Lemma ages_free n c : fs_ages n (free_cluster_chain_unlocked c).
Proof.
  unfold free_cluster_chain_unlocked. generalize free_fuel. intros fuel. revert c.
  induction fuel as [|fuel IH]; intros c; [ages|]. cbn [free_loop]. destruct (_ || _); [ages|].
  apply ages_then; [ages|]. intros next. apply ages_then; [ages|]. intros _. destruct (_ <=? _); [ages|apply IH].
Qed.

Lemma ages_walk n steps prev c : fs_ages n (walk_chain steps prev c).
Proof.
  revert prev c. induction steps as [|steps IH]; intros prev c; [ages|]. cbn [walk_chain].
  destruct (negb _); ages.
Qed.

#[local] Hint Resolve ages_find ages_free_slot ages_alloc ages_free ages_walk : ages.

Lemma ages_create_loop n data idxs prev first : fs_ages n (create_loop data idxs prev first).
Proof.
  revert prev first. induction idxs as [|j idxs IH]; intros prev first; [ages|]. cbn [create_loop].
  apply ages_then; [|intros c; apply IH]. unfold create_step. apply ages_then; [ages|]. intros c.
  apply ages_then; [destruct prev; ages|]. intros _. cbn zeta. ages.
Qed.

Lemma ages_chain n (b : bool) c : fs_ages n (if b then free_cluster_chain_unlocked c else kret tt).
Proof. destruct b; ages. Qed.

(** The part of [create_file_unlocked] behind the removal of an old file. *)
Lemma ages_create_rest n nm data :
  fs_ages n (let! found := find_free_dir_slot_unlocked in
             let! slot_idx := ok_or found NoSpace in
             let! first := create_data data in
             write_dir_entry_unlocked slot_idx (new_entry nm first (u32 (zlen data)))).
Proof.
  apply ages_then; [ages|]. intros found. apply ages_then; [ages|]. intros j. apply ages_then.
  - unfold create_data. destruct (_ =? 0); [ages|]. apply ages_create_loop.
  - intros first. by apply ages_write_dir.
Qed.

Lemma ages_create nm data : fs_ages 1 (create_file_unlocked nm data).
Proof.
  destruct (bad_name nm) eqn:E; [unfold create_file_unlocked; rewrite E; ages|].
  intros s. rewrite create_file_phases by done. revert s. apply ages_then; [ages|]. intros bs.
  apply (ages_bind _ 1 0); [|intros _; apply ages_create_rest].
  apply ages_then; [ages|]. intros [[j e]|]; [|ages]. apply ages_then; [apply ages_chain|].
  intros _. by apply ages_write_dir.
Qed.

Lemma ages_delete nm : fs_ages 1 (delete_file_unlocked nm).
Proof.
  apply ages_then; [ages|]. intros found. apply ages_then; [ages|]. intros [j e].
  apply ages_then; [apply ages_chain|]. intros _. by apply ages_write_dir.
Qed.

Lemma ages_open nm create truncate : fs_ages 1 (open_file_unlocked nm create truncate).
Proof.
  apply ages_then; [ages|]. intros bs. apply ages_then; [ages|]. intros [[j e]|].
  - apply (ages_bind _ 1 0); [|ages]. destruct (_ && _); [|ages]. cbn zeta.
    apply (ages_bind _ 1 0); [by apply ages_write_dir|intros _; apply ages_chain].
  - destruct create; [|ages]. apply ages_then; [ages|]. intros found. apply ages_then; [ages|]. intros j.
    apply (ages_bind _ 1 0); [by apply ages_write_dir|ages].
Qed.

Lemma ages_open_entry n id : fs_ages n (open_entry_unlocked id).
Proof.
  apply ages_then; [ages|]. intros now. destruct (negb _); [ages|]. apply ages_then; [ages|].
  intros e. destruct (negb _); ages.
Qed.
#[local] Hint Resolve ages_open_entry : ages.

Lemma ages_read_loop n fuel sz c w l : fs_ages n (read_loop fuel sz c w l).
Proof.
  revert c w l. induction fuel as [|fuel IH]; intros c w l; [ages|]. cbn [read_loop]. destruct (_ && _); [|ages].
  cbn zeta. apply ages_then; [ages|]. intros buf. apply ages_then; [ages|]. intros next. apply IH.
Qed.

Lemma ages_read_file n nm : fs_ages n (read_file_unlocked nm).
Proof.
  apply ages_then; [ages|]. intros found. apply ages_then; [ages|]. intros [j e].
  destruct (_ =? 0); [ages|apply ages_read_loop].
Qed.

Lemma ages_read_at_loop n fuel len c w d buf : fs_ages n (read_at_loop fuel len c w d buf).
Proof.
  revert c w d buf. induction fuel as [|fuel IH]; intros c w d buf; [ages|]. cbn [read_at_loop].
  destruct (_ <? _); [|ages]. destruct (negb _); [ages|]. cbn zeta. apply ages_then; [ages|]. intros b.
  apply ages_then; [destruct (_ <? _); ages|]. intros c'. apply IH.
Qed.

Lemma ages_read_at n id off buf : fs_ages n (read_at_unlocked id off buf).
Proof.
  apply ages_then; [ages|]. intros e. cbn zeta. destruct (_ || _); [ages|]. unfold walk_chain_unlocked.
  apply ages_then; [ages|]. intros [p c]. apply ages_read_at_loop.
Qed.

Lemma ages_list n : fs_ages n list_files_unlocked.
Proof.
  apply ages_then; [ages|]. intros bs. generalize (@nil PublicFileEntry). induction dir_indexes as [|j l IH]; intros fl; [ages|].
  cbn [list_scan]. apply ages_then; [ages|]. intros e. apply IH.
Qed.

(** *** Writing *)

Abbreviation w_ages := (ages (fun sw : fs * wstate => gens sw.1)).

Lemma ages_on_fs {A} n (m : M fs A) : fs_ages n m -> w_ages n (on_fs m).
Proof. intros Hm [s w]. specialize (Hm s). unfold on_fs. by destruct (m s). Qed.

Lemma ages_set_w n f : w_ages n (set_w (D := D) f).
Proof. apply ages_same. by intros [s w]. Qed.
#[local] Hint Resolve ages_on_fs ages_set_w : ages.

Lemma ages_write_step n offset fin sz data : w_ages n (write_step offset fin sz data).
Proof.
  apply ages_then; [ages|]. intros w. cbn zeta. apply ages_then.
  { destruct (negb _); [|destruct (_ || _); ages]. apply ages_then; [ages|]. intros c. apply ages_then; [ages|]. intros _.
    apply ages_then; [destruct (_ =? 0); ages|ages]. }
  intros _. apply ages_then; [ages|]. intros w'. cbn zeta. apply ages_then; [ages|]. intros _.
  apply ages_then; [ages|]. intros _. apply ages_then; [ages|]. intros _. destruct (_ <=? _); ages.
Qed.

Lemma ages_write_closure n offset fin sz data : w_ages n (write_closure offset fin sz data).
Proof.
  apply ages_then; [ages|]. intros w. unfold walk_chain_unlocked. apply ages_then; [ages|]. intros [p c].
  apply ages_then; [ages|]. intros _. generalize (Z.to_nat ((fin - w_start w) / CLUSTER_BYTES + 2)). intros fuel.
  induction fuel as [|fuel IH]; [ages|]. cbn [write_loop].
  apply ages_then; [apply ages_write_step|]. intros [|]; [ages|apply IH].
Qed.

Lemma ages_write_at id o data : fs_ages 1 (write_at_unlocked id o data).
Proof.
  apply ages_then; [ages|]. intros e. cbn zeta. destruct (_ =? 0); [ages|]. apply ages_then; [ages|]. intros fin s.
  set (w0 := mk_w _ _ _ _ _ _). set (off := default (size e) o).
  pose proof (ages_write_closure 0 off fin (size e) data (s, w0)) as Hc.
  destruct (write_closure off fin (size e) data (s, w0)) as [[s1 w1] r]. cbn [fst] in Hc.
  change 1%nat with (0 + 1)%nat. apply (aged_trans _ _ _ (gens s1)); [exact Hc|].
  assert (forall m : M fs (Z * Z), (forall s, (m s).1 = s) -> forall e',
    fs_ages 1 (run! write_dir_entry_unlocked (slot id) e' in m)) as Hw.
  { intros m Hm e'. apply (ages_bind _ 1 0); [by apply ages_write_dir|]. intros _. apply ages_same.
    intros s2. by rewrite Hm. }
  destruct r; [apply Hw; done|apply Hw; intros s2; by destruct (_ <? _)|apply aged_refl..].
Qed.

(** *** Formatting *)

Lemma ages_each n (f : Z -> M fs unit) l : (forall j, fs_ages 0 (f j)) -> fs_ages n (each f l).
Proof. intros Hf. induction l as [|j l IH]; [ages|]. cbn [each]. apply ages_then; [apply Hf|by intros _]. Qed.

Lemma ages_retire_all l :
  NoDup l -> Forall (fun j => 0 <= j) l ->
  fs_ages (if decide (Z.of_nat i ∈ l) then 1 else 0) (each retire_slot_unlocked l).
Proof.
  induction l as [|j l IH]; intros Hd Hp; [ages|]. cbn [each]. inversion_clear Hd as [|? ? Hj Hl].
  inversion_clear Hp as [|? ? H0 Hp']. specialize (IH Hl Hp').
  pose proof (ages_bind _ _ _ _ _ (ages_retire j) (fun _ => IH)) as Hb. intros s. eapply aged_weaken; [|apply Hb].
  assert (Z.to_nat j = i -> Z.of_nat i = j) as Hij by lia.
  repeat case_decide; try lia; exfalso; set_solver.
Qed.

Lemma ages_format : fs_ages 1 format_unlocked.
Proof.
  apply ages_then; [ages|]. intros ready. destruct (negb ready); [ages|].
  apply ages_then; [ages|]. intros _. cbn zeta.
  apply ages_then; [apply ages_each; ages|]. intros _.
  apply ages_then; [ages|]. intros _. apply ages_then; [ages|]. intros _.
  apply (ages_bind _ 1 0); [|intros _; apply ages_each; ages]. intros s.
  eapply aged_weaken; [|apply ages_retire_all; [apply NoDup_seqZ|]].
  - case_decide; lia.
  - apply Forall_forall. intros j Hj%elem_of_seqZ. lia.
Qed.

End ages.

(** ** The operations of the file system *)

Inductive fs_op : Type :=
| Format
| CreateFile (name data : list Z)
| ReadFile (name : list Z)
| DeleteFile (name : list Z)
| ListFiles
| OpenFile (name : list Z) (create truncate : bool)
| ReadAt (id : FileId) (offset : Z) (buf : list Z)
| WriteAt (id : FileId) (offset : option Z) (data : list Z)
| FileSize (id : FileId)
| WriteBlocks (lba count : Z) (buffer : list Z)
| WriteBootSector (bs : BootSector)
| WriteFatEntry (cluster value : Z)
| WriteDirEntry (index : Z) (entry : FatDirEntry).

Section stale.
Context {D : Type} `{RD : ReliableDevice D}.
Abbreviation fs := (fs D).
Implicit Types (s : fs) (v : vol) (files : gmap (list Z) (list Z)) (tbl : gmap Z (list Z)).

(** The state an operation leaves, however it ends. *)
Definition run_op (o : fs_op) (s : fs) : fs :=
  match o with
  | Format => (format s).1
  | CreateFile name data => (create_file name data s).1
  | ReadFile name => (read_file name s).1
  | DeleteFile name => (delete_file name s).1
  | ListFiles => (list_files s).1
  | OpenFile name create truncate => (open_file name create truncate s).1
  | ReadAt id offset buf => (read_at id offset buf s).1
  | WriteAt id offset data => (write_at id offset data s).1
  | FileSize id => (file_size id s).1
  | WriteBlocks lba count buffer => (write_blocks lba count buffer s).1
  | WriteBootSector bs => (write_boot_sector bs s).1
  | WriteFatEntry cluster value => (write_fat_entry cluster value s).1
  | WriteDirEntry index entry => (write_dir_entry index entry s).1
  end.

Definition run_ops (l : list fs_op) (s : fs) : fs := foldl (fun s o => run_op o s) s l.

Lemma run_op_aged i o s : aged i 1 (gens s) (gens (run_op o s)).
Proof.
  destruct o; simpl; [apply ages_format|apply ages_create|apply ages_read_file|apply ages_delete|apply ages_list|
    apply ages_open|apply ages_read_at|apply ages_write_at| |apply ages_write_blocks|apply ages_write_boot|
    apply ages_write_fat|by apply ages_write_dir].
  revert s. apply ages_then; [apply ages_open_entry|]. intros e. apply ages_ret.
Qed.

Lemma run_ops_aged i l s : aged i (length l) (gens s) (gens (run_ops l s)).
Proof.
  revert s. induction l as [|o l IH]; intros s; [apply aged_refl|].
  exact (aged_trans i 1 (length l) _ _ _ (run_op_aged i o s) (IH (run_op o s))).
Qed.

Lemma aged_0 i l l' g : aged i 0 l l' -> l !! i = Some g -> l' !! i = Some g.
Proof. intros Ha Hg. destruct (Ha g Hg) as (k & Hk & ->). by replace k with 0%nat by lia. Qed.

(** ** Removing a file retires its slot *)

Lemma slot_of_handle s v files tbl id nm :
  Rep s v -> Volume v files tbl -> handle s id nm ->
  good_name nm /\ slot_of v nm = Some (slot id) /\ exists cs, tbl !! slot id = Some cs.
Proof.
  intros Hr Hv Hh. destruct (handle_slot s v files tbl id nm Hr Hv Hh) as (cs & d & Ht & Hs & Hn & _).
  split_and!; [rewrite <- Hn; apply Hs| |by exists cs].
  destruct (slot_of v nm) as [i|] eqn:E.
  - destruct (slot_of_Some _ _ _ _ _ Hv E) as (cs' & Hi & Hn'). f_equal.
    apply (vol_inj _ _ _ Hv i (slot id) cs' cs); [done|done|congruence].
  - apply (slot_of_None _ _ _ _ Hv) in E. rewrite <- Hn in E. pose proof (so_file _ _ _ _ Hs). congruence.
Qed.

Lemma remove_retires s v files tbl id nm :
  Rep s v -> Volume v files tbl -> handle s id nm ->
  exists s1, (run! (if 2 <=? first_cluster (vdir v (slot id))
                    then free_cluster_chain_unlocked (first_cluster (vdir v (slot id))) else kret tt) in
              write_dir_entry_unlocked (slot id) empty_entry) s = (s1, Ok tt) /\
    gens s1 !! Z.to_nat (slot id) = Some (next_gen (generation id)).
Proof.
  intros Hr Hv Hh. destruct (slot_of_handle s v files tbl id nm Hr Hv Hh) as (_ & _ & cs & Ht).
  destruct (remove_slot_spec s v files tbl (slot id) cs Hr Hv Ht) as (s1 & Hrun & Hr1). exists s1. split; [done|].
  apply (handle_vol s v id nm Hr) in Hh as (_ & Hg & _). rewrite (rep_gens _ _ Hr1).
  unfold put_entry, set_dir, retire, clear_fat. simpl.
  by rewrite nth_lookup, Hg, list_lookup_insert_eq by (by apply lookup_lt_Some in Hg).
Qed.

Lemma delete_retires s files n id nm :
  FS s files n -> handle s id nm ->
  gens (delete_file nm s).1 !! Z.to_nat (slot id) = Some (next_gen (generation id)).
Proof.
  intros (v & tbl & Hr & Hv & _) Hh. destruct (slot_of_handle s v files tbl id nm Hr Hv Hh) as (Hg & Hs & _).
  destruct (remove_retires s v files tbl id nm Hr Hv Hh) as (s1 & Hrun & Hg1).
  unfold delete_file, delete_file_unlocked.
  rewrite (kbind_Ok _ _ _ _ _ (find_spec s v nm Hr (good_name_bad nm Hg))), Hs.
  cbn [fmap option_fmap option_map]. rewrite (kbind_Ok _ _ s s (slot id, vdir v (slot id))) by done. by rewrite Hrun.
Qed.

Lemma create_retires s files n id nm data :
  FS s files n -> handle s id nm ->
  gens (create_file nm data s).1 !! Z.to_nat (slot id) = Some (next_gen (generation id)).
Proof.
  intros (v & tbl & Hr & Hv & _) Hh. destruct (slot_of_handle s v files tbl id nm Hr Hv Hh) as (Hg & Hs & _).
  destruct (remove_retires s v files tbl id nm Hr Hv Hh) as (s1 & Hrun & Hg1).
  unfold create_file. rewrite create_file_phases by (by apply good_name_bad). destruct (boot_spec s v Hr) as [bs Hb].
  rewrite (kbind_Ok _ _ _ _ _ Hb), (kbind_Ok _ _ s s1 tt).
  - eapply aged_0; [apply (ages_create_rest _ 0)|done].
  - unfold remove_old. rewrite (kbind_Ok _ _ _ _ _ (find_spec s v nm Hr (good_name_bad nm Hg))), Hs. exact Hrun.
Qed.

Lemma retire_all_gens l : forall s s' i g,
  NoDup l -> Forall (fun j => 0 <= j) l -> each retire_slot_unlocked l s = (s', Ok tt) -> i ∈ l -> 0 <= i ->
  gens s !! Z.to_nat i = Some g -> gens s' !! Z.to_nat i = Some (next_gen g).
Proof.
  induction l as [|j l IH]; intros s s' i g Hd Hp Hrun Hi H0 Hg; [by apply elem_of_nil in Hi|].
  inversion_clear Hd as [|? ? Hj Hl]. inversion_clear Hp as [|? ? Hj0 Hp'].
  cbn [each] in Hrun. apply kbind_inv_Ok in Hrun as ([] & s1 & H1 & H2).
  destruct (decide (i = j)) as [->|Hne].
  - assert (gens s1 !! Z.to_nat j = Some (next_gen g)) as Hg1.
    { unfold retire_slot_unlocked in H1. rewrite Hg in H1. injection H1 as <-. simpl.
      by rewrite list_lookup_insert_eq by (by apply lookup_lt_Some in Hg). }
    pose proof (ages_retire_all (D := D) (Z.to_nat j) l Hl Hp' s1) as Ha. rewrite Z2Nat.id, decide_False, H2 in Ha by done.
    exact (aged_0 _ _ _ _ Ha Hg1).
  - apply (IH s1 s' i g Hl Hp' H2); [set_solver|done|].
    pose proof (ages_retire (D := D) (Z.to_nat i) j s) as Ha. rewrite H1, decide_False in Ha by lia.
    exact (aged_0 _ _ _ _ Ha Hg).
Qed.

Lemma format_retires s files n id nm :
  FS s files n -> handle s id nm -> gens (format s).1 !! Z.to_nat (slot id) = Some (next_gen (generation id)).
Proof.
  intros (v & tbl & Hr & Hv & _) Hh. apply (handle_vol s v id nm Hr) in Hh as (Hd & Hg & _). rewrite <- (rep_gens _ _ Hr) in Hg.
  destruct (format_spec s (rep_ok _ _ Hr)) as (s' & Hrun & _); [rewrite (rep_gens _ _ Hr); apply Hr|].
  unfold format. rewrite Hrun. cbn [fst]. unfold format_unlocked in Hrun.
  apply kbind_inv_Ok in Hrun as (ready & s0 & [= <- <-] & Hrun). destruct (negb _); [done|]. cbn zeta in Hrun.
  apply kbind_inv_Ok in Hrun as (u1 & s1 & H1 & Hrun). apply kbind_inv_Ok in Hrun as (u2 & s2 & H2 & Hrun).
  apply kbind_inv_Ok in Hrun as (u3 & s3 & H3 & Hrun). apply kbind_inv_Ok in Hrun as (u4 & s4 & H4 & Hrun).
  apply kbind_inv_Ok in Hrun as ([] & s5 & H5 & H6). set (i := Z.to_nat (slot id)) in *.
  assert (forall lo k (b : list Z) s,
    aged i 0 (gens s) (gens (each (fun j => write_block_unlocked (lo + j) b) k s).1)) as Hz.
  { intros lo k b s6. apply (ages_each (D := D)). intros j. apply ages_write_blocks. }
  assert (gens s4 !! i = Some (generation id)) as Hg4.
  { pose proof (ages_write_boot i 0 format_boot s) as A1. pose proof (Hz FAT_START_LBA (seqZ 0 FAT_SECTORS) (zeros BLOCK_SIZE) s1) as A2.
    pose proof (ages_write_fat i 0 0 0xFFF8 s2) as A3. pose proof (ages_write_fat i 0 1 FAT_ENTRY_EOC s3) as A4.
    rewrite H1 in A1. rewrite H2 in A2. rewrite H3 in A3. rewrite H4 in A4. eauto using aged_0. }
  assert (gens s5 !! i = Some (next_gen (generation id))) as Hg5.
  { apply (retire_all_gens (seqZ 0 ROOT_DIR_ENTRIES) s4 s5 (slot id) (generation id)); [apply NoDup_seqZ| |exact H5| | |exact Hg4].
    - apply Forall_forall. intros j Hj%elem_of_seqZ. lia.
    - by apply elem_of_dir_indexes.
    - apply Hd. }
  pose proof (Hz ROOT_DIR_START_LBA (seqZ 0 ROOT_DIR_SECTORS) (zeros BLOCK_SIZE) s5) as A6.
  rewrite H6 in A6. by apply (aged_0 _ _ _ _ A6).
Qed.

(** The operations that end a file: its deletion, a new file of the same name,
    and formatting. *)
Definition removes (nm : list Z) (o : fs_op) : bool :=
  match o with
  | DeleteFile name | CreateFile name _ => bool_decide (name = nm)
  | Format => true
  | _ => false
  end.

(** A handle of an earlier generation is refused before the disk is looked at. *)
Lemma old_generation s id g :
  gens s !! Z.to_nat (slot id) = Some g -> g <> generation id -> open_entry_unlocked id s = (s, Err FileNotFound).
Proof.
  intros Hg Hne. unfold open_entry_unlocked, file_id_unlocked, kbind. rewrite Hg.
  rewrite bool_decide_false; [done|]. intros E. apply Hne. by rewrite <- E.
Qed.

Lemma removed_handle s files n id nm gone later :
  FS s files n -> handle s id nm -> removes nm gone = true -> Z.of_nat (length later) < 2 ^ 32 - 1 ->
  let s' := run_ops (gone :: later) s in open_entry_unlocked id s' = (s', Err FileNotFound).
Proof.
  intros HF Hh Hr Hl s'. assert (gens (run_op gone s) !! Z.to_nat (slot id) = Some (next_gen (generation id))) as Hg.
  { destruct gone; simpl in Hr; try discriminate Hr; try (apply bool_decide_eq_true in Hr as ->); simpl;
      eauto using delete_retires, create_retires, format_retires. }
  destruct (run_ops_aged (Z.to_nat (slot id)) later (run_op gone s) _ Hg) as (k & Hk & Hg').
  apply (old_generation s' id _ Hg'). rewrite Nat.iter_swap.
  apply (iter_next_gen_ne k (generation id)). lia.
Qed.

End stale.
