(* ===== verification/FatTheorems.v ===== *)
(** What the file system promises its callers.

    The theorems of this file are about the operations of Fat on an arbitrary
    reliable device; their witnesses run on the RAM disk. *)

From S2P Require Import Prelude Utf8 BlockDev Fat FatRep FatChain FatFile FatSpec FatOps FatFormat FatHandle FatWrite FatOpen FatList FatApi FatStale.
Import Ram.
Open Scope kmonad_scope.

(** The RAM disk of the diskless shell after [init_ram_disk], and formatted. *)
Definition ram_init : fs ram_disk := mk_fs (Some ∅) (replicate 256 0).
Definition ram_formatted : fs ram_disk := (format_unlocked ram_init).1.

Lemma ram_init_ok : dev_ok (dev ram_init).
Proof. apply map_Forall_empty. Qed.

Lemma ram_formatted_FS : FS ram_formatted ∅ 2037.
Proof.
  destruct (format_spec ram_init ram_init_ok eq_refl) as (s' & Hs & HF).
  unfold ram_formatted. by rewrite Hs.
Qed.

(** The RAM disk with one file, "a", of five bytes. *)
Definition name_a : list Z := [97].
Definition hello : list Z := [104; 101; 108; 108; 111].
Definition ram_one : fs ram_disk := (create_file_unlocked name_a hello ram_formatted).1.

Lemma name_a_good : good_name name_a.
Proof. by apply (bool_decide_unpack _). Qed.
Lemma hello_bytes : bytes_ok hello.
Proof. unfold bytes_ok, is_byte, hello. repeat constructor; lia. Qed.

Lemma ram_one_FS : FS ram_one {[name_a := hello]} 2036.
Proof.
  destruct (create_file_spec ram_formatted ∅ 2037 name_a hello) as (s' & m & _ & Hm & Hc);
    [apply ram_formatted_FS|apply name_a_good|apply hello_bytes|done|].
  rewrite Hm in Hc by done. rewrite !decide_True in Hc by done. destruct Hc as [Hrun HF].
  unfold ram_one. by rewrite Hrun.
Qed.

Section theorems.
Context {D : Type} `{RD : ReliableDevice D}.
Abbreviation fs := (fs D).

(** C1: [create_file_unlocked] on a volume that holds [files] and has [n]
    free clusters, for names of 1 to 21 bytes without a NUL.  The old version of the file is removed first and gives
    back at least the clusters of its contents ([m] clusters are then free).
    If the directory has room and the data fits into [m] clusters, the call
    succeeds and the volume holds the new version, all other files being
    unchanged; otherwise it reports [NoSpace] and the file is gone.  No other
    outcome is possible: the call never panics and always terminates. *)
Theorem create_file_correct (s : fs) files n nm data :
  FS s files n -> good_name nm -> bytes_ok data -> zlen data < 2 ^ 32 ->
  exists s' m, n + default 0 (clusters_needed <$> files !! nm) <= m /\ (files !! nm = None -> m = n) /\
    if decide (Z.of_nat (base.size (delete nm files)) < ROOT_DIR_ENTRIES) then
      if decide (clusters_needed data <= m) then
        create_file_unlocked nm data s = (s', Ok tt) /\
        FS s' (<[nm := data]> files) (m - clusters_needed data)
      else create_file_unlocked nm data s = (s', Err NoSpace) /\ FS s' (delete nm files) 0
    else create_file_unlocked nm data s = (s', Err NoSpace) /\ FS s' (delete nm files) m.
Proof. apply create_file_spec. Qed.

(** C2: [read_file_unlocked], given a name of 1 to 21 bytes without a NUL,
    returns exactly the contents of the file, or [FileNotFound] when there is no
    such file, and changes nothing. *)
Theorem read_file_correct (s : fs) files n nm :
  FS s files n -> good_name nm ->
  read_file_unlocked nm s = (s, match files !! nm with Some d => Ok d | None => Err FileNotFound end).
Proof. apply read_file_spec. Qed.

(** C18: [delete_file_unlocked], given a name of 1 to 21 bytes without a NUL,
    removes exactly the named file and gives back at least the clusters of its contents, or reports [FileNotFound] and
    changes nothing. *)
Theorem delete_file_correct (s : fs) files n nm :
  FS s files n -> good_name nm ->
  match files !! nm with
  | Some d => exists s' m, delete_file_unlocked nm s = (s', Ok tt) /\ FS s' (delete nm files) m /\
                n + clusters_needed d <= m
  | None => delete_file_unlocked nm s = (s, Err FileNotFound)
  end.
Proof. apply delete_file_spec. Qed.

(** [format_unlocked] turns every working device, whatever it holds, into
    a volume without files in which every data cluster is free. *)
Theorem format_correct (s : fs) :
  dev_ok (dev s) -> length (gens s) = 256%nat ->
  exists s', format_unlocked s = (s', Ok tt) /\ FS s' ∅ (max_cluster - 1).
Proof. apply format_spec. Qed.

(** C23: [free_cluster_chain_unlocked] terminates on every FAT, a cyclic or
    corrupt one included, and leaves a device the file system can read. *)
Theorem free_chain_terminates (s : fs) v first :
  Rep s v -> 0 <= first ->
  exists s' v' r, free_cluster_chain_unlocked first s = (s', r) /\ Rep s' v' /\
    (r = Ok tt \/ r = Err InvalidArgument).
Proof.
  intros Hr Hf. apply (free_loop_total _ s v first Hr Hf).
  pose proof (used_count_le v) as Hu. unfold free_fuel. layout. lia.
Qed.

(** C17: [open_file_unlocked] gives a handle on the named file: the file as it
    is, cut to nothing when asked to truncate (its clusters are free again),
    or a new empty file when asked to create and the directory has room.  All
    other files are unchanged, and every handle that was open stays open. *)
Theorem open_file_correct (s : fs) files n nm create truncate :
  FS s files n -> good_name nm ->
  match files !! nm with
  | Some d => exists s' id m, open_file_unlocked nm create truncate s = (s', Ok id) /\ handle s' id nm /\
      FS s' (<[nm := if truncate then [] else d]> files) m /\ n <= m /\
      (forall id nm, handle s id nm -> handle s' id nm)
  | None =>
      if create && bool_decide (Z.of_nat (base.size files) < ROOT_DIR_ENTRIES) then
        exists s' id, open_file_unlocked nm create truncate s = (s', Ok id) /\ handle s' id nm /\
          FS s' (<[nm := []]> files) n /\ (forall id nm, handle s id nm -> handle s' id nm)
      else open_file_unlocked nm create truncate s = (s, Err (if create then NoSpace else FileNotFound))
  end.
Proof. apply open_file_spec. Qed.

(** C16: [read_at_unlocked] through an open handle fills the buffer with the
    bytes of the file from the offset on, as many as there are and fit, leaves
    the rest of the buffer as it was, and changes nothing on the disk. *)
Theorem read_at_correct (s : fs) files n id nm d off buf :
  FS s files n -> handle s id nm -> files !! nm = Some d -> 0 <= off ->
  let k := Z.max 0 (Z.min (zlen buf) (zlen d - off)) in
  read_at_unlocked id off buf s = (s, Ok (k, splice 0 (slice off (off + k) d) buf)).
Proof. apply read_at_spec. Qed.

(** C15: [write_at_unlocked] through an open handle, at an offset or at the end.
    [k] bytes are written, all of them unless the disk is full: the file then
    holds them at the offset, zeros in a gap behind its old end, and its other
    bytes as before.  When not one byte fits the call reports [NoSpace] and
    the contents are unchanged.  No other file changes, and every handle stays
    open. *)
Theorem write_at_correct (s : fs) files n id nm d o data :
  FS s files n -> handle s id nm -> files !! nm = Some d -> bytes_ok data -> 0 < zlen data ->
  let off := default (zlen d) o in
  0 <= off -> off + zlen data <= u32_max ->
  exists s' m k, FS s' (<[nm := if k =? 0 then d else overwrite d off (take (Z.to_nat k) data)]> files) m /\
    0 <= k <= zlen data /\ m <= n /\ (k < zlen data -> m = 0) /\
    (forall id' nm', handle s id' nm' -> handle s' id' nm') /\
    write_at_unlocked id o data s = (s', if k =? 0 then Err NoSpace else Ok (off, k)).
Proof. apply write_at_spec. Qed.

(** C19: once a file has been deleted, replaced by a new file of its name, or
    lost to formatting, every handle that was open on it is refused by reads,
    writes and size queries, which leave the disk alone.  It stays refused
    through up to 2^32 - 2 further operations of the file system, failing ones
    included and whatever becomes of the directory slot; then the 32-bit
    generation of the slot may have come round. *)
Theorem stale_handle_refused (s : fs) files n id nm gone later off buf o data :
  FS s files n -> handle s id nm -> removes nm gone = true -> Z.of_nat (length later) < 2 ^ 32 - 1 ->
  let s' := run_ops (gone :: later) s in
  read_at_unlocked id off buf s' = (s', Err FileNotFound) /\
  write_at_unlocked id o data s' = (s', Err FileNotFound) /\ file_size_unlocked id s' = (s', Err FileNotFound).
Proof.
  intros HF Hh Hr Hl s'. pose proof (removed_handle s files n id nm gone later HF Hh Hr Hl) as Eo. fold s' in Eo.
  unfold read_at_unlocked, write_at_unlocked, file_size_unlocked. by rewrite !(kbind_Err _ _ _ _ _ Eo).
Qed.

(** [list_files_unlocked] lists every file once, with its name and its
    size, and nothing else (names are valid UTF-8, as those of every file
    created through the system calls are). *)
Theorem list_files_correct (s : fs) files n :
  FS s files n -> (forall nm, is_Some (files !! nm) -> Utf8.from_utf8 nm = true) ->
  exists l, list_files_unlocked s = (s, Ok l) /\
    ((fun f => (pname f, psize f)) <$> l) ≡ₚ (fun f => (f.1, zlen f.2)) <$> map_to_list files.
Proof. apply list_files_spec. Qed.
End theorems.

(** A handle on the file "a". *)
Definition id_a : FileId := mk_id 0 1.
Lemma ram_one_handle : handle ram_one id_a name_a.
Proof. unfold handle. split; [layout; simpl; lia|]. vm_compute. done. Qed.

Lemma open_file_correct_witness :
  exists s' id m, open_file_unlocked name_a false true ram_one = (s', Ok id) /\ handle s' id name_a /\
    FS s' (<[name_a := []]> {[name_a := hello]}) m /\ 2036 <= m /\
    (forall id nm, handle ram_one id nm -> handle s' id nm).
Proof. apply (open_file_correct ram_one {[name_a := hello]} 2036 name_a false true ram_one_FS name_a_good). Defined.

Lemma read_at_correct_witness :
  read_at_unlocked id_a 1 (zeros 3) ram_one = (ram_one, Ok (3, [101; 108; 108])).
Proof.
  apply (read_at_correct ram_one {[name_a := hello]} 2036 id_a name_a hello 1 (zeros 3) ram_one_FS ram_one_handle);
    [reflexivity|lia].
Defined.

Lemma write_at_correct_witness :
  exists s' m k, FS s' (<[name_a := if k =? 0 then hello else overwrite hello 7 (take (Z.to_nat k) [33])]> {[name_a := hello]}) m /\
    0 <= k <= 1 /\ m <= 2036 /\ (k < 1 -> m = 0) /\
    (forall id' nm', handle ram_one id' nm' -> handle s' id' nm') /\
    write_at_unlocked id_a (Some 7) [33] ram_one = (s', if k =? 0 then Err NoSpace else Ok (7, k)).
Proof.
  apply (write_at_correct ram_one {[name_a := hello]} 2036 id_a name_a hello (Some 7) [33] ram_one_FS ram_one_handle);
    [reflexivity|repeat constructor; lia|reflexivity|simpl; lia|unfold zlen, u32_max; simpl; lia].
Defined.

(** "a" is deleted and "b" takes its slot: the old handle does not reach it. *)
Definition name_b : list Z := [98].
Definition ram_reused : fs ram_disk := run_ops [DeleteFile name_a; CreateFile name_b hello] ram_one.

Lemma stale_handle_refused_witness :
  (open_file name_b false false ram_reused).2 = Ok (mk_id (slot id_a) 2) /\
  read_at_unlocked id_a 0 (zeros 3) ram_reused = (ram_reused, Err FileNotFound).
Proof.
  split; [vm_compute; reflexivity|].
  apply (stale_handle_refused ram_one {[name_a := hello]} 2036 id_a name_a (DeleteFile name_a) [CreateFile name_b hello]
           0 (zeros 3) None [] ram_one_FS ram_one_handle); reflexivity.
Defined.

Lemma list_files_correct_witness :
  exists l, list_files_unlocked ram_one = (ram_one, Ok l) /\
    ((fun f => (pname f, psize f)) <$> l) ≡ₚ (fun f => (f.1, zlen f.2)) <$> map_to_list {[name_a := hello]}.
Proof.
  apply (list_files_correct ram_one {[name_a := hello]} 2036 ram_one_FS).
  intros nm [d [<- _]%lookup_singleton_Some]. reflexivity.
Defined.

Lemma create_file_correct_witness :
  exists s', create_file_unlocked name_a hello ram_formatted = (s', Ok tt) /\
    FS s' (<[name_a := hello]> ∅) 2036.
Proof.
  destruct (create_file_correct ram_formatted ∅ 2037 name_a hello) as (s' & m & H1 & H2 & H3);
    [apply ram_formatted_FS|apply name_a_good|apply hello_bytes|reflexivity|].
  exists s'. rewrite (H2 eq_refl) in H3. exact H3.
Defined.

Lemma read_file_correct_witness :
  read_file_unlocked name_a ram_one = (ram_one, Ok hello).
Proof. apply (read_file_correct ram_one {[name_a := hello]} 2036 name_a ram_one_FS name_a_good). Defined.

Lemma delete_file_correct_witness :
  exists s' m, delete_file_unlocked name_a ram_one = (s', Ok tt) /\
    FS s' (delete name_a {[name_a := hello]}) m /\ 2036 + clusters_needed hello <= m.
Proof. apply (delete_file_correct ram_one {[name_a := hello]} 2036 name_a ram_one_FS name_a_good). Defined.

Lemma format_correct_witness :
  exists s', format_unlocked ram_init = (s', Ok tt) /\ FS s' ∅ (max_cluster - 1).
Proof. apply (format_correct ram_init); [apply ram_init_ok|reflexivity]. Defined.

(** A FAT in which cluster 2 points to itself. *)
Definition ram_cyclic : fs ram_disk := (write_fat_entry_unlocked 2 2 ram_formatted).1.

Lemma ram_cyclic_Rep : exists v, Rep ram_cyclic v.
Proof.
  destruct ram_formatted_FS as (v & tbl & Hr & _).
  destruct (write_fat_spec ram_formatted v 2 2 Hr) as (s & Hs & Hr'); [layout; lia|done|].
  exists (set_fat 2 2 v). unfold ram_cyclic. by rewrite Hs.
Qed.

Lemma free_chain_terminates_witness :
  exists s' v' r, free_cluster_chain_unlocked 2 ram_cyclic = (s', r) /\ Rep s' v' /\
    (r = Ok tt \/ r = Err InvalidArgument).
Proof.
  destruct ram_cyclic_Rep as [v Hv]. apply (free_chain_terminates ram_cyclic v 2 Hv). lia.
Defined.
