(* ===== verification/KefTool.v ===== *)
(** The host tool that prepares disk images, src/tools/kef-tool/src/main.rs,
    which has its own copy of the file system code.  The image file is a block
    device: [read_block] and [write_block] are its transfers, and an I/O error
    is the device's (a write behind the end of the file, which would extend
    it, is left to the device as well); the kinds of the tool's own errors are
    named by [FsError]
    ([InvalidInput] is [InvalidArgument], [WriteZero] is [NoSpace],
    [InvalidData] is [NotFormatted]).

    Wherever the kernel's operation succeeds the tool does the same to the
    disk, so an image the tool has formatted and filled is one the kernel
    reads. *)

From S2P Require Import Prelude BlockDev Fat FatRep FatChain FatFile FatSpec FatOps FatFormat FatBoot FatTheorems.
Import Ram.
Open Scope kmonad_scope.

Module KefTool.

(** * Layout *)

(** The tool's own constants. *)
Definition SECTORS_PER_CLUSTER : Z := 8.
Definition BLOCK_SIZE : Z := 512.
Definition FAT_SECTORS : Z := 64.
Definition FAT_START_LBA : Z := 1.
Definition ROOT_DIR_SECTORS : Z := 16.
Definition ROOT_DIR_START_LBA : Z := 65.
Definition DATA_START_LBA : Z := 81.
Definition ROOT_DIR_ENTRIES : Z := 256.
Definition FAT_ENTRY_FREE : Z := 0x0000.
Definition FAT_ENTRY_EOC : Z := 0xFFFF.
Definition FAT_ENTRY_RESERVED : Z := 0xFFF0.
Definition FAT_MAGIC : Z := 0x4B41474641543136.

Definition cluster_to_lba (cluster : Z) : Z := DATA_START_LBA + (cluster - 2) * SECTORS_PER_CLUSTER.

(** They are the kernel's. *)
Ltac tool_layout :=
  change SECTORS_PER_CLUSTER with Fat.SECTORS_PER_CLUSTER in *;
  change BLOCK_SIZE with BlockDev.BLOCK_SIZE in *;
  change FAT_SECTORS with Fat.FAT_SECTORS in *;
  change FAT_START_LBA with Fat.FAT_START_LBA in *;
  change ROOT_DIR_SECTORS with Fat.ROOT_DIR_SECTORS in *;
  change ROOT_DIR_START_LBA with Fat.ROOT_DIR_START_LBA in *;
  change DATA_START_LBA with Fat.DATA_START_LBA in *;
  change ROOT_DIR_ENTRIES with Fat.ROOT_DIR_ENTRIES in *;
  change FAT_ENTRY_FREE with Fat.FAT_ENTRY_FREE in *;
  change FAT_ENTRY_EOC with Fat.FAT_ENTRY_EOC in *;
  change FAT_ENTRY_RESERVED with Fat.FAT_ENTRY_RESERVED in *;
  change FAT_MAGIC with Fat.FAT_MAGIC in *;
  change cluster_to_lba with Fat.cluster_to_lba in *;
  layout.

(** * Structures *)

Record BootSector : Type := mkBoot {
  b_magic : Z; b_bytes_per_sector : Z; b_sectors_per_cluster : Z; b_fat_start_lba : Z;
  b_fat_sectors : Z; b_root_dir_start_lba : Z; b_root_dir_sectors : Z; b_data_start_lba : Z;
  b_total_clusters : Z;
}.

Definition boot_from_bytes (b : list Z) : BootSector := {|
  b_magic := le_val (slice 0 8 b);
  b_bytes_per_sector := le_val (slice 8 10 b);
  b_sectors_per_cluster := le_val (slice 10 14 b);
  b_fat_start_lba := le_val (slice 14 18 b);
  b_fat_sectors := le_val (slice 18 22 b);
  b_root_dir_start_lba := le_val (slice 22 26 b);
  b_root_dir_sectors := le_val (slice 26 30 b);
  b_data_start_lba := le_val (slice 30 34 b);
  b_total_clusters := le_val (slice 34 38 b);
|}.

(** The fields at their offsets in 512 zero bytes. *)
Definition boot_to_bytes (bs : BootSector) : list Z :=
  le_bytes 8 (b_magic bs) ++ le_bytes 2 (b_bytes_per_sector bs) ++
  le_bytes 4 (b_sectors_per_cluster bs) ++ le_bytes 4 (b_fat_start_lba bs) ++
  le_bytes 4 (b_fat_sectors bs) ++ le_bytes 4 (b_root_dir_start_lba bs) ++
  le_bytes 4 (b_root_dir_sectors bs) ++ le_bytes 4 (b_data_start_lba bs) ++
  le_bytes 4 (b_total_clusters bs) ++ zeros 474.

Record DirEntry : Type := mkDir { d_name : list Z; d_first_cluster : Z; d_size : Z; d_in_use : Z }.

Definition dir_from_bytes (b : list Z) : DirEntry :=
  mkDir (slice 0 22 b) (le_val (slice 22 24 b)) (le_val (slice 24 28 b)) (byte_at b 28).
Definition dir_to_bytes (e : DirEntry) : list Z :=
  d_name e ++ le_bytes 2 (d_first_cluster e) ++ le_bytes 4 (d_size e) ++ [d_in_use e] ++ zeros 3.

(** [&entry.name[..len]] *)
Definition dir_name (e : DirEntry) : list Z := take (name_len (d_name e)) (d_name e).

Section tool.
Context {D : Type} `{BlockDevice D}.

(** * The disk *)

Definition read_block (lba : Z) : M D (list Z) := fun d => (d, dev_read d lba 1).
Definition write_blocks (lba count : Z) (buf : list Z) : M D unit := fun d => dev_write d lba count buf.
Definition write_block (lba : Z) (buf : list Z) : M D unit := write_blocks lba 1 buf.

(** * The FAT *)

Definition read_fat_entry (cluster : Z) : M D Z :=
  let sector_index := cluster / (BLOCK_SIZE / 2) in
  let entry_index := cluster mod (BLOCK_SIZE / 2) in
  let! buf := read_block (FAT_START_LBA + sector_index) in
  let offset := entry_index * 2 in
  kret (le_val [byte_at buf offset; byte_at buf (offset + 1)]).

Definition write_fat_entry (cluster value : Z) : M D unit :=
  let sector_index := cluster / (BLOCK_SIZE / 2) in
  let entry_index := cluster mod (BLOCK_SIZE / 2) in
  let lba := FAT_START_LBA + sector_index in
  let! buf := read_block lba in
  write_block lba (splice (entry_index * 2) (le_bytes 2 value) buf).

Fixpoint scan_free (clusters : list Z) : M D Z :=
  match clusters with
  | [] => kfail NoSpace
  | cluster :: rest =>
      let! entry := read_fat_entry cluster in
      if entry =? FAT_ENTRY_FREE
      then run! write_fat_entry cluster FAT_ENTRY_EOC in kret cluster
      else scan_free rest
  end.

(** [(2 + total_clusters - 1) as u16]; for a [total_clusters] within 2 of
    [u32::MAX] a build with overflow checks panics here. *)
Definition last_cluster (total_clusters : Z) : Z := u16 (2 + total_clusters - 1).
Definition alloc_cluster (total_clusters : Z) : M D Z :=
  scan_free (seqZ 2 (last_cluster total_clusters - 1)).

(** The loop of [free_cluster_chain].  Every iteration but the last clears the
    entry of a cluster below [FAT_ENTRY_RESERVED], and a cleared entry ends the
    loop, so [chain_fuel] iterations are enough. *)
Fixpoint free_chain (fuel : nat) (current : Z) : M D unit :=
  match fuel with
  | O => khang
  | S fuel =>
      if (current <? 2) || (FAT_ENTRY_RESERVED <=? current) then kret tt else
      let! next := read_fat_entry current in
      run! write_fat_entry current FAT_ENTRY_FREE in
      if FAT_ENTRY_RESERVED <=? next then kret tt else free_chain fuel next
  end.
Definition chain_fuel : nat := Z.to_nat 0x10000.
Definition free_cluster_chain (first : Z) : M D unit := free_chain chain_fuel first.

(** * The directory *)

Definition read_dir_entry (index : Z) : M D DirEntry :=
  let sector := index / 16 in
  let slot := index mod 16 in
  let! buf := read_block (ROOT_DIR_START_LBA + sector) in
  let offset := slot * 32 in
  kret (dir_from_bytes (slice offset (offset + 32) buf)).

Definition write_dir_entry (index : Z) (entry : DirEntry) : M D unit :=
  let sector := index / 16 in
  let slot := index mod 16 in
  let lba := ROOT_DIR_START_LBA + sector in
  let! buf := read_block lba in
  write_block lba (splice (slot * 32) (dir_to_bytes entry) buf).

Fixpoint scan_name (name_bytes : list Z) (indexes : list Z) : M D (option (Z * DirEntry)) :=
  match indexes with
  | [] => kret None
  | i :: rest =>
      let! entry := read_dir_entry i in
      if (d_in_use entry =? 1) && bool_decide (dir_name entry = name_bytes)
      then kret (Some (i, entry)) else scan_name name_bytes rest
  end.

Definition find_file (name_bytes : list Z) : M D (option (Z * DirEntry)) :=
  if (zlen name_bytes =? 0) || (21 <? zlen name_bytes) then kfail InvalidArgument
  else scan_name name_bytes (seqZ 0 ROOT_DIR_ENTRIES).

Fixpoint scan_slot (indexes : list Z) : M D (option Z) :=
  match indexes with
  | [] => kret None
  | i :: rest =>
      let! entry := read_dir_entry i in
      if d_in_use entry =? 0 then kret (Some i) else scan_slot rest
  end.

(** * Files *)

Definition delete_file (name_bytes : list Z) : M D unit :=
  let! found := find_file name_bytes in
  match found with
  | None => kret tt
  | Some (idx, entry) =>
      run! (if 2 <=? d_first_cluster entry then free_cluster_chain (d_first_cluster entry)
            else kret tt) in
      write_dir_entry idx (mkDir (zeros 22) 0 0 0)
  end.

Definition cluster_bytes : Z := SECTORS_PER_CLUSTER * BLOCK_SIZE.

(** The loop over the clusters, lines 294-313. *)
Fixpoint put_clusters (total : Z) (data : list Z) (idxs : list Z) (prev : option Z) (first : Z)
  : M D Z :=
  match idxs with
  | [] => kret first
  | i :: rest =>
      let! c := alloc_cluster total in
      run! (match prev with Some prev => write_fat_entry prev c | None => kret tt end) in
      let src_offset := i * cluster_bytes in
      let src_end := Z.min (src_offset + cluster_bytes) (zlen data) in
      let cluster_buf := splice 0 (slice src_offset src_end data) (zeros cluster_bytes) in
      run! write_blocks (cluster_to_lba c) SECTORS_PER_CLUSTER cluster_buf in
      put_clusters total data rest (Some c) (if i =? 0 then c else first)
  end.

Definition create_file (name_bytes data : list Z) (total : Z) : M D unit :=
  if (zlen name_bytes =? 0) || (21 <? zlen name_bytes) then kfail InvalidArgument else
  run! delete_file name_bytes in
  let! found := scan_slot (seqZ 0 ROOT_DIR_ENTRIES) in
  let! slot_idx := ok_or found NoSpace in
  let! first :=
    (if zlen data =? 0 then kret 0
     else put_clusters total data (seqZ 0 ((zlen data + cluster_bytes - 1) / cluster_bytes)) None 0) in
  write_dir_entry slot_idx (mkDir (splice 0 name_bytes (zeros 22)) first (u32 (zlen data)) 1).

(** * Commands *)

Definition IMAGE_SECTORS : Z := 2097152.

Definition image_boot : BootSector :=
  mkBoot FAT_MAGIC 512 SECTORS_PER_CLUSTER FAT_START_LBA FAT_SECTORS ROOT_DIR_START_LBA
    ROOT_DIR_SECTORS DATA_START_LBA (u32 ((IMAGE_SECTORS - DATA_START_LBA) / SECTORS_PER_CLUSTER)).

(** [for i in l { f(i)? }] *)
Fixpoint for_each (f : Z -> M D unit) (l : list Z) : M D unit :=
  match l with [] => kret tt | x :: l => run! f x in for_each f l end.

Definition format_disk : M D unit :=
  run! write_block 0 (boot_to_bytes image_boot) in
  run! for_each (fun i => write_block (FAT_START_LBA + i) (zeros 512)) (seqZ 0 FAT_SECTORS) in
  run! write_fat_entry 0 0xFFF8 in
  run! write_fat_entry 1 FAT_ENTRY_EOC in
  for_each (fun i => write_block (ROOT_DIR_START_LBA + i) (zeros 512)) (seqZ 0 ROOT_DIR_SECTORS).

(** The command [insert] of [main], after the files have been opened and read. *)
Definition main_insert (name_bytes data : list Z) : M D unit :=
  let! boot_buf := read_block 0 in
  let bs := boot_from_bytes boot_buf in
  if negb (b_magic bs =? FAT_MAGIC) then kfail NotFormatted
  else create_file name_bytes data (b_total_clusters bs).

(** The lines [list_files] prints: name, size and first cluster. *)
Fixpoint list_entries (indexes : list Z) : M D (list (list Z * Z * Z)) :=
  match indexes with
  | [] => kret []
  | i :: rest =>
      let! entry := read_dir_entry i in
      let! l := list_entries rest in
      kret (if d_in_use entry =? 1 then (dir_name entry, d_size entry, d_first_cluster entry) :: l else l)
  end.

Definition list_files : M D (list (list Z * Z * Z)) :=
  let! boot_buf := read_block 0 in
  if negb (b_magic (boot_from_bytes boot_buf) =? FAT_MAGIC) then kfail NotFormatted
  else list_entries (seqZ 0 ROOT_DIR_ENTRIES).

(** * Simulation *)

(** Where the kernel's [mk] succeeds, the tool's [mt] does the same to the disk
    and returns the value [f] makes of the kernel's. *)
Definition sim {A B} (f : A -> B) (mk : M (fs D) A) (mt : M D B) : Prop :=
  forall s s' a, mk s = (s', Ok a) -> mt (dev s) = (dev s', Ok (f a)).

Lemma sim_bind {A B A' B'} (f : A -> B) (g : A' -> B') mk mt k kt :
  sim f mk mt -> (forall a, sim g (k a) (kt (f a))) -> sim g (kbind mk k) (kbind mt kt).
Proof.
  intros Hm Hk s s' a' E. unfold kbind in E. destruct (mk s) as [s1 [a| | |]] eqn:E1; try discriminate.
  rewrite (kbind_Ok _ _ _ _ _ (Hm s s1 a E1)). by apply Hk.
Qed.

Lemma sim_assoc {A B A1 B1} (g : B -> B1) (m : M (fs D) A) (k : A -> M (fs D) A1) h mt :
  sim g (kbind m (fun a => kbind (k a) h)) mt -> sim g (kbind (kbind m k) h) mt.
Proof. intros Hs s s' a. rewrite kbind_assoc. apply Hs. Qed.

Lemma sim_ret {A B} (f : A -> B) a : sim f (kret a) (kret (f a)).
Proof. by intros s s' a' [= <- <-]. Qed.

Lemma sim_fail {A B} (f : A -> B) e m : sim f (kfail e) m.
Proof. by intros s s' a. Qed.

(** A step of the kernel that leaves the disk alone. *)
Lemma sim_skip {A B} (f : A -> B) (m : M (fs D) unit) k kt :
  (forall s s' x, m s = (s', x) -> dev s' = dev s) -> sim f k kt -> sim f (kbind m (fun _ => k)) kt.
Proof.
  intros Hm Hk s s' a E. unfold kbind in E. destruct (m s) as [s1 [[]| | |]] eqn:E1; try discriminate.
  rewrite <- (Hm _ _ _ E1). by apply Hk.
Qed.

Lemma sim_read lba : sim id (read_block_unlocked lba) (read_block lba).
Proof. intros s s' a [= <- E]. unfold read_block. by rewrite E. Qed.

Lemma sim_writes lba n buf :
  n <> 0 -> sim id (write_blocks_unlocked lba n buf) (write_blocks lba n buf).
Proof.
  intros Hn s s' a. unfold write_blocks_unlocked, write_blocks. rewrite (proj2 (Z.eqb_neq _ _)) by done.
  destruct (dev_write (dev s) lba n buf). by intros [= <- ->].
Qed.

Lemma sim_write_block lba buf : sim id (write_block_unlocked lba buf) (write_block lba buf).
Proof. by apply sim_writes. Qed.


Lemma sim_if {A B} (f : A -> B) (b : bool) m1 m2 t1 t2 :
  sim f m1 t1 -> sim f m2 t2 -> sim f (if b then m1 else m2) (if b then t1 else t2).
Proof. by destruct b. Qed.

Lemma sim_read_fat c : sim id (read_fat_entry_unlocked c) (read_fat_entry c).
Proof.
  unfold read_fat_entry_unlocked. cbv zeta. tool_layout. destruct (64 <=? c / 256); [apply sim_fail|].
  apply (sim_bind id); [apply sim_read|]. intros buf. apply (sim_ret id).
Qed.

Lemma sim_write_fat c x : sim id (write_fat_entry_unlocked c x) (write_fat_entry c x).
Proof.
  unfold write_fat_entry_unlocked. cbv zeta. tool_layout. destruct (64 <=? c / 256); [apply sim_fail|].
  apply (sim_bind id); [apply sim_read|]. intros buf. apply sim_write_block.
Qed.

(** The tool may try more clusters than the kernel. *)
Lemma sim_alloc_scan l l' : sim id (alloc_scan l) (scan_free (l ++ l')).
Proof.
  induction l as [|c l IH]; [apply sim_fail|]. cbn [alloc_scan scan_free app].
  apply (sim_bind id); [apply sim_read_fat|]. intros e. apply sim_if; [|apply IH].
  apply (sim_bind id); [apply sim_write_fat|]. intros ?. apply (sim_ret id).
Qed.

Lemma sim_free fuel fuel' c :
  (fuel <= fuel')%nat -> sim id (free_loop fuel c) (free_chain fuel' c).
Proof.
  revert fuel' c. induction fuel as [|fuel IH]; intros fuel' c Hf; [by intros s s' a|].
  destruct fuel' as [|fuel']; [lia|]. cbn [free_loop free_chain].
  apply sim_if; [apply (sim_ret id)|].
  apply (sim_bind id); [apply sim_read_fat|]. intros next.
  apply (sim_bind id); [apply sim_write_fat|]. intros ?.
  apply sim_if; [apply (sim_ret id)|apply IH; lia].
Qed.

Lemma sim_free_chain c : sim id (free_cluster_chain_unlocked c) (free_cluster_chain c).
Proof. apply sim_free. unfold free_fuel, chain_fuel. tool_layout. lia. Qed.

(** The kernel's entry without its reserved bytes. *)
Definition tool_entry (e : FatDirEntry) : DirEntry :=
  mkDir (name e) (first_cluster e) (size e) (in_use e).

Definition tool_found (o : option (Z * FatDirEntry)) : option (Z * DirEntry) :=
  match o with Some (i, e) => Some (i, tool_entry e) | None => None end.

Lemma sim_read_dir i : sim tool_entry (read_dir_entry_unlocked i) (read_dir_entry i).
Proof.
  unfold read_dir_entry_unlocked. destruct (Fat.ROOT_DIR_ENTRIES <=? i); [apply sim_fail|].
  cbv zeta. tool_layout. apply (sim_bind id); [apply sim_read|]. intros buf.
  apply (sim_ret tool_entry (entry_of_bytes _)).
Qed.

Lemma retire_dev i (s s' : fs D) x : retire_slot_unlocked i s = (s', x) -> dev s' = dev s.
Proof. unfold retire_slot_unlocked. by destruct (gens s !! Z.to_nat i); intros [= <- _]. Qed.

Lemma sim_write_dir i e :
  reserved e = zeros 3 -> sim id (write_dir_entry_unlocked i e) (write_dir_entry i (tool_entry e)).
Proof.
  intros Hz. unfold write_dir_entry_unlocked. destruct (Fat.ROOT_DIR_ENTRIES <=? i); [apply sim_fail|].
  apply sim_skip.
  { intros s s' x. destruct (in_use e =? 0); [apply retire_dev|]. by intros [= <- _]. }
  cbv zeta. tool_layout. apply (sim_bind id); [apply sim_read|]. intros buf.
  replace (entry_to_bytes e) with (dir_to_bytes (tool_entry e)); [apply sim_write_block|].
  unfold dir_to_bytes, entry_to_bytes. by rewrite Hz.
Qed.

Lemma sim_find_scan nm l :
  sim tool_found (find_scan nm l) (scan_name nm l).
Proof.
  induction l as [|i l IH]; [apply (sim_ret tool_found None)|]. cbn [find_scan scan_name].
  apply (sim_bind tool_entry); [apply sim_read_dir|]. intros e. apply sim_if; [|done].
  apply (sim_ret tool_found (Some (i, e))).
Qed.

Lemma sim_find nm :
  sim tool_found (find_file_unlocked nm) (find_file nm).
Proof.
  unfold find_file_unlocked, find_file, bad_name. apply sim_if; [apply sim_fail|apply sim_find_scan].
Qed.

Lemma sim_slot l : sim id (free_slot_scan l) (scan_slot l).
Proof.
  induction l as [|i l IH]; [apply (sim_ret id)|]. cbn [free_slot_scan scan_slot].
  apply (sim_bind tool_entry); [apply sim_read_dir|]. intros e. apply sim_if; [|done].
  apply (sim_ret id (Some i)).
Qed.

Lemma sim_remove_old nm : sim id (remove_old nm) (delete_file nm).
Proof.
  unfold remove_old, delete_file. eapply sim_bind; [apply sim_find|].
  intros [[i e]|]; cbn; [|apply (sim_ret id)]. apply (sim_bind id).
  { apply sim_if; [apply sim_free_chain|apply (sim_ret id)]. }
  intros ?. by apply (sim_write_dir i empty_entry).
Qed.

(** * Creating a file *)

Lemma boot_keeps (s s1 : fs D) bs : read_boot_sector_unlocked s = (s1, Ok bs) -> dev s1 = dev s.
Proof.
  unfold read_boot_sector_unlocked, kbind, gets, read_block_unlocked, read_blocks_unlocked. cbn.
  destruct (is_ready (dev s)); cbn; [|done]. destruct (dev_read _ _ _); try done.
  cbn. case_match; [by intros [= <- _]|done].
Qed.

Section create.
Context (total : Z) (enough : max_cluster <= last_cluster total).

Lemma sim_alloc_cluster : sim id alloc_cluster_unlocked (alloc_cluster total).
Proof.
  unfold alloc_cluster_unlocked, alloc_cluster.
  destruct (Z.le_gt_cases max_cluster 1) as [Hs|Hs].
  { rewrite seqZ_nil by lia. apply sim_fail. }
  replace (last_cluster total - 1) with ((max_cluster - 1) + (last_cluster total - max_cluster)) by lia.
  rewrite seqZ_app by lia. apply sim_alloc_scan.
Qed.

Lemma sim_create_loop data l prev first :
  sim id (create_loop data l prev first) (put_clusters total data l prev first).
Proof.
  revert prev first. induction l as [|i l IH]; intros prev first; [apply (sim_ret id)|].
  cbn [create_loop put_clusters]. unfold create_step.
  apply sim_assoc, (sim_bind id); [apply sim_alloc_cluster|]. intros c.
  apply sim_assoc, (sim_bind id); [destruct prev; [apply sim_write_fat|apply (sim_ret id)]|].
  intros ?. apply sim_assoc, (sim_bind id); [by apply sim_writes|]. intros ?. apply IH.
Qed.

Lemma sim_create nm data :
  sim id (create_file_unlocked nm data) (create_file nm data total).
Proof.
  destruct (bad_name nm) eqn:Hb.
  { intros s s' a. unfold create_file_unlocked. by rewrite Hb. }
  unfold create_file. unfold bad_name in Hb. rewrite Hb. intros s s' a.
  rewrite create_file_phases by exact Hb. intros (bs & s1 & Hboot & E)%kbind_inv_Ok.
  rewrite <- (boot_keeps s s1 bs Hboot). clear Hboot. clear s bs.
  revert s1 s' a E.
  apply (sim_bind id); [apply sim_remove_old|]. intros ?.
  apply (sim_bind id); [apply sim_slot|]. intros found.
  apply (sim_bind id); [destruct found; [apply (sim_ret id)|apply sim_fail]|]. intros slot.
  apply (sim_bind id).
  { apply sim_if; [apply (sim_ret id)|]. apply (sim_create_loop data). }
  intros first. by apply (sim_write_dir slot (new_entry nm first (u32 (zlen data)))).
Qed.
End create.

Lemma sim_each (f : Z -> M (fs D) unit) g l :
  (forall i, sim id (f i) (g i)) -> sim id (each f l) (for_each g l).
Proof.
  intros Hf. induction l as [|i l IH]; [apply (sim_ret id)|]. cbn [each for_each].
  apply (sim_bind id); [apply Hf|]. intros ?. apply IH.
Qed.

Lemma retire_all_dev l (s s' : fs D) x : each retire_slot_unlocked l s = (s', x) -> dev s' = dev s.
Proof.
  revert s. induction l as [|i l IH]; intros s; [by intros [= <- _]|]. cbn [each]. unfold kbind.
  destruct (retire_slot_unlocked i s) as [s1 r] eqn:E. apply retire_dev in E. rewrite <- E.
  destruct r; [apply IH|by intros [= <- _]..].
Qed.

(** [format_disk] behind the write of the boot sector. *)
Definition format_tail : M D unit :=
  run! for_each (fun i => write_block (FAT_START_LBA + i) (zeros 512)) (seqZ 0 FAT_SECTORS) in
  run! write_fat_entry 0 0xFFF8 in
  run! write_fat_entry 1 FAT_ENTRY_EOC in
  for_each (fun i => write_block (ROOT_DIR_START_LBA + i) (zeros 512)) (seqZ 0 ROOT_DIR_SECTORS).

Lemma sim_format : sim id format_rest format_tail.
Proof.
  unfold format_rest, format_tail. apply (sim_bind id); [apply sim_each; intros; apply sim_write_block|].
  intros ?. apply (sim_bind id); [apply sim_write_fat|]. intros ?.
  apply (sim_bind id); [apply sim_write_fat|]. intros ?.
  apply sim_skip; [apply retire_all_dev|]. apply sim_each. intros. apply sim_write_block.
Qed.
End tool.

(** * Images *)

Section images.
Context {D : Type} `{RD : ReliableDevice D}.
Implicit Types (d : D) (files : gmap (list Z) (list Z)).

(** A kernel that mounts the image finds [files] and [n] free clusters,
    whatever its slot generations are. *)
Definition Image d files (n : Z) : Prop :=
  forall g, length g = 256%nat -> FS (mk_fs d g) files n.

Lemma FS_image s files n : FS s files n -> Image (dev s) files n.
Proof.
  intros (v & tbl & [] & [He Hfr Hs Hi Hdj Hf] & ->) g Hg.
  exists (mk_vol (vfat v) (vdir v) (vdata v) g), tbl. split; [by split|]. split; [|done].
  split; try done. intros i cs Hc. destruct (Hs i cs Hc). by split.
Qed.

Lemma image_read d files n nm data g :
  Image d files n -> good_name nm -> files !! nm = Some data -> length g = 256%nat ->
  read_file_unlocked nm (mk_fs d g) = (mk_fs d g, Ok data).
Proof. intros Hi Hn Hf Hg. by rewrite (read_file_spec _ files n nm (Hi g Hg) Hn), Hf. Qed.

(** Generations to mount an image with. *)
Definition some_gens : list Z := replicate 256 0.

(** The number of clusters the boot sector of the image records. *)
Definition recorded_clusters d : Z := b_total_clusters (boot_from_bytes (block d 0)).

Lemma main_insert_create d files n nm data :
  Image d files n -> main_insert nm data d = create_file nm data (recorded_clusters d) d.
Proof.
  intros Hi. destruct (Hi some_gens eq_refl) as (v & tbl & Hr & _). pose proof dev_size as Hsz.
  unfold main_insert. rewrite (kbind_Ok _ _ d d (block d 0)).
  - pose proof (rep_boot _ _ Hr) as Hm. cbn in Hm. cbn [boot_from_bytes b_magic]. by rewrite Hm.
  - unfold read_block. rewrite dev_read_ok by (done || lia || apply (rep_ok _ _ Hr)). by rewrite sectors_one.
Qed.

Lemma insert_spec d files n nm data :
  Image d files n -> max_cluster <= last_cluster (recorded_clusters d) ->
  good_name nm -> bytes_ok data -> zlen data < 2 ^ 32 ->
  Z.of_nat (base.size (delete nm files)) < ROOT_DIR_ENTRIES -> clusters_needed data <= n ->
  exists d' m, main_insert nm data d = (d', Ok tt) /\ Image d' (<[nm := data]> files) m /\
    n - clusters_needed data <= m /\ recorded_clusters d' = recorded_clusters d.
Proof.
  intros Hi Hmax Hn Hb Hz Hroom Hfit.
  destruct (create_file_spec (mk_fs d some_gens) files n nm data (Hi some_gens eq_refl) Hn Hb Hz)
    as (s' & m & Hm & _ & Hc).
  assert (0 <= default 0 (clusters_needed <$> files !! nm)) as H0.
  { destruct (files !! nm) as [x|]; simpl; [|lia]. pose proof (zlen_nonneg x).
    unfold clusters_needed. tool_layout. apply Z.div_pos; lia. }
  rewrite !decide_True in Hc by (done || lia). destruct Hc as [Hc HF].
  exists (dev s'), (m - clusters_needed data). rewrite (main_insert_create d files n nm data Hi).
  split; [exact (sim_create _ Hmax nm data _ _ _ Hc)|]. split; [by apply FS_image|].
  split; [lia|]. destruct (Hi some_gens eq_refl) as (v & tbl & Hr & _).
  destruct (kept_create nm data Hn Hb _ _ _ (rep_ok _ _ Hr) Hc) as (_ & Hboot & _).
  unfold recorded_clusters. by rewrite Hboot.
Qed.

Lemma image_boot_write d :
  dev_ok d ->
  exists d', write_block 0 (boot_to_bytes image_boot) d = (d', Ok tt) /\ dev_ok d' /\
    block d' 0 = boot_to_bytes image_boot.
Proof.
  intros Hd. pose proof dev_size as Hsz.
  destruct (write_block_spec (mk_fs d some_gens) 0 (boot_to_bytes image_boot)) as (d' & Hw & Hok & Hb);
    [done|simpl; lia|by vm_compute|apply (bool_decide_unpack _); by vm_compute|].
  exists d'. split; [exact (sim_write_block _ _ _ _ _ Hw)|]. split; [done|]. by rewrite Hb.
Qed.

Lemma format_disk_spec d :
  dev_ok d -> exists d', format_disk d = (d', Ok tt) /\ Image d' ∅ (max_cluster - 1) /\
    recorded_clusters d' = 262133.
Proof.
  intros Hd. destruct (image_boot_write d Hd) as (d1 & Hw & Hok & Hb).
  destruct (format_rest_spec (mk_fs d1 some_gens)) as (s' & Hr & HF); [done| |done|].
  { cbn [dev]. rewrite Hb. by vm_compute. }
  exists (dev s'). split.
  { unfold format_disk. rewrite (kbind_Ok _ _ _ _ _ Hw). exact (sim_format _ _ _ Hr). }
  split; [by apply FS_image|]. destruct (kept_format_rest (mk_fs d1 some_gens) _ _ Hok Hr) as (_ & H0 & _).
  unfold recorded_clusters. rewrite H0. cbn [dev]. rewrite Hb. by vm_compute.
Qed.

(** ** A full FAT *)

Lemma read_fat_ok d c :
  dev_ok d -> 0 <= c < 16384 + 256 -> read_fat_entry c d = (d, Ok (fat_of d c)).
Proof.
  intros Hd Hc. pose proof dev_size as Hsz. unfold read_fat_entry, fat_of. cbv zeta. tool_layout.
  assert (0 <= 1 + c / 256 < TOTAL_SECTORS) as Hl by dlia.
  rewrite (kbind_Ok _ _ d d (block d (1 + c / 256))).
  - rewrite slice2; [done|dlia|]. rewrite block_len by done. tool_layout. dlia.
  - unfold read_block. rewrite dev_read_ok by (done || lia). by rewrite sectors_one.
Qed.

Lemma scan_free_used d l l' :
  dev_ok d -> (forall c, c ∈ l -> in_fat c /\ fat_of d c <> 0) -> scan_free (l ++ l') d = scan_free l' d.
Proof.
  intros Hd. induction l as [|c l IH]; intros Hu; [done|]. cbn [app scan_free].
  destruct (Hu c (list_elem_of_here _ _)) as [Hc Hne]. tool_layout.
  rewrite (kbind_Ok _ _ _ _ _ (read_fat_ok d c Hd ltac:(lia))), (proj2 (Z.eqb_neq _ _) Hne).
  apply IH. intros x Hx. apply Hu. by right.
Qed.

(** Without a free entry in the FAT, where the kernel reports [NoSpace], the
    tool goes on behind it: the first directory slot, when its name starts
    with two zero bytes, passes for the free cluster 16384, and is
    overwritten. *)
Lemma alloc_past_fat d total :
  dev_ok d -> 16384 <= last_cluster total -> (forall c, 2 <= c < 16384 -> fat_of d c <> 0) ->
  slice 0 2 (block d ROOT_DIR_START_LBA) = [0; 0] ->
  exists d', alloc_cluster total d = (d', Ok 16384) /\
    block d' ROOT_DIR_START_LBA = splice 0 [255; 255] (block d ROOT_DIR_START_LBA).
Proof.
  intros Hd Ht Hu Hz. pose proof dev_size as Hsz. unfold alloc_cluster.
  replace (last_cluster total - 1) with (16382 + (last_cluster total - 16383)) by lia.
  rewrite seqZ_app, scan_free_used by
    (done || lia || (intros c Hc%elem_of_seqZ; split; [tool_layout; lia|apply Hu; lia])).
  rewrite seqZ_cons by lia. cbn [scan_free]. change (2 + 16382) with 16384.
  rewrite (kbind_Ok _ _ _ _ _ (read_fat_ok d 16384 Hd ltac:(lia))).
  unfold fat_of. change (Fat.FAT_START_LBA + 16384 / 256) with ROOT_DIR_START_LBA.
  change (16384 mod 256 * 2) with 0. change (0 + 2) with 2. rewrite Hz.
  change (le_val [0; 0] =? FAT_ENTRY_FREE) with true.
  cbn iota. unfold write_fat_entry. cbv zeta.
  change (FAT_START_LBA + 16384 / (BLOCK_SIZE / 2)) with ROOT_DIR_START_LBA.
  change (16384 mod (BLOCK_SIZE / 2) * 2) with 0. change (le_bytes 2 FAT_ENTRY_EOC) with [255; 255].
  assert (0 <= ROOT_DIR_START_LBA < TOTAL_SECTORS) as Hr by (tool_layout; lia).
  pose proof (block_len d _ Hd Hr) as Hlen. tool_layout.
  destruct (write_block_spec (mk_fs d some_gens) 65 (splice 0 [255; 255] (block d 65)))
    as (d' & Hw & _ & Hb); [done|done|rewrite zlen_splice; unfold zlen in *; simpl in *; (done || lia)
    |apply splice_ok; [repeat constructor; unfold is_byte; lia|by apply block_bytes]|].
  exists d'. split; [|by rewrite Hb]. rewrite kbind_assoc.
  rewrite (kbind_Ok _ _ d d (block d 65)).
  - by rewrite (kbind_Ok _ _ _ _ _ (sim_write_block _ _ _ _ _ Hw)).
  - unfold read_block. rewrite dev_read_ok by (done || lia). by rewrite sectors_one.
Qed.

(** ** Building an image *)

(** A run of [kef-tool insert] for each file of the list, in its order. *)
Fixpoint insert_all (l : list (list Z * list Z)) : M D unit :=
  match l with
  | [] => kret tt
  | (nm, data) :: l => run! main_insert nm data in insert_all l
  end.

(** What the image is to hold: later versions replace earlier ones. *)
Fixpoint add_all (l : list (list Z * list Z)) files : gmap (list Z) (list Z) :=
  match l with
  | [] => files
  | (nm, data) :: l => add_all l (<[nm := data]> files)
  end.

Definition clusters_of (l : list (list Z * list Z)) : Z :=
  foldr (fun f => Z.add (clusters_needed f.2)) 0 l.

(** A file the tool can store. *)
Definition storable (f : list Z * list Z) : Prop :=
  good_name f.1 /\ bytes_ok f.2 /\ zlen f.2 < 2 ^ 32.

Lemma clusters_of_nonneg l : 0 <= clusters_of l.
Proof.
  induction l as [|[nm data] l IH]; [done|]. cbn. pose proof (zlen_nonneg data).
  enough (0 <= clusters_needed data) by (unfold clusters_of in *; lia).
  unfold clusters_needed. tool_layout. apply Z.div_pos; lia.
Qed.

Lemma insert_all_spec l d files n :
  Image d files n -> max_cluster <= last_cluster (recorded_clusters d) -> Forall storable l ->
  Z.of_nat (base.size files) + zlen l <= ROOT_DIR_ENTRIES -> clusters_of l <= n ->
  exists d' m, insert_all l d = (d', Ok tt) /\ Image d' (add_all l files) m /\ n - clusters_of l <= m.
Proof.
  intros Hi Hmax Hl. revert d files n Hi Hmax.
  induction Hl as [|[nm data] l (Hn & Hb & Hz) _ IH]; intros d files n Hi Hmax Hroom Hfit.
  { exists d, n. split; [done|]. split; [done|]. cbn. lia. }
  pose proof (clusters_of_nonneg l) as H0. cbn [clusters_of foldr snd] in Hfit. fold (clusters_of l) in Hfit.
  assert (zlen ((nm, data) :: l) = zlen l + 1) as Hlen by (unfold zlen; cbn [length]; lia).
  pose proof (zlen_nonneg l). rewrite Hlen in Hroom.
  assert (base.size (delete nm files) <= base.size files)%nat as Hdel
    by (apply map_subseteq_size, delete_subseteq).
  destruct (insert_spec d files n nm data) as (d1 & m1 & Hr1 & Hi1 & Hm1 & Hrec); try done; try lia.
  destruct (IH d1 (<[nm := data]> files) m1 Hi1) as (d' & m & Hr2 & Hi2 & Hm2).
  - by rewrite Hrec.
  - assert (base.size (<[nm := data]> files) <= S (base.size files))%nat; [|lia].
    rewrite <- insert_delete_eq, map_size_insert_None by apply lookup_delete_eq. lia.
  - lia.
  - exists d', m. cbn [insert_all]. rewrite (kbind_Ok _ _ _ _ _ Hr1). split; [done|]. split; [done|].
    cbn [clusters_of foldr snd]. fold (clusters_of l). lia.
Qed.

(** C20: an image that [kef-tool format] and a run of [kef-tool insert] for
    each of up to 256 files have prepared (with names that [insert] stores
    whole, without a NUL, and contents that fit), on any working disk with the
    clusters for them.  Every run succeeds, and a kernel that mounts the image, with
    whatever slot generations, finds exactly these files, the last version of
    each, and reads back the bytes that were inserted: the two
    implementations of the file system agree on the disk format. *)
Theorem kef_image_correct d l :
  dev_ok d -> Forall storable l -> zlen l <= ROOT_DIR_ENTRIES -> clusters_of l <= max_cluster - 1 ->
  exists d' m, (run! format_disk in insert_all l) d = (d', Ok tt) /\
    forall g, length g = 256%nat ->
      FS (mk_fs d' g) (add_all l ∅) m /\
      forall nm data, good_name nm -> add_all l ∅ !! nm = Some data ->
        read_file_unlocked nm (mk_fs d' g) = (mk_fs d' g, Ok data).
Proof.
  intros Hd Hl Hlen Hfit. destruct (format_disk_spec d Hd) as (d1 & H1 & Hi1 & Hrec).
  destruct (insert_all_spec l d1 ∅ _ Hi1) as (d' & m & H2 & Hi2 & _); try done.
  { rewrite Hrec. destruct max_cluster_range. change (last_cluster 262133) with 65526. lia. }
  exists d', m. rewrite (kbind_Ok _ _ _ _ _ H1). split; [done|]. intros g Hg. split; [by apply Hi2|].
  intros nm data Hn Hf. by apply (image_read d' (add_all l ∅) m).
Qed.
End images.

(** Two versions of the file "a" and a file "b" on a blank disk. *)
Definition three_files : list (list Z * list Z) := [(name_a, [1]); ([98], []); (name_a, hello)].

Lemma kef_image_correct_witness :
  exists d' m, (run! format_disk in insert_all three_files) (dev ram_init) = (d', Ok tt) /\
    forall g, length g = 256%nat ->
      FS (mk_fs d' g) (add_all three_files ∅) m /\
      forall nm data, good_name nm -> add_all three_files ∅ !! nm = Some data ->
        read_file_unlocked nm (mk_fs d' g) = (mk_fs d' g, Ok data).
Proof.
  apply (kef_image_correct (dev ram_init) three_files).
  - apply ram_init_ok.
  - unfold three_files, storable, bytes_ok, is_byte. cbn [fst snd].
    repeat constructor; cbn; try lia; try done;
      first [apply name_a_good | apply (bool_decide_unpack _); vm_compute; done].
  - unfold zlen, ROOT_DIR_ENTRIES. vm_compute. discriminate.
  - vm_compute. discriminate.
Defined.
End KefTool.
