(* ===== verification/Pipe.v ===== *)
(** Anonymous pipes (src/src/pipe.rs).

    [read_check] and [write_check] are the critical sections of the two
    loops; the rest of a call is a sequence of atomic steps: snapshot of the
    event generation, critical section, wakeup or wait, drop of the counted
    end.  [step] interleaves the calls of any number of threads on one pipe.
    The wait and wakeup steps are those of the scheduler
    ([wait_current_until], [wake_waiters] of src/src/process/mod.rs) as far as
    the pipe's key is concerned. *)

From S2P Require Import Prelude.

Definition CAPACITY : Z := 4096.

Record State : Type := mk_state {
  buf : list Z;
  readers : Z;
  writers : Z;
}.

(** [pipe::new] *)
Definition new_state : State := mk_state [] 1 1.

(** * The critical sections *)

Inductive read_outcome : Type :=
| Took (bytes : list Z) (st : State)
| Eof
| Empty.

(** The locked block of [Pipe::read] with a buffer of [n] bytes, [n > 0]. *)
Definition read_check (n : Z) (st : State) : read_outcome :=
  if negb (zlen (buf st) =? 0) then
    let n := Z.min n (zlen (buf st)) in
    Took (slice 0 n (buf st)) (mk_state (drop (Z.to_nat n) (buf st)) (readers st) (writers st))
  else if writers st =? 0 then Eof
  else Empty.

Inductive write_outcome : Type :=
| Broken
| Queued (n : Z) (st : State).

(** The locked block of [Pipe::write]. *)
Definition write_check (data : list Z) (written : Z) (st : State) : write_outcome :=
  if readers st =? 0 then Broken else
  let n := Z.min (CAPACITY - zlen (buf st)) (zlen data - written) in
  Queued n (mk_state (buf st ++ slice written (written + n) data) (readers st) (writers st)).

(** [PipeReader::clone] and [PipeWriter::clone], and the two [Drop]s: the
    flag says whether the last end of its side went away. *)
Definition clone_reader (st : State) : State := mk_state (buf st) (readers st + 1) (writers st).
Definition clone_writer (st : State) : State := mk_state (buf st) (readers st) (writers st + 1).
Definition drop_reader (st : State) : State * bool :=
  (mk_state (buf st) (readers st - 1) (writers st), readers st - 1 =? 0).
Definition drop_writer (st : State) : State * bool :=
  (mk_state (buf st) (readers st) (writers st - 1), writers st - 1 =? 0).

(** * Threads *)

(** Where a thread is. [n] is the length of the caller's buffer, [g] the
    generation it has seen. *)
Inductive pc : Type :=
| Idle
| RSnap (n : Z)
| RCheck (n g : Z)
| RWait (n g : Z)
| RBlocked (n : Z)
| RWake (r : list Z)
| RDrop (r : list Z)
| WSnap (data : list Z) (written : Z)
| WCheck (data : list Z) (written g : Z)
| WWait (data : list Z) (written g : Z)
| WBlocked (data : list Z) (written : Z)
| WWake (data : list Z) (written : Z)
| WDrop (r : res Z)
| DropWake.

(** [held_r] and [held_w] count the ends in descriptor tables; [sent] and
    [got] record the bytes that went through; [wakes] counts the calls of
    [wake_waiters]. *)
Record sys : Type := mk_sys {
  st : State;
  gen : Z;
  held_r : Z;
  held_w : Z;
  threads : list pc;
  sent : list Z;
  got : list Z;
  wakes : Z;
}.

Definition set_st (s : sys) (x : State) (i : nat) (p : pc) : sys :=
  mk_sys x (gen s) (held_r s) (held_w s) (<[i := p]> (threads s)) (sent s) (got s) (wakes s).

(** [wake_waiters]: every thread blocked on the key looks again. *)
Definition wake_pc (p : pc) : pc :=
  match p with
  | RBlocked n => RSnap n
  | WBlocked data w => WSnap data w
  | p => p
  end.

Definition wake (s : sys) (i : nat) (p : pc) : sys :=
  mk_sys (st s) (u64 (gen s + 1)) (held_r s) (held_w s)
    (wake_pc <$> <[i := p]> (threads s)) (sent s) (got s) (wakes s + 1).

(** Start of a read: the descriptor table clones the end; an empty buffer
    returns at once. *)
Definition start_read (n : Z) : pc := if n =? 0 then RDrop [] else RSnap n.

(** The head of the [while] loop of [write]. *)
Definition write_head (data : list Z) (written : Z) : pc :=
  if written <? zlen data then WSnap data written else WDrop (Ok written).

Inductive step (s : sys) : sys -> Prop :=
| step_start_read i n :
    threads s !! i = Some Idle -> 0 < held_r s -> 0 <= n ->
    step s (set_st s (clone_reader (st s)) i (start_read n))
| step_start_write i data :
    threads s !! i = Some Idle -> 0 < held_w s ->
    step s (set_st s (clone_writer (st s)) i (write_head data 0))
| step_dup_reader i :
    threads s !! i = Some Idle -> 0 < held_r s ->
    step s (mk_sys (clone_reader (st s)) (gen s) (held_r s + 1) (held_w s) (threads s) (sent s) (got s) (wakes s))
| step_dup_writer i :
    threads s !! i = Some Idle -> 0 < held_w s ->
    step s (mk_sys (clone_writer (st s)) (gen s) (held_r s) (held_w s + 1) (threads s) (sent s) (got s) (wakes s))
| step_close_reader i x last :
    threads s !! i = Some Idle -> 0 < held_r s -> drop_reader (st s) = (x, last) ->
    step s (mk_sys x (gen s) (held_r s - 1) (held_w s)
              (<[i := if last : bool then DropWake else Idle]> (threads s)) (sent s) (got s) (wakes s))
| step_close_writer i x last :
    threads s !! i = Some Idle -> 0 < held_w s -> drop_writer (st s) = (x, last) ->
    step s (mk_sys x (gen s) (held_r s) (held_w s - 1)
              (<[i := if last : bool then DropWake else Idle]> (threads s)) (sent s) (got s) (wakes s))
| step_read_snap i n :
    threads s !! i = Some (RSnap n) -> step s (set_st s (st s) i (RCheck n (gen s)))
| step_read_took i n g bytes x :
    threads s !! i = Some (RCheck n g) -> read_check n (st s) = Took bytes x ->
    step s (mk_sys x (gen s) (held_r s) (held_w s) (<[i := RWake bytes]> (threads s))
              (sent s) (got s ++ bytes) (wakes s))
| step_read_eof i n g :
    threads s !! i = Some (RCheck n g) -> read_check n (st s) = Eof ->
    step s (set_st s (st s) i (RDrop []))
| step_read_empty i n g :
    threads s !! i = Some (RCheck n g) -> read_check n (st s) = Empty ->
    step s (set_st s (st s) i (RWait n g))
| step_read_wait i n g :
    threads s !! i = Some (RWait n g) ->
    step s (set_st s (st s) i (if gen s =? g then RBlocked n else RSnap n))
| step_read_wake i r :
    threads s !! i = Some (RWake r) -> step s (wake s i (RDrop r))
| step_read_drop i r x last :
    threads s !! i = Some (RDrop r) -> drop_reader (st s) = (x, last) ->
    step s (set_st s x i (if last : bool then DropWake else Idle))
| step_write_snap i data w :
    threads s !! i = Some (WSnap data w) -> step s (set_st s (st s) i (WCheck data w (gen s)))
| step_write_broken i data w g :
    threads s !! i = Some (WCheck data w g) -> write_check data w (st s) = Broken ->
    step s (set_st s (st s) i (WDrop (if 0 <? w then Ok w else Err BrokenPipe)))
| step_write_queued i data w g n x :
    threads s !! i = Some (WCheck data w g) -> write_check data w (st s) = Queued n x ->
    step s (mk_sys x (gen s) (held_r s) (held_w s)
              (<[i := if 0 <? n then WWake data (w + n) else WWait data w g]> (threads s))
              (sent s ++ slice w (w + n) data) (got s) (wakes s))
| step_write_wait i data w g :
    threads s !! i = Some (WWait data w g) ->
    step s (set_st s (st s) i (if gen s =? g then WBlocked data w else WSnap data w))
| step_write_wake i data w :
    threads s !! i = Some (WWake data w) -> step s (wake s i (write_head data w))
| step_write_drop i r x last :
    threads s !! i = Some (WDrop r) -> drop_writer (st s) = (x, last) ->
    step s (set_st s x i (if last : bool then DropWake else Idle))
| step_drop_wake i :
    threads s !! i = Some DropWake -> step s (wake s i Idle).

(** A new pipe with one descriptor for each end and [k] idle threads. *)
Definition init (k : nat) : sys := mk_sys new_state 0 1 1 (replicate k Idle) [] [] 0.

Definition reachable (k : nat) (s : sys) : Prop := rtc step (init k) s.

(** * The invariant *)

Definition in_read (p : pc) : bool :=
  match p with RSnap _ | RCheck _ _ | RWait _ _ | RBlocked _ | RWake _ | RDrop _ => true | _ => false end.
Definition in_write (p : pc) : bool :=
  match p with
  | WSnap _ _ | WCheck _ _ _ | WWait _ _ _ | WBlocked _ _ | WWake _ _ | WDrop _ => true
  | _ => false
  end.

(** A thread that will call [wake_waiters] next. *)
Definition pending (p : pc) : bool :=
  match p with RWake _ | WWake _ _ | DropWake => true | _ => false end.

(** Threads that are blocked, or will block because the generation they saw
    is still the current one. *)
Definition asleep_r (g : Z) (p : pc) : bool :=
  match p with RBlocked _ => true | RWait _ g' => g' =? g | _ => false end.
Definition asleep_w (g : Z) (p : pc) : bool :=
  match p with WBlocked _ _ => true | WWait _ _ g' => g' =? g | _ => false end.

(** What holds of a single thread when [g] wakeups have happened. *)
Definition pc_ok (g : Z) (p : pc) : Prop :=
  match p with
  | RSnap n | RBlocked n => 0 < n
  | RCheck n g' | RWait n g' => 0 < n /\ g' <= g
  | WSnap data w | WBlocked data w => 0 <= w < zlen data
  | WCheck data w g' | WWait data w g' => 0 <= w < zlen data /\ g' <= g
  | WWake data w => 0 < w <= zlen data
  | _ => True
  end.

Record Inv (s : sys) : Prop := {
  inv_cap : zlen (buf (st s)) <= CAPACITY;
  inv_fifo : got s ++ buf (st s) = sent s;
  inv_held : 0 <= held_r s /\ 0 <= held_w s;
  inv_readers : readers (st s) = held_r s + Z.of_nat (count in_read (threads s));
  inv_writers : writers (st s) = held_w s + Z.of_nat (count in_write (threads s));
  inv_gen : gen s = wakes s /\ 0 <= wakes s;
  inv_pcs : Forall (pc_ok (wakes s)) (threads s);
  inv_sleep_r : (0 < count (asleep_r (gen s)) (threads s))%nat ->
    (buf (st s) = [] /\ 0 < writers (st s)) \/ (0 < count pending (threads s))%nat;
  inv_sleep_w : (0 < count (asleep_w (gen s)) (threads s))%nat ->
    (zlen (buf (st s)) = CAPACITY /\ 0 < readers (st s)) \/ (0 < count pending (threads s))%nat;
}.

Lemma ring_init_Inv k : Inv (init k).
Proof.
  assert (forall f, f Idle = false -> count f (replicate k Idle) = 0%nat) as Hc.
  { intros f Hf. apply count_none. by apply Forall_replicate. }
  split; simpl; rewrite ?Hc by done; try done; try lia. by apply Forall_replicate.
Qed.

(** Facts about the thread [i] that moves from [p] to [q]. *)
Lemma thread_move s i p q :
  threads s !! i = Some p ->
  let l := threads s in let l' := <[i := q]> l in
  let b2n (b : bool) := if b then 1%nat else 0%nat in
  (count in_read l' + b2n (in_read p) = count in_read l + b2n (in_read q))%nat /\
  (count in_write l' + b2n (in_write p) = count in_write l + b2n (in_write q))%nat /\
  (count pending l' + b2n (pending p) = count pending l + b2n (pending q))%nat /\
  (count (asleep_r (gen s)) l' + b2n (asleep_r (gen s) p) =
     count (asleep_r (gen s)) l + b2n (asleep_r (gen s) q))%nat /\
  (count (asleep_w (gen s)) l' + b2n (asleep_w (gen s) p) =
     count (asleep_w (gen s)) l + b2n (asleep_w (gen s) q))%nat.
Proof. intros Hi. simpl. split_and!; by apply count_insert. Qed.

Lemma zlen_nil_inv {A} (l : list A) : zlen l = 0 -> l = [].
Proof. destruct l; [done|]. unfold zlen. simpl. lia. Qed.

(** A step of one thread that is no wakeup keeps the invariant if it keeps the
    counts of the ends and, where it ends the reason of a blocked thread to
    wait, leaves a wakeup pending. *)
Lemma move_Inv s i p q x hr hw sent' got' :
  Inv s -> threads s !! i = Some p -> pending p = false ->
  zlen (buf x) <= CAPACITY -> got' ++ buf x = sent' -> 0 <= hr -> 0 <= hw ->
  readers x - hr - (if in_read q then 1 else 0) =
    readers (st s) - held_r s - (if in_read p then 1 else 0) ->
  writers x - hw - (if in_write q then 1 else 0) =
    writers (st s) - held_w s - (if in_write p then 1 else 0) ->
  pc_ok (wakes s) q ->
  pending q = true \/
    ((buf (st s) = [] /\ 0 < writers (st s) -> buf x = [] /\ 0 < writers x) /\
     (zlen (buf (st s)) = CAPACITY /\ 0 < readers (st s) -> zlen (buf x) = CAPACITY /\ 0 < readers x) /\
     (asleep_r (gen s) q = true -> asleep_r (gen s) p = true \/ buf x = [] /\ 0 < writers x) /\
     (asleep_w (gen s) q = true -> asleep_w (gen s) p = true \/ zlen (buf x) = CAPACITY /\ 0 < readers x)) ->
  Inv (mk_sys x (gen s) hr hw (<[i := q]> (threads s)) sent' got' (wakes s)).
Proof.
  intros [Hcap Hfifo Hheld Hr Hw Hg Hpc Hsr Hsw] Hi Hp Hcap' Hfifo' Hhr Hhw Hr' Hw' Hq Hwake.
  pose proof (thread_move s i p q Hi) as (Mr & Mw & Mp & Mar & Maw). cbn zeta beta in *.
  rewrite Hp in Mp. split; simpl; try done.
  - destruct (in_read p), (in_read q); lia.
  - destruct (in_write p), (in_write q); lia.
  - by apply Forall_insert.
  - intros Hc. destruct Hwake as [Hq'|(K1 & _ & K2 & _)]; [rewrite Hq' in Mp; right; lia|].
    destruct (asleep_r (gen s) q) eqn:Eq; cycle 1.
    + destruct Hsr as [?|?]; [destruct (asleep_r (gen s) p); lia|left; auto|right; destruct (pending q); lia].
    + destruct (K2 eq_refl) as [Hap|?]; [|by left]. rewrite Hap in Mar.
      destruct Hsr as [?|?]; [lia|left; auto|right; destruct (pending q); lia].
  - intros Hc. destruct Hwake as [Hq'|(_ & K1 & _ & K2)]; [rewrite Hq' in Mp; right; lia|].
    destruct (asleep_w (gen s) q) eqn:Eq; cycle 1.
    + destruct Hsw as [?|?]; [destruct (asleep_w (gen s) p); lia|left; auto|right; destruct (pending q); lia].
    + destruct (K2 eq_refl) as [Hap|?]; [|by left]. rewrite Hap in Maw.
      destruct Hsw as [?|?]; [lia|left; auto|right; destruct (pending q); lia].
Qed.

(** After a wakeup nobody is asleep. *)
Lemma wake_Inv s i p q :
  Inv s -> threads s !! i = Some p -> wakes s + 1 < 2 ^ 64 ->
  in_read q = in_read p -> in_write q = in_write p ->
  (forall g, asleep_r g q = false /\ asleep_w g q = false) -> pc_ok (wakes s) q ->
  Inv (wake s i q).
Proof.
  intros [Hcap Hfifo Hheld Hr Hw [Hg Hnn] Hpc Hsr Hsw] Hi Hlt Er Ew Hna Hq.
  pose proof (thread_move s i p q Hi) as (Mr & Mw & _). cbn zeta beta in *.
  assert (u64 (gen s + 1) = wakes s + 1) as Hgen by (unfold u64; rewrite Hg; apply Z.mod_small; lia).
  assert (Forall (pc_ok (wakes s)) (<[i := q]> (threads s))) as Hall by (by apply Forall_insert).
  split; simpl; rewrite ?Hgen; try done; try lia.
  - rewrite count_fmap by (by intros []). rewrite Er in Mr. lia.
  - rewrite count_fmap by (by intros []). rewrite Ew in Mw. lia.
  - apply Forall_fmap. eapply Forall_impl; [exact Hall|]. intros []; simpl; lia.
  - rewrite count_none; [lia|]. apply Forall_fmap. eapply Forall_impl; [exact Hall|].
    intros []; simpl; try done. zcase; [lia|done].
  - rewrite count_none; [lia|]. apply Forall_fmap. eapply Forall_impl; [exact Hall|].
    intros []; simpl; try done. zcase; [lia|done].
Qed.

(** ** The critical sections *)

Lemma read_check_took n x bytes y :
  0 < n -> read_check n x = Took bytes y ->
  buf x = bytes ++ buf y /\ readers y = readers x /\ writers y = writers x /\ 0 < zlen bytes <= n.
Proof.
  intros Hn. unfold read_check. destruct (Z.eqb_spec (zlen (buf x)) 0) as [|Hne]; simpl.
  { by destruct (writers x =? 0). }
  intros [= <- <-]. simpl. pose proof (zlen_nonneg (buf x)).
  rewrite zlen_slice by lia. split_and!; [|done..|lia|lia].
  unfold slice. rewrite drop_0, Z.sub_0_r. symmetry. apply take_drop.
Qed.

Lemma read_check_empty n x : read_check n x = Empty -> buf x = [] /\ writers x <> 0.
Proof.
  unfold read_check. destruct (Z.eqb_spec (zlen (buf x)) 0) as [H0|]; [|done]. simpl.
  destruct (Z.eqb_spec (writers x) 0); [done|]. intros _. split; [by apply zlen_nil_inv|done].
Qed.

Lemma write_check_queued data w x n y :
  0 <= w < zlen data -> zlen (buf x) <= CAPACITY -> write_check data w x = Queued n y ->
  buf y = buf x ++ slice w (w + n) data /\ readers y = readers x /\ writers y = writers x /\
  readers x <> 0 /\ 0 <= n <= zlen data - w /\ zlen (buf y) = zlen (buf x) + n /\
  zlen (buf y) <= CAPACITY /\ (n = 0 -> zlen (buf x) = CAPACITY).
Proof.
  intros Hw Hc. unfold write_check. destruct (Z.eqb_spec (readers x) 0) as [|Hne]; [done|].
  intros [= <- <-]. simpl. rewrite zlen_app, zlen_slice by lia. split_and!; try done; lia.
Qed.

(** ** Preservation *)

Ltac one_thread := eapply move_Inv; [eassumption|eassumption|try reflexivity|..].

(** No reason to wait goes away. *)
Ltac calm := right; split_and!; simpl; try done; intros; destruct_and?; split_and?; (done || lia).

Lemma ring_step_Inv s s' : Inv s -> step s s' -> wakes s' < 2 ^ 64 -> Inv s'.
Proof.
  intros HI Hstep Hlt. pose proof HI as [Hcap Hfifo [Hhr Hhw] Hr Hw [Hg Hnn] Hpc _ _].
  assert (forall i p, threads s !! i = Some p -> pc_ok (wakes s) p) as Hok
    by (intros i p Hi; by eapply Forall_lookup_1 in Hpc).
  destruct Hstep; unfold set_st;
    match goal with H : threads s !! ?i = Some ?p |- _ => pose proof (Hok i p H) as Hpok end; simpl in Hpok.
  - one_thread; simpl; try done; unfold start_read; destruct (Z.eqb_spec n 0); simpl; try done; try lia.
    all: calm.
  - one_thread; simpl; try done; unfold write_head; destruct (Z.ltb_spec 0 (zlen data)); simpl; try done; try lia.
    all: calm.
  - replace (threads s) with (<[i := Idle]> (threads s)) by (by apply list_insert_id).
    one_thread; simpl; try done; try lia. calm.
  - replace (threads s) with (<[i := Idle]> (threads s)) by (by apply list_insert_id).
    one_thread; simpl; try done; try lia. calm.
  - unfold drop_reader in *. simplify_eq.
    one_thread; simpl; try done; destruct (Z.eqb_spec (readers (st s) - 1) 0); simpl; try done; try lia.
    calm.
  - unfold drop_writer in *. simplify_eq.
    one_thread; simpl; try done; destruct (Z.eqb_spec (writers (st s) - 1) 0); simpl; try done; try lia.
    calm.
  - one_thread; simpl; try done; try lia. calm.
  - destruct (read_check_took n (st s) bytes x) as (Hb & Hrr & Hww & Hl); [lia|done|].
    rewrite Hb, zlen_app in Hcap. one_thread; simpl; try done; try lia.
    by rewrite <- app_assoc, <- Hb.
  - one_thread; simpl; try done; try lia. calm.
  - destruct (read_check_empty n (st s)) as [Hb Hww]; [done|].
    one_thread; simpl; try done; try lia. right; split_and!; try done.
    right. split; [done|]. lia.
  - one_thread; simpl; try done; destruct (Z.eqb_spec (gen s) g); simpl; try done; try lia.
    all: right; split_and!; try done. subst. left. apply Z.eqb_refl.
  - apply wake_Inv with (RWake r); simpl in *; try done.
  - unfold drop_reader in *. simplify_eq. pose proof (count_elem in_read _ _ _ H eq_refl).
    one_thread; simpl; try done; destruct (Z.eqb_spec (readers (st s) - 1) 0); simpl; try done; try lia.
    calm.
  - one_thread; simpl; try done; try lia. calm.
  - one_thread; simpl; try done; try lia. calm.
  - destruct (write_check_queued data w (st s) n x)
      as (Hb & Hrr & Hww & Hne & Hn & Hl & Hcap' & Hfull); [lia|done|done|].
    one_thread; simpl; try done; try lia.
    + by rewrite Hb, app_assoc, Hfifo.
    + destruct (Z.ltb_spec 0 n); simpl; lia.
    + destruct (Z.ltb_spec 0 n); simpl; lia.
    + destruct (Z.ltb_spec 0 n); simpl; lia.
    + destruct (Z.ltb_spec 0 n); simpl; [by left|]. assert (n = 0) as -> by lia. right.
      split_and!; try done.
      * intros [Hb0 ?]. rewrite Hfull in * by done. rewrite Hb0 in Hfull. by specialize (Hfull eq_refl).
      * rewrite Hrr. intros. split; lia.
      * intros _. right. rewrite Hrr. split; [lia|]. lia.
  - one_thread; simpl; try done; destruct (Z.eqb_spec (gen s) g); simpl; try done; try lia.
    all: right; split_and!; try done. subst. left. apply Z.eqb_refl.
  - apply wake_Inv with (WWake data w); simpl in *; try done;
      unfold write_head; destruct (Z.ltb_spec w (zlen data)); simpl; try done; lia.
  - unfold drop_writer in *. simplify_eq. pose proof (count_elem in_write _ _ _ H eq_refl).
    one_thread; simpl; try done; destruct (Z.eqb_spec (writers (st s) - 1) 0); simpl; try done; try lia.
    calm.
  - apply wake_Inv with DropWake; simpl in *; try done.
Qed.

Lemma step_wakes s s' : step s s' -> wakes s <= wakes s'.
Proof. destruct 1; simpl; lia. Qed.

Lemma ring_reachable_Inv k s : reachable k s -> wakes s < 2 ^ 64 -> Inv s.
Proof.
  intros Hr. pattern s. eapply rtc_ind_r; [| |exact Hr].
  - intros _. apply ring_init_Inv.
  - intros x y _ Hxy IH Hlt. eapply ring_step_Inv; [|exact Hxy|done]. apply IH.
    pose proof (step_wakes _ _ Hxy). lia.
Qed.

(** * Theorems *)

(** C27: A pipe is a bounded queue.  Whatever the interleaving of its readers
    and writers, the bytes read so far followed by the bytes in the ring are
    the bytes written so far, in order, and the ring never exceeds its
    capacity. *)
Theorem pipe_fifo k s :
  reachable k s -> wakes s < 2 ^ 64 -> got s ++ buf (st s) = sent s /\ zlen (buf (st s)) <= CAPACITY.
Proof. intros Hr Hw. destruct (ring_reachable_Inv k s Hr Hw) as [Hc Hf]. done. Qed.

(** C25: No wakeup is lost.  Once no thread is about to call [wake_waiters], a
    blocked reader waits on an empty pipe that still has a writer, and a
    blocked writer on a full pipe that still has a reader. *)
Theorem pipe_no_lost_wakeup k s i p :
  reachable k s -> wakes s < 2 ^ 64 -> threads s !! i = Some p ->
  Forall (fun q => pending q = false) (threads s) ->
  match p with
  | RBlocked _ => buf (st s) = [] /\ 0 < writers (st s)
  | WBlocked _ _ => zlen (buf (st s)) = CAPACITY /\ 0 < readers (st s)
  | _ => True
  end.
Proof.
  intros Hr Hw Hi Hq. destruct (ring_reachable_Inv k s Hr Hw) as [_ _ _ _ _ _ _ Hsr Hsw].
  apply count_none in Hq. rewrite Hq in *. destruct p; try done.
  - destruct Hsr as [?|?]; [by eapply count_elem|done|lia].
  - destruct Hsw as [?|?]; [by eapply count_elem|done|lia].
Qed.

(** C26: A reader and a writer of the same pipe never block each other for
    good: when both are blocked, some thread is about to call [wake_waiters],
    and its step lets both look at the pipe again. *)
Theorem pipe_no_deadlock k s i j n data w :
  reachable k s -> wakes s < 2 ^ 64 ->
  threads s !! i = Some (RBlocked n) -> threads s !! j = Some (WBlocked data w) ->
  exists t p s', threads s !! t = Some p /\ pending p = true /\ step s s' /\
    threads s' !! i = Some (RSnap n) /\ threads s' !! j = Some (WSnap data w).
Proof.
  intros Hr Hw Hi Hj. destruct (ring_reachable_Inv k s Hr Hw) as [_ _ _ _ _ _ _ Hsr Hsw].
  assert (0 < count pending (threads s))%nat as Hp.
  { destruct Hsr as [[Hb _]|?]; [exact (count_elem _ _ _ _ Hi eq_refl)| |done].
    destruct Hsw as [[Hc _]|?]; [exact (count_elem _ _ _ _ Hj eq_refl)| |done]. by rewrite Hb in Hc. }
  apply count_pos in Hp. destruct (first_such pending (threads s)) as [p|] eqn:E; [|done].
  apply first_such_Some in E as [[t Ht]%list_elem_of_lookup Hp'].
  assert (exists q, step s (wake s t q)) as [q Hs].
  { destruct p; try done; eexists;
      [by apply step_read_wake|by apply step_write_wake|by apply step_drop_wake]. }
  exists t, p, (wake s t q). split; [done|]. split; [done|]. split; [done|].
  assert (t <> i /\ t <> j) as [Hti Htj] by (split; intros ->; simplify_eq).
  simpl. rewrite !list_lookup_fmap, !list_lookup_insert_ne by done. by rewrite Hi, Hj.
Qed.

(** A read or write in flight holds its own counted end, so closing the
    descriptor in another thread neither breaks the pipe for the peer nor
    ends the stream early. *)
Theorem pipe_call_counts k s i p :
  reachable k s -> wakes s < 2 ^ 64 -> threads s !! i = Some p ->
  (in_read p = true -> held_r s < readers (st s)) /\ (in_write p = true -> held_w s < writers (st s)).
Proof.
  intros Hr Hw Hi. destruct (ring_reachable_Inv k s Hr Hw) as [_ _ _ H1 H2 _ _ _ _].
  split; intros Hp; pose proof (count_elem _ _ _ _ Hi Hp); lia.
Qed.

(** ** Witnesses: a reader blocked on a new pipe, then fed by a writer. *)

Definition one_blocked : sys :=
  mk_sys (mk_state [] 2 1) 0 1 1 [RBlocked 8; Idle] [] [] 0.

Lemma one_blocked_reachable : reachable 2 one_blocked.
Proof.
  unfold reachable.
  eapply rtc_l; [apply (step_start_read _ 0 8); vm_compute; done|].
  eapply rtc_l; [apply (step_read_snap _ 0 8); vm_compute; done|].
  eapply rtc_l; [apply (step_read_empty _ 0 8 0); vm_compute; done|].
  eapply rtc_l; [apply (step_read_wait _ 0 8 0); vm_compute; done|].
  apply rtc_refl.
Qed.

(** The writer has queued three bytes and not yet woken the reader. *)
Definition fed : sys :=
  mk_sys (mk_state [7; 8; 9] 2 2) 0 1 1 [RBlocked 8; WWake [7; 8; 9] 3] [7; 8; 9] [] 0.

Lemma fed_reachable : reachable 2 fed.
Proof.
  unfold reachable. etransitivity; [apply one_blocked_reachable|].
  eapply rtc_l; [apply (step_start_write _ 1 [7; 8; 9]); vm_compute; done|].
  eapply rtc_l; [apply (step_write_snap _ 1 [7; 8; 9] 0); vm_compute; done|].
  eapply rtc_l; [apply (step_write_queued _ 1 [7; 8; 9] 0 0 3); [done|reflexivity]|].
  apply rtc_refl.
Qed.

Lemma pipe_fifo_witness : [] ++ [7; 8; 9] = sent fed /\ zlen (buf (st fed)) <= CAPACITY.
Proof. apply (pipe_fifo 2 fed fed_reachable). reflexivity. Defined.

Lemma pipe_no_lost_wakeup_witness : buf (st one_blocked) = [] /\ 0 < writers (st one_blocked).
Proof.
  apply (pipe_no_lost_wakeup 2 one_blocked 0 (RBlocked 8) one_blocked_reachable); [reflexivity..|].
  repeat constructor.
Defined.

Lemma pipe_call_counts_witness : held_r fed < readers (st fed).
Proof.
  apply (proj1 (pipe_call_counts 2 fed 0 (RBlocked 8) fed_reachable eq_refl eq_refl)). reflexivity.
Defined.

(** A writer has filled the ring and not yet woken the reader; a second
    writer has blocked on the full ring. *)
Definition page : list Z := zeros CAPACITY.
Definition both_blocked : sys :=
  mk_sys (mk_state page 2 3) 0 1 1 [RBlocked 8; WWake page CAPACITY; WBlocked [1] 0] page [] 0.

(** Runs one step to a given state. *)
Lemma step_to s s' s'' : step s s' -> s' = s'' -> step s s''.
Proof. by intros ? ->. Qed.

Ltac run_to y lem :=
  match goal with |- rtc _ ?s _ =>
    apply rtc_l with y; [eapply step_to; [apply (lem s); vm_compute; (reflexivity || discriminate)|vm_compute; reflexivity]|]
  end.

Lemma both_blocked_reachable : reachable 3 both_blocked.
Proof.
  unfold reachable.
  run_to (mk_sys (mk_state [] 2 1) 0 1 1 [RSnap 8; Idle; Idle] [] [] 0)
    (fun s => step_start_read s 0 8).
  run_to (mk_sys (mk_state [] 2 1) 0 1 1 [RCheck 8 0; Idle; Idle] [] [] 0)
    (fun s => step_read_snap s 0 8).
  run_to (mk_sys (mk_state [] 2 1) 0 1 1 [RWait 8 0; Idle; Idle] [] [] 0)
    (fun s => step_read_empty s 0 8 0).
  run_to (mk_sys (mk_state [] 2 1) 0 1 1 [RBlocked 8; Idle; Idle] [] [] 0)
    (fun s => step_read_wait s 0 8 0).
  run_to (mk_sys (mk_state [] 2 2) 0 1 1 [RBlocked 8; WSnap page 0; Idle] [] [] 0)
    (fun s => step_start_write s 1 page).
  run_to (mk_sys (mk_state [] 2 2) 0 1 1 [RBlocked 8; WCheck page 0 0; Idle] [] [] 0)
    (fun s => step_write_snap s 1 page 0).
  run_to (mk_sys (mk_state page 2 2) 0 1 1 [RBlocked 8; WWake page CAPACITY; Idle] page [] 0)
    (fun s => step_write_queued s 1 page 0 0 CAPACITY (mk_state page 2 2)).
  run_to (mk_sys (mk_state page 2 3) 0 1 1 [RBlocked 8; WWake page CAPACITY; WSnap [1] 0] page [] 0)
    (fun s => step_start_write s 2 [1]).
  run_to (mk_sys (mk_state page 2 3) 0 1 1 [RBlocked 8; WWake page CAPACITY; WCheck [1] 0 0] page [] 0)
    (fun s => step_write_snap s 2 [1] 0).
  run_to (mk_sys (mk_state page 2 3) 0 1 1 [RBlocked 8; WWake page CAPACITY; WWait [1] 0 0] page [] 0)
    (fun s => step_write_queued s 2 [1] 0 0 0 (mk_state page 2 3)).
  run_to (mk_sys (mk_state page 2 3) 0 1 1 [RBlocked 8; WWake page CAPACITY; WBlocked [1] 0] page [] 0)
    (fun s => step_write_wait s 2 [1] 0 0).
  apply rtc_refl.
Qed.

Lemma pipe_no_deadlock_witness :
  exists t p s', threads both_blocked !! t = Some p /\ pending p = true /\ step both_blocked s' /\
    threads s' !! 0%nat = Some (RSnap 8) /\ threads s' !! 2%nat = Some (WSnap [1] 0).
Proof. apply (pipe_no_deadlock 3 both_blocked 0 2 8 [1] 0 both_blocked_reachable); reflexivity. Defined.
