(* ===== verification/FileTable.v ===== *)
(** Per-process descriptor tables (src/src/file.rs).

    The kernel state is the file system, the pipes, the sockets' reference
    counts and all descriptor tables; a table is named by its index.  Every
    call runs under its table's lock and is one atomic step, up to the point
    where a read or write of a pipe, a socket or the console goes on after
    the lock is released: there the call returns a [target] that holds its own
    counted end. *)

From S2P Require Import Prelude BlockDev Fat Pipe.
Open Scope kmonad_scope.

Definition O_READ : Z := 1.
Definition O_WRITE : Z := 2.
Definition O_CREATE : Z := 4.
Definition O_TRUNC : Z := 8.
Definition O_APPEND : Z := 16.
Definition O_ALL : Z := Z.lor O_READ (Z.lor O_WRITE (Z.lor O_CREATE (Z.lor O_TRUNC O_APPEND))).

Definition SEEK_SET : Z := 0.
Definition SEEK_CUR : Z := 1.
Definition SEEK_END : Z := 2.

Definition KIND_CONSOLE : Z := 0.
Definition KIND_FILE : Z := 1.
Definition KIND_PIPE : Z := 2.
Definition KIND_SOCKET : Z := 3.

Definition SOCKET_UDP : Z := 1.
Definition SOCKET_TCP : Z := 2.

Definition MAX_FDS : Z := 32.

Record DiskFile : Type := mk_disk { fid : FileId; offset : Z; flags : Z }.

(** A pipe or socket is named by a number; [Arc]s to it share the name. *)
Inductive OpenFile : Type :=
| Console
| Disk (file : DiskFile)
| PipeRead (p : nat)
| PipeWrite (p : nat)
| Udp (s : nat)
| Tcp (s : nat).

#[export] Instance DiskFile_eq_dec : EqDecision DiskFile.
Proof. solve_decision. Defined.
#[export] Instance OpenFile_eq_dec : EqDecision OpenFile.
Proof. solve_decision. Defined.

Abbreviation table := (list (option OpenFile)).

(** What a blocking call continues with after the table lock is released. *)
Inductive target : Type :=
| ToConsole
| ToPipe (p : nat)
| ToUdp (s : nat)
| ToTcp (s : nat).

Section file_table.
Context {D : Type} `{BlockDevice D}.

Record kernel : Type := mk_kernel {
  kfs : fs D;
  kpipes : gmap nat State;
  ksocks : gmap nat Z;
  knext : nat;
  ktabs : list table;
}.

Abbreviation K := (M kernel).

(** ** State access *)

Definition set_pipes (f : gmap nat State -> gmap nat State) : K unit :=
  modify (fun k => mk_kernel (kfs k) (f (kpipes k)) (ksocks k) (knext k) (ktabs k)).
Definition set_socks (f : gmap nat Z -> gmap nat Z) : K unit :=
  modify (fun k => mk_kernel (kfs k) (kpipes k) (f (ksocks k)) (knext k) (ktabs k)).
Definition set_tab (t : nat) (l : table) : K unit :=
  modify (fun k => mk_kernel (kfs k) (kpipes k) (ksocks k) (knext k) (<[t := l]> (ktabs k))).
Definition get_tab (t : nat) : K table := gets (fun k => default [] (ktabs k !! t)).
Definition fresh : K nat :=
  fun k => (mk_kernel (kfs k) (kpipes k) (ksocks k) (S (knext k)) (ktabs k), Ok (knext k)).
Definition in_fs {A} (m : M (fs D) A) : K A :=
  fun k => let '(s, r) := m (kfs k) in
           (mk_kernel s (kpipes k) (ksocks k) (knext k) (ktabs k), r).

(** ** Ends and [Arc]s *)

(** [Clone for OpenFile]: a pipe end is counted, a socket's [Arc] too. *)
Definition clone_file (f : OpenFile) : K unit :=
  match f with
  | PipeRead p => set_pipes (alter clone_reader p)
  | PipeWrite p => set_pipes (alter clone_writer p)
  | Udp s | Tcp s => set_socks (alter (fun c => c + 1) s)
  | Console | Disk _ => kret tt
  end.

(** Dropping an [OpenFile].  Waking the peers of the last end is a matter of
    the scheduler (see Pipe).  A pipe or socket whose memory the last drop
    frees stays in the model with a count of zero. *)
Definition drop_file (f : OpenFile) : K unit :=
  match f with
  | PipeRead p => set_pipes (alter (fun st => (drop_reader st).1) p)
  | PipeWrite p => set_pipes (alter (fun st => (drop_writer st).1) p)
  | Udp s | Tcp s => set_socks (alter (fun c => c - 1) s)
  | Console | Disk _ => kret tt
  end.

(** [fds.get(fd).and_then(Option::as_ref)] *)
Definition get_fd (l : table) (fd : Z) : option OpenFile := l !! Z.to_nat fd ≫= id.

(** ** Slots *)

Fixpoint position_none (l : table) : option nat :=
  match l with
  | [] => None
  | None :: _ => Some 0%nat
  | Some _ :: l => S <$> position_none l
  end.

(** The descriptor and the table, grown by an empty slot where needed. *)
Definition free_slot (l : table) : option (nat * table) :=
  match position_none l with
  | Some fd => Some (fd, l)
  | None => if zlen l <? MAX_FDS then Some (length l, l ++ [None]) else None
  end.

Definition take_slot (t : nat) : K nat :=
  let! l := get_tab t in
  match free_slot l with
  | Some (fd, l') => run! set_tab t l' in kret fd
  | None => kfail TooManyOpenFiles
  end.

Definition put_fd (t fd : nat) (f : option OpenFile) : K unit :=
  let! l := get_tab t in set_tab t (<[fd := f]> l).

(** * Operations *)

Definition with_console : table := replicate 3 (Some Console).

(** The clones made for the child before an error are dropped again. *)
Fixpoint inherit_loop (l : table) (stdio : list Z) (child : list OpenFile) : K (list OpenFile) :=
  match stdio with
  | [] => kret child
  | fd :: rest =>
      match get_fd l fd with
      | Some file =>
          run! clone_file file in
          inherit_loop l rest (child ++ [file])
      | None =>
          fun k => ((fold_left (fun k f => (drop_file f k).1) child k), Err BadDescriptor)
      end
  end.

(** Returns the index of the child's table. *)
Definition inherit (t : nat) (stdio : list Z) : K nat :=
  let! l := get_tab t in
  let! child := inherit_loop l stdio [] in
  fun k => (mk_kernel (kfs k) (kpipes k) (ksocks k) (knext k) (ktabs k ++ [Some <$> child]),
            Ok (length (ktabs k))).

Definition has (fl bits : Z) : bool := negb (Z.land fl bits =? 0).

Definition bad_flags (fl : Z) : bool :=
  has fl (Z.lnot O_ALL) || negb (has fl (Z.lor O_READ O_WRITE)) ||
  (negb (has fl O_WRITE) && has fl (Z.lor O_CREATE (Z.lor O_TRUNC O_APPEND))).

Definition open (t : nat) (name : list Z) (fl : Z) : K nat :=
  if bad_flags fl then kfail InvalidArgument else
  let! fd := take_slot t in
  let! id := in_fs (open_file_unlocked name (has fl O_CREATE) (has fl O_TRUNC)) in
  run! put_fd t fd (Some (Disk (mk_disk id 0 fl))) in
  kret fd.

Definition pipe (t : nat) : K (nat * nat) :=
  let! p := fresh in
  run! set_pipes (insert p new_state) in
  fun k =>
    match take_slot t k with
    | (k, Ok read_fd) =>
        let k := (put_fd t read_fd (Some (PipeRead p)) k).1 in
        match take_slot t k with
        | (k, Ok write_fd) =>
            ((put_fd t write_fd (Some (PipeWrite p)) k).1, Ok (read_fd, write_fd))
        | (k, Err e) =>
            let k := (put_fd t read_fd None k).1 in
            ((drop_file (PipeWrite p) (drop_file (PipeRead p) k).1).1, Err e)
        | (k, r) => (k, match r with Hang => Hang | _ => Panic end)
        end
    | (k, Err e) => ((drop_file (PipeWrite p) (drop_file (PipeRead p) k).1).1, Err e)
    | (k, r) => (k, match r with Hang => Hang | _ => Panic end)
    end.

Definition socket (t : nat) (kind : Z) : K nat :=
  let! file :=
    (if kind =? SOCKET_UDP then (let! s := fresh in kret (Udp s, s))
     else if kind =? SOCKET_TCP then (let! s := fresh in kret (Tcp s, s))
     else kfail InvalidArgument) in
  run! set_socks (insert file.2 1) in
  fun k =>
    match take_slot t k with
    | (k, Ok fd) => ((put_fd t fd (Some file.1) k).1, Ok fd)
    | (k, Err e) => ((drop_file file.1 k).1, Err e)
    | (k, r) => (k, match r with Hang => Hang | _ => Panic end)
    end.

(** [connect] clones the file, whatever it is, and goes on without the table
    lock; the clone of anything but a socket is dropped on return. *)
Definition connect (t : nat) (fd : Z) : K target :=
  let! l := get_tab t in
  match get_fd l fd with
  | Some (Udp s) => run! clone_file (Udp s) in kret (ToUdp s)
  | Some (Tcp s) => run! clone_file (Tcp s) in kret (ToTcp s)
  | Some file =>
      run! clone_file file in
      run! drop_file file in
      kfail InvalidArgument
  | None => kfail BadDescriptor
  end.

Definition udp (t : nat) (fd : Z) : K nat :=
  let! l := get_tab t in
  match get_fd l fd with
  | Some (Udp s) => run! clone_file (Udp s) in kret s
  | Some _ => kfail InvalidArgument
  | None => kfail BadDescriptor
  end.

Definition kind (t : nat) (fd : Z) : K Z :=
  let! l := get_tab t in
  match get_fd l fd with
  | Some Console => kret KIND_CONSOLE
  | Some (Disk _) => kret KIND_FILE
  | Some (PipeRead _) | Some (PipeWrite _) => kret KIND_PIPE
  | Some (Udp _) | Some (Tcp _) => kret KIND_SOCKET
  | None => kfail BadDescriptor
  end.

(** A read of a disk file completes under the lock with the count and the
    caller's buffer; the others go on with a [target]. *)
Definition read (t : nat) (fd : Z) (buf : list Z) : K (Z * list Z + target) :=
  let! l := get_tab t in
  match get_fd l fd with
  | Some Console => kret (inr ToConsole)
  | Some (Disk file) =>
      if has (flags file) O_READ then
        let! (n, buf) := in_fs (read_at_unlocked (fid file) (offset file) buf) in
        run! put_fd t (Z.to_nat fd) (Some (Disk (mk_disk (fid file) (offset file + n) (flags file)))) in
        kret (inl (n, buf))
      else kfail BadDescriptor
  | Some (PipeRead p) => run! clone_file (PipeRead p) in kret (inr (ToPipe p))
  | Some (Udp s) => run! clone_file (Udp s) in kret (inr (ToUdp s))
  | Some (Tcp s) => run! clone_file (Tcp s) in kret (inr (ToTcp s))
  | Some (PipeWrite _) | None => kfail BadDescriptor
  end.

(** A console write prints under the table lock and always succeeds. *)
Definition write (t : nat) (fd : Z) (data : list Z) : K (Z + target) :=
  let! l := get_tab t in
  match get_fd l fd with
  | Some Console => kret (inl (zlen data))
  | Some (Disk file) =>
      if has (flags file) O_WRITE then
        let off := if has (flags file) O_APPEND then None else Some (offset file) in
        let! (start, n) := in_fs (write_at_unlocked (fid file) off data) in
        run! put_fd t (Z.to_nat fd) (Some (Disk (mk_disk (fid file) (start + n) (flags file)))) in
        kret (inl n)
      else kfail BadDescriptor
  | Some (PipeWrite p) => run! clone_file (PipeWrite p) in kret (inr (ToPipe p))
  | Some (Udp s) => run! clone_file (Udp s) in kret (inr (ToUdp s))
  | Some (Tcp s) => run! clone_file (Tcp s) in kret (inr (ToTcp s))
  | Some (PipeRead _) | None => kfail BadDescriptor
  end.

Definition close (t : nat) (fd : Z) : K unit :=
  let! l := get_tab t in
  match get_fd l fd with
  | Some file => run! put_fd t (Z.to_nat fd) None in drop_file file
  | None => kfail BadDescriptor
  end.

(** [base.checked_add_signed(offset)] on [u64], limited to [u32::MAX]. *)
Definition seek_target (base off : Z) : option Z :=
  let x := base + off in
  if (0 <=? x) && (x <=? u64_max) && (x <=? u32_max) then Some x else None.

Definition seek (t : nat) (fd off whence : Z) : K Z :=
  let! l := get_tab t in
  match get_fd l fd with
  | Some (Disk file) =>
      let! base := (if whence =? SEEK_SET then kret 0
                    else if whence =? SEEK_CUR then kret (offset file)
                    else if whence =? SEEK_END then in_fs (file_size_unlocked (fid file))
                    else kfail InvalidArgument) in
      let! x := ok_or (seek_target base off) InvalidArgument in
      run! put_fd t (Z.to_nat fd) (Some (Disk (mk_disk (fid file) x (flags file)))) in
      kret x
  | _ => kfail BadDescriptor
  end.
End file_table.
