(* ===== verification/FileInv.v ===== *)
(** Descriptor tables: every pipe end and every socket is counted.

    [ends k held] lists the references the kernel holds: the open files of
    all tables and the clones [held] by calls that have left their table.
    The invariant says that the counts of pipes and sockets are exactly the
    numbers of their references.  References are treated as resources: each
    primitive of FileTable moves, makes or consumes one, and an operation is a
    sequence of such moves. *)

From S2P Require Import Prelude BlockDev Fat Pipe FileTable.
Open Scope kmonad_scope.

Definition cnt (f : OpenFile) (R : list OpenFile) : Z :=
  Z.of_nat (count (fun g => bool_decide (g = f)) R).

Lemma cnt_cons f g R : cnt f (g :: R) = (if decide (g = f) then 1 else 0) + cnt f R.
Proof. unfold cnt. rewrite count_cons. case_bool_decide; case_decide; try done; lia. Qed.

Lemma cnt_pos f R : f ∈ R <-> 0 < cnt f R.
Proof.
  induction R as [|g R IH]; [split; [intros Hf; by apply not_elem_of_nil in Hf|done]|].
  rewrite cnt_cons, elem_of_cons, IH. assert (0 <= cnt f R) by (unfold cnt; lia).
  case_decide; [split; [lia|by left]|]. split; [intros [->|?]; [done|lia]|right; lia].
Qed.

#[export] Instance cnt_perm f : Proper (Permutation ==> eq) (cnt f).
Proof.
  intros R R' HR. induction HR as [|g R R' _ IH|g h R|R R' R'' _ IH1 _ IH2]; rewrite ?cnt_cons; try lia.
Qed.

(** The counts of the pipes [P] and the sockets [S] are those of [R]; names
    from [n] on are new. *)
Record Counts (P : gmap nat State) (S : gmap nat Z) (n : nat) (R : list OpenFile) : Prop := {
  c_pipe p st : P !! p = Some st -> readers st = cnt (PipeRead p) R /\ writers st = cnt (PipeWrite p) R;
  c_pipe_live p : PipeRead p ∈ R \/ PipeWrite p ∈ R -> is_Some (P !! p);
  c_sock s c : S !! s = Some c -> c = cnt (Udp s) R + cnt (Tcp s) R;
  c_sock_live s : Udp s ∈ R \/ Tcp s ∈ R -> is_Some (S !! s);
  c_fresh i : (n <= i)%nat -> P !! i = None /\ S !! i = None;
}.

Lemma Counts_ext P S n R R' : Counts P S n R -> (forall f, cnt f R' = cnt f R) -> Counts P S n R'.
Proof.
  intros [H1 H2 H3 H4 H5] Hc. split; try done; intros *; rewrite ?cnt_pos, !Hc, <- ?cnt_pos; eauto.
Qed.

#[export] Instance Counts_perm P S n : Proper (Permutation ==> iff) (Counts P S n).
Proof. intros R R' HR. split; intros HC; apply (Counts_ext _ _ _ _ _ HC); intros f; by rewrite HR. Qed.

(** Changing the references to one pipe, or to one socket. *)
Lemma Counts_pipe P S n R R' p g :
  Counts P S n R ->
  (forall st, readers (g st) - cnt (PipeRead p) R' = readers st - cnt (PipeRead p) R) ->
  (forall st, writers (g st) - cnt (PipeWrite p) R' = writers st - cnt (PipeWrite p) R) ->
  (forall f, f <> PipeRead p -> f <> PipeWrite p -> cnt f R' = cnt f R) ->
  (0 < cnt (PipeRead p) R' \/ 0 < cnt (PipeWrite p) R' -> is_Some (P !! p)) ->
  Counts (alter g p P) S n R'.
Proof.
  intros [H1 H2 H3 H4 H5] Hr Hw Hf Hlive. split.
  - intros q st Hq. destruct (decide (p = q)) as [<-|Hne].
    + rewrite lookup_alter_eq in Hq. destruct (P !! p) as [st0|] eqn:E; simplify_eq/=.
      destruct (H1 p st0 E). specialize (Hr st0). specialize (Hw st0). lia.
    + rewrite lookup_alter_ne in Hq by done. rewrite !Hf by congruence. by apply H1.
  - intros q. rewrite !cnt_pos. destruct (decide (p = q)) as [<-|Hne].
    + rewrite lookup_alter_eq, fmap_is_Some. apply Hlive.
    + rewrite lookup_alter_ne, !Hf, <- !cnt_pos by congruence. apply H2.
  - intros s c. rewrite !Hf by done. apply H3.
  - intros s. rewrite !cnt_pos, !Hf, <- !cnt_pos by done. apply H4.
  - intros i Hi. destruct (H5 i Hi) as [Hp Hs]. split; [|done].
    destruct (decide (p = i)) as [<-|Hne]; [by rewrite lookup_alter_eq, Hp|by rewrite lookup_alter_ne].
Qed.

Lemma Counts_sock P S n R R' s g :
  Counts P S n R ->
  (forall c, g c - cnt (Udp s) R' - cnt (Tcp s) R' = c - cnt (Udp s) R - cnt (Tcp s) R) ->
  (forall f, f <> Udp s -> f <> Tcp s -> cnt f R' = cnt f R) ->
  (0 < cnt (Udp s) R' \/ 0 < cnt (Tcp s) R' -> is_Some (S !! s)) ->
  Counts P (alter g s S) n R'.
Proof.
  intros [H1 H2 H3 H4 H5] Hc Hf Hlive. split.
  - intros q st. rewrite !Hf by done. apply H1.
  - intros q. rewrite !cnt_pos, !Hf, <- !cnt_pos by done. apply H2.
  - intros q c Hq. destruct (decide (s = q)) as [<-|Hne].
    + rewrite lookup_alter_eq in Hq. destruct (S !! s) as [c0|] eqn:E; simplify_eq/=.
      specialize (H3 s c0 E). specialize (Hc c0). lia.
    + rewrite lookup_alter_ne in Hq by done. rewrite !Hf by congruence. by apply H3.
  - intros q. rewrite !cnt_pos. destruct (decide (s = q)) as [<-|Hne].
    + rewrite lookup_alter_eq, fmap_is_Some. apply Hlive.
    + rewrite lookup_alter_ne, !Hf, <- !cnt_pos by congruence. apply H4.
  - intros i Hi. destruct (H5 i Hi) as [Hp Hs]. split; [done|].
    destruct (decide (s = i)) as [<-|Hne]; [by rewrite lookup_alter_eq, Hs|by rewrite lookup_alter_ne].
Qed.

(** References that are not counted. *)
Lemma Counts_plain P S n R R' :
  Counts P S n R ->
  (forall f, match f with Console | Disk _ => True | _ => cnt f R' = cnt f R end) -> Counts P S n R'.
Proof.
  intros [H1 H2 H3 H4 H5] Hc. split; try done.
  - intros p st. rewrite (Hc (PipeRead p)), (Hc (PipeWrite p)). apply H1.
  - intros p. rewrite !cnt_pos, (Hc (PipeRead p)), (Hc (PipeWrite p)), <- !cnt_pos. apply H2.
  - intros s c. rewrite (Hc (Udp s)), (Hc (Tcp s)). apply H3.
  - intros s. rewrite !cnt_pos, (Hc (Udp s)), (Hc (Tcp s)), <- !cnt_pos. apply H4.
Qed.

(** ** Counting the entries of tables *)

Lemma cnt_app f R R' : cnt f (R ++ R') = cnt f R + cnt f R'.
Proof. induction R as [|g R IH]; [done|]. simpl. rewrite !cnt_cons, IH. lia. Qed.

(** How often [f] is in a table slot. *)
Definition slot_cnt (f : OpenFile) (o : option OpenFile) : Z := if decide (o = Some f) then 1 else 0.

Lemma cnt_omap_cons f o (l : table) : cnt f (omap id (o :: l)) = slot_cnt f o + cnt f (omap id l).
Proof.
  destruct o as [g|]; unfold slot_cnt.
  - change (omap id (Some g :: l)) with (g :: omap id l). rewrite cnt_cons.
    repeat case_decide; simplify_eq; lia.
  - change (omap id (None :: l)) with (omap id l). rewrite decide_False by done. lia.
Qed.

Lemma cnt_omap_insert f (l : table) i o o' :
  l !! i = Some o ->
  cnt f (omap id (<[i := o']> l)) + slot_cnt f o = cnt f (omap id l) + slot_cnt f o'.
Proof.
  revert i. induction l as [|x l IH]; intros [|i] Hi; try done.
  - injection Hi as ->. change (<[0%nat := o']> (o :: l)) with (o' :: l). rewrite !cnt_omap_cons. lia.
  - change (<[S i := o']> (x :: l)) with (x :: <[i := o']> l). rewrite !cnt_omap_cons.
    specialize (IH i Hi). lia.
Qed.

Lemma cnt_concat_insert f (tabs : list table) t l l' :
  tabs !! t = Some l ->
  cnt f (omap id (concat (<[t := l']> tabs))) + cnt f (omap id l) =
    cnt f (omap id (concat tabs)) + cnt f (omap id l').
Proof.
  revert t. induction tabs as [|x tabs IH]; intros [|t] Ht; simplify_eq/=; rewrite !omap_app, !cnt_app; [lia|].
  specialize (IH t Ht). lia.
Qed.

Section inv.
Context {D : Type} `{BlockDevice D}.
Abbreviation kernel := (@kernel D).
Implicit Types (k : kernel) (R held : list OpenFile).

Definition ends k held : list OpenFile := omap id (concat (ktabs k)) ++ held.

Record Inv k held : Prop := {
  inv_counts : Counts (kpipes k) (ksocks k) (knext k) (ends k held);
  inv_len : Forall (fun l => zlen l <= MAX_FDS) (ktabs k);
}.

(** ** Making and dropping references *)

Ltac count_refs :=
  try (intros f; destruct f; [done|done|..]);
  intros; rewrite ?cnt_cons; simpl; repeat case_decide; try congruence; try lia.

Lemma Counts_clone k R f :
  Counts (kpipes k) (ksocks k) (knext k) R -> f ∈ R ->
  exists k', clone_file f k = (k', Ok tt) /\ ktabs k' = ktabs k /\ kfs k' = kfs k /\
    Counts (kpipes k') (ksocks k') (knext k') (f :: R).
Proof.
  intros HC Hin. destruct f as [|d|p|p|s|s]; eexists; (split; [reflexivity|]); (split; [done|]); (split; [done|]); simpl.
  - apply (Counts_plain _ _ _ _ _ HC). count_refs.
  - apply (Counts_plain _ _ _ _ _ HC). count_refs.
  - apply (Counts_pipe _ _ _ _ _ _ _ HC); [count_refs..|]. intros _. apply HC. by left.
  - apply (Counts_pipe _ _ _ _ _ _ _ HC); [count_refs..|]. intros _. apply HC. by right.
  - apply (Counts_sock _ _ _ _ _ _ _ HC); [count_refs..|]. intros _. apply HC. by left.
  - apply (Counts_sock _ _ _ _ _ _ _ HC); [count_refs..|]. intros _. apply HC. by right.
Qed.

Lemma Counts_drop k R f :
  Counts (kpipes k) (ksocks k) (knext k) (f :: R) ->
  exists k', drop_file f k = (k', Ok tt) /\ ktabs k' = ktabs k /\ kfs k' = kfs k /\
    Counts (kpipes k') (ksocks k') (knext k') R.
Proof.
  intros HC. destruct f as [|d|p|p|s|s]; eexists; (split; [reflexivity|]); (split; [done|]); (split; [done|]); simpl.
  - apply (Counts_plain _ _ _ _ _ HC). count_refs.
  - apply (Counts_plain _ _ _ _ _ HC). count_refs.
  - apply (Counts_pipe _ _ _ _ _ _ _ HC); [count_refs..|]. intros _. apply HC. left. left.
  - apply (Counts_pipe _ _ _ _ _ _ _ HC); [count_refs..|]. intros _. apply HC. right. left.
  - apply (Counts_sock _ _ _ _ _ _ _ HC); [count_refs..|]. intros _. apply HC. left. left.
  - apply (Counts_sock _ _ _ _ _ _ _ HC); [count_refs..|]. intros _. apply HC. right. left.
Qed.

Lemma clone_Inv k held f :
  Inv k held -> f ∈ ends k held ->
  exists k', clone_file f k = (k', Ok tt) /\ ktabs k' = ktabs k /\ Inv k' (f :: held).
Proof.
  intros [HC Hl] Hin. destruct (Counts_clone k _ f HC Hin) as (k' & Hrun & Ht & _ & HC').
  exists k'. split; [done|]. split; [done|]. split; [|by rewrite Ht].
  unfold ends in *. rewrite Ht. by rewrite <- Permutation_middle.
Qed.

Lemma drop_Inv k held f :
  Inv k (f :: held) -> exists k', drop_file f k = (k', Ok tt) /\ ktabs k' = ktabs k /\ Inv k' held.
Proof.
  intros [HC Hl]. unfold ends in HC. rewrite <- Permutation_middle in HC.
  destruct (Counts_drop k _ f HC) as (k' & Hrun & Ht & _ & HC').
  exists k'. split; [done|]. split; [done|]. split; [|by rewrite Ht]. unfold ends. by rewrite Ht.
Qed.

(** ** Moving references between tables and calls *)

Lemma put_Inv k held held' t l fd o o' :
  Inv k held -> ktabs k !! t = Some l -> l !! fd = Some o ->
  (forall f, match f with Console | Disk _ => True
             | _ => slot_cnt f o' + cnt f held' = slot_cnt f o + cnt f held end) ->
  exists k', put_fd t fd o' k = (k', Ok tt) /\ ktabs k' = <[t := <[fd := o']> l]> (ktabs k) /\ Inv k' held'.
Proof.
  intros [HC Hl] Ht Hfd Hc. eexists. split; [reflexivity|]. simpl. rewrite Ht. simpl. split; [done|]. split.
  - apply (Counts_plain _ _ _ _ _ HC). intros f. specialize (Hc f). unfold ends. simpl.
    rewrite !cnt_app. pose proof (cnt_concat_insert f (ktabs k) t l (<[fd := o']> l) Ht).
    pose proof (cnt_omap_insert f l fd o o' Hfd). destruct f; try done; lia.
  - apply Forall_insert; [done|]. unfold zlen. rewrite length_insert.
    by apply (proj1 (Forall_lookup _ _) Hl t l).
Qed.

(** ** Slots *)

Lemma position_none_Some l fd : position_none l = Some fd -> l !! fd = Some None.
Proof.
  revert fd. induction l as [|[f|] l IH]; intros fd; simpl; [done| |by intros [= <-]].
  destruct (position_none l) as [i|]; [|done]. intros [= <-]. by apply IH.
Qed.

Lemma position_none_None l : position_none l = None -> Forall is_Some l.
Proof.
  induction l as [|[f|] l IH]; simpl; [by constructor| |done].
  destruct (position_none l); [done|]. intros _. constructor; [by eexists|by apply IH].
Qed.

(** [take_slot] finds an empty slot, growing the table if it has to, or the
    table is full. *)
Lemma take_slot_spec k held t l :
  Inv k held -> ktabs k !! t = Some l ->
  (exists k' fd l', take_slot t k = (k', Ok fd) /\ ktabs k' !! t = Some l' /\ l' !! fd = Some None /\
     l `prefix_of` l' /\ Inv k' held) \/
  (take_slot t k = (k, Err TooManyOpenFiles) /\ Forall is_Some l /\ zlen l = MAX_FDS).
Proof.
  intros HI Ht. pose proof HI as [HC Hl]. pose proof (proj1 (Forall_lookup _ _) Hl t l Ht) as Hlen.
  cbn beta in Hlen. unfold take_slot, kbind, get_tab, gets. rewrite Ht. simpl.
  pose proof (lookup_lt_Some _ _ _ Ht) as Hlt.
  unfold free_slot. destruct (position_none l) as [fd|] eqn:E.
  - left. eexists _, fd, l. split; [done|]. simpl. rewrite list_lookup_insert_eq by done.
    split; [done|]. split; [by apply position_none_Some|]. split; [done|]. rewrite list_insert_id by done.
    by destruct k.
  - apply position_none_None in E. destruct (Z.ltb_spec (zlen l) MAX_FDS); [|right; split_and!; [done..|lia]].
    left. eexists _, (length l), (l ++ [None]). split; [done|]. simpl. rewrite list_lookup_insert_eq by done.
    split; [done|]. split; [by rewrite lookup_app_r, Nat.sub_diag|]. split; [by apply prefix_app_r|]. split; simpl.
    + apply (Counts_ext _ _ _ _ _ HC). intros f. unfold ends. simpl. rewrite !cnt_app.
      pose proof (cnt_concat_insert f (ktabs k) t l (l ++ [None]) Ht) as Hcc. rewrite omap_app, cnt_app in Hcc.
      simpl in Hcc. change (cnt f []) with 0 in Hcc. lia.
    + apply Forall_insert; [done|]. rewrite zlen_app. change (zlen [None]) with 1. lia.
Qed.

(** * The operations *)

Lemma in_fs_Inv {A} (m : M (fs D) A) k k' r held :
  in_fs m k = (k', r) -> Inv k held -> ktabs k' = ktabs k /\ Inv k' held.
Proof.
  unfold in_fs. destruct (m (kfs k)) as [s x]. intros [= <- <-] [HC Hl]. split; [done|]. by split.
Qed.

Lemma get_fd_Some l fd f : get_fd l fd = Some f -> l !! Z.to_nat fd = Some (Some f).
Proof. unfold get_fd. destruct (l !! Z.to_nat fd) as [[g|]|]; simpl; congruence. Qed.

Lemma get_fd_ends k held t l fd f :
  ktabs k !! t = Some l -> get_fd l fd = Some f -> f ∈ ends k held.
Proof.
  intros Ht Hf%get_fd_Some. apply elem_of_app. left. apply list_elem_of_omap. exists (Some f).
  split; [|done]. apply list_elem_of_In, in_concat. exists l.
  split; apply list_elem_of_In; by eapply list_elem_of_lookup_2.
Qed.

Lemma get_tab_spec k t l : ktabs k !! t = Some l -> get_tab t k = (k, Ok l).
Proof. intros Ht. unfold get_tab, gets. by rewrite Ht. Qed.

(** Replacing an open disk file by itself with another offset. *)
Lemma put_disk_Inv k held t l fd d d' :
  Inv k held -> ktabs k !! t = Some l -> get_fd l fd = Some (Disk d) ->
  exists k', put_fd t (Z.to_nat fd) (Some (Disk d')) k = (k', Ok tt) /\ Inv k' held.
Proof.
  intros HI Ht Hf%get_fd_Some.
  destruct (put_Inv k held held t l (Z.to_nat fd) (Some (Disk d)) (Some (Disk d'))) as (k' & Hrun & _ & HI');
    try done; [|by eauto].
  intros f. destruct f; try done; unfold slot_cnt; by rewrite !decide_False.
Qed.

Lemma open_Inv k held t l name fl k' r :
  Inv k held -> ktabs k !! t = Some l -> open t name fl k = (k', r) -> Inv k' held.
Proof.
  intros HI Ht. unfold open. destruct (bad_flags fl); [by intros [= <- <-]|].
  destruct (take_slot_spec k held t l HI Ht) as [(k1 & fd & l1 & Hs & Ht1 & Hfd & _ & HI1)|(Hs & _)].
  2: { rewrite (kbind_Err _ _ _ _ _ Hs). by intros [= <- <-]. }
  rewrite (kbind_Ok _ _ _ _ _ Hs). unfold kbind at 1.
  destruct (in_fs _ k1) as [k2 r2] eqn:E. destruct (in_fs_Inv _ _ _ _ held E HI1) as [Ht2 HI2].
  destruct r2 as [id|e| |]; [|by intros [= <- <-]..].
  destruct (put_Inv k2 held held t l1 fd None (Some (Disk (mk_disk id 0 fl)))) as (k3 & Hp & _ & HI3);
    [done|by rewrite Ht2|done| |].
  { intros f. destruct f; try done; unfold slot_cnt; by rewrite !decide_False. }
  rewrite (kbind_Ok _ _ _ _ _ Hp). by intros [= <- <-].
Qed.

Lemma close_Inv k held t l fd k' r :
  Inv k held -> ktabs k !! t = Some l -> close t fd k = (k', r) -> Inv k' held.
Proof.
  intros HI Ht. unfold close. rewrite (kbind_Ok _ _ _ _ _ (get_tab_spec k t l Ht)).
  destruct (get_fd l fd) as [f|] eqn:Ef; [|by intros [= <- <-]].
  destruct (put_Inv k held (f :: held) t l (Z.to_nat fd) (Some f) None) as (k1 & Hp & _ & HI1);
    [done|done|by apply get_fd_Some| |].
  { intros g. rewrite cnt_cons. unfold slot_cnt. rewrite decide_False by done.
    destruct (decide (f = g)) as [->|Hne]; [rewrite decide_True by done|rewrite decide_False by congruence];
      destruct g; try done; lia. }
  rewrite (kbind_Ok _ _ _ _ _ Hp). destruct (drop_Inv k1 held f HI1) as (k2 & Hd & _ & HI2).
  rewrite Hd. by intros [= <- <-].
Qed.

(** ** Calls that continue without the table lock *)

Definition target_end (reading : bool) (x : target) : list OpenFile :=
  match x with
  | ToConsole => []
  | ToPipe p => [if reading then PipeRead p else PipeWrite p]
  | ToUdp s => [Udp s]
  | ToTcp s => [Tcp s]
  end.

Definition io_end {A} (reading : bool) (r : res (A + target)) : list OpenFile :=
  match r with Ok (inr x) => target_end reading x | _ => [] end.

Lemma clone_and_return {A} k held f (a : A) :
  Inv k held -> f ∈ ends k held ->
  exists k', (run! clone_file f in kret a) k = (k', Ok a) /\ ktabs k' = ktabs k /\ Inv k' (f :: held).
Proof.
  intros HI Hin. destruct (clone_Inv k held f HI Hin) as (k' & Hc & Ht & HI').
  exists k'. by rewrite (kbind_Ok _ _ _ _ _ Hc).
Qed.

Lemma read_Inv k held t l fd buf k' r :
  Inv k held -> ktabs k !! t = Some l -> read t fd buf k = (k', r) -> Inv k' (io_end true r ++ held).
Proof.
  intros HI Ht. unfold read. rewrite (kbind_Ok _ _ _ _ _ (get_tab_spec k t l Ht)).
  destruct (get_fd l fd) as [f|] eqn:Ef; [|by intros [= <- <-]].
  pose proof (get_fd_ends k held t l fd f Ht Ef) as Hin.
  destruct f as [|d|p|p|s|s]; try by intros [= <- <-].
  - destruct (has (flags d) O_READ); [|by intros [= <- <-]]. unfold kbind at 1.
    destruct (in_fs _ k) as [k1 r1] eqn:E. destruct (in_fs_Inv _ _ _ _ held E HI) as [Ht1 HI1].
    destruct r1 as [[n b]|e| |]; [|by intros [= <- <-]..].
    destruct (put_disk_Inv k1 held t l fd d (mk_disk (fid d) (offset d + n) (flags d)))
      as (k2 & Hp & HI2); [done|by rewrite Ht1|done|].
    rewrite (kbind_Ok _ _ _ _ _ Hp). by intros [= <- <-].
  - destruct (clone_and_return k held (PipeRead p) (inr (ToPipe p) : Z * list Z + target) HI Hin)
      as (k1 & -> & _ & HI1). by intros [= <- <-].
  - destruct (clone_and_return k held (Udp s) (inr (ToUdp s) : Z * list Z + target) HI Hin)
      as (k1 & -> & _ & HI1). by intros [= <- <-].
  - destruct (clone_and_return k held (Tcp s) (inr (ToTcp s) : Z * list Z + target) HI Hin)
      as (k1 & -> & _ & HI1). by intros [= <- <-].
Qed.

Lemma write_Inv k held t l fd data k' r :
  Inv k held -> ktabs k !! t = Some l -> write t fd data k = (k', r) -> Inv k' (io_end false r ++ held).
Proof.
  intros HI Ht. unfold write. rewrite (kbind_Ok _ _ _ _ _ (get_tab_spec k t l Ht)).
  destruct (get_fd l fd) as [f|] eqn:Ef; [|by intros [= <- <-]].
  pose proof (get_fd_ends k held t l fd f Ht Ef) as Hin.
  destruct f as [|d|p|p|s|s]; try by intros [= <- <-].
  - destruct (has (flags d) O_WRITE); [|by intros [= <- <-]]. unfold kbind at 1.
    destruct (in_fs _ k) as [k1 r1] eqn:E. destruct (in_fs_Inv _ _ _ _ held E HI) as [Ht1 HI1].
    destruct r1 as [[start n]|e| |]; [|by intros [= <- <-]..].
    destruct (put_disk_Inv k1 held t l fd d (mk_disk (fid d) (start + n) (flags d)))
      as (k2 & Hp & HI2); [done|by rewrite Ht1|done|].
    rewrite (kbind_Ok _ _ _ _ _ Hp). by intros [= <- <-].
  - destruct (clone_and_return k held (PipeWrite p) (inr (ToPipe p) : Z + target) HI Hin)
      as (k1 & -> & _ & HI1). by intros [= <- <-].
  - destruct (clone_and_return k held (Udp s) (inr (ToUdp s) : Z + target) HI Hin)
      as (k1 & -> & _ & HI1). by intros [= <- <-].
  - destruct (clone_and_return k held (Tcp s) (inr (ToTcp s) : Z + target) HI Hin)
      as (k1 & -> & _ & HI1). by intros [= <- <-].
Qed.

Definition connect_end (r : res target) : list OpenFile :=
  match r with Ok x => target_end true x | _ => [] end.

Lemma connect_Inv k held t l fd k' r :
  Inv k held -> ktabs k !! t = Some l -> connect t fd k = (k', r) -> Inv k' (connect_end r ++ held).
Proof.
  intros HI Ht. unfold connect. rewrite (kbind_Ok _ _ _ _ _ (get_tab_spec k t l Ht)).
  destruct (get_fd l fd) as [f|] eqn:Ef; [|by intros [= <- <-]].
  destruct (clone_Inv k held f HI (get_fd_ends k held t l fd f Ht Ef)) as (k1 & Hc & _ & HI1).
  destruct (drop_Inv k1 held f HI1) as (k2 & Hd & _ & HI2).
  destruct f; rewrite (kbind_Ok _ _ _ _ _ Hc); rewrite ?(kbind_Ok _ _ _ _ _ Hd); by intros [= <- <-].
Qed.

Definition udp_end (r : res nat) : list OpenFile := match r with Ok s => [Udp s] | _ => [] end.

Lemma udp_Inv k held t l fd k' r :
  Inv k held -> ktabs k !! t = Some l -> udp t fd k = (k', r) -> Inv k' (udp_end r ++ held).
Proof.
  intros HI Ht. unfold udp. rewrite (kbind_Ok _ _ _ _ _ (get_tab_spec k t l Ht)).
  destruct (get_fd l fd) as [f|] eqn:Ef; [|by intros [= <- <-]].
  destruct f as [| | | |s|]; try by intros [= <- <-].
  destruct (clone_and_return k held (Udp s) s HI (get_fd_ends k held t l fd _ Ht Ef))
    as (k1 & -> & _ & HI1). by intros [= <- <-].
Qed.

Lemma seek_Inv k held t l fd off wh k' r :
  Inv k held -> ktabs k !! t = Some l -> seek t fd off wh k = (k', r) -> Inv k' held.
Proof.
  intros HI Ht. unfold seek. rewrite (kbind_Ok _ _ _ _ _ (get_tab_spec k t l Ht)).
  destruct (get_fd l fd) as [[|d|p|p|s|s]|] eqn:Ef; try by intros [= <- <-].
  unfold kbind at 1. set (m := if wh =? SEEK_SET then _ else _).
  assert (exists k1 r1, m k = (k1, r1) /\ ktabs k1 = ktabs k /\ Inv k1 held) as (k1 & r1 & -> & Ht1 & HI1).
  { unfold m. destruct (wh =? SEEK_SET); [by eexists _, _|]. destruct (wh =? SEEK_CUR); [by eexists _, _|].
    destruct (wh =? SEEK_END); [|by eexists _, _].
    destruct (in_fs (file_size_unlocked (fid d)) k) as [k1 r1] eqn:E. eexists _, _. split; [done|].
    by apply (in_fs_Inv _ _ _ _ held E HI). }
  destruct r1 as [base|e| |]; [|by intros [= <- <-]..].
  destruct (seek_target base off) as [x|]; [|by intros [= <- <-]]. unfold ok_or.
  destruct (put_disk_Inv k1 held t l fd d (mk_disk (fid d) x (flags d))) as (k2 & Hp & HI2);
    [done|by rewrite Ht1|done|].
  rewrite (kbind_Ok (kret x) _ k1 k1 x eq_refl), (kbind_Ok _ _ _ _ _ Hp). by intros [= <- <-].
Qed.

(** ** New pipes and sockets *)

Lemma Counts_new_ref P S n R f : Counts P S n R -> (f = PipeRead n \/ f = PipeWrite n \/ f = Udp n \/ f = Tcp n) -> cnt f R = 0.
Proof.
  intros [_ H2 _ H4 H5] Hf. destruct (H5 n (le_n n)) as [Hp Hs].
  assert (0 <= cnt f R) by (unfold cnt; lia). assert (~ 0 < cnt f R); [|lia]. rewrite <- cnt_pos. intros Hin.
  destruct Hf as [->|[->|[->| ->]]].
  - destruct (H2 n) as [? ?]; [by left|congruence].
  - destruct (H2 n) as [? ?]; [by right|congruence].
  - destruct (H4 n) as [? ?]; [by left|congruence].
  - destruct (H4 n) as [? ?]; [by right|congruence].
Qed.

Lemma new_pipe_Inv k held :
  Inv k held ->
  let k1 := mk_kernel (kfs k) (<[knext k := new_state]> (kpipes k)) (ksocks k) (S (knext k)) (ktabs k) in
  Inv k1 (PipeRead (knext k) :: PipeWrite (knext k) :: held).
Proof.
  intros [HC Hl]. split; [|done]. simpl. set (n := knext k) in *.
  pose proof (Counts_new_ref _ _ _ _ (PipeRead n) HC ltac:(auto)) as Hr0.
  pose proof (Counts_new_ref _ _ _ _ (PipeWrite n) HC ltac:(auto)) as Hw0.
  unfold ends in *. simpl. rewrite <- !Permutation_middle.
  set (R := omap id (concat (ktabs k)) ++ held) in *. destruct HC as [H1 H2 H3 H4 H5]. split.
  - intros p st. rewrite !cnt_cons. destruct (decide (n = p)) as [<-|Hne].
    + rewrite lookup_insert_eq. intros [= <-]. simpl. repeat case_decide; try congruence; try lia.
    + rewrite lookup_insert_ne by done. intros Hp. destruct (H1 p st Hp).
      repeat case_decide; try congruence; try lia.
  - intros p. destruct (decide (n = p)) as [<-|Hne]; [intros _; rewrite lookup_insert_eq; by eexists|].
    rewrite lookup_insert_ne by done. rewrite !elem_of_cons. intros Hp. apply H2. naive_solver.
  - intros s c Hs. rewrite !cnt_cons. repeat case_decide; try congruence; try lia. by rewrite (H3 s c Hs).
  - intros s. rewrite !elem_of_cons. intros Hs. apply H4. naive_solver.
  - intros i Hi. destruct (H5 i ltac:(lia)). rewrite lookup_insert_ne by lia. done.
Qed.

Lemma new_sock_Inv k held (f : OpenFile) :
  Inv k held -> f = Udp (knext k) \/ f = Tcp (knext k) ->
  let k1 := mk_kernel (kfs k) (kpipes k) (<[knext k := 1]> (ksocks k)) (S (knext k)) (ktabs k) in
  Inv k1 (f :: held).
Proof.
  intros [HC Hl] Hf. split; [|done]. simpl. set (n := knext k) in *.
  pose proof (Counts_new_ref _ _ _ _ (Udp n) HC ltac:(auto)) as Hu0.
  pose proof (Counts_new_ref _ _ _ _ (Tcp n) HC ltac:(auto)) as Ht0.
  unfold ends in *. simpl. rewrite <- !Permutation_middle.
  set (R := omap id (concat (ktabs k)) ++ held) in *. destruct HC as [H1 H2 H3 H4 H5]. split.
  - intros p st Hp. destruct (H1 p st Hp). rewrite !cnt_cons.
    destruct Hf as [-> | ->]; repeat case_decide; try congruence; lia.
  - intros p. rewrite !elem_of_cons. intros Hp. apply H2. naive_solver.
  - intros s c. rewrite !cnt_cons. destruct (decide (n = s)) as [<-|Hne].
    + rewrite lookup_insert_eq. intros [= <-]. destruct Hf as [-> | ->]; repeat case_decide; try congruence; lia.
    + rewrite lookup_insert_ne by done. intros Hs. rewrite (H3 s c Hs).
      destruct Hf as [-> | ->]; repeat case_decide; try congruence; lia.
  - intros s. destruct (decide (n = s)) as [<-|Hne]; [intros _; rewrite lookup_insert_eq; by eexists|].
    rewrite lookup_insert_ne by done. rewrite !elem_of_cons. intros Hs. apply H4. naive_solver.
  - intros i Hi. destruct (H5 i ltac:(lia)). rewrite lookup_insert_ne by lia. done.
Qed.

(** Storing a held reference in an empty slot. *)
Lemma store_Inv k held t l fd f :
  Inv k (f :: held) -> ktabs k !! t = Some l -> l !! fd = Some None ->
  exists k', put_fd t fd (Some f) k = (k', Ok tt) /\ ktabs k' = <[t := <[fd := Some f]> l]> (ktabs k) /\
    Inv k' held.
Proof.
  intros HI Ht Hfd. eapply put_Inv; [exact HI|done|done|].
  intros g. rewrite cnt_cons. unfold slot_cnt. rewrite (decide_False (P := None = Some g)) by done.
  destruct (decide (f = g)) as [->|Hne]; [rewrite decide_True by done|rewrite decide_False by congruence];
    destruct g; try done; lia.
Qed.

(** Taking it back. *)
Lemma unstore_Inv k held t l fd f :
  Inv k held -> ktabs k !! t = Some l -> l !! fd = Some (Some f) ->
  exists k', put_fd t fd None k = (k', Ok tt) /\ ktabs k' = <[t := <[fd := None]> l]> (ktabs k) /\
    Inv k' (f :: held).
Proof.
  intros HI Ht Hfd. eapply put_Inv; [exact HI|done|done|].
  intros g. rewrite cnt_cons. unfold slot_cnt. rewrite (decide_False (P := None = Some g)) by done.
  destruct (decide (f = g)) as [->|Hne]; [rewrite decide_True by done|rewrite decide_False by congruence];
    destruct g; try done; lia.
Qed.

Lemma drop_pair_Inv k held f g :
  Inv k (f :: g :: held) -> exists k', (drop_file g (drop_file f k).1).1 = k' /\ Inv k' held.
Proof.
  intros HI. destruct (drop_Inv k _ f HI) as (k1 & H1 & _ & HI1). rewrite H1. simpl.
  destruct (drop_Inv k1 _ g HI1) as (k2 & H2 & _ & HI2). rewrite H2. by exists k2.
Qed.

Lemma pipe_Inv k held t l k' r :
  Inv k held -> ktabs k !! t = Some l -> FileTable.pipe t k = (k', r) -> Inv k' held.
Proof.
  intros HI Ht. set (p := knext k). pose proof (new_pipe_Inv k held HI) as HI1. cbn zeta in HI1. fold p in HI1.
  set (k1 := mk_kernel (kfs k) (<[p := new_state]> (kpipes k)) (ksocks k) (S p) (ktabs k)) in *.
  unfold FileTable.pipe.
  set (k0 := mk_kernel (kfs k) (kpipes k) (ksocks k) (S p) (ktabs k)).
  rewrite (kbind_Ok fresh _ k k0 p eq_refl).
  rewrite (kbind_Ok (set_pipes (insert p new_state)) _ k0 k1 tt eq_refl).
  destruct (take_slot_spec k1 _ t l HI1 Ht) as [(k2 & fd & l2 & Hs & Ht2 & Hfd & _ & HI2)|(Hs & _)]; rewrite Hs.
  2: { destruct (drop_pair_Inv _ _ _ _ HI1) as (k3 & -> & HI3). by intros [= <- <-]. }
  destruct (store_Inv k2 _ t l2 fd _ HI2 Ht2 Hfd) as (k3 & H3 & Ht3 & HI3). rewrite H3. cbn [fst].
  assert (ktabs k3 !! t = Some (<[fd := Some (PipeRead p)]> l2)) as Ht3'.
  { rewrite Ht3. apply list_lookup_insert_eq. by eapply lookup_lt_Some. }
  destruct (take_slot_spec k3 _ t _ HI3 Ht3') as [(k4 & wfd & l4 & Hs4 & Ht4 & Hfd4 & _ & HI4)|(Hs4 & _)]; rewrite Hs4.
  - destruct (store_Inv k4 _ t l4 wfd _ HI4 Ht4 Hfd4) as (k5 & H5 & _ & HI5). rewrite H5. by intros [= <- <-].
  - destruct (unstore_Inv k3 _ t _ fd (PipeRead p) HI3 Ht3') as (k5 & H5 & _ & HI5).
    { apply list_lookup_insert_eq. by eapply lookup_lt_Some. }
    rewrite H5. cbn [fst]. destruct (drop_pair_Inv _ _ _ _ HI5) as (k6 & -> & HI6). by intros [= <- <-].
Qed.

Lemma socket_Inv k held t l kd k' r :
  Inv k held -> ktabs k !! t = Some l -> socket t kd k = (k', r) -> Inv k' held.
Proof.
  intros HI Ht. unfold socket. set (n := knext k).
  assert (forall f, f = Udp n \/ f = Tcp n ->
    let k1 := mk_kernel (kfs k) (kpipes k) (<[n := 1]> (ksocks k)) (S n) (ktabs k) in
    match take_slot t k1 with
    | (k, Ok fd) => ((put_fd t fd (Some f) k).1, Ok fd)
    | (k, Err e) => ((drop_file f k).1, Err e)
    | (k, r) => (k, match r with Hang => Hang | _ => Panic end)
    end = (k', r) -> Inv k' held) as Hgo.
  { intros f Hf k1. pose proof (new_sock_Inv k held f HI Hf) as HI1. cbn zeta in HI1. fold k1 in HI1.
    destruct (take_slot_spec k1 _ t l HI1 Ht) as [(k2 & fd & l2 & Hs & Ht2 & Hfd & _ & HI2)|(Hs & _)]; rewrite Hs.
    - destruct (store_Inv k2 _ t l2 fd _ HI2 Ht2 Hfd) as (k3 & H3 & _ & HI3). rewrite H3. by intros [= <- <-].
    - destruct (drop_Inv k1 _ f HI1) as (k2 & H2 & _ & HI2). rewrite H2. by intros [= <- <-]. }
  destruct (kd =? SOCKET_UDP); [apply (Hgo (Udp n)); by left|].
  destruct (kd =? SOCKET_TCP); [apply (Hgo (Tcp n)); by right|]. by intros [= <- <-].
Qed.

(** ** A child's table *)

Lemma drop_all_Inv k child held :
  Inv k (child ++ held) ->
  Inv (fold_left (fun k f => (drop_file f k).1) child k) held /\
  ktabs (fold_left (fun k f => (drop_file f k).1) child k) = ktabs k.
Proof.
  revert k. induction child as [|f child IH]; intros k HI; [done|]. simpl.
  destruct (drop_Inv k _ f HI) as (k1 & H1 & Ht & HI1). rewrite H1. simpl. rewrite <- Ht. by apply IH.
Qed.

Lemma inherit_loop_Inv k held t l stdio child k' r :
  Inv k (child ++ held) -> ktabs k !! t = Some l -> inherit_loop l stdio child k = (k', r) ->
  match r with Ok c => Inv k' (c ++ held) | _ => Inv k' held end.
Proof.
  revert k child. induction stdio as [|fd rest IH]; intros k child HI Ht; cbn [inherit_loop].
  - by intros [= <- <-].
  - destruct (get_fd l fd) as [f|] eqn:Ef.
    + destruct (clone_Inv k _ f HI (get_fd_ends k _ t l fd f Ht Ef)) as (k1 & Hc & Ht1 & HI1).
      rewrite (kbind_Ok _ _ _ _ _ Hc). apply IH; [|by rewrite Ht1].
      destruct HI1 as [HC Hl]. split; [|done]. apply (Counts_ext _ _ _ _ _ HC). intros g. unfold ends.
      rewrite !cnt_app, !cnt_cons, !cnt_app. change (cnt g []) with 0. lia.
    + intros [= <- <-]. by apply drop_all_Inv.
Qed.

Lemma omap_id_Some (l : list OpenFile) : omap id (Some <$> l) = l.
Proof. induction l as [|f l IH]; [done|]. cbn. by f_equal. Qed.

(** [inherit] copies at most as many descriptors as the child has slots for. *)
Lemma inherit_loop_length l stdio child k k' c :
  inherit_loop l stdio child k = (k', Ok c) -> length c = (length child + length stdio)%nat.
Proof.
  revert k child. induction stdio as [|fd rest IH]; intros k child; cbn [inherit_loop].
  - intros [= <- <-]. simpl. lia.
  - destruct (get_fd l fd) as [f|]; [|done]. intros Hrun. apply kbind_inv_Ok in Hrun as (? & k1 & _ & Hrun).
    apply IH in Hrun. rewrite length_app in Hrun. simpl in *. lia.
Qed.

Lemma add_table_Inv k held child :
  Inv k (child ++ held) -> zlen child <= MAX_FDS ->
  Inv (mk_kernel (kfs k) (kpipes k) (ksocks k) (knext k) (ktabs k ++ [Some <$> child])) held.
Proof.
  intros [HC Hl] Hlen. split; simpl.
  - apply (Counts_ext _ _ _ _ _ HC). intros g. unfold ends. simpl.
    rewrite concat_app. simpl. rewrite app_nil_r, omap_app, omap_id_Some, !cnt_app. lia.
  - apply Forall_app. split; [done|]. apply Forall_singleton. unfold zlen in *. by rewrite length_fmap.
Qed.

Lemma inherit_Inv k held t l stdio k' r :
  Inv k held -> ktabs k !! t = Some l -> zlen stdio <= MAX_FDS -> inherit t stdio k = (k', r) -> Inv k' held.
Proof.
  intros HI Ht Hst. unfold inherit. rewrite (kbind_Ok _ _ _ _ _ (get_tab_spec k t l Ht)). unfold kbind.
  destruct (inherit_loop l stdio [] k) as [k1 r1] eqn:E.
  pose proof (inherit_loop_Inv k held t l stdio [] k1 r1 HI Ht E) as HI1.
  destruct r1 as [c|e| |]; intros [= <- <-]; [|done..]. apply add_table_Inv; [done|].
  apply inherit_loop_length in E. unfold zlen in *. simpl in E. lia.
Qed.

(** The last [Arc] of a table goes away: its files are dropped. *)
Definition drop_table (t : nat) : M kernel unit :=
  let! l := get_tab t in
  run! set_tab t [] in
  fun k => (fold_left (fun k f => (drop_file f k).1) (omap id l) k, Ok tt).

Lemma drop_table_Inv k held t l k' r :
  Inv k held -> ktabs k !! t = Some l -> drop_table t k = (k', r) -> Inv k' held.
Proof.
  intros [HC Hl] Ht. unfold drop_table. rewrite (kbind_Ok _ _ _ _ _ (get_tab_spec k t l Ht)).
  intros [= <- <-]. apply drop_all_Inv. split; simpl.
  - apply (Counts_ext _ _ _ _ _ HC). intros f. unfold ends. simpl. rewrite !cnt_app.
    pose proof (cnt_concat_insert f (ktabs k) t l [] Ht) as Hc. simpl in Hc. change (cnt f []) with 0 in Hc. lia.
  - by apply Forall_insert.
Qed.

(** * The system of tables *)

(** One call of one process, with the ends held by unfinished calls before
    and after it.  [S_finish]: a call that blocked drops its clone;
    [S_exec] and [S_exit]: a table is made with the console or goes away. *)
Inductive step : kernel * list OpenFile -> kernel * list OpenFile -> Prop :=
| S_open k held t l name fl k' r :
    ktabs k !! t = Some l -> open t name fl k = (k', r) -> step (k, held) (k', held)
| S_pipe k held t l k' r :
    ktabs k !! t = Some l -> FileTable.pipe t k = (k', r) -> step (k, held) (k', held)
| S_socket k held t l kd k' r :
    ktabs k !! t = Some l -> socket t kd k = (k', r) -> step (k, held) (k', held)
| S_connect k held t l fd k' r :
    ktabs k !! t = Some l -> connect t fd k = (k', r) -> step (k, held) (k', connect_end r ++ held)
| S_udp k held t l fd k' r :
    ktabs k !! t = Some l -> udp t fd k = (k', r) -> step (k, held) (k', udp_end r ++ held)
| S_read k held t l fd buf k' r :
    ktabs k !! t = Some l -> read t fd buf k = (k', r) -> step (k, held) (k', io_end true r ++ held)
| S_write k held t l fd data k' r :
    ktabs k !! t = Some l -> write t fd data k = (k', r) -> step (k, held) (k', io_end false r ++ held)
| S_close k held t l fd k' r :
    ktabs k !! t = Some l -> close t fd k = (k', r) -> step (k, held) (k', held)
| S_seek k held t l fd off wh k' r :
    ktabs k !! t = Some l -> seek t fd off wh k = (k', r) -> step (k, held) (k', held)
| S_spawn k held t l fd0 fd1 fd2 k' r :
    ktabs k !! t = Some l -> inherit t [fd0; fd1; fd2] k = (k', r) -> step (k, held) (k', held)
| S_exec k held :
    step (k, held) (mk_kernel (kfs k) (kpipes k) (ksocks k) (knext k) (ktabs k ++ [with_console]), held)
| S_exit k held t l k' r :
    ktabs k !! t = Some l -> drop_table t k = (k', r) -> step (k, held) (k', held)
| S_finish k held1 held2 f k' r :
    drop_file f k = (k', r) -> step (k, held1 ++ f :: held2) (k', held1 ++ held2).

Definition boot (s : fs D) : kernel := mk_kernel s ∅ ∅ 0 [with_console].
Definition reachable (s : fs D) : kernel * list OpenFile -> Prop := rtc step (boot s, []).

Lemma fd_step_Inv x y : Inv x.1 x.2 -> step x y -> Inv y.1 y.2.
Proof.
  intros HI Hs. destruct Hs; simpl in *.
  - by eapply open_Inv.
  - by eapply pipe_Inv.
  - by eapply socket_Inv.
  - by eapply connect_Inv.
  - by eapply udp_Inv.
  - by eapply read_Inv.
  - by eapply write_Inv.
  - by eapply close_Inv.
  - by eapply seek_Inv.
  - by eapply (inherit_Inv k held t l [fd0; fd1; fd2] k' r).
  - apply (add_table_Inv k held (replicate 3 Console)); [|done].
    destruct HI as [HC Hl]. split; [|done]. apply (Counts_plain _ _ _ _ _ HC).
    intros g. unfold ends. rewrite !cnt_app.
    destruct g; try done; replace (cnt _ (replicate 3 Console)) with 0 by done; lia.
  - by eapply drop_table_Inv.
  - assert (Inv k (f :: held1 ++ held2)) as HI'.
    { destruct HI as [HC Hl]. split; [|done]. apply (Counts_ext _ _ _ _ _ HC). intros g. unfold ends.
      rewrite !cnt_app, !cnt_cons, !cnt_app. lia. }
    destruct (drop_Inv k _ f HI') as (k1 & Hd & _ & HI1). rewrite Hd in H0. by simplify_eq.
Qed.

Lemma fd_reachable_Inv s x : reachable s x -> Inv x.1 x.2.
Proof.
  intros Hr. pattern x. eapply rtc_ind_r; [| |exact Hr].
  - split; simpl; [|by repeat constructor].
    assert (forall f, match f with Console | Disk _ => True | _ => cnt f (ends (boot s) []) = 0 end) as H0
      by (intros []; done).
    split; try (intros *; by rewrite lookup_empty); try done.
    + intros p. rewrite !cnt_pos, (H0 (PipeRead p)), (H0 (PipeWrite p)). lia.
    + intros p. rewrite !cnt_pos, (H0 (Udp p)), (H0 (Tcp p)). lia.
  - intros a b _ Hab IH. by eapply fd_step_Inv.
Qed.

(** C28: Descriptor bookkeeping is exact.  In every state the system calls of
    any number of processes can reach, errors and full tables included, the
    reader and writer counts of every pipe are the numbers of its open read
    and write ends, in tables and in blocked calls; every open end's pipe
    exists; the reference count of every socket is the number of its
    descriptors and callers; and no table has more than 32 slots.  So a reader
    sees the end of the stream exactly when the last write end is closed. *)
Theorem fd_counts_exact s k held :
  reachable s (k, held) ->
  (forall p st, kpipes k !! p = Some st ->
     readers st = cnt (PipeRead p) (ends k held) /\ writers st = cnt (PipeWrite p) (ends k held)) /\
  (forall p, PipeRead p ∈ ends k held \/ PipeWrite p ∈ ends k held -> is_Some (kpipes k !! p)) /\
  (forall i c, ksocks k !! i = Some c -> c = cnt (Udp i) (ends k held) + cnt (Tcp i) (ends k held)) /\
  Forall (fun l => zlen l <= MAX_FDS) (ktabs k).
Proof. intros Hr. destruct (fd_reachable_Inv s _ Hr) as [[H1 H2 H3 _ _] Hl]. done. Qed.
End inv.

(** [free_slot] takes the lowest free descriptor and grows the table by
    one slot only if there is none; it fails exactly when all 32 descriptors
    of a full table are in use. *)
Theorem free_slot_lowest l :
  zlen l <= MAX_FDS ->
  match free_slot l with
  | Some (fd, l') => l' !! fd = Some None /\ Z.of_nat fd < MAX_FDS /\
      (forall i, (i < fd)%nat -> exists f, l !! i = Some (Some f)) /\
      (forall i f, l !! i = Some (Some f) <-> l' !! i = Some (Some f))
  | None => zlen l = MAX_FDS /\ Forall is_Some l
  end.
Proof.
  intros Hl. unfold free_slot. destruct (position_none l) as [fd|] eqn:E.
  - pose proof (position_none_Some l fd E) as Hfd. split; [done|].
    split; [apply lookup_lt_Some in Hfd; unfold zlen in Hl; lia|]. split; [|done].
    clear Hl Hfd. revert fd E. induction l as [|[f|] l IH]; intros fd; simpl; [done| |intros [= <-] i; lia].
    destruct (position_none l) as [j|]; [|done]. intros [= <-] [|i] Hi; [by exists f|].
    apply (IH j eq_refl). lia.
  - apply position_none_None in E. destruct (Z.ltb_spec (zlen l) MAX_FDS); [|split; [lia|done]].
    split; [by rewrite lookup_app_r, Nat.sub_diag|]. split; [done|]. split.
    + intros i Hi. destruct (lookup_lt_is_Some_2 l i Hi) as [o Ho].
      pose proof (proj1 (Forall_lookup _ _) E i o Ho) as [f ->]. by exists f.
    + intros i f. split; intros Hi.
      * by apply lookup_app_l_Some.
      * apply lookup_app_Some in Hi as [Hi|[_ Hi]]; [done|].
        apply list_lookup_singleton_Some in Hi as [_ ?]. done.
Qed.

Lemma free_slot_lowest_witness :
  match free_slot [Some Console; None; Some Console] with
  | Some (fd, l') => l' !! fd = Some None /\ Z.of_nat fd < MAX_FDS /\
      (forall i, (i < fd)%nat -> exists f, [Some Console; None; Some Console] !! i = Some (Some f)) /\
      (forall i f, [Some Console; None; Some Console] !! i = Some (Some f) <-> l' !! i = Some (Some f))
  | None => zlen [Some Console; None; Some Console] = MAX_FDS /\ Forall is_Some [Some Console; None; Some Console]
  end.
Proof. apply (free_slot_lowest [Some Console; None; Some Console]). vm_compute. discriminate. Defined.

(** A process that has opened a pipe and blocks in a read of it. *)
Import Ram.

Definition no_disk : fs ram_disk := mk_fs None [].
Definition piped : @kernel ram_disk * list OpenFile :=
  (mk_kernel no_disk {[0%nat := mk_state [] 2 1]} ∅ 1
     [[Some Console; Some Console; Some Console; Some (PipeRead 0); Some (PipeWrite 0)]], [PipeRead 0]).

Lemma piped_reachable : reachable no_disk piped.
Proof.
  unfold reachable. eapply rtc_l; [eapply (S_pipe _ _ 0); vm_compute; reflexivity|].
  eapply rtc_l; [eapply (S_read _ _ 0 _ 3 [0; 0]); vm_compute; reflexivity|].
  apply rtc_refl.
Qed.

Lemma fd_counts_exact_witness :
  readers (mk_state [] 2 1) = cnt (PipeRead 0) (ends piped.1 piped.2) /\
  writers (mk_state [] 2 1) = cnt (PipeWrite 0) (ends piped.1 piped.2).
Proof.
  destruct (fd_counts_exact no_disk piped.1 piped.2 piped_reachable) as [Hp _].
  apply (Hp 0%nat). reflexivity.
Defined.
