(* ===== verification/Frame.v ===== *)
(** Physical memory and its frames (src/src/memory/mod.rs, frame.rs).

    Memory is a map from byte addresses to bytes, read and written in 64-bit
    words.  [FrameAllocator] is the boot allocator that walks the UEFI memory
    map; [pool] is the global frame pool that serves released frames from a
    free list threaded through the frames themselves and falls back on the
    boot allocator. *)

From S2P Require Import Prelude.

Definition PAGE_SIZE : Z := 4096.

(** * Memory *)

Definition mem : Type := Z -> Z.

Definition read64 (m : mem) (a : Z) : Z := le_val ((fun i => m (a + i)) <$> seqZ 0 8).

(** [copy_nonoverlapping(src, a, src.len())] *)
Definition store (m : mem) (a : Z) (src : list Z) : mem :=
  fun b => if (a <=? b) && (b <? a + zlen src) then byte_at src (b - a) else m b.

Definition write64 (m : mem) (a x : Z) : mem := store m a (le_bytes 8 x).

(** [write_bytes(frame, 0, PAGE_SIZE)] and [PageTable::zero] *)
Definition zero_page (m : mem) (a : Z) : mem :=
  fun b => if (a <=? b) && (b <? a + PAGE_SIZE) then 0 else m b.

(** * The boot allocator *)

Definition EFI_CONVENTIONAL_MEMORY : Z := 7.

(** The fields of [EFI_MEMORY_DESCRIPTOR] the kernel reads. *)
Record descriptor : Type := mk_desc { Type_ : Z; PhysicalStart : Z; NumberOfPages : Z }.

Record FrameAllocator : Type := mk_fa {
  memory_map : list descriptor;
  current_descriptor_index : nat;
  current_page_offset : Z;
}.

(** The [while] loop over the descriptors from [idx] on, [rest] of the map. *)
Fixpoint alloc_loop (rest : list descriptor) (idx : nat) (off : Z) : nat * Z * option Z :=
  match rest with
  | [] => (idx, off, None)
  | d :: rest =>
      let frame_address := PhysicalStart d + off * PAGE_SIZE in
      if (Type_ d =? EFI_CONVENTIONAL_MEMORY) && (off <? NumberOfPages d) && (0 <? frame_address)
      then (idx, off + 1, Some frame_address)
      else alloc_loop rest (S idx) 0
  end.

Definition allocate_frame (fa : FrameAllocator) : FrameAllocator * option Z :=
  let '(idx, off, r) :=
    alloc_loop (drop (current_descriptor_index fa) (memory_map fa))
      (current_descriptor_index fa) (current_page_offset fa) in
  (mk_fa (memory_map fa) idx off, r).

(** [while found < count]; every frame it asks for is used up. *)
Fixpoint contiguous_loop (fuel : nat) (fa : FrameAllocator) (count start found : Z)
  : FrameAllocator * res (option Z) :=
  if found <? count then
    match fuel with
    | O => (fa, Hang)
    | S fuel =>
        match allocate_frame fa with
        | (fa, Some next) =>
            if next =? start + found * PAGE_SIZE
            then contiguous_loop fuel fa count start (found + 1)
            else contiguous_loop fuel fa count next 1
        | (fa, None) => (fa, Ok None)
        end
    end
  else (fa, Ok (Some start)).

(** The frames a memory map can hand out. *)
Definition desc_pages (d : descriptor) : Z :=
  if Type_ d =? EFI_CONVENTIONAL_MEMORY then Z.max 0 (NumberOfPages d) else 0.
Definition map_pages (l : list descriptor) : Z := foldr (fun d n => desc_pages d + n) 0 l.

Definition allocate_contiguous (fa : FrameAllocator) (count : Z) : FrameAllocator * res (option Z) :=
  if count =? 0 then (fa, Ok None) else
  match allocate_frame fa with
  | (fa, Some start) => contiguous_loop (Z.to_nat (map_pages (memory_map fa)) + 1) fa count start 1
  | (fa, None) => (fa, Ok None)
  end.

(** * The frame pool *)

Record FrameState : Type := mk_frames {
  bump : option FrameAllocator;
  free_head : Z;
  free_count : Z;
  in_use : Z;
}.

Record phys : Type := mk_phys { pmem : mem; frames : FrameState }.

Definition frames_init : FrameState := mk_frames None 0 0 0.

Definition commit_frame_allocator (p : phys) (alloc : FrameAllocator) : phys :=
  mk_phys (pmem p)
    (mk_frames (Some alloc) (free_head (frames p)) (free_count (frames p)) (in_use (frames p))).

Definition alloc_frame (p : phys) : phys * option Z :=
  let st := frames p in
  if negb (free_head st =? 0) then
    let frame := free_head st in
    (mk_phys (zero_page (pmem p) frame)
       (mk_frames (bump st) (read64 (pmem p) frame) (free_count st - 1) (in_use st + 1)), Some frame)
  else
    match bump st with
    | None => (p, None)
    | Some fa =>
        match allocate_frame fa with
        | (fa, Some frame) =>
            (mk_phys (zero_page (pmem p) frame)
               (mk_frames (Some fa) (free_head st) (free_count st) (in_use st + 1)), Some frame)
        | (fa, None) =>
            (mk_phys (pmem p) (mk_frames (Some fa) (free_head st) (free_count st) (in_use st)), None)
        end
    end.

Definition free_frame (p : phys) (frame : Z) : phys :=
  let st := frames p in
  mk_phys (write64 (pmem p) frame (free_head st))
    (mk_frames (bump st) frame (free_count st + 1) (in_use st - 1)).

Definition frames_in_use (p : phys) : Z := in_use (frames p).

(** * Lemmas on memory *)

Lemma store_other m a src b : ~ a <= b < a + zlen src -> store m a src b = m b.
Proof. unfold store. zcase; simpl; lia || done. Qed.

Lemma fmap_store m a src : (fun i => store m a src (a + i)) <$> seqZ 0 (zlen src) = src.
Proof.
  apply list_eq. intros i. rewrite list_lookup_fmap. destruct (decide (i < length src)%nat) as [Hi|Hi].
  - rewrite (proj2 (lookup_seqZ 0 (zlen src) i (Z.of_nat i))) by (unfold zlen; lia). simpl.
    destruct (lookup_lt_is_Some_2 src i Hi) as [b Hb]. unfold store.
    assert (a + Z.of_nat i - a = Z.of_nat i) as -> by lia. unfold byte_at.
    rewrite Nat2Z.id, nth_lookup, Hb. unfold zlen. zcase; simpl; lia || done.
  - rewrite (lookup_ge_None_2 src) by lia. rewrite lookup_ge_None_2; [done|].
    rewrite length_seqZ. unfold zlen. lia.
Qed.

Lemma read64_write64 m a x : 0 <= x < 2 ^ 64 -> read64 (write64 m a x) a = x.
Proof.
  intros Hx. unfold read64, write64. change 8 with (zlen (le_bytes 8 x)). rewrite fmap_store.
  rewrite le_val_le_bytes. by apply Z.mod_small.
Qed.

Lemma read64_ext m m' a : (forall b, a <= b < a + 8 -> m' b = m b) -> read64 m' a = read64 m a.
Proof.
  intros Hm. unfold read64. f_equal. apply list_fmap_ext. intros i x Hx. apply lookup_seqZ in Hx.
  apply Hm. lia.
Qed.

Lemma read64_write64_ne m a a' x : a + 8 <= a' \/ a' + 8 <= a -> read64 (write64 m a x) a' = read64 m a'.
Proof.
  intros Ha. apply read64_ext. intros b Hb. apply store_other. unfold zlen. rewrite length_le_bytes. lia.
Qed.

Lemma write64_other m a x b : ~ a <= b < a + 8 -> write64 m a x b = m b.
Proof. intros. apply store_other. unfold zlen. by rewrite length_le_bytes. Qed.

Lemma zero_page_other m a b : ~ a <= b < a + PAGE_SIZE -> zero_page m a b = m b.
Proof. unfold zero_page. zcase; simpl; lia || done. Qed.

Lemma read64_zero m a i : 0 <= i -> i + 8 <= PAGE_SIZE -> read64 (zero_page m a) (a + i) = 0.
Proof.
  intros Hi Hle. unfold read64.
  replace ((fun j => zero_page m a (a + i + j)) <$> seqZ 0 8) with (replicate 8 0); [done|].
  apply list_eq. intros k. rewrite list_lookup_fmap. destruct (decide (k < 8)%nat) as [Hk|Hk].
  - rewrite (proj2 (lookup_seqZ 0 8 k (Z.of_nat k))) by lia. rewrite lookup_replicate_2 by done. simpl.
    unfold zero_page. zcase; simpl; lia || done.
  - rewrite !lookup_ge_None_2; [done|rewrite length_seqZ; lia|rewrite length_replicate; lia].
Qed.
