(* ===== verification/FrameProofs.v ===== *)
(** Correctness of the boot allocator and of the frame pool. *)

From S2P Require Import Prelude Frame.

(** * The boot allocator hands out a fixed sequence of frames *)

(** Pages [off ..] of a descriptor.  A region that starts at address 0 yields
    nothing: its first page is refused, and the allocator then moves on to
    the next descriptor. *)
Definition desc_frames (d : descriptor) (off : Z) : list Z :=
  if (Type_ d =? EFI_CONVENTIONAL_MEMORY) && (off <? NumberOfPages d) &&
     (0 <? PhysicalStart d + off * PAGE_SIZE)
  then (fun k => PhysicalStart d + k * PAGE_SIZE) <$> seqZ off (NumberOfPages d - off)
  else [].

Definition future_from (rest : list descriptor) (off : Z) : list Z :=
  match rest with
  | [] => []
  | d :: rest => desc_frames d off ++ concat ((fun d => desc_frames d 0) <$> rest)
  end.

Definition future (fa : FrameAllocator) : list Z :=
  future_from (drop (current_descriptor_index fa) (memory_map fa)) (current_page_offset fa).

(** The offset is not negative and the current region does not start at 0
    once a page of it was handed out. *)
Definition fa_ok (fa : FrameAllocator) : Prop :=
  0 <= current_page_offset fa /\
  Forall (fun d => 0 <= PhysicalStart d) (memory_map fa).

Lemma concat_desc rest : concat ((fun d => desc_frames d 0) <$> rest) = future_from rest 0.
Proof. by destruct rest. Qed.

Lemma alloc_loop_spec rest idx off :
  0 <= off -> Forall (fun d => 0 <= PhysicalStart d) rest ->
  match future_from rest off with
  | [] => exists idx', alloc_loop rest idx off = (idx', if rest is [] then off else 0, None) /\
            idx' = (idx + length rest)%nat
  | f :: fs => exists k off', alloc_loop rest idx off = ((idx + k)%nat, off', Some f) /\
            0 <= off' /\ future_from (drop k rest) off' = fs
  end.
Proof.
  intros Hoff Hst. revert idx off Hoff. induction Hst as [|d rest Hd Hst IH]; intros idx off Hoff.
  { exists idx. simpl. split; [done|]. lia. }
  cbn [future_from alloc_loop]. unfold desc_frames at 1.
  destruct ((Type_ d =? EFI_CONVENTIONAL_MEMORY) && (off <? NumberOfPages d) &&
            (0 <? PhysicalStart d + off * PAGE_SIZE)) eqn:E.
  - apply andb_true_iff in E as [E E3]. apply andb_true_iff in E as [E1 E2].
    apply Z.ltb_lt in E2, E3. rewrite seqZ_cons by lia. cbn.
    exists 0%nat, (off + 1). rewrite Nat.add_0_r. split; [done|]. split; [lia|]. simpl. f_equal.
    unfold desc_frames. rewrite E1. simpl.
    destruct (Z.ltb_spec (off + 1) (NumberOfPages d)) as [Hlt|Hge].
    + destruct (Z.ltb_spec 0 (PhysicalStart d + (off + 1) * PAGE_SIZE)); [|unfold PAGE_SIZE in *; lia]. simpl.
      f_equal. f_equal; lia.
    + replace (Z.pred (NumberOfPages d - off)) with 0 by lia. done.
  - rewrite concat_desc. simpl. specialize (IH (S idx) 0 ltac:(lia)).
    destruct (future_from rest 0) as [|f fs].
    + destruct IH as (idx' & -> & ->). exists (S idx + length rest)%nat. split; [by destruct rest|lia].
    + destruct IH as (k & off' & -> & Ho & Hf). exists (S k), off'. split; [f_equal; f_equal; lia|]. done.
Qed.

Lemma allocate_frame_spec fa :
  fa_ok fa ->
  exists fa', allocate_frame fa = (fa', head (future fa)) /\ future fa' = tail (future fa) /\
    fa_ok fa' /\ memory_map fa' = memory_map fa.
Proof.
  intros [Hoff Hst]. unfold allocate_frame, future.
  pose proof (alloc_loop_spec (drop (current_descriptor_index fa) (memory_map fa))
    (current_descriptor_index fa) (current_page_offset fa) Hoff (Forall_drop _ _ _ Hst)) as Hl.
  destruct (future_from _ _) as [|f fs] eqn:E.
  - destruct Hl as (idx' & -> & ->). eexists. split; [done|]. simpl. split; [|split; [|done]].
    + rewrite drop_ge; [done|]. rewrite length_drop. lia.
    + split; simpl; [|done]. by destruct (drop _ _).
  - destruct Hl as (k & off' & -> & Ho & Hf). eexists. split; [done|]. simpl.
    rewrite <- drop_drop. split; [done|]. by split.
Qed.

(** ** Disjoint regions *)

Definition region_end (d : descriptor) : Z := PhysicalStart d + NumberOfPages d * PAGE_SIZE.
Definition conventional (d : descriptor) : Prop := Type_ d = EFI_CONVENTIONAL_MEMORY.

(** A memory map as the UEFI specification describes it: page-aligned
    regions below the physical address limit of x86-64, and conventional regions
    do not overlap. *)
Record map_ok (l : list descriptor) : Prop := {
  mo_align : Forall (fun d => 0 <= PhysicalStart d /\ PhysicalStart d mod PAGE_SIZE = 0 /\
    region_end d <= 2 ^ 52) l;
  mo_disjoint : ForallOrdPairs (fun d e => conventional d -> conventional e ->
    region_end d <= PhysicalStart e \/ region_end e <= PhysicalStart d) l;
}.

Lemma elem_desc_frames d off f :
  0 <= off -> f ∈ desc_frames d off ->
  conventional d /\ PhysicalStart d <= f /\ f + PAGE_SIZE <= region_end d /\
  exists k, off <= k /\ f = PhysicalStart d + k * PAGE_SIZE.
Proof.
  intros Hoff. unfold desc_frames. destruct (_ && _) eqn:E; [|intros Hf; by apply not_elem_of_nil in Hf].
  apply andb_true_iff in E as [E _]. apply andb_true_iff in E as [E1 E2]. apply Z.eqb_eq in E1.
  intros (k & -> & Hk)%list_elem_of_fmap. apply elem_of_seqZ in Hk. unfold region_end, PAGE_SIZE in *.
  split_and!; [done|lia|lia|]. exists k. split; lia.
Qed.

Lemma desc_frames_pos d off f :
  0 <= PhysicalStart d -> 0 <= off -> f ∈ desc_frames d off -> 0 < f.
Proof.
  intros Hs Hoff. unfold desc_frames. destruct (_ && _) eqn:E; [|intros Hf; by apply not_elem_of_nil in Hf].
  apply andb_true_iff in E as [_ E]. apply Z.ltb_lt in E.
  intros (k & -> & Hk)%list_elem_of_fmap. apply elem_of_seqZ in Hk. unfold PAGE_SIZE in *. lia.
Qed.

Lemma NoDup_desc_frames d off : NoDup (desc_frames d off).
Proof.
  unfold desc_frames. destruct (_ && _); [|constructor]. apply NoDup_fmap_2_strong; [|apply NoDup_seqZ].
  intros x y _ _. unfold PAGE_SIZE. lia.
Qed.

Lemma elem_future rest off f :
  0 <= off -> f ∈ future_from rest off ->
  exists d off', d ∈ rest /\ 0 <= off' /\ f ∈ desc_frames d off'.
Proof.
  intros Hoff. destruct rest as [|d rest]; [intros Hf; by apply not_elem_of_nil in Hf|].
  simpl. intros [Hf|Hf]%elem_of_app; [exists d, off; split_and!; [left|done|done]|].
  apply list_elem_of_In, in_concat in Hf as (l & Hl & Hf).
  apply list_elem_of_In, list_elem_of_fmap in Hl as (e & -> & He). apply list_elem_of_In in Hf.
  exists e, 0. split_and!; [by right|lia|done].
Qed.

Lemma NoDup_future rest off :
  0 <= off -> map_ok rest -> NoDup (future_from rest off).
Proof.
  revert off. induction rest as [|d rest IH]; intros off Hoff [Ha Hd]; [constructor|].
  inversion Hd as [|? ? Hd1 Hd2]; subst. apply Forall_cons in Ha as [_ Ha]. simpl. rewrite concat_desc.
  apply NoDup_app. split; [apply NoDup_desc_frames|]. split; [|apply IH; [lia|by split]].
  intros f Hf Hf'. apply elem_desc_frames in Hf as (Hc & H1 & H2 & _); [|done].
  apply elem_future in Hf' as (e & off' & He & Ho & Hf'); [|lia].
  apply elem_desc_frames in Hf' as (Hc' & H1' & H2' & _); [|done].
  pose proof (proj1 (Forall_forall _ _) Hd1 e) as Hde. unfold PAGE_SIZE in *.
  destruct Hde as [?|?]; [done|done|done|lia|lia].
Qed.

Lemma map_ok_drop l n : map_ok l -> map_ok (drop n l).
Proof.
  intros [Ha Hd]. split; [by apply Forall_drop|]. clear Ha. revert n.
  induction Hd as [|d l Hd1 Hd2 IH]; intros [|n]; simpl; try by constructor. apply IH.
Qed.

Lemma map_ok_fa fa : map_ok (memory_map fa) -> 0 <= current_page_offset fa -> fa_ok fa.
Proof.
  intros [Ha _] Ho. split; [done|]. eapply Forall_impl; [exact Ha|]. by intros d [? _].
Qed.

(** A frame: page-aligned, not the null page, addressable. *)
Definition frame_ok (f : Z) : Prop := 0 < f < 2 ^ 52 /\ f mod PAGE_SIZE = 0.

Lemma future_frames fa f :
  map_ok (memory_map fa) -> 0 <= current_page_offset fa -> f ∈ future fa ->
  frame_ok f /\ exists d, d ∈ memory_map fa /\ conventional d /\ PhysicalStart d <= f /\ f + PAGE_SIZE <= region_end d.
Proof.
  intros [Ha _] Ho Hf. apply elem_future in Hf as (d & off & Hd & Hoff & Hf); [|done].
  assert (d ∈ memory_map fa) as Hin.
  { apply list_elem_of_lookup in Hd as [i Hi]. rewrite lookup_drop in Hi. by eapply list_elem_of_lookup_2. }
  rewrite Forall_forall in Ha. destruct (Ha d) as (Hs & Hal & Hend); [done|].
  pose proof (desc_frames_pos d off f Hs Hoff Hf) as Hpos.
  apply elem_desc_frames in Hf as (Hc & H1 & H2 & k & _ & Hk); [|done].
  split; [|by exists d]. split; [unfold PAGE_SIZE in *; lia|]. subst f.
  rewrite Z.mod_add by done. done.
Qed.

(** * Contiguous frames *)

Definition run (start n : Z) : list Z := (fun k => start + k * PAGE_SIZE) <$> seqZ 0 n.

Lemma run_snoc start n : 0 <= n -> run start (n + 1) = run start n ++ [start + n * PAGE_SIZE].
Proof. intros. unfold run. by rewrite seqZ_app, fmap_app by lia. Qed.

Lemma length_desc_frames d off : 0 <= off -> Z.of_nat (length (desc_frames d off)) <= desc_pages d.
Proof.
  intros Hoff. unfold desc_frames, desc_pages. destruct (Type_ d =? EFI_CONVENTIONAL_MEMORY); simpl; [|lia].
  destruct (_ && _); [|simpl; lia]. rewrite length_fmap, length_seqZ. lia.
Qed.

Lemma length_future_from rest off : 0 <= off -> Z.of_nat (length (future_from rest off)) <= map_pages rest.
Proof.
  revert off. induction rest as [|d rest IH]; intros off Hoff; [done|]. simpl. rewrite concat_desc, length_app.
  pose proof (length_desc_frames d off Hoff). specialize (IH 0 ltac:(lia)). lia.
Qed.

Lemma map_pages_drop n l : 0 <= map_pages (drop n l) <= map_pages l.
Proof.
  assert (forall k, 0 <= map_pages k) as Hpos.
  { induction k as [|d k IH]; simpl; [lia|]. unfold desc_pages. destruct (_ =? _); lia. }
  split; [apply Hpos|]. revert n. induction l as [|d l IH]; intros [|n]; simpl; try lia.
  specialize (IH n). unfold desc_pages. destruct (_ =? _); lia.
Qed.

Lemma contiguous_loop_spec fuel fa count start found :
  fa_ok fa -> 1 <= found <= count -> (length (future fa) < fuel)%nat ->
  exists fa' r, contiguous_loop fuel fa count start found = (fa', Ok r) /\
    match r with
    | Some st => exists pre, run start found ++ future fa = pre ++ run st count ++ future fa'
    | None => future fa' = []
    end.
Proof.
  revert fa start found. induction fuel as [|fuel IH]; intros fa start found Hfa Hfound Hfuel; [lia|].
  cbn [contiguous_loop]. destruct (Z.ltb_spec found count) as [Hlt|Hge].
  2: { assert (found = count) as -> by lia. exists fa, (Some start). split; [done|]. by exists []. }
  destruct (allocate_frame_spec fa Hfa) as (fa1 & -> & Hf1 & Hfa1 & _).
  destruct (future fa) as [|next fs] eqn:E; [by exists fa1, None|]. simpl in *.
  destruct (Z.eqb_spec next (start + found * PAGE_SIZE)) as [->|Hne].
  - destruct (IH fa1 start (found + 1) Hfa1) as (fa' & r & Hrun & Hr); [lia|rewrite Hf1; lia|].
    exists fa', r. split; [done|]. destruct r as [st|]; [|done]. destruct Hr as [pre Hr]. exists pre.
    rewrite <- Hr, Hf1, run_snoc by lia. by rewrite <- app_assoc.
  - destruct (IH fa1 next 1 Hfa1) as (fa' & r & Hrun & Hr); [lia|rewrite Hf1; lia|].
    exists fa', r. split; [done|]. destruct r as [st|]; [|done]. destruct Hr as [pre Hr].
    exists (run start found ++ pre). rewrite <- app_assoc, <- Hr, Hf1. f_equal. unfold run. simpl. f_equal. lia.
Qed.

Lemma allocate_contiguous_spec fa count :
  fa_ok fa -> 0 <= count ->
  exists fa' r, allocate_contiguous fa count = (fa', Ok r) /\
    match r with
    | Some st => exists pre, future fa = pre ++ run st count ++ future fa'
    | None => count = 0 \/ future fa' = []
    end.
Proof.
  intros Hfa Hc. unfold allocate_contiguous. destruct (Z.eqb_spec count 0); [exists fa, None; by eauto|].
  destruct (allocate_frame_spec fa Hfa) as (fa1 & -> & Hf1 & Hfa1 & Hmap).
  destruct (future fa) as [|start fs] eqn:E; [exists fa1, None; by eauto|]. simpl in *.
  destruct (contiguous_loop_spec (Z.to_nat (map_pages (memory_map fa1)) + 1) fa1 count start 1)
    as (fa' & r & Hrun & Hr); [done|lia| |].
  { destruct Hfa1 as [Ho _]. pose proof (length_future_from (drop (current_descriptor_index fa1) (memory_map fa1)) _ Ho).
    pose proof (map_pages_drop (current_descriptor_index fa1) (memory_map fa1)). unfold future. lia. }
  exists fa', r. split; [done|]. destruct r as [st|]; [|by right]. destruct Hr as [pre Hr]. exists pre.
  rewrite <- Hr, Hf1. unfold run. simpl. f_equal. lia.
Qed.

(** * The frame pool is a stack of free frames *)

(** The free list threaded through the first words of its frames. *)
Fixpoint free_list (m : mem) (head : Z) (fl : list Z) : Prop :=
  match fl with
  | [] => head = 0
  | f :: fl => head = f /\ free_list m (read64 m f) fl
  end.

Definition bump_future (b : option FrameAllocator) : list Z :=
  match b with Some fa => future fa | None => [] end.

(** [Pool p av A]: the frames [av] are available, the next one first, and the
    frames of [A] are in use. *)
Record Pool (p : phys) (av : list Z) (A : gset Z) : Prop := {
  pl_list : exists fl, free_list (pmem p) (free_head (frames p)) fl /\
    av = fl ++ bump_future (bump (frames p)) /\ free_count (frames p) = zlen fl;
  pl_bump : forall fa, bump (frames p) = Some fa -> fa_ok fa;
  pl_nodup : NoDup av;
  pl_ok : forall f, f ∈ av \/ f ∈ A -> frame_ok f;
  pl_disj : forall f, f ∈ A -> f ∉ av;
  pl_use : in_use (frames p) = Z.of_nat (size A);
}.

Lemma frames_apart f g b :
  frame_ok f -> frame_ok g -> f <> g -> f <= b < f + PAGE_SIZE -> ~ g <= b < g + PAGE_SIZE.
Proof. unfold frame_ok, PAGE_SIZE. intros [? ?] [? ?]. dlia. Qed.

Lemma free_list_ext m m' head fl :
  free_list m head fl -> (forall f b, f ∈ fl -> f <= b < f + 8 -> m' b = m b) -> free_list m' head fl.
Proof.
  revert head. induction fl as [|f fl IH]; intros head; [done|]. intros [-> Hl] Hm. split; [done|].
  rewrite (read64_ext m m' f); [|intros b Hb; apply (Hm f); [left|done]].
  apply IH; [done|]. intros g b Hg. apply Hm. by right.
Qed.

(** Writes to frames in use leave the pool alone. *)
Lemma pool_write p av A m' :
  Pool p av A -> (forall b, m' b = pmem p b \/ exists f, f ∈ A /\ f <= b < f + PAGE_SIZE) ->
  Pool (mk_phys m' (frames p)) av A.
Proof.
  intros [(fl & Hl & Hav & Hc) Hb Hnd Hok Hd Hu] Hm. split; simpl; try done.
  exists fl. split; [|done]. apply free_list_ext with (pmem p); [done|].
  intros f b Hf Hfb. destruct (Hm b) as [->|(g & Hg & Hgb)]; [done|].
  assert (f ∈ av) as Hfa by (rewrite Hav; apply elem_of_app; by left).
  exfalso. assert (f <> g) as Hne by (intros ->; by apply (Hd g)).
  apply (frames_apart f g b); auto. unfold PAGE_SIZE. lia.
Qed.

Lemma Pool_free_list p av A fl :
  Pool p av A -> free_list (pmem p) (free_head (frames p)) fl -> av = fl ++ bump_future (bump (frames p)) ->
  Forall frame_ok fl.
Proof.
  intros HP _ Hav. apply Forall_forall. intros f Hf. apply (pl_ok _ _ _ HP). left. rewrite Hav.
  apply elem_of_app. by left.
Qed.

(** Taking the first available frame out of a pool. *)
Lemma pool_take p av A f st' :
  Pool p (f :: av) A ->
  (exists fl, free_list (pmem p) (free_head st') fl /\ av = fl ++ bump_future (bump st') /\
     free_count st' = zlen fl) ->
  (forall fa, bump st' = Some fa -> fa_ok fa) -> in_use st' = in_use (frames p) + 1 ->
  Pool (mk_phys (zero_page (pmem p) f) st') av ({[f]} ∪ A) /\ (f ∉ A) /\ frame_ok f.
Proof.
  intros [_ _ Hnd Hok Hd Hu] (fl & Hl & Hav & Hc) Hb Hiu. apply NoDup_cons in Hnd as [Hf Hnd].
  assert (f ∉ A) as HfA by (intros HA; apply (Hd f HA); left).
  assert (frame_ok f) as Hfok by (apply Hok; left; left).
  split; [|done]. split; simpl; try done.
  - exists fl. split; [|done]. apply free_list_ext with (pmem p); [done|].
    intros g b Hg Hgb. apply zero_page_other. apply (frames_apart g f); try done.
    + apply Hok. left. right. rewrite Hav. apply elem_of_app. by left.
    + intros ->. apply Hf. rewrite Hav. apply elem_of_app. by left.
    + unfold PAGE_SIZE. lia.
  - intros g [Hg|Hg]; [apply Hok; left; by right|].
    apply elem_of_union in Hg as [->%elem_of_singleton|Hg]; [done|]. apply Hok. by right.
  - intros g [->%elem_of_singleton|Hg]%elem_of_union; [done|]. intros Hga. apply (Hd g Hg). by right.
  - rewrite size_union by set_solver. rewrite size_singleton. lia.
Qed.

Lemma alloc_frame_spec p av A :
  Pool p av A ->
  match av with
  | [] => exists p', alloc_frame p = (p', None) /\ Pool p' [] A /\ pmem p' = pmem p
  | f :: av' => exists p', alloc_frame p = (p', Some f) /\ Pool p' av' ({[f]} ∪ A) /\
      pmem p' = zero_page (pmem p) f /\ (f ∉ A) /\ frame_ok f
  end.
Proof.
  intros HP. pose proof HP as [(fl & Hl & Hav & Hc) Hb Hnd Hok Hd Hu]. unfold alloc_frame.
  destruct fl as [|f fl]; simpl in Hl.
  - rewrite Hl. simpl. destruct (bump (frames p)) as [fa|] eqn:Ebump; simpl in Hav; cycle 1.
    { subst av. exists p. by split. }
    destruct (allocate_frame_spec fa (Hb fa eq_refl)) as (fa' & -> & Hf' & Hfa' & _).
    rewrite <- Hav in *. destruct av as [|f av]; simpl in *.
    + eexists. split; [done|]. split; [|done]. split; simpl; try done.
      * exists []. split_and!; [done|by rewrite Hf'|done].
      * by intros ? [= <-].
    + destruct (pool_take p av A f (mk_frames (Some fa') (free_head (frames p)) (free_count (frames p))
        (in_use (frames p) + 1)) HP) as (HP' & HfA & Hfok); simpl; try done.
      * exists []. by rewrite Hf'.
      * by intros ? [= <-].
      * eexists. split; [done|]. by rewrite Hl in HP'.
  - destruct Hl as [Hh Hl]. rewrite Hav in *. simpl in *.
    assert (frame_ok f) as [Hf0 _] by (apply Hok; left; left).
    rewrite Hh. destruct (Z.eqb_spec f 0); [lia|]. simpl.
    destruct (pool_take p (fl ++ bump_future (bump (frames p))) A f
      (mk_frames (bump (frames p)) (read64 (pmem p) f) (free_count (frames p) - 1)
        (in_use (frames p) + 1)) HP) as (HP' & HfA & Hfok); simpl; try done.
    + exists fl. split_and!; [done..|]. rewrite Hc. unfold zlen. simpl. lia.
    + eexists. by split.
Qed.

Lemma free_frame_spec p av A f :
  Pool p av A -> f ∈ A -> Pool (free_frame p f) (f :: av) (A ∖ {[f]}).
Proof.
  intros HP HfA. pose proof HP as [(fl & Hl & Hav & Hc) Hb Hnd Hok Hd Hu].
  assert (frame_ok f) as Hfok by (apply Hok; by right).
  assert (Forall frame_ok fl) as Hfl by (by eapply Pool_free_list).
  split; simpl; try done.
  - exists (f :: fl). split; [|split; [by rewrite Hav|unfold zlen in *; simpl; lia]]. split; [done|].
    rewrite read64_write64.
    + apply free_list_ext with (pmem p); [done|]. intros g b Hg Hgb. apply write64_other.
      assert (g <> f) as Hne by (intros ->; apply (Hd f HfA); rewrite Hav; apply elem_of_app; by left).
      rewrite Forall_forall in Hfl. pose proof (frames_apart g f b (Hfl g Hg) Hfok Hne) as Hap.
      unfold PAGE_SIZE in *. lia.
    + destruct fl as [|g fl]; simpl in Hl; [lia|]. destruct Hl as [-> _].
      apply Forall_cons in Hfl as [[? _] _]. lia.
  - apply NoDup_cons. split; [by apply Hd|done].
  - intros g [[->|Hg]%elem_of_cons|Hg]; [done|apply Hok; by left|apply Hok; set_solver].
  - intros g Hg [->|Hga]%elem_of_cons; [set_solver|]. apply (Hd g); set_solver.
  - rewrite size_difference by set_solver. rewrite size_singleton.
    assert (size A <> 0%nat); [|lia]. intros Hz. apply size_empty_inv in Hz. set_solver.
Qed.

(** The pool right after boot has handed over its allocator. *)
Lemma commit_Pool m fa :
  map_ok (memory_map fa) -> 0 <= current_page_offset fa ->
  Pool (commit_frame_allocator (mk_phys m frames_init) fa) (future fa) ∅.
Proof.
  intros Hm Ho. split; simpl; try done.
  - by exists [].
  - intros ? [= <-]. by apply map_ok_fa.
  - apply NoDup_future; [done|]. by apply map_ok_drop.
  - intros f [Hf|Hf]; [by apply (future_frames fa)|set_solver].
Qed.

(** * Theorems *)

(** The boot allocator hands out each frame of the conventional regions of
    the memory map at most once: [allocate_frame] returns the frames of a
    fixed list in order, and then [None]; the list has no duplicates, and each
    of its frames is page-aligned, not the null page, and inside a conventional
    region. *)
Theorem allocate_frame_correct fa :
  map_ok (memory_map fa) -> 0 <= current_page_offset fa ->
  exists fa', allocate_frame fa = (fa', head (future fa)) /\ future fa' = tail (future fa) /\
    memory_map fa' = memory_map fa /\ 0 <= current_page_offset fa' /\ NoDup (future fa) /\
    forall f, f ∈ future fa -> frame_ok f /\
      exists d, d ∈ memory_map fa /\ conventional d /\ PhysicalStart d <= f /\ f + PAGE_SIZE <= region_end d.
Proof.
  intros Hm Ho. destruct (allocate_frame_spec fa (map_ok_fa fa Hm Ho)) as (fa' & Hrun & Hf & [Ho' _] & Hmap).
  exists fa'. split_and!; try done.
  - apply NoDup_future; [done|]. by apply map_ok_drop.
  - intros f. by apply future_frames.
Qed.

(** [allocate_contiguous] terminates; a success returns a run of [count]
    consecutive frames that were next in line, possibly after some skipped
    ones, and a failure means that the memory map is used up. *)
Theorem allocate_contiguous_correct fa count :
  fa_ok fa -> 0 <= count ->
  exists fa' r, allocate_contiguous fa count = (fa', Ok r) /\
    match r with
    | Some st => exists pre, future fa = pre ++ run st count ++ future fa'
    | None => count = 0 \/ future fa' = []
    end.
Proof. apply allocate_contiguous_spec. Qed.

(** C33: [alloc_frame] returns the first available frame, zeroed and not in use
    before, and changes no other memory; it fails only when no frame is
    available. *)
Theorem alloc_frame_correct p av A :
  Pool p av A ->
  match av with
  | [] => exists p', alloc_frame p = (p', None) /\ Pool p' [] A /\ pmem p' = pmem p
  | f :: av' => exists p', alloc_frame p = (p', Some f) /\ Pool p' av' ({[f]} ∪ A) /\
      pmem p' = zero_page (pmem p) f /\ (f ∉ A) /\ frame_ok f
  end.
Proof. apply alloc_frame_spec. Qed.

(** C34: [free_frame] makes a frame in use the next available one; the free
    list threaded through the frames stays intact, whatever the owners of the
    frames in use have written to them. *)
Theorem free_frame_correct p av A f m' :
  Pool p av A -> f ∈ A ->
  (forall b, m' b = pmem p b \/ exists g, g ∈ A /\ g <= b < g + PAGE_SIZE) ->
  Pool (free_frame (mk_phys m' (frames p)) f) (f :: av) (A ∖ {[f]}).
Proof. intros HP Hf Hm. apply free_frame_spec; [|done]. by apply pool_write. Qed.

(** ** Witnesses: a memory map with a reserved region between two others. *)

Definition demo_map : list descriptor := [mk_desc 7 0x1000 3; mk_desc 0 0x4000 1; mk_desc 7 0x8000 2].
Definition demo_fa : FrameAllocator := mk_fa demo_map 0 0.

Lemma demo_map_ok : map_ok demo_map.
Proof.
  split.
  - repeat constructor; unfold region_end, PAGE_SIZE; simpl; lia.
  - repeat constructor; unfold region_end, conventional, EFI_CONVENTIONAL_MEMORY, PAGE_SIZE; simpl; lia.
Qed.

Lemma allocate_frame_correct_witness :
  exists fa', allocate_frame demo_fa = (fa', Some 0x1000) /\ future fa' = [0x2000; 0x3000; 0x8000; 0x9000].
Proof.
  destruct (allocate_frame_correct demo_fa demo_map_ok) as (fa' & H1 & H2 & _); [reflexivity || discriminate|].
  exists fa'. split; [exact H1|exact H2].
Defined.

Lemma allocate_contiguous_correct_witness :
  exists fa' r, allocate_contiguous demo_fa 2 = (fa', Ok r) /\
    match r with
    | Some st => exists pre, future demo_fa = pre ++ run st 2 ++ future fa'
    | None => 2 = 0 \/ future fa' = []
    end.
Proof.
  apply (allocate_contiguous_correct demo_fa 2).
  - apply (map_ok_fa demo_fa demo_map_ok). vm_compute. discriminate.
  - vm_compute. discriminate.
Defined.

Definition demo_phys : phys := commit_frame_allocator (mk_phys (fun _ => 170) frames_init) demo_fa.

Lemma demo_Pool : Pool demo_phys (future demo_fa) ∅.
Proof. by apply commit_Pool; [apply demo_map_ok|]. Qed.

Definition demo_used : phys := (alloc_frame demo_phys).1.

Lemma demo_used_Pool : Pool demo_used [0x2000; 0x3000; 0x8000; 0x9000] ({[0x1000]} ∪ ∅).
Proof.
  destruct (alloc_frame_spec demo_phys (future demo_fa) ∅ demo_Pool) as (p' & Hrun & HP & _).
  unfold demo_used. by rewrite Hrun.
Qed.

Lemma alloc_frame_correct_witness :
  exists p', alloc_frame demo_phys = (p', Some 0x1000) /\ Pool p' (tail (future demo_fa)) ({[0x1000]} ∪ ∅) /\
    pmem p' = zero_page (pmem demo_phys) 0x1000 /\ (0x1000 ∉ (∅ : gset Z)) /\ frame_ok 0x1000.
Proof. apply (alloc_frame_correct demo_phys (future demo_fa) ∅ demo_Pool). Defined.

Lemma free_frame_correct_witness :
  Pool (free_frame (mk_phys (write64 (pmem demo_used) 0x1000 77) (frames demo_used)) 0x1000)
    [0x1000; 0x2000; 0x3000; 0x8000; 0x9000] (({[0x1000]} ∪ ∅) ∖ {[0x1000]}).
Proof.
  apply (free_frame_correct demo_used _ ({[0x1000]} ∪ ∅) 0x1000); [apply demo_used_Pool|set_solver|].
  intros b. destruct (decide (0x1000 <= b < 0x1000 + PAGE_SIZE)).
  - right. exists 0x1000. split; [set_solver|done].
  - left. apply write64_other. unfold PAGE_SIZE in *. lia.
Defined.

(** A conventional region that starts at physical address 0 is never used, not
    even its pages behind the null page. *)
Lemma region_at_zero_is_skipped n next :
  allocate_frame (mk_fa [mk_desc EFI_CONVENTIONAL_MEMORY 0 n; next] 0 0) =
  allocate_frame (mk_fa [mk_desc EFI_CONVENTIONAL_MEMORY 0 n; next] 1 0).
Proof.
  unfold allocate_frame. cbn [alloc_loop drop memory_map current_descriptor_index current_page_offset Type_
    NumberOfPages PhysicalStart]. by rewrite andb_false_r.
Qed.
