(* ===== verification/Heap.v ===== *)
(** The kernel heap: src/src/memory/heap.rs.

    Free lists of small blocks, threaded through the blocks themselves; a list
    of large blocks with boundary tags; a bump arena.  All of it lives in the
    byte memory of Frame, at the addresses the code uses.  The allocator's lock
    makes every call one atomic step.

    The size of a [Layout] is at most [isize::MAX], so none of the sums below
    wraps; they are written on unbounded integers. *)

From S2P Require Import Prelude Frame.

Module Heap.

(** ** Constants, lines 65-78 *)

Definition NUM_BUCKETS : nat := 10.
Definition MAX_SMALL_SIZE : Z := 4096.
Definition LARGE_BLOCK_SENTINEL : Z := u64_max.
Definition BUCKET_SIZES : list Z := [8; 16; 32; 64; 128; 256; 512; 1024; 2048; 4096].
Definition SMALL_HEADER_SIZE : Z := 8.
(** [size_of::<LargeBlock>()]: three words and a [bool], padded. *)
Definition LARGE_BLOCK_SIZE : Z := 32.

(** ** State *)

(** [SegregatedAllocator] and the memory it manages.  A null pointer is 0.
    [max_blocks] is not a field of the source: it bounds the walk over the
    large blocks. *)
Record heap : Type := mk_heap {
  hmem : mem;
  free_lists : list Z;
  large_head : Z;
  arena_ptr : Z;
  arena_end : Z;
  max_blocks : nat;
}.

Definition set_mem (m : mem) (h : heap) : heap :=
  mk_heap m (free_lists h) (large_head h) (arena_ptr h) (arena_end h) (max_blocks h).
Definition set_list (k : nat) (x : Z) (h : heap) : heap :=
  mk_heap (hmem h) (<[k := x]> (free_lists h)) (large_head h) (arena_ptr h) (arena_end h) (max_blocks h).
Definition set_arena (x : Z) (h : heap) : heap :=
  mk_heap (hmem h) (free_lists h) (large_head h) x (arena_end h) (max_blocks h).

(** The fields of the [LargeBlock] at [b]. *)
Definition lb_size (m : mem) (b : Z) : Z := read64 m b.
Definition lb_next (m : mem) (b : Z) : Z := read64 m (b + 8).
Definition lb_prev (m : mem) (b : Z) : Z := read64 m (b + 16).
Definition lb_free (m : mem) (b : Z) : bool := negb (m (b + 24) =? 0).

Definition set_size (m : mem) (b x : Z) : mem := write64 m b x.
Definition set_next (m : mem) (b x : Z) : mem := write64 m (b + 8) x.
Definition set_prev (m : mem) (b x : Z) : mem := write64 m (b + 16) x.
Definition set_free (m : mem) (b : Z) (x : bool) : mem := store m (b + 24) [if x then 1 else 0].

(** [SegregatedAllocator::new] with the memory as it is *)
Definition new (m : mem) : heap := mk_heap m (replicate NUM_BUCKETS 0) 0 0 0 0.

Definition init (start size : Z) (h : heap) : heap :=
  let arena_bytes := size / 4 * 3 in
  let lb_start := start + arena_bytes in
  let lb_sz := size - arena_bytes in
  let m := hmem h in
  let n := Z.to_nat (size / LARGE_BLOCK_SIZE) in
  if LARGE_BLOCK_SIZE <? lb_sz then
    let m := set_size m lb_start (lb_sz - LARGE_BLOCK_SIZE) in
    let m := set_next m lb_start 0 in
    let m := set_prev m lb_start 0 in
    let m := set_free m lb_start true in
    mk_heap m (free_lists h) lb_start start (start + arena_bytes) n
  else mk_heap m (free_lists h) (large_head h) start (start + arena_bytes) n.

(** ** Helpers *)

Definition align_up (addr align : Z) : Z := Z.land (addr + align - 1) (Z.lnot (align - 1)).

Fixpoint bucket_from (i : nat) (sizes : list Z) (size : Z) : option nat :=
  match sizes with
  | [] => None
  | class_size :: sizes => if size <=? class_size then Some i else bucket_from (S i) sizes size
  end.

Definition bucket_for (size : Z) : option nat := bucket_from 0 BUCKET_SIZES size.

Definition class_size (k : nat) : Z := nth k BUCKET_SIZES 0.
(** [total] of [alloc_small]. *)
Definition total (k : nat) : Z := SMALL_HEADER_SIZE + class_size k.

(** ** Large blocks *)

(** The walk of [alloc_large_raw], lines 236-263: the first free block with
    room, 0 if there is none. *)
Fixpoint find_fit (fuel : nat) (m : mem) (current size : Z) : res Z :=
  if current =? 0 then Ok 0 else
  match fuel with
  | O => Hang
  | S fuel =>
      if lb_free m current && (size <=? lb_size m current) then Ok current
      else find_fit fuel m (lb_next m current) size
  end.

(** The split of a block, lines 242-255. *)
Definition split_block (m : mem) (current size : Z) : mem :=
  let next := current + LARGE_BLOCK_SIZE + size in
  let m := set_size m next (lb_size m current - size - LARGE_BLOCK_SIZE) in
  let m := set_next m next (lb_next m current) in
  let m := set_prev m next current in
  let m := set_free m next true in
  let m := if lb_next m next =? 0 then m else set_prev m (lb_next m next) next in
  let m := set_size m current size in
  set_next m current next.

Definition alloc_large_raw (size : Z) : M heap Z := fun h =>
  let size := Z.land (size + 7) (Z.lnot 7) in
  match find_fit (max_blocks h) (hmem h) (large_head h) size with
  | Ok current =>
      if current =? 0 then (h, Ok 0) else
      let m := hmem h in
      let m := if size + LARGE_BLOCK_SIZE + 16 <=? lb_size m current
               then split_block m current size else m in
      (set_mem (set_free m current false) h, Ok (current + LARGE_BLOCK_SIZE))
  | Err e => (h, Err e)
  | Panic => (h, Panic)
  | Hang => (h, Hang)
  end.

(** [block] absorbs [next], lines 282-286. *)
Definition merge_next (m : mem) (block next : Z) : mem :=
  let m := set_size m block (lb_size m block + (lb_size m next + LARGE_BLOCK_SIZE)) in
  let m := set_next m block (lb_next m next) in
  if lb_next m block =? 0 then m else set_prev m (lb_next m block) block.

(** [prev] absorbs [block], lines 292-296. *)
Definition merge_prev (m : mem) (prev block : Z) : mem :=
  let m := set_size m prev (lb_size m prev + (lb_size m block + LARGE_BLOCK_SIZE)) in
  let m := set_next m prev (lb_next m block) in
  if lb_next m block =? 0 then m else set_prev m (lb_next m block) prev.

Definition free_large_raw (ptr : Z) (h : heap) : heap :=
  if ptr =? 0 then h else
  let block := ptr - LARGE_BLOCK_SIZE in
  let m := hmem h in
  if lb_free m block then h else
  let m := set_free m block true in
  let next := lb_next m block in
  let m := if negb (next =? 0) && lb_free m next then merge_next m block next else m in
  let prev := lb_prev m block in
  let m := if negb (prev =? 0) && lb_free m prev then merge_prev m prev block else m in
  set_mem m h.

(** ** Small blocks *)

(** [ptr::write(blk, self.free_lists[bucket]); self.free_lists[bucket] = blk] *)
Definition push (bucket : nat) (blk : Z) (h : heap) : heap :=
  set_list bucket blk (set_mem (write64 (hmem h) blk (default 0 (free_lists h !! bucket))) h).

Definition slab_count : Z := 32.

Definition alloc_small (bucket : nat) : M heap Z := fun h =>
  let total := total bucket in
  let head := default 0 (free_lists h !! bucket) in
  if negb (head =? 0) then
    let h := set_list bucket (read64 (hmem h) head) h in
    (set_mem (write64 (hmem h) head (Z.of_nat bucket)) h, Ok (head + SMALL_HEADER_SIZE))
  else
    let aligned := align_up (arena_ptr h) 8 in
    if aligned + total <=? arena_end h then
      let h := set_arena (aligned + total) h in
      (set_mem (write64 (hmem h) aligned (Z.of_nat bucket)) h, Ok (aligned + SMALL_HEADER_SIZE))
    else
      match alloc_large_raw (total * slab_count) h with
      | (h, Ok slab) =>
          if slab =? 0 then (h, Ok 0) else
          let h := foldl (fun h i => push bucket (slab + i * total) h) h (seqZ 1 (slab_count - 1)) in
          (set_mem (write64 (hmem h) slab (Z.of_nat bucket)) h, Ok (slab + SMALL_HEADER_SIZE))
      | (h, Err e) => (h, Err e)
      | (h, Panic) => (h, Panic)
      | (h, Hang) => (h, Hang)
      end.

Definition free_small (payload : Z) (h : heap) : heap :=
  let block := payload - SMALL_HEADER_SIZE in
  let bucket := Z.to_nat (read64 (hmem h) block) in
  push bucket block h.

(** ** The public interface *)

(** Lines 322-345. *)
Definition alloc_over (size align : Z) : M heap Z := fun h =>
  let two_words := 16 in
  let extra := align + two_words in
  match alloc_large_raw (size + extra) h with
  | (h, Ok raw) =>
      if raw =? 0 then (h, Ok 0) else
      let block_addr := raw - LARGE_BLOCK_SIZE in
      let candidate := raw + two_words in
      let remainder := candidate mod align in
      let padding := if remainder =? 0 then 0 else align - remainder in
      let aligned_addr := candidate + padding in
      let m := write64 (hmem h) (aligned_addr - two_words) LARGE_BLOCK_SENTINEL in
      let m := write64 m (aligned_addr - two_words + 8) block_addr in
      (set_mem m h, Ok aligned_addr)
  | (h, Err e) => (h, Err e)
  | (h, Panic) => (h, Panic)
  | (h, Hang) => (h, Hang)
  end.

Definition alloc_aligned (size align : Z) : M heap Z :=
  match (if align <=? SMALL_HEADER_SIZE then bucket_for size else None) with
  | Some bucket => alloc_small bucket
  | None => alloc_over size align
  end.

Definition dealloc_aligned (ptr : Z) (h : heap) : heap :=
  if ptr =? 0 then h else
  let small_val := read64 (hmem h) (ptr - 8) in
  if small_val <? Z.of_nat NUM_BUCKETS then free_small ptr h
  else free_large_raw (small_val + LARGE_BLOCK_SIZE) h.

Definition capacity_of (ptr : Z) (h : heap) : Z :=
  let small_val := read64 (hmem h) (ptr - 8) in
  if small_val <? Z.of_nat NUM_BUCKETS then class_size (Z.to_nat small_val)
  else small_val + LARGE_BLOCK_SIZE + lb_size (hmem h) small_val - ptr.

(** The bytes [[p, p + n)]. *)
Definition load (m : mem) (p n : Z) : list Z := (fun i => m (p + i)) <$> seqZ 0 n.

(** [GlobalAlloc::realloc] in the kernel, run without interruption.  The code
    takes the heap lock anew for the allocation, for the capacity and for the
    release, and copies without it; what others do to the heap in between is
    not modelled here. *)
Definition realloc (ptr new_size align : Z) : M heap Z := fun h =>
  if ptr =? 0 then alloc_aligned new_size align h else
  match alloc_aligned new_size align h with
  | (h, Ok new_ptr) =>
      if new_ptr =? 0 then (h, Ok 0) else
      let copy_size := Z.min new_size (capacity_of ptr h) in
      let h := set_mem (store (hmem h) new_ptr (load (hmem h) ptr copy_size)) h in
      (dealloc_aligned ptr h, Ok new_ptr)
  | r => r
  end.

(** The functions the rest of the kernel calls. *)
Definition alloc (size : Z) : M heap Z := alloc_aligned size 8.
Definition free (ptr : Z) (h : heap) : heap := if ptr =? 0 then h else dealloc_aligned ptr h.
Definition realloc_words (ptr size : Z) : M heap Z := realloc ptr size 8.

End Heap.
