(* ===== verification/HeapInv.v ===== *)
(** The invariant of the kernel heap.

    The abstract heap is a map of small blocks, free or live, and a list of
    large blocks that lie side by side above the arena.  [Rep A h] says that
    the lists threaded through the memory of [h] are those of [A], that no two
    blocks overlap, and where the headers of live allocations are. *)

From S2P Require Import Prelude Frame Heap.

Module HeapInv.
Import Heap.

(** ** The abstract heap *)

(** Who has a large block: nobody, the small blocks cut from it, or the
    allocation at [p]. *)
Inductive owner : Type :=
| Free
| Slab
| Live (p : Z).

Record lblk : Type := mkB { b_addr : Z; b_size : Z; b_own : owner }.

Definition b_end (B : lblk) : Z := b_addr B + LARGE_BLOCK_SIZE + b_size B.
Definition is_free (o : owner) : bool := match o with Free => true | _ => false end.
Definition set_own (o : owner) (B : lblk) : lblk := mkB (b_addr B) (b_size B) o.

(** [smalls] maps the address of a small block to its bucket and whether it
    is live. *)
Record aheap : Type := mkA { lo : Z; hi : Z; smalls : gmap Z (nat * bool); larges : list lblk }.

Definition with_smalls (s : gmap Z (nat * bool)) (A : aheap) : aheap := mkA (lo A) (hi A) s (larges A).
Definition with_larges (L : list lblk) (A : aheap) : aheap := mkA (lo A) (hi A) (smalls A) L.

(** The allocation at [p] of capacity [c] is live. *)
Definition live (A : aheap) (p c : Z) : Prop :=
  (exists a k, smalls A !! a = Some (k, true) /\ p = a + SMALL_HEADER_SIZE /\ c = class_size k) \/
  (exists B, B ∈ larges A /\ b_own B = Live p /\ c = b_end B - p).

(** ** The invariant *)

(** Large blocks side by side from [pos]. *)
Fixpoint contig (pos : Z) (L : list lblk) (top : Z) : Prop :=
  match L with
  | [] => pos <= top
  | B :: L => b_addr B = pos /\ 0 <= b_size B /\ b_size B mod 8 = 0 /\ contig (b_end B) L top
  end.

(** The pointer to a list of large blocks that is followed by [nxt]. *)
Definition first (L : list lblk) (nxt : Z) : Z := match L with [] => nxt | B :: _ => b_addr B end.
(** The last block of a list that is preceded by [prev]. *)
Definition last_of (prev : Z) (L : list lblk) : Z := foldl (fun _ B => b_addr B) prev L.

Record hdr (m : mem) (prev next : Z) (B : lblk) : Prop := {
  hdr_size : lb_size m (b_addr B) = b_size B;
  hdr_next : lb_next m (b_addr B) = next;
  hdr_prev : lb_prev m (b_addr B) = prev;
  hdr_free : lb_free m (b_addr B) = is_free (b_own B);
}.

Fixpoint links (m : mem) (prev : Z) (L : list lblk) (nxt : Z) : Prop :=
  match L with
  | [] => True
  | B :: L => hdr m prev (first L nxt) B /\ links m (b_addr B) L nxt
  end.

(** The free list that starts at [head]. *)
Fixpoint chain (m : mem) (head : Z) (l : list Z) : Prop :=
  match l with
  | [] => head = 0
  | a :: l => head = a /\ chain m (read64 m a) l
  end.

(** Where a small block of bucket [k] may lie. *)
Definition home (A : aheap) (top a : Z) (k : nat) : Prop :=
  (lo A <= a /\ a + total k <= top) \/
  (exists B, B ∈ larges A /\ b_own B = Slab /\ b_addr B + LARGE_BLOCK_SIZE <= a /\ a + total k <= b_end B).

Definition head (h : heap) (k : nat) : Z := default 0 (free_lists h !! k).

Record Rep (A : aheap) (h : heap) : Prop := {
  rp_range : 16 <= lo A /\ hi A < 2 ^ 62;
  rp_arena : lo A <= arena_ptr h <= arena_end h /\ arena_end h <= hi A /\ arena_end h mod 8 = 0;
  rp_contig : contig (arena_end h) (larges A) (hi A);
  rp_head : large_head h = first (larges A) 0;
  rp_links : links (hmem h) 0 (larges A) 0;
  rp_lists : length (free_lists h) = NUM_BUCKETS;
  rp_chains : forall k, (k < NUM_BUCKETS)%nat -> exists l, chain (hmem h) (head h k) l /\ NoDup l /\
                (forall a, a ∈ l <-> smalls A !! a = Some (k, false));
  rp_small : forall a k l, smalls A !! a = Some (k, l) ->
               (k < NUM_BUCKETS)%nat /\ a mod 8 = 0 /\ home A (arena_ptr h) a k;
  rp_apart : forall a k l a' k' l', smalls A !! a = Some (k, l) -> smalls A !! a' = Some (k', l') ->
               a < a' -> a + total k <= a';
  rp_live : forall a k, smalls A !! a = Some (k, true) -> read64 (hmem h) a = Z.of_nat k;
  rp_large : forall B p, B ∈ larges A -> b_own B = Live p ->
               b_addr B + LARGE_BLOCK_SIZE + 16 <= p <= b_end B /\ read64 (hmem h) (p - 8) = b_addr B;
  rp_fuel : hi A - lo A <= LARGE_BLOCK_SIZE * Z.of_nat (max_blocks h);
}.

(** ** Large blocks do not overlap *)

Lemma contig_in pos L top B :
  contig pos L top -> B ∈ L ->
  pos <= b_addr B /\ 0 <= b_size B /\ b_size B mod 8 = 0 /\ b_end B <= top.
Proof.
  revert pos. induction L as [|C L IH]; intros pos H Hin; [by apply not_elem_of_nil in Hin|].
  destruct H as (E & Hs & Hm & H).
  assert (forall pos L, contig pos L top -> pos <= top) as Hle.
  { clear. intros pos L. revert pos. induction L as [|C L IH]; intros pos H; [done|].
    destruct H as (E & Hs & _ & H). specialize (IH _ H). unfold b_end, LARGE_BLOCK_SIZE in *. lia. }
  apply elem_of_cons in Hin as [->|Hin].
  - specialize (Hle _ _ H). repeat split; auto with lia.
  - destruct (IH _ H Hin) as (? & ? & ? & ?). unfold b_end, LARGE_BLOCK_SIZE in *. repeat split; auto with lia.
Qed.

Lemma contig_two pos L top B C :
  contig pos L top -> B ∈ L -> C ∈ L -> B = C \/ b_end B <= b_addr C \/ b_end C <= b_addr B.
Proof.
  revert pos. induction L as [|D L IH]; intros pos H HB HC; [by apply not_elem_of_nil in HB|].
  destruct H as (E & Hs & Hm & H).
  apply elem_of_cons in HB as [->|HB]; apply elem_of_cons in HC as [->|HC]; auto.
  - destruct (contig_in _ _ _ _ H HC) as (? & _). auto.
  - destruct (contig_in _ _ _ _ H HB) as (? & _). auto.
  - eauto.
Qed.

Lemma contig_app pos L1 L2 top :
  contig pos (L1 ++ L2) top <-> exists mid, contig pos L1 mid /\ contig mid L2 top /\
    (mid = foldl (fun _ B => b_end B) pos L1).
Proof.
  revert pos. induction L1 as [|B L1 IH]; intros pos; simpl.
  - split; [intros H; exists pos; split_and!; [lia|done|done]|]. intros (mid & _ & H & ->). done.
  - split.
    + intros (E & Hs & Hm & H). apply IH in H as (mid & H1 & H2 & H3). exists mid. done.
    + intros (mid & (E & Hs & Hm & H1) & H2 & H3). split_and!; try done. apply IH. eauto.
Qed.

(** Addresses of a list are in the heap. *)
Lemma contig_length pos L top : contig pos L top -> pos + LARGE_BLOCK_SIZE * Z.of_nat (length L) <= top.
Proof.
  revert pos. induction L as [|B L IH]; intros pos H; simpl in *; [lia|].
  destruct H as (E & Hs & _ & H). specialize (IH _ H). unfold b_end, LARGE_BLOCK_SIZE in *. lia.
Qed.

Lemma contig_align pos L top B :
  contig pos L top -> pos mod 8 = 0 -> B ∈ L -> b_addr B mod 8 = 0.
Proof.
  revert pos. induction L as [|C L IH]; intros pos H Hp Hin; [by apply not_elem_of_nil in Hin|].
  destruct H as (E & Hs & Hm & H). apply elem_of_cons in Hin as [->|Hin]; [by rewrite E|].
  apply (IH _ H); [|done]. unfold b_end, LARGE_BLOCK_SIZE. rewrite E. dlia.
Qed.

(** ** Sizes of small blocks *)

Lemma total_bounds k : (k < NUM_BUCKETS)%nat -> 16 <= total k <= 4104 /\ total k mod 8 = 0.
Proof.
  unfold NUM_BUCKETS. intros H.
  do 10 (destruct k as [|k]; [by repeat split|]). lia.
Qed.

Lemma total_class k : total k = SMALL_HEADER_SIZE + class_size k.
Proof. done. Qed.

(** ** Frames *)

Lemma hdr_ext m m' prev next B :
  (forall b, b_addr B <= b < b_addr B + LARGE_BLOCK_SIZE -> m' b = m b) ->
  hdr m prev next B -> hdr m' prev next B.
Proof.
  unfold LARGE_BLOCK_SIZE. intros Hm [H1 H2 H3 H4].
  constructor; unfold lb_size, lb_next, lb_prev, lb_free in *.
  - rewrite <- H1. apply read64_ext. intros b Hb. apply Hm. lia.
  - rewrite <- H2. apply read64_ext. intros b Hb. apply Hm. lia.
  - rewrite <- H3. apply read64_ext. intros b Hb. apply Hm. lia.
  - rewrite <- H4. by rewrite Hm by lia.
Qed.

Lemma links_ext m m' prev L nxt :
  (forall B b, B ∈ L -> b_addr B <= b < b_addr B + LARGE_BLOCK_SIZE -> m' b = m b) ->
  links m prev L nxt -> links m' prev L nxt.
Proof.
  revert prev. induction L as [|B L IH]; intros prev Hm H; [done|]. destruct H as [H1 H2]. split.
  - revert H1. apply hdr_ext. intros b. apply Hm. left.
  - apply IH; [|done]. intros C b HC. apply Hm. by right.
Qed.

Lemma hchain_ext m m' hd l :
  (forall a, a ∈ l -> read64 m' a = read64 m a) -> chain m hd l -> chain m' hd l.
Proof.
  revert hd. induction l as [|a l IH]; intros hd Hm H; [done|]. destruct H as [H1 H2].
  split; [done|]. rewrite Hm by left. apply IH; [|done]. intros b Hb. apply Hm. by right.
Qed.

Lemma head_list_same k x h : (k < length (free_lists h))%nat -> head (set_list k x h) k = x.
Proof. intros. unfold head. simpl. by rewrite list_lookup_insert_eq. Qed.

Lemma head_list_other k k' x h : k <> k' -> head (set_list k x h) k' = head h k'.
Proof. intros. unfold head. simpl. by rewrite list_lookup_insert_ne. Qed.

(** A small block is apart from the headers of the large blocks, and from the
    live ones. *)
Lemma home_apart A top pos a k B :
  contig pos (larges A) (hi A) -> top <= pos -> home A top a k -> B ∈ larges A ->
  (a + total k <= b_addr B \/ b_addr B + LARGE_BLOCK_SIZE <= a) /\
  (b_own B <> Slab -> a + total k <= b_addr B \/ b_end B <= a).
Proof.
  intros Hc Ha Hh HB. destruct (contig_in _ _ _ _ Hc HB) as (HB1 & HB2 & _ & HB3).
  destruct Hh as [Hh|(C & HC & HCs & Hh1 & Hh2)].
  - split; [left; lia|]. intros _. left. lia.
  - destruct (contig_two _ _ _ _ _ Hc HB HC) as [->|[E|E]].
    + split; [by right|done].
    + unfold b_end, LARGE_BLOCK_SIZE in *. split; [right; lia|]. intros _. right. lia.
    + unfold b_end, LARGE_BLOCK_SIZE in *. split; [left; lia|]. intros _. left. lia.
Qed.

Lemma Rep_home_apart A h a k B :
  Rep A h -> home A (arena_ptr h) a k -> B ∈ larges A ->
  (a + total k <= b_addr B \/ b_addr B + LARGE_BLOCK_SIZE <= a) /\
  (b_own B <> Slab -> a + total k <= b_addr B \/ b_end B <= a).
Proof.
  intros H. apply (home_apart A (arena_ptr h) (arena_end h)); [apply H|]. destruct (rp_arena _ _ H). lia.
Qed.

(** [Rep] reads the headers of the blocks, nothing else. *)
Lemma Rep_mem A h m' :
  (forall B b, B ∈ larges A -> b_addr B <= b < b_addr B + LARGE_BLOCK_SIZE -> m' b = hmem h b) ->
  (forall a k l, smalls A !! a = Some (k, l) -> read64 m' a = read64 (hmem h) a) ->
  (forall B p, B ∈ larges A -> b_own B = Live p -> read64 m' (p - 8) = read64 (hmem h) (p - 8)) ->
  Rep A h -> Rep A (set_mem m' h).
Proof.
  intros M1 M2 M3 H. constructor; simpl; try apply H.
  - apply (links_ext (hmem h)); [exact M1|apply H].
  - intros k Hk. destruct (rp_chains _ _ H k Hk) as (l & C1 & C2 & C3). exists l. split_and!; try done.
    apply (hchain_ext (hmem h)); [|done]. intros a Ha. apply (M2 a k false). by apply C3.
  - intros a k Ha. rewrite (M2 a k true Ha). by apply (rp_live _ _ H).
  - intros B p HB Ho. rewrite (M3 B p HB Ho). by apply (rp_large _ _ H).
Qed.

(** ** Placing small blocks *)

(** Room for a block of bucket [k] at [a]. *)
Record fits (A : aheap) (top a : Z) (k : nat) : Prop := {
  ft_bucket : (k < NUM_BUCKETS)%nat;
  ft_align : a mod 8 = 0;
  ft_home : home A top a k;
  ft_apart : forall a' k' l', smalls A !! a' = Some (k', l') -> a' + total k' <= a \/ a + total k <= a';
}.

Lemma fits_fresh A h a k : Rep A h -> fits A (arena_ptr h) a k -> smalls A !! a = None.
Proof.
  intros H F. destruct (smalls A !! a) as [[k' l']|] eqn:E; [|done].
  destruct (rp_small _ _ H _ _ _ E) as (Hk & _). pose proof (total_bounds k' Hk).
  pose proof (total_bounds k (ft_bucket _ _ _ _ F)). destruct (ft_apart _ _ _ _ F _ _ _ E); lia.
Qed.

(** Writing into a block that fits changes nothing. *)
Lemma Rep_write A h a k x :
  Rep A h -> fits A (arena_ptr h) a k -> Rep A (set_mem (write64 (hmem h) a x) h).
Proof.
  intros H F. pose proof (total_bounds k (ft_bucket _ _ _ _ F)) as Ht.
  apply Rep_mem; [| | |done].
  - intros B b HB Hb. apply write64_other.
    destruct (Rep_home_apart A h a k B H (ft_home _ _ _ _ F) HB) as [HA _]. lia.
  - intros a' k' l' Ha'. apply read64_write64_ne.
    destruct (rp_small _ _ H _ _ _ Ha') as (Hk' & _). pose proof (total_bounds k' Hk').
    destruct (ft_apart _ _ _ _ F _ _ _ Ha'); lia.
  - intros B p HB Ho. apply read64_write64_ne. destruct (rp_large _ _ H B p HB Ho) as (Hp & _).
    destruct (Rep_home_apart A h a k B H (ft_home _ _ _ _ F) HB) as [_ HA].
    unfold LARGE_BLOCK_SIZE in *. destruct HA; [congruence|lia|lia].
Qed.

Lemma Rep_insert A h a k l :
  Rep A h -> fits A (arena_ptr h) a k -> (l = true -> read64 (hmem h) a = Z.of_nat k) ->
  forall h', h' = (if l then h else set_list k a h) -> (l = false -> read64 (hmem h) a = head h k) ->
  Rep (with_smalls (<[a := (k, l)]> (smalls A)) A) h'.
Proof.
  intros H F Hl h' -> Hf. pose proof (fits_fresh A h a k H F) as Hn. pose proof (ft_bucket _ _ _ _ F) as Hk.
  assert (forall h2, h2 = (if l then h else set_list k a h) ->
            hmem h2 = hmem h /\ arena_ptr h2 = arena_ptr h /\ arena_end h2 = arena_end h /\
            large_head h2 = large_head h /\ max_blocks h2 = max_blocks h /\
            length (free_lists h2) = length (free_lists h)) as E.
  { intros h2 ->. destruct l; simpl; rewrite ?length_insert; done. }
  destruct (E _ eq_refl) as (E1 & E2 & E3 & E4 & E5 & E6). clear E.
  constructor; simpl; rewrite ?E1, ?E2, ?E3, ?E4, ?E5, ?E6; try apply H.
  - intros k' Hk'. destruct (rp_chains _ _ H k' Hk') as (c & C1 & C2 & C3).
    assert (a ∉ c) as Hnc by (intros Hc; apply C3 in Hc; congruence).
    destruct l.
    + exists c. split_and!; [done|done|]. intros b. rewrite C3, lookup_insert.
      case_decide; subst; [|done]. rewrite Hn. naive_solver.
    + destruct (decide (k = k')) as [<-|Hne].
      * exists (a :: c). rewrite head_list_same by (by rewrite (rp_lists _ _ H)).
        split_and!; [split; [done|by rewrite Hf]|by constructor|].
        intros b. rewrite elem_of_cons, C3, lookup_insert. case_decide; subst; [|naive_solver].
        rewrite Hn. naive_solver.
      * exists c. rewrite head_list_other by done. split_and!; [done|done|].
        intros b. rewrite C3, lookup_insert. case_decide; subst; [|done]. rewrite Hn. naive_solver.
  - intros b k' l'. rewrite lookup_insert. case_decide; [|apply H].
    intros E. simplify_eq. split_and!; [done|apply F|apply F].
  - intros b k1 l1 b' k2 l2. rewrite !lookup_insert. intros Hb Hb' Hlt.
    pose proof (total_bounds k Hk) as Ht.
    destruct (decide (a = b)) as [G1|G1]; destruct (decide (a = b')) as [G2|G2].
    + lia.
    + subst b. injection Hb as <- <-. destruct (rp_small _ _ H _ _ _ Hb') as (Hk2 & _). pose proof (total_bounds k2 Hk2).
      destruct (ft_apart _ _ _ _ F _ _ _ Hb'); lia.
    + subst b'. injection Hb' as <- <-. destruct (rp_small _ _ H _ _ _ Hb) as (Hk1 & _). pose proof (total_bounds k1 Hk1).
      destruct (ft_apart _ _ _ _ F _ _ _ Hb); lia.
    + by eapply (rp_apart _ _ H).
  - intros b k'. rewrite lookup_insert. case_decide; [|apply H]. intros E. simplify_eq. auto.
Qed.


(** Taking a live block away. *)
Lemma Rep_delete A h a k :
  Rep A h -> smalls A !! a = Some (k, true) -> Rep (with_smalls (delete a (smalls A)) A) h.
Proof.
  intros H Ha. constructor; simpl; try apply H.
  - intros k' Hk'. destruct (rp_chains _ _ H k' Hk') as (c & C1 & C2 & C3). exists c.
    split_and!; [done|done|]. intros b. rewrite C3, lookup_delete_Some. split; [|tauto].
    intros Hb. split; [congruence|done].
  - intros b k' l' Hb. apply lookup_delete_Some in Hb as [_ Hb]. by apply (rp_small _ _ H) in Hb.
  - intros b k1 l1 b' k2 l2 Hb Hb'. apply lookup_delete_Some in Hb as [_ Hb], Hb' as [_ Hb'].
    by apply (rp_apart _ _ H _ _ _ _ _ _ Hb Hb').
  - intros b k' Hb. apply lookup_delete_Some in Hb as [_ Hb]. by apply (rp_live _ _ H).
Qed.

(** The head of a free list. *)
Lemma Rep_pop A h k :
  Rep A h -> (k < NUM_BUCKETS)%nat -> head h k <> 0 ->
  smalls A !! head h k = Some (k, false) /\
  Rep (with_smalls (delete (head h k) (smalls A)) A) (set_list k (read64 (hmem h) (head h k)) h).
Proof.
  intros H Hk Hn. destruct (rp_chains _ _ H k Hk) as (l & C1 & C2 & C3).
  destruct l as [|a l]; [done|]. destruct C1 as [E C1]. rewrite E in *. clear Hn.
  apply NoDup_cons in C2 as [Hal C2].
  assert (smalls A !! a = Some (k, false)) as Ha by (apply C3; left). split; [done|].
  constructor; simpl; try apply H.
  - by rewrite length_insert, (rp_lists _ _ H).
  - intros k' Hk'. destruct (decide (k = k')) as [<-|Hne].
    + exists l. rewrite head_list_same by (by rewrite (rp_lists _ _ H)). split_and!; [done|done|].
      intros b. rewrite lookup_delete_Some, <- C3, elem_of_cons. split; [|naive_solver].
      intros Hb. split; [|by right]. intros ->. done.
    + destruct (rp_chains _ _ H k' Hk') as (c & D1 & D2 & D3). exists c.
      rewrite head_list_other by done. split_and!; [done|done|].
      intros b. rewrite D3, lookup_delete_Some. split; [|tauto]. intros Hb. split; [congruence|done].
  - intros b k' l' Hb. apply lookup_delete_Some in Hb as [_ Hb]. by apply (rp_small _ _ H) in Hb.
  - intros b k1 l1 b' k2 l2 Hb Hb'. apply lookup_delete_Some in Hb as [_ Hb], Hb' as [_ Hb'].
    by apply (rp_apart _ _ H _ _ _ _ _ _ Hb Hb').
  - intros b k' Hb. apply lookup_delete_Some in Hb as [_ Hb]. by apply (rp_live _ _ H).
Qed.

(** A block that was taken away fits where it was. *)
Lemma fits_delete A h a k l :
  Rep A h -> smalls A !! a = Some (k, l) -> fits (with_smalls (delete a (smalls A)) A) (arena_ptr h) a k.
Proof.
  intros H Ha. destruct (rp_small _ _ H _ _ _ Ha) as (Hk & Hal & Hh). constructor; try done.
  simpl. intros b k' l' Hb. apply lookup_delete_Some in Hb as [Hne Hb].
  destruct (Z.lt_trichotomy a b) as [L|[L|L]]; [right|done|left].
  - apply (rp_apart _ _ H _ _ _ _ _ _ Ha Hb L).
  - apply (rp_apart _ _ H _ _ _ _ _ _ Hb Ha L).
Qed.

(** The bump pointer moves up. *)
Lemma Rep_arena A h x : Rep A h -> arena_ptr h <= x <= arena_end h -> Rep A (set_arena x h).
Proof.
  intros H Hx. constructor; simpl; try apply H.
  - destruct (rp_arena _ _ H) as (? & ? & ?). split_and!; [lia|lia|done|done].
  - intros a k l Ha. destruct (rp_small _ _ H _ _ _ Ha) as (? & ? & [Hh|Hh]); split_and!; try done.
    + left. lia.
    + by right.
Qed.

End HeapInv.
