(* ===== verification/HeapLarge.v ===== *)
(** The large blocks of the kernel heap: splitting, merging and giving a block
    to an owner keep the invariant. *)

From S2P Require Import Prelude Frame Heap HeapInv.

Module HeapLarge.
Import Heap HeapInv.

(** ** Reading the fields of changed headers *)

Lemma read64_store_ne m a src a' :
  a + zlen src <= a' \/ a' + 8 <= a -> read64 (store m a src) a' = read64 m a'.
Proof. intros H. apply read64_ext. intros b Hb. apply store_other. lia. Qed.

Lemma store_one m a x : store m a [x] a = x.
Proof.
  unfold store. change (zlen [x]) with 1. rewrite Z.leb_refl.
  destruct (Z.ltb_spec a (a + 1)); [|lia]. simpl. by rewrite Z.sub_diag.
Qed.

Ltac hdr_read :=
  unfold lb_size, lb_next, lb_prev, lb_free, set_size, set_next, set_prev, set_free;
  repeat first
    [ rewrite read64_write64 by lia
    | rewrite read64_write64_ne by lia
    | rewrite read64_store_ne by (change (zlen [1]) with 1; change (zlen [0]) with 1; lia)
    | rewrite store_one
    | rewrite write64_other by lia
    | rewrite store_other by (change (zlen [1]) with 1; change (zlen [0]) with 1; lia) ].

(** ** Lists of large blocks *)

Lemma links_app m prev L1 L2 nxt :
  links m prev (L1 ++ L2) nxt <-> links m prev L1 (first L2 nxt) /\ links m (last_of prev L1) L2 nxt.
Proof.
  revert prev. induction L1 as [|B L1 IH]; intros prev; simpl; [tauto|].
  rewrite IH. replace (first (L1 ++ L2) nxt) with (first L1 (first L2 nxt)) by (by destruct L1). tauto.
Qed.

Lemma first_app L1 L2 nxt : first (L1 ++ L2) nxt = first L1 (first L2 nxt).
Proof. by destruct L1. Qed.

(** The end of a list that starts at [pos]. *)
Definition end_of (pos : Z) (L : list lblk) : Z := foldl (fun _ B => b_end B) pos L.

Lemma contig_split pos L1 L2 top :
  contig pos (L1 ++ L2) top <-> contig pos L1 (end_of pos L1) /\ contig (end_of pos L1) L2 top.
Proof.
  rewrite contig_app. split; [intros (mid & H1 & H2 & ->); auto|]. intros [H1 H2]. by exists (end_of pos L1).
Qed.

(** The position of the blocks around [B]. *)
Lemma contig_mid pos L1 B L2 top C :
  contig pos (L1 ++ B :: L2) top -> C ∈ L1 ++ L2 -> b_end C <= b_addr B \/ b_end B <= b_addr C.
Proof.
  intros H HC. apply contig_split in H as [H1 (E & Hs & Hm & H2)]. apply elem_of_app in HC as [HC|HC].
  - destruct (contig_in _ _ _ _ H1 HC) as (_ & _ & _ & ?). lia.
  - destruct (contig_in _ _ _ _ H2 HC) as (? & _). lia.
Qed.

(** ** Changing the large blocks

    A change of the list that keeps the homes of the small blocks, makes no
    allocation live and writes only headers. *)
Lemma Rep_larges A h L m' :
  Rep A h -> contig (arena_end h) L (hi A) -> large_head h = first L 0 -> links m' 0 L 0 ->
  (forall a k l, smalls A !! a = Some (k, l) -> home (with_larges L A) (arena_ptr h) a k) ->
  (forall B p, B ∈ L -> b_own B = Live p -> B ∈ larges A) ->
  (forall b, (forall B, B ∈ L -> ~ b_addr B <= b < b_addr B + LARGE_BLOCK_SIZE) -> m' b = hmem h b) ->
  Rep (with_larges L A) (set_mem m' h).
Proof.
  intros H Hc Hf Hl Hh Hv Hm. destruct (rp_arena _ _ H) as (Ha & _).
  assert (forall a k l, smalls A !! a = Some (k, l) -> read64 m' a = read64 (hmem h) a) as Hs.
  { intros a k l E. apply read64_ext. intros b Hb. apply Hm. intros B HB Hr.
    destruct (rp_small _ _ H _ _ _ E) as (Hk & _). pose proof (total_bounds k Hk).
    destruct (home_apart (with_larges L A) (arena_ptr h) (arena_end h) a k B Hc ltac:(lia) (Hh _ _ _ E) HB)
      as [HA _]. lia. }
  constructor; simpl; try apply H; try done.
  - intros k Hk. destruct (rp_chains _ _ H k Hk) as (l & C1 & C2 & C3). exists l. split_and!; try done.
    apply (hchain_ext (hmem h)); [|done]. intros a Ea. apply (Hs a k false). by apply C3.
  - intros a k l E. destruct (rp_small _ _ H _ _ _ E) as (? & ? & _). eauto.
  - intros a k E. rewrite (Hs _ _ _ E). by apply (rp_live _ _ H).
  - intros B p HB Ho. destruct (rp_large _ _ H B p (Hv _ _ HB Ho) Ho) as [Hp Er]. split; [exact Hp|].
    rewrite <- Er.
    apply read64_ext. intros b Hb. apply Hm. intros C HC Hr. unfold b_end, LARGE_BLOCK_SIZE in *.
    destruct (contig_two _ _ _ _ _ Hc HB HC) as [->|[E|E]]; unfold b_end, LARGE_BLOCK_SIZE in *; [lia|lia|].
    destruct (contig_in _ _ _ _ Hc HC) as (_ & ? & _). lia.
Qed.

(** ** A block changes hands *)

Lemma hdr_set_free m prev next B o :
  0 <= b_addr B -> hdr m prev next B ->
  hdr (set_free m (b_addr B) (is_free o)) prev next (set_own o B).
Proof.
  intros Hb [H1 H2 H3 H4]. constructor; simpl; rewrite <- ?H1, <- ?H2, <- ?H3; try (by hdr_read).
  unfold lb_free, set_free. rewrite store_one. by destruct (is_free o).
Qed.

Lemma links_set_own m L1 B L2 o pos top :
  0 < pos -> contig pos (L1 ++ B :: L2) top -> links m 0 (L1 ++ B :: L2) 0 ->
  links (set_free m (b_addr B) (is_free o)) 0 (L1 ++ set_own o B :: L2) 0.
Proof.
  intros Hp Hc Hl. pose proof Hc as Hc'. apply contig_split in Hc' as [_ (Hb & Hs & _)].
  apply links_app in Hl as [H1 [H2 H3]]. simpl in H1.
  assert (forall C b, C ∈ L1 ++ L2 -> b_addr C <= b < b_addr C + LARGE_BLOCK_SIZE ->
            set_free m (b_addr B) (is_free o) b = m b) as Hx.
  { intros C b HC Hr. apply store_other. unfold zlen. simpl.
    destruct (contig_mid _ _ _ _ _ _ Hc HC) as [E|E]; unfold b_end, LARGE_BLOCK_SIZE in *; [|lia].
    assert (C ∈ L1 ++ B :: L2) as HC' by (apply elem_of_app in HC as [?|?]; apply elem_of_app; [by left|right; by right]).
    destruct (contig_in _ _ _ _ Hc HC') as (_ & ? & _). lia. }
  assert (B ∈ L1 ++ B :: L2) as HB by (apply elem_of_app; right; left).
  destruct (contig_in _ _ _ _ Hc HB) as (HB1 & _).
  apply links_app. split; [|split].
  - apply (links_ext m); [|exact H1]. intros C b HC. apply Hx. apply elem_of_app. by left.
  - simpl. apply hdr_set_free; [lia|exact H2].
  - apply (links_ext m); [|exact H3]. intros C b HC. apply Hx. apply elem_of_app. by right.
Qed.

(** Homes survive while the slabs do. *)
Lemma home_larges A L top a k :
  (forall B, B ∈ larges A -> b_own B = Slab ->
     exists C, C ∈ L /\ b_own C = Slab /\ b_addr C <= b_addr B /\ b_end B <= b_end C) ->
  home A top a k -> home (with_larges L A) top a k.
Proof.
  intros HL [H|(B & HB & Ho & H1 & H2)]; [by left|right].
  destruct (HL B HB Ho) as (C & HC & Hc & Hc1 & Hc2). exists C. split_and!; [done|done|lia|lia].
Qed.

Lemma elem_of_mid {X} (x : X) L1 y L2 : x ∈ L1 ++ y :: L2 <-> x = y \/ x ∈ L1 ++ L2.
Proof. rewrite !elem_of_app, elem_of_cons. tauto. Qed.

Lemma contig_set_own pos L1 B L2 o top :
  contig pos (L1 ++ B :: L2) top -> contig pos (L1 ++ set_own o B :: L2) top.
Proof. rewrite !contig_split. simpl. tauto. Qed.

Lemma first_set_own L1 B L2 o nxt : first (L1 ++ set_own o B :: L2) nxt = first (L1 ++ B :: L2) nxt.
Proof. by destruct L1. Qed.

(** From free to used, and back. *)
Lemma Rep_set_own A h L1 B L2 o :
  Rep A h -> larges A = L1 ++ B :: L2 -> (forall p, o <> Live p) ->
  (forall a k l, smalls A !! a = Some (k, l) -> home (with_larges (L1 ++ set_own o B :: L2) A) (arena_ptr h) a k) ->
  Rep (with_larges (L1 ++ set_own o B :: L2) A) (set_mem (set_free (hmem h) (b_addr B) (is_free o)) h).
Proof.
  intros H E Ho Hh. pose proof (rp_contig _ _ H) as Hc. rewrite E in Hc.
  destruct (rp_range _ _ H), (rp_arena _ _ H) as (? & ? & ?).
  apply Rep_larges; try done.
  - by apply contig_set_own.
  - rewrite first_set_own, <- E. apply H.
  - apply (links_set_own _ _ _ _ _ (arena_end h) (hi A)); [lia|done|]. rewrite <- E. apply H.
  - intros C p. rewrite elem_of_mid, E, elem_of_mid. intros [->|HC] HCo; [by destruct (Ho p)|by right].
  - intros b Hb. apply store_other. specialize (Hb (set_own o B)). simpl in Hb. unfold zlen. simpl.
    unfold LARGE_BLOCK_SIZE in Hb. intros Hr. apply Hb; [|lia]. apply elem_of_mid. by left.
Qed.

(** ** Splitting a block *)

(** The two parts of [B]. *)
Definition part1 (B : lblk) (size : Z) : lblk := mkB (b_addr B) size (b_own B).
Definition part2 (B : lblk) (size : Z) : lblk :=
  mkB (b_addr B + LARGE_BLOCK_SIZE + size) (b_size B - size - LARGE_BLOCK_SIZE) Free.

Lemma contig_parts pos L1 B L2 top size :
  contig pos (L1 ++ B :: L2) top -> 0 <= size -> size mod 8 = 0 -> size + LARGE_BLOCK_SIZE <= b_size B ->
  contig pos (L1 ++ part1 B size :: part2 B size :: L2) top.
Proof.
  rewrite !contig_split. intros [H1 (E & Hs & Hm & H2)] H0 H8 Hle. split; [done|].
  unfold LARGE_BLOCK_SIZE in *. simpl. unfold b_end, LARGE_BLOCK_SIZE in *. simpl.
  split_and!; try lia; try done; [dlia|].
  unfold LARGE_BLOCK_SIZE.
  replace (b_addr B + 32 + size + 32 + (b_size B - size - 32)) with (b_addr B + 32 + b_size B) by lia. done.
Qed.

(** The fields of the headers after a split; [c] is the block behind, if
    there is one. *)
Lemma split_fields m b bs size prev c :
  0 < b -> 0 <= size -> size + 48 <= bs -> b + 32 + bs < 2 ^ 62 -> (c = 0 \/ b + 32 + bs <= c < 2 ^ 62) ->
  hdr m prev c (mkB b bs Free) ->
  let m' := split_block m b size in
  hdr m' prev (b + 32 + size) (mkB b size Free) /\
  hdr m' b c (mkB (b + 32 + size) (bs - size - 32) Free) /\
  (forall x, ~ b <= x < b + 32 -> ~ b + 32 + size <= x < b + 64 + size ->
             ~ (c <> 0 /\ c + 16 <= x < c + 24) -> m' x = m x) /\
  (c <> 0 -> lb_prev m' c = b + 32 + size).
Proof.
  intros Hb Hs Hbs Htop Hc [H1 H2 H3 H4]. simpl in H1, H2, H3, H4.
  unfold lb_size, lb_next, lb_prev in H1, H2, H3. cbv zeta. unfold split_block, LARGE_BLOCK_SIZE. cbv zeta.
  set (n := b + 32 + size) in *. assert (n = b + 32 + size) as En by done. clearbody n.
  assert (lb_size m b = bs) as -> by done.
  assert (lb_next (set_size m n (bs - size - 32)) b = c) as -> by (hdr_read; done).
  set (m4 := set_free _ n true).
  assert (lb_next m4 n = c) as -> by (unfold m4; hdr_read; done).
  destruct (Z.eqb_spec c 0) as [->|Hc0].
  - repeat split; simpl; unfold m4; try (hdr_read; done).
    intros x X1 X2 _. unfold set_next, set_size, set_free, set_prev.
    rewrite !write64_other by lia. rewrite store_other by (unfold zlen; simpl; lia).
    by rewrite !write64_other by lia.
  - destruct Hc as [Hc|Hc]; [done|].
    repeat split; simpl; unfold m4; try (hdr_read; done).
    intros x X1 X2 X3. unfold set_next, set_size, set_free, set_prev.
    rewrite !write64_other by lia. rewrite store_other by (unfold zlen; simpl; lia).
    by rewrite !write64_other by lia.
Qed.

(** The header of the block behind gets a new [prev]. *)
Lemma hdr_reprev m m' prev prev' next C :
  (forall x, b_addr C <= x < b_addr C + 32 -> ~ b_addr C + 16 <= x < b_addr C + 24 -> m' x = m x) ->
  lb_prev m' (b_addr C) = prev' -> hdr m prev next C -> hdr m' prev' next C.
Proof.
  intros Hm Hp [H1 H2 H3 H4]. constructor; unfold lb_size, lb_next, lb_free in *.
  - rewrite <- H1. apply read64_ext. intros x Hx. apply Hm; lia.
  - rewrite <- H2. apply read64_ext. intros x Hx. apply Hm; lia.
  - done.
  - rewrite <- H4. by rewrite Hm by lia.
Qed.

(** The blocks behind, when only the [prev] of the first of them changed. *)
Lemma links_behind m m' prev prev' L :
  (forall B x, B ∈ L -> b_addr B <= x < b_addr B + 32 ->
     ~ (first L 0 <> 0 /\ first L 0 + 16 <= x < first L 0 + 24) -> m' x = m x) ->
  (first L 0 <> 0 -> lb_prev m' (first L 0) = prev') -> Forall (fun B => 0 < b_addr B) L ->
  contig (first L 0) L (2 ^ 62) -> links m prev L 0 -> links m' prev' L 0.
Proof.
  destruct L as [|C L]; [done|]. simpl. intros Hm Hp HF (_ & Hs & _ & Hc) [H1 H2].
  apply Forall_cons in HF as [HC _]. split.
  - apply (hdr_reprev m m' prev); [|apply Hp; lia|done]. intros x X1 X2. apply (Hm C); [left|done|lia].
  - apply (links_ext m); [|done]. intros B x HB Hx. destruct (contig_in _ _ _ _ Hc HB) as (Hb & _).
    unfold b_end, LARGE_BLOCK_SIZE in *. apply (Hm B); [by right|done|lia].
Qed.

Lemma contig_weaken pos L top top' : top <= top' -> contig pos L top -> contig pos L top'.
Proof. revert pos. induction L as [|B L IH]; intros pos Ht; simpl; [lia|]. naive_solver. Qed.

Lemma contig_first pos L top : contig pos L top -> L <> [] -> first L 0 = pos.
Proof. destruct L; [done|]. simpl. tauto. Qed.

Lemma contig_behind pos L top : contig pos L top -> contig (first L 0) L top \/ L = [].
Proof. intros H. destruct L as [|B L]; [by right|left]. destruct H as [_ H]. by split. Qed.

Lemma links_split_block m L1 B L2 size pos top :
  0 < pos -> top < 2 ^ 62 -> contig pos (L1 ++ B :: L2) top -> links m 0 (L1 ++ B :: L2) 0 ->
  b_own B = Free -> 0 <= size -> size + LARGE_BLOCK_SIZE + 16 <= b_size B ->
  let L := L1 ++ part1 B size :: part2 B size :: L2 in
  let m' := split_block m (b_addr B) size in
  links m' 0 L 0 /\
  (forall x, (forall C, C ∈ L -> ~ b_addr C <= x < b_addr C + LARGE_BLOCK_SIZE) -> m' x = m x).
Proof.
  intros Hp Ht Hc Hl Ho Hs Hle. pose proof Hc as Hc'. apply contig_split in Hc' as [Hc1 (E & Hbs & _ & Hc2)].
  apply links_app in Hl as [H1 [H2 H3]]. simpl in H1.
  assert (B ∈ L1 ++ B :: L2) as HB by (apply elem_of_mid; by left).
  destruct (contig_in _ _ _ _ Hc HB) as (HB1 & _ & _ & HB2). unfold b_end, LARGE_BLOCK_SIZE in *.
  assert (first L2 0 = 0 \/ b_addr B + 32 + b_size B <= first L2 0 < 2 ^ 62) as Hf.
  { destruct L2 as [|C L2]; [by left|right]. simpl. destruct Hc2 as (E2 & ? & _ & Hc3). 
    pose proof (contig_length _ _ _ Hc3). unfold b_end, LARGE_BLOCK_SIZE in *. lia. }
  destruct B as [b bs o]. simpl in *. subst o.
  destruct (split_fields m b bs size (last_of 0 L1) (first L2 0)) as (F1 & F2 & F3 & F4); try lia; [exact H2|].
  set (m' := split_block m b size) in *. clearbody m'. split.
  - apply links_app. split; [|split; [|split]].
    + apply (links_ext m); [|exact H1]. intros C x HC Hx. unfold LARGE_BLOCK_SIZE in *.
      destruct (contig_in _ _ _ _ Hc1 HC) as (? & ? & _ & ?). unfold b_end, LARGE_BLOCK_SIZE in *. apply F3; lia.
    + exact F1.
    + exact F2.
    + simpl. apply (links_behind m m' b); [|done| | |exact H3].
      * intros C x HC Hx Hnx. destruct (contig_in _ _ _ _ Hc2 HC) as (? & _). unfold b_end, LARGE_BLOCK_SIZE in *.
        apply F3; [lia|lia|done].
      * apply Forall_forall. intros C HC. destruct (contig_in _ _ _ _ Hc2 HC) as (? & _). lia.
      * destruct (contig_behind _ _ _ Hc2) as [Hb| ->]; [|simpl; lia]. by apply (contig_weaken _ _ top); [lia|].
  - intros x Hx. pose proof (Hx (part1 (mkB b bs Free) size)) as X1. pose proof (Hx (part2 (mkB b bs Free) size)) as X2.
    simpl in X1, X2. apply F3.
    + apply X1. apply elem_of_mid. by left.
    + replace (b + 64 + size) with (b + 32 + size + 32) by lia. apply X2. apply elem_of_mid. right. apply elem_of_mid. by left.
    + intros [Hn Hr]. destruct L2 as [|C L2]; [done|]. simpl in Hr. apply (Hx C); [|lia].
      apply elem_of_app. right. right. right. left.
Qed.


Lemma Rep_split A h L1 B L2 size :
  Rep A h -> larges A = L1 ++ B :: L2 -> b_own B = Free -> 0 <= size -> size mod 8 = 0 ->
  size + LARGE_BLOCK_SIZE + 16 <= b_size B ->
  Rep (with_larges (L1 ++ part1 B size :: part2 B size :: L2) A)
    (set_mem (split_block (hmem h) (b_addr B) size) h).
Proof.
  intros H E Ho Hs H8 Hle. pose proof (rp_contig _ _ H) as Hc. pose proof (rp_links _ _ H) as Hl.
  rewrite E in Hc, Hl. destruct (rp_range _ _ H), (rp_arena _ _ H) as (? & ? & ?).
  destruct (links_split_block (hmem h) L1 B L2 size (arena_end h) (hi A)) as [G1 G2]; try done; [lia|].
  apply Rep_larges; try done.
  - apply contig_parts; try done. unfold LARGE_BLOCK_SIZE in *. lia.
  - rewrite (rp_head _ _ H), E. by destruct L1.
  - intros a k l Ha. destruct (rp_small _ _ H _ _ _ Ha) as (_ & _ & Hh). revert Hh. apply home_larges.
    intros C. rewrite E, elem_of_mid. intros [->|HC] Hcs; [congruence|].
    exists C. split_and!; [|done|lia|lia]. rewrite elem_of_mid, elem_of_mid. tauto.
  - intros C p. rewrite elem_of_mid, elem_of_mid, E, elem_of_mid.
    intros [->|[->|HC]] Hcs; [simpl in Hcs; congruence|done|by right].
Qed.

(** ** Merging two free blocks *)

Definition joined (B N : lblk) : lblk := mkB (b_addr B) (b_size B + (b_size N + LARGE_BLOCK_SIZE)) Free.

Lemma contig_joined pos L1 B N L2 top :
  contig pos (L1 ++ B :: N :: L2) top -> contig pos (L1 ++ joined B N :: L2) top.
Proof.
  rewrite !contig_split. intros [H1 (E & Hs & Hm & En & Hsn & Hmn & H2)]. split; [done|].
  unfold b_end in *. simpl. unfold b_end, LARGE_BLOCK_SIZE in *. simpl. unfold LARGE_BLOCK_SIZE.
  split_and!; [done|lia|dlia|].
  replace (b_addr B + 32 + (b_size B + (b_size N + 32))) with (b_addr N + 32 + b_size N) by lia. done.
Qed.

(** What both ways of merging [n] into [b] write; [c] is the block behind. *)
Definition merged (m : mem) (b bs ns c : Z) : mem :=
  let m := set_next (set_size m b (bs + (ns + 32))) b c in
  if c =? 0 then m else set_prev m c b.

Lemma merge_eq m b bs n ns pb pn c :
  0 < b -> 0 <= bs -> n = b + 32 + bs -> 0 <= ns -> n + 32 + ns < 2 ^ 62 ->
  (c = 0 \/ n + 32 + ns <= c < 2 ^ 62) ->
  hdr m pb n (mkB b bs Free) -> hdr m pn c (mkB n ns Free) ->
  merge_next m b n = merged m b bs ns c /\ merge_prev m b n = merged m b bs ns c.
Proof.
  intros Hb Hbs -> Hns Ht Hc [H1 H2 H3 H4] [G1 G2 G3 G4]. simpl in *.
  set (n := b + 32 + bs) in *. assert (n = b + 32 + bs) as En by done. clearbody n.
  unfold lb_size, lb_next in H1, G1, G2.
  assert (lb_size m b = bs) as E1 by done. assert (lb_size m n = ns) as E2 by done.
  assert (lb_next (set_size m b (bs + (ns + 32))) n = c) as E3 by (hdr_read; done).
  assert (lb_next (set_next (set_size m b (bs + (ns + 32))) b c) n = c) as E4 by (hdr_read; done).
  assert (lb_next (set_next (set_size m b (bs + (ns + 32))) b c) b = c) as E5 by (hdr_read; done).
  unfold merge_next, merge_prev, merged, LARGE_BLOCK_SIZE. cbv zeta.
  rewrite E1, E2, E3, E4, E5. by split; destruct (c =? 0).
Qed.

Lemma merged_fields m b bs n ns pb pn c :
  0 < b -> 0 <= bs -> n = b + 32 + bs -> 0 <= ns -> n + 32 + ns < 2 ^ 62 ->
  (c = 0 \/ n + 32 + ns <= c < 2 ^ 62) ->
  hdr m pb n (mkB b bs Free) -> hdr m pn c (mkB n ns Free) ->
  let m' := merged m b bs ns c in
  hdr m' pb c (mkB b (bs + (ns + 32)) Free) /\
  (forall x, ~ b <= x < b + 32 -> ~ (c <> 0 /\ c + 16 <= x < c + 24) -> m' x = m x) /\
  (c <> 0 -> lb_prev m' c = b).
Proof.
  intros Hb Hbs -> Hns Ht Hc [H1 H2 H3 H4] _. simpl in *.
  unfold lb_prev in H3. cbv zeta. unfold merged. cbv zeta. destruct (Z.eqb_spec c 0) as [->|Hc0].
  - repeat split; simpl; try (hdr_read; done).
    intros x X1 _. unfold set_next, set_size. by rewrite !write64_other by lia.
  - destruct Hc as [Hc|Hc]; [done|]. repeat split; simpl; try (hdr_read; done).
    intros x X1 X3. unfold set_next, set_size, set_prev. by rewrite !write64_other by lia.
Qed.

Lemma links_merged m L1 B N L2 pos top :
  0 < pos -> top < 2 ^ 62 -> contig pos (L1 ++ B :: N :: L2) top -> links m 0 (L1 ++ B :: N :: L2) 0 ->
  b_own B = Free -> b_own N = Free ->
  let L := L1 ++ joined B N :: L2 in
  let m' := merged m (b_addr B) (b_size B) (b_size N) (first L2 0) in
  links m' 0 L 0 /\
  (forall x, (forall C, C ∈ L -> ~ b_addr C <= x < b_addr C + LARGE_BLOCK_SIZE) -> m' x = m x) /\
  merge_next m (b_addr B) (b_addr N) = m' /\ merge_prev m (b_addr B) (b_addr N) = m'.
Proof.
  intros Hp Ht Hc Hl HoB HoN. pose proof Hc as Hc'.
  apply contig_split in Hc' as [Hc1 (E & Hbs & _ & En & Hns & _ & Hc2)].
  apply links_app in Hl as [H1 [H2 [H3 H4]]]. simpl in H1, H2, H4.
  assert (N ∈ L1 ++ B :: N :: L2) as HN by (rewrite !elem_of_mid; auto).
  assert (B ∈ L1 ++ B :: N :: L2) as HB by (rewrite !elem_of_mid; auto).
  destruct (contig_in _ _ _ _ Hc HN) as (HN1 & _ & _ & HN2). destruct (contig_in _ _ _ _ Hc HB) as (HB1 & _).
  unfold b_end, LARGE_BLOCK_SIZE in *.
  assert (first L2 0 = 0 \/ b_addr N + 32 + b_size N <= first L2 0 < 2 ^ 62) as Hf.
  { destruct L2 as [|C L2]; [by left|right]. simpl. destruct Hc2 as (E2 & ? & _ & Hc3).
    pose proof (contig_length _ _ _ Hc3). unfold b_end, LARGE_BLOCK_SIZE in *. lia. }
  destruct B as [b bs o], N as [n ns o']. simpl in *. subst o o'.
  destruct (merged_fields m b bs n ns (last_of 0 L1) b (first L2 0)) as (F1 & F3 & F4); try done; try lia.
  destruct (merge_eq m b bs n ns (last_of 0 L1) b (first L2 0)) as (F5 & F6); try done; try lia.
  set (m' := merged m b bs ns (first L2 0)) in *. clearbody m'. split_and!; [| |done|done].
  - apply links_app. split; [|split].
    + apply (links_ext m); [|exact H1]. intros C x HC Hx. unfold LARGE_BLOCK_SIZE in *.
      destruct (contig_in _ _ _ _ Hc1 HC) as (? & ? & _ & ?). unfold b_end, LARGE_BLOCK_SIZE in *. apply F3; lia.
    + exact F1.
    + simpl. apply (links_behind m m' n); [|done| | |exact H4].
      * intros C x HC Hx Hnx. destruct (contig_in _ _ _ _ Hc2 HC) as (? & _). apply F3; [lia|done].
      * apply Forall_forall. intros C HC. destruct (contig_in _ _ _ _ Hc2 HC) as (? & _). lia.
      * destruct (contig_behind _ _ _ Hc2) as [Hb| ->]; [|simpl; lia]. by apply (contig_weaken _ _ top); [lia|].
  - intros x Hx. apply F3.
    + apply (Hx (joined (mkB b bs Free) (mkB n ns Free))). apply elem_of_mid. by left.
    + intros [Hn Hr]. destruct L2 as [|C L2]; [done|]. simpl in Hr. apply (Hx C); [|lia].
      apply elem_of_app. right. right. left.
Qed.

Lemma Rep_merge A h L1 B N L2 :
  Rep A h -> larges A = L1 ++ B :: N :: L2 -> b_own B = Free -> b_own N = Free ->
  Rep (with_larges (L1 ++ joined B N :: L2) A) (set_mem (merge_next (hmem h) (b_addr B) (b_addr N)) h) /\
  merge_prev (hmem h) (b_addr B) (b_addr N) = merge_next (hmem h) (b_addr B) (b_addr N) /\
  (forall x, (forall C, C ∈ L1 ++ joined B N :: L2 -> ~ b_addr C <= x < b_addr C + LARGE_BLOCK_SIZE) ->
     merge_next (hmem h) (b_addr B) (b_addr N) x = hmem h x).
Proof.
  intros H E HoB HoN. pose proof (rp_contig _ _ H) as Hc. pose proof (rp_links _ _ H) as Hl.
  rewrite E in Hc, Hl. destruct (rp_range _ _ H), (rp_arena _ _ H) as (? & ? & ?).
  destruct (links_merged (hmem h) L1 B N L2 (arena_end h) (hi A)) as (G1 & G2 & G3 & G4); try done; [lia|].
  rewrite G3, G4. split; [|by split]. apply Rep_larges; try done.
  - by apply contig_joined.
  - rewrite (rp_head _ _ H), E. by destruct L1.
  - intros a k l Ha. destruct (rp_small _ _ H _ _ _ Ha) as (_ & _ & Hh). revert Hh. apply home_larges.
    intros C. rewrite E, elem_of_mid, elem_of_mid. intros [->|[->|HC]] Hcs; [congruence|congruence|].
    exists C. split_and!; [|done|lia|lia]. rewrite elem_of_mid. tauto.
  - intros C p. rewrite E, !elem_of_mid. intros [->|HC] Hcs; [done|tauto].
Qed.

End HeapLarge.
