(* ===== verification/HeapOps.v ===== *)
(** The operations of the kernel heap keep its invariant, hand out memory that
    nobody else has, and leave the contents of live allocations alone. *)

From S2P Require Import Prelude Frame Heap HeapInv HeapLarge.

Module HeapOps.
Import Heap HeapInv HeapLarge.

(** ** Live allocations *)

Definition outside (L : list lblk) (x : Z) : Prop :=
  forall C, C ∈ L -> ~ b_addr C <= x < b_addr C + LARGE_BLOCK_SIZE.

(** The block an allocation lies in. *)
Lemma live_block A h p c :
  Rep A h -> live A p c ->
  (exists a k, smalls A !! a = Some (k, true) /\ a + SMALL_HEADER_SIZE = p /\ p + c = a + total k) \/
  (exists B, B ∈ larges A /\ b_own B = Live p /\ b_addr B + LARGE_BLOCK_SIZE + 16 <= p /\ p <= p + c /\ p + c = b_end B).
Proof.
  intros H [(a & k & E & -> & ->)|(B & HB & Ho & ->)]; [left|right].
  - exists a, k. rewrite total_class. split_and!; [done|done|lia].
  - destruct (rp_large _ _ H B p HB Ho) as [Hp _]. exists B. split_and!; [done|done|lia|lia|lia].
Qed.

(** An allocation contains no header. *)
Lemma live_outside A h p c x : Rep A h -> live A p c -> p <= x < p + c -> outside (larges A) x.
Proof.
  intros H Hv Hx C HC. destruct (live_block A h p c H Hv) as [(a & k & E & Ep & Ec)|(B & HB & Ho & Ep & _ & Ec)].
  - destruct (rp_small _ _ H _ _ _ E) as (_ & _ & Hh).
    destruct (Rep_home_apart A h a k C H Hh HC) as [HA _]. unfold SMALL_HEADER_SIZE in *. lia.
  - destruct (contig_two _ _ _ _ _ (rp_contig _ _ H) HB HC) as [->|[D|D]]; unfold b_end, LARGE_BLOCK_SIZE in *;
      [lia|lia|]. destruct (contig_in _ _ _ _ (rp_contig _ _ H) HC) as (_ & ? & _). lia.
Qed.

(** Nor does it meet a place where a small block fits. *)
Lemma live_fits A h p c a k x :
  Rep A h -> fits A (arena_ptr h) a k -> live A p c -> p <= x < p + c -> ~ a <= x < a + total k.
Proof.
  intros H F Hv Hx. destruct (live_block A h p c H Hv) as [(a' & k' & E & Ep & Ec)|(B & HB & Ho & Ep & _ & Ec)].
  - unfold SMALL_HEADER_SIZE in *. destruct (ft_apart _ _ _ _ F _ _ _ E); lia.
  - destruct (Rep_home_apart A h a k B H (ft_home _ _ _ _ F) HB) as [_ HA].
    unfold LARGE_BLOCK_SIZE in *. destruct HA; [congruence|lia|lia].
Qed.

(** Live allocations do not overlap. *)
Lemma live_apart A h p c q d :
  Rep A h -> live A p c -> live A q d -> p <> q -> p + c <= q \/ q + d <= p.
Proof.
  intros H Hp Hq Hne.
  destruct (live_block A h p c H Hp) as [(a & k & E & Ep & Ec)|(B & HB & Ho & Ep & _ & Ec)];
  destruct (live_block A h q d H Hq) as [(a' & k' & E' & Ep' & Ec')|(B' & HB' & Ho' & Ep' & _ & Ec')];
  unfold SMALL_HEADER_SIZE, LARGE_BLOCK_SIZE in *.
  - destruct (Z.lt_trichotomy a a') as [L|[L|L]]; [left|lia|right].
    + pose proof (rp_apart _ _ H _ _ _ _ _ _ E E' L). lia.
    + pose proof (rp_apart _ _ H _ _ _ _ _ _ E' E L). lia.
  - destruct (rp_small _ _ H _ _ _ E) as (_ & _ & Hh).
    destruct (Rep_home_apart A h a k B' H Hh HB') as [_ HA]. destruct HA; [congruence|lia|lia].
  - destruct (rp_small _ _ H _ _ _ E') as (_ & _ & Hh).
    destruct (Rep_home_apart A h a' k' B H Hh HB) as [_ HA]. destruct HA; [congruence|lia|lia].
  - destruct (contig_two _ _ _ _ _ (rp_contig _ _ H) HB HB') as [->|[D|D]]; [|lia|lia].
    rewrite Ho in Ho'. by injection Ho'.
Qed.

(** They lie in the heap. *)
Lemma live_range A h p c : Rep A h -> live A p c -> lo A <= p /\ p + c <= hi A /\ 0 <= c.
Proof.
  intros H Hv. destruct (rp_arena _ _ H) as (Ha & Ha' & _).
  destruct (live_block A h p c H Hv) as [(a & k & E & Ep & Ec)|(B & HB & Ho & Ep & Ep' & Ec)].
  - destruct (rp_small _ _ H _ _ _ E) as (Hk & _ & Hh). pose proof (total_bounds k Hk).
    unfold SMALL_HEADER_SIZE in *. destruct Hh as [Hh|(B & HB & _ & H1 & H2)]; [lia|].
    destruct (contig_in _ _ _ _ (rp_contig _ _ H) HB) as (? & _ & _ & ?). unfold LARGE_BLOCK_SIZE in *. lia.
  - destruct (contig_in _ _ _ _ (rp_contig _ _ H) HB) as (? & _ & _ & ?). unfold LARGE_BLOCK_SIZE in *. lia.
Qed.

(** A program writes into its allocation. *)
Lemma Rep_payload A h p c m' :
  Rep A h -> live A p c -> (forall x, ~ p <= x < p + c -> m' x = hmem h x) -> Rep A (set_mem m' h).
Proof.
  intros H Hv Hm. apply Rep_mem; [| | |done].
  - intros B b HB Hb. apply Hm. intros Hx. by apply (live_outside A h p c b H Hv Hx B HB).
  - intros a k l E. apply read64_ext. intros b Hb. apply Hm. intros Hx.
    destruct (rp_small _ _ H _ _ _ E) as (Hk & _ & Hh). pose proof (total_bounds k Hk).
    destruct (live_block A h p c H Hv) as [(a' & k' & E' & Ep & Ec)|(B & HB & Ho & Ep & _ & Ec)];
      unfold SMALL_HEADER_SIZE, LARGE_BLOCK_SIZE in *.
    + destruct (Z.lt_trichotomy a a') as [L|[L|L]]; [|lia|].
      * pose proof (rp_apart _ _ H _ _ _ _ _ _ E E' L). lia.
      * pose proof (rp_apart _ _ H _ _ _ _ _ _ E' E L). lia.
    + destruct (Rep_home_apart A h a k B H Hh HB) as [_ HA]. destruct HA; [congruence|lia|lia].
  - intros B q HB Ho. apply read64_ext. intros b Hb. apply Hm. intros Hx.
    destruct (rp_large _ _ H B q HB Ho) as [Hq _].
    destruct (live_block A h p c H Hv) as [(a' & k' & E' & Ep & Ec)|(C & HC & HoC & Ep & _ & Ec)];
      unfold SMALL_HEADER_SIZE, LARGE_BLOCK_SIZE in *.
    + destruct (rp_small _ _ H _ _ _ E') as (_ & _ & Hh).
      destruct (Rep_home_apart A h a' k' B H Hh HB) as [_ HA]. destruct HA; [congruence|lia|lia].
    + destruct (contig_two _ _ _ _ _ (rp_contig _ _ H) HB HC) as [->|[D|D]]; [|lia|lia].
      rewrite Ho in HoC. injection HoC as ->. lia.
Qed.

(** ** Large blocks *)

Lemma land_lnot_ones x n : 0 <= n -> Z.land x (Z.lnot (2 ^ n - 1)) = x / 2 ^ n * 2 ^ n.
Proof.
  intros Hn. replace (2 ^ n - 1) with (Z.ones n) by (rewrite Z.ones_equiv; lia).
  rewrite <- Z.ldiff_land, Z.ldiff_ones_r by done. by rewrite Z.shiftl_mul_pow2, Z.shiftr_div_pow2 by done.
Qed.

Lemma align8 size : Z.land (size + 7) (Z.lnot 7) = (size + 7) / 8 * 8.
Proof. apply (land_lnot_ones (size + 7) 3). lia. Qed.

Lemma find_fit_spec m size top fuel : forall prev pos L,
  0 < pos -> contig pos L top -> links m prev L 0 -> (length L <= fuel)%nat ->
  (exists L1 B L2, L = L1 ++ B :: L2 /\ b_own B = Free /\ size <= b_size B /\
                   find_fit fuel m (first L 0) size = Ok (b_addr B)) \/
  (find_fit fuel m (first L 0) size = Ok 0 /\ forall B, B ∈ L -> b_own B = Free -> b_size B < size).
Proof.
  induction fuel as [|fuel IH]; intros prev pos L Hp Hc Hl Hf.
  - destruct L; [right|simpl in Hf; lia]. split; [done|]. intros B HB. by apply not_elem_of_nil in HB.
  - destruct L as [|B L]; [right; split; [done|]; intros B HB; by apply not_elem_of_nil in HB|]. destruct Hc as (E & Hs & _ & Hc). destruct Hl as [[H1 H2 H3 H4] Hl].
    simpl. destruct (Z.eqb_spec (b_addr B) 0); [lia|]. rewrite H1, H2, H4.
    destruct (is_free (b_own B) && (size <=? b_size B)) eqn:Ef.
    + left. apply andb_true_iff in Ef as [Ef Es]. exists [], B, L. split_and!; [done| |lia|done].
      by destruct (b_own B).
    + destruct (IH (b_addr B) (b_end B) L) as [(L1 & C & L2 & -> & ? & ? & ?)|[? Hno]]; try done.
      * unfold b_end, LARGE_BLOCK_SIZE. lia.
      * simpl in Hf. lia.
      * left. exists (B :: L1), C, L2. by split_and!.
      * right. split; [done|]. intros C HC Ho. apply elem_of_cons in HC as [->|HC]; [|by apply Hno].
        rewrite Ho in Ef. simpl in Ef. lia.
Qed.

(** The block [B] was taken from the free ones: no small block lies in it, and
    no live block and nothing but headers changed. *)
Record taken (A : aheap) (h : heap) (L1 : list lblk) (B : lblk) (L2 : list lblk) (m' : mem) : Prop := {
  tk_own : b_own B = Slab;
  tk_rep : Rep (with_larges (L1 ++ B :: L2) A) (set_mem m' h);
  tk_apart : forall a k l, smalls A !! a = Some (k, l) -> a + total k <= b_addr B \/ b_end B <= a;
  tk_live : forall C p, b_own C = Live p -> C ∈ L1 ++ L2 <-> C ∈ larges A;
  tk_mem : forall x, outside (L1 ++ B :: L2) x -> m' x = hmem h x;
}.

Lemma home_slabs A h L1 B L2 L :
  Rep A h -> larges A = L1 ++ B :: L2 -> b_own B <> Slab -> (forall C, C ∈ L1 ++ L2 -> C ∈ L) ->
  forall a k l, smalls A !! a = Some (k, l) -> home (with_larges L A) (arena_ptr h) a k.
Proof.
  intros H E Ho HL a k l Ea. destruct (rp_small _ _ H _ _ _ Ea) as (_ & _ & Hh). revert Hh.
  apply home_larges. intros C. rewrite E, elem_of_mid. intros [->|HC] HCs; [congruence|].
  exists C. split_and!; [by apply HL|done|lia|lia].
Qed.

Lemma free_apart A h B :
  Rep A h -> B ∈ larges A -> b_own B = Free ->
  forall a k l, smalls A !! a = Some (k, l) -> a + total k <= b_addr B \/ b_end B <= a.
Proof.
  intros H HB Ho a k l Ea. destruct (rp_small _ _ H _ _ _ Ea) as (_ & _ & Hh).
  destruct (Rep_home_apart A h a k B H Hh HB) as [_ HA]. apply HA. congruence.
Qed.

Lemma taken_whole A h L1 B L2 :
  Rep A h -> larges A = L1 ++ B :: L2 -> b_own B = Free ->
  taken A h L1 (set_own Slab B) L2 (set_free (hmem h) (b_addr B) false).
Proof.
  intros H E Ho. assert (B ∈ larges A) as HB by (rewrite E; apply elem_of_mid; by left). constructor.
  - done.
  - apply (Rep_set_own _ _ L1 B L2 Slab H); [done|done|].
    apply (home_slabs A h L1 B L2); [done|done|congruence|]. intros C HC. apply elem_of_mid. by right.
  - apply (free_apart A h B H HB Ho).
  - intros C p HC. rewrite E, elem_of_mid. split; [by right|]. intros [->|?]; [congruence|done].
  - intros x Hx. apply store_other. unfold zlen. simpl. intros Hr.
    apply (Hx (set_own Slab B)); [apply elem_of_mid; by left|]. simpl. unfold LARGE_BLOCK_SIZE. lia.
Qed.

Lemma taken_split A h L1 B L2 n :
  Rep A h -> larges A = L1 ++ B :: L2 -> b_own B = Free -> 0 <= n -> n mod 8 = 0 ->
  n + LARGE_BLOCK_SIZE + 16 <= b_size B ->
  taken A h L1 (set_own Slab (part1 B n)) (part2 B n :: L2)
    (set_free (split_block (hmem h) (b_addr B) n) (b_addr B) false).
Proof.
  intros H E Ho Hn Hn8 Hle. assert (B ∈ larges A) as HB by (rewrite E; apply elem_of_mid; by left).
  pose proof (Rep_split A h L1 B L2 n H E Ho Hn Hn8 Hle) as HS.
  destruct (taken_whole _ _ L1 (part1 B n) (part2 B n :: L2) HS) as [_ T1 _ T3 T4]; [done|done|]. constructor.
  - done.
  - exact T1.
  - intros a k l Ea. pose proof (free_apart A h B H HB Ho a k l Ea).
    unfold b_end, part1, set_own, LARGE_BLOCK_SIZE in *. simpl. lia.
  - intros C p HC. rewrite (T3 C p HC). simpl. rewrite E, !elem_of_mid. split.
    + intros [->|[->|?]]; [simpl in HC; congruence|done|by right].
    + intros [->|?]; [congruence|by right; right].
  - intros x Hx. rewrite T4 by exact Hx.
    pose proof (rp_contig _ _ H) as Hc. pose proof (rp_links _ _ H) as Hl. rewrite E in Hc, Hl.
    destruct (rp_range _ _ H), (rp_arena _ _ H) as (? & ? & ?).
    destruct (links_split_block (hmem h) L1 B L2 n (arena_end h) (hi A) ltac:(lia) ltac:(lia) Hc Hl Ho Hn Hle) as [_ G2].
    apply G2. intros C. rewrite elem_of_mid. intros [->|HC] Hr.
    + apply (Hx (set_own Slab (part1 B n))); [apply elem_of_mid; by left|done].
    + apply (Hx C); [apply elem_of_mid; by right|done].
Qed.

(** No free block has room for [size] bytes, rounded up to words. *)
Definition full (A : aheap) (size : Z) : Prop :=
  forall B, B ∈ larges A -> b_own B = Free -> b_size B < (size + 7) / 8 * 8.

Lemma alloc_large_raw_spec A h size :
  Rep A h -> 0 <= size ->
  (alloc_large_raw size h = (h, Ok 0) /\ full A size) \/
  (exists L1 B L2 m', alloc_large_raw size h = (set_mem m' h, Ok (b_addr B + LARGE_BLOCK_SIZE)) /\
                      size <= b_size B /\ taken A h L1 B L2 m').
Proof.
  intros H Hs. unfold alloc_large_raw. rewrite align8. set (n := (size + 7) / 8 * 8).
  assert (0 <= size <= n /\ n mod 8 = 0) as [Hn Hn8] by (unfold n; split; [dlia|by apply Z.mod_mul]).
  pose proof (rp_contig _ _ H) as Hc. destruct (rp_range _ _ H), (rp_arena _ _ H) as (? & ? & ?).
  pose proof (contig_length _ _ _ Hc) as Hlen. pose proof (rp_fuel _ _ H) as Hf. unfold LARGE_BLOCK_SIZE in Hlen, Hf.
  pose proof (rp_links _ _ H) as Hl. rewrite (rp_head _ _ H).
  destruct (find_fit_spec (hmem h) n (hi A) (max_blocks h) 0 (arena_end h) (larges A))
    as [(L1 & B & L2 & E & Ho & Hsz & ->)|[-> Hno]]; [lia|done|done|lia| |by left].
  right. rewrite E in Hc, Hl. apply links_app in Hl as [_ [[Eb _ _ _] _]].
  destruct (contig_in _ _ _ B Hc) as (? & ? & _); [apply elem_of_mid; by left|].
  destruct (Z.eqb_spec (b_addr B) 0); [lia|]. cbv zeta. rewrite Eb.
  destruct (Z.leb_spec (n + LARGE_BLOCK_SIZE + 16) (b_size B)) as [Hle|Hle].
  - exists L1, (set_own Slab (part1 B n)), (part2 B n :: L2). eexists. split; [reflexivity|].
    split; [simpl; lia|]. apply taken_split; [done|done|done|lia|done|done].
  - exists L1, (set_own Slab B), L2. eexists. split; [reflexivity|].
    split; [simpl; lia|]. by apply taken_whole.
Qed.

(** ** What the operations do to the live allocations *)

Definition keeps (A : aheap) (h h' : heap) : Prop :=
  forall p c x, live A p c -> p <= x < p + c -> hmem h' x = hmem h x.

(** The live allocations are the same. *)
Record same (A : aheap) (h : heap) (A' : aheap) (h' : heap) : Prop := {
  sm_rep : Rep A' h';
  sm_range : lo A' = lo A /\ hi A' = hi A;
  sm_live : forall p c, live A' p c <-> live A p c;
  sm_keeps : keeps A h h';
}.

(** One more: [c] bytes at [r]. *)
Record allocated (A : aheap) (h : heap) (A' : aheap) (h' : heap) (r c : Z) : Prop := {
  al_rep : Rep A' h';
  al_range : lo A' = lo A /\ hi A' = hi A;
  al_live : forall p d, live A' p d <-> live A p d \/ (p = r /\ d = c);
  al_new : forall d, ~ live A r d;
  al_keeps : keeps A h h';
}.

Lemma same_trans A h A1 h1 A2 h2 : same A h A1 h1 -> same A1 h1 A2 h2 -> same A h A2 h2.
Proof.
  intros [R1 [L1 H1] V1 K1] [R2 [L2 H2] V2 K2]. constructor; [done|split; congruence| |].
  - intros p c. by rewrite V2.
  - intros p c x Hv Hx. rewrite (K2 p c x); [by apply (K1 p c)|by apply V1|done].
Qed.

Lemma same_allocated A h A1 h1 A2 h2 r c : same A h A1 h1 -> allocated A1 h1 A2 h2 r c -> allocated A h A2 h2 r c.
Proof.
  intros [R1 [L1 H1] V1 K1] [R2 [L2 H2] V2 N2 K2]. constructor; [done|split; congruence| | |].
  - intros p d. by rewrite V2, V1.
  - intros d Hd. apply (N2 d). by apply V1.
  - intros p d x Hv Hx. rewrite (K2 p d x); [by apply (K1 p d)|by apply V1|done].
Qed.

Lemma live_smalls A s p c :
  (forall a k, s !! a = Some (k, true) <-> smalls A !! a = Some (k, true)) ->
  live (with_smalls s A) p c <-> live A p c.
Proof. intros Hs. unfold live. simpl. setoid_rewrite Hs. done. Qed.

Lemma live_larges A L p c :
  (forall B q, b_own B = Live q -> B ∈ L <-> B ∈ larges A) ->
  live (with_larges L A) p c <-> live A p c.
Proof.
  intros HL. unfold live. simpl. split; (intros [?|(B & HB & Ho & ->)]; [by left|right]);
    exists B; (split_and!; [by apply (HL B p Ho)|done|done]).
Qed.

Lemma taken_same A h L1 B L2 m' :
  taken A h L1 B L2 m' -> same A h (with_larges (L1 ++ B :: L2) A) (set_mem m' h).
Proof.
  intros [T1 T2 T3 T4 T5].
  assert (forall p c, live (with_larges (L1 ++ B :: L2) A) p c <-> live A p c) as HV.
  { intros p c. apply live_larges. intros C q HC. rewrite <- (T4 C q HC), elem_of_mid.
    split; [intros [->|?]; [congruence|done]|by right]. }
  constructor; [done|done|done|]. intros p c x Hv Hx. apply T5.
  apply (live_outside _ _ p c x T2); [by apply HV|done].
Qed.

(** ** Small blocks *)

(** A block that fits becomes live. *)
Lemma insert_allocated A h a k :
  Rep A h -> fits A (arena_ptr h) a k ->
  allocated A h (with_smalls (<[a := (k, true)]> (smalls A)) A)
    (set_mem (write64 (hmem h) a (Z.of_nat k)) h) (a + SMALL_HEADER_SIZE) (class_size k).
Proof.
  intros H F. pose proof (fits_fresh A h a k H F) as Hn. pose proof (ft_bucket _ _ _ _ F) as Hk.
  pose proof (total_bounds k Hk). unfold NUM_BUCKETS in Hk. constructor.
  - pose proof (Rep_write A h a k (Z.of_nat k) H F) as HW. apply (Rep_insert A _ a k true HW F); [|done|done].
    intros _. apply read64_write64. lia.
  - done.
  - intros p d. unfold live. simpl. split.
    + intros [(a' & k' & E & -> & ->)|?]; [|by left; right]. destruct (decide (a = a')) as [<-|Ne].
      * rewrite lookup_insert_eq in E. injection E as <-. by right.
      * rewrite lookup_insert_ne in E by done. left. left. eauto.
    + intros [[(a' & k' & E & -> & ->)|?]|[-> ->]]; [|by right|].
      * left. exists a', k'. rewrite lookup_insert_ne; [done|congruence].
      * left. exists a, k. by rewrite lookup_insert_eq.
  - intros d Hd. destruct (live_block A h _ d H Hd) as [(a' & k' & E & Ep & _)|(B & HB & Ho & Ep & Ep' & Ec)].
    + assert (a' = a) as -> by lia. congruence.
    + destruct (Rep_home_apart A h a k B H (ft_home _ _ _ _ F) HB) as [_ HA].
      unfold LARGE_BLOCK_SIZE, SMALL_HEADER_SIZE in *. destruct HA; [congruence|lia|lia].
  - intros p c x Hv Hx. apply write64_other. pose proof (live_fits A h p c a k x H F Hv Hx). lia.
Qed.

(** A block that fits goes to the free list of its bucket. *)
Lemma push_same A h a k :
  Rep A h -> fits A (arena_ptr h) a k -> 0 <= head h k < 2 ^ 64 ->
  same A h (with_smalls (<[a := (k, false)]> (smalls A)) A) (push k a h).
Proof.
  intros H F Hh. pose proof (fits_fresh A h a k H F) as Hn. pose proof (ft_bucket _ _ _ _ F) as Hk.
  pose proof (total_bounds k Hk). constructor.
  - pose proof (Rep_write A h a k (head h k) H F) as HW.
    apply (Rep_insert A _ a k false HW F); [done|done|]. intros _. by apply read64_write64.
  - done.
  - intros p c. apply live_smalls. intros a' k'. destruct (decide (a = a')) as [<-|Ne].
    + rewrite lookup_insert_eq. split; [congruence|]. intros E. congruence.
    + by rewrite lookup_insert_ne.
  - intros p c x Hv Hx. apply write64_other. pose proof (live_fits A h p c a k x H F Hv Hx). lia.
Qed.

(** The heads of the free lists are addresses. *)
Lemma head_range A h k : Rep A h -> (k < NUM_BUCKETS)%nat -> 0 <= head h k < 2 ^ 64.
Proof.
  intros H Hk. destruct (decide (head h k = 0)) as [->|Hne]; [lia|].
  destruct (Rep_pop A h k H Hk Hne) as [E _]. destruct (rp_small _ _ H _ _ _ E) as (_ & _ & Hh).
  pose proof (total_bounds k Hk). destruct (rp_range _ _ H), (rp_arena _ _ H) as (? & ? & _).
  destruct Hh as [?|(B & HB & _ & ? & ?)]; [lia|].
  destruct (contig_in _ _ _ _ (rp_contig _ _ H) HB) as (? & _ & _ & ?). unfold LARGE_BLOCK_SIZE in *. lia.
Qed.

(** *** A slab is cut into blocks *)

Section slab.
Context (A : aheap) (h : heap) (B : lblk) (k : nat).
Context (H : Rep A h) (HB : B ∈ larges A) (Ho : b_own B = Slab) (Hk : (k < NUM_BUCKETS)%nat).
Context (Hsz : total k * slab_count <= b_size B).
Context (Hout : forall a' k' l', smalls A !! a' = Some (k', l') -> a' + total k' <= b_addr B \/ b_end B <= a').

Definition slot (j : Z) : Z := b_addr B + LARGE_BLOCK_SIZE + j * total k.

(** The first [n] blocks after the one that is handed out are on the list. *)
Definition cut (n : Z) (A' : aheap) : Prop :=
  larges A' = larges A /\
  forall a' k' l', smalls A' !! a' = Some (k', l') ->
    smalls A !! a' = Some (k', l') \/ (exists j, 1 <= j <= n /\ a' = slot j /\ k' = k).

Lemma slot_fits n A' top j :
  cut n A' -> 0 <= j < slab_count -> (j = 0 \/ n < j) -> fits A' top (slot j) k.
Proof using All.
  intros [EL ES] Hj Hn. pose proof (total_bounds k Hk) as [Ht Ht8].
  destruct (rp_arena _ _ H) as (_ & _ & Ha8). unfold slab_count in *.
  pose proof (contig_align _ _ _ _ (rp_contig _ _ H) Ha8 HB) as HB8.
  destruct (contig_in _ _ _ _ (rp_contig _ _ H) HB) as (_ & _ & _ & HB3).
  constructor; [done| | |].
  - unfold slot, LARGE_BLOCK_SIZE. rewrite Z.add_mod, Z.mul_mod, Ht8 by lia.
    rewrite Z.mul_0_r, (Z.add_mod (b_addr B)), HB8 by lia. done.
  - right. exists B. rewrite EL. split_and!; [done|done|unfold slot; nia|].
    unfold slot, b_end, LARGE_BLOCK_SIZE in *. nia.
  - intros a' k' l' E. destruct (ES _ _ _ E) as [E'|(i & Hi & -> & ->)].
    + pose proof (Hout _ _ _ E'). unfold slot, b_end, LARGE_BLOCK_SIZE in *. nia.
    + unfold slot, LARGE_BLOCK_SIZE. nia.
Qed.

Lemma slab_cut (n : nat) :
  Z.of_nat n < slab_count ->
  exists A', same A h A' (foldl (fun h i => push k (b_addr B + LARGE_BLOCK_SIZE + i * total k) h) h (seqZ 1 (Z.of_nat n))) /\
             cut (Z.of_nat n) A'.
Proof using All.
  induction n as [|n IH]; intros Hn.
  - exists A. split; [by constructor|]. split; [done|auto].
  - destruct IH as (A' & S' & C'); [lia|]. rewrite seqZ_S, foldl_app. cbn [foldl].
    set (h' := foldl _ _ _) in *. pose proof (sm_rep _ _ _ _ S') as H'.
    pose proof (slot_fits _ A' (arena_ptr h') (1 + Z.of_nat n) C' ltac:(lia) ltac:(lia)) as F.
    exists (with_smalls (<[slot (1 + Z.of_nat n) := (k, false)]> (smalls A')) A'). split.
    + apply (same_trans _ _ _ _ _ _ S'). apply push_same; [done|exact F|by apply (head_range A')].
    + destruct C' as [C1 C2]. split; [done|]. intros a' k' l' E. simpl in E.
      destruct (decide (slot (1 + Z.of_nat n) = a')) as [<-|Ne].
      * rewrite lookup_insert_eq in E. injection E as <- <-. right. exists (1 + Z.of_nat n). split_and!; [lia|lia|done|done].
      * rewrite lookup_insert_ne in E by done. destruct (C2 _ _ _ E) as [?|(j & Hj & -> & ->)]; [by left|].
        right. exists j. split_and!; [lia|lia|done|done].
Qed.

End slab.

Lemma align_up8 x : align_up x 8 = (x + 7) / 8 * 8.
Proof. unfold align_up. rewrite <- align8. f_equal. lia. Qed.

(** Every way of [alloc_small] ends with a block of the bucket, or with
    nothing. *)
Lemma alloc_small_spec A h k :
  Rep A h -> (k < NUM_BUCKETS)%nat ->
  (alloc_small k h = (h, Ok 0) /\ head h k = 0 /\ arena_end h < (arena_ptr h + 7) / 8 * 8 + total k /\
   full A (total k * slab_count)) \/
  (exists A' h' a, alloc_small k h = (h', Ok (a + SMALL_HEADER_SIZE)) /\ a mod 8 = 0 /\
                   allocated A h A' h' (a + SMALL_HEADER_SIZE) (class_size k)).
Proof.
  intros H Hk. unfold alloc_small. fold (head h k). pose proof (total_bounds k Hk) as [Ht Ht8].
  destruct (Z.eqb_spec (head h k) 0) as [E0|E0]; cbn [negb].
  2: { right. destruct (Rep_pop A h k H Hk E0) as [Ea HP]. pose proof (fits_delete A h _ k _ H Ea) as F.
       destruct (rp_small _ _ H _ _ _ Ea) as (_ & Ha8 & _).
       do 3 eexists. split; [reflexivity|]. split; [exact Ha8|]. eapply same_allocated; [|by apply insert_allocated].
       constructor; [exact HP|done| |done]. intros p c. apply live_smalls. intros a' k'. simpl.
       rewrite lookup_delete_Some. split; [tauto|]. intros E. split; [congruence|done]. }
  rewrite align_up8. set (al := (arena_ptr h + 7) / 8 * 8).
  assert (arena_ptr h <= al /\ al mod 8 = 0) as [Hal Hal8] by (unfold al; split; [dlia|by apply Z.mod_mul]).
  destruct (rp_arena _ _ H) as (Har & Har' & Har8).
  destruct (Z.leb_spec (al + total k) (arena_end h)) as [Hle|Hle].
  - right. pose proof (Rep_arena A h (al + total k) H ltac:(lia)) as HR.
    do 3 eexists. split; [reflexivity|]. split; [exact Hal8|].
    eapply (same_allocated _ _ A); [constructor; [exact HR|done|done|done]|]. apply insert_allocated; [done|].
    constructor; [done|done|left; simpl; lia|]. intros a' k' l' E. destruct (rp_small _ _ H _ _ _ E) as (Hk' & _ & [?|Hh]); [lia|].
    destruct Hh as (B & HB & _ & ? & _). destruct (contig_in _ _ _ _ (rp_contig _ _ H) HB) as (? & _).
    unfold LARGE_BLOCK_SIZE in *. lia.
  - destruct (alloc_large_raw_spec A h (total k * slab_count) H) as [[-> Hno]|(L1 & B & L2 & m' & -> & Hsz & T)];
      [unfold slab_count; lia|by left|].
    pose proof (taken_same _ _ _ _ _ _ T) as S1. pose proof (sm_rep _ _ _ _ S1) as H1. destruct T as [T1 _ T3 _ _].
    assert (B ∈ L1 ++ B :: L2) as HB by (apply elem_of_mid; by left).
    destruct (contig_in _ _ _ _ (rp_contig _ _ H1) HB) as (HB1 & _). simpl in HB1.
    destruct (rp_range _ _ H). destruct (Z.eqb_spec (b_addr B + LARGE_BLOCK_SIZE) 0); [unfold LARGE_BLOCK_SIZE in *; lia|].
    right. cbv zeta. change (slab_count - 1) with (Z.of_nat 31).
    destruct (slab_cut _ _ B k H1 HB T1 Hk Hsz T3 31) as (A' & S' & C'); [done|].
    set (h' := foldl _ _ _) in *. pose proof (sm_rep _ _ _ _ S') as H'.
    pose proof (slot_fits _ _ B k H1 HB T1 Hk Hsz T3 _ A' (arena_ptr h') 0 C' ltac:(done) ltac:(by left)) as F.
    unfold slot in F. rewrite Z.mul_0_l, Z.add_0_r in F.
    do 3 eexists. split; [reflexivity|]. split; [apply F|].
    apply (same_allocated _ _ _ _ _ _ _ _ (same_trans _ _ _ _ _ _ S1 S')). by apply insert_allocated.
Qed.

(** ** Large allocations *)

(** The slab [B], with no small block in it, becomes the allocation at [p];
    only the bytes between its header and [p] were written. *)
Lemma Rep_make_live A h L1 B L2 p m' :
  Rep A h -> larges A = L1 ++ B :: L2 -> b_own B = Slab ->
  (forall a k l, smalls A !! a = Some (k, l) -> a + total k <= b_addr B \/ b_end B <= a) ->
  b_addr B + LARGE_BLOCK_SIZE + 16 <= p <= b_end B -> read64 m' (p - 8) = b_addr B ->
  (forall x, ~ b_addr B + LARGE_BLOCK_SIZE <= x < p -> m' x = hmem h x) ->
  Rep (with_larges (L1 ++ set_own (Live p) B :: L2) A) (set_mem m' h).
Proof.
  intros H E Ho Hout Hp Hr Hm. assert (B ∈ larges A) as HB by (rewrite E; apply elem_of_mid; by left).
  pose proof (rp_contig _ _ H) as Hc.
  assert (Rep A (set_mem m' h)) as [? ? ? ? R5 ? ? R8 ? ? R11 ?].
  { apply Rep_mem; [| | |done].
    - intros C b HC Hb. apply Hm. unfold b_end, LARGE_BLOCK_SIZE in *.
      destruct (contig_in _ _ _ _ Hc HC) as (_ & ? & _).
      destruct (contig_two _ _ _ _ _ Hc HB HC) as [<-|[D|D]]; unfold b_end, LARGE_BLOCK_SIZE in *; lia.
    - intros a k l Ea. apply read64_ext. intros b Hb. apply Hm. pose proof (Hout _ _ _ Ea).
      destruct (rp_small _ _ H _ _ _ Ea) as (Hk & _). pose proof (total_bounds k Hk). unfold LARGE_BLOCK_SIZE in *. lia.
    - intros C q HC HoC. apply read64_ext. intros b Hb. apply Hm. destruct (rp_large _ _ H C q HC HoC) as [Hq _].
      destruct (contig_two _ _ _ _ _ Hc HB HC) as [<-|[D|D]]; [congruence|..]; unfold b_end, LARGE_BLOCK_SIZE in *; lia. }
  rewrite E in *. constructor; simpl; try done.
  - by apply contig_set_own.
  - by rewrite first_set_own.
  - apply links_app in R5 as [G1 [[G2 G3 G4 G5] G6]]. apply links_app. split; [exact G1|]. split; [|exact G6].
    constructor; [done|done|done|]. simpl in *. by rewrite G5, Ho.
  - intros a k l Ea. destruct (R8 _ _ _ Ea) as (Hk & Ha8 & Hh). split_and!; [done|done|].
    destruct Hh as [Hh|(C & HC & HoC & Hh)]; [by left|]. right. exists C. split_and!; try done; try apply Hh.
    apply elem_of_mid. right. rewrite E in HC. apply elem_of_mid in HC as [->|?]; [|done].
    pose proof (Hout _ _ _ Ea). pose proof (total_bounds k Hk). unfold LARGE_BLOCK_SIZE in *. lia.
  - intros C q. rewrite elem_of_mid. intros [->|HC] HoC.
    + simpl in *. injection HoC as <-. by split.
    + apply R11; [|done]. apply elem_of_mid. by right.
Qed.

Lemma make_live_allocated A h L1 B L2 p m' :
  Rep A h -> larges A = L1 ++ B :: L2 -> b_own B = Slab ->
  (forall a k l, smalls A !! a = Some (k, l) -> a + total k <= b_addr B \/ b_end B <= a) ->
  b_addr B + LARGE_BLOCK_SIZE + 16 <= p <= b_end B -> read64 m' (p - 8) = b_addr B ->
  (forall x, ~ b_addr B + LARGE_BLOCK_SIZE <= x < p -> m' x = hmem h x) ->
  allocated A h (with_larges (L1 ++ set_own (Live p) B :: L2) A) (set_mem m' h) p (b_end B - p).
Proof.
  intros H E Ho Hout Hp Hr Hm. assert (B ∈ larges A) as HB by (rewrite E; apply elem_of_mid; by left).
  pose proof (rp_contig _ _ H) as Hc.
  assert (forall q c, live A q c -> q <> p /\ (q + c <= b_addr B \/ b_end B <= q)) as Hother.
  { intros q c Hq. destruct (live_block A h q c H Hq) as [(a & k & Ea & Ep & Ec)|(C & HC & HoC & Ep & Ep' & Ec)].
    - pose proof (Hout _ _ _ Ea). unfold SMALL_HEADER_SIZE, LARGE_BLOCK_SIZE in *.
      destruct (rp_small _ _ H _ _ _ Ea) as (Hk & _). pose proof (total_bounds k Hk). lia.
    - destruct (contig_two _ _ _ _ _ Hc HB HC) as [<-|[D|D]]; [congruence|..]; unfold b_end, LARGE_BLOCK_SIZE in *; lia. }
  constructor.
  - by apply Rep_make_live.
  - done.
  - intros q d. unfold live. simpl. rewrite E. setoid_rewrite elem_of_mid. split.
    + intros [?|(C & [->|HC] & HoC & ->)]; [by left; left| |].
      * simpl in HoC. injection HoC as <-. by right.
      * left. right. exists C. by split_and!; [right|..].
    + intros [[?|(C & [->|HC] & HoC & ->)]|[-> ->]]; [by left|congruence| |].
      * right. exists C. by split_and!; [right|..].
      * right. exists (set_own (Live p) B). by split_and!; [left|..].
  - intros d Hd. by destruct (Hother _ _ Hd).
  - intros q c x Hq Hx. apply Hm. destruct (Hother _ _ Hq) as [_ HA].
    destruct (live_range A h q c H Hq). unfold LARGE_BLOCK_SIZE in *. lia.
Qed.

(** [alloc_over] rounds up to the alignment inside a block that is large
    enough for it. *)
Lemma alloc_over_spec A h size align :
  Rep A h -> 0 <= size -> 0 < align ->
  (alloc_over size align h = (h, Ok 0) /\ full A (size + (align + 16))) \/
  (exists A' h' r c, alloc_over size align h = (h', Ok r) /\ r mod align = 0 /\ size <= c /\ 
                     allocated A h A' h' r c).
Proof.
  intros H Hs Ha. unfold alloc_over.
  destruct (alloc_large_raw_spec A h (size + (align + 16)) H) as [[-> Hno]|(L1 & B & L2 & m' & -> & Hsz & T)];
    [lia|by left|].
  pose proof (taken_same _ _ _ _ _ _ T) as S1. pose proof (sm_rep _ _ _ _ S1) as H1. destruct T as [T1 _ T3 _ _].
  assert (B ∈ L1 ++ B :: L2) as HB by (apply elem_of_mid; by left).
  destruct (contig_in _ _ _ _ (rp_contig _ _ H1) HB) as (HB1 & _ & _ & HB4). simpl in HB1, HB4.
  destruct (rp_range _ _ H), (rp_arena _ _ H) as (? & ? & _).
  destruct (Z.eqb_spec (b_addr B + LARGE_BLOCK_SIZE) 0); [unfold LARGE_BLOCK_SIZE in *; lia|].
  right. cbv zeta. set (cand := b_addr B + LARGE_BLOCK_SIZE + 16).
  set (pad := if cand mod align =? 0 then 0 else align - cand mod align).
  assert (0 <= pad < align /\ (cand + pad) mod align = 0) as [Hp Hp'].
  { unfold pad. pose proof (Z.mod_pos_bound cand align Ha). destruct (Z.eqb_spec (cand mod align) 0) as [E|E].
    - rewrite Z.add_0_r. lia.
    - split; [lia|]. replace (cand + (align - cand mod align)) with (align * (cand / align + 1)).
      + rewrite Z.mul_comm. by apply Z.mod_mul; lia.
      + pose proof (Z.div_mod cand align). lia. }
  replace (b_addr B + LARGE_BLOCK_SIZE - LARGE_BLOCK_SIZE) with (b_addr B) by lia.
  do 3 eexists. exists (b_end B - (cand + pad)). split; [reflexivity|]. split; [done|].
  unfold b_end, cand, LARGE_BLOCK_SIZE in *. split; [lia|].
  apply (same_allocated _ _ _ _ _ _ _ _ S1). apply (make_live_allocated _ _ L1 B L2); try done.
  - unfold b_end, LARGE_BLOCK_SIZE. lia.
  - replace (b_addr B + 32 + 16 + pad - 8) with (b_addr B + 32 + 16 + pad - 16 + 8) by lia. apply read64_write64. lia.
  - intros x Hx. unfold LARGE_BLOCK_SIZE in Hx. rewrite !write64_other by lia. done.
Qed.

(** ** Freeing *)

(** The allocation at [p] is gone; the others are as before. *)
Record released (A : aheap) (h : heap) (A' : aheap) (h' : heap) (p : Z) : Prop := {
  rl_rep : Rep A' h';
  rl_range : lo A' = lo A /\ hi A' = hi A;
  rl_live : forall q d, live A' q d <-> live A q d /\ q <> p;
  rl_keeps : keeps A' h h';
}.

Lemma released_same A h A1 h1 A2 h2 p : released A h A1 h1 p -> same A1 h1 A2 h2 -> released A h A2 h2 p.
Proof.
  intros [R1 [L1 H1] V1 K1] [R2 [L2 H2] V2 K2]. constructor; [done|split; congruence| |].
  - intros q d. by rewrite V2, V1.
  - intros q d x Hv Hx. apply V2 in Hv. rewrite (K2 q d x) by done. by apply (K1 q d).
Qed.

Lemma small_large_ne A h a k l B q :
  Rep A h -> smalls A !! a = Some (k, l) -> B ∈ larges A -> b_own B = Live q -> q <> a + SMALL_HEADER_SIZE.
Proof.
  intros H E HB Ho. destruct (rp_small _ _ H _ _ _ E) as (Hk & _ & Hh). pose proof (total_bounds k Hk).
  destruct (Rep_home_apart A h a k B H Hh HB) as [_ HA]. destruct (rp_large _ _ H B q HB Ho) as [Hq _].
  unfold LARGE_BLOCK_SIZE, SMALL_HEADER_SIZE in *. destruct HA; [congruence|lia|lia].
Qed.

Lemma free_small_spec A h a k :
  Rep A h -> smalls A !! a = Some (k, true) ->
  exists A', released A h A' (free_small (a + SMALL_HEADER_SIZE) h) (a + SMALL_HEADER_SIZE).
Proof.
  intros H E. unfold free_small. replace (a + SMALL_HEADER_SIZE - SMALL_HEADER_SIZE) with a by lia.
  rewrite (rp_live _ _ H _ _ E), Nat2Z.id. destruct (rp_small _ _ H _ _ _ E) as (Hk & _).
  pose proof (Rep_delete A h a k H E) as HD. pose proof (fits_delete A h a k true H E) as F.
  pose proof (push_same _ h a k HD F (head_range A h k H Hk)) as HS. eexists.
  eapply released_same; [|exact HS]. constructor; [done|done| |done].
  intros q d. unfold live. simpl. split.
  - intros [(a' & k' & E' & -> & ->)|(B & HB & Ho & ->)].
    + apply lookup_delete_Some in E' as [Ne E']. split; [left; eauto|lia].
    + split; [right; eauto|]. by apply (small_large_ne A h a k true B q H E).
  - intros [[(a' & k' & E' & -> & ->)|?] Hne]; [|by right]. left. exists a', k'.
    split; [|done]. apply lookup_delete_Some. split; [|done]. intros <-. done.
Qed.

(** *** Merging neighbours *)

Lemma merge_same A h L1 B N L2 :
  Rep A h -> larges A = L1 ++ B :: N :: L2 -> b_own B = Free -> b_own N = Free ->
  same A h (with_larges (L1 ++ joined B N :: L2) A) (set_mem (merge_next (hmem h) (b_addr B) (b_addr N)) h).
Proof.
  intros H E HB HN. destruct (Rep_merge A h L1 B N L2 H E HB HN) as (R & _ & G).
  assert (forall p c, live (with_larges (L1 ++ joined B N :: L2) A) p c <-> live A p c) as HV.
  { intros p c. apply live_larges. intros C q HC. rewrite E, !elem_of_mid. split; [|].
    - intros [->|?]; [simpl in HC; congruence|tauto].
    - intros [->|[->|?]]; [congruence|congruence|tauto]. }
  constructor; [done|done|done|]. intros p c x Hv Hx. apply G.
  apply (live_outside _ _ p c x R); [by apply HV|done].
Qed.

Lemma merge_next_same A h L1 B L2 :
  Rep A h -> larges A = L1 ++ B :: L2 -> b_own B = Free ->
  let next := lb_next (hmem h) (b_addr B) in
  let m := if negb (next =? 0) && lb_free (hmem h) next then merge_next (hmem h) (b_addr B) next else hmem h in
  exists B' L2', b_own B' = Free /\ b_addr B' = b_addr B /\
                 same A h (with_larges (L1 ++ B' :: L2') A) (set_mem m h).
Proof.
  intros H E Ho. assert (same A h (with_larges (L1 ++ B :: L2) A) (set_mem (hmem h) h)) as Hid.
  { rewrite <- E. by destruct A, h. }
  pose proof (rp_links _ _ H) as Hl. rewrite E in Hl. apply links_app in Hl as [_ [[_ -> _ _] Hl]]. cbv zeta.
  destruct L2 as [|N L2]; simpl; [by exists B, []|]. destruct Hl as [[_ _ _ ->] _].
  destruct (negb (b_addr N =? 0) && is_free (b_own N)) eqn:En; [|by exists B, (N :: L2)].
  apply andb_true_iff in En as [_ En]. exists (joined B N), L2. split_and!; [done|done|].
  apply merge_same; [done|done|done|]. by destruct (b_own N).
Qed.

Lemma merge_prev_same A h L1 B L2 :
  Rep A h -> larges A = L1 ++ B :: L2 -> b_own B = Free ->
  let prev := lb_prev (hmem h) (b_addr B) in
  let m := if negb (prev =? 0) && lb_free (hmem h) prev then merge_prev (hmem h) prev (b_addr B) else hmem h in
  exists L', same A h (with_larges L' A) (set_mem m h).
Proof.
  intros H E Ho. assert (same A h (with_larges (L1 ++ B :: L2) A) (set_mem (hmem h) h)) as Hid.
  { rewrite <- E. by destruct A, h. }
  pose proof (rp_links _ _ H) as Hl. rewrite E in Hl. apply links_app in Hl as [Hl [[_ _ -> _] _]]. cbv zeta.
  destruct L1 as [|P L1 _] using rev_ind; [by eexists|]. unfold last_of. rewrite foldl_app. simpl.
  apply links_app in Hl as [_ [[_ _ _ ->] _]].
  destruct (negb (b_addr P =? 0) && is_free (b_own P)) eqn:Ep; [|by eexists].
  apply andb_true_iff in Ep as [_ Ep]. assert (b_own P = Free) as HP by (by destruct (b_own P)).
  rewrite <- app_assoc in E. simpl in E. destruct (Rep_merge A h L1 P B L2 H E HP Ho) as (_ & -> & _).
  eexists. by apply merge_same.
Qed.

Lemma set_own_released A h L1 B L2 p :
  Rep A h -> larges A = L1 ++ B :: L2 -> b_own B = Live p ->
  released A h (with_larges (L1 ++ set_own Free B :: L2) A) (set_mem (set_free (hmem h) (b_addr B) true) h) p.
Proof.
  intros H E Ho. assert (B ∈ larges A) as HB by (rewrite E; apply elem_of_mid; by left).
  pose proof (rp_contig _ _ H) as Hc.
  assert (Rep (with_larges (L1 ++ set_own Free B :: L2) A) (set_mem (set_free (hmem h) (b_addr B) true) h)) as HR.
  { apply (Rep_set_own _ _ L1 B L2 Free H); [done|done|].
    apply (home_slabs A h L1 B L2); [done|done|congruence|]. intros C HC. apply elem_of_mid. by right. }
  constructor; [done|done| |].
  - intros q d. unfold live. simpl. rewrite E. setoid_rewrite elem_of_mid. split.
    + intros [(a & k & Ea & -> & ->)|(C & [->|HC] & HoC & ->)]; [|done|].
      * split; [left; eauto|]. intros Eq. by apply (small_large_ne A h a k true B p H Ea).
      * split; [right; exists C; tauto|]. intros ->. rewrite E in Hc.
        destruct (contig_mid _ _ _ _ _ _ Hc HC) as [D|D];
          destruct (rp_large _ _ H B p HB Ho) as [? _]; destruct (rp_large _ _ H C p) as [? _]; try done;
          try (rewrite E; apply elem_of_mid; by right); unfold b_end, LARGE_BLOCK_SIZE in *; lia.
    + intros [[?|(C & [->|HC] & HoC & ->)] Hne]; [by left|congruence|]. right. exists C. tauto.
  - intros q d x Hv Hx. apply store_other. unfold zlen. simpl. intros Hr.
    apply (live_outside _ _ q d x HR Hv Hx (set_own Free B)); [apply elem_of_mid; by left|].
    simpl. unfold LARGE_BLOCK_SIZE. lia.
Qed.

Lemma free_large_raw_spec A h B p :
  Rep A h -> B ∈ larges A -> b_own B = Live p ->
  exists A', released A h A' (free_large_raw (b_addr B + LARGE_BLOCK_SIZE) h) p.
Proof.
  intros H HB Ho. destruct (contig_in _ _ _ _ (rp_contig _ _ H) HB) as (HB1 & _).
  destruct (rp_range _ _ H), (rp_arena _ _ H) as (? & _).
  apply list_elem_of_split in HB as (L1 & L2 & E). pose proof (rp_links _ _ H) as Hl.
  rewrite E in Hl. apply links_app in Hl as [_ [[_ _ _ Hf] _]]. unfold free_large_raw.
  destruct (Z.eqb_spec (b_addr B + LARGE_BLOCK_SIZE) 0); [unfold LARGE_BLOCK_SIZE in *; lia|].
  replace (b_addr B + LARGE_BLOCK_SIZE - LARGE_BLOCK_SIZE) with (b_addr B) by lia.
  rewrite Hf, Ho. cbn [is_free]. cbv zeta.
  pose proof (set_own_released A h L1 B L2 p H E Ho) as S1. pose proof (rl_rep _ _ _ _ _ S1) as R1.
  destruct (merge_next_same _ _ L1 (set_own Free B) L2 R1) as (B' & L2' & Hb1 & Hb2 & S2); [done|done|].
  cbv zeta in S2. change (hmem (set_mem ?m h)) with m in S2. change (b_addr (set_own Free B)) with (b_addr B) in S2, Hb2.
  set (m2 := if _ && _ then _ else _) in *. clearbody m2. pose proof (sm_rep _ _ _ _ S2) as R2.
  destruct (merge_prev_same _ _ L1 B' L2' R2) as (L' & S3); [done|done|].
  cbv zeta in S3. rewrite Hb2 in S3. change (hmem (set_mem m2 ?x)) with m2 in S3.
  eexists. apply (released_same _ _ _ _ _ _ _ (released_same _ _ _ _ _ _ _ S1 S2) S3).
Qed.

(** ** The public operations *)

Lemma bucket_from_spec size sizes : forall i k,
  bucket_from i sizes size = Some k -> exists j c, k = (i + j)%nat /\ sizes !! j = Some c /\ size <= c.
Proof.
  induction sizes as [|c sizes IH]; intros i k E; [done|]. simpl in E.
  destruct (Z.leb_spec size c); [injection E as <-; exists 0%nat, c; split_and!; [lia|done|done]|].
  destruct (IH _ _ E) as (j & d & -> & ? & ?). exists (S j), d. split_and!; [lia|done|done].
Qed.

Lemma bucket_for_spec size k : bucket_for size = Some k -> (k < NUM_BUCKETS)%nat /\ size <= class_size k.
Proof.
  intros E. destruct (bucket_from_spec size _ 0 k E) as (j & c & -> & Ej & Hc). simpl.
  split; [apply lookup_lt_Some in Ej; exact Ej|]. unfold class_size. by erewrite nth_lookup_Some by exact Ej.
Qed.

(** Nothing left for [size] bytes: the free list of the bucket is empty, the
    arena is used up and no free block holds a slab; or no free block holds the
    bytes and the padding. *)
Definition exhausted (A : aheap) (h : heap) (size align : Z) : Prop :=
  match (if align <=? SMALL_HEADER_SIZE then bucket_for size else None) with
  | Some k => head h k = 0 /\ arena_end h < (arena_ptr h + 7) / 8 * 8 + total k /\ full A (total k * slab_count)
  | None => full A (size + (align + 16))
  end.

Lemma alloc_aligned_spec A h size j :
  Rep A h -> 0 <= size -> 0 <= j ->
  (alloc_aligned size (2 ^ j) h = (h, Ok 0) /\ exhausted A h size (2 ^ j)) \/
  (exists A' h' r c, alloc_aligned size (2 ^ j) h = (h', Ok r) /\ r mod 2 ^ j = 0 /\ size <= c /\
                     allocated A h A' h' r c).
Proof.
  intros H Hs Hj. assert (0 < 2 ^ j) as Hp by lia. unfold alloc_aligned, exhausted.
  destruct (Z.leb_spec (2 ^ j) SMALL_HEADER_SIZE) as [H8|H8]; [|by apply alloc_over_spec].
  destruct (bucket_for size) as [k|] eqn:Ek; [|by apply alloc_over_spec].
  destruct (bucket_for_spec _ _ Ek) as [Hk Hc].
  destruct (alloc_small_spec A h k H Hk) as [[-> Hno]|(A' & h' & a & -> & Ha & HA)]; [by left|right].
  exists A', h', (a + SMALL_HEADER_SIZE), (class_size k). split_and!; [done| |done|done].
  change SMALL_HEADER_SIZE with (2 ^ 3) in *. assert (j <= 3) as H3 by (apply Z.pow_le_mono_r_iff with 2; lia).
  assert (2 ^ 3 = 2 ^ (3 - j) * 2 ^ j) as E8 by (rewrite <- Z.pow_add_r by lia; f_equal; lia).
  apply Z.mod_divide; [lia|]. apply Z.divide_add_r; [|exists (2 ^ (3 - j)); exact E8].
  apply Z.divide_trans with (2 ^ 3); [exists (2 ^ (3 - j)); exact E8|by apply Z.mod_divide].
Qed.

Lemma dealloc_aligned_spec A h p c :
  Rep A h -> live A p c -> exists A', released A h A' (dealloc_aligned p h) p.
Proof.
  intros H Hv. destruct (live_range A h p c H Hv) as (? & _). destruct (rp_range _ _ H), (rp_arena _ _ H) as (? & _).
  unfold dealloc_aligned. destruct (Z.eqb_spec p 0); [lia|].
  destruct Hv as [(a & k & E & -> & ->)|(B & HB & Ho & ->)].
  - change 8 with SMALL_HEADER_SIZE. replace (a + SMALL_HEADER_SIZE - SMALL_HEADER_SIZE) with a by lia.
    rewrite (rp_live _ _ H _ _ E). destruct (rp_small _ _ H _ _ _ E) as (Hk & _).
    rewrite (proj2 (Z.ltb_lt _ _)) by lia. by apply (free_small_spec A h a k).
  - destruct (rp_large _ _ H B p HB Ho) as [_ ->].
    destruct (contig_in _ _ _ _ (rp_contig _ _ H) HB) as (? & _). unfold NUM_BUCKETS.
    rewrite (proj2 (Z.ltb_ge _ _)) by lia. by apply free_large_raw_spec.
Qed.

(** [capacity_of] is the room of the allocation. *)
Lemma capacity_of_spec A h p c : Rep A h -> live A p c -> capacity_of p h = c.
Proof.
  intros H Hv. destruct (rp_range _ _ H), (rp_arena _ _ H) as (? & _). unfold capacity_of.
  destruct Hv as [(a & k & E & -> & ->)|(B & HB & Ho & ->)].
  - change 8 with SMALL_HEADER_SIZE. replace (a + SMALL_HEADER_SIZE - SMALL_HEADER_SIZE) with a by lia.
    rewrite (rp_live _ _ H _ _ E). destruct (rp_small _ _ H _ _ _ E) as (Hk & _).
    rewrite (proj2 (Z.ltb_lt _ _)) by lia. by rewrite Nat2Z.id.
  - destruct (rp_large _ _ H B p HB Ho) as [_ ->].
    destruct (contig_in _ _ _ _ (rp_contig _ _ H) HB) as (? & _). unfold NUM_BUCKETS.
    rewrite (proj2 (Z.ltb_ge _ _)) by lia. pose proof (rp_links _ _ H) as Hl.
    apply list_elem_of_split in HB as (L1 & L2 & E). rewrite E in Hl. apply links_app in Hl as [_ [[-> _ _ _] _]].
    unfold b_end. lia.
Qed.

End HeapOps.
