(* ===== verification/HeapTheorems.v ===== *)
(** The kernel heap refines a table of independent buffers: whatever sequence
    of calls the kernel makes, every allocation is a private piece of memory
    that holds what was last written to it. *)

From S2P Require Import Prelude Frame Heap HeapInv HeapLarge HeapOps.

Module HeapTheorems.
Import Heap HeapInv HeapLarge HeapOps.

(** ** Contents *)

Lemma load_length m p n : 0 <= n -> zlen (load m p n) = n.
Proof. intros Hn. unfold zlen, load. rewrite length_fmap, length_seqZ. lia. Qed.

Lemma load_ext m m' p n : (forall x, p <= x < p + n -> m' x = m x) -> load m' p n = load m p n.
Proof.
  intros Hm. unfold load. apply list_fmap_ext. intros i x Hx. apply lookup_seqZ in Hx as [-> Hi]. apply Hm. lia.
Qed.

Lemma load_store m p l : load (store m p l) p (zlen l) = l.
Proof. apply fmap_store. Qed.

Lemma load_app m p a b : 0 <= a -> 0 <= b -> load m p (a + b) = load m p a ++ load m (p + a) b.
Proof.
  intros Ha Hb. unfold load. rewrite seqZ_app, fmap_app by lia. f_equal.
  apply list_eq. intros i. rewrite !list_lookup_fmap. destruct (decide (Z.of_nat i < b)) as [Hi|Hi].
  - rewrite (proj2 (lookup_seqZ (0 + a) b i (0 + a + Z.of_nat i))), (proj2 (lookup_seqZ 0 b i (0 + Z.of_nat i))) by (split; lia).
    simpl. do 2 f_equal. lia.
  - rewrite !lookup_ge_None_2; [done|rewrite length_seqZ; lia|rewrite length_seqZ; lia].
Qed.

Lemma load_take m p n k : 0 <= k <= n -> take (Z.to_nat k) (load m p n) = load m p k.
Proof.
  intros Hk. unfold load. rewrite <- fmap_take. f_equal.
  replace n with (k + (n - k)) by lia. rewrite seqZ_app by lia.
  rewrite take_app_length'; [done|]. by rewrite length_seqZ.
Qed.

Lemma load_drop m p n k : 0 <= k <= n -> drop (Z.to_nat k) (load m p n) = load m (p + k) (n - k).
Proof.
  intros Hk. replace n with (k + (n - k)) at 1 by lia. rewrite load_app by lia.
  apply drop_app_length'. unfold load. by rewrite length_fmap, length_seqZ.
Qed.

(** ** The heap after [init] *)

(** The large blocks [init] makes. *)
Definition init_larges (start size : Z) : list lblk :=
  let arena_bytes := size / 4 * 3 in
  let lb_sz := size - arena_bytes in
  if LARGE_BLOCK_SIZE <? lb_sz then [mkB (start + arena_bytes) (lb_sz - LARGE_BLOCK_SIZE) Free] else [].

Definition init_heap (start size : Z) : aheap := mkA start (start + size) ∅ (init_larges start size).

Lemma init_Rep start size m :
  16 <= start -> start mod 8 = 0 -> 0 <= size -> size mod 32 = 0 -> start + size < 2 ^ 62 ->
  Rep (init_heap start size) (init start size (new m)).
Proof.
  intros Hs Hs8 Hz Hz32 Ht. set (q := size / 32). assert (size = 32 * q) as Eq by (unfold q; dlia).
  assert (size / 4 * 3 = 24 * q) as Ea by dlia.
  assert (forall k, (k < NUM_BUCKETS)%nat -> default 0 (replicate NUM_BUCKETS 0 !! k) = 0) as Hr.
  { intros k Hk. by rewrite lookup_replicate_2. }
  unfold init, init_heap, init_larges. rewrite Ea. unfold LARGE_BLOCK_SIZE.
  destruct (Z.ltb_spec 32 (size - 24 * q)) as [Hl|Hl]; cbv zeta; constructor; simpl; unfold LARGE_BLOCK_SIZE;
    try (by intros; set_solver); try done; try lia;
    try (intros k Hk; exists []; simpl; split_and!; [by apply Hr|apply NoDup_nil_2|set_solver]).
  all: try (split_and!; unfold b_end, LARGE_BLOCK_SIZE; simpl; dlia).
  split; [|done]. constructor; simpl; by hdr_read.
Qed.

(** ** Buffers *)

(** The calls of [GlobalAlloc] and the accesses of the kernel to what it has
    allocated; alignments are powers of two. *)
Inductive call : Type :=
| Alloc (size j : Z)
| Realloc (p size j : Z)
| Dealloc (p : Z)
| Write (p off : Z) (l : list Z)
| Load (p n : Z).

Definition exec (c : call) : M heap (Z * list Z) := fun h =>
  let ptr (r : heap * res Z) :=
    match r with (h, Ok p) => (h, Ok (p, [])) | (h, Err e) => (h, Err e) | (h, Panic) => (h, Panic) | (h, Hang) => (h, Hang) end in
  match c with
  | Alloc size j => ptr (alloc_aligned size (2 ^ j) h)
  | Realloc p size j => ptr (realloc p size (2 ^ j) h)
  | Dealloc p => (dealloc_aligned p h, Ok (0, []))
  | Write p off l => (set_mem (store (hmem h) (p + off) l) h, Ok (0, []))
  | Load p n => (h, Ok (0, load (hmem h) p n))
  end.

(** The buffers the kernel holds: their bytes, by address. *)
Abbreviation buffers := (gmap Z (list Z)).

(** The kernel uses only what it holds. *)
Definition permitted (c : call) (b : buffers) : Prop :=
  match c with
  | Alloc size j => 0 <= size /\ 0 <= j
  | Realloc p size j => (exists l, b !! p = Some l) /\ 0 <= size /\ 0 <= j
  | Dealloc p => exists l, b !! p = Some l
  | Write p off l => exists l', b !! p = Some l' /\ 0 <= off /\ off + zlen l <= zlen l'
  | Load p n => exists l, b !! p = Some l /\ 0 <= n <= zlen l
  end.

(** A new buffer of [size] bytes at [r]: aligned, in the heap, apart from the
    others. *)
Definition fresh (start total : Z) (b : buffers) (r size j : Z) : Prop :=
  r <> 0 /\ r mod 2 ^ j = 0 /\ start <= r /\ r + size <= start + total /\ b !! r = None /\
  forall p l, b !! p = Some l -> p + zlen l <= r \/ r + size <= p.

(** What a call may do. *)
Definition spec (start total : Z) (c : call) (b : buffers) (r : Z * list Z) (b' : buffers) : Prop :=
  match c with
  | Alloc size j => (r.1 = 0 /\ b' = b) \/
      (fresh start total b r.1 size j /\ exists l, zlen l = size /\ b' = <[r.1 := l]> b)
  | Realloc p size j => (r.1 = 0 /\ b' = b) \/
      (fresh start total b r.1 size j /\ exists old l, b !! p = Some old /\ zlen l = size /\
         (let n := Z.to_nat (Z.min size (zlen old)) in take n l = take n old) /\ b' = <[r.1 := l]> (delete p b))
  | Dealloc p => b' = delete p b
  | Write p off l => exists l', b !! p = Some l' /\ b' = <[p := splice off l l']> b
  | Load p n => b' = b /\ exists l, b !! p = Some l /\ r.2 = take (Z.to_nat n) l
  end.

(** The table after a call that returned [r] and left the heap [h']. *)
Definition after (c : call) (r : Z) (h' : heap) (b : buffers) : buffers :=
  match c with
  | Alloc size _ => if r =? 0 then b else <[r := load (hmem h') r size]> b
  | Realloc p size _ => if r =? 0 then b else <[r := load (hmem h') r size]> (delete p b)
  | Dealloc p => delete p b
  | Write p off l => match b !! p with Some l' => <[p := splice off l l']> b | None => b end
  | Load _ _ => b
  end.

(** Runs of the kernel from the moment the heap is set up. *)
Inductive run (start total : Z) (m : mem) : heap -> buffers -> Prop :=
| run_init : run start total m (init start total (new m)) ∅
| run_call h b c h' r : run start total m h b -> permitted c b -> exec c h = (h', Ok r) ->
    run start total m h' (after c r.1 h' b).

(** ** The simulation *)

Definition Sim (start total : Z) (h : heap) (b : buffers) : Prop :=
  exists A, Rep A h /\ lo A = start /\ hi A = start + total /\
    forall p l, b !! p = Some l -> exists c, live A p c /\ zlen l <= c /\ load (hmem h) p (zlen l) = l.

Lemma allocated_fresh A h A' h' r c size j b :
  Rep A h -> allocated A h A' h' r c -> 0 <= size <= c -> r mod 2 ^ j = 0 ->
  (forall p l, b !! p = Some l -> exists c, live A p c /\ zlen l <= c /\ load (hmem h) p (zlen l) = l) ->
  fresh (lo A) (hi A - lo A) b r size j.
Proof.
  intros H HA Hc Hj Hb. pose proof (al_rep _ _ _ _ _ _ HA) as H'. destruct (al_range _ _ _ _ _ _ HA) as [E1 E2].
  assert (live A' r c) as Hr by (apply (al_live _ _ _ _ _ _ HA); by right).
  destruct (live_range _ _ _ _ H' Hr) as (? & ? & _). destruct (rp_range _ _ H).
  split_and!; [lia|done|lia|lia| |].
  - destruct (b !! r) as [l|] eqn:E; [|done]. destruct (Hb _ _ E) as (d & Hd & _).
    by destruct (al_new _ _ _ _ _ _ HA d).
  - intros p l E. destruct (Hb _ _ E) as (d & Hd & Hl & _). pose proof (zlen_nonneg l).
    assert (live A' p d) as Hp by (apply (al_live _ _ _ _ _ _ HA); by left).
    destruct (live_apart A' h' p d r c H' Hp Hr); [|lia|lia]. intros ->. by apply (al_new _ _ _ _ _ _ HA d).
Qed.

(** A buffer of the table is still there and holds the same. *)
Lemma kept A h h' p c l :
  live A p c -> zlen l <= c -> load (hmem h) p (zlen l) = l -> keeps A h h' -> load (hmem h') p (zlen l) = l.
Proof. intros Hv Hc Hl Hk. rewrite <- Hl at 2. apply load_ext. intros x Hx. apply (Hk p c); [done|lia]. Qed.

Lemma sim_alloc start total h b size j :
  Sim start total h b -> 0 <= size -> 0 <= j ->
  exists h' r, alloc_aligned size (2 ^ j) h = (h', Ok r) /\
    spec start total (Alloc size j) b (r, []) (after (Alloc size j) r h' b) /\
    Sim start total h' (after (Alloc size j) r h' b).
Proof.
  intros (A & H & E1 & E2 & Hb) Hs Hj. simpl.
  destruct (alloc_aligned_spec A h size j H Hs Hj) as [[-> _]|(A' & h' & r & c & -> & Hr & Hc & HA)].
  - exists h, 0. split; [done|]. split; [by left|]. by exists A.
  - pose proof (allocated_fresh A h A' h' r c size j b H HA ltac:(lia) Hr Hb) as F.
    rewrite E1, E2 in F. replace (start + total - start) with total in F by lia.
    exists h', r. split; [done|]. destruct (Z.eqb_spec r 0) as [->|Hr0]; [by destruct F|]. split.
    + right. split; [done|]. eexists. split; [|done]. by apply load_length.
    + destruct HA as [R [L1 L2] V N K]. exists A'. split_and!; [done|congruence|congruence|].
      intros p l. destruct (decide (r = p)) as [<-|Ne].
      * rewrite lookup_insert_eq. intros [= <-]. exists c. rewrite load_length by done.
        split_and!; [apply V; by right|done|done].
      * rewrite lookup_insert_ne by done. intros E. destruct (Hb _ _ E) as (d & Hd & Hl & Hld).
        exists d. split_and!; [apply V; by left|done|by apply (kept A h h' p d)].
Qed.

Lemma sim_dealloc start total h b p l :
  Sim start total h b -> b !! p = Some l -> Sim start total (dealloc_aligned p h) (delete p b).
Proof.
  intros (A & H & E1 & E2 & Hb) E. destruct (Hb _ _ E) as (c & Hv & _).
  destruct (dealloc_aligned_spec A h p c H Hv) as (A' & [R [L1 L2] V K]).
  exists A'. split_and!; [done|congruence|congruence|]. intros q l' Eq.
  apply lookup_delete_Some in Eq as [Ne Eq]. destruct (Hb _ _ Eq) as (d & Hd & Hl & Hld).
  assert (live A' q d) as Hq by (apply V; auto). exists d. split_and!; [done|done|by apply (kept A' h _ q d)].
Qed.

Lemma load_splice m p n off l :
  0 <= off -> off + zlen l <= n -> load (store m (p + off) l) p n = splice off l (load m p n).
Proof.
  intros Ho Hn. pose proof (zlen_nonneg l). unfold splice.
  replace (Z.to_nat off + length l)%nat with (Z.to_nat (off + zlen l)) by (unfold zlen; lia).
  rewrite load_take, load_drop by lia.
  replace n with (off + (zlen l + (n - (off + zlen l)))) at 1 by lia. rewrite !load_app by lia. f_equal; [|f_equal].
  - apply load_ext. intros x Hx. apply store_other. lia.
  - apply load_store.
  - rewrite Z.add_assoc. apply load_ext. intros x Hx. apply store_other. lia.
Qed.

Lemma sim_write start total h b p l' off l :
  Sim start total h b -> b !! p = Some l' -> 0 <= off -> off + zlen l <= zlen l' ->
  Sim start total (set_mem (store (hmem h) (p + off) l) h) (<[p := splice off l l']> b).
Proof.
  intros (A & H & E1 & E2 & Hb) E Ho Hl. destruct (Hb _ _ E) as (c & Hv & Hc & Hld). exists A. split_and!; [|done|done|].
  - apply (Rep_payload A h p c); [done|done|]. intros x Hx. apply store_other. lia.
  - assert (zlen (splice off l l') = zlen l') as Es.
    { by apply zlen_splice. }
    intros q l2. destruct (decide (p = q)) as [<-|Ne].
    + rewrite lookup_insert_eq. intros [= <-]. exists c. rewrite Es. split_and!; [done|done|]. simpl.
      rewrite load_splice by done. by rewrite Hld.
    + rewrite lookup_insert_ne by done. intros Eq. destruct (Hb _ _ Eq) as (d & Hd & Hl2 & Hld2).
      exists d. split_and!; [done|done|]. rewrite <- Hld2 at 2. apply load_ext. intros x Hx. apply store_other.
      destruct (live_apart A h p c q d H Hv Hd Ne); lia.
Qed.

Lemma take_splice (l l' : list Z) n :
  0 <= n <= zlen l -> take (Z.to_nat n) (splice 0 l l') = take (Z.to_nat n) l.
Proof. unfold splice, zlen. intros Hn. simpl. apply take_app_le. lia. Qed.

(** The copy and the release of [realloc], after its allocation. *)
Lemma sim_copy start total h b p old r buf :
  Sim start total h b -> b !! p = Some old -> b !! r = Some buf -> r <> p ->
  let size := zlen buf in
  let n := Z.to_nat (Z.min size (zlen old)) in
  let copy_size := Z.min size (capacity_of p h) in
  let h' := dealloc_aligned p (set_mem (store (hmem h) r (load (hmem h) p copy_size)) h) in
  Sim start total h' (<[r := load (hmem h') r size]> (delete p b)) /\
  take n (load (hmem h') r size) = take n old.
Proof.
  intros HS Ep Er Hne size n copy_size h'. destruct (HS) as (A & H & E1 & E2 & Hb).
  destruct (Hb _ _ Ep) as (c & Hv & Hc & Hld). pose proof (zlen_nonneg old). pose proof (zlen_nonneg buf).
  assert (capacity_of p h = c) as Ec by (by apply (capacity_of_spec A)).
  set (l := load (hmem h) p copy_size) in *.
  assert (zlen l = copy_size) as El by (apply load_length; lia).
  assert (Z.min size (zlen old) <= copy_size <= size) as Hcs by lia.
  assert (zlen (splice 0 l buf) = size) as Es1 by (apply zlen_splice; lia).
  pose proof (sim_write _ _ _ _ r buf 0 l HS Er ltac:(lia) ltac:(lia)) as HS2. rewrite Z.add_0_r in HS2.
  pose proof (sim_dealloc _ _ _ _ p old HS2) as HS3. rewrite lookup_insert_ne in HS3 by done.
  specialize (HS3 Ep). fold h' in HS3. rewrite delete_insert_ne in HS3 by done.
  assert (load (hmem h') r size = splice 0 l buf) as Ef.
  { destruct HS3 as (A3 & _ & _ & _ & Hb3). destruct (Hb3 r (splice 0 l buf)) as (d & _ & _ & Hd); [by rewrite lookup_insert_eq|].
    by rewrite Es1 in Hd. }
  rewrite Ef. split; [done|]. unfold n. rewrite take_splice by lia. unfold l. rewrite load_take by lia.
  rewrite <- Hld at 3. by rewrite load_take by lia.
Qed.

Lemma sim_realloc start total h b p old size j :
  Sim start total h b -> b !! p = Some old -> 0 <= size -> 0 <= j ->
  exists h' r, realloc p size (2 ^ j) h = (h', Ok r) /\
    spec start total (Realloc p size j) b (r, []) (after (Realloc p size j) r h' b) /\
    Sim start total h' (after (Realloc p size j) r h' b).
Proof.
  intros HS E Hs Hj. destruct (sim_alloc _ _ _ _ size j HS Hs Hj) as (h1 & r & Er & Hsp & HS1).
  unfold realloc. rewrite Er. assert ((p =? 0) = false) as ->.
  { destruct HS as (A & H & _ & _ & Hb). destruct (Hb _ _ E) as (c & Hv & _).
    destruct (live_range A h p c H Hv) as (? & _). destruct (rp_range _ _ H). apply Z.eqb_neq. lia. }
  simpl in *. destruct (Z.eqb_spec r 0) as [->|Hr0]; [exists h1, 0; split_and!; [done|by left|done]|].
  destruct Hsp as [[? _]|[F _]]; [done|]. destruct (F) as (_ & _ & _ & _ & Hn & _).
  assert (r <> p) as Hne by congruence.
  destruct (sim_copy _ _ _ _ p old r (load (hmem h1) r size) HS1) as [HS2 Ht];
    [by rewrite lookup_insert_ne|by rewrite lookup_insert_eq|done|]. rewrite load_length in HS2, Ht by done.
  do 2 eexists. split; [reflexivity|]. rewrite (proj2 (Z.eqb_neq r 0) Hr0).
  rewrite delete_insert_ne, insert_insert_eq in HS2 by done. split; [|exact HS2].
  right. split; [done|]. exists old. eexists. split_and!; [done|by apply load_length|exact Ht|done].
Qed.

Lemma sim_call start total h b c :
  Sim start total h b -> permitted c b ->
  exists h' r, exec c h = (h', Ok r) /\ spec start total c b r (after c r.1 h' b) /\
               Sim start total h' (after c r.1 h' b).
Proof.
  intros HS HP. destruct c as [size j|p size j|p|p off l|p n]; simpl in HP.
  - destruct HP as [Hs Hj]. destruct (sim_alloc _ _ _ _ _ _ HS Hs Hj) as (h' & r & E & ?).
    exists h', (r, []). simpl exec. by rewrite E.
  - destruct HP as ([l Hl] & Hs & Hj). destruct (sim_realloc _ _ _ _ _ _ _ _ HS Hl Hs Hj) as (h' & r & E & ?).
    exists h', (r, []). simpl exec. by rewrite E.
  - destruct HP as [l Hl]. do 2 eexists. split; [reflexivity|]. split; [done|]. by apply (sim_dealloc _ _ _ _ _ l).
  - destruct HP as (l' & Hl & Ho & Hz). do 2 eexists. split; [reflexivity|]. simpl. rewrite Hl.
    split; [by eexists|]. by apply sim_write.
  - destruct HP as (l & Hl & Hn). do 2 eexists. split; [reflexivity|]. split; [|done]. split; [done|].
    exists l. split; [done|]. simpl. destruct HS as (A & _ & _ & _ & Hb). destruct (Hb _ _ Hl) as (c & _ & _ & Hld).
    rewrite <- Hld. by rewrite load_take.
Qed.

Lemma run_Sim start total m h b :
  16 <= start -> start mod 8 = 0 -> 0 <= total -> total mod 32 = 0 -> start + total < 2 ^ 62 ->
  run start total m h b -> Sim start total h b.
Proof.
  intros H1 H2 H3 H4 H5 HR. induction HR as [|h b c h' r _ IH HP E].
  - exists (init_heap start total). split_and!; [by apply init_Rep|done|done|done].
  - destruct (sim_call _ _ _ _ c IH HP) as (h2 & r2 & E2 & _ & HS). rewrite E in E2. by injection E2 as <- <-.
Qed.

(** ** The properties *)

(** C24: the kernel heap is a table of independent buffers.  In every run from
    [init], every permitted call returns (no walk of the free lists or of the
    large blocks hangs) and does what the table says: a new allocation is
    aligned, lies in the heap and overlaps no other; an allocation holds what
    was last written to it, whatever is allocated, freed, resized or written
    elsewhere; [realloc] keeps the common prefix. *)
Theorem heap_refines_buffers start total m h b c :
  16 <= start -> start mod 8 = 0 -> 0 <= total -> total mod 32 = 0 -> start + total < 2 ^ 62 ->
  run start total m h b -> permitted c b ->
  exists h' r, exec c h = (h', Ok r) /\ spec start total c b r (after c r.1 h' b).
Proof.
  intros H1 H2 H3 H4 H5 HR HP.
  destruct (sim_call _ _ _ _ c (run_Sim _ _ _ _ _ H1 H2 H3 H4 H5 HR) HP) as (h' & r & E & Hs & _). eauto.
Qed.

(** When an allocation fails, nothing has changed and the heap is
    exhausted: the bucket's free list is empty, the arena has no room and no
    free block is large enough for a slab, or for the request with its
    padding. *)
Theorem heap_null_exhausted A h size j h' :
  Rep A h -> 0 <= size -> 0 <= j -> alloc_aligned size (2 ^ j) h = (h', Ok 0) ->
  h' = h /\ exhausted A h size (2 ^ j).
Proof.
  intros H Hs Hj E.
  destruct (alloc_aligned_spec A h size j H Hs Hj) as [[E' Hx]|(A' & h2 & r & c & E' & _ & _ & HA)];
    rewrite E in E'; [by injection E' as ->|injection E' as -> <-].
  destruct (live_range A' h2 0 c (al_rep _ _ _ _ _ _ HA)) as (? & _); [apply (al_live _ _ _ _ _ _ HA); by right|].
  destruct (rp_range _ _ (al_rep _ _ _ _ _ _ HA)). lia.
Qed.

(** A run on a page: a word is allocated and written, then resized. *)
Definition demo_mem : mem := fun _ => 0.
Definition demo_heap : heap := init 4096 4096 (new demo_mem).
Definition demo_alloc : heap := (alloc_aligned 8 8 demo_heap).1.
Definition demo_ptr : Z := 4104.

Lemma heap_demo_run : run 4096 4096 demo_mem demo_alloc {[ demo_ptr := load (hmem demo_alloc) demo_ptr 8 ]}.
Proof.
  apply (run_call 4096 4096 demo_mem demo_heap ∅ (Alloc 8 3) demo_alloc (demo_ptr, []));
    [apply run_init|done|]. assert ((alloc_aligned 8 8 demo_heap).2 = Ok demo_ptr) as E by (vm_compute; reflexivity).
  unfold exec, demo_alloc. change (2 ^ 3) with 8. destruct (alloc_aligned 8 8 demo_heap) as [h r]. simpl in *. by subst r.
Qed.

Lemma heap_refines_buffers_witness :
  exists h' r, exec (Realloc demo_ptr 100 4) demo_alloc = (h', Ok r) /\
    spec 4096 4096 (Realloc demo_ptr 100 4) {[ demo_ptr := load (hmem demo_alloc) demo_ptr 8 ]} r
      (after (Realloc demo_ptr 100 4) r.1 h' {[ demo_ptr := load (hmem demo_alloc) demo_ptr 8 ]}).
Proof.
  apply (heap_refines_buffers 4096 4096 demo_mem); try done; [apply heap_demo_run|].
  split; [|done]. eexists. apply lookup_singleton_eq.
Defined.

(** Although nothing is allocated, half the heap is not to be had. *)
Lemma half_heap_null : (alloc_aligned 2000 16 demo_heap).2 = Ok 0.
Proof. vm_compute. reflexivity. Qed.

Lemma heap_null_exhausted_witness :
  exists h', alloc_aligned 2000 16 demo_heap = (h', Ok 0) /\
             h' = demo_heap /\ exhausted (init_heap 4096 4096) demo_heap 2000 16.
Proof.
  pose proof half_heap_null as E. exists (alloc_aligned 2000 16 demo_heap).1.
  assert (alloc_aligned 2000 16 demo_heap = ((alloc_aligned 2000 16 demo_heap).1, Ok 0)) as E2.
  { destruct (alloc_aligned 2000 16 demo_heap) as [h r]. simpl in *. by subst r. }
  split; [exact E2|]. apply (heap_null_exhausted (init_heap 4096 4096) demo_heap 2000 4); [by apply init_Rep|done|done|exact E2].
Defined.

End HeapTheorems.
