(* ===== verification/Paging.v ===== *)
(** Page tables and address spaces (src/src/memory/paging.rs,
    src/src/memory/address_space.rs, init_paging of src/src/memory/mod.rs).

    A page table is a frame of 512 little-endian words in the byte memory of
    Frame, reached by its physical address.  [map_page] works on any source of
    frames ([FrameSource]); the address spaces use the global pool. *)

From S2P Require Import Prelude Frame.
Open Scope kmonad_scope.

Definition PAGE_PRESENT : Z := Z.shiftl 1 0.
Definition PAGE_WRITABLE : Z := Z.shiftl 1 1.
Definition PAGE_USER : Z := Z.shiftl 1 2.
Definition PAGE_CACHE_DISABLE : Z := Z.shiftl 1 4.
Definition PAGE_NO_EXECUTE : Z := Z.shiftl 1 63.

Definition ADDRESS_MASK : Z := 0x000ffffffffff000.

(** [(virt >> shift) & 0x1FF] *)
Definition index (virt shift : Z) : Z := Z.land (Z.shiftr virt shift) 0x1FF.

Definition entry (m : mem) (table i : Z) : Z := read64 m (table + 8 * i).
Definition set_entry (m : mem) (table i x : Z) : mem := write64 m (table + 8 * i) x.

Definition present (e : Z) : bool := negb (Z.land e PAGE_PRESENT =? 0).

(** * Mapping pages *)

(** The trait [FrameSource]: memory, and a source of frames. *)
Class FrameSource (S : Type) : Type := {
  src_mem : S -> mem;
  src_set : mem -> S -> S;
  src_alloc : S -> S * option Z;
}.

(** The boot allocator, which does not touch the frames it hands out. *)
#[export] Instance boot_source : FrameSource (mem * FrameAllocator) := {
  src_mem := fst;
  src_set m s := (m, s.2);
  src_alloc s := let '(fa, r) := allocate_frame s.2 in ((s.1, fa), r);
}.

(** [GlobalFrames] *)
#[export] Instance global_source : FrameSource phys := {
  src_mem := pmem;
  src_set m p := mk_phys m (frames p);
  src_alloc := alloc_frame;
}.

Section map_page.
Context {F : Type} `{FrameSource F}.

Definition get_entry (table i : Z) : M F Z := gets (fun s => entry (src_mem s) table i).
Definition put_entry (table i x : Z) : M F unit :=
  modify (fun s => src_set (set_entry (src_mem s) table i x) s).

(** One level of [map_page]: the table below entry [i], made if it is
    missing.  Running out of memory or meeting a large page panics. *)
Definition next_table (table i : Z) : M F Z :=
  let! e := get_entry table i in
  run! (if negb (present e) then
          fun s =>
            match src_alloc s with
            | (s, Some frame) =>
                (run! modify (fun s => src_set (zero_page (src_mem s) frame) s) in
                 put_entry table i (Z.lor frame (Z.lor PAGE_PRESENT (Z.lor PAGE_WRITABLE PAGE_USER)))) s
            | (s, None) => (s, Panic)
            end
        else kret tt) in
  let! e := get_entry table i in
  if Z.land e 128 =? 0 then kret (Z.land e ADDRESS_MASK) else kpanic.

Definition map_page (pml4 virt_addr phys_addr fl : Z) : M F unit :=
  let! pdpt := next_table pml4 (index virt_addr 39) in
  let! pd := next_table pdpt (index virt_addr 30) in
  let! pt := next_table pd (index virt_addr 21) in
  put_entry pt (index virt_addr 12) (Z.lor phys_addr (Z.lor fl PAGE_PRESENT)).

(** [for addr in (start..end).step_by(PAGE_SIZE)] *)
Fixpoint identity_pages (n : nat) (pml4 addr fl : Z) : M F unit :=
  match n with
  | O => kret tt
  | S n => run! map_page pml4 addr addr fl in identity_pages n pml4 (addr + PAGE_SIZE) fl
  end.

Definition identity_range (pml4 start fin : Z) : M F unit :=
  identity_pages (Z.to_nat ((fin - start + PAGE_SIZE - 1) / PAGE_SIZE)) pml4 start PAGE_WRITABLE.
End map_page.

(** ** The boot page table *)

(** The memory types [init_paging] maps: loader code and data, boot services
    code and data, runtime services code and data, conventional memory, ACPI
    reclaim, ACPI NVS, memory-mapped I/O and its port space. *)
Definition mapped_type (t : Z) : bool :=
  bool_decide (t ∈ [7; 1; 2; 3; 4; 5; 6; 9; 10; 11; 12]).

Fixpoint map_descriptors (pml4 : Z) (l : list descriptor) : M (mem * FrameAllocator) unit :=
  match l with
  | [] => kret tt
  | d :: l =>
      run! (if mapped_type (Type_ d)
            then identity_range pml4 (PhysicalStart d) (PhysicalStart d + NumberOfPages d * PAGE_SIZE)
            else kret tt) in
      map_descriptors pml4 l
  end.

(** The value is the physical address [init_paging] loads into CR3 and stores
    in [KERNEL_PML4]. *)
Definition init_paging (fb_base fb_size : Z) : M (mem * FrameAllocator) Z :=
  fun s =>
    match src_alloc s with
    | (s, Some pml4) =>
        (run! modify (fun s => src_set (zero_page (src_mem s) pml4) s) in
         let! l := gets (fun s : mem * FrameAllocator => memory_map s.2) in
         run! map_descriptors pml4 l in
         run! identity_range pml4 fb_base (fb_base + fb_size) in
         kret pml4) s
    | (s, None) => (s, Panic)
    end.

(** * Checking ranges *)

Fixpoint present_walk (m : mem) (table address required : Z) (shifts : list Z) : bool :=
  match shifts with
  | [] => false
  | shift :: rest =>
      let e := entry m table (Z.land (Z.shiftr address shift) 511) in
      if negb (Z.land e required =? required) then false
      else if shift =? 12 then true
      else if negb (Z.land e (Z.shiftl 1 7) =? 0) then negb (shift =? 39)
      else present_walk m (Z.land e ADDRESS_MASK) address required rest
  end.

Definition page_present (m : mem) (pml4 address required : Z) : bool :=
  present_walk m pml4 address required [39; 30; 21; 12].

(** [loop] from [address] to [last], [n] pages and one more. *)
Fixpoint pages_present (n : nat) (m : mem) (pml4 address required : Z) : bool :=
  page_present m pml4 address required &&
  match n with O => true | S n => pages_present n m pml4 (address + 4096) required end.

(** [x & !0xfff] *)
Definition page_of (x : Z) : Z := x - x mod 4096.

Definition range_mapped (m : mem) (pml4 start len required : Z) : bool :=
  if len =? 0 then true else
  match checked_add64 start len with
  | None => false
  | Some fin =>
      let region := Z.shiftr start 47 in
      if negb (region =? 0) && negb (region =? 0x1ffff) then false
      else if negb (Z.shiftr (fin - 1) 47 =? region) then false
      else
        let address := page_of start in
        let last := page_of (fin - 1) in
        pages_present (Z.to_nat ((last - address) / 4096)) m pml4 address required
  end.

Definition is_range_mapped (m : mem) (pml4 start len : Z) : bool :=
  range_mapped m pml4 start len PAGE_PRESENT.
Definition is_user_range_mapped (m : mem) (pml4 start len : Z) : bool :=
  range_mapped m pml4 start len (Z.lor PAGE_PRESENT PAGE_USER).

(** * Address spaces *)

Definition USER_PML4_FIRST : Z := 128.
Definition USER_PML4_END : Z := 256.
Definition USER_SPACE_START : Z := Z.shiftl USER_PML4_FIRST 39.
Definition USER_SPACE_END : Z := Z.shiftl USER_PML4_END 39.
Definition USER_CODE_BASE : Z := USER_SPACE_START.
Definition USER_HEAP_BASE : Z := 0x700000000000.
Definition USER_HEAP_LIMIT : Z := USER_HEAP_BASE + 256 * 1024 * 1024.
Definition USER_STACK_TOP : Z := 0x7fffffff0000.

Record AddressSpace : Type := mk_space { pml4 : Z; heap_end : Z }.

Abbreviation P := (M phys).

Definition palloc : P (option Z) := fun p => let '(p, r) := alloc_frame p in (p, Ok r).
Definition pfree (frame : Z) : P unit := modify (fun p => free_frame p frame).

(** The entries shared with the kernel, copied in order. *)
Definition shared_slots : list Z := seqZ 0 USER_PML4_FIRST ++ seqZ USER_PML4_END (512 - USER_PML4_END).

Fixpoint copy_slots (kernel table : Z) (l : list Z) : P unit :=
  match l with
  | [] => kret tt
  | i :: l =>
      let! e := get_entry kernel i in
      run! put_entry table i e in
      copy_slots kernel table l
  end.

Definition space_new (kernel : Z) : P (option AddressSpace) :=
  let! r := palloc in
  match r with
  | None => kret None
  | Some table =>
      run! copy_slots kernel table shared_slots in
      kret (Some (mk_space table USER_HEAP_BASE))
  end.

Definition TABLE_FLAGS : Z := Z.lor PAGE_PRESENT (Z.lor PAGE_WRITABLE PAGE_USER).

Fixpoint leaf_walk (virt table : Z) (shifts : list Z) : P (option Z) :=
  match shifts with
  | [] => kret (Some table)
  | shift :: rest =>
      let idx := index virt shift in
      let! e := get_entry table idx in
      let! ok :=
        (if negb (present e) then
           let! r := palloc in
           match r with
           | Some frame => run! put_entry table idx (Z.lor frame TABLE_FLAGS) in kret true
           | None => kret false
           end
         else kret true) in
      if negb ok then kret None else
      let! e := get_entry table idx in
      leaf_walk virt (e - e mod 4096) rest
  end.

Definition leaf_table (root virt : Z) : P (option Z) :=
  if (USER_SPACE_START <=? virt) && (virt <? USER_SPACE_END)
  then leaf_walk virt root [39; 30; 21]
  else kret None.

Definition space_map (root virt e : Z) : P bool :=
  let! r := leaf_table root virt in
  match r with
  | None => kret false
  | Some table =>
      let idx := index virt 12 in
      let! old := get_entry table idx in
      if present old then kret false else
      run! put_entry table idx e in
      kret true
  end.

Definition page_flags (writable executable : bool) : Z :=
  Z.lor (Z.lor (Z.lor PAGE_PRESENT PAGE_USER) (if writable then PAGE_WRITABLE else 0))
    (if negb executable then PAGE_NO_EXECUTE else 0).

Definition map_new_page (root virt : Z) (writable executable : bool) : P (option Z) :=
  let! r := palloc in
  match r with
  | None => kret None
  | Some frame =>
      let! mapped := space_map root virt (Z.lor frame (page_flags writable executable)) in
      if mapped then kret (Some frame)
      else (run! pfree frame in kret None)
  end.

(** ** The heap *)

(** [while virt < new { self.leaf_table(virt)?; virt += PAGE_SIZE }] *)
Fixpoint reserve_tables (n : nat) (root virt : Z) : P bool :=
  match n with
  | O => kret true
  | S n =>
      let! r := leaf_table root virt in
      match r with
      | Some _ => reserve_tables n root (virt + PAGE_SIZE)
      | None => kret false
      end
  end.

(** [while frames != 0], over at most [n] frames. *)
Fixpoint release_frames (n : nat) (head : Z) : P unit :=
  if head =? 0 then kret tt else
  match n with
  | O => khang
  | S n =>
      let! next := gets (fun p => read64 (pmem p) head) in
      run! pfree head in
      release_frames n next
  end.

(** Frames chained through their first word; [None] after an allocation
    failed and the chain was released. *)
Fixpoint reserve_frames (n : nat) (taken : nat) (head : Z) : P (option Z) :=
  match n with
  | O => kret (Some head)
  | S n =>
      let! r := palloc in
      match r with
      | None => run! release_frames taken head in kret None
      | Some frame =>
          run! modify (fun p => mk_phys (write64 (pmem p) frame head) (frames p)) in
          reserve_frames n (S taken) frame
      end
  end.

Definition HEAP_FLAGS : Z := Z.lor PAGE_PRESENT (Z.lor PAGE_USER (Z.lor PAGE_WRITABLE PAGE_NO_EXECUTE)).

(** A failed [map] panics, as [debug_assert!(mapped)] does in a build with
    assertions; it never fails here, after [reserve_tables]
    ([SpaceHeap.map_frames_spec]), so that the builds agree. *)
Fixpoint map_frames (n : nat) (root virt head : Z) : P unit :=
  match n with
  | O => kret tt
  | S n =>
      let! next := gets (fun p => read64 (pmem p) head) in
      run! modify (fun p => mk_phys (write64 (pmem p) head 0) (frames p)) in
      let! mapped := space_map root virt (Z.lor head HEAP_FLAGS) in
      if negb mapped then kpanic else map_frames n root (virt + PAGE_SIZE) next
  end.

(** The end of the heap after [bytes] more, rounded up to pages. *)
Definition heap_target (old bytes : Z) : option Z :=
  match checked_add64 bytes (PAGE_SIZE - 1) with
  | None => None
  | Some b =>
      match checked_add64 old (page_of b) with
      | None => None
      | Some new => if USER_HEAP_LIMIT <? new then None else Some new
      end
  end.

Definition grow_heap (sp : AddressSpace) (bytes : Z) : P (AddressSpace * option Z) :=
  let old := heap_end sp in
  match heap_target old bytes with
  | None => kret (sp, None)
  | Some new =>
      let n := Z.to_nat ((new - old) / PAGE_SIZE) in
      let! ok := reserve_tables n (pml4 sp) old in
      if negb ok then kret (sp, None) else
      let! r := reserve_frames n 0 0 in
      match r with
      | None => kret (sp, None)
      | Some head =>
          run! map_frames n (pml4 sp) old head in
          kret (mk_space (pml4 sp) new, Some old)
      end
  end.

(** ** Dropping a space *)

Fixpoint free_table (levels_below : nat) (e : Z) : P unit :=
  if negb (present e) then kret tt else
  let frame := Z.land e ADDRESS_MASK in
  run! (match levels_below with
        | O => kret tt
        | S l =>
            (fix children (l0 : list Z) : P unit :=
               match l0 with
               | [] => kret tt
               | i :: l0 =>
                   let! child := get_entry frame i in
                   run! free_table l child in
                   children l0
               end) (seqZ 0 512)
        end) in
  pfree frame.

Fixpoint free_slots (root : Z) (l : list Z) : P unit :=
  match l with
  | [] => kret tt
  | i :: l =>
      let! e := get_entry root i in
      run! free_table 3 e in
      free_slots root l
  end.

Definition space_drop (sp : AddressSpace) : P unit :=
  run! free_slots (pml4 sp) (seqZ USER_PML4_FIRST (USER_PML4_END - USER_PML4_FIRST)) in
  pfree (pml4 sp).
