(* ===== verification/PagingProofs.v ===== *)
(** Page tables: range checks, mapping, and the life of an address space. *)

From S2P Require Import Prelude Frame FrameProofs Paging.
Open Scope kmonad_scope.

(** * Range checks *)

Lemma pages_present_spec n m root address required :
  pages_present n m root address required = true <->
  forall k, 0 <= k <= Z.of_nat n -> page_present m root (address + 4096 * k) required = true.
Proof.
  revert address. induction n as [|n IH]; intros address; cbn [pages_present]; rewrite andb_true_iff.
  - split.
    + intros [Hp _] k Hk. assert (k = 0) as -> by lia. by rewrite Z.mul_0_r, Z.add_0_r.
    + intros Hk. split; [|done]. specialize (Hk 0). rewrite Z.mul_0_r, Z.add_0_r in Hk. apply Hk. lia.
  - rewrite IH. split.
    + intros [Hp Hrest] k Hk. destruct (decide (k = 0)) as [->|]; [by rewrite Z.mul_0_r, Z.add_0_r|].
      specialize (Hrest (k - 1) ltac:(lia)). by replace (address + 4096 * k) with (address + 4096 + 4096 * (k - 1)) by lia.
    + intros Hk. split.
      * specialize (Hk 0 ltac:(lia)). by rewrite Z.mul_0_r, Z.add_0_r in Hk.
      * intros k Hk'. specialize (Hk (k + 1) ltac:(lia)).
        by replace (address + 4096 + 4096 * k) with (address + 4096 * (k + 1)) by lia.
Qed.

(** The canonical half an address lies in. *)
Definition canonical (a : Z) : Prop := Z.shiftr a 47 = 0 \/ Z.shiftr a 47 = 0x1ffff.

Lemma range_mapped_spec m root start len required :
  0 <= start -> 0 <= len ->
  range_mapped m root start len required = true <->
  len = 0 \/
  (start + len <= u64_max /\ canonical start /\ Z.shiftr (start + len - 1) 47 = Z.shiftr start 47 /\
   forall a, start <= a < start + len -> page_present m root (page_of a) required = true).
Proof.
  intros Hs Hl. unfold range_mapped. destruct (Z.eqb_spec len 0) as [->|Hne]; [by split; [left|]|].
  unfold checked_add64, canonical. destruct (Z.leb_spec (start + len) u64_max) as [Hfit|Hover].
  2: { split; [done|]. intros [?|(? & _)]; lia. }
  destruct (Z.eqb_spec (Z.shiftr start 47) 0) as [E0|N0], (Z.eqb_spec (Z.shiftr start 47) 0x1ffff) as [E1|N1];
    cbn [negb andb]; try (split; [done|]; intros [?|(_ & [?|?] & _)]; lia).
  all: destruct (Z.eqb_spec (Z.shiftr (start + len - 1) 47) (Z.shiftr start 47)) as [E2|N2]; cbn [negb];
    try (split; [done|]; intros [?|(_ & _ & ? & _)]; lia).
  all: rewrite pages_present_spec; unfold page_of; split;
    [intros Hk; right; split_and!; [done|auto|done|]; intros a Ha;
     specialize (Hk ((a - a mod 4096 - (start - start mod 4096)) / 4096) ltac:(dlia));
     replace (a - a mod 4096) with (start - start mod 4096 + 4096 * ((a - a mod 4096 - (start - start mod 4096)) / 4096)) by dlia; done|].
  all: intros [?|(_ & _ & _ & Ha)]; [done|]; intros k Hk;
    destruct (decide (k = 0)) as [->|Hk0];
    [rewrite Z.mul_0_r, Z.add_0_r; apply Ha; lia|];
    specialize (Ha (start - start mod 4096 + 4096 * k) ltac:(dlia));
    replace (start - start mod 4096 + 4096 * k - (start - start mod 4096 + 4096 * k) mod 4096)
      with (start - start mod 4096 + 4096 * k) in Ha by dlia; done.
Qed.

(** C32: [range_mapped] accepts a range exactly when it is empty, or it does not
    wrap around, lies in one canonical half and every page it touches is
    mapped with the required bits at every level of the page table.  The loop
    of the code visits all these pages and terminates. *)
Theorem range_mapped_correct m root start len required :
  0 <= start -> 0 <= len ->
  range_mapped m root start len required = true <->
  len = 0 \/
  (start + len <= u64_max /\ canonical start /\ Z.shiftr (start + len - 1) 47 = Z.shiftr start 47 /\
   forall a, start <= a < start + len -> page_present m root (page_of a) required = true).
Proof. apply range_mapped_spec. Qed.

(** * Entries *)

Lemma land_mask_frame f : frame_ok f -> Z.land f ADDRESS_MASK = f.
Proof.
  intros [Hf Ha]. unfold PAGE_SIZE in *.
  change ADDRESS_MASK with (Z.shiftl (Z.ones 40) 12).
  assert (f = Z.shiftl (f / 4096) 12) as E by (rewrite Z.shiftl_mul_pow2 by lia; change (2 ^ 12) with 4096; dlia).
  rewrite E, <- Z.shiftl_land, Z.land_ones by lia. rewrite Z.mod_small; [done|]. dlia.
Qed.

(** Bits below the page offset are free in a frame's address. *)
Lemma land_low_frame f x : frame_ok f -> 0 <= x < 4096 -> Z.land f x = 0.
Proof.
  intros [Hf Ha] Hx. unfold PAGE_SIZE in *.
  assert (f = Z.shiftl (f / 4096) 12) as -> by (rewrite Z.shiftl_mul_pow2 by lia; change (2 ^ 12) with 4096; dlia).
  apply Z.bits_inj'. intros n Hn. rewrite Z.land_spec, Z.bits_0.
  destruct (Z.lt_ge_cases n 12) as [Hlt|Hge].
  - by rewrite Z.shiftl_spec_low.
  - rewrite (Z.bits_above_log2 x n), andb_false_r; [done|lia|].
    apply Z.le_lt_trans with 11; [|lia]. apply (Z.log2_le_mono x 4095); lia.
Qed.

Lemma lor_low_frame f x : frame_ok f -> 0 <= x < 4096 -> Z.lor f x = f + x.
Proof.
  intros Hf Hx. rewrite <- Z.lxor_lor by (by apply land_low_frame). symmetry.
  apply Z.add_nocarry_lxor. by apply land_low_frame.
Qed.

(** An entry that points to a table. *)
Lemma table_entry f :
  frame_ok f -> let e := Z.lor f TABLE_FLAGS in
  present e = true /\ e - e mod 4096 = f /\ Z.land e ADDRESS_MASK = f /\ 0 <= e < 2 ^ 64.
Proof.
  intros Hf e. unfold e. assert (Z.lor f TABLE_FLAGS = f + 7) as Hsum by (by apply lor_low_frame).
  pose proof Hf as [Hr Ha]. unfold PAGE_SIZE in *. split_and!.
  - unfold present. rewrite Z.land_lor_distr_l, land_low_frame by (done || lia). done.
  - rewrite Hsum. dlia.
  - rewrite Z.land_lor_distr_l, land_mask_frame by done. change (Z.land TABLE_FLAGS ADDRESS_MASK) with 0.
    apply Z.lor_0_r.
  - rewrite Hsum. lia.
  - rewrite Hsum. lia.
Qed.

(** An entry that maps a page. *)
Definition leaf_ok (e : Z) : Prop := present e = true /\ frame_ok (Z.land e ADDRESS_MASK) /\ 0 <= e < 2 ^ 64.

Lemma leaf_entry f fl :
  frame_ok f -> 0 <= fl < 2 ^ 64 -> Z.land fl PAGE_PRESENT = 1 -> Z.land fl ADDRESS_MASK = 0 ->
  leaf_ok (Z.lor f fl) /\ Z.land (Z.lor f fl) ADDRESS_MASK = f.
Proof.
  intros Hf Hfl Hp Hm. assert (Z.land (Z.lor f fl) ADDRESS_MASK = f) as Hmask.
  { rewrite Z.land_lor_distr_l, Hm, Z.lor_0_r. by apply land_mask_frame. }
  split; [|done]. split; [|split; [by rewrite Hmask|]].
  - unfold present. rewrite Z.land_lor_distr_l, Hp, land_low_frame by (done || (unfold PAGE_PRESENT; simpl; lia)).
    done.
  - pose proof Hf as [Hr _]. split; [apply Z.lor_nonneg; lia|].
    assert (0 <= Z.lor f fl) as Hnn by (apply Z.lor_nonneg; lia).
    destruct (decide (Z.lor f fl = 0)) as [->|Hne]; [done|].
    apply Z.log2_lt_pow2; [lia|]. rewrite Z.log2_lor by lia.
    apply Z.max_lub_lt; [|destruct (decide (fl = 0)) as [->|]; [done|apply Z.log2_lt_pow2; lia]].
    apply Z.lt_le_trans with 52; [|lia]. apply Z.log2_lt_pow2; lia.
Qed.

Lemma page_flags_ok w x :
  let fl := page_flags w x in
  0 <= fl < 2 ^ 64 /\ Z.land fl PAGE_PRESENT = 1 /\ Z.land fl ADDRESS_MASK = 0.
Proof. by destruct w, x. Qed.

Lemma index_range virt shift : 0 <= index virt shift < 512.
Proof.
  unfold index. change 0x1FF with (Z.ones 9). rewrite Z.land_ones by lia. apply Z.mod_pos_bound. lia.
Qed.

Lemma index_user virt :
  USER_SPACE_START <= virt < USER_SPACE_END -> 128 <= index virt 39 < 256.
Proof.
  unfold index, USER_SPACE_START, USER_SPACE_END. change 0x1FF with (Z.ones 9).
  rewrite Z.land_ones, Z.shiftr_div_pow2 by lia.
  change (Z.shiftl USER_PML4_FIRST 39) with (128 * 2 ^ 39). change (Z.shiftl USER_PML4_END 39) with (256 * 2 ^ 39).
  intros Hv. assert (128 <= virt / 2 ^ 39 < 256) as Hq
    by (split; [apply Z.div_le_lower_bound; lia|apply Z.div_lt_upper_bound; lia]).
  rewrite Z.mod_small by lia. done.
Qed.

(** ** Witness: one user page at 0x1000 under a table at 0x1000. *)
Definition one_page : mem :=
  set_entry (set_entry (set_entry (set_entry (fun _ => 0) 0x1000 0 0x2007) 0x2000 0 0x3007) 0x3000 0 0x4007) 0x4000 1 0x5007.

Lemma range_mapped_correct_witness :
  range_mapped one_page 0x1000 0x1005 10 5 = true /\
  (range_mapped one_page 0x1000 0x1005 10 5 = true <->
   10 = 0 \/
   (0x1005 + 10 <= u64_max /\ canonical 0x1005 /\ Z.shiftr (0x1005 + 10 - 1) 47 = Z.shiftr 0x1005 47 /\
    forall a, 0x1005 <= a < 0x1005 + 10 -> page_present one_page 0x1000 (page_of a) 5 = true)).
Proof. split; [by vm_compute|]. apply (range_mapped_correct one_page 0x1000 0x1005 10 5); lia. Defined.
