(* ===== verification/Space.v ===== *)
(** The user half of an address space as a tree.

    [T] maps a path, the list of table indexes from the leaf to the root, to
    what is there: the frame of a table (paths of length 0 to 3) or the entry
    that maps a page (paths of length 4).  [Space m root T] says that the page
    tables in memory [m] are exactly [T]; [Owns p root T av B] adds that the
    frames of [T] and the frames [B] of everybody else are the frames in use
    of the pool.  The other half of the root table is the kernel's, the same in
    every address space ([KernelHalf]). *)

From S2P Require Import Prelude Frame FrameProofs Paging PagingProofs.
Open Scope kmonad_scope.

Abbreviation tree := (@gmap (list Z) (@list_eq_dec Z Z.eq_dec) (@list_countable Z Z.eq_dec Z_countable) Z).
Implicit Types (T : tree) (m : mem) (p : phys).

(** The entries of a root table outside the user slots. *)
Class KernelHalf : Type := shared : Z -> Z.

Section space.
Context `{KernelHalf}.

(** The frame a node of the tree occupies. *)
Definition node_frame (k : list Z) (x : Z) : Z :=
  if decide (length k = 4)%nat then Z.land x ADDRESS_MASK else x.

Definition owned T : gset Z := list_to_set ((fun kx => node_frame kx.1 kx.2) <$> map_to_list T).

Lemma elem_of_owned T f : f ∈ owned T <-> exists k x, T !! k = Some x /\ node_frame k x = f.
Proof.
  unfold owned. rewrite elem_of_list_to_set, list_elem_of_fmap. split.
  - intros ([k x] & -> & Hk). exists k, x. split; [by apply elem_of_map_to_list in Hk|done].
  - intros (k & x & Hk & <-). exists (k, x). split; [done|]. by apply elem_of_map_to_list.
Qed.

Lemma owned_insert T k x : T !! k = None -> owned (<[k := x]> T) = {[node_frame k x]} ∪ owned T.
Proof.
  intros Hk. apply set_eq. intros f. rewrite elem_of_union, elem_of_singleton, !elem_of_owned. split.
  - intros (k' & x' & [[<- <-]|[Hne Hk']]%lookup_insert_Some & <-); [by left|right; by eauto].
  - intros [->|(k' & x' & Hk' & <-)].
    + exists k, x. by rewrite lookup_insert_eq.
    + exists k', x'. rewrite lookup_insert_ne by congruence. done.
Qed.

(** Indexes a path may go through: the root has the user slots only. *)
Definition idx_ok (k : list Z) (i : Z) : Prop := 0 <= i < 512 /\ (k = [] -> 128 <= i < 256).

Record Space m (root : Z) T : Prop := {
  sp_root : T !! [] = Some root;
  sp_parent i k x : T !! (i :: k) = Some x -> idx_ok k i /\ (length k <= 3)%nat /\ is_Some (T !! k);
  sp_table k t : T !! k = Some t -> (length k <= 3)%nat -> frame_ok t;
  sp_leaf k e : T !! k = Some e -> length k = 4%nat -> leaf_ok e;
  sp_inj k k' x x' : T !! k = Some x -> T !! k' = Some x' -> node_frame k x = node_frame k' x' -> k = k';
  sp_entry k t i : T !! k = Some t -> (length k <= 3)%nat -> idx_ok k i ->
    entry m t i = match T !! (i :: k) with
                  | None => 0
                  | Some x => if decide (length k = 3)%nat then x else Z.lor x TABLE_FLAGS
                  end;
  sp_shared i : 0 <= i < 512 -> ~ 128 <= i < 256 -> entry m root i = shared i;
}.

Lemma node_frame_table k x : (length k <= 3)%nat -> node_frame k x = x.
Proof. intros Hk. unfold node_frame. by rewrite decide_False by lia. Qed.

Lemma sp_length m root T k x : Space m root T -> T !! k = Some x -> (length k <= 4)%nat.
Proof.
  intros Hs. destruct k as [|i k]; [simpl; lia|]. intros Hk.
  destruct (sp_parent _ _ _ Hs i k x Hk) as (_ & Hl & _). simpl. lia.
Qed.

Lemma sp_ancestor m root T pre k x : Space m root T -> T !! (pre ++ k) = Some x -> is_Some (T !! k).
Proof.
  intros Hs. revert x. induction pre as [|i pre IH]; intros x Hx; [by exists x|].
  destruct (sp_parent _ _ _ Hs i (pre ++ k) x Hx) as (_ & _ & [y Hy]). by apply (IH y).
Qed.

Lemma sp_frame_ok m root T k x : Space m root T -> T !! k = Some x -> frame_ok (node_frame k x).
Proof.
  intros Hs Hk. pose proof (sp_length _ _ _ _ _ Hs Hk). unfold node_frame. case_decide as Hl.
  - by destruct (sp_leaf _ _ _ Hs k x Hk Hl) as (_ & ? & _).
  - apply (sp_table _ _ _ Hs k x Hk). lia.
Qed.

(** Only the tables matter. *)
Lemma Space_ext m m' root T :
  Space m root T ->
  (forall k t b, T !! k = Some t -> (length k <= 3)%nat -> t <= b < t + PAGE_SIZE -> m' b = m b) ->
  Space m' root T.
Proof.
  intros [H1 H2 H3 H4 H5 H6 H7] Hm.
  assert (forall k t i, T !! k = Some t -> (length k <= 3)%nat -> 0 <= i < 512 -> entry m' t i = entry m t i) as He.
  { intros k t i Hk Hl Hi. unfold entry. apply read64_ext. intros b Hb. apply (Hm k t); try done. unfold PAGE_SIZE. lia. }
  split; try done.
  - intros k t i Hk Hl Hi. rewrite <- (H6 k t i) by done. apply (He k t i Hk Hl). apply Hi.
  - intros i Hi Hn. rewrite <- (H7 i) by done. apply (He [] root i H1); [simpl; lia|done].
Qed.

(** Adding a node below a table. *)
Lemma Space_insert m root T k t i x :
  Space m root T -> T !! k = Some t -> (length k <= 3)%nat -> idx_ok k i -> T !! (i :: k) = None ->
  frame_ok (node_frame (i :: k) x) -> node_frame (i :: k) x ∉ owned T ->
  (length k = 3%nat -> leaf_ok x) ->
  ((length k <= 2)%nat -> forall j, 0 <= j < 512 -> entry m x j = 0) ->
  Space (set_entry m t i (if decide (length k = 3)%nat then x else Z.lor x TABLE_FLAGS)) root
    (<[i :: k := x]> T).
Proof.
  intros Hs Hk Hl Hi Hnone Hf Hnew Hleaf Hzero. pose proof Hs as [H1 H2 H3 H4 H5 H6 H7].
  set (v := if decide (length k = 3)%nat then x else Z.lor x TABLE_FLAGS).
  assert (0 <= v < 2 ^ 64) as Hv.
  { unfold v. case_decide as E; [by destruct (Hleaf E) as (_ & _ & ?)|].
    rewrite node_frame_table in Hf by (simpl; lia). by destruct (table_entry x Hf) as (_ & _ & _ & ?). }
  assert (forall k', T !! k' <> None -> (i :: k) <> k') as Hfresh by (intros k' Hk' <-; done).
  assert (forall k' x', T !! k' = Some x' -> node_frame k' x' <> node_frame (i :: k) x) as Hdiff.
  { intros k' x' Hk' E. apply Hnew. rewrite <- E. apply elem_of_owned. by exists k', x'. }
  split.
  - rewrite lookup_insert_ne by done. done.
  - intros j k' y [[E <-]|[Hne Hy]]%lookup_insert_Some.
    + injection E as <- <-. split; [done|]. split; [done|].
      rewrite lookup_insert_ne by (intros E; apply (f_equal length) in E; simpl in E; lia). by eexists.
    + destruct (H2 j k' y Hy) as (? & ? & [z Hz]). split; [done|]. split; [done|].
      rewrite lookup_insert_ne by (apply Hfresh; by rewrite Hz). by eexists.
  - intros k' y [[<- <-]|[Hne Hy]]%lookup_insert_Some Hlen; [|by apply (H3 k')].
    by rewrite node_frame_table in Hf.
  - intros k' y [[<- <-]|[Hne Hy]]%lookup_insert_Some Hlen; [|by apply (H4 k')].
    apply Hleaf. simpl in Hlen. lia.
  - intros k1 k2 x1 x2 [[<- <-]|[Hn1 Hx1]]%lookup_insert_Some [[<- <-]|[Hn2 Hx2]]%lookup_insert_Some E;
      [done|by destruct (Hdiff k2 x2)|by destruct (Hdiff k1 x1)|by apply (H5 k1 k2 x1 x2)].
  - intros k' t' j [[<- <-]|[Hne Ht']]%lookup_insert_Some Hlen Hj.
    + rewrite node_frame_table in Hf by done. simpl in Hlen.
      rewrite lookup_insert_ne by (intros E; apply (f_equal length) in E; simpl in E; lia).
      destruct (T !! (j :: i :: k)) as [y|] eqn:Ey.
      { destruct (H2 j (i :: k) y Ey) as (_ & _ & [? ?]). congruence. }
      unfold entry, set_entry. rewrite read64_write64_ne; [by apply Hzero; [lia|apply Hj]|].
      assert (t <> x) as Htx.
      { intros ->. apply (Hdiff k x Hk). by rewrite !node_frame_table by (simpl; lia). }
      pose proof (H3 k t Hk Hl) as Ht. destruct Hi as [Hi _], Hj as [Hj _].
      unfold frame_ok, PAGE_SIZE in *. dlia.
    + unfold entry, set_entry. destruct (decide (j :: k' = i :: k)) as [E|Hjk].
      * injection E as -> ->. assert (t' = t) as -> by congruence.
        rewrite lookup_insert_eq. by apply read64_write64.
      * rewrite lookup_insert_ne by congruence. rewrite <- (H6 k' t' j Ht' Hlen Hj).
        apply read64_write64_ne. destruct (decide (t' = t)) as [->|Htt].
        -- assert (k' = k) as -> by (apply (H5 k' k t t); [done..|by rewrite !node_frame_table]).
           assert (j <> i) as Hji by congruence. lia.
        -- pose proof (H3 k t Hk Hl) as Ht. pose proof (H3 k' t' Ht' Hlen) as Ht2.
           destruct Hi as [Hi _], Hj as [Hj _]. unfold frame_ok, PAGE_SIZE in *. dlia.
  - intros j Hj Hn. rewrite <- (H7 j) by done. unfold entry, set_entry. apply read64_write64_ne.
    destruct (decide (root = t)) as [->|Hrt].
    + assert (k = []) as -> by (apply (H5 k [] t t); [done..|by rewrite !node_frame_table by (simpl; lia)]).
      destruct Hi as [_ Hi]. specialize (Hi eq_refl). lia.
    + pose proof (H3 k t Hk Hl) as Ht. pose proof (H3 [] root H1 ltac:(simpl; lia)) as Hr.
      destruct Hi as [Hi _]. unfold frame_ok, PAGE_SIZE in *. dlia.
Qed.

(** * Ownership *)

Record Owns p (root : Z) T (av : list Z) (B : gset Z) : Prop := {
  ow_pool : Pool p av (owned T ∪ B);
  ow_space : Space (pmem p) root T;
  ow_disj : owned T ## B;
}.

(** A frame whose contents belong to somebody: a mapped page, or a frame
    outside the space. *)
Definition data_frame T (B : gset Z) (f : Z) : Prop :=
  f ∈ B \/ exists k e, T !! k = Some e /\ length k = 4%nat /\ f = Z.land e ADDRESS_MASK.

Definition kept T (B : gset Z) m m' : Prop :=
  forall f b, data_frame T B f -> f <= b < f + PAGE_SIZE -> m' b = m b.

(** [T'] has all of [T], and the same pages. *)
Definition same_pages T T' : Prop := T ⊆ T' /\ forall k, length k = 4%nat -> T' !! k = T !! k.

Lemma same_pages_refl T : same_pages T T.
Proof. done. Qed.

Lemma same_pages_trans T1 T2 T3 : same_pages T1 T2 -> same_pages T2 T3 -> same_pages T1 T3.
Proof.
  intros [H1 H2] [H3 H4]. split; [by etrans|]. intros k Hk. by rewrite H4, H2.
Qed.

Lemma data_frame_same T T' B f : same_pages T T' -> data_frame T B f <-> data_frame T' B f.
Proof.
  intros [_ Hp]. unfold data_frame. split; (intros [?|(k & e & He & Hl & ->)]; [by left|right]);
    exists k, e; [rewrite Hp by done|rewrite <- Hp by done]; done.
Qed.

Lemma kept_refl T B m : kept T B m m.
Proof. done. Qed.

Lemma kept_trans T T' B m1 m2 m3 :
  same_pages T T' -> kept T B m1 m2 -> kept T' B m2 m3 -> kept T B m1 m3.
Proof.
  intros Hp H12 H23 f b Hf Hb. rewrite (H23 f b); [by apply (H12 f b)| |done]. by apply (data_frame_same T).
Qed.

Lemma data_frame_owned p root T av B f :
  Owns p root T av B -> data_frame T B f -> f ∈ owned T ∪ B.
Proof.
  intros _ [Hf|(k & e & He & Hl & ->)]; apply elem_of_union; [by right|left].
  apply elem_of_owned. exists k, e. split; [done|]. unfold node_frame. by rewrite decide_True.
Qed.

(** Tables are not data frames. *)
Lemma table_not_data p root T av B k t f :
  Owns p root T av B -> T !! k = Some t -> (length k <= 3)%nat -> data_frame T B f -> f <> t.
Proof.
  intros HO Hk Hl Hf ->. assert (t ∈ owned T) as Ht.
  { apply elem_of_owned. exists k, t. by rewrite node_frame_table. }
  destruct Hf as [Hf|(k' & e & He & Hl' & E)]; [apply (ow_disj _ _ _ _ _ HO t Ht Hf)|].
  assert (k' = k); [|subst; lia]. apply (sp_inj _ _ _ (ow_space _ _ _ _ _ HO) k' k e t); try done.
  rewrite (node_frame_table k) by done. unfold node_frame. by rewrite decide_True.
Qed.

Lemma data_frame_ok p root T av B f : Owns p root T av B -> data_frame T B f -> frame_ok f.
Proof.
  intros HO Hf. apply (pl_ok _ _ _ (ow_pool _ _ _ _ _ HO)). right. by apply (data_frame_owned p root T av B).
Qed.

(** A write to a table leaves the data alone. *)
Lemma kept_entry p root T av B k t i x :
  Owns p root T av B -> T !! k = Some t -> (length k <= 3)%nat -> 0 <= i < 512 ->
  kept T B (pmem p) (set_entry (pmem p) t i x).
Proof.
  intros HO Hk Hl Hi f b Hf Hb. apply write64_other. intros Hb'.
  apply (frames_apart f t b); try done.
  - by apply (data_frame_ok p root T av B).
  - by apply (sp_table _ _ _ (ow_space _ _ _ _ _ HO) k).
  - by apply (table_not_data p root T av B k t f).
  - unfold PAGE_SIZE. lia.
Qed.

(** ** Allocating a frame *)

Lemma palloc_spec p root T av B :
  Owns p root T av B ->
  match av with
  | [] => exists p', palloc p = (p', Ok None) /\ Owns p' root T [] B /\ pmem p' = pmem p
  | f :: av' => exists p', palloc p = (p', Ok (Some f)) /\ Owns p' root T av' ({[f]} ∪ B) /\
      pmem p' = zero_page (pmem p) f /\ (f ∉ owned T ∪ B) /\ frame_ok f
  end.
Proof.
  intros [HP HS HD]. pose proof (alloc_frame_spec p av _ HP) as Ha. unfold palloc.
  destruct av as [|f av].
  - destruct Ha as (p' & -> & HP' & Hm). exists p'. split; [done|]. split; [|done].
    split; [done|by rewrite Hm|done].
  - destruct Ha as (p' & -> & HP' & Hm & Hf & Hok). exists p'. split; [done|]. split; [|done]. split.
    + by replace (owned T ∪ ({[f]} ∪ B)) with ({[f]} ∪ (owned T ∪ B)) by set_solver.
    + rewrite Hm. apply Space_ext with (pmem p); [done|]. intros k t b Hk Hl Hb. apply zero_page_other.
      apply (frames_apart t f); try done; [by apply (sp_table _ _ _ HS k)|].
      intros ->. apply Hf. apply elem_of_union. left. apply elem_of_owned. exists k, f.
      by rewrite node_frame_table.
    + set_solver.
Qed.

Lemma kept_zero p root T av B f :
  Owns p root T av B -> (f ∉ owned T ∪ B) -> frame_ok f -> kept T B (pmem p) (zero_page (pmem p) f).
Proof.
  intros HO Hf Hok g b Hg Hb. apply zero_page_other. apply (frames_apart g f); try done.
  - by apply (data_frame_ok p root T av B).
  - intros ->. apply Hf. by apply (data_frame_owned p root T av B).
Qed.

(** Linking a frame held outside into the tree. *)
Lemma Owns_link p root T av B k t i x :
  Owns p root T av ({[node_frame (i :: k) x]} ∪ B) -> (node_frame (i :: k) x ∉ B) ->
  T !! k = Some t -> (length k <= 3)%nat -> idx_ok k i -> T !! (i :: k) = None ->
  (length k = 3%nat -> leaf_ok x) ->
  ((length k <= 2)%nat -> forall j, 0 <= j < 512 -> entry (pmem p) x j = 0) ->
  Owns (mk_phys (set_entry (pmem p) t i (if decide (length k = 3)%nat then x else Z.lor x TABLE_FLAGS)) (frames p))
    root (<[i :: k := x]> T) av B.
Proof.
  intros [HP HS HD] HB Hk Hl Hi Hnone Hleaf Hzero. set (f := node_frame (i :: k) x) in *.
  assert (f ∉ owned T) as HfT by set_solver.
  split; simpl.
  - rewrite owned_insert by done. fold f.
    replace ({[f]} ∪ owned T ∪ B) with (owned T ∪ ({[f]} ∪ B)) by set_solver.
    apply pool_write; [done|]. intros b. destruct (decide (t <= b < t + PAGE_SIZE)) as [Hb|Hb].
    + right. exists t. split; [|done]. apply elem_of_union. left. apply elem_of_owned. exists k, t.
      by rewrite node_frame_table.
    + left. apply write64_other. destruct Hi as [Hi _]. unfold PAGE_SIZE in *. lia.
  - apply Space_insert; try done. apply (pl_ok _ _ _ HP). right. set_solver.
  - rewrite owned_insert by done. fold f. set_solver.
Qed.

(** * The walk to a leaf table *)

Lemma entry_present p root T av B k t i :
  Owns p root T av B -> T !! k = Some t -> (length k <= 3)%nat -> idx_ok k i ->
  present (entry (pmem p) t i) = bool_decide (is_Some (T !! (i :: k))).
Proof.
  intros [_ HS _] Hk Hl Hi. rewrite (sp_entry _ _ _ HS k t i) by done.
  destruct (T !! (i :: k)) as [x|] eqn:E; [|done]. rewrite bool_decide_true by by eexists.
  case_decide as H3.
  - apply (sp_leaf _ _ _ HS (i :: k) x E). simpl. lia.
  - apply table_entry. apply (sp_table _ _ _ HS (i :: k) x E). simpl. lia.
Qed.

(** One level: the table below entry [i], made if there is none. *)
Lemma level_spec p root T av B k t i :
  Owns p root T av B -> T !! k = Some t -> (length k <= 2)%nat -> idx_ok k i ->
  exists p' T' av' ok,
    (let! e := get_entry t i in
     (if negb (present e) then
        let! r := palloc in
        match r with
        | Some frame => run! put_entry t i (Z.lor frame TABLE_FLAGS) in kret true
        | None => kret false
        end
      else kret true)) p = (p', Ok ok) /\
    Owns p' root T' av' B /\ same_pages T T' /\ kept T B (pmem p) (pmem p') /\
    if ok then exists t', T' !! (i :: k) = Some t' /\
                 let e := entry (pmem p') t i in e - e mod 4096 = t' /\ T' !! k = Some t
    else av' = [] /\ T !! (i :: k) = None.
Proof.
  intros HO Hk Hl Hi. pose proof (entry_present p root T av B k t i HO Hk ltac:(lia) Hi) as Hp.
  rewrite (kbind_Ok _ _ p p (entry (pmem p) t i) eq_refl), Hp.
  destruct (T !! (i :: k)) as [x|] eqn:E.
  - rewrite bool_decide_true by by eexists. exists p, T, av, true. split; [done|]. split; [done|].
    split; [done|]. split; [done|]. exists x. split; [done|]. cbn zeta.
    rewrite (sp_entry _ _ _ (ow_space _ _ _ _ _ HO) k t i) by (done || lia). rewrite E.
    rewrite decide_False by lia. split; [|done]. apply table_entry.
    apply (sp_table _ _ _ (ow_space _ _ _ _ _ HO) (i :: k) x E). simpl. lia.
  - rewrite bool_decide_false by (by intros [? ?]). cbn [negb].
    pose proof (palloc_spec p root T av B HO) as Ha. destruct av as [|f av].
    + destruct Ha as (p' & Hrun & HO' & Hm). exists p', T, [], false.
      rewrite (kbind_Ok _ _ _ _ _ Hrun). split; [done|]. split; [done|]. split; [done|]. split; [by rewrite Hm|done].
    + destruct Ha as (p1 & Hrun & HO1 & Hm & Hf & Hok). rewrite (kbind_Ok _ _ _ _ _ Hrun).
      eexists _, (<[i :: k := f]> T), av, true. split; [reflexivity|]. cbn [fst src_set src_mem global_source].
      assert (node_frame (i :: k) f = f) as Hnf by (apply node_frame_table; simpl; lia).
      assert (Owns (mk_phys (set_entry (pmem p1) t i (Z.lor f TABLE_FLAGS)) (frames p1)) root
        (<[i :: k := f]> T) av B) as HO2.
      { pose proof (Owns_link p1 root T av B k t i f) as HL. rewrite Hnf, decide_False in HL by lia.
        apply HL; try done; [set_solver|lia|lia|]. intros _ j Hj. unfold entry. rewrite Hm.
        apply read64_zero; unfold PAGE_SIZE; lia. }
      assert (same_pages T (<[i :: k := f]> T)) as Hsp.
      { split; [by apply insert_subseteq|]. intros k' Hk'. rewrite lookup_insert_ne; [done|].
        intros <-. simpl in Hk'. lia. }
      split; [done|]. split; [done|]. split.
      * apply kept_trans with T (pmem p1); [done|rewrite Hm; by eapply kept_zero|].
        destruct Hi as [Hi _].
        pose proof (kept_entry p1 root T av ({[f]} ∪ B) k t i (Z.lor f TABLE_FLAGS) HO1 Hk ltac:(lia) Hi) as HK.
        intros g b Hg. apply HK. destruct Hg as [?|?]; [left; set_solver|by right].
      * exists f. rewrite lookup_insert_eq. split; [done|]. cbn zeta. split.
        -- pose proof (sp_entry _ _ _ (ow_space _ _ _ _ _ HO2) k t i) as He. cbn [pmem] in *.
           rewrite lookup_insert_ne in He by (intros Ek; apply (f_equal length) in Ek; simpl in Ek; lia).
           rewrite He by (done || lia). rewrite lookup_insert_eq, decide_False by lia. by apply table_entry.
        -- rewrite lookup_insert_ne by (intros Ek; apply (f_equal length) in Ek; simpl in Ek; lia). done.
Qed.

Definition user (virt : Z) : Prop := USER_SPACE_START <= virt < USER_SPACE_END.

Lemma leaf_walk_spec shifts virt p root T av B k t :
  Owns p root T av B -> T !! k = Some t -> (length k + length shifts = 3)%nat -> user virt ->
  (k = [] -> head shifts = Some 39) ->
  exists p' T' av' r, leaf_walk virt t shifts p = (p', Ok r) /\
    Owns p' root T' av' B /\ same_pages T T' /\ kept T B (pmem p) (pmem p') /\
    match r with
    | Some t' => T' !! (rev (index virt <$> shifts) ++ k) = Some t'
    | None => av' = [] /\ T !! (rev (index virt <$> shifts) ++ k) = None
    end.
Proof.
  revert p T av k t. induction shifts as [|sh shifts IH]; intros p T av k t HO Hk Hl Hu Hroot.
  - exists p, T, av, (Some t). by split.
  - cbn [leaf_walk]. simpl in Hl.
    assert (idx_ok k (index virt sh)) as Hi.
    { split; [apply index_range|]. intros ->. injection (Hroot eq_refl) as ->. by apply index_user. }
    destruct (level_spec p root T av B k t (index virt sh) HO Hk ltac:(lia) Hi)
      as (p1 & T1 & av1 & ok & Hrun & HO1 & Hsp & Hkept & Hok).
    rewrite <- kbind_assoc, (kbind_Ok _ _ _ _ _ Hrun). destruct ok; cbn [negb].
    2: { destruct Hok as [-> Hnone]. exists p1, T1, [], None. split_and!; try done.
         cbn. rewrite <- app_assoc. cbn [app]. apply eq_None_not_Some. intros [x Hx].
         destruct (sp_ancestor _ _ _ _ _ _ (ow_space _ _ _ _ _ HO) Hx). congruence. }
    destruct Hok as (t' & Ht' & He & _). cbn zeta in He.
    rewrite (kbind_Ok _ _ p1 p1 (entry (pmem p1) t (index virt sh)) eq_refl), He.
    destruct (IH p1 T1 av1 (index virt sh :: k) t' HO1 Ht') as (p2 & T2 & av2 & r & Hrun2 & HO2 & Hsp2 & Hkept2 & Hr);
      [simpl; lia|done|done|].
    exists p2, T2, av2, r. split; [done|]. split; [done|]. split; [by eapply same_pages_trans|].
    split; [by eapply kept_trans|]. cbn. rewrite <- app_assoc. destruct r as [t2|]; [done|]. destruct Hr as [-> Hr]. split; [done|].
    destruct Hsp as [Hsub _]. by apply (lookup_weaken_None _ _ _ Hr Hsub).
Qed.

(** The path of the page at [virt], and of the table that maps it. *)
Definition table_path (virt : Z) : list Z := [index virt 21; index virt 30; index virt 39].
Definition path (virt : Z) : list Z := index virt 12 :: table_path virt.

Lemma leaf_table_spec virt p root T av B :
  Owns p root T av B -> user virt ->
  exists p' T' av' r, leaf_table root virt p = (p', Ok r) /\
    Owns p' root T' av' B /\ same_pages T T' /\ kept T B (pmem p) (pmem p') /\
    match r with
    | Some t => T' !! table_path virt = Some t
    | None => av' = [] /\ T !! table_path virt = None
    end.
Proof.
  intros HO Hu. unfold leaf_table. unfold user in Hu.
  rewrite (proj2 (Z.leb_le _ _)), (proj2 (Z.ltb_lt _ _)) by lia. cbn [andb].
  pose proof (sp_root _ _ _ (ow_space _ _ _ _ _ HO)) as Hroot.
  apply (leaf_walk_spec [39; 30; 21] virt p root T av B [] root HO Hroot); done.
Qed.

Lemma leaf_table_outside virt p root : ~ user virt -> leaf_table root virt p = (p, Ok None).
Proof.
  intros Hu. unfold leaf_table, user in *.
  destruct (Z.leb_spec USER_SPACE_START virt), (Z.ltb_spec virt USER_SPACE_END); simpl; try done; lia.
Qed.

(** ** Mapping a page *)

Lemma space_map_spec virt e f p root T av B :
  Owns p root T av ({[f]} ∪ B) -> f ∉ B -> leaf_ok e -> Z.land e ADDRESS_MASK = f ->
  exists p' T' av' ok, space_map root virt e p = (p', Ok ok) /\
    same_pages T T' /\ kept T ({[f]} ∪ B) (pmem p) (pmem p') /\
    if ok : bool then
      user virt /\ T !! path virt = None /\ Owns p' root (<[path virt := e]> T') av' B
    else
      Owns p' root T' av' ({[f]} ∪ B) /\
      (user virt -> is_Some (T !! path virt) \/ av' = [] /\ T !! table_path virt = None).
Proof.
  intros HO HfB Hleaf Hf. unfold space_map.
  destruct (decide (USER_SPACE_START <= virt < USER_SPACE_END)) as [Hu|Hu].
  2: { rewrite (kbind_Ok _ _ _ _ _ (leaf_table_outside virt p root Hu)).
       exists p, T, av, false. by split_and!. }
  destruct (leaf_table_spec virt p root T av _ HO Hu) as (p1 & T1 & av1 & r & Hrun & HO1 & Hsp & Hkept & Hr).
  rewrite (kbind_Ok _ _ _ _ _ Hrun). destruct r as [t|].
  2: { exists p1, T1, av1, false. split_and!; auto. }
  assert (idx_ok (table_path virt) (index virt 12)) as Hi by (split; [apply index_range|done]).
  rewrite (kbind_Ok _ _ p1 p1 (entry (pmem p1) t (index virt 12)) eq_refl).
  rewrite (entry_present p1 root T1 av1 _ (table_path virt) t) by done. fold (path virt).
  assert (T1 !! path virt = T !! path virt) as Hpath by (by apply Hsp).
  case_bool_decide as Hpres.
  { exists p1, T1, av1, false. split; [done|]. split; [done|]. split; [done|]. split; [done|].
    intros _. left. by rewrite <- Hpath. }
  assert (T1 !! path virt = None) as Hnone by (by apply eq_None_not_Some).
  eexists _, T1, av1, true. split; [reflexivity|]. cbn [fst src_set src_mem global_source pmem]. split; [done|].
  split; [|split; [done|split; [by rewrite <- Hpath|]]].
  - apply kept_trans with T1 (pmem p1); [done|done|].
    by apply (kept_entry p1 root T1 av1 _ (table_path virt) t); [|done|simpl; lia|apply index_range].
  - assert (node_frame (path virt) e = f) as Hnf by (unfold node_frame; by rewrite decide_True).
    apply (Owns_link p1 root T1 av1 B (table_path virt) t (index virt 12) e); try done; fold (path virt);
      rewrite ?Hnf; try done. simpl. lia.
Qed.

Lemma pfree_Owns p root T av B f :
  Owns p root T av ({[f]} ∪ B) -> f ∉ B ->
  Owns (free_frame p f) root T (f :: av) B /\
  forall b, ~ f <= b < f + PAGE_SIZE -> pmem (free_frame p f) b = pmem p b.
Proof.
  intros [HP HS HD] HfB.
  assert (forall b, ~ f <= b < f + PAGE_SIZE -> pmem (free_frame p f) b = pmem p b) as Hm.
  { intros b Hb. apply write64_other. unfold PAGE_SIZE in *. lia. }
  split; [|done]. split.
  - replace (owned T ∪ B) with ((owned T ∪ ({[f]} ∪ B)) ∖ {[f]}) by set_solver.
    apply free_frame_spec; [done|]. set_solver.
  - apply Space_ext with (pmem p); [done|]. intros k t b Hk Hl Hb. apply Hm.
    apply (frames_apart t f); try done.
    + by apply (sp_table _ _ _ HS k).
    + apply (pl_ok _ _ _ HP). right. set_solver.
    + intros ->. assert (f ∈ owned T); [|set_solver]. apply elem_of_owned. exists k, f.
      by rewrite node_frame_table.
  - set_solver.
Qed.

Lemma kept_mono T B B' m m' : B' ⊆ B -> kept T B m m' -> kept T B' m m'.
Proof. intros HB HK f b [Hf|Hf]; apply HK; [left; set_solver|by right]. Qed.

Lemma map_new_page_spec virt w x p root T av B :
  Owns p root T av B ->
  exists p' T' av' r, map_new_page root virt w x p = (p', Ok r) /\
    same_pages T T' /\ kept T B (pmem p) (pmem p') /\
    match r with
    | Some f => user virt /\ T !! path virt = None /\ frame_ok f /\
        Owns p' root (<[path virt := Z.lor f (page_flags w x)]> T') av' B /\
        forall b, f <= b < f + PAGE_SIZE -> pmem p' b = 0
    | None => Owns p' root T' av' B /\
        (user virt -> T !! path virt = None -> exists f, av' = [] \/ av' = [f])
    end.
Proof.
  intros HO. unfold map_new_page. pose proof (palloc_spec p root T av B HO) as Ha.
  destruct av as [|f av].
  - destruct Ha as (p' & Hrun & HO' & Hm). exists p', T, [], None. rewrite (kbind_Ok _ _ _ _ _ Hrun).
    split; [done|]. split; [done|]. split; [by rewrite Hm|]. split; [done|]. intros _ _. exists 0. by left.
  - destruct Ha as (p1 & Hrun & HO1 & Hm & Hf & Hok). rewrite (kbind_Ok _ _ _ _ _ Hrun).
    destruct (page_flags_ok w x) as (Hfl & Hpr & Hmask).
    destruct (leaf_entry f (page_flags w x) Hok Hfl Hpr Hmask) as [Hleaf Hframe].
    assert (f ∉ B) as HfB by set_solver.
    destruct (space_map_spec virt _ f p1 root T av B HO1 HfB Hleaf Hframe)
      as (p2 & T2 & av2 & ok & Hrun2 & Hsp & Hkept & Hres). rewrite (kbind_Ok _ _ _ _ _ Hrun2).
    assert (kept T B (pmem p) (pmem p1)) as Hk1 by (rewrite Hm; by eapply kept_zero).
    assert (kept T B (pmem p) (pmem p2)) as Hk2.
    { apply kept_trans with T (pmem p1); [done|done|]. apply kept_mono with ({[f]} ∪ B); [set_solver|done]. }
    destruct ok.
    + destruct Hres as (Hu & Hnone & HO2). exists p2, T2, av2, (Some f). split; [done|].
      split; [done|]. split; [done|]. split; [done|]. split; [done|]. split; [done|]. split; [done|].
      intros b Hb. rewrite (Hkept f b); [|left; set_solver|done]. rewrite Hm. unfold zero_page.
      zcase; simpl; lia || done.
    + destruct Hres as [HO2 Hwhy]. destruct (pfree_Owns p2 root T2 av2 B f HO2 HfB) as [HO3 Hm3].
      exists (free_frame p2 f), T2, (f :: av2), None. split; [done|]. split; [done|]. split.
      * intros g b Hg Hb. rewrite Hm3; [by apply (Hk2 g b)|]. apply (frames_apart g f); try done.
        -- by apply (data_frame_ok p root T (f :: av) B).
        -- intros ->. apply Hf. by apply (data_frame_owned p root T (f :: av) B).
      * split; [done|]. intros Hu Hnone. exists f. right. f_equal.
        destruct (Hwhy Hu) as [[? ?]|[-> _]]; [congruence|done].
Qed.

End space.
