(* ===== verification/SpaceDrop.v ===== *)
(** Creating and dropping address spaces: no frame is leaked or freed twice. *)

From S2P Require Import Prelude Frame FrameProofs Paging PagingProofs Space.
Open Scope kmonad_scope.
Implicit Types (m : mem) (p : phys) (F B : gset Z).

Section drop.
Context `{KernelHalf}.

(** * Subtrees in memory *)

Definition unions (G : Z -> gset Z) (l : list Z) : gset Z := ⋃ (G <$> l).

Lemma elem_of_unions G l f : f ∈ unions G l <-> exists i, i ∈ l /\ f ∈ G i.
Proof.
  unfold unions. rewrite elem_of_union_list. setoid_rewrite list_elem_of_fmap. naive_solver.
Qed.

Lemma unions_nil G : unions G [] = ∅.
Proof. done. Qed.
Lemma unions_cons G i l : unions G (i :: l) = G i ∪ unions G l.
Proof. done. Qed.

(** All entries of a table. *)
Definition slots : list Z := seqZ 0 512.
Lemma slots_eq : seqZ 0 512 = slots.
Proof. done. Qed.
Lemma elem_of_slots i : i ∈ slots <-> 0 <= i < 512.
Proof. unfold slots. rewrite elem_of_seqZ. lia. Qed.
Lemma NoDup_slots : NoDup slots.
Proof. apply NoDup_seqZ. Qed.
#[local] Opaque unions slots.

(** The entry [e] with [l] levels below it occupies exactly the frames [F]. *)
Fixpoint sub_ok (l : nat) m (e : Z) F : Prop :=
  if present e then
    let f := Z.land e ADDRESS_MASK in
    frame_ok f /\
    match l with
    | O => F = {[f]}
    | S l => exists G, (forall i, 0 <= i < 512 -> sub_ok l m (entry m f i) (G i)) /\
        (forall i, f ∉ G i) /\ (forall i j, i <> j -> G i ## G j) /\ F = {[f]} ∪ unions G slots
    end
  else F = ∅.

(** [m] and [m'] agree on the frames of [F]. *)
Definition agree F m m' : Prop := forall f b, f ∈ F -> f <= b < f + PAGE_SIZE -> m' b = m b.

Lemma entry_agree m m' f i : agree {[f]} m m' -> 0 <= i < 512 -> entry m' f i = entry m f i.
Proof.
  intros Ha Hi. apply read64_ext. intros b Hb. apply (Ha f); [set_solver|]. unfold PAGE_SIZE. lia.
Qed.

Lemma agree_mono F F' m m' : F' ⊆ F -> agree F m m' -> agree F' m m'.
Proof. intros HF Ha f b Hf. apply Ha. set_solver. Qed.

Lemma sub_ok_agree l m m' e F : sub_ok l m e F -> agree F m m' -> sub_ok l m' e F.
Proof.
  revert e F. induction l as [|l IH]; intros e F; cbn [sub_ok]; destruct (present e); try done.
  intros (Hf & G & HG & Hout & Hdis & ->) Ha. split; [done|]. exists G. split; [|done].
  intros i Hi. rewrite (entry_agree m m') by (done || (apply (agree_mono _ _ _ _) with (2 := Ha); set_solver)).
  apply IH; [by apply HG|]. apply (agree_mono _ _ _ _) with (2 := Ha). intros g Hg. apply elem_of_union. right.
  apply elem_of_unions. exists i. split; [by apply elem_of_slots|done].
Qed.

(** * Freeing *)

(** What freeing the frames [F] does. *)
Definition frees (c : M phys unit) p F B : Prop :=
  exists p' av', c p = (p', Ok tt) /\ Pool p' av' B /\ agree B (pmem p) (pmem p').

Lemma pfree_frees p av B f :
  Pool p av ({[f]} ∪ B) -> f ∉ B -> frees (pfree f) p {[f]} B.
Proof.
  intros HP Hf. exists (free_frame p f), (f :: av). split; [done|]. split.
  - replace B with (({[f]} ∪ B) ∖ {[f]}) at 1 by set_solver. apply free_frame_spec; [done|set_solver].
  - intros g b Hg Hb. apply write64_other. intros Hb'. apply (frames_apart g f b); try done.
    + apply (pl_ok _ _ _ HP). set_solver.
    + apply (pl_ok _ _ _ HP). set_solver.
    + by intros ->.
    + unfold PAGE_SIZE. lia.
Qed.

Section children.
Context (lv : nat) (free_child : Z -> M phys unit).
Context (Hchild : forall p av e F B, Pool p av (F ∪ B) -> F ## B -> sub_ok lv (pmem p) e F ->
  frees (free_child e) p F B).

(** The loop over the entries of a table, whose frame is among [B]. *)
Lemma children_frees (c : list Z -> M phys unit) table G l p av B :
  (forall q, c [] q = (q, Ok tt)) ->
  (forall i l q, c (i :: l) q = (let! child := get_entry table i in run! free_child child in c l) q) ->
  Pool p av (unions G l ∪ B) -> table ∈ B -> NoDup l -> (forall i, i ∈ l -> 0 <= i < 512) ->
  (forall i j, i <> j -> G i ## G j) -> (forall i, i ∈ l -> G i ## B) ->
  (forall i, i ∈ l -> sub_ok lv (pmem p) (entry (pmem p) table i) (G i)) ->
  frees (c l) p (unions G l) B.
Proof.
  intros Hnil Hcons. revert p av. induction l as [|i l IH]; intros p av HP Ht Hnd Hl Hdis HB Hsub.
  - exists p, av. split; [apply Hnil|]. split; [|done]. by rewrite unions_nil, (left_id_L ∅ (∪)) in HP.
  - apply NoDup_cons in Hnd as [Hi Hnd].
        assert (G i ## unions G l ∪ B) as Hd.
    { intros f Hf [Hf'|Hf']%elem_of_union; [|by apply (HB i (list_elem_of_here _ _) f)].
      apply elem_of_unions in Hf' as (j & Hj & Hf'). apply (Hdis i j) with f; [by intros ->|done|done]. }
    rewrite unions_cons, <- (assoc_L (∪)) in HP.
    destruct (Hchild p av (entry (pmem p) table i) (G i) (unions G l ∪ B) HP Hd) as (p1 & av1 & Hrun & HP1 & Ha1).
    { apply Hsub. left. }
    destruct (IH p1 av1 HP1 Ht Hnd) as (p2 & av2 & Hrun2 & HP2 & Ha2).
    + intros j Hj. apply Hl. by right.
    + done.
    + intros j Hj. apply HB. by right.
    + intros j Hj. rewrite (entry_agree (pmem p) (pmem p1)).
      * apply sub_ok_agree with (pmem p); [apply Hsub; by right|].
        apply (agree_mono _ _ _ _) with (2 := Ha1). intros f Hf. apply elem_of_union. left. apply elem_of_unions. by exists j.
      * apply (agree_mono _ _ _ _) with (2 := Ha1). set_solver.
      * apply Hl. by right.
    + exists p2, av2. split; [|split; [done|]].
      * rewrite Hcons, (kbind_Ok _ _ p p (entry (pmem p) table i) eq_refl), (kbind_Ok _ _ _ _ _ Hrun). done.
      * intros f b Hf Hb. rewrite (Ha2 f b Hf Hb). apply (Ha1 f b); [set_solver|done].
Qed.
End children.

Lemma free_table_frees l p av e F B :
  Pool p av (F ∪ B) -> F ## B -> sub_ok l (pmem p) e F -> frees (free_table l e) p F B.
Proof.
  revert p av e F B. induction l as [|l IH]; intros p av e F B HP HD; unfold frees; cbn [sub_ok free_table];
    destruct (present e); cbn [negb].
  - intros [_ ->]. rewrite (kbind_Ok (kret tt) _ p p tt eq_refl).
    apply (pfree_frees p av); [done|set_solver].
  - intros ->. exists p, av. split; [done|]. split; [|done]. by rewrite (left_id_L ∅ (∪)) in HP.
  - set (f := Z.land e ADDRESS_MASK). intros (Hf & G & HG & Hout & Hdis & HF).
    assert ((f ∉ B) /\ forall i, 0 <= i < 512 -> G i ## B) as [HfB HGB].
    { split; [set_solver|]. intros i Hi g Hg HgB. apply (HD g); [|done]. rewrite HF. apply elem_of_union. right.
      apply elem_of_unions. exists i. split; [by apply elem_of_slots|done]. }
    rewrite slots_eq. match goal with |- context [kbind (?c slots) _] => set (children := c) end.
    destruct (children_frees l (free_table l) IH children f G slots p av ({[f]} ∪ B))
      as (p1 & av1 & Hrun & HP1 & Ha1); try done.
    + by replace (unions G slots ∪ ({[f]} ∪ B)) with (F ∪ B) by (rewrite HF; set_solver).
    + set_solver.
    + apply NoDup_slots.
    + intros i Hi. by apply elem_of_slots.
    + intros i Hi%elem_of_slots g Hg [->%elem_of_singleton|HgB]%elem_of_union; [by apply (Hout i)|].
      apply (HGB i Hi g Hg HgB).
    + intros i Hi%elem_of_slots. by apply HG.
    + destruct (pfree_frees p1 av1 B f HP1 HfB) as (p2 & av2 & Hrun2 & HP2 & Ha2).
      exists p2, av2. split; [|split; [done|]].
      * by rewrite (kbind_Ok _ _ _ _ _ Hrun).
      * intros g b Hg Hb. rewrite (Ha2 g b Hg Hb). apply (Ha1 g b); [apply elem_of_union; by right|done].
  - intros ->. exists p, av. split; [done|]. split; [|done]. by rewrite (left_id_L ∅ (∪)) in HP.
Qed.

(** * From the tree to its frames *)

Section subtree.
Context (m : mem) (root : Z) (T : tree).
Context (HS : Space m root T).

Definition subtree (k : list Z) : tree := filter (fun kx => k `suffix_of` kx.1) T.

Lemma elem_of_subtree k f :
  f ∈ owned (subtree k) <-> exists pre x, T !! (pre ++ k) = Some x /\ node_frame (pre ++ k) x = f.
Proof.
  rewrite elem_of_owned. unfold subtree. split.
  - intros (k' & x & [Hk [pre Hpre]]%map_lookup_filter_Some & Hf). simpl in Hpre. subst k'. by exists pre, x.
  - intros (pre & x & Hk & Hf). exists (pre ++ k), x. split; [|done].
    apply map_lookup_filter_Some. split; [done|]. by exists pre.
Qed.

(** The node below [k] on the way to [pre ++ k]. *)
Lemma below pre k x :
  T !! (pre ++ k) = Some x -> pre = [] \/ exists i pre', pre ++ k = pre' ++ i :: k /\ idx_ok k i /\ is_Some (T !! (i :: k)).
Proof.
  destruct pre as [|i pre _] using rev_ind; [by left|]. rewrite <- app_assoc. simpl. intros Hx. right.
  exists i, pre. split; [done|]. destruct (sp_ancestor _ _ _ _ _ _ HS Hx) as [y Hy]. split; [|by eexists].
  by destruct (sp_parent _ _ _ HS i k y Hy) as (? & _).
Qed.

Lemma subtree_disjoint k i j : i <> j -> owned (subtree (i :: k)) ## owned (subtree (j :: k)).
Proof.
  intros Hij f (p1 & x1 & H1 & E1)%elem_of_subtree (p2 & x2 & H2 & E2)%elem_of_subtree.
  assert (p1 ++ i :: k = p2 ++ j :: k) as E by (apply (sp_inj _ _ _ HS _ _ x1 x2); congruence).
  assert (length p1 = length p2) as Hl by (apply (f_equal length) in E; rewrite !length_app in E; simpl in E; lia).
  apply app_inj_1 in E as [_ E]; [|done]. congruence.
Qed.

Lemma subtree_not_self k x i : T !! k = Some x -> node_frame k x ∉ owned (subtree (i :: k)).
Proof.
  intros Hk (pre & y & Hy & E)%elem_of_subtree. apply (sp_inj _ _ _ HS _ _ y x) in E; [|done|done].
  apply (f_equal length) in E. rewrite length_app in E. simpl in E. lia.
Qed.

Lemma subtree_split k x l :
  T !! k = Some x -> (forall i, idx_ok k i -> i ∈ l) ->
  owned (subtree k) = {[node_frame k x]} ∪ unions (fun i => owned (subtree (i :: k))) l.
Proof.
  intros Hk Hl. apply set_eq. intros f. rewrite elem_of_union, elem_of_singleton, elem_of_unions. split.
  - intros (pre & y & Hy & <-)%elem_of_subtree. destruct (below pre k y Hy) as [->|(i & pre' & E & Hi & _)].
    + left. simpl in *. congruence.
    + right. exists i. split; [by apply Hl|]. apply elem_of_subtree. exists pre', y. by rewrite <- E.
  - intros [->|(i & _ & (pre & y & Hy & <-)%elem_of_subtree)].
    + apply elem_of_subtree. by exists [], x.
    + apply elem_of_subtree. exists (pre ++ [i]), y. by rewrite <- app_assoc.
Qed.

Lemma subtree_empty k : T !! k = None -> owned (subtree k) = ∅.
Proof.
  intros Hk. apply set_eq. intros f. split; [|set_solver].
  intros (pre & x & Hx & _)%elem_of_subtree. destruct (sp_ancestor _ _ _ _ _ _ HS Hx). congruence.
Qed.

Lemma tree_sub_ok l k x :
  T !! k = Some x -> (length k + l = 4)%nat -> k <> [] ->
  sub_ok l m (if decide (length k = 4)%nat then x else Z.lor x TABLE_FLAGS) (owned (subtree k)).
Proof.
  revert k x. induction l as [|l IH]; intros k x Hk Hl Hne; cbn [sub_ok].
  - rewrite decide_True by lia. destruct (sp_leaf _ _ _ HS k x Hk ltac:(lia)) as (-> & Hf & _).
    split; [done|]. apply set_eq. intros f. rewrite elem_of_singleton. split.
    + intros (pre & y & Hy & <-)%elem_of_subtree.
      pose proof (sp_length _ _ _ _ _ HS Hy) as Hlen. rewrite length_app in Hlen.
      destruct pre; [|simpl in Hlen; lia]. simpl in *. unfold node_frame. rewrite decide_True by lia. congruence.
    + intros ->. apply elem_of_subtree. exists [], x. split; [done|]. unfold node_frame. by rewrite decide_True by (simpl; lia).
  - rewrite decide_False by lia. pose proof (sp_table _ _ _ HS k x Hk ltac:(lia)) as Hf.
    destruct (table_entry x Hf) as (-> & _ & -> & _). split; [done|].
    exists (fun i => owned (subtree (i :: k))). split_and!.
    + intros i Hi. assert (idx_ok k i) as Hidx by done.
      rewrite (sp_entry _ _ _ HS k x i) by (done || lia).
      destruct (T !! (i :: k)) as [y|] eqn:E.
      * specialize (IH (i :: k) y E). cbn [length] in IH.
        destruct (decide (length k = 3)%nat) as [H3|H3].
        -- rewrite decide_True in IH by lia. apply IH; [lia|done].
        -- rewrite decide_False in IH by lia. apply IH; [lia|done].
      * rewrite (subtree_empty (i :: k)) by done. destruct l; done.
    + intros i. rewrite <- (node_frame_table k x) by lia. by apply subtree_not_self.
    + intros i j. apply subtree_disjoint.
    + rewrite (subtree_split k x slots Hk) by (intros i Hi; apply elem_of_slots, Hi).
      by rewrite node_frame_table by lia.
Qed.
End subtree.

(** * Dropping a space *)

Definition user_slots : list Z := seqZ USER_PML4_FIRST (USER_PML4_END - USER_PML4_FIRST).

Lemma elem_of_user_slots i : i ∈ user_slots <-> 128 <= i < 256.
Proof. unfold user_slots. rewrite elem_of_seqZ. unfold USER_PML4_FIRST, USER_PML4_END. lia. Qed.

Lemma owned_all T : owned T = owned (subtree T []).
Proof.
  apply set_eq. intros f. rewrite elem_of_owned, elem_of_subtree. split.
  - intros (k & x & Hk & <-). exists k, x. by rewrite app_nil_r.
  - intros (k & x & Hk & <-). exists (k ++ []), x. done.
Qed.

Lemma space_drop_spec p sp T av B :
  Owns p (pml4 sp) T av B -> frees (space_drop sp) p (owned T) B.
Proof.
  intros [HP HS HD]. set (root := pml4 sp) in *. pose proof (sp_root _ _ _ HS) as Hroot.
  set (G := fun i => owned (subtree T [i])).
  assert (owned T = {[root]} ∪ unions G user_slots) as Hall.
  { rewrite owned_all, (subtree_split _ _ T HS [] root user_slots Hroot); [done|].
    intros i [_ Hi]. apply elem_of_user_slots. by apply Hi. }
  assert (forall i, root ∉ G i) as Hout by (intros i; by apply (subtree_not_self _ _ T HS [] root i)).
  assert (root ∉ B) as HrB by set_solver.
  destruct (children_frees 3 (free_table 3) (free_table_frees 3) (free_slots root) root G user_slots p av ({[root]} ∪ B))
    as (p1 & av1 & Hrun & HP1 & Ha1); try done.
  - replace (unions G user_slots ∪ ({[root]} ∪ B)) with (owned T ∪ B); [done|]. rewrite Hall. set_solver.
  - set_solver.
  - apply NoDup_seqZ.
  - intros i Hi%elem_of_user_slots. lia.
  - intros i j. by apply (subtree_disjoint _ _ T HS).
  - intros i Hi g Hg [->%elem_of_singleton|HgB]%elem_of_union; [by apply (Hout i)|].
    apply (HD g); [|done]. rewrite Hall. apply elem_of_union. right. apply elem_of_unions. by exists i.
  - intros i Hi%elem_of_user_slots.
    rewrite (sp_entry _ _ _ HS [] root i Hroot) by (simpl; lia || (split; [lia|done])).
    destruct (T !! [i]) as [y|] eqn:E.
    + pose proof (tree_sub_ok _ _ T HS 3 [i] y E eq_refl) as Hsub. by apply Hsub.
    + unfold G. by rewrite (subtree_empty _ _ T HS [i]).
  - destruct (pfree_frees p1 av1 B root HP1 HrB) as (p2 & av2 & Hrun2 & HP2 & Ha2).
    exists p2, av2. split; [|split; [done|]].
    + unfold space_drop. fold root user_slots. by rewrite (kbind_Ok _ _ _ _ _ Hrun).
    + intros g b Hg Hb. rewrite (Ha2 g b Hg Hb). apply (Ha1 g b); [apply elem_of_union; by right|done].
Qed.

(** * Creating a space *)

Lemma put_entry_spec table i x p :
  put_entry table i x p = (mk_phys (set_entry (pmem p) table i x) (frames p), Ok tt).
Proof. done. Qed.

Lemma copy_slots_spec kernel table l p :
  frame_ok kernel -> frame_ok table -> kernel <> table -> (forall i, i ∈ l -> 0 <= i < 512) ->
  (forall i, i ∈ l -> 0 <= entry (pmem p) kernel i < 2 ^ 64) ->
  exists m', copy_slots kernel table l p = (mk_phys m' (frames p), Ok tt) /\
    (forall b, ~ table <= b < table + PAGE_SIZE -> m' b = pmem p b) /\
    forall i, 0 <= i < 512 ->
      entry m' table i = if decide (i ∈ l) then entry (pmem p) kernel i else entry (pmem p) table i.
Proof.
  intros Hk Ht Hne. revert p. induction l as [|i l IH]; intros p Hl Hb.
  - exists (pmem p). split; [by destruct p|]. split; [done|]. intros i Hi. by rewrite decide_False by apply not_elem_of_nil.
  - set (e := entry (pmem p) kernel i). set (p1 := mk_phys (set_entry (pmem p) table i e) (frames p)).
    pose proof (Hl i (list_elem_of_here _ _)) as Hi.
    assert (forall j, 0 <= j < 512 -> entry (pmem p1) kernel j = entry (pmem p) kernel j) as Hkern.
    { intros j Hj. apply read64_write64_ne. unfold frame_ok, PAGE_SIZE in *. dlia. }
    destruct (IH p1) as (m' & Hrun & Hout & Hent).
    + intros j Hj. apply Hl. by right.
    + intros j Hj. rewrite Hkern; [apply Hb; by right|apply Hl; by right].
    + exists m'. split; [|split].
      * cbn [copy_slots]. rewrite (kbind_Ok _ _ p p e eq_refl). by rewrite (kbind_Ok _ _ _ _ _ (put_entry_spec table i e p)).
      * intros b Hb'. rewrite Hout by done. apply write64_other. unfold PAGE_SIZE in *. lia.
      * intros j Hj. rewrite Hent, Hkern by done. destruct (decide (j ∈ l)) as [Hin|Hin].
        { by rewrite decide_True by by right. }
        destruct (decide (j = i)) as [->|Hji].
        -- rewrite decide_True by left. unfold entry. apply read64_write64. apply Hb. left.
        -- rewrite decide_False by (intros [?|?]%elem_of_cons; done).
           apply read64_write64_ne. lia.
Qed.

(** Words of byte memory. *)
Definition mem_ok m : Prop := forall a, is_byte (m a).

Lemma read64_range m a : mem_ok m -> 0 <= read64 m a < 2 ^ 64.
Proof.
  intros Hm. unfold read64. set (l := (fun i => m (a + i)) <$> seqZ 0 8).
  assert (zlen l = 8) as Hl by done. assert (bytes_ok l) as Hb.
  { apply Forall_fmap, Forall_forall. intros i _. apply Hm. }
  pose proof (le_val_bound l Hb) as Hv. rewrite Hl in Hv. done.
Qed.

Lemma zero_page_ok m a : mem_ok m -> mem_ok (zero_page m a).
Proof. intros Hm b. unfold zero_page, is_byte. specialize (Hm b). unfold is_byte in Hm. destruct (_ && _); lia. Qed.

Lemma new_Space m f :
  frame_ok f -> (forall i, 128 <= i < 256 -> entry m f i = 0) ->
  (forall i, 0 <= i < 512 -> ~ 128 <= i < 256 -> entry m f i = shared i) -> Space m f {[ [] := f ]}.
Proof.
  intros Hf Hz Hsh. split; [| | | | | |done].
  - apply lookup_singleton_eq.
  - intros i k x Hx. by rewrite lookup_singleton_ne in Hx.
  - intros k t [<- <-]%lookup_singleton_Some _. done.
  - intros k t [<- <-]%lookup_singleton_Some. done.
  - intros k k' x x' [<- <-]%lookup_singleton_Some [<- <-]%lookup_singleton_Some. done.
  - intros k t i [<- <-]%lookup_singleton_Some _ [_ Hi]. rewrite lookup_singleton_ne by done. apply Hz. by apply Hi.
Qed.

Lemma owned_root f : owned {[ [] := f ]} = {[f]}.
Proof.
  apply set_eq. intros g. rewrite elem_of_owned, elem_of_singleton. split.
  - by intros (k & x & [<- <-]%lookup_singleton_Some & <-).
  - intros ->. exists [], f. by rewrite lookup_singleton_eq.
Qed.

(** The entries of a table are words. *)
Definition words_ok m (table : Z) : Prop := forall i, 0 <= i < 512 -> 0 <= entry m table i < 2 ^ 64.

Lemma mem_words_ok m table : mem_ok m -> words_ok m table.
Proof. intros Hm i _. by apply read64_range. Qed.

(** The boot page table has the entries that are shared. *)
Definition kernel_half m (kernel : Z) : Prop :=
  forall i, 0 <= i < 512 -> ~ 128 <= i < 256 -> entry m kernel i = shared i.

Lemma space_new_spec p av B kernel :
  Pool p av B -> kernel ∈ B -> words_ok (pmem p) kernel -> kernel_half (pmem p) kernel ->
  match av with
  | [] => exists p', space_new kernel p = (p', Ok None) /\ Pool p' [] B /\ pmem p' = pmem p
  | f :: av' => exists p', space_new kernel p = (p', Ok (Some (mk_space f USER_HEAP_BASE))) /\
      Owns p' f {[ [] := f ]} av' B /\ agree B (pmem p) (pmem p') /\
      forall i, 0 <= i < 512 ->
        entry (pmem p') f i = if decide (128 <= i < 256) then 0 else entry (pmem p) kernel i
  end.
Proof.
  intros HP Hk Hm Hhalf. pose proof (alloc_frame_spec p av B HP) as Ha. unfold space_new, palloc.
  destruct av as [|f av].
  - destruct Ha as (p' & Hrun & HP' & Hm'). exists p'. unfold kbind. by rewrite Hrun.
  - destruct Ha as (p1 & Hrun & HP1 & Hm1 & Hf & Hok).
    assert (frame_ok kernel) as Hkok by (apply (pl_ok _ _ _ HP); by right).
    assert (kernel <> f) as Hkf by (by intros ->).
    assert (agree B (pmem p) (pmem p1)) as Ha1.
    { intros g b Hg Hb. rewrite Hm1. apply zero_page_other. apply (frames_apart g f); try done; [|by intros ->].
      apply (pl_ok _ _ _ HP). by right. }
    assert (forall i, i ∈ shared_slots <-> 0 <= i < 512 /\ ~ 128 <= i < 256) as Hsh.
    { intros i. unfold shared_slots. rewrite elem_of_app, !elem_of_seqZ. unfold USER_PML4_FIRST, USER_PML4_END. lia. }
    destruct (copy_slots_spec kernel f shared_slots p1) as (m' & Hcopy & Hout & Hent); [exact Hkok|exact Hok|exact Hkf|..].
    { intros i Hi. apply Hsh in Hi. lia. }
    { intros i Hi. apply Hsh in Hi. rewrite (entry_agree (pmem p) (pmem p1)); [apply Hm; lia| |lia].
      apply agree_mono with B; [by intros g ->%elem_of_singleton|done]. }
    exists (mk_phys m' (frames p1)). split.
    { unfold kbind at 1. rewrite Hrun. by rewrite (kbind_Ok _ _ _ _ _ Hcopy). }
    assert (forall i, 0 <= i < 512 ->
      entry m' f i = if decide (128 <= i < 256) then 0 else entry (pmem p) kernel i) as Hall.
    { intros i Hi. rewrite Hent by done. destruct (decide (128 <= i < 256)) as [Hu|Hu].
      - rewrite decide_False by (rewrite Hsh; lia). unfold entry. rewrite Hm1.
        apply read64_zero; unfold PAGE_SIZE; lia.
      - rewrite decide_True by (rewrite Hsh; lia). apply entry_agree; [|done].
        apply agree_mono with B; [by intros g ->%elem_of_singleton|done]. }
    split; [|split; [|done]].
    + split; simpl.
      * rewrite owned_root. apply pool_write; [done|]. intros b.
        destruct (decide (f <= b < f + PAGE_SIZE)); [right; exists f; split; [by apply elem_of_union_l, elem_of_singleton|done]|left; by apply Hout].
      * apply new_Space; [done|intros i Hi; rewrite Hall by lia; by rewrite decide_True|].
        intros i Hi Hn. rewrite Hall, decide_False by done. by apply Hhalf.
      * rewrite owned_root. by intros g ->%elem_of_singleton.
    + intros g b Hg Hb. simpl. rewrite Hout; [by apply (Ha1 g b)|].
      clear Hsh Hcopy Hent Hall. apply (frames_apart g f b); [apply (pl_ok _ _ _ HP); by right|exact Hok|by intros ->|exact Hb].
Qed.

End drop.
