(* ===== verification/SpaceHeap.v ===== *)
(** Growing the heap of an address space: all or nothing. *)

From S2P Require Import Prelude Frame FrameProofs Paging PagingProofs Space.
Open Scope kmonad_scope.
Implicit Types (T : tree) (m : mem) (p : phys) (B : gset Z) (fl : list Z).

Section heap.
Context `{KernelHalf}.

(** * Paths *)

Lemma index_div virt k : 0 <= k -> index virt (12 + 9 * k) = (virt / 4096 / 512 ^ k) mod 512.
Proof.
  intros Hk. unfold index. change 0x1FF with (Z.ones 9). rewrite Z.land_ones, Z.shiftr_div_pow2 by lia.
  rewrite Z.div_div by lia. f_equal. f_equal. rewrite Z.pow_add_r, Z.pow_mul_r by lia. done.
Qed.

(** Two user addresses with the same path lie on the same page. *)
Lemma path_inj v w : user v -> user w -> path v = path w -> v / 4096 = w / 4096.
Proof.
  unfold user, USER_SPACE_START, USER_SPACE_END.
  change (Z.shiftl USER_PML4_FIRST 39) with (128 * 2 ^ 39). change (Z.shiftl USER_PML4_END 39) with (256 * 2 ^ 39).
  intros Hv Hw E. unfold path, table_path in E. injection E as E12 E21 E30 E39.
  change 12 with (12 + 9 * 0) in E12. change 21 with (12 + 9 * 1) in E21. change 30 with (12 + 9 * 2) in E30.
  change 39 with (12 + 9 * 3) in E39. rewrite !index_div in * by lia.
  set (x := v / 4096) in *. set (y := w / 4096) in *.
  assert (0 <= x < 512 ^ 4 /\ 0 <= y < 512 ^ 4) as [Hx Hy] by (unfold x, y; dlia).
  change (512 ^ 0) with 1 in *. change (512 ^ 1) with 512 in *. change (512 ^ 2) with (512 * 512) in *.
  change (512 ^ 3) with (512 * (512 * 512)) in *. change (512 ^ 4) with (512 * (512 * (512 * 512))) in *.
  rewrite <- !Z.div_div in * by lia. clearbody x y. dlia.
Qed.

Lemma page_apart virt j : user virt -> user (virt + j * PAGE_SIZE) -> j <> 0 -> path (virt + j * PAGE_SIZE) <> path virt.
Proof. intros Hv Hw Hj E. apply path_inj in E; [|done|done]. unfold PAGE_SIZE in *. dlia. Qed.

(** The pages [virt, virt + n * PAGE_SIZE) are user pages. *)
Definition user_pages (virt : Z) (n : nat) : Prop :=
  forall j, 0 <= j < Z.of_nat n -> user (virt + j * PAGE_SIZE).

Lemma user_pages_S virt n :
  user_pages virt (S n) -> user virt /\ user_pages (virt + PAGE_SIZE) n.
Proof.
  intros Hu. split; [specialize (Hu 0); rewrite Z.mul_0_l, Z.add_0_r in Hu; apply Hu; lia|].
  intros j Hj. replace (virt + PAGE_SIZE + j * PAGE_SIZE) with (virt + (j + 1) * PAGE_SIZE) by lia. apply Hu. lia.
Qed.

(** * Page tables first *)

Lemma reserve_tables_spec n virt p root T av B :
  Owns p root T av B -> user_pages virt n ->
  exists p' T' av' ok, reserve_tables n root virt p = (p', Ok ok) /\
    Owns p' root T' av' B /\ same_pages T T' /\ kept T B (pmem p) (pmem p') /\
    (ok = true -> forall j, 0 <= j < Z.of_nat n -> is_Some (T' !! table_path (virt + j * PAGE_SIZE))).
Proof.
  revert virt p T av. induction n as [|n IH]; intros virt p T av HO Hu.
  - exists p, T, av, true. split_and!; try done. lia.
  - destruct (user_pages_S virt n Hu) as [Hv Hrest]. cbn [reserve_tables].
    destruct (leaf_table_spec virt p root T av B HO Hv) as (p1 & T1 & av1 & r & Hrun & HO1 & Hsp & Hk & Hr).
    rewrite (kbind_Ok _ _ _ _ _ Hrun). destruct r as [t|]; [|exists p1, T1, av1, false; by split_and!].
    destruct (IH (virt + PAGE_SIZE) p1 T1 av1 HO1 Hrest) as (p2 & T2 & av2 & ok & Hrun2 & HO2 & Hsp2 & Hk2 & Hok).
    exists p2, T2, av2, ok. split; [done|]. split; [done|]. split; [by eapply same_pages_trans|].
    split; [by eapply kept_trans|]. intros Ht j Hj. destruct (decide (j = 0)) as [->|Hj0].
    + rewrite Z.mul_0_l, Z.add_0_r. destruct Hsp2 as [Hsub _]. exists t. by apply (lookup_weaken _ _ _ _ Hr Hsub).
    + specialize (Hok Ht (j - 1) ltac:(lia)).
      by replace (virt + PAGE_SIZE + (j - 1) * PAGE_SIZE) with (virt + j * PAGE_SIZE) in Hok by lia.
Qed.

(** * The chain of reserved frames *)

(** Writes to frames outside the space keep it. *)
Lemma Owns_write p root T av B m' :
  Owns p root T av B -> (forall b, m' b = pmem p b \/ exists f, f ∈ B /\ f <= b < f + PAGE_SIZE) ->
  Owns (mk_phys m' (frames p)) root T av B.
Proof.
  intros [HP HS HD] Hm. split; simpl; [| |done].
  - apply pool_write; [done|]. intros b. destruct (Hm b) as [?|(f & Hf & ?)]; [by left|]. right. exists f.
    split; [by apply elem_of_union_r|done].
  - apply Space_ext with (pmem p); [done|]. intros k t b Hk Hl Hb.
    destruct (Hm b) as [?|(f & Hf & Hfb)]; [done|]. exfalso. apply (frames_apart t f b); try done.
    + by apply (sp_table _ _ _ HS k).
    + apply (pl_ok _ _ _ HP). right. by apply elem_of_union_r.
    + intros ->. apply (HD f); [|done]. apply elem_of_owned. exists k, f. by rewrite node_frame_table.
Qed.

(** A frame held outside is none of the space's data. *)
Lemma data_frame_fresh p root T av B f g :
  Owns p root T av ({[f]} ∪ B) -> f ∉ B -> data_frame T B g -> g <> f.
Proof.
  intros HO HfB [Hg|(k & e & He & Hke & E)] ->; [done|].
  apply (ow_disj _ _ _ _ _ HO f); [|by apply elem_of_union_l, elem_of_singleton].
  apply elem_of_owned. exists k, e. split; [done|]. unfold node_frame. by rewrite decide_True.
Qed.

(** The frames [fl], chained from [head] through their first words, zero
    otherwise, and owned by nobody else. *)
Record Chain p root T av B (head : Z) fl : Prop := {
  ch_owns : Owns p root T av (list_to_set fl ∪ B);
  ch_list : free_list (pmem p) head fl;
  ch_nodup : NoDup fl;
  ch_disj f : f ∈ fl -> f ∉ B;
  ch_zero f b : f ∈ fl -> f + 8 <= b < f + PAGE_SIZE -> pmem p b = 0;
}.

Lemma chain_frame_ok p root T av B head fl f : Chain p root T av B head fl -> f ∈ fl -> frame_ok f.
Proof.
  intros HC Hf. apply (pl_ok _ _ _ (ow_pool _ _ _ _ _ (ch_owns _ _ _ _ _ _ _ HC))). right.
  apply elem_of_union_r, elem_of_union_l. by apply elem_of_list_to_set.
Qed.

(** Memory outside the head frame is all the rest of a chain depends on. *)
Lemma chain_rest p root T av B head f fl m' :
  Chain p root T av B head (f :: fl) ->
  (forall b, ~ f <= b < f + PAGE_SIZE -> m' b = pmem p b) ->
  free_list m' (read64 (pmem p) f) fl /\
  forall g b, g ∈ fl -> g <= b < g + PAGE_SIZE -> m' b = pmem p b.
Proof.
  intros HC Hm. pose proof HC as [_ [_ Hl] Hnd _ _]. apply NoDup_cons in Hnd as [Hf Hnd].
  assert (forall g b, g ∈ fl -> g <= b < g + PAGE_SIZE -> m' b = pmem p b) as Hg.
  { intros g b Hg Hb. apply Hm. apply (frames_apart g f); [| |by intros ->|done].
    - by apply (chain_frame_ok _ _ _ _ _ _ _ g HC); right.
    - by apply (chain_frame_ok _ _ _ _ _ _ _ f HC); left. }
  split; [|done]. apply free_list_ext with (pmem p); [done|]. intros g b Hgl Hb. apply (Hg g); [done|].
  unfold PAGE_SIZE. lia.
Qed.

Lemma release_frames_spec n p root T av B head fl :
  Chain p root T av B head fl -> (length fl <= n)%nat ->
  exists p' av', release_frames n head p = (p', Ok tt) /\ Owns p' root T av' B /\ kept T B (pmem p) (pmem p').
Proof.
  revert p av head fl. induction n as [|n IH]; intros p av head [|f fl] HC Hn; simpl in Hn; try lia.
  - pose proof (ch_list _ _ _ _ _ _ _ HC) as Hz. simpl in Hz. subst head. exists p, av. split; [done|].
    split; [|done]. pose proof (ch_owns _ _ _ _ _ _ _ HC) as HO. simpl in HO. by rewrite (left_id_L ∅ (∪)) in HO.
  - pose proof (ch_list _ _ _ _ _ _ _ HC) as Hz. simpl in Hz. subst head. exists p, av. split; [done|].
    split; [|done]. pose proof (ch_owns _ _ _ _ _ _ _ HC) as HO. simpl in HO. by rewrite (left_id_L ∅ (∪)) in HO.
  - pose proof (chain_frame_ok _ _ _ _ _ _ _ f HC ltac:(left)) as Hfok.
    pose proof HC as [HO [Hh Hl] Hnd Hd Hz]. subst head. apply NoDup_cons in Hnd as [Hf Hnd].
    cbn [release_frames]. destruct (Z.eqb_spec f 0); [unfold frame_ok in Hfok; lia|].
    rewrite (kbind_Ok _ _ p p (read64 (pmem p) f) eq_refl).
    simpl list_to_set in HO. rewrite <- (assoc_L (∪)) in HO.
    assert (f ∉ list_to_set fl ∪ B) as HfB.
    { rewrite elem_of_union, elem_of_list_to_set. intros [?|?]; [done|]. apply (Hd f); [left|done]. }
    destruct (pfree_Owns p root T av _ f HO HfB) as [HO1 Hm].
    rewrite (kbind_Ok (pfree f) _ p (free_frame p f) tt eq_refl).
    destruct (chain_rest _ _ _ _ _ _ _ _ (pmem (free_frame p f)) HC Hm) as [Hl1 Hg].
    destruct (IH (free_frame p f) (f :: av) (read64 (pmem p) f) fl) as (p' & av' & Hrun & HO' & Hk); [|lia|].
    + split; try done.
      * intros g Hgl. apply Hd. by right.
      * intros g b Hgl Hb. rewrite (Hg g b Hgl) by lia. apply (Hz g); [by right|done].
    + exists p', av'. split; [done|]. split; [done|]. apply kept_trans with T (pmem (free_frame p f)); [done| |done].
      intros g b Hgd Hb. apply Hm. apply (frames_apart g f); [by apply (data_frame_ok p' root T av' B)|done| |done].
      intros ->. apply (data_frame_fresh p root T av (list_to_set fl ∪ B) f f); try done.
      destruct Hgd as [?|?]; [left; by apply elem_of_union_r|by right].
Qed.

(** Chaining one more frame. *)
Lemma chain_push p root T av B head f fl p1 :
  Chain p root T (f :: av) B head fl -> (f ∉ owned T ∪ (list_to_set fl ∪ B)) -> frame_ok f ->
  Owns p1 root T av ({[f]} ∪ (list_to_set fl ∪ B)) -> pmem p1 = zero_page (pmem p) f ->
  Chain (mk_phys (write64 (pmem p1) f head) (frames p1)) root T av B f (f :: fl).
Proof.
  intros HC Hnew Hfok HO1 Hm. pose proof HC as [HO Hl Hnd Hd Hz].
  rewrite !elem_of_union, elem_of_list_to_set in Hnew.
  assert (0 <= head < 2 ^ 64) as Hhead.
  { destruct fl as [|g fl]; simpl in Hl; [lia|]. destruct Hl as [-> _].
    pose proof (chain_frame_ok _ _ _ _ _ _ _ g HC ltac:(left)) as [? _]. lia. }
  assert (forall g b, g ∈ fl -> g <= b < g + PAGE_SIZE -> ~ f <= b < f + PAGE_SIZE) as Hout.
  { intros g b Hg Hb. apply (frames_apart g f); [|done|intros ->; tauto|done].
    by apply (chain_frame_ok _ _ _ _ _ _ _ g HC). }
  split.
  - simpl list_to_set. rewrite <- (assoc_L (∪)). apply Owns_write; [done|]. intros b.
    destruct (decide (f <= b < f + PAGE_SIZE)).
    + right. exists f. split; [by apply elem_of_union_l, elem_of_singleton|done].
    + left. apply write64_other. unfold PAGE_SIZE in *. lia.
  - split; [done|]. simpl pmem. rewrite read64_write64 by done.
    apply free_list_ext with (pmem p); [done|]. intros g b Hg Hb. specialize (Hout g b Hg). unfold PAGE_SIZE in Hout.
    rewrite write64_other, Hm by lia. apply zero_page_other. unfold PAGE_SIZE. lia.
  - apply NoDup_cons. split; [tauto|done].
  - intros g [->|Hg]%elem_of_cons; [tauto|by apply Hd].
  - intros g b [->|Hg]%elem_of_cons Hb; simpl.
    + rewrite write64_other, Hm by lia. unfold zero_page. zcase; simpl; lia || done.
    + specialize (Hout g b Hg). rewrite write64_other, Hm by (unfold PAGE_SIZE in *; lia).
      rewrite zero_page_other by (unfold PAGE_SIZE in *; lia). by apply (Hz g).
Qed.

Lemma reserve_frames_spec n p root T av B head fl :
  Chain p root T av B head fl ->
  exists p' av' r, reserve_frames n (length fl) head p = (p', Ok r) /\ kept T B (pmem p) (pmem p') /\
    match r with
    | Some head' => exists fl', Chain p' root T av' B head' fl' /\ length fl' = (n + length fl)%nat
    | None => Owns p' root T av' B
    end.
Proof.
  revert p av head fl. induction n as [|n IH]; intros p av head fl HC.
  - exists p, av, (Some head). split; [done|]. split; [done|]. by exists fl.
  - cbn [reserve_frames]. pose proof HC as [HO Hl Hnd Hd Hz].
    pose proof (palloc_spec p root T av _ HO) as Ha. destruct av as [|f av].
    + destruct Ha as (p1 & Hrun & HO1 & Hm). rewrite (kbind_Ok _ _ _ _ _ Hrun).
      destruct (release_frames_spec (length fl) p1 root T [] B head fl) as (p2 & av2 & Hrun2 & HO2 & Hk2); [|done|].
      { split; try done; by rewrite Hm. }
      exists p2, av2, None. rewrite (kbind_Ok _ _ _ _ _ Hrun2). split; [done|]. split; [|done]. by rewrite <- Hm.
    + destruct Ha as (p1 & Hrun & HO1 & Hm & Hnew & Hfok). rewrite (kbind_Ok _ _ _ _ _ Hrun).
      pose proof (chain_push p root T av B head f fl p1 HC Hnew Hfok HO1 Hm) as HC1.
      rewrite kbind_modify. set (p2 := mk_phys (write64 (pmem p1) f head) (frames p1)) in *.
      destruct (IH p2 av f (f :: fl) HC1) as (p3 & av3 & r & Hrun3 & Hk3 & Hr).
      exists p3, av3, r. split; [done|]. split.
      * apply kept_trans with T (pmem p2); [done| |done]. intros g b Hg Hb.
        assert (~ f <= b < f + PAGE_SIZE) as Hout.
        { apply (frames_apart g f); [|done| |done].
          - apply (data_frame_ok p root T (f :: av) _ g HO). destruct Hg as [?|?]; [left; by apply elem_of_union_r|by right].
          - apply (data_frame_fresh p1 root T av (list_to_set fl ∪ B) f g); [done| |].
            + intros Hin. apply Hnew. by apply elem_of_union_r.
            + destruct Hg as [?|?]; [left; by apply elem_of_union_r|by right]. }
        simpl. rewrite write64_other, Hm by (unfold PAGE_SIZE in *; lia). by apply zero_page_other.
      * destruct r as [h|]; [|done]. destruct Hr as (fl' & HC' & Hlen). exists fl'. split; [done|]. simpl in Hlen. lia.
Qed.

(** * Mapping the frames *)

Lemma heap_flags_ok f :
  frame_ok f -> leaf_ok (Z.lor f HEAP_FLAGS) /\ Z.land (Z.lor f HEAP_FLAGS) ADDRESS_MASK = f.
Proof. intros Hf. by apply leaf_entry. Qed.

(** Clearing the link of a frame leaves a zero page. *)
Lemma clear_link m f b :
  (forall b, f + 8 <= b < f + PAGE_SIZE -> m b = 0) -> f <= b < f + PAGE_SIZE -> write64 m f 0 b = 0.
Proof.
  intros Hz Hb. destruct (decide (b < f + 8)) as [Hlt|Hge].
  - unfold write64, store. change (le_bytes 8 0) with (zeros 8). change (zlen (zeros 8)) with 8.
    rewrite byte_at_zeros. zcase; simpl; lia || done.
  - rewrite write64_other by lia. apply Hz. lia.
Qed.

(** The pages of [T'] are those of [T] and new zero pages at
    [virt, virt + n * PAGE_SIZE). *)
Record grown p' T T' (virt : Z) (n : nat) : Prop := {
  gr_new j : 0 <= j < Z.of_nat n ->
    exists f, T' !! path (virt + j * PAGE_SIZE) = Some (Z.lor f HEAP_FLAGS) /\ frame_ok f /\
      forall b, f <= b < f + PAGE_SIZE -> pmem p' b = 0;
  gr_old k : length k = 4%nat -> (forall j, 0 <= j < Z.of_nat n -> k <> path (virt + j * PAGE_SIZE)) ->
    T' !! k = T !! k;
}.

(** Clearing the link of the first frame of a chain. *)
Lemma chain_pop p root T av B f fl :
  Chain p root T av B f (f :: fl) ->
  let p1 := mk_phys (write64 (pmem p) f 0) (frames p) in
  Owns p1 root T av ({[f]} ∪ (list_to_set fl ∪ B)) /\ (f ∉ list_to_set fl ∪ B) /\
  (forall b, f <= b < f + PAGE_SIZE -> pmem p1 b = 0) /\
  (forall b, ~ f <= b < f + PAGE_SIZE -> pmem p1 b = pmem p b).
Proof.
  intros [HO _ Hnd Hd Hz] p1. apply NoDup_cons in Hnd as [Hf Hnd].
  assert (forall b, ~ f <= b < f + PAGE_SIZE -> pmem p1 b = pmem p b) as Hm1
    by (intros b Hb; apply write64_other; unfold PAGE_SIZE in *; lia).
  simpl list_to_set in HO. rewrite <- (assoc_L (∪)) in HO. split_and!; [| | |done].
  - apply Owns_write; [done|]. intros b. destruct (decide (f <= b < f + PAGE_SIZE)); [|left; by apply Hm1].
    right. exists f. split; [by apply elem_of_union_l, elem_of_singleton|done].
  - rewrite elem_of_union, elem_of_list_to_set. intros [?|?]; [done|]. apply (Hd f); [left|done].
  - intros b Hb. apply clear_link; [|done]. intros c Hc. apply (Hz f); [left|done].
Qed.

Lemma data_frame_more T B B' f : data_frame T B f -> data_frame T (B' ∪ B) f.
Proof. intros [?|?]; [left; by apply elem_of_union_r|by right]. Qed.

(** Mapping the first frame of a chain at [virt]. *)
Lemma map_one p root T av B f fl virt :
  Chain p root T av B f (f :: fl) -> user virt ->
  is_Some (T !! table_path virt) -> T !! path virt = None ->
  exists p' T' av',
    space_map root virt (Z.lor f HEAP_FLAGS) (mk_phys (write64 (pmem p) f 0) (frames p)) = (p', Ok true) /\
    same_pages T T' /\ kept T B (pmem p) (pmem p') /\
    Chain p' root (<[path virt := Z.lor f HEAP_FLAGS]> T') av' B (read64 (pmem p) f) fl /\
    forall b, f <= b < f + PAGE_SIZE -> pmem p' b = 0.
Proof.
  intros HC Hv Htab Hfree. pose proof (chain_frame_ok _ _ _ _ _ _ _ f HC ltac:(left)) as Hfok.
  destruct (chain_pop _ _ _ _ _ _ _ HC) as (HO1 & HfB & Hzero & Hm1).
  set (p1 := mk_phys (write64 (pmem p) f 0) (frames p)) in *.
  destruct (chain_rest _ _ _ _ _ _ _ _ (pmem p1) HC Hm1) as [Hl1 Hg1].
  pose proof HC as [_ _ Hnd Hd Hz]. apply NoDup_cons in Hnd as [_ Hnd].
  destruct (heap_flags_ok f Hfok) as [Hleaf Hmask].
  destruct (space_map_spec virt _ f p1 root T av _ HO1 HfB Hleaf Hmask)
    as (p2 & T2 & av2 & ok & Hrun & Hsp & Hk2 & Hok).
  destruct ok; cycle 1.
  { destruct Hok as [_ Hwhy]. destruct Htab. destruct (Hwhy Hv) as [[? ?]|[_ ?]]; congruence. }
  destruct Hok as (_ & _ & HO2). exists p2, T2, av2. split; [done|]. split; [done|].
  assert (forall g b, g ∈ fl -> g <= b < g + PAGE_SIZE -> pmem p2 b = pmem p1 b) as Hg2.
  { intros g b Hg Hb. apply (Hk2 g b); [|done]. left. apply elem_of_union_r, elem_of_union_l.
    by apply elem_of_list_to_set. }
  split; [|split].
  - intros g b Hg Hb. rewrite (Hk2 g b) by (done || by do 2 apply data_frame_more).
    apply Hm1. apply (frames_apart g f); [|done| |done].
    + apply (data_frame_ok p1 root T av _ g HO1). by do 2 apply data_frame_more.
    + apply (data_frame_fresh p1 root T av _ f g HO1 HfB). by apply data_frame_more.
  - split; try done.
    + apply free_list_ext with (pmem p1); [done|]. intros g b Hg Hb. apply (Hg2 g); [done|unfold PAGE_SIZE; lia].
    + intros g Hg. apply Hd. by right.
    + intros g b Hg Hb. rewrite (Hg2 g b), (Hg1 g b) by (done || lia). apply (Hz g); [by right|done].
  - intros b Hb. rewrite (Hk2 f b); [by apply Hzero|left; by apply elem_of_union_l, elem_of_singleton|done].
Qed.

(** One more page in front of grown ones. *)
Lemma grown_cons p p' T T2 T' f virt n B :
  user_pages virt (S n) -> same_pages T T2 -> T !! path virt = None -> frame_ok f ->
  (forall b, f <= b < f + PAGE_SIZE -> pmem p b = 0) ->
  kept (<[path virt := Z.lor f HEAP_FLAGS]> T2) B (pmem p) (pmem p') ->
  grown p' (<[path virt := Z.lor f HEAP_FLAGS]> T2) T' (virt + PAGE_SIZE) n -> grown p' T T' virt (S n).
Proof.
  intros Hu [_ Hsp] Hfree Hfok Hzero Hk [Hnew Hold].
  assert (forall j, (virt + PAGE_SIZE) + j * PAGE_SIZE = virt + (j + 1) * PAGE_SIZE) as Hshift by (intros; lia).
  destruct (user_pages_S virt n Hu) as [Hv _]. split.
  - intros j Hj. destruct (decide (j = 0)) as [->|Hj0].
    + rewrite Z.mul_0_l, Z.add_0_r. exists f. split; [|split; [done|]].
      * rewrite Hold; [apply lookup_insert_eq|done|]. intros j Hj'. rewrite Hshift. intros E.
        symmetry in E. revert E. apply page_apart; [done|apply Hu; lia|lia].
      * intros b Hb. rewrite (Hk f b); [by apply Hzero| |done]. right.
        exists (path virt), (Z.lor f HEAP_FLAGS). split; [apply lookup_insert_eq|]. split; [done|].
        symmetry. by apply heap_flags_ok.
    + destruct (Hnew (j - 1) ltac:(lia)) as (g & Hg & Hrest'). exists g. rewrite Hshift in Hg.
      by replace (j - 1 + 1) with j in Hg by lia.
  - intros k Hk4 Hne. rewrite Hold; [|done|intros j Hj; rewrite Hshift; apply Hne; lia].
    rewrite lookup_insert_ne; [by apply Hsp|].
    intros <-. apply (Hne 0 ltac:(lia)). by rewrite Z.mul_0_l, Z.add_0_r.
Qed.

Lemma map_frames_spec n virt p root T av B head fl :
  Chain p root T av B head fl -> length fl = n -> user_pages virt n ->
  (forall j, 0 <= j < Z.of_nat n -> is_Some (T !! table_path (virt + j * PAGE_SIZE))) ->
  (forall j, 0 <= j < Z.of_nat n -> T !! path (virt + j * PAGE_SIZE) = None) ->
  exists p' T' av', map_frames n root virt head p = (p', Ok tt) /\
    Owns p' root T' av' B /\ kept T B (pmem p) (pmem p') /\ grown p' T T' virt n.
Proof.
  revert virt p T av head fl. induction n as [|n IH]; intros virt p T av head [|f fl] HC Hlen Hu Htab Hfree; try done.
  - exists p, T, av. pose proof (ch_owns _ _ _ _ _ _ _ HC) as HO. simpl in HO. rewrite (left_id_L ∅ (∪)) in HO.
    split; [done|]. split; [done|]. split; [done|]. split; [lia|done].
  - destruct (user_pages_S virt n Hu) as [Hv Hrest]. cbn [map_frames].
    pose proof (ch_list _ _ _ _ _ _ _ HC) as [-> _].
    pose proof (Htab 0 ltac:(lia)) as Htab0. pose proof (Hfree 0 ltac:(lia)) as Hfree0.
    rewrite Z.mul_0_l, Z.add_0_r in Htab0, Hfree0.
    destruct (map_one p root T av B f fl virt HC Hv Htab0 Hfree0) as (p2 & T2 & av2 & Hrun & Hsp & Hk2 & HC2 & Hz2).
    rewrite (kbind_Ok _ _ p p (read64 (pmem p) f) eq_refl), kbind_modify, (kbind_Ok _ _ _ _ _ Hrun). cbn [negb].
    assert (forall j, (virt + PAGE_SIZE) + j * PAGE_SIZE = virt + (j + 1) * PAGE_SIZE) as Hshift by (intros; lia).
    destruct (IH (virt + PAGE_SIZE) p2 _ av2 _ fl HC2) as (p' & T' & av' & Hrun' & HO' & Hk' & Hgr).
    + simpl in Hlen. lia.
    + done.
    + intros j Hj. rewrite Hshift. destruct (Htab (j + 1) ltac:(lia)) as [t Ht]. exists t.
      rewrite lookup_insert_ne by done. destruct Hsp as [Hsub _]. by apply (lookup_weaken _ _ _ _ Ht Hsub).
    + intros j Hj. rewrite Hshift, lookup_insert_ne.
      * destruct Hsp as [_ Hsp]. rewrite Hsp by done. apply Hfree. lia.
      * intros E. symmetry in E. revert E. apply page_apart; [done|apply Hu; lia|lia].
    + exists p', T', av'. split; [done|]. split; [done|]. split.
      * intros g b Hg Hb. rewrite (Hk' g b); [by apply (Hk2 g b)| |done].
        destruct Hg as [?|(k & x & Hx & Hk & ->)]; [by left|right]. exists k, x. split; [|done].
        destruct Hsp as [_ Hsp]. rewrite lookup_insert_ne by (intros <-; congruence). by rewrite Hsp.
      * apply (grown_cons p2 p' T T2 T' f virt n B); try done.
        by apply (chain_frame_ok _ _ _ _ _ _ _ f HC); left.
Qed.

(** * Growing *)

Definition round_up (bytes : Z) : Z := (bytes + PAGE_SIZE - 1) / PAGE_SIZE * PAGE_SIZE.

Lemma heap_target_spec old bytes :
  0 <= bytes <= u64_max -> 0 <= old ->
  heap_target old bytes =
    if decide (old + round_up bytes <= USER_HEAP_LIMIT) then Some (old + round_up bytes) else None.
Proof.
  intros Hb Ho. unfold heap_target, checked_add64, round_up, page_of.
  assert (USER_HEAP_LIMIT <= u64_max - 4096) as Hlim by done. unfold PAGE_SIZE in *.
  assert ((bytes + (4096 - 1)) - (bytes + (4096 - 1)) mod 4096 = (bytes + 4096 - 1) / 4096 * 4096) as Hr.
  { replace (bytes + (4096 - 1)) with (bytes + 4096 - 1) by lia. dlia. }
  set (r := (bytes + 4096 - 1) / 4096 * 4096) in *. assert (bytes <= r < bytes + 4096) by (unfold r; dlia).
  clearbody r. destruct (Z.leb_spec (bytes + (4096 - 1)) u64_max); [rewrite Hr|case_decide; [lia|done]].
  zcase; case_decide; try done; lia.
Qed.

(** The heap of [sp] is page-aligned and nothing is mapped behind its end. *)
Record heap_ok (sp : AddressSpace) T : Prop := {
  hp_range : USER_HEAP_BASE <= heap_end sp <= USER_HEAP_LIMIT;
  hp_align : heap_end sp mod PAGE_SIZE = 0;
  hp_free v : heap_end sp <= v < USER_HEAP_LIMIT -> T !! path v = None;
}.

Lemma heap_user v : USER_HEAP_BASE <= v < USER_HEAP_LIMIT -> user v.
Proof.
  unfold user. change USER_HEAP_BASE with 123145302310912. change USER_HEAP_LIMIT with 123145570746368.
  change USER_SPACE_START with 70368744177664. change USER_SPACE_END with 140737488355328. lia.
Qed.

Lemma heap_user_pages sp T n :
  heap_ok sp T -> heap_end sp + Z.of_nat n * PAGE_SIZE <= USER_HEAP_LIMIT -> user_pages (heap_end sp) n.
Proof. intros [Hr _ _] Hn j Hj. apply heap_user. unfold PAGE_SIZE in *. lia. Qed.

Lemma grown_heap_ok p' sp T T' n :
  heap_ok sp T -> heap_end sp + Z.of_nat n * PAGE_SIZE <= USER_HEAP_LIMIT ->
  grown p' T T' (heap_end sp) n ->
  heap_ok (mk_space (pml4 sp) (heap_end sp + Z.of_nat n * PAGE_SIZE)) T'.
Proof.
  intros [Hr Ha Hf] Hn [_ Hold]. split; simpl.
  - unfold PAGE_SIZE in *. lia.
  - by rewrite Z.mod_add.
  - intros v Hv. rewrite Hold; [apply Hf; unfold PAGE_SIZE in *; lia|done|].
    intros j Hj E. apply path_inj in E; [|apply heap_user; unfold PAGE_SIZE in *; lia..].
    unfold PAGE_SIZE in *. dlia.
Qed.

Lemma grow_heap_spec sp bytes p T av B :
  Owns p (pml4 sp) T av B -> heap_ok sp T -> 0 <= bytes <= u64_max ->
  exists p' T' av' sp' r, grow_heap sp bytes p = (p', Ok (sp', r)) /\
    Owns p' (pml4 sp) T' av' B /\ heap_ok sp' T' /\ pml4 sp' = pml4 sp /\ kept T B (pmem p) (pmem p') /\
    match r with
    | Some old => old = heap_end sp /\ heap_end sp' = old + round_up bytes /\
        grown p' T T' old (Z.to_nat (round_up bytes / PAGE_SIZE))
    | None => sp' = sp /\ same_pages T T'
    end.
Proof.
  intros HO HH Hb. pose proof HH as [Hr Ha Hf]. unfold grow_heap.
  rewrite heap_target_spec by (done || (unfold USER_HEAP_BASE in Hr; lia)).
  case_decide as Hfit.
  2: { exists p, T, av, sp, None. by split_and!. }
  assert (0 <= round_up bytes /\ round_up bytes / PAGE_SIZE * PAGE_SIZE = round_up bytes) as [Hru Hmul].
  { unfold round_up, PAGE_SIZE. rewrite Z.div_mul by lia. split; [|done]. dlia. }
  replace (heap_end sp + round_up bytes - heap_end sp) with (round_up bytes) by lia.
  set (n := Z.to_nat (round_up bytes / PAGE_SIZE)).
  assert (Z.of_nat n * PAGE_SIZE = round_up bytes) as Hn by (unfold n, PAGE_SIZE in *; lia).
  assert (user_pages (heap_end sp) n) as Hu by (apply (heap_user_pages sp T n HH); lia).
  destruct (reserve_tables_spec n (heap_end sp) p (pml4 sp) T av B HO Hu)
    as (p1 & T1 & av1 & ok & Hrun1 & HO1 & Hsp & Hk1 & Htab). rewrite (kbind_Ok _ _ _ _ _ Hrun1).
  assert (forall v, T1 !! path v = T !! path v) as Hpath by (intros v; by apply Hsp).
  assert (heap_ok sp T1) as HH1 by (split; [done|done|]; intros v Hv; rewrite Hpath; by apply Hf).
  destruct ok; cbn [negb]; [|by exists p1, T1, av1, sp, None].
  assert (Chain p1 (pml4 sp) T1 av1 B 0 []) as HC.
  { split; [simpl list_to_set; by rewrite (left_id_L ∅ (∪))|done|constructor|..]; intros *; rewrite elem_of_nil; done. }
  destruct (reserve_frames_spec n p1 (pml4 sp) T1 av1 B 0 [] HC) as (p2 & av2 & r & Hrun2 & Hk2 & Hres).
  cbn [length] in Hrun2. rewrite (kbind_Ok _ _ _ _ _ Hrun2).
  assert (kept T B (pmem p) (pmem p2)) as Hk12 by (by apply (kept_trans T T1 B (pmem p) (pmem p1))).
  destruct r as [head|]; [|by exists p2, T1, av2, sp, None].
  destruct Hres as (fl & HC2 & Hlen). rewrite Nat.add_0_r in Hlen.
  destruct (map_frames_spec n (heap_end sp) p2 (pml4 sp) T1 av2 B head fl HC2 Hlen Hu) as (p3 & T3 & av3 & Hrun3 & HO3 & Hk3 & Hgr).
  { by apply Htab. }
  { intros j Hj. apply HH1. unfold PAGE_SIZE in *. lia. }
  rewrite (kbind_Ok _ _ _ _ _ Hrun3).
  exists p3, T3, av3, (mk_space (pml4 sp) (heap_end sp + round_up bytes)), (Some (heap_end sp)).
  split; [done|]. split; [done|]. split; [rewrite <- Hn; apply (grown_heap_ok p3 sp T1 T3 n); [done|lia|done]|].
  split; [done|]. split; [by apply (kept_trans T T1 B (pmem p) (pmem p2))|]. split; [done|]. split; [done|].
  destruct Hgr as [Hnew Hold]. split; [done|]. intros k Hk Hne. rewrite Hold by done. by apply Hsp.
Qed.

End heap.
