(* ===== verification/SpaceTheorems.v ===== *)
(** What an address space promises the loader, the scheduler and the system
    calls. *)

From S2P Require Import Prelude Frame FrameProofs Paging PagingProofs Space SpaceDrop SpaceHeap.
Open Scope kmonad_scope.
Implicit Types (T : tree) (m : mem) (p : phys) (B : gset Z).

Section theorems.
Context `{KernelHalf}.

(** * Lookups by the hardware's walk *)

Definition USER_BITS : Z := Z.lor PAGE_PRESENT PAGE_USER.

Lemma table_bits f : frame_ok f ->
  let e := Z.lor f TABLE_FLAGS in Z.land e USER_BITS = USER_BITS /\ Z.land e (Z.shiftl 1 7) = 0.
Proof.
  intros Hf e. unfold e. split; rewrite Z.land_lor_distr_l, land_low_frame;
    (reflexivity || done || (vm_compute; split; [discriminate|reflexivity])).
Qed.

(** The walk through one table. *)
Lemma walk_table m root T k t virt shift rest :
  Space m root T -> T !! k = Some t -> (length k <= 2)%nat -> idx_ok k (index virt shift) -> shift <> 12 ->
  present_walk m t virt USER_BITS (shift :: rest) =
    match T !! (index virt shift :: k) with
    | Some t' => present_walk m t' virt USER_BITS rest
    | None => false
    end.
Proof.
  intros HS Hk Hl Hi Hsh. cbn [present_walk]. fold (index virt shift). unfold index at 1.
  change (Z.land (Z.shiftr virt shift) 511) with (index virt shift).
  rewrite (sp_entry _ _ _ HS k t) by (done || lia). destruct (T !! (index virt shift :: k)) as [t'|] eqn:E; [|done].
  rewrite decide_False by lia.
  assert (frame_ok t') as Hf by (apply (sp_table _ _ _ HS _ t' E); simpl; lia).
  destruct (table_bits t' Hf) as [-> ->]. destruct (table_entry t' Hf) as (_ & _ & -> & _).
  destruct (Z.eqb_spec shift 12); [done|]. done.
Qed.

Lemma page_present_tree m root T virt :
  Space m root T -> user virt ->
  page_present m root virt USER_BITS =
    match T !! path virt with Some e => Z.land e USER_BITS =? USER_BITS | None => false end.
Proof.
  intros HS Hu. unfold page_present.
  assert (forall k x, T !! k = None -> forall pre, T !! (pre ++ k) = Some x -> False) as Hanc.
  { intros k x Hk pre Hx. destruct (sp_ancestor _ _ _ _ _ _ HS Hx). congruence. }
  assert (forall pre k, T !! k = None -> T !! (pre ++ k) = None) as Hnone.
  { intros pre k Hk. destruct (T !! (pre ++ k)) as [x|] eqn:E; [|done]. by destruct (Hanc k x Hk pre). }
  rewrite (walk_table m root T [] root) by
    (done || (simpl; lia) || apply (sp_root _ _ _ HS) || (split; [apply index_range|intros _; by apply index_user])).
  destruct (T !! [index virt 39]) as [t1|] eqn:E1; [|by rewrite (Hnone [index virt 12; index virt 21; index virt 30] _ E1 : T !! path virt = None)].
  rewrite (walk_table m root T _ t1) by (done || (simpl; lia) || (split; [apply index_range|done])).
  destruct (T !! [index virt 30; index virt 39]) as [t2|] eqn:E2; [|by rewrite (Hnone [index virt 12; index virt 21] _ E2 : T !! path virt = None)].
  rewrite (walk_table m root T _ t2) by (done || (simpl; lia) || (split; [apply index_range|done])).
  fold (table_path virt). destruct (T !! table_path virt) as [t3|] eqn:E3; [|by rewrite (Hnone [index virt 12] _ E3 : T !! path virt = None)].
  cbn [present_walk]. change (Z.land (Z.shiftr virt 12) 511) with (index virt 12).
  rewrite (sp_entry _ _ _ HS (table_path virt) t3) by (done || (simpl; lia) || (split; [apply index_range|done])).
  fold (path virt). destruct (T !! path virt) as [e|]; [|done]. simpl. by destruct (Z.land e USER_BITS =? USER_BITS).
Qed.

(** * Theorems *)

(** [map_new_page] on a space whose pages are those of the tree [T].  A
    success maps a zeroed frame that nobody used, at an address in the user
    half that was unmapped, with exactly the requested permissions; a failure
    maps nothing.  In both cases all other pages keep their mapping and their
    contents, and the frames in use are those of the space and of the others. *)
Theorem map_new_page_correct virt w x p root T av B :
  Owns p root T av B ->
  exists p' T' av' r, map_new_page root virt w x p = (p', Ok r) /\
    same_pages T T' /\ kept T B (pmem p) (pmem p') /\
    match r with
    | Some f => user virt /\ T !! path virt = None /\ frame_ok f /\
        Owns p' root (<[path virt := Z.lor f (page_flags w x)]> T') av' B /\
        forall b, f <= b < f + PAGE_SIZE -> pmem p' b = 0
    | None => Owns p' root T' av' B /\
        (user virt -> T !! path virt = None -> exists f, av' = [] \/ av' = [f])
    end.
Proof. apply map_new_page_spec. Qed.

(** C31: [grow_heap] is all or nothing.  It either extends the heap by the
    requested number of bytes, rounded up to pages, each new page zeroed,
    writable and not executable, or leaves the heap and every mapping as they
    were, having given back all frames it had reserved; it never exceeds the
    heap limit and keeps the contents of all pages. *)
Theorem grow_heap_correct sp bytes p T av B :
  Owns p (pml4 sp) T av B -> heap_ok sp T -> 0 <= bytes <= u64_max ->
  exists p' T' av' sp' r, grow_heap sp bytes p = (p', Ok (sp', r)) /\
    Owns p' (pml4 sp) T' av' B /\ heap_ok sp' T' /\ pml4 sp' = pml4 sp /\ kept T B (pmem p) (pmem p') /\
    match r with
    | Some old => old = heap_end sp /\ heap_end sp' = old + round_up bytes /\
        grown p' T T' old (Z.to_nat (round_up bytes / PAGE_SIZE))
    | None => sp' = sp /\ same_pages T T'
    end.
Proof. apply grow_heap_spec. Qed.

(** C30: Dropping an address space gives back every frame it owns, page tables
    and pages, exactly once: afterwards the frames in use are those of the
    others, [in_use] counts them, and their contents are unchanged. *)
Theorem space_drop_correct p sp T av B :
  Owns p (pml4 sp) T av B ->
  exists p' av', space_drop sp p = (p', Ok tt) /\ Pool p' av' B /\
    frames_in_use p' = Z.of_nat (size B) /\ agree B (pmem p) (pmem p').
Proof.
  intros HO. destruct (space_drop_spec p sp T av B HO) as (p' & av' & Hrun & HP & Ha).
  exists p', av'. split_and!; try done. apply HP.
Qed.

(** [AddressSpace::new] takes one frame, makes it a table that shares the
    kernel's slots and maps nothing in the user half, and changes no other
    frame in use; it fails only when no frame is available. *)
Theorem space_new_correct p av B kernel :
  Pool p av B -> kernel ∈ B -> words_ok (pmem p) kernel -> kernel_half (pmem p) kernel ->
  match av with
  | [] => exists p', space_new kernel p = (p', Ok None) /\ Pool p' [] B /\ pmem p' = pmem p
  | f :: av' => exists p', space_new kernel p = (p', Ok (Some (mk_space f USER_HEAP_BASE))) /\
      Owns p' f {[ [] := f ]} av' B /\ agree B (pmem p) (pmem p') /\
      forall i, 0 <= i < 512 ->
        entry (pmem p') f i = if decide (128 <= i < 256) then 0 else entry (pmem p) kernel i
  end.
Proof. apply space_new_spec. Qed.

(** The check the system calls make of a user page agrees with the tree of
    mappings: a page of the user half is accepted exactly when it is mapped
    with the user bit. *)
Theorem page_present_correct m root T virt :
  Space m root T -> user virt ->
  page_present m root virt USER_BITS =
    match T !! path virt with Some e => Z.land e USER_BITS =? USER_BITS | None => false end.
Proof. apply page_present_tree. Qed.

End theorems.

(** ** Witnesses: the kernel table in the first frame of a small memory. *)

(** The demonstration kernel maps nothing. *)
Definition empty_half : KernelHalf := fun _ => 0.
#[local] Existing Instance empty_half.

Definition mem0 : mem := fun _ => 0.
Definition boot_pool : phys :=
  commit_frame_allocator (mk_phys mem0 frames_init) (mk_fa [mk_desc 7 0x1000 40] 0 0).
Definition kernel_pool : phys := (alloc_frame boot_pool).1.

Lemma small_map_ok : map_ok [mk_desc 7 0x1000 40].
Proof. split; repeat constructor; unfold region_end, PAGE_SIZE; simpl; lia. Qed.

Lemma kernel_pool_Pool : Pool kernel_pool (tail (future (mk_fa [mk_desc 7 0x1000 40] 0 0))) {[0x1000]}.
Proof.
  assert (Pool boot_pool (future (mk_fa [mk_desc 7 0x1000 40] 0 0)) ∅) as HP
    by (apply commit_Pool; [apply small_map_ok|done]).
  destruct (alloc_frame_spec boot_pool _ _ HP) as (p' & Hrun & HP' & _).
  unfold kernel_pool. rewrite Hrun. by rewrite (right_id_L ∅ (∪)) in HP'.
Qed.

Lemma kernel_mem_ok : mem_ok (pmem kernel_pool).
Proof. change (pmem kernel_pool) with (zero_page mem0 0x1000). apply zero_page_ok. intros a. by vm_compute. Qed.

Lemma kernel_pool_half : kernel_half (pmem kernel_pool) 0x1000.
Proof.
  intros i Hi _. change (pmem kernel_pool) with (zero_page mem0 0x1000). apply read64_zero; unfold PAGE_SIZE; lia.
Qed.

Lemma space_new_correct_witness :
  exists p', space_new 0x1000 kernel_pool = (p', Ok (Some (mk_space 0x2000 USER_HEAP_BASE))) /\
    Owns p' 0x2000 {[ [] := 0x2000 ]} (tail (tail (future (mk_fa [mk_desc 7 0x1000 40] 0 0)))) {[0x1000]} /\
    agree {[0x1000]} (pmem kernel_pool) (pmem p') /\
    forall i, 0 <= i < 512 ->
      entry (pmem p') 0x2000 i = if decide (128 <= i < 256) then 0 else entry (pmem kernel_pool) 0x1000 i.
Proof.
  apply (space_new_correct kernel_pool (tail (future (mk_fa [mk_desc 7 0x1000 40] 0 0))) {[0x1000]} 0x1000
    kernel_pool_Pool); [by apply elem_of_singleton|apply mem_words_ok, kernel_mem_ok|apply kernel_pool_half].
Defined.

(** A new space in that pool. *)
Definition new_pool : phys := (space_new 0x1000 kernel_pool).1.
Definition new_space : AddressSpace := mk_space 0x2000 USER_HEAP_BASE.
Definition new_av : list Z := tail (tail (future (mk_fa [mk_desc 7 0x1000 40] 0 0))).

Lemma new_Owns : Owns new_pool (pml4 new_space) {[ [] := 0x2000 ]} new_av {[0x1000]}.
Proof.
  destruct (space_new_spec kernel_pool (tail (future (mk_fa [mk_desc 7 0x1000 40] 0 0))) {[0x1000]} 0x1000)
    as (p' & Hrun & HO & _); [apply kernel_pool_Pool|by apply elem_of_singleton|apply mem_words_ok, kernel_mem_ok|apply kernel_pool_half|].
  unfold new_pool. rewrite Hrun. exact HO.
Qed.

Lemma new_heap_ok : heap_ok new_space {[ [] := 0x2000 ]}.
Proof. split; [by vm_compute|by vm_compute|]. intros v _. by rewrite lookup_singleton_ne. Qed.

Lemma map_new_page_correct_witness :
  exists p' T' av' r, map_new_page 0x2000 USER_CODE_BASE true true new_pool = (p', Ok r) /\
    same_pages {[ [] := 0x2000 ]} T' /\ kept {[ [] := 0x2000 ]} {[0x1000]} (pmem new_pool) (pmem p') /\
    match r with
    | Some f => user USER_CODE_BASE /\ ({[ [] := 0x2000 ]} : tree) !! path USER_CODE_BASE = None /\ frame_ok f /\
        Owns p' 0x2000 (<[path USER_CODE_BASE := Z.lor f (page_flags true true)]> T') av' {[0x1000]} /\
        forall b, f <= b < f + PAGE_SIZE -> pmem p' b = 0
    | None => Owns p' 0x2000 T' av' {[0x1000]} /\
        (user USER_CODE_BASE -> ({[ [] := 0x2000 ]} : tree) !! path USER_CODE_BASE = None ->
         exists f, av' = [] \/ av' = [f])
    end.
Proof. apply (map_new_page_correct USER_CODE_BASE true true new_pool 0x2000 _ new_av {[0x1000]} new_Owns). Defined.

Lemma grow_heap_correct_witness :
  exists p' T' av' sp' r, grow_heap new_space 5000 new_pool = (p', Ok (sp', r)) /\
    Owns p' (pml4 new_space) T' av' {[0x1000]} /\ heap_ok sp' T' /\ pml4 sp' = pml4 new_space /\
    kept {[ [] := 0x2000 ]} {[0x1000]} (pmem new_pool) (pmem p') /\
    match r with
    | Some old => old = heap_end new_space /\ heap_end sp' = old + round_up 5000 /\
        grown p' {[ [] := 0x2000 ]} T' old (Z.to_nat (round_up 5000 / PAGE_SIZE))
    | None => sp' = new_space /\ same_pages {[ [] := 0x2000 ]} T'
    end.
Proof.
  apply (grow_heap_correct new_space 5000 new_pool _ new_av {[0x1000]} new_Owns new_heap_ok).
  vm_compute; split; discriminate.
Defined.

Lemma space_drop_correct_witness :
  exists p' av', space_drop new_space new_pool = (p', Ok tt) /\ Pool p' av' {[0x1000]} /\
    frames_in_use p' = 1 /\ agree {[0x1000]} (pmem new_pool) (pmem p').
Proof. apply (space_drop_correct new_pool new_space _ new_av {[0x1000]} new_Owns). Defined.

Lemma page_present_correct_witness :
  page_present (pmem new_pool) 0x2000 USER_CODE_BASE USER_BITS =
    match ({[ [] := 0x2000 ]} : tree) !! path USER_CODE_BASE with
    | Some e => Z.land e USER_BITS =? USER_BITS | None => false end.
Proof.
  apply (page_present_correct (pmem new_pool) 0x2000 _ USER_CODE_BASE (ow_space _ _ _ _ _ new_Owns)).
  vm_compute; split; (reflexivity || discriminate).
Defined.
