(* ===== verification/Acpi.v ===== *)
(** The firmware's ACPI tables: src/src/acpi.rs.

    The tables are read in place from identity-mapped memory, the bytes of
    Frame; a packed structure is the list of its fields with their sizes, from
    which offsets are computed.  The functions that hand each entry of a table
    to a callback run it in the state monad, on any state that has memory in
    it.  Sizes and addresses are [usize] with wrap-around where a malformed
    table can make a subtraction go below zero. *)

From S2P Require Import Prelude Frame Paging.
From stdpp Require Import strings.
Open Scope Z_scope.
Open Scope kmonad_scope.

Module Acpi.

(** * Packed structures *)

Definition struct : Type := list (string * Z).
Definition size_of (s : struct) : Z := foldr (fun f => Z.add f.2) 0 s.
Fixpoint offset_of (s : struct) (f : string) : Z :=
  match s with
  | [] => 0
  | (g, n) :: s => if String.eqb f g then 0 else n + offset_of s f
  end.
Fixpoint width_of (s : struct) (f : string) : Z :=
  match s with
  | [] => 0
  | (g, n) :: s => if String.eqb f g then n else width_of s f
  end.

Definition bytes_at (m : mem) (a n : Z) : list Z := (fun i => m (a + i)) <$> seqZ 0 n.

(** The field [f] of the structure at [p]. *)
Definition get (m : mem) (s : struct) (p : Z) (f : string) : Z :=
  le_val (bytes_at m (p + offset_of s f) (width_of s f)).

Definition Rsdp : struct :=
  [("signature", 8); ("checksum", 1); ("oem_id", 6); ("revision", 1); ("rsdt_address", 4)].
Definition RsdpV2 : struct :=
  [("v1", size_of Rsdp); ("length", 4); ("xsdt_address", 8); ("extended_checksum", 1); ("reserved", 3)].
Definition SdtHeader : struct :=
  [("signature", 4); ("length", 4); ("revision", 1); ("checksum", 1); ("oem_id", 6);
   ("oem_table_id", 8); ("oem_revision", 4); ("creator_id", 4); ("creator_revision", 4)].
Definition MadtHeader : struct := [("local_apic_address", 4); ("flags", 4)].
Definition MadtEntryHeader : struct := [("entry_type", 1); ("length", 1)].
Definition LocalApicEntry : struct :=
  [("header", size_of MadtEntryHeader); ("acpi_processor_uid", 1); ("apic_id", 1); ("flags", 4)].
Definition IoApicEntry : struct :=
  [("header", size_of MadtEntryHeader); ("io_apic_id", 1); ("reserved", 1); ("io_apic_address", 4);
   ("global_system_interrupt_base", 4)].
Definition GenericAddress : struct :=
  [("address_space_id", 1); ("register_bit_width", 1); ("register_bit_offset", 1);
   ("access_size", 1); ("address", 8)].
Definition Fadt : struct :=
  [("header", size_of SdtHeader); ("firmware_ctrl", 4); ("dsdt", 4); ("reserved1", 1);
   ("preferred_power_mgmt_profile", 1); ("sci_interrupt", 2); ("smi_command_port", 4);
   ("acpi_enable", 1); ("acpi_disable", 1); ("s4bios_req", 1); ("pstate_control", 1);
   ("pm1a_event_block", 4); ("pm1b_event_block", 4); ("pm1a_control_block", 4);
   ("pm1b_control_block", 4); ("pm2_control_block", 4); ("pm_timer_block", 4);
   ("gpe0_block", 4); ("gpe1_block", 4); ("pm1_event_length", 1); ("pm1_control_length", 1);
   ("pm2_control_length", 1); ("pm_timer_length", 1); ("gpe0_length", 1); ("gpe1_length", 1);
   ("gpe1_base", 1); ("cstate_control", 1); ("worst_c2_latency", 2); ("worst_c3_latency", 2);
   ("flush_size", 2); ("flush_stride", 2); ("duty_offset", 1); ("duty_width", 1);
   ("day_alarm", 1); ("month_alarm", 1); ("century", 1); ("boot_architecture_flags", 2);
   ("reserved2", 1); ("flags", 4); ("reset_reg", size_of GenericAddress); ("reset_value", 1);
   ("arm_boot_arch", 2); ("fadt_minor_version", 1); ("x_firmware_control", 8); ("x_dsdt", 8);
   ("x_pm1a_event_block", size_of GenericAddress); ("x_pm1b_event_block", size_of GenericAddress);
   ("x_pm1a_control_block", size_of GenericAddress); ("x_pm1b_control_block", size_of GenericAddress);
   ("x_pm2_control_block", size_of GenericAddress); ("x_pm_timer_block", size_of GenericAddress);
   ("x_gpe0_block", size_of GenericAddress); ("x_gpe1_block", size_of GenericAddress)].
Definition Hpet : struct :=
  [("header", size_of SdtHeader); ("event_timer_block_id", 4); ("base_address", size_of GenericAddress);
   ("hpet_number", 1); ("minimum_tick", 2); ("page_protection", 1)].
Definition McfgHeader : struct := [("reserved", 8)].
Definition McfgAllocation : struct :=
  [("base_address", 8); ("pci_segment_group", 2); ("start_bus_number", 1); ("end_bus_number", 1);
   ("reserved", 4)].

Inductive MadtEntryType : Type :=
| LocalApic
| IoApic
| InterruptSourceOverride
| NmiSource
| LocalApicNmi
| LocalApicAddressOverride
| IoSapic
| LocalSapic
| PlatformInterruptSource
| LocalX2Apic
| LocalX2ApicNmi
| Gic
| GicDistributor
| Unknown (v : Z).

Definition entry_type_from (v : Z) : MadtEntryType :=
  match v with
  | 0 => LocalApic
  | 1 => IoApic
  | 2 => InterruptSourceOverride
  | 3 => NmiSource
  | 4 => LocalApicNmi
  | 5 => LocalApicAddressOverride
  | 6 => IoSapic
  | 7 => LocalSapic
  | 8 => PlatformInterruptSource
  | 9 => LocalX2Apic
  | 10 => LocalX2ApicNmi
  | 11 => Gic
  | 12 => GicDistributor
  | other => Unknown other
  end.

Record MadtInfo : Type := mk_info {
  local_apic_address : Z;
  cpu_count : Z;
  apic_ids : list Z;
  io_apic_address : Z;
  io_apic_gsi_base : Z;
}.

Definition default_info : MadtInfo := mk_info 0 0 (zeros 64) 0 0.

(** * Helpers *)

(** [for i in 0..len { sum = sum.wrapping_add(..) }] *)
Definition checksum (m : mem) (ptr len : Z) : Z :=
  foldl (fun sum b => u8 (sum + b)) 0 (bytes_at m ptr len).
Definition verify_checksum (m : mem) (ptr len : Z) : bool := checksum m ptr len =? 0.

Definition read_signature (m : mem) (ptr : Z) : list Z :=
  bytes_at m (ptr + offset_of SdtHeader "signature") 4.
Definition sdt_has_signature (m : mem) (ptr : Z) (sig : list Z) : bool :=
  bool_decide (read_signature m ptr = sig).
Definition sdt_length (m : mem) (ptr : Z) : Z := get m SdtHeader ptr "length".

(** * The root pointer *)

(** "RSD PTR " *)
Definition RSDP_SIGNATURE : list Z := [82; 83; 68; 32; 80; 84; 82; 32].

(** [while addr + size_of::<Rsdp>() <= start + len] *)
Fixpoint rsdp_loop (fuel : nat) (m : mem) (addr fin : Z) : option Z :=
  match fuel with
  | O => None
  | S fuel =>
      if addr + size_of Rsdp <=? fin then
        if bool_decide (bytes_at m addr 8 = RSDP_SIGNATURE) && verify_checksum m addr 20
        then Some addr
        else rsdp_loop fuel m (addr + 16) fin
      else None
  end.

(** The loop takes one step for every 16 bytes. *)
Definition find_rsdp_in_range (m : mem) (start len : Z) : option Z :=
  rsdp_loop (Z.to_nat (len / 16 + 1)) m start (start + len).

Definition find_rsdp (m : mem) : option Z :=
  let ebda_segment := le_val (bytes_at m 0x040E 2) in
  let ebda_base := Z.shiftl ebda_segment 4 in
  match (if negb (ebda_base =? 0) then find_rsdp_in_range m ebda_base 1024 else None) with
  | Some p => Some p
  | None => find_rsdp_in_range m 0xE0000 0x20000
  end.

Definition rsdp_from_address (m : mem) (phys_addr : Z) : option Z :=
  if verify_checksum m phys_addr 20 then Some phys_addr else None.

Definition rsdp_is_v2 (m : mem) (rsdp : Z) : bool := 2 <=? get m Rsdp rsdp "revision".
Definition rsdp_xsdt_address (m : mem) (rsdp : Z) : option Z :=
  if rsdp_is_v2 m rsdp then Some (get m RsdpV2 rsdp "xsdt_address") else None.
Definition rsdp_rsdt_address (m : mem) (rsdp : Z) : Z := get m Rsdp rsdp "rsdt_address".

(** * Iteration over tables *)

Section iterate.
Context {S : Type} (memof : S -> mem).

(** [for i in 0..entry_count { callback(entries.add(i).read_unaligned()) }] *)
Fixpoint iter_entries (n : nat) (addr width : Z) (callback : Z -> M S unit) : M S unit :=
  match n with
  | O => kret tt
  | Datatypes.S n =>
      let! a := gets (fun s => le_val (bytes_at (memof s) addr width)) in
      run! callback a in
      iter_entries n (addr + width) width callback
  end.

(** A length below that of the header wraps around. *)
Definition iter_rsdt (rsdt : Z) (callback : Z -> M S unit) : M S unit :=
  let! len := gets (fun s => sdt_length (memof s) rsdt) in
  let entry_count := u64 (len - size_of SdtHeader) / 4 in
  iter_entries (Z.to_nat entry_count) (rsdt + size_of SdtHeader) 4 callback.

Definition iter_xsdt (xsdt : Z) (callback : Z -> M S unit) : M S unit :=
  let! len := gets (fun s => sdt_length (memof s) xsdt) in
  let entry_count := u64 (len - size_of SdtHeader) / 8 in
  iter_entries (Z.to_nat entry_count) (xsdt + size_of SdtHeader) 8 callback.

(** [while cur + size_of::<MadtEntryHeader>() <= end] *)
Fixpoint madt_loop (fuel : nat) (cur fin : Z) (callback : Z -> M S unit) : M S unit :=
  match fuel with
  | O => khang
  | Datatypes.S fuel =>
      if cur + size_of MadtEntryHeader <=? fin then
        let! entry_len := gets (fun s => get (memof s) MadtEntryHeader cur "length") in
        if (entry_len <? 2) || (fin <? cur + entry_len) then kret tt else
        run! callback cur in
        madt_loop fuel (cur + entry_len) fin callback
      else kret tt
  end.

(** Every entry has at least two bytes. *)
Definition iter_madt_entries (madt : Z) (callback : Z -> M S unit) : M S unit :=
  let! total_len := gets (fun s => sdt_length (memof s) madt) in
  let start_offset := size_of SdtHeader + size_of MadtHeader in
  madt_loop (Z.to_nat total_len + 1) (madt + start_offset) (madt + total_len) callback.

(** The allocations of the MCFG are handed out by their addresses. *)
Fixpoint mcfg_loop (n : nat) (addr : Z) (callback : Z -> M S unit) : M S unit :=
  match n with
  | O => kret tt
  | Datatypes.S n => run! callback addr in mcfg_loop n (addr + size_of McfgAllocation) callback
  end.

Definition iter_mcfg_allocations (mcfg : Z) (callback : Z -> M S unit) : M S unit :=
  let! total_len := gets (fun s => sdt_length (memof s) mcfg) in
  let header_size := size_of SdtHeader + size_of McfgHeader in
  if total_len <=? header_size then kret tt else
  mcfg_loop (Z.to_nat ((total_len - header_size) / size_of McfgAllocation)) (mcfg + header_size) callback.
End iterate.

(** A callback that only reads memory and updates the variables it captures. *)
Definition capture {A} (f : mem -> Z -> A -> A) (p : Z) : M (mem * A) unit :=
  modify (fun '(m, a) => (m, f m p a)).

(** The captured variables after the iteration; [None] if it does not end. *)
Definition captured {A} (r : (mem * A) * res unit) : option A :=
  match r with ((_, a), Ok _) => Some a | _ => None end.

(** [if found.is_some() { return; } .. if sdt_has_signature(hdr, sig) { found = Some(hdr) }] *)
Definition match_table (sig : list Z) (m : mem) (hdr : Z) (found : option Z) : option Z :=
  match found with
  | Some _ => found
  | None => if sdt_has_signature m hdr sig then Some hdr else None
  end.

Definition find_table_in_rsdt (m : mem) (rsdt : Z) (sig : list Z) : option (option Z) :=
  captured (iter_rsdt fst rsdt (capture (match_table sig)) (m, None)).
Definition find_table_in_xsdt (m : mem) (xsdt : Z) (sig : list Z) : option (option Z) :=
  captured (iter_xsdt fst xsdt (capture (match_table sig)) (m, None)).

(** * The MADT *)

(** The callback of [parse_madt]. *)
Definition madt_entry (m : mem) (e : Z) (info : MadtInfo) : MadtInfo :=
  match entry_type_from (get m MadtEntryHeader e "entry_type") with
  | LocalApic =>
      if negb (Z.land (get m LocalApicEntry e "flags") 1 =? 0) then
        let idx := cpu_count info in
        if idx <? 64 then
          mk_info (local_apic_address info) (cpu_count info + 1)
            (<[Z.to_nat idx := get m LocalApicEntry e "apic_id"]> (apic_ids info))
            (io_apic_address info) (io_apic_gsi_base info)
        else info
      else info
  | IoApic =>
      if io_apic_address info =? 0 then
        mk_info (local_apic_address info) (cpu_count info) (apic_ids info)
          (get m IoApicEntry e "io_apic_address")
          (get m IoApicEntry e "global_system_interrupt_base")
      else info
  | LocalApicAddressOverride =>
      mk_info (le_val (bytes_at m (e + 4) 8)) (cpu_count info) (apic_ids info)
        (io_apic_address info) (io_apic_gsi_base info)
  | _ => info
  end.

Definition parse_madt (m : mem) (madt : Z) : option MadtInfo :=
  let hdr := madt + size_of SdtHeader in
  let info := mk_info (get m MadtHeader hdr "local_apic_address") (cpu_count default_info)
                (apic_ids default_info) (io_apic_address default_info) (io_apic_gsi_base default_info) in
  captured (iter_madt_entries fst madt (capture madt_entry) (m, info)).

(** * FADT, HPET, MCFG *)

Definition fadt_dsdt_address (m : mem) (fadt : Z) : Z :=
  let x_dsdt := get m Fadt fadt "x_dsdt" in
  if negb (x_dsdt =? 0) then x_dsdt else get m Fadt fadt "dsdt".

(** A register block: its extended address when it is a non-zero I/O port,
    the 32-bit field otherwise. *)
Definition block_port (m : mem) (fadt : Z) (ext_field field : string) : Z :=
  let ext := fadt + offset_of Fadt ext_field in
  if (get m GenericAddress ext "address_space_id" =? 1) && negb (get m GenericAddress ext "address" =? 0)
  then get m GenericAddress ext "address" else get m Fadt fadt field.

Definition fadt_pm1a_control_port (m : mem) (fadt : Z) : Z :=
  u16 (block_port m fadt "x_pm1a_control_block" "pm1a_control_block").
Definition fadt_pm_timer_port (m : mem) (fadt : Z) : Z :=
  u32 (block_port m fadt "x_pm_timer_block" "pm_timer_block").

(** [timer n] is the value of the [n]-th read of the timer port. *)
Fixpoint wait_loop (fuel : nat) (timer : nat -> Z) (n : nat) (start ticks_needed : Z) : res nat :=
  match fuel with
  | O => Hang
  | S fuel =>
      let now := Z.land (timer n) 0x00FFFFFF in
      let elapsed := Z.land (u32 (now - start)) 0x00FFFFFF in
      if ticks_needed <=? elapsed then Ok (S n) else wait_loop fuel timer (S n) start ticks_needed
  end.

Definition TICKS_PER_US : Z := 4.

(** The number of reads made, within [fuel] rounds. *)
Definition pm_timer_wait_us (fuel : nat) (timer : nat -> Z) (microseconds : Z) : res nat :=
  let ticks_needed := Z.min (microseconds * TICKS_PER_US) u32_max in
  let start := Z.land (timer 0%nat) 0x00FFFFFF in
  wait_loop fuel timer 1 start ticks_needed.

Definition hpet_base_address (m : mem) (hpet : Z) : Z :=
  get m GenericAddress (hpet + offset_of Hpet "base_address") "address".
Definition hpet_number (m : mem) (hpet : Z) : Z := get m Hpet hpet "hpet_number".
Definition hpet_minimum_tick (m : mem) (hpet : Z) : Z := get m Hpet hpet "minimum_tick".

(** The allocation is the structure at [alloc]. *)
Definition ecam_address (m : mem) (alloc bus device function : Z) : option Z :=
  let start_bus := get m McfgAllocation alloc "start_bus_number" in
  let end_bus := get m McfgAllocation alloc "end_bus_number" in
  if (bus <? start_bus) || (end_bus <? bus) then None else
  let offset := Z.lor (Z.lor (Z.shiftl (bus - start_bus) 20) (Z.shiftl device 15))
                  (Z.shiftl function 12) in
  Some (u64 (get m McfgAllocation alloc "base_address" + offset)).

(** * All tables *)

Record AcpiTables : Type := mk_tables {
  rsdp : Z;
  rsdt : option Z;
  xsdt : option Z;
  madt : option Z;
  fadt : option Z;
  hpet : option Z;
  mcfg : option Z;
}.

Definition APIC : list Z := [65; 80; 73; 67].
Definition FACP : list Z := [70; 65; 67; 80].
Definition HPET : list Z := [72; 80; 69; 84].
Definition MCFG : list Z := [77; 67; 70; 71].

(** The callback of [locate_tables_in_xsdt] and [locate_tables_in_rsdt]. *)
Definition locate_table (m : mem) (hdr : Z) (t : AcpiTables) : AcpiTables :=
  let sig := read_signature m hdr in
  if bool_decide (sig = APIC) then
    mk_tables (rsdp t) (rsdt t) (xsdt t) (Some hdr) (fadt t) (hpet t) (mcfg t)
  else if bool_decide (sig = FACP) then
    mk_tables (rsdp t) (rsdt t) (xsdt t) (madt t) (Some hdr) (hpet t) (mcfg t)
  else if bool_decide (sig = HPET) then
    mk_tables (rsdp t) (rsdt t) (xsdt t) (madt t) (fadt t) (Some hdr) (mcfg t)
  else if bool_decide (sig = MCFG) then
    mk_tables (rsdp t) (rsdt t) (xsdt t) (madt t) (fadt t) (hpet t) (Some hdr)
  else t.

Definition locate_tables_in_xsdt (m : mem) (x : Z) (t : AcpiTables) : option AcpiTables :=
  captured (iter_xsdt fst x (capture locate_table) (m, t)).
Definition locate_tables_in_rsdt (m : mem) (r : Z) (t : AcpiTables) : option AcpiTables :=
  captured (iter_rsdt fst r (capture locate_table) (m, t)).

Definition from_rsdp (m : mem) (p : Z) : option AcpiTables :=
  let via_rsdt :=
    let rsdt_addr := rsdp_rsdt_address m p in
    if negb (rsdt_addr =? 0)
    then locate_tables_in_rsdt m rsdt_addr (mk_tables p (Some rsdt_addr) None None None None None)
    else Some (mk_tables p None None None None None None) in
  match rsdp_xsdt_address m p with
  | Some xsdt_addr =>
      if negb (xsdt_addr =? 0)
      then locate_tables_in_xsdt m xsdt_addr (mk_tables p None (Some xsdt_addr) None None None None)
      else via_rsdt
  | None => via_rsdt
  end.

Definition madt_info (m : mem) (t : AcpiTables) : option (option MadtInfo) :=
  (fun p => parse_madt m p) <$> madt t.
Definition hpet_address (m : mem) (t : AcpiTables) : option Z := hpet_base_address m <$> hpet t.
Definition dsdt_address (m : mem) (t : AcpiTables) : option Z := fadt_dsdt_address m <$> fadt t.

(** * Mapping the tables *)

Section mapping.
Context {F : Type} `{FrameSource F}.

Definition MAP_FLAGS : Z := Z.lor PAGE_PRESENT PAGE_WRITABLE.
Definition page_down (a : Z) : Z := Z.land a (Z.lnot 0xFFF).

(** [while addr < 0x100000] *)
Definition bios_pages : list Z := (fun i => 0xE0000 + i * 4096) <$> seqZ 0 32.

Fixpoint map_each (pml4 : Z) (l : list Z) : M F unit :=
  match l with
  | [] => kret tt
  | addr :: l => run! map_page pml4 addr addr MAP_FLAGS in map_each pml4 l
  end.

Definition map_rsdp_scan_regions (pml4 : Z) : M F unit :=
  run! map_page pml4 0 0 MAP_FLAGS in
  let! ebda_segment := gets (fun s => le_val (bytes_at (src_mem s) 0x040E 2)) in
  let ebda_base := page_down (Z.shiftl ebda_segment 4) in
  run! (if negb (ebda_base =? 0) then
          run! map_page pml4 ebda_base ebda_base MAP_FLAGS in
          map_page pml4 (ebda_base + 4096) (ebda_base + 4096) MAP_FLAGS
        else kret tt) in
  map_each pml4 bios_pages.

(** The pages from that of [base] up to the end, rounded up. *)
Definition region_pages (base len : Z) : list Z :=
  let page_base := page_down base in
  let page_end := page_down (base + len + 0xFFF) in
  (fun i => page_base + i * 4096) <$> seqZ 0 ((page_end - page_base) / 4096).

Definition map_region (pml4 base len : Z) : M F unit := map_each pml4 (region_pages base len).

Definition map_sdt (pml4 hdr : Z) : M F unit :=
  run! map_region pml4 hdr (size_of SdtHeader) in
  let! total := gets (fun s => sdt_length (src_mem s) hdr) in
  if size_of SdtHeader <? total then map_region pml4 hdr total else kret tt.

Definition map_acpi_tables (pml4 : Z) (t : AcpiTables) : M F unit :=
  let! revision := gets (fun s => get (src_mem s) Rsdp (rsdp t) "revision") in
  run! map_region pml4 (rsdp t) (if 2 <=? revision then size_of RsdpV2 else size_of Rsdp) in
  match xsdt t, rsdt t with
  | Some x, _ => run! map_sdt pml4 x in iter_xsdt src_mem x (map_sdt pml4)
  | None, Some r => run! map_sdt pml4 r in iter_rsdt src_mem r (map_sdt pml4)
  | None, None => kret tt
  end.
End mapping.

End Acpi.
