(* ===== verification/AcpiTheorems.v ===== *)
(** What the ACPI code makes of the firmware's tables.

    The MADT: the controllers a well-formed table lists are the ones
    [parse_madt] reports, and on arbitrary bytes it ends and reads little
    beyond the table.  The root tables: which tables [from_rsdp] and
    [find_table_in_xsdt] choose.  The scan for the root pointer, the windows of
    PCIe configuration space and the wait on the timer. *)

From S2P Require Import Prelude Frame Paging Acpi.
From stdpp Require Import strings.
Open Scope Z_scope.
Open Scope kmonad_scope.

Module AcpiTheorems.
Import Acpi.

(** * Memory *)

(** Offsets and sizes of the structures to numbers. *)
Ltac offsets :=
  repeat match goal with
  | |- context [size_of ?s] => let n := eval vm_compute in (size_of s) in change (size_of s) with n
  | |- context [offset_of ?s ?f] =>
      let n := eval vm_compute in (offset_of s f) in change (offset_of s f) with n
  | |- context [width_of ?s ?f] =>
      let n := eval vm_compute in (width_of s f) in change (width_of s f) with n
  end.

Lemma zlen_bytes_at m a n : 0 <= n -> zlen (bytes_at m a n) = n.
Proof. intros. unfold bytes_at, zlen. rewrite length_fmap, length_seqZ. lia. Qed.

Lemma bytes_at_app m a n k :
  0 <= n -> 0 <= k -> bytes_at m a (n + k) = bytes_at m a n ++ bytes_at m (a + n) k.
Proof.
  intros Hn Hk. unfold bytes_at. rewrite seqZ_app, fmap_app by done. f_equal.
  rewrite (Z.add_comm 0 n), <- fmap_add_seqZ, <- list_fmap_compose.
  apply list_fmap_ext. intros i x _. simpl. f_equal. lia.
Qed.

(** A list of bytes in memory, taken apart. *)
Lemma bytes_at_split m a b c :
  bytes_at m a (zlen (b ++ c)) = b ++ c ->
  bytes_at m a (zlen b) = b /\ bytes_at m (a + zlen b) (zlen c) = c.
Proof.
  intros H. pose proof (zlen_nonneg b). pose proof (zlen_nonneg c).
  rewrite zlen_app, bytes_at_app in H by done. apply app_inj_1 in H; [done|].
  pose proof (zlen_bytes_at m a (zlen b)). unfold zlen in *. lia.
Qed.

Lemma bytes_at_agree m m' a n :
  (forall b, a <= b < a + n -> m' b = m b) -> bytes_at m' a n = bytes_at m a n.
Proof.
  intros H. apply list_fmap_ext. intros i x Hx. apply lookup_seqZ in Hx. apply H. lia.
Qed.

(** A field of a structure whose first bytes are [b]. *)
Lemma bytes_at_slice m a n off w :
  0 <= off -> 0 <= w -> off + w <= n -> bytes_at m (a + off) w = slice off (off + w) (bytes_at m a n).
Proof.
  intros Ho Hw Hn. replace n with (off + (w + (n - off - w))) by lia.
  rewrite !bytes_at_app by lia. rewrite slice_app_r by (rewrite zlen_bytes_at; lia).
  rewrite zlen_bytes_at by lia. rewrite slice_app_l by (rewrite ?zlen_bytes_at; lia).
  replace (off - off) with 0 by lia. replace (off + w - off) with w by lia.
  rewrite <- (zlen_bytes_at m (a + off) w) at 2 by done. by rewrite slice_all.
Qed.

Lemma get_slice m s p f b :
  bytes_at m p (zlen b) = b -> 0 <= offset_of s f -> 0 <= width_of s f ->
  offset_of s f + width_of s f <= zlen b ->
  get m s p f = le_val (slice (offset_of s f) (offset_of s f + width_of s f) b).
Proof. intros Hb Ho Hw Hl. unfold get. by rewrite (bytes_at_slice m p (zlen b)), Hb. Qed.

Lemma get_agree m m' s p f :
  (forall b, p + offset_of s f <= b < p + offset_of s f + width_of s f -> m' b = m b) ->
  get m' s p f = get m s p f.
Proof. intros H. unfold get. by rewrite (bytes_at_agree m m'). Qed.

(** Memory of bytes. *)
Definition mem_ok (m : mem) : Prop := forall a, is_byte (m a).

Lemma bytes_at_ok m a n : mem_ok m -> bytes_ok (bytes_at m a n).
Proof. intros H. apply Forall_fmap, Forall_forall. intros. apply H. Qed.

Lemma get_nonneg m s p f : mem_ok m -> 0 <= get m s p f.
Proof. intros H. apply le_val_bound. by apply bytes_at_ok. Qed.

Lemma sdt_length_bound m p : mem_ok m -> 0 <= sdt_length m p < 2 ^ 32.
Proof.
  intros H. unfold sdt_length, get. offsets.
  pose proof (le_val_bound (bytes_at m (p + 4) 4) (bytes_at_ok m _ _ H)) as Hb.
  by rewrite zlen_bytes_at in Hb.
Qed.

(** * The MADT *)

(** The interrupt controller structures the kernel uses, and all others. *)
Inductive controller : Type :=
| Cpu (uid id flags : Z)
| Io (id addr gsi : Z)
| Address (addr : Z)
| Other (typ : Z) (payload : list Z).

Definition encode (c : controller) : list Z :=
  match c with
  | Cpu uid id flags => [0; 8; uid; id] ++ le_bytes 4 flags
  | Io id addr gsi => [1; 12; id; 0] ++ le_bytes 4 addr ++ le_bytes 4 gsi
  | Address addr => [5; 12; 0; 0] ++ le_bytes 8 addr
  | Other typ payload => [typ; 2 + zlen payload] ++ payload
  end.

Definition controller_ok (c : controller) : Prop :=
  match c with
  | Cpu uid id flags => is_byte id /\ 0 <= flags < 2 ^ 32
  | Io id addr gsi => 0 < addr < 2 ^ 32 /\ 0 <= gsi < 2 ^ 32
  | Address addr => 0 <= addr < 2 ^ 64
  | Other typ payload => is_byte typ /\ typ <> 0 /\ typ <> 1 /\ typ <> 5 /\ zlen payload <= 253
  end.

(** ** What the table says *)

Definition enabled_id (c : controller) : option Z :=
  match c with Cpu _ id flags => if Z.testbit flags 0 then Some id else None | _ => None end.
Definition io_of (c : controller) : option (Z * Z) :=
  match c with Io _ addr gsi => Some (addr, gsi) | _ => None end.
Definition address_of (c : controller) : option Z :=
  match c with Address addr => Some addr | _ => None end.

(** The first 64 enabled processors, the first I/O APIC, and the last address
    of the local APIC the table gives. *)
Definition topology (lapic : Z) (l : list controller) : MadtInfo :=
  let ids := take 64 (omap enabled_id l) in
  let io := default (0, 0) (head (omap io_of l)) in
  mk_info (default lapic (last (omap address_of l))) (zlen ids) (ids ++ replicate (64 - length ids) 0)
    io.1 io.2.

Lemma topology_nil lapic : topology lapic [] = mk_info lapic 0 (zeros 64) 0 0.
Proof. reflexivity. Qed.

Lemma ids_insert (ids : list Z) x :
  (length ids < 64)%nat ->
  <[length ids := x]> (ids ++ replicate (64 - length ids) 0)
  = (ids ++ [x]) ++ replicate (64 - length (ids ++ [x])) 0.
Proof.
  intros H. replace (64 - length ids)%nat with (S (64 - length (ids ++ [x]))) by (rewrite length_app; simpl; lia).
  rewrite <- (Nat.add_0_r (length ids)) at 1. rewrite insert_app_r. simpl. by rewrite <- app_assoc.
Qed.

(** A processor entry adds its processor, if it is enabled and there is room. *)
Lemma topology_cpu lapic l uid id flags :
  topology lapic (l ++ [Cpu uid id flags]) =
    let t := topology lapic l in
    if Z.testbit flags 0 && (cpu_count t <? 64) then
      mk_info (local_apic_address t) (cpu_count t + 1) (<[Z.to_nat (cpu_count t) := id]> (apic_ids t))
        (io_apic_address t) (io_apic_gsi_base t)
    else t.
Proof.
  unfold topology. rewrite !omap_app. cbn [omap list_omap enabled_id io_of address_of]. rewrite !app_nil_r.
  destruct (Z.testbit flags 0); cbn [andb]; [|by rewrite app_nil_r].
  set (ids := omap enabled_id l). cbn [cpu_count local_apic_address apic_ids io_apic_address io_apic_gsi_base].
  destruct (Nat.lt_ge_cases (length ids) 64) as [Hl|Hl].
  - rewrite (take_ge ids) by lia. rewrite (take_ge (ids ++ [id])) by (rewrite length_app; simpl; lia).
    destruct (Z.ltb_spec (zlen ids) 64); [|unfold zlen in *; lia].
    replace (Z.to_nat (zlen ids)) with (length ids) by (unfold zlen; lia).
    by rewrite zlen_app, ids_insert.
  - rewrite take_app_le by done. unfold zlen. rewrite length_take_le by done. done.
Qed.

Lemma topology_io lapic l id addr gsi :
  Forall controller_ok l ->
  topology lapic (l ++ [Io id addr gsi]) =
    let t := topology lapic l in
    if io_apic_address t =? 0 then
      mk_info (local_apic_address t) (cpu_count t) (apic_ids t) addr gsi
    else t.
Proof.
  intros Hl. unfold topology. rewrite !omap_app. cbn [omap list_omap enabled_id io_of address_of].
  rewrite !app_nil_r. cbn [cpu_count local_apic_address apic_ids io_apic_address io_apic_gsi_base].
  destruct (omap io_of l) as [|[a g] ios] eqn:E; [done|]. cbn.
  assert ((a, g) ∈ omap io_of l) as (c & Hc & Ec)%list_elem_of_omap by (rewrite E; left).
  rewrite Forall_forall in Hl. specialize (Hl c Hc). destruct c; simplify_eq/=. by destruct (Z.eqb_spec a 0); [lia|].
Qed.

Lemma topology_address lapic l addr :
  topology lapic (l ++ [Address addr]) =
    let t := topology lapic l in
    mk_info addr (cpu_count t) (apic_ids t) (io_apic_address t) (io_apic_gsi_base t).
Proof.
  unfold topology. rewrite !omap_app. cbn [omap list_omap enabled_id io_of address_of].
  by rewrite !app_nil_r, last_snoc.
Qed.

Lemma topology_other lapic l typ payload :
  topology lapic (l ++ [Other typ payload]) = topology lapic l.
Proof.
  unfold topology. rewrite !omap_app. cbn [omap list_omap enabled_id io_of address_of]. by rewrite !app_nil_r.
Qed.

(** ** Reading it *)

Lemma entry_type_other v : v <> 0 -> v <> 1 -> v <> 5 ->
  match entry_type_from v with LocalApic | IoApic | LocalApicAddressOverride => False | _ => True end.
Proof. intros. unfold entry_type_from. repeat case_match; try done; lia. Qed.

Lemma land_1 x : negb (Z.land x 1 =? 0) = Z.testbit x 0.
Proof.
  change 1 with (Z.ones 1). rewrite Z.land_ones by lia. change (2 ^ 1) with 2.
  rewrite Zmod_odd, Z.bit0_odd. by destruct (Z.odd x).
Qed.

(** An entry in memory has the length its second byte says. *)
Lemma encode_length m a c :
  bytes_at m a (zlen (encode c)) = encode c -> get m MadtEntryHeader a "length" = zlen (encode c) /\ 2 <= zlen (encode c).
Proof.
  intros H. assert (2 <= zlen (encode c)) as Hl.
  { destruct c; unfold zlen; simpl; rewrite ?length_app, ?length_le_bytes; lia. }
  split; [|done]. rewrite (get_slice _ _ _ _ _ H) by (offsets; lia). offsets.
  destruct c; cbn [encode]; rewrite ?zlen_app; try reflexivity.
  change (le_val _) with (2 + zlen payload + 256 * 0). unfold zlen. simpl length. lia.
Qed.

Lemma le_val_small n z : 0 <= z < 2 ^ (8 * Z.of_nat n) -> le_val (le_bytes n z) = z.
Proof. intros. rewrite le_val_le_bytes. by apply Z.mod_small. Qed.

(** The callback does with an entry what the specification says. *)
Lemma madt_entry_spec m a lapic l c :
  Forall controller_ok l -> controller_ok c -> bytes_at m a (zlen (encode c)) = encode c ->
  madt_entry m a (topology lapic l) = topology lapic (l ++ [c]).
Proof.
  intros Hl Hc H. destruct (encode_length m a c H) as [_ H2].
  assert (get m MadtEntryHeader a "entry_type" = byte_at (encode c) 0) as Ht.
  { rewrite (get_slice _ _ _ _ _ H) by (offsets; lia). offsets.
    assert (forall b r, le_val (slice 0 (0 + 1) (b :: r)) = b) as Hb
      by (intros; change (b + 256 * 0 = b); lia).
    destruct c; apply Hb. }
  unfold madt_entry. rewrite Ht. destruct c as [uid id flags|id addr gsi|addr|typ payload].
  - rewrite topology_cpu. destruct Hc as [Hi Hf]. cbn [encode byte_at] in *.
    change (entry_type_from _) with LocalApic. cbn iota.
    rewrite !(get_slice _ _ _ _ _ H) by (offsets; done). offsets.
    change (slice 4 (4 + 4) _) with (le_bytes 4 flags). rewrite (le_val_small 4) by done.
    rewrite land_1. change (le_val _) with (id + 256 * 0). rewrite Z.mul_0_r, Z.add_0_r.
    cbv zeta. by destruct (Z.testbit flags 0), (cpu_count (topology lapic l) <? 64).
  - rewrite topology_io by done. destruct Hc as [Ha Hg]. cbn [encode byte_at] in *.
    change (entry_type_from _) with IoApic. cbn iota.
    rewrite !(get_slice _ _ _ _ _ H) by (offsets; done). offsets.
    change (slice 4 (4 + 4) _) with (le_bytes 4 addr). change (slice 8 (8 + 4) _) with (le_bytes 4 gsi).
    by rewrite !(le_val_small 4) by lia.
  - rewrite topology_address. cbn [encode byte_at] in *.
    change (entry_type_from _) with LocalApicAddressOverride. cbn iota.
    change (zlen _) with 12 in H. rewrite (bytes_at_slice m a 12), H by lia.
    change (slice 4 (4 + 8) _) with (le_bytes 8 addr). by rewrite (le_val_small 8).
  - rewrite topology_other. destruct Hc as (_ & H0 & H1 & H5 & _). cbn [encode] in *.
    change (byte_at ([typ; 2 + zlen payload] ++ payload) 0) with typ.
    pose proof (entry_type_other typ H0 H1 H5). by destruct (entry_type_from typ).
Qed.

Definition flat (l : list controller) : list Z := concat (encode <$> l).

(** The loop over the rest [l] of the table. *)
Lemma madt_loop_spec m lapic l seen cur fin fuel :
  Forall controller_ok seen -> Forall controller_ok l ->
  bytes_at m cur (zlen (flat l)) = flat l -> fin = cur + zlen (flat l) -> (length l < fuel)%nat ->
  madt_loop fst fuel cur fin (capture madt_entry) (m, topology lapic seen)
  = ((m, topology lapic (seen ++ l)), Ok tt).
Proof.
  intros Hs Hl. revert seen Hs cur fin fuel.
  induction Hl as [|c l Hc Hl IH]; intros seen Hs cur fin fuel Hb -> Hf;
    (destruct fuel as [|fuel]; [simpl in Hf; lia|]); cbn [madt_loop].
  - rewrite app_nil_r. offsets. rewrite (proj2 (Z.leb_gt _ _)); [done|]. unfold zlen. simpl. lia.
  - change (flat (c :: l)) with (encode c ++ flat l) in *. apply bytes_at_split in Hb as [Hb1 Hb2].
    destruct (encode_length m cur c Hb1) as [He H2]. pose proof (zlen_nonneg (flat l)).
    rewrite zlen_app. offsets. rewrite (proj2 (Z.leb_le _ _)) by lia. unfold kbind at 1, gets. cbn [fst].
    rewrite He, (proj2 (Z.ltb_ge (zlen (encode c)) 2)) by lia.
    rewrite (proj2 (Z.ltb_ge _ (cur + zlen (encode c)))) by lia. cbn [orb].
    unfold kbind, capture, modify. rewrite (madt_entry_spec m cur lapic seen c) by done.
    rewrite (IH (seen ++ [c])); [by rewrite <- app_assoc|by apply Forall_app; split; [|constructor]|done|lia|].
    simpl in Hf. lia.
Qed.

Lemma length_flat l : Z.of_nat (length l) <= zlen (flat l).
Proof.
  induction l as [|c l IH]; [done|]. change (flat (c :: l)) with (encode c ++ flat l). rewrite zlen_app.
  assert (1 <= zlen (encode c)); [|simpl; lia]. destruct c; unfold zlen; simpl; lia.
Qed.

(** C21: a MADT that lists the controllers [l] in the encoding of the ACPI
    specification.  [parse_madt] ends and reports the first 64 enabled
    processors in their order, the first I/O APIC, and the address of the
    local APIC, the last override of it if there is one. *)
Theorem madt_roundtrip m p lapic l :
  Forall controller_ok l ->
  sdt_length m p = 44 + zlen (flat l) ->
  get m MadtHeader (p + size_of SdtHeader) "local_apic_address" = lapic ->
  bytes_at m (p + 44) (zlen (flat l)) = flat l ->
  parse_madt m p = Some (topology lapic l).
Proof.
  intros Hl Hlen Ha Hb. unfold parse_madt. rewrite Ha. unfold iter_madt_entries.
  unfold kbind, gets. cbn [fst]. rewrite Hlen. offsets.
  change (mk_info lapic _ _ _ _) with (topology lapic []).
  pose proof (length_flat l).
  rewrite (madt_loop_spec m lapic l []) by (done || lia). done.
Qed.

(** ** Arbitrary bytes *)

(** Entries are read up to twelve bytes from their start, whatever length
    they claim. *)
Lemma madt_entry_agree m m' e info :
  (forall b, e <= b < e + 12 -> m' b = m b) -> madt_entry m' e info = madt_entry m e info.
Proof.
  intros H. unfold madt_entry.
  assert (forall s f, 0 <= offset_of s f -> offset_of s f + width_of s f <= 12 -> get m' s e f = get m s e f) as Hg.
  { intros s f H0 H1. apply get_agree. intros b Hb. apply H. lia. }
  rewrite (bytes_at_agree m m' (e + 4) 8) by (intros; apply H; lia).
  by rewrite !Hg by (offsets; lia).
Qed.

Definition info_ok (i : MadtInfo) : Prop := 0 <= cpu_count i <= 64 /\ length (apic_ids i) = 64%nat.

Lemma madt_entry_ok m e info : info_ok info -> info_ok (madt_entry m e info).
Proof.
  intros [H1 H2]. unfold madt_entry. destruct (entry_type_from _); try by split.
  - destruct (negb _); [|by split]. destruct (Z.ltb_spec (cpu_count info) 64); [|by split].
    split; cbn; [lia|]. by rewrite length_insert.
  - destruct (_ =? 0); by split.
Qed.

Lemma madt_loop_total m fuel cur fin info :
  mem_ok m -> info_ok info -> Z.max 0 (fin - cur) < Z.of_nat fuel ->
  exists info', info_ok info' /\
    forall m', (forall b, cur <= b < fin + 10 -> m' b = m b) ->
      madt_loop fst fuel cur fin (capture madt_entry) (m', info) = ((m', info'), Ok tt).
Proof.
  intros Hm. revert cur info. induction fuel as [|fuel IH]; intros cur info Hi Hf; [lia|].
  cbn [madt_loop]. offsets. destruct (Z.leb_spec (cur + 2) fin) as [Hc|Hc]; [|by exists info].
  set (n := get m MadtEntryHeader cur "length").
  assert (forall m', (forall b, cur <= b < fin + 10 -> m' b = m b) ->
    get m' MadtEntryHeader cur "length" = n) as Hn.
  { intros m' H. apply get_agree. offsets. intros b Hb. apply H. lia. }
  destruct ((n <? 2) || (fin <? cur + n)) eqn:Eb.
  { exists info. split; [done|]. intros m' H. unfold kbind, gets. cbn [fst]. by rewrite Hn, Eb. }
  apply orb_false_iff in Eb as [H2%Z.ltb_ge H3%Z.ltb_ge].
  destruct (IH (cur + n) (madt_entry m cur info)) as (info' & Hok & Hrun); [by apply madt_entry_ok|lia|].
  exists info'. split; [done|]. intros m' H. unfold kbind, gets, capture, modify. cbn [fst].
  rewrite Hn, (proj2 (Z.ltb_ge n 2)), (proj2 (Z.ltb_ge fin (cur + n))) by done. cbn [orb].
  rewrite (madt_entry_agree m m') by (intros; apply H; lia).
  apply Hrun. intros b Hb. apply H. lia.
Qed.

(** C22: [parse_madt] on arbitrary bytes.  It ends, with at most 64 processors
    in its 64 slots, and depends on no byte outside the table but the ten
    behind its end, or behind its fixed part when it claims to be shorter. *)
Theorem madt_any_bytes m p :
  mem_ok m ->
  exists info, info_ok info /\
    forall m', (forall b, p <= b < p + Z.max 44 (sdt_length m p) + 10 -> m' b = m b) ->
      parse_madt m' p = Some info.
Proof.
  intros Hm. pose proof (sdt_length_bound m p Hm) as Hlen.
  set (info0 := mk_info (get m MadtHeader (p + 36) "local_apic_address") 0 (zeros 64) 0 0).
  destruct (madt_loop_total m (Z.to_nat (sdt_length m p) + 1) (p + 44) (p + sdt_length m p) info0)
    as (info & Hok & Hrun); [done|done|lia|].
  exists info. split; [done|]. intros m' H. unfold parse_madt, iter_madt_entries, kbind, gets.
  cbn [fst]. assert (sdt_length m' p = sdt_length m p) as ->.
  { apply get_agree. offsets. intros b Hb. apply H. lia. }
  offsets. rewrite (get_agree m m') by (offsets; intros b Hb; apply H; lia).
  change (mk_info _ _ _ _ _) with info0. rewrite Hrun; [done|]. intros b Hb. apply H. lia.
Qed.

(** * The root tables *)

(** The addresses a root table with entries of [w] bytes lists. *)
Definition listed (m : mem) (root w : Z) : list Z :=
  (fun i => le_val (bytes_at m (root + 36 + i * w) w)) <$> seqZ 0 ((sdt_length m root - 36) / w).

Lemma iter_entries_capture {A} (f : mem -> Z -> A -> A) m n addr w a :
  iter_entries fst n addr w (capture f) (m, a)
  = ((m, foldl (fun a p => f m p a) a
           ((fun i => le_val (bytes_at m (addr + i * w) w)) <$> seqZ 0 (Z.of_nat n))), Ok tt).
Proof.
  revert addr a. induction n as [|n IH]; intros addr a; [done|].
  rewrite Nat2Z.inj_succ, seqZ_cons, Z.pred_succ by lia. cbn [iter_entries fmap list_fmap foldl].
  unfold kbind, gets, capture, modify. cbn [fst]. fold (@capture A f).
  replace (addr + 0 * w) with addr by lia. unfold capture in IH. rewrite IH. do 3 f_equal.
  rewrite <- (fmap_add_seqZ 1 0), <- list_fmap_compose. apply list_fmap_ext. intros i x _. simpl. do 2 f_equal. lia.
Qed.

(** The loop of [iter_xsdt] and [iter_rsdt] over a table that has a header. *)
Lemma iter_root {A} (f : mem -> Z -> A -> A) m root w a :
  mem_ok m -> 0 < w -> 36 <= sdt_length m root ->
  iter_entries fst (Z.to_nat (u64 (sdt_length m root - 36) / w)) (root + 36) w (capture f) (m, a)
  = ((m, foldl (fun a p => f m p a) a (listed m root w)), Ok tt).
Proof.
  intros Hm Hw Hl. pose proof (sdt_length_bound m root Hm). rewrite iter_entries_capture.
  unfold u64, listed. rewrite Z.mod_small by lia. by rewrite Z2Nat.id by (apply Z.div_pos; lia).
Qed.

Lemma foldl_match_table sig m l :
  foldl (fun a p => match_table sig m p a) None l = first_such (fun h => sdt_has_signature m h sig) l.
Proof.
  induction l as [|h l IH]; [done|]. cbn [foldl first_such match_table].
  destruct (sdt_has_signature m h sig); [|done]. clear IH. by induction l.
Qed.

(** [find_table_in_xsdt] gives the first table with the signature. *)
Theorem find_table_correct m root sig :
  mem_ok m -> 36 <= sdt_length m root ->
  find_table_in_xsdt m root sig = Some (first_such (fun h => sdt_has_signature m h sig) (listed m root 8)) /\
  find_table_in_rsdt m root sig = Some (first_such (fun h => sdt_has_signature m h sig) (listed m root 4)).
Proof.
  intros Hm Hl. unfold find_table_in_xsdt, find_table_in_rsdt, iter_xsdt, iter_rsdt, kbind, gets. cbn [fst].
  offsets. by rewrite !iter_root, !foldl_match_table by done.
Qed.

(** The last table with the signature. *)
Definition last_such (m : mem) (sig : list Z) (l : list Z) : option Z :=
  first_such (fun h => sdt_has_signature m h sig) (reverse l).

Lemma last_such_snoc m sig l h :
  last_such m sig (l ++ [h]) = if sdt_has_signature m h sig then Some h else last_such m sig l.
Proof. unfold last_such. by rewrite reverse_snoc. Qed.

Lemma foldl_locate m l p r x :
  foldl (fun a h => locate_table m h a) (mk_tables p r x None None None None) l
  = mk_tables p r x (last_such m APIC l) (last_such m FACP l) (last_such m HPET l) (last_such m MCFG l).
Proof.
  induction l as [|h l IH] using rev_ind; [done|]. rewrite foldl_app, IH. cbn [foldl].
  rewrite !last_such_snoc. unfold locate_table, sdt_has_signature. cbn [rsdp rsdt xsdt madt fadt hpet mcfg].
  unfold APIC, FACP, HPET, MCFG. repeat case_bool_decide; congruence.
Qed.

(** The root table and the size of its entries: the XSDT of an RSDP of
    revision 2 that has one, the RSDT otherwise. *)
Definition root_of (m : mem) (p : Z) : option (Z * Z) :=
  let r := get m Rsdp p "rsdt_address" in
  let x := get m RsdpV2 p "xsdt_address" in
  if (2 <=? get m Rsdp p "revision") && negb (x =? 0) then Some (x, 8)
  else if negb (r =? 0) then Some (r, 4) else None.

(** [from_rsdp] uses the XSDT if the RSDP has one and the RSDT
    otherwise, and records for each of the four signatures the last table the
    root table lists with it, or none. *)
Theorem from_rsdp_correct m p :
  mem_ok m ->
  match root_of m p with
  | Some (root, w) =>
      36 <= sdt_length m root ->
      from_rsdp m p =
        let l := listed m root w in
        Some (mk_tables p (if w =? 4 then Some root else None) (if w =? 8 then Some root else None)
                (last_such m APIC l) (last_such m FACP l) (last_such m HPET l) (last_such m MCFG l))
  | None => from_rsdp m p = Some (mk_tables p None None None None None None)
  end.
Proof.
  intros Hm. unfold root_of, from_rsdp, rsdp_xsdt_address, rsdp_is_v2, rsdp_rsdt_address.
  unfold locate_tables_in_xsdt, locate_tables_in_rsdt, iter_xsdt, iter_rsdt, kbind, gets. cbn [fst].
  destruct (2 <=? _), (negb (get m RsdpV2 p "xsdt_address" =? 0)), (negb (get m Rsdp p "rsdt_address" =? 0));
    cbn [andb]; try done; intros Hl; change (size_of SdtHeader) with 36;
    rewrite iter_root by done; cbn [captured]; by rewrite foldl_locate.
Qed.

(** * The root pointer *)

Definition is_rsdp (m : mem) (a : Z) : bool :=
  bool_decide (bytes_at m a 8 = RSDP_SIGNATURE) && verify_checksum m a 20.

(** The positions the scan of [n] bytes from [a] on tries. *)
Definition rsdp_places (a n : Z) : list Z := (fun i => a + i * 16) <$> seqZ 0 ((n - 20) / 16 + 1).

Lemma rsdp_places_cons a n : 20 <= n -> rsdp_places a n = a :: rsdp_places (a + 16) (n - 16).
Proof.
  intros Hn. unfold rsdp_places. replace (n - 16 - 20) with (n - 20 + -1 * 16) by lia. rewrite Z.div_add by lia.
  pose proof (Z.div_pos (n - 20) 16). rewrite seqZ_cons by lia. cbn [fmap list_fmap]. f_equal; [lia|].
  replace (Z.pred ((n - 20) / 16 + 1)) with ((n - 20) / 16 + -1 + 1) by lia.
  rewrite <- (fmap_add_seqZ 1 0), <- list_fmap_compose. apply list_fmap_ext. intros i x _. simpl. lia.
Qed.

Lemma rsdp_loop_spec fuel m a n :
  (n - 20) / 16 + 1 <= Z.of_nat fuel ->
  rsdp_loop fuel m a (a + n) = first_such (is_rsdp m) (rsdp_places a n).
Proof.
  revert a n. induction fuel as [|fuel IH]; intros a n Hf.
  { unfold rsdp_places. by rewrite seqZ_nil by lia. }
  cbn [rsdp_loop]. offsets. destruct (Z.leb_spec (a + 20) (a + n)).
  - rewrite rsdp_places_cons by lia. cbn [first_such]. fold (is_rsdp m a). destruct (is_rsdp m a); [done|].
    replace (a + n) with (a + 16 + (n - 16)) by lia. apply IH.
    replace (n - 16 - 20) with (n - 20 + -1 * 16) by lia. rewrite Z.div_add by lia. lia.
  - unfold rsdp_places. rewrite seqZ_nil; [done|].
    assert ((n - 20) / 16 < 0) by (apply Z.div_lt_upper_bound; lia). lia.
Qed.

(** [find_rsdp_in_range] gives the first root pointer of the range at a
    multiple of 16 from its start. *)
Theorem find_rsdp_correct m start len :
  0 <= len -> find_rsdp_in_range m start len = first_such (is_rsdp m) (rsdp_places start len).
Proof.
  intros Hlen. apply rsdp_loop_spec. pose proof (Z.div_pos len 16).
  pose proof (Z.div_le_mono (len - 20) len 16). lia.
Qed.

(** * PCIe configuration space *)

Lemma lor_shiftl x y n : 0 <= n -> 0 <= y < 2 ^ n -> Z.lor (Z.shiftl x n) y = x * 2 ^ n + y.
Proof.
  intros Hn Hy. assert (Z.land (Z.shiftl x n) y = 0) as H0.
  { apply Z.bits_inj'. intros k Hk. rewrite Z.land_spec, Z.bits_0, Z.shiftl_spec by done.
    destruct (Z.lt_ge_cases k n); [by rewrite Z.testbit_neg_r by lia|].
    rewrite <- (Z.mod_small y (2 ^ n)), Z.mod_pow2_bits_high by lia. apply andb_false_r. }
  rewrite <- Z.lxor_lor, <- Z.add_nocarry_lxor by done. by rewrite Z.shiftl_mul_pow2.
Qed.

Lemma ecam_offset bus device function :
  0 <= device < 32 -> 0 <= function < 8 ->
  Z.lor (Z.lor (Z.shiftl bus 20) (Z.shiftl device 15)) (Z.shiftl function 12)
  = 4096 * (256 * bus + 8 * device + function).
Proof.
  intros Hd Hf. rewrite (lor_shiftl bus) by (rewrite ?Z.shiftl_mul_pow2 by lia; lia).
  replace (bus * 2 ^ 20 + Z.shiftl device 15) with (Z.shiftl (32 * bus + device) 15)
    by (rewrite !Z.shiftl_mul_pow2 by lia; lia).
  rewrite lor_shiftl by (rewrite ?Z.shiftl_mul_pow2 by lia; lia). rewrite Z.shiftl_mul_pow2 by lia. lia.
Qed.

(** The number of a function in the allocation that starts with bus [first]. *)
Definition function_index (first bus device function : Z) : Z := 256 * (bus - first) + 8 * device + function.

(** [ecam_address] refuses exactly the buses outside the allocation.  The
    functions of the others, 32 devices of 8 functions each, have pages of
    their own, next to each other from the base on. *)
Theorem ecam_address_correct m alloc bus device function :
  mem_ok m -> 0 <= device < 32 -> 0 <= function < 8 ->
  let base := get m McfgAllocation alloc "base_address" in
  let first := get m McfgAllocation alloc "start_bus_number" in
  let final := get m McfgAllocation alloc "end_bus_number" in
  base + 2 ^ 28 <= 2 ^ 64 ->
  ecam_address m alloc bus device function =
    if (first <=? bus) && (bus <=? final)
    then Some (base + 4096 * function_index first bus device function) else None.
Proof.
  intros Hm Hd Hf base first final Hb. unfold ecam_address. fold base first final.
  assert (0 <= base /\ 0 <= first /\ final < 256) as (H0 & H1 & H2).
  { split; [by apply get_nonneg|]. split; [by apply get_nonneg|].
    pose proof (le_val_bound (bytes_at m (alloc + 11) 1) (bytes_at_ok m _ _ Hm)) as Hl.
    rewrite zlen_bytes_at in Hl by done. apply Hl. }
  rewrite !Z.ltb_antisym, <- negb_andb. destruct (_ && _) eqn:E; cbn [negb]; [|done].
  apply andb_true_iff in E as [E1%Z.leb_le E2%Z.leb_le].
  rewrite ecam_offset by done. unfold u64, function_index. rewrite Z.mod_small; [done|]. lia.
Qed.

(** Different functions do not share an address. *)
Lemma function_index_inj first b d f b' d' f' :
  0 <= d < 32 -> 0 <= f < 8 -> 0 <= d' < 32 -> 0 <= f' < 8 ->
  function_index first b d f = function_index first b' d' f' -> b = b' /\ d = d' /\ f = f'.
Proof. unfold function_index. lia. Qed.

(** * Waiting on the timer *)

Lemma wait_loop_hangs fuel timer n start ticks :
  0xFFFFFF < ticks -> wait_loop fuel timer n start ticks = Hang.
Proof.
  intros Ht. revert n. induction fuel as [|fuel IH]; intros n; [done|]. cbn [wait_loop].
  destruct (Z.leb_spec ticks (Z.land (u32 (Z.land (timer n) 0xFFFFFF - start)) 0xFFFFFF)) as [Hl|]; [|apply IH].
  change 0xFFFFFF with (Z.ones 24) in Hl at 2. rewrite Z.land_ones in Hl by lia.
  pose proof (Z.mod_pos_bound (u32 (Z.land (timer n) 0xFFFFFF - start)) (2 ^ 24)). lia.
Qed.

(** The counter has 24 bits and the wait counts no turns of it: a wait of
    4194304 microseconds or more never ends, whatever the timer does. *)
Lemma timer_wait_hangs fuel timer us : 4194304 <= us -> pm_timer_wait_us fuel timer us = Hang.
Proof.
  intros Hu. apply wait_loop_hangs. unfold TICKS_PER_US, u32_max. lia.
Qed.

(** A shorter wait ends with the first read that is far enough from the start. *)
Lemma wait_loop_ends fuel timer n k start ticks :
  (k < fuel)%nat -> ticks <= Z.land (u32 (Z.land (timer (n + k)%nat) 0xFFFFFF - start)) 0xFFFFFF ->
  exists r, wait_loop fuel timer n start ticks = Ok r /\ (r <= n + k + 1)%nat.
Proof.
  revert n k. induction fuel as [|fuel IH]; intros n k Hk Ht; [lia|]. cbn [wait_loop].
  destruct (Z.leb_spec ticks (Z.land (u32 (Z.land (timer n) 0xFFFFFF - start)) 0xFFFFFF)) as [|Hl].
  { exists (S n). split; [done|lia]. }
  destruct k as [|k]; [rewrite Nat.add_0_r in Ht; lia|].
  destruct (IH (S n) k) as (r & Hr & Hle); [lia|by replace (S n + k)%nat with (n + S k)%nat by lia|].
  exists r. split; [done|lia].
Qed.

(** * Mapping *)

Lemma page_down_eq a : page_down a = a - a mod 4096.
Proof.
  unfold page_down. change 0xFFF with (Z.ones 12). rewrite <- Z.ldiff_land, Z.ldiff_ones_r by lia.
  rewrite Z.shiftl_mul_pow2, Z.shiftr_div_pow2 by lia. change (2 ^ 12) with 4096.
  pose proof (Z.div_mod a 4096). lia.
Qed.

(** [map_region] maps the page of every byte of the region. *)
Theorem region_pages_cover base len a :
  base <= a < base + len -> a - a mod 4096 ∈ region_pages base len.
Proof.
  intros Ha. unfold region_pages. rewrite !page_down_eq.
  apply list_elem_of_fmap. exists (a / 4096 - base / 4096).
  pose proof (Z.div_mod a 4096 ltac:(lia)). pose proof (Z.div_mod base 4096 ltac:(lia)).
  pose proof (Z.div_mod (base + len + 0xFFF) 4096 ltac:(lia)).
  split; [lia|]. apply elem_of_seqZ.
  replace (base + len + 0xFFF - (base + len + 0xFFF) mod 4096 - (base - base mod 4096))
    with (((base + len + 0xFFF) / 4096 - base / 4096) * 4096) by lia. rewrite Z.div_mul by lia.
  pose proof (Z.div_le_mono base a 4096). pose proof (Z.mod_pos_bound (base + len + 0xFFF) 4096).
  pose proof (Z.mod_pos_bound a 4096). lia.
Qed.

(** * Examples *)

(** Memory that holds [l] at 4096 and [z] elsewhere. *)
Definition memory_with (z : Z) (l : list Z) : mem :=
  fun a => if (4096 <=? a) && (a <? 4096 + zlen l) then byte_at l (a - 4096) else z.

Lemma memory_with_ok z l : is_byte z -> bytes_ok l -> mem_ok (memory_with z l).
Proof.
  intros Hz Hl a. unfold memory_with. destruct (_ && _) eqn:E; [|done].
  apply andb_true_iff in E as [E1%Z.leb_le E2%Z.ltb_lt]. unfold byte_at, zlen in *.
  rewrite nth_lookup. destruct (l !! Z.to_nat (a - 4096)) as [b|] eqn:Eb; cbn.
  - by apply (Forall_lookup_1 _ _ _ _ Hl Eb).
  - unfold is_byte. lia.
Qed.

(** The header of an SDT with the signature [sig]. *)
Definition sdt_bytes (sig : list Z) (len : Z) : list Z := sig ++ le_bytes 4 len ++ zeros 28.

Definition madt_bytes (lapic : Z) (entries : list Z) : list Z :=
  sdt_bytes APIC (44 + zlen entries) ++ le_bytes 4 lapic ++ zeros 4 ++ entries.

(** Two enabled processors, one that is not, an I/O APIC, an NMI source. *)
Definition some_controllers : list controller :=
  [Cpu 0 7 1; Io 2 0xFEC00000 0; Cpu 1 8 0; Other 4 [255; 0; 0; 1]; Cpu 2 9 3].
Definition some_madt : mem := memory_with 0 (madt_bytes 0xFEE00000 (flat some_controllers)).

Lemma madt_roundtrip_witness :
  parse_madt some_madt 4096
  = Some (mk_info 0xFEE00000 2 ([7; 9] ++ replicate 62 0) 0xFEC00000 0).
Proof.
  apply (madt_roundtrip some_madt 4096 0xFEE00000 some_controllers).
  - unfold some_controllers, controller_ok, is_byte, zlen. repeat constructor; cbn; lia.
  - vm_compute. reflexivity.
  - vm_compute. reflexivity.
  - vm_compute. reflexivity.
Defined.

Lemma some_madt_ok : mem_ok some_madt.
Proof.
  apply memory_with_ok; [unfold is_byte; lia|]. unfold bytes_ok, is_byte. apply (bool_decide_unpack _). by vm_compute.
Qed.

Lemma madt_any_bytes_witness :
  exists info, info_ok info /\
    forall m', (forall b, 4096 <= b < 4096 + Z.max 44 (sdt_length some_madt 4096) + 10 -> m' b = some_madt b) ->
      parse_madt m' 4096 = Some info.
Proof. apply (madt_any_bytes some_madt 4096 some_madt_ok). Defined.

(** A MADT whose last entry is a processor of two bytes: the bytes behind the
    table, here [z], decide whether there is a processor and what its number
    is. *)
Lemma madt_overread :
  let m z := memory_with z (madt_bytes 0 [0; 2]) in
  sdt_length (m 0) 4096 = 46 /\ sdt_length (m 1) 4096 = 46 /\
  (cpu_count <$> parse_madt (m 0) 4096) = Some 0 /\ (cpu_count <$> parse_madt (m 1) 4096) = Some 1.
Proof. vm_compute. done. Qed.

(** A root table whose length is below that of its header: about 2^62
    entries are read. *)
Lemma short_root_count len : 0 <= len < 36 -> 2 ^ 62 - 10 <= u64 (len - size_of SdtHeader) / 4.
Proof.
  intros Hl. offsets. unfold u64. replace (len - 36) with (len - 36 + 2 ^ 64 + -1 * 2 ^ 64) by lia.
  rewrite Z.mod_add, Z.mod_small by lia. apply Z.div_le_lower_bound; lia.
Qed.

End AcpiTheorems.
