(* ===== verification/Loader.v ===== *)
(** The loader of user programs: src/src/loader.rs.

    [parse_kef] reads the header of an executable, [load_kef] maps its image
    and its stack into an address space.  The result of a load is stated as
    the bytes the program sees at each of its addresses. *)

From S2P Require Import Prelude Frame FrameProofs Paging PagingProofs Space SpaceDrop SpaceHeap SpaceTheorems.
Open Scope kmonad_scope.
Implicit Types (T : tree) (p : phys) (B : gset Z).

(** * Operations *)

(** The error messages. *)
Inductive KefError : Type :=
| BadMagic
| TooSmall
| EmptyCode
| BadRange
| Truncated
| ArgsTooLong
| OomCode
| OomStack.

(** [file_data.get(lo..hi)] *)
Definition get_range (l : list Z) (lo hi : Z) : option (list Z) :=
  if (lo <=? hi) && (hi <=? zlen l) then Some (slice lo hi l) else None.

Definition header_u32 (file_data : list Z) (offset : Z) : option Z :=
  le_val <$> get_range file_data offset (offset + 4).

(** The magic: [KEF] and the version. *)
Definition kef_version (magic : list Z) : option Z :=
  if decide (magic = [75; 69; 70; 0]) then Some 0
  else if decide (magic = [75; 69; 70; 1]) then Some 1
  else None.

(** Entry offset, code offset, code size, end of the code in the file. *)
Definition parse_kef (file_data : list Z) : KefError + Z * Z * Z * Z :=
  match get_range file_data 0 4 with
  | None => inl TooSmall
  | Some magic =>
      match kef_version magic with
      | None => inl BadMagic
      | Some version =>
          match header_u32 file_data 4, header_u32 file_data 8, header_u32 file_data 12,
                (if version =? 0 then header_u32 file_data 12 else header_u32 file_data 16) with
          | Some entry_offset, Some code_offset, Some code_size, Some init_size =>
              if code_size =? 0 then inl EmptyCode
              else if (code_size <? init_size) || (code_size <=? entry_offset) then inl BadRange
              else match checked_add64 code_offset init_size with
                   | Some file_code_end =>
                       if file_code_end <=? zlen file_data
                       then inr (entry_offset, code_offset, code_size, file_code_end)
                       else inl Truncated
                   | None => inl Truncated
                   end
          | _, _, _, _ => inl TooSmall
          end
      end
  end.

(** [code.chunks(PAGE_SIZE).nth(i)], and nothing past the last chunk. *)
Definition chunk (code : list Z) (i : Z) : list Z := take 4096 (drop (Z.to_nat (4096 * i)) code).

(** [copy_nonoverlapping(src, frame, src.len())] *)
Definition copy_to (a : Z) (src : list Z) : P unit :=
  modify (fun p => mk_phys (store (pmem p) a src) (frames p)).

(** The loop over the code pages, from page [i]. *)
Fixpoint load_code (n : nat) (root : Z) (code : list Z) (i : Z) : P bool :=
  match n with
  | O => kret true
  | S n =>
      let! r := map_new_page root (USER_CODE_BASE + i * PAGE_SIZE) true true in
      match r with
      | None => kret false
      | Some frame => run! copy_to frame (chunk code i) in load_code n root code (i + 1)
      end
  end.

Definition STACK_PAGES : Z := 4.

(** [for i in (1..=STACK_PAGES).rev()]: the frame of the last page mapped. *)
Fixpoint load_stack (l : list Z) (root top_frame : Z) : P (option Z) :=
  match l with
  | [] => kret (Some top_frame)
  | i :: l =>
      let! r := map_new_page root (USER_STACK_TOP - i * PAGE_SIZE) true false in
      match r with
      | None => kret None
      | Some frame => load_stack l root frame
      end
  end.

Definition args_place (n : Z) : Z := (USER_STACK_TOP - n) - (USER_STACK_TOP - n) mod 16.

Definition load_kef (file_data : list Z) (root : Z) (args : list Z) : P (KefError + Z * Z * Z) :=
  match parse_kef file_data with
  | inl e => kret (inl e)
  | inr (entry_offset, code_offset, code_size, file_code_end) =>
      if PAGE_SIZE / 2 <? zlen args then kret (inl ArgsTooLong)
      else
        let! ok := load_code (Z.to_nat ((code_size + 4095) / 4096)) root
                     (slice code_offset file_code_end file_data) 0 in
        if negb ok then kret (inl OomCode)
        else
          let! top := load_stack (rev (seqZ 1 STACK_PAGES)) root 0 in
          match top with
          | None => kret (inl OomStack)
          | Some top_frame =>
              let args_ptr := args_place (zlen args) in
              run! copy_to (top_frame + (args_ptr - (USER_STACK_TOP - PAGE_SIZE))) args in
              kret (inr (USER_CODE_BASE + entry_offset, args_ptr, args_ptr))
          end
  end.

(** * What a program sees *)

Section view.
Context `{KernelHalf}.

(** The byte and the permissions at a user address. *)
Definition user_byte p T (v : Z) : option (Z * Z) :=
  (fun e => (pmem p (Z.land e ADDRESS_MASK + v mod 4096), Z.land e (Z.lnot ADDRESS_MASK))) <$> T !! path v.

Lemma kept_agree T B m m' : kept T B m m' -> agree B m m'.
Proof. intros HK f b Hf Hb. apply (HK f b); [by left|done]. Qed.

Lemma user_byte_kept p p' T T' B v :
  same_pages T T' -> kept T B (pmem p) (pmem p') -> user_byte p' T' v = user_byte p T v.
Proof.
  intros [_ Hp] HK. unfold user_byte. rewrite (Hp (path v)) by done.
  destruct (T !! path v) as [e|] eqn:E; [|done]. cbn [fmap option_fmap option_map]. do 2 f_equal.
  apply (HK (Z.land e ADDRESS_MASK)); [right; by exists (path v), e|].
  pose proof (Z.mod_pos_bound v 4096 ltac:(lia)). unfold PAGE_SIZE. lia.
Qed.

Lemma path_page v w : v / 4096 = w / 4096 -> path v = path w.
Proof.
  intros E. unfold path, table_path.
  replace 12 with (12 + 9 * 0) by lia. replace 21 with (12 + 9 * 1) by lia.
  replace 30 with (12 + 9 * 2) by lia. replace 39 with (12 + 9 * 3) by lia.
  by rewrite !index_div, E by lia.
Qed.

Lemma leaf_flags f w x : frame_ok f ->
  Z.land (Z.lor f (page_flags w x)) (Z.lnot ADDRESS_MASK) = page_flags w x.
Proof.
  intros Hf. rewrite Z.land_lor_distr_l.
  assert (Z.land f (Z.lnot ADDRESS_MASK) = 0) as ->.
  { rewrite <- (land_mask_frame f Hf), <- Z.land_assoc, Z.land_lnot_diag. apply Z.land_0_r. }
  by destruct w, x.
Qed.

(** Mapping a page adds it, zeroed, and changes nothing else the program sees. *)
Lemma map_view virt w x p root T av B :
  Owns p root T av B -> user virt ->
  exists p' T' av' r, map_new_page root virt w x p = (p', Ok r) /\
    Owns p' root T' av' B /\ agree B (pmem p) (pmem p') /\
    match r with
    | Some f => (exists e, T' !! path virt = Some e /\ Z.land e ADDRESS_MASK = f) /\ T !! path virt = None /\
        forall v, user v -> user_byte p' T' v =
          if decide (v / 4096 = virt / 4096) then Some (0, page_flags w x) else user_byte p T v
    | None => (forall v, user_byte p' T' v = user_byte p T v) /\
        (T !! path virt = None -> (length av' <= 1)%nat)
    end.
Proof.
  intros HO Hu. destruct (map_new_page_spec virt w x p root T av B HO) as (p' & T' & av' & r & Hrun & Hsp & Hk & Hr).
  destruct r as [f|].
  - destruct Hr as (_ & Hnone & Hf & HO' & Hz).
    destruct (page_flags_ok w x) as (Hfl & Hpr & Hm).
    destruct (leaf_entry f (page_flags w x) Hf Hfl Hpr Hm) as [_ Hframe].
    eexists p', _, av', (Some f). split; [exact Hrun|]. split; [exact HO'|].
    split; [by apply kept_agree in Hk|]. split; [|split; [done|]].
    + exists (Z.lor f (page_flags w x)). by rewrite lookup_insert_eq.
    + intros v Hv. case_decide as E.
      * unfold user_byte. rewrite (path_page v virt E), lookup_insert_eq. cbn [fmap option_fmap option_map].
        rewrite Hframe, leaf_flags by done. rewrite Hz; [done|].
        pose proof (Z.mod_pos_bound v 4096 ltac:(lia)). unfold PAGE_SIZE. lia.
      * rewrite <- (user_byte_kept p p' T T' B v) by done. unfold user_byte.
        rewrite lookup_insert_ne; [done|]. intros E'. apply E. symmetry. by apply path_inj.
  - destruct Hr as [HO' Hwhy]. exists p', T', av', None. split; [done|]. split; [done|].
    split; [by apply kept_agree in Hk|]. split; [intros v; by apply (user_byte_kept p p' T T' B)|].
    intros Hnone. destruct (Hwhy Hu Hnone) as [f [-> | ->]]; simpl; lia.
Qed.

(** Copying into a mapped page. *)
Lemma copy_view virt e off src p root T av B :
  Owns p root T av B -> user virt -> T !! path virt = Some e ->
  0 <= off -> off + zlen src <= 4096 ->
  exists p', copy_to (Z.land e ADDRESS_MASK + off) src p = (p', Ok tt) /\
    Owns p' root T av B /\ agree B (pmem p) (pmem p') /\
    forall v, user v -> user_byte p' T v =
      if decide (v / 4096 = virt / 4096 /\ off <= v mod 4096 < off + zlen src)
      then Some (byte_at src (v mod 4096 - off), Z.land e (Z.lnot ADDRESS_MASK)) else user_byte p T v.
Proof.
  intros HO Hu He Ho Hl. set (f := Z.land e ADDRESS_MASK).
  set (p' := mk_phys (store (pmem p) (f + off) src) (frames p)).
  destruct HO as [HP HS HD].
  assert (node_frame (path virt) e = f) as Hnf by (unfold node_frame; by rewrite decide_True).
  assert (f ∈ owned T) as HfT by (apply elem_of_owned; by exists (path virt), e).
  assert (frame_ok f) as Hf by (apply (pl_ok _ _ _ HP); right; by apply elem_of_union_l).
  assert (forall g b, frame_ok g -> g <> f -> g <= b < g + PAGE_SIZE -> pmem p' b = pmem p b) as Hother.
  { intros g b Hg Hne Hb. apply store_other. pose proof (frames_apart g f b Hg Hf Hne Hb).
    unfold PAGE_SIZE in *. lia. }
  exists p'. split; [done|]. split; [split; [| |done]|split].
  - apply pool_write; [done|]. intros b. destruct (decide (f <= b < f + PAGE_SIZE)).
    + right. exists f. split; [by apply elem_of_union_l|done].
    + left. apply store_other. unfold PAGE_SIZE in *. lia.
  - apply Space_ext with (pmem p); [done|]. intros k t b Hk Hlk Hb. apply (Hother t); try done.
    + by apply (sp_table _ _ _ HS k).
    + intros ->. assert (k = path virt) as ->; [|simpl in Hlk; lia].
      apply (sp_inj _ _ _ HS k (path virt) f e); [done|done|]. by rewrite Hnf, node_frame_table.
  - intros g b Hg Hb. apply (Hother g); try done; [apply (pl_ok _ _ _ HP); right; by apply elem_of_union_r|].
    intros ->. by apply (HD f).
  - intros v Hv. pose proof (Z.mod_pos_bound v 4096 ltac:(lia)) as Hmod. unfold user_byte.
    destruct (decide (v / 4096 = virt / 4096)) as [E|E].
    + rewrite (path_page v virt E), He. cbn [fmap option_fmap option_map]. fold f. unfold p', store. simpl.
      case_decide as Hin.
      * rewrite (proj2 (Z.leb_le _ _)), (proj2 (Z.ltb_lt _ _)) by lia. simpl. do 3 f_equal. lia.
      * destruct (Z.leb_spec (f + off) (f + v mod 4096)), (Z.ltb_spec (f + v mod 4096) (f + off + zlen src)); simpl; try done.
        exfalso. apply Hin. split; [done|lia].
    + rewrite decide_False by (by intros [? _]). destruct (T !! path v) as [e'|] eqn:E'; [|done].
      cbn [fmap option_fmap option_map]. do 2 f_equal.
      apply (Hother (Z.land e' ADDRESS_MASK)); [| |unfold PAGE_SIZE; lia].
      * pose proof (sp_frame_ok _ _ _ _ _ HS E') as Hok. unfold node_frame in Hok. by rewrite decide_True in Hok.
      * intros Heq. apply E. apply path_inj; [done|done|].
        apply (sp_inj _ _ _ HS _ _ e' e); [done|done|]. rewrite Hnf. unfold node_frame. by rewrite decide_True.
Qed.

(** * The code pages *)

Lemma byte_at_chunk code i k :
  0 <= i -> 0 <= k < 4096 -> byte_at (chunk code i) k = byte_at code (4096 * i + k).
Proof.
  intros Hi Hk. unfold byte_at, chunk. rewrite !nth_lookup, lookup_take_lt, lookup_drop by lia.
  do 2 f_equal. lia.
Qed.

Lemma zlen_chunk code i : zlen (chunk code i) <= 4096.
Proof. unfold zlen, chunk. rewrite length_take. lia. Qed.

(** What the program sees once the image fills the pages from [lo] up to [hi]. *)
Definition with_code (code : list Z) (lo hi : Z) (u : Z -> option (Z * Z)) (v : Z) : option (Z * Z) :=
  if decide (USER_CODE_BASE + lo * 4096 <= v < USER_CODE_BASE + hi * 4096)
  then Some (byte_at code (v - USER_CODE_BASE), page_flags true true) else u v.

Lemma code_user i : 0 <= i < 2 ^ 21 -> user (USER_CODE_BASE + i * PAGE_SIZE).
Proof.
  intros Hi. unfold user, USER_CODE_BASE, PAGE_SIZE. change USER_SPACE_START with (2 ^ 46).
  change USER_SPACE_END with (2 ^ 47). lia.
Qed.

Lemma code_page i v : (v / 4096 = (USER_CODE_BASE + i * PAGE_SIZE) / 4096) <->
  USER_CODE_BASE + i * 4096 <= v < USER_CODE_BASE + (i + 1) * 4096.
Proof. unfold PAGE_SIZE. change USER_CODE_BASE with (2 ^ 46). dlia. Qed.

(** One iteration of the loop. *)
Lemma code_step code i p root T av B :
  Owns p root T av B -> 0 <= i < 2 ^ 21 ->
  exists p' T' av' r, map_new_page root (USER_CODE_BASE + i * PAGE_SIZE) true true p = (p', Ok r) /\
    match r with
    | Some f => exists p2, copy_to f (chunk code i) p' = (p2, Ok tt) /\
        Owns p2 root T' av' B /\ agree B (pmem p) (pmem p2) /\
        forall v, user v -> user_byte p2 T' v = with_code code i (i + 1) (user_byte p T) v
    | None => Owns p' root T' av' B /\ agree B (pmem p) (pmem p') /\
        (T !! path (USER_CODE_BASE + i * PAGE_SIZE) = None -> (length av' <= 1)%nat)
    end.
Proof.
  intros HO Hi. pose proof (code_user i Hi) as Hu.
  destruct (map_view _ true true p root T av B HO Hu) as (p1 & T1 & av1 & r & Hrun & HO1 & Ha1 & Hr).
  exists p1, T1, av1, r. split; [done|]. destruct r as [f|]; [|naive_solver].
  destruct Hr as ((e & He & <-) & _ & Hview).
  destruct (copy_view _ e 0 (chunk code i) p1 root T1 av1 B HO1 Hu He) as (p2 & Hrun2 & HO2 & Ha2 & Hview2);
    [lia|pose proof (zlen_chunk code i); lia|].
  rewrite Z.add_0_r in Hrun2. exists p2. split; [done|]. split; [done|].
  split; [intros g b Hg Hb; by rewrite (Ha2 g b), (Ha1 g b)|].
  intros v Hv. rewrite Hview2, Hview by done. unfold with_code.
  pose proof (Z.mod_pos_bound v 4096 ltac:(lia)) as Hmod.
  assert (v / 4096 = (USER_CODE_BASE + i * PAGE_SIZE) / 4096 -> v - USER_CODE_BASE = 4096 * i + v mod 4096) as Hoff.
  { intros E. apply code_page in E. change USER_CODE_BASE with (2 ^ 46) in *. dlia. }
  assert (v / 4096 = (USER_CODE_BASE + i * PAGE_SIZE) / 4096 ->
    Some (0, page_flags true true) = user_byte p1 T1 v) as Hz by (intros E; by rewrite Hview, decide_True).
  destruct (decide (v / 4096 = (USER_CODE_BASE + i * PAGE_SIZE) / 4096)) as [E|E].
  - rewrite (decide_True (P := USER_CODE_BASE + i * 4096 <= _ < _)) by (by apply code_page).
    rewrite Hoff, <- byte_at_chunk by (done || lia).
    case_decide as Hin.
    + rewrite Z.sub_0_r. specialize (Hz E). unfold user_byte in Hz. rewrite (path_page v _ E), He in Hz.
      cbn [fmap option_fmap option_map] in Hz. congruence.
    + rewrite byte_at_beyond by (apply Z.nlt_ge; intros ?; apply Hin; split; [done|lia]). done.
  - rewrite decide_False by (by intros [? _]). by rewrite decide_False by (by rewrite <- code_page).
Qed.

Lemma load_code_spec code n i p root T av B :
  Owns p root T av B -> 0 <= i -> i + Z.of_nat n <= 2 ^ 21 ->
  exists p' T' av' ok, load_code n root code i p = (p', Ok ok) /\
    Owns p' root T' av' B /\ agree B (pmem p) (pmem p') /\
    if ok : bool then forall v, user v -> user_byte p' T' v = with_code code i (i + Z.of_nat n) (user_byte p T) v
    else (forall v, user v -> USER_CODE_BASE + i * 4096 <= v -> v < USER_CODE_BASE + (i + Z.of_nat n) * 4096 -> T !! path v = None) -> (length av' <= 1)%nat.
Proof.
  revert i p T av. induction n as [|n IH]; intros i p T av HO Hi Hn.
  - exists p, T, av, true. split; [done|]. split; [done|]. split; [done|]. intros v Hv. unfold with_code.
    rewrite decide_False by lia. done.
  - cbn [load_code].
    destruct (code_step code i p root T av B HO ltac:(lia)) as (p1 & T1 & av1 & r & Hrun & Hr).
    rewrite (kbind_Ok _ _ _ _ _ Hrun). destruct r as [f|].
    + destruct Hr as (p2 & Hrun2 & HO2 & Ha2 & Hview2). rewrite (kbind_Ok _ _ _ _ _ Hrun2).
      destruct (IH (i + 1) p2 T1 av1 HO2 ltac:(lia) ltac:(lia)) as (p3 & T3 & av3 & ok & Hrun3 & HO3 & Ha3 & Hok).
      exists p3, T3, av3, ok. split; [done|]. split; [done|].
      split; [intros g b Hg Hb; by rewrite (Ha3 g b), (Ha2 g b)|]. destruct ok.
      * intros v Hv. rewrite Hok by done. unfold with_code. rewrite Hview2 by done. unfold with_code.
        repeat case_decide; done || lia.
      * intros Hfree. apply Hok. intros v Hv Hlo Hhi.
        assert (user_byte p2 T1 v = None) as Hnone.
        { rewrite Hview2 by done. unfold with_code. rewrite decide_False by lia. unfold user_byte.
          by rewrite (Hfree v) by (done || lia). }
        unfold user_byte in Hnone. by destruct (T1 !! path v).
    + destruct Hr as (HO1 & Ha1 & Hwhy). exists p1, T1, av1, false. split; [done|]. split; [done|]. split; [done|].
      intros Hfree. apply Hwhy. apply Hfree; [apply code_user; lia|unfold PAGE_SIZE; lia|unfold PAGE_SIZE; lia].
Qed.

(** * The stack *)

(** The page of the stack an address is in, counted from its top. *)
Definition stack_page (v : Z) : Z := (USER_STACK_TOP - 1 - v) / 4096 + 1.

Definition with_stack (l : list Z) (u : Z -> option (Z * Z)) (v : Z) : option (Z * Z) :=
  if decide (stack_page v ∈ l) then Some (0, page_flags true false) else u v.

Lemma stack_user i : 1 <= i <= STACK_PAGES -> user (USER_STACK_TOP - i * PAGE_SIZE).
Proof.
  unfold STACK_PAGES, user, PAGE_SIZE. change USER_SPACE_START with (2 ^ 46). change USER_SPACE_END with (2 ^ 47).
  change USER_STACK_TOP with (2 ^ 47 - 16 * 4096). lia.
Qed.

Lemma stack_page_eq i v : v / 4096 = (USER_STACK_TOP - i * PAGE_SIZE) / 4096 <-> stack_page v = i.
Proof. unfold stack_page, PAGE_SIZE. change USER_STACK_TOP with (2 ^ 47 - 16 * 4096). dlia. Qed.

Lemma load_stack_spec l top p root T av B :
  Owns p root T av B -> (forall i, i ∈ l -> 1 <= i <= STACK_PAGES) -> NoDup l ->
  exists p' T' av' r, load_stack l root top p = (p', Ok r) /\
    Owns p' root T' av' B /\ agree B (pmem p) (pmem p') /\
    match r with
    | Some f => (forall v, user v -> user_byte p' T' v = with_stack l (user_byte p T) v) /\
        (f = top /\ l = [] /\ T' = T \/
         exists i e, last l = Some i /\ T' !! path (USER_STACK_TOP - i * PAGE_SIZE) = Some e /\ Z.land e ADDRESS_MASK = f)
    | None => (forall i, i ∈ l -> T !! path (USER_STACK_TOP - i * PAGE_SIZE) = None) -> (length av' <= 1)%nat
    end.
Proof.
  revert top p T av. induction l as [|i l IH]; intros top p T av HO Hl Hnd.
  - exists p, T, av, (Some top). split; [done|]. split; [done|]. split; [done|]. split; [|by left].
    intros v _. unfold with_stack. rewrite decide_False; [done|apply not_elem_of_nil].
  - apply NoDup_cons in Hnd as [Hi Hnd]. cbn [load_stack].
    assert (user (USER_STACK_TOP - i * PAGE_SIZE)) as Hu by (apply stack_user, Hl; left).
    destruct (map_view _ true false p root T av B HO Hu) as (p1 & T1 & av1 & r & Hrun & HO1 & Ha1 & Hr).
    rewrite (kbind_Ok _ _ _ _ _ Hrun). destruct r as [f|].
    2: { exists p1, T1, av1, None. split; [done|]. split; [done|]. split; [done|]. intros Hfree.
         destruct Hr as [_ Hwhy]. apply Hwhy, Hfree. left. }
    destruct Hr as ((e & He & Hf) & _ & Hview).
    destruct (IH f p1 T1 av1 HO1) as (p2 & T2 & av2 & r & Hrun2 & HO2 & Ha2 & Hr2);
      [intros j Hj; apply Hl; by right|done|].
    exists p2, T2, av2, r. split; [done|]. split; [done|].
    split; [intros g b Hg Hb; by rewrite (Ha2 g b), (Ha1 g b)|]. destruct r as [f2|].
    + destruct Hr2 as [Hview2 Htop]. split.
      * intros v Hv. rewrite Hview2 by done. unfold with_stack. rewrite Hview by done.
        destruct (decide (stack_page v ∈ l)) as [Hin|Hin]; [rewrite decide_True by (by right); done|].
        case_decide as E; rewrite stack_page_eq in E.
        -- rewrite decide_True by (rewrite E; left). done.
        -- rewrite decide_False; [done|]. rewrite elem_of_cons. by intros [?|?].
      * right. destruct Htop as [(-> & -> & ->)|(j & e' & Hj & He' & Hf')]; [by exists i, e|].
        exists j, e'. split; [|done]. by destruct l.
    + intros Hfree. apply Hr2. intros j Hj.
      assert (user_byte p1 T1 (USER_STACK_TOP - j * PAGE_SIZE) = None) as Hnone.
      { rewrite Hview by (apply stack_user, Hl; by right). case_decide as E.
        - exfalso. apply Hi. replace i with j; [done|]. apply stack_page_eq in E. rewrite <- E.
          symmetry. by apply stack_page_eq.
        - unfold user_byte. by rewrite Hfree by by right. }
      unfold user_byte in Hnone. by destruct (T1 !! path (USER_STACK_TOP - j * PAGE_SIZE)).
Qed.

(** * The whole load *)

(** What a program sees once it is loaded. *)
Definition program (code : list Z) (code_size : Z) (args : list Z) (v : Z) : option (Z * Z) :=
  let ap := args_place (zlen args) in
  if decide (USER_CODE_BASE <= v < USER_CODE_BASE + (code_size + 4095) / 4096 * 4096)
  then Some (byte_at code (v - USER_CODE_BASE), page_flags true true)
  else if decide (USER_STACK_TOP - STACK_PAGES * 4096 <= v < USER_STACK_TOP)
  then Some (if decide (ap <= v < ap + zlen args) then byte_at args (v - ap) else 0, page_flags true false)
  else None.

Lemma get_range_Some l lo hi k : get_range l lo hi = Some k -> lo <= hi <= zlen l /\ k = slice lo hi l.
Proof. unfold get_range. zcase; simpl; intros ?; simplify_eq. split; [lia|done]. Qed.

Lemma header_u32_range data o x : bytes_ok data -> 0 <= o -> header_u32 data o = Some x -> 0 <= x < 2 ^ 32.
Proof.
  intros Hb Ho. unfold header_u32. destruct (get_range data o (o + 4)) as [k|] eqn:E; [|done].
  apply get_range_Some in E as [Hl ->]. cbn. intros [= <-].
  pose proof (le_val_bound (slice o (o + 4) data) (slice_ok _ _ _ Hb)) as Hv.
  rewrite zlen_slice in Hv by lia. replace (8 * (o + 4 - o)) with 32 in Hv by lia. done.
Qed.

(** An accepted header describes a range of the file and an entry in the image. *)
Lemma parse_kef_ok data eo co cs fe :
  bytes_ok data -> parse_kef data = inr (eo, co, cs, fe) ->
  0 <= co <= fe /\ fe <= zlen data /\ fe - co <= cs /\ 0 <= eo < cs /\ cs < 2 ^ 32.
Proof.
  intros Hb. unfold parse_kef. destruct (get_range data 0 4) as [magic|]; [|done].
  destruct (kef_version magic) as [ver|]; [|done].
  destruct (header_u32 data 4) as [eo'|] eqn:E4; [|done]. destruct (header_u32 data 8) as [co'|] eqn:E8; [|done].
  destruct (header_u32 data 12) as [cs'|] eqn:E12; [|done].
  apply header_u32_range in E4, E8; [|done || lia..].
  pose proof (header_u32_range data 12 cs' Hb ltac:(lia) E12) as R12.
  destruct (if ver =? 0 then _ else _) as [isz|] eqn:E16; [|done].
  assert (0 <= isz) as R16.
  { destruct (ver =? 0); [simplify_eq; lia|]. apply header_u32_range in E16; [lia|done|lia]. }
  unfold checked_add64. zcase; simpl; try done; intros ?; simplify_eq; lia.
Qed.

Lemma args_place_ok n : 0 <= n <= PAGE_SIZE / 2 ->
  args_place n mod 16 = 0 /\ USER_STACK_TOP - PAGE_SIZE < args_place n /\ args_place n + n <= USER_STACK_TOP.
Proof.
  unfold args_place. change (PAGE_SIZE / 2) with 2048. change PAGE_SIZE with 4096.
  change USER_STACK_TOP with (2 ^ 47 - 16 * 4096). intros. dlia.
Qed.

Lemma stack_range v : stack_page v ∈ rev (seqZ 1 STACK_PAGES) <-> USER_STACK_TOP - STACK_PAGES * 4096 <= v < USER_STACK_TOP.
Proof.
  change (rev (seqZ 1 STACK_PAGES)) with [4; 3; 2; 1]. unfold STACK_PAGES, stack_page.
  change USER_STACK_TOP with (2 ^ 47 - 16 * 4096).
  rewrite !elem_of_cons, elem_of_nil. dlia.
Qed.

(** The stack with the arguments at its top. *)
Lemma load_args_spec args p root T av B :
  Owns p root T av B -> zlen args <= PAGE_SIZE / 2 ->
  exists p' T' av' r, load_stack (rev (seqZ 1 STACK_PAGES)) root 0 p = (p', Ok r) /\
    match r with
    | Some f => exists p2,
        copy_to (f + (args_place (zlen args) - (USER_STACK_TOP - PAGE_SIZE))) args p' = (p2, Ok tt) /\
        Owns p2 root T' av' B /\ agree B (pmem p) (pmem p2) /\
        forall v, user v -> user_byte p2 T' v =
          if decide (USER_STACK_TOP - STACK_PAGES * 4096 <= v < USER_STACK_TOP)
          then let ap := args_place (zlen args) in
               Some (if decide (ap <= v < ap + zlen args) then byte_at args (v - ap) else 0, page_flags true false)
          else user_byte p T v
    | None => Owns p' root T' av' B /\ agree B (pmem p) (pmem p') /\
        ((forall i, 1 <= i <= STACK_PAGES -> T !! path (USER_STACK_TOP - i * PAGE_SIZE) = None) -> (length av' <= 1)%nat)
    end.
Proof.
  intros HO Hargs. pose proof (args_place_ok (zlen args) ltac:(pose proof (zlen_nonneg args); lia)) as (_ & Hap1 & Hap2).
  assert (forall i, i ∈ rev (seqZ 1 STACK_PAGES) -> 1 <= i <= STACK_PAGES) as Hin.
  { change (rev (seqZ 1 STACK_PAGES)) with [4; 3; 2; 1]. unfold STACK_PAGES. intros i.
    rewrite !elem_of_cons, elem_of_nil. lia. }
  destruct (load_stack_spec (rev (seqZ 1 STACK_PAGES)) 0 p root T av B HO Hin) as (p1 & T1 & av1 & r & Hrun & HO1 & Ha1 & Hr).
  { change (rev (seqZ 1 STACK_PAGES)) with [4; 3; 2; 1]. by repeat (apply NoDup_cons; split; [set_solver|]); apply NoDup_nil. }
  exists p1, T1, av1, r. split; [done|]. destruct r as [f|].
  2: { split; [done|]. split; [done|]. intros Hfree. apply Hr. intros i Hi. by apply Hfree, Hin. }
  destruct Hr as [Hview [(_ & Hnil & _)|(i & e & Hi & He & <-)]]; [by vm_compute in Hnil|].
  change (last (rev (seqZ 1 STACK_PAGES))) with (Some 1) in Hi. injection Hi as <-.
  assert (user (USER_STACK_TOP - 1 * PAGE_SIZE)) as Hu by (by apply stack_user).
  destruct (copy_view _ e (args_place (zlen args) - (USER_STACK_TOP - PAGE_SIZE)) args p1 root T1 av1 B HO1 Hu He)
    as (p2 & Hrun2 & HO2 & Ha2 & Hview2); [lia|unfold PAGE_SIZE in *; lia|].
  exists p2. split; [done|]. split; [done|]. split; [intros g b Hg Hb; by rewrite (Ha2 g b), (Ha1 g b)|].
  intros v Hv. assert (user_byte p1 T1 v = with_stack (rev (seqZ 1 STACK_PAGES)) (user_byte p T) v) as Hv1 by (by apply Hview).
  rewrite Hview2 by done. unfold with_stack in Hv1.
  destruct (decide (USER_STACK_TOP - STACK_PAGES * 4096 <= v < USER_STACK_TOP)) as [Hs|Hs].
  - rewrite decide_True in Hv1 by (by apply stack_range). case_decide as Hc.
    + destruct Hc as [Hpage Hc]. assert (v mod 4096 = v - (USER_STACK_TOP - PAGE_SIZE)) as Hmod.
      { apply stack_page_eq in Hpage. unfold stack_page, PAGE_SIZE in *. change USER_STACK_TOP with (2 ^ 47 - 16 * 4096) in *. dlia. }
      cbn zeta. rewrite decide_True by lia. unfold user_byte in Hv1. rewrite (path_page v _ Hpage), He in Hv1.
      cbn [fmap option_fmap option_map] in Hv1. injection Hv1 as _ ->. do 3 f_equal. lia.
    + rewrite Hv1. cbn zeta. rewrite decide_False; [done|]. intros Hc'. apply Hc.
      unfold PAGE_SIZE in *. change USER_STACK_TOP with (2 ^ 47 - 16 * 4096) in *. split; dlia.
  - rewrite decide_False in Hv1 by (by rewrite stack_range). rewrite decide_False; [done|].
    intros [Hpage _]. apply Hs. apply stack_page_eq in Hpage. apply stack_range. rewrite Hpage.
    change (rev (seqZ 1 STACK_PAGES)) with [4; 3; 2; 1]. set_solver.
Qed.

(** * Theorems *)

Lemma load_kef_spec data args p root T av B :
  bytes_ok data -> Owns p root T av B -> (forall k, length k = 4%nat -> T !! k = None) ->
  exists p' T' av' r, load_kef data root args p = (p', Ok r) /\
    Owns p' root T' av' B /\ agree B (pmem p) (pmem p') /\
    match r with
    | inr (entry_point, rsp, args_ptr) => exists eo co cs fe, parse_kef data = inr (eo, co, cs, fe) /\
        entry_point = USER_CODE_BASE + eo /\ rsp = args_ptr /\ args_ptr = args_place (zlen args) /\
        args_ptr mod 16 = 0 /\ USER_STACK_TOP - PAGE_SIZE < args_ptr /\ args_ptr + zlen args <= USER_STACK_TOP /\
        forall v, user v -> user_byte p' T' v = program (slice co fe data) cs args v
    | inl (OomCode | OomStack) => (length av' <= 1)%nat
    | inl ArgsTooLong => PAGE_SIZE / 2 < zlen args /\ p' = p
    | inl e => parse_kef data = inl e /\ p' = p
    end.
Proof.
  intros Hb HO Hfree. unfold load_kef.
  destruct (parse_kef data) as [e|[[[eo co] cs] fe]] eqn:Hparse.
  { exists p, T, av, (inl e). split; [done|]. split; [done|]. split; [done|].
    destruct e; try done; unfold parse_kef in Hparse; repeat case_match; simplify_eq. }
  destruct (parse_kef_ok data eo co cs fe Hb Hparse) as (Hco & Hfe & Hsz & Heo & Hcs).
  destruct (Z.ltb_spec (PAGE_SIZE / 2) (zlen args)) as [Hlong|Hargs].
  { by exists p, T, av, (inl ArgsTooLong). }
  set (code := slice co fe data). set (n := (cs + 4095) / 4096).
  assert (0 <= n <= 2 ^ 20) as Hn by (unfold n; dlia).
  destruct (load_code_spec code (Z.to_nat n) 0 p root T av B HO) as (p1 & T1 & av1 & ok & Hrun1 & HO1 & Ha1 & Hok);
    [lia|lia|]. rewrite (kbind_Ok _ _ _ _ _ Hrun1). destruct ok; cbn [negb].
  2: { exists p1, T1, av1, (inl OomCode). split; [done|]. split; [done|]. split; [done|]. apply Hok.
       intros v _ _ _. by apply Hfree. }
  destruct (load_args_spec args p1 root T1 av1 B HO1 Hargs) as (p2 & T2 & av2 & r & Hrun2 & Hr).
  rewrite (kbind_Ok _ _ _ _ _ Hrun2). destruct r as [f|].
  - destruct Hr as (p3 & Hrun3 & HO3 & Ha3 & Hview). rewrite (kbind_Ok _ _ _ _ _ Hrun3).
    eexists p3, T2, av2, (inr (_, _, _)). split; [reflexivity|]. split; [done|].
    split; [intros g b Hg Hbb; by rewrite (Ha3 g b), (Ha1 g b)|]. exists eo, co, cs, fe.
    pose proof (args_place_ok (zlen args)) as Hap. split_and!; try done; try (apply Hap; pose proof (zlen_nonneg args); lia).
    intros v Hv. rewrite Hview, Hok by done. unfold with_code, program. cbn zeta. fold code n.
    assert (user_byte p T v = None) as Hnone by (unfold user_byte; by rewrite Hfree).
    rewrite Hnone, Z.add_0_l, Z2Nat.id by lia. rewrite Z.add_0_r.
    destruct (decide (USER_CODE_BASE <= v < USER_CODE_BASE + n * 4096)) as [Hc|Hc]; [|done].
    rewrite decide_False; [done|]. unfold STACK_PAGES. change USER_CODE_BASE with (2 ^ 46) in Hc.
    change USER_STACK_TOP with (2 ^ 47 - 16 * 4096). lia.
  - destruct Hr as (HO2 & Ha2 & Hwhy). exists p2, T2, av2, (inl OomStack). split; [done|]. split; [done|].
    split; [intros g b Hg Hbb; by rewrite (Ha2 g b), (Ha1 g b)|]. apply Hwhy. intros i Hi.
    assert (user_byte p1 T1 (USER_STACK_TOP - i * PAGE_SIZE) = None) as Hnone.
    { rewrite Hok by (by apply stack_user). unfold with_code, user_byte. rewrite Hfree by done.
      rewrite decide_False; [done|]. unfold STACK_PAGES, PAGE_SIZE in *. change USER_CODE_BASE with (2 ^ 46).
      change USER_STACK_TOP with (2 ^ 47 - 16 * 4096). lia. }
    unfold user_byte in Hnone. by destruct (T1 !! path (USER_STACK_TOP - i * PAGE_SIZE)).
Qed.

(** C35: Loading a program into an address space without pages either succeeds,
    and then the program sees exactly its image, zero-filled up to its size
    and writable and executable, and a four-page stack that is zero but for the
    arguments at its top, and nothing else; or it reports the header's defect,
    arguments that are too long, or that the frames are used up.  The frames
    of others keep their contents in every case, and the frames taken belong
    to the space. *)
Theorem load_kef_correct data args p root T av B :
  bytes_ok data -> Owns p root T av B -> (forall k, length k = 4%nat -> T !! k = None) ->
  exists p' T' av' r, load_kef data root args p = (p', Ok r) /\
    Owns p' root T' av' B /\ agree B (pmem p) (pmem p') /\
    match r with
    | inr (entry_point, rsp, args_ptr) => exists eo co cs fe, parse_kef data = inr (eo, co, cs, fe) /\
        entry_point = USER_CODE_BASE + eo /\ rsp = args_ptr /\ args_ptr = args_place (zlen args) /\
        args_ptr mod 16 = 0 /\ USER_STACK_TOP - PAGE_SIZE < args_ptr /\ args_ptr + zlen args <= USER_STACK_TOP /\
        forall v, user v -> user_byte p' T' v = program (slice co fe data) cs args v
    | inl (OomCode | OomStack) => (length av' <= 1)%nat
    | inl ArgsTooLong => PAGE_SIZE / 2 < zlen args /\ p' = p
    | inl e => parse_kef data = inl e /\ p' = p
    end.
Proof. apply load_kef_spec. Qed.

(** The header the linker script gives every user program: the image starts
    behind the 32-byte header. *)
Definition kef_header (entry_offset code_size init_size : Z) : list Z :=
  [75; 69; 70; 1] ++ le_bytes 4 entry_offset ++ le_bytes 4 32 ++ le_bytes 4 code_size ++
  le_bytes 4 init_size ++ le_bytes 4 0 ++ le_bytes 4 0 ++ le_bytes 4 0.

Lemma header_u32_at l pre x rest o :
  l = pre ++ le_bytes 4 x ++ rest -> zlen pre = o -> 0 <= x < 2 ^ 32 -> header_u32 l o = Some x.
Proof.
  intros -> <- Hx. unfold header_u32, get_range. pose proof (zlen_nonneg pre). pose proof (zlen_nonneg rest).
  assert (zlen (le_bytes 4 x) = 4) as H4 by done.
  rewrite !zlen_app, H4, (proj2 (Z.leb_le _ _)), (proj2 (Z.leb_le _ _)) by lia. cbn [andb fmap option_fmap option_map].
  rewrite slice_app_r, slice_app_l by lia. replace (zlen pre - zlen pre) with 0 by lia.
  replace (zlen pre + 4 - zlen pre) with (zlen (le_bytes 4 x)) by (rewrite H4; lia).
  by rewrite slice_all, le_val_le_bytes, Z.mod_small.
Qed.

(** The loader reads back the header the linker script writes: entry point
    and sizes come back as they were, and the image is found behind the header. *)
Theorem parse_kef_linked entry_offset code_size image :
  0 <= entry_offset < code_size -> code_size < 2 ^ 32 -> zlen image <= code_size ->
  let file := kef_header entry_offset code_size (zlen image) ++ image in
  parse_kef file = inr (entry_offset, 32, code_size, zlen file) /\ slice 32 (zlen file) file = image.
Proof.
  intros He Hc Hi file. pose proof (zlen_nonneg image) as Hi0.
  assert (zlen file = 32 + zlen image) as Hlen by (unfold file; by rewrite zlen_app).
  split.
  2: { rewrite Hlen. unfold file. rewrite slice_app_r by (change (zlen (kef_header _ _ _)) with 32; lia).
       change (zlen (kef_header _ _ _)) with 32. replace (32 + zlen image - 32) with (zlen image) by lia. apply slice_all. }
  unfold parse_kef. unfold get_range. rewrite Hlen, (proj2 (Z.leb_le 4 _)) by lia.
  change (slice 0 4 file) with [75; 69; 70; 1]. change (kef_version [75; 69; 70; 1]) with (Some 1). cbn [andb Z.leb Z.compare].
  rewrite (header_u32_at file [75; 69; 70; 1] entry_offset
    (le_bytes 4 32 ++ le_bytes 4 code_size ++ le_bytes 4 (zlen image) ++ zeros 12 ++ image) 4) by (done || lia).
  rewrite (header_u32_at file ([75; 69; 70; 1] ++ le_bytes 4 entry_offset) 32
    (le_bytes 4 code_size ++ le_bytes 4 (zlen image) ++ zeros 12 ++ image) 8) by (done || lia).
  rewrite (header_u32_at file ([75; 69; 70; 1] ++ le_bytes 4 entry_offset ++ le_bytes 4 32) code_size
    (le_bytes 4 (zlen image) ++ zeros 12 ++ image) 12) by (done || lia).
  rewrite (header_u32_at file ([75; 69; 70; 1] ++ le_bytes 4 entry_offset ++ le_bytes 4 32 ++ le_bytes 4 code_size)
    (zlen image) (zeros 12 ++ image) 16) by (done || lia).
  change (kef_version _) with (Some 1). cbv iota beta. change (1 =? 0) with false. cbv iota beta.
  unfold checked_add64, u64_max.
  rewrite (proj2 (Z.eqb_neq code_size 0)), (proj2 (Z.ltb_ge code_size (zlen image))),
    (proj2 (Z.leb_gt code_size entry_offset)), (proj2 (Z.leb_le (32 + zlen image) (2 ^ 64 - 1))) by lia.
  by rewrite Z.leb_refl.
Qed.

End view.

#[local] Existing Instance empty_half.

(** ** Witnesses: a two-byte program with one page of zero-filled data. *)
Definition demo_file : list Z := kef_header 0 5000 2 ++ [235; 254].

Lemma parse_kef_linked_witness :
  parse_kef demo_file = inr (0, 32, 5000, zlen demo_file) /\ slice 32 (zlen demo_file) demo_file = [235; 254].
Proof. apply (parse_kef_linked 0 5000 [235; 254]); by vm_compute. Defined.

Lemma load_kef_correct_witness :
  exists p' T' av' r, load_kef demo_file 0x2000 [97; 98] new_pool = (p', Ok r) /\
    Owns p' 0x2000 T' av' {[0x1000]} /\ agree {[0x1000]} (pmem new_pool) (pmem p') /\
    match r with
    | inr (entry_point, rsp, args_ptr) => exists eo co cs fe, parse_kef demo_file = inr (eo, co, cs, fe) /\
        entry_point = USER_CODE_BASE + eo /\ rsp = args_ptr /\ args_ptr = args_place (zlen [97; 98]) /\
        args_ptr mod 16 = 0 /\ USER_STACK_TOP - PAGE_SIZE < args_ptr /\ args_ptr + zlen [97; 98] <= USER_STACK_TOP /\
        forall v, user v -> user_byte p' T' v = program (slice co fe demo_file) cs [97; 98] v
    | inl (OomCode | OomStack) => (length av' <= 1)%nat
    | inl ArgsTooLong => PAGE_SIZE / 2 < zlen [97; 98] /\ p' = new_pool
    | inl e => parse_kef demo_file = inl e /\ p' = new_pool
    end.
Proof.
  apply (load_kef_correct demo_file [97; 98] new_pool 0x2000 {[ [] := 0x2000 ]} new_av {[0x1000]}); [|exact new_Owns|].
  - repeat constructor; by vm_compute.
  - intros k Hk. apply lookup_singleton_ne. by intros <-.
Defined.

(** The same load, run: the program is entered at the start of its image. *)
Lemma demo_load_runs :
  (load_kef demo_file 0x2000 [97; 98] new_pool).2 = Ok (inr (USER_CODE_BASE, USER_STACK_TOP - 16, USER_STACK_TOP - 16)).
Proof. vm_compute. reflexivity. Qed.
