(* ===== verification/Sched.v ===== *)
(** The scheduler: src/src/process/mod.rs.

    Tasks, one run queue per processor, the slots through which a processor
    hands over the task it has switched away from, and the acknowledgements of
    stacks that are no longer in use.  What runs under SCHEDULER_LOCK is one
    function on the whole state; what a processor does after it has released
    the lock (programming its own registers, [context_switch]) is separate, so
    that other processors can act in between.  SchedInv has the interleavings
    and their invariant. *)

From S2P Require Import Prelude.

(** * State *)

(** [MAX_AP_COUNT + 1] processors. *)
Definition MAX_AP_COUNT : nat := 63.
Definition NCPU : nat := S MAX_AP_COUNT.

Definition RETIRED_STACK_SLOTS : nat := 64.

Inductive TaskStatus : Type :=
| Ready
| Claimed
| SwitchingOut
| Running
| Sleeping
| Waiting
| Zombie.

#[export] Instance TaskStatus_eq_dec : EqDecision TaskStatus.
Proof. solve_decision. Defined.

(** [usize::MAX] as a wait key: the task waits for nothing. *)
Definition NO_KEY : Z := usize_max.

(** A task.  [pinned_cpu] is [None] for [usize::MAX]; an address space is named
    by its page table, a file table by a number. *)
Record Task : Type := mk_task {
  id : Z;
  stack_top : Z;
  stack_bottom : Z;
  status : TaskStatus;
  cpu_affinity : nat;
  pinned_cpu : option nat;
  kernel_stack_bottom : Z;
  kernel_stack_top : Z;
  gs_base : Z;
  user_rsp : Z;
  exit_code : Z;
  wake_tick : Z;
  waiting_for : Z;
  address_space : option Z;
  files : option nat;
}.

(** What [switch_task] has decided when it releases the lock: the task to leave
    ([None]: the processor's own idle loop), the task to enter ([None]: back
    to the idle loop), and the values of [SwitchPlan]. *)
Record SwitchPlan : Type := mk_plan {
  old : option nat;
  next : option nat;
  switched_out_task : option nat;
  retired_stack_bottom : Z;
  new_stack : Z;
  new_kernel_stack_top : Z;
  new_user_rsp : Z;
  new_user_gs : Z;
  new_pml4 : Z;
}.

(** Where a processor is: in a task or its idle loop; bound to call
    [switch_task] because its task has blocked or ended; between the release
    of the lock and the load of the new stack pointer; on the new stack,
    before it has published what it left. *)
Inductive phase : Type :=
| Run
| MustSwitch
| Switching (p : SwitchPlan)
| Switched (p : SwitchPlan).

(** [PercpuData] with the processor's registers: the page table in CR3, the
    kernel GS base, the stack pointer, and [on], the task whose kernel stack
    the stack pointer is in ([None]: the processor's own). *)
Record cpu : Type := mk_cpu {
  kernel_stack : Z;
  user_stack : Z;
  current_task_index : option nat;
  idle_stack : Z;
  scheduler_ticks_left : Z;
  need_resched : bool;
  cr3 : Z;
  gs : Z;
  rsp : Z;
  on : option nat;
  ph : phase;
}.

(** [Scheduler] with the statics around it.  [published] is [CPU_CURRENT_TASK],
    [switched_out] is [CPU_SWITCHED_OUT], [freed] lists the stacks given back
    to the heap, [ipis] the processors that were sent a wake-up. *)
Record sched : Type := mk_sched {
  tasks : list Task;
  event_generations : list (Z * Z);
  run_queues : nat -> list nat;
  published : nat -> option nat;
  switched_out : nat -> option nat;
  retired : list Z;
  cpus : nat -> cpu;
  next_id : Z;
  ticks : Z;
  online : nat;
  kernel_pml4 : Z;
  freed : list Z;
  ipis : list nat;
}.

(** ** Updates *)

Definition set_status (x : TaskStatus) (t : Task) : Task :=
  mk_task (id t) (stack_top t) (stack_bottom t) x (cpu_affinity t) (pinned_cpu t) (kernel_stack_bottom t)
    (kernel_stack_top t) (gs_base t) (user_rsp t) (exit_code t) (wake_tick t) (waiting_for t) (address_space t) (files t).
Definition set_affinity (x : nat) (t : Task) : Task :=
  mk_task (id t) (stack_top t) (stack_bottom t) (status t) x (pinned_cpu t) (kernel_stack_bottom t)
    (kernel_stack_top t) (gs_base t) (user_rsp t) (exit_code t) (wake_tick t) (waiting_for t) (address_space t) (files t).
Definition set_pinned (x : option nat) (t : Task) : Task :=
  mk_task (id t) (stack_top t) (stack_bottom t) (status t) (cpu_affinity t) x (kernel_stack_bottom t)
    (kernel_stack_top t) (gs_base t) (user_rsp t) (exit_code t) (wake_tick t) (waiting_for t) (address_space t) (files t).
Definition set_wait (key tick : Z) (t : Task) : Task :=
  mk_task (id t) (stack_top t) (stack_bottom t) (status t) (cpu_affinity t) (pinned_cpu t) (kernel_stack_bottom t)
    (kernel_stack_top t) (gs_base t) (user_rsp t) (exit_code t) tick key (address_space t) (files t).
Definition set_exit_code (x : Z) (t : Task) : Task :=
  mk_task (id t) (stack_top t) (stack_bottom t) (status t) (cpu_affinity t) (pinned_cpu t) (kernel_stack_bottom t)
    (kernel_stack_top t) (gs_base t) (user_rsp t) x (wake_tick t) (waiting_for t) (address_space t) (files t).
Definition set_stack_top (x : Z) (t : Task) : Task :=
  mk_task (id t) x (stack_bottom t) (status t) (cpu_affinity t) (pinned_cpu t) (kernel_stack_bottom t)
    (kernel_stack_top t) (gs_base t) (user_rsp t) (exit_code t) (wake_tick t) (waiting_for t) (address_space t) (files t).
Definition set_user (r g : Z) (t : Task) : Task :=
  mk_task (id t) (stack_top t) (stack_bottom t) (status t) (cpu_affinity t) (pinned_cpu t) (kernel_stack_bottom t)
    (kernel_stack_top t) g r (exit_code t) (wake_tick t) (waiting_for t) (address_space t) (files t).
Definition set_files (x : option nat) (t : Task) : Task :=
  mk_task (id t) (stack_top t) (stack_bottom t) (status t) (cpu_affinity t) (pinned_cpu t) (kernel_stack_bottom t)
    (kernel_stack_top t) (gs_base t) (user_rsp t) (exit_code t) (wake_tick t) (waiting_for t) (address_space t) x.
(** What reaping leaves of a task. *)
Definition reaped (t : Task) : Task :=
  mk_task (id t) (stack_top t) (stack_bottom t) (status t) (cpu_affinity t) (pinned_cpu t) 0
    0 (gs_base t) (user_rsp t) (exit_code t) (wake_tick t) (waiting_for t) None (files t).

Definition with_tasks (f : list Task -> list Task) (s : sched) : sched :=
  mk_sched (f (tasks s)) (event_generations s) (run_queues s) (published s) (switched_out s) (retired s) (cpus s)
    (next_id s) (ticks s) (online s) (kernel_pml4 s) (freed s) (ipis s).
(** [scheduler.metadata.tasks[i].field = x], for an index that is in range. *)
Definition upd (i : nat) (f : Task -> Task) : sched -> sched := with_tasks (alter f i).
Definition with_generations (f : list (Z * Z) -> list (Z * Z)) (s : sched) : sched :=
  mk_sched (tasks s) (f (event_generations s)) (run_queues s) (published s) (switched_out s) (retired s) (cpus s)
    (next_id s) (ticks s) (online s) (kernel_pml4 s) (freed s) (ipis s).
Definition set_queue (c : nat) (q : list nat) (s : sched) : sched :=
  mk_sched (tasks s) (event_generations s) (<[c := q]> (run_queues s)) (published s) (switched_out s) (retired s) (cpus s)
    (next_id s) (ticks s) (online s) (kernel_pml4 s) (freed s) (ipis s).
(** [scheduler.run_queues[c].lock().push_back(i)] *)
Definition push_back (c i : nat) (s : sched) : sched := set_queue c (run_queues s c ++ [i]) s.
Definition publish_current_task (c : nat) (x : option nat) (s : sched) : sched :=
  mk_sched (tasks s) (event_generations s) (run_queues s) (<[c := x]> (published s)) (switched_out s) (retired s) (cpus s)
    (next_id s) (ticks s) (online s) (kernel_pml4 s) (freed s) (ipis s).
Definition set_switched_out (c : nat) (x : option nat) (s : sched) : sched :=
  mk_sched (tasks s) (event_generations s) (run_queues s) (published s) (<[c := x]> (switched_out s)) (retired s) (cpus s)
    (next_id s) (ticks s) (online s) (kernel_pml4 s) (freed s) (ipis s).
Definition set_retired (r : list Z) (s : sched) : sched :=
  mk_sched (tasks s) (event_generations s) (run_queues s) (published s) (switched_out s) r (cpus s)
    (next_id s) (ticks s) (online s) (kernel_pml4 s) (freed s) (ipis s).
Definition with_cpu (c : nat) (f : cpu -> cpu) (s : sched) : sched :=
  mk_sched (tasks s) (event_generations s) (run_queues s) (published s) (switched_out s) (retired s)
    (<[c := f (cpus s c)]> (cpus s)) (next_id s) (ticks s) (online s) (kernel_pml4 s) (freed s) (ipis s).
Definition take_id (s : sched) : sched :=
  mk_sched (tasks s) (event_generations s) (run_queues s) (published s) (switched_out s) (retired s) (cpus s)
    (u64 (next_id s + 1)) (ticks s) (online s) (kernel_pml4 s) (freed s) (ipis s).
Definition scheduler_clock_tick (s : sched) : sched :=
  mk_sched (tasks s) (event_generations s) (run_queues s) (published s) (switched_out s) (retired s) (cpus s)
    (next_id s) (u64 (ticks s + 1)) (online s) (kernel_pml4 s) (freed s) (ipis s).
(** [crate::memory::heap::free(stack)] *)
Definition heap_free (b : Z) (s : sched) : sched :=
  mk_sched (tasks s) (event_generations s) (run_queues s) (published s) (switched_out s) (retired s) (cpus s)
    (next_id s) (ticks s) (online s) (kernel_pml4 s) (b :: freed s) (ipis s).
(** [crate::processor::send_ipi(c, SCHEDULER_WAKE_VECTOR)] for a queue other
    than the boot processor's. *)
Definition kick (c : nat) (s : sched) : sched :=
  if decide (c = 0%nat) then s
  else mk_sched (tasks s) (event_generations s) (run_queues s) (published s) (switched_out s) (retired s) (cpus s)
    (next_id s) (ticks s) (online s) (kernel_pml4 s) (freed s) (c :: ipis s).

Definition set_ph (p : phase) (k : cpu) : cpu :=
  mk_cpu (kernel_stack k) (user_stack k) (current_task_index k) (idle_stack k) (scheduler_ticks_left k) (need_resched k)
    (cr3 k) (gs k) (rsp k) (on k) p.

(** * Placement *)

(** An idle processor other than the boot processor, with an empty queue. *)
Definition select_target_cpu (s : sched) : nat :=
  default 0%nat
    (first_such (fun c => bool_decide (published s c = None) && bool_decide (run_queues s c = []))
       (seq 1 (Nat.min (online s) NCPU - 1))).

(** Pops entries until one is ready; entries out of range are dropped. *)
Fixpoint claim_scan (ts : list Task) (q : list nat) : list nat * option nat :=
  match q with
  | [] => ([], None)
  | i :: q =>
      match ts !! i with
      | Some t => if decide (status t = Ready) then (q, Some i) else claim_scan ts q
      | None => claim_scan ts q
      end
  end.

Definition claim_local_ready_task (c : nat) (s : sched) : sched * option nat :=
  let '(q, r) := claim_scan (tasks s) (run_queues s c) in
  let s := set_queue c q s in
  match r with
  | Some i => (upd i (set_status Claimed) s, Some i)
  | None => (s, None)
  end.

(** The longest queue of another processor, if it has more than one entry. *)
Definition pick_victim (s : sched) (thief : nat) : option nat :=
  fst (fold_left (fun '(v, n) c =>
         if decide (c = thief) then (v, n)
         else if (n <? length (run_queues s c))%nat then (Some c, length (run_queues s c)) else (v, n))
       (seq 0 (Nat.min (online s) NCPU)) (None, 1%nat)).

(** [iter().rposition(f)] *)
Fixpoint rposition {A} (f : A -> bool) (l : list A) : option nat :=
  match l with
  | [] => None
  | x :: l =>
      match rposition f l with
      | Some k => Some (S k)
      | None => if f x then Some 0%nat else None
      end
  end.

Definition can_steal (ts : list Task) (i : nat) : bool :=
  match ts !! i with
  | Some t => bool_decide (status t = Ready) && bool_decide (pinned_cpu t = None)
  | None => false
  end.

(** The entry at [rposition] is in range, so the loop around the removal ends
    in its first round. *)
Definition steal_and_claim_ready_task (thief : nat) (s : sched) : sched * option nat :=
  match pick_victim s thief with
  | None => (s, None)
  | Some v =>
      let q := run_queues s v in
      if (length q <=? 1)%nat then (s, None)
      else match rposition (can_steal (tasks s)) q with
           | None => (s, None)
           | Some k =>
               match q !! k with
               | None => (s, None)
               | Some i =>
                   (upd i (fun t => set_affinity thief (set_status Claimed t)) (set_queue v (delete k q) s), Some i)
               end
           end
  end.

(** [init], with [n] processors online. *)
Definition main_task : Task :=
  mk_task 0 0 0 Running 0 (Some 0%nat) 0 0 0 0 0 0 NO_KEY None None.

(** The boot processor runs task 0; the others idle on their own stacks. *)
Definition boot_cpu (kernel_pml4 : Z) (c : nat) : cpu :=
  mk_cpu 0 0 (if decide (c = 0%nat) then Some 0%nat else None) 0 0 false kernel_pml4 0 1 None Run.

Definition sched_init (n : nat) (kernel_pml4 : Z) : sched :=
  mk_sched [main_task] [] (fun _ => []) (fun _ => None) (fun _ => None) (replicate RETIRED_STACK_SLOTS 0)
    (boot_cpu kernel_pml4) 1 0 n kernel_pml4 [] [].

(** The words [add_new_user_task] puts on a new kernel stack, from the saved
    stack pointer upwards: the registers [context_switch] pops, the address it
    returns to, and the frame of the trampoline's [iretq]. *)
Section frames.
Context (trampoline user_code_sel user_data_sel rflags : Z).

Definition user_frame (entry_point user_rsp rdi rsi : Z) : list Z :=
  [rsi; rdi; 0; 0; 0; 0; 0; 0; trampoline; entry_point; user_code_sel; rflags; user_rsp; user_data_sel].
End frames.

(** Those of [add_new_task], which leaves one word free below the top. *)
Definition kernel_frame (entry_point : Z) : list Z := [0; 0; 0; 0; 0; 0; 0; 0; entry_point].

(** [add_new_user_task]; [heap] is what the heap returned for the kernel stack,
    0 when it is full.  [user_rsp - stack_size] wraps, as in a build without
    overflow checks; with them its caller [Syscall.add_user_task] panics first. *)
Definition add_new_user_task (heap user_rsp stack_size : Z) (space : option Z) (fs : option nat) (s : sched) : sched * Z :=
  let tid := next_id s in
  let s := take_id s in
  if heap =? 0 then (s, usize_max)
  else
    let i := length (tasks s) in
    let t := mk_task tid (heap + stack_size - 8 * 14) (u64 (user_rsp - stack_size)) Ready 0 None heap (heap + stack_size)
               0 user_rsp 0 0 NO_KEY space fs in
    let s := with_tasks (fun ts => ts ++ [t]) s in
    let '(s, target) :=
      if tid =? 1 then (upd i (set_pinned (Some 0%nat)) s, 0%nat) else (s, select_target_cpu s) in
    (kick target (push_back target i (upd i (set_affinity target) s)), tid).

Definition add_new_task (stack_bottom stack_size : Z) (s : sched) : sched :=
  let tid := next_id s in
  let s := take_id s in
  let i := length (tasks s) in
  let t := mk_task tid (stack_bottom + stack_size - 8 - 8 * 9) stack_bottom Ready 0 None stack_bottom
             (stack_bottom + stack_size) 0 0 0 0 NO_KEY None None in
  let s := with_tasks (fun ts => ts ++ [t]) s in
  let target := select_target_cpu s in
  kick target (push_back target i (upd i (set_affinity target) s)).

Definition enter_bsp_scheduler_idle (s : sched) : sched :=
  let s := match current_task_index (cpus s 0%nat) with
           | Some i => upd i (set_status Zombie) s
           | None => s
           end in
  publish_current_task 0 None
    (with_cpu 0 (fun k => mk_cpu (kernel_stack k) (user_stack k) None 0 0 false (cr3 k) (gs k) (rsp k) (on k) (ph k)) s).

(** * Switching *)

Definition finish_switched_out_task (c : nat) (s : sched) : sched :=
  match switched_out s c with
  | None => s
  | Some i =>
      let s := set_switched_out c None s in
      match tasks s !! i with
      | Some t =>
          if decide (status t = SwitchingOut)
          then push_back c i (upd i (fun t => set_affinity c (set_status Ready t)) s)
          else s
      | None => s
      end
  end.

(** The queue a woken task goes to: that of its affinity, or of its pin. *)
Definition home (t : Task) : nat :=
  Nat.min (match pinned_cpu t with Some c => c | None => cpu_affinity t end) MAX_AP_COUNT.

Definition is_due (now : Z) (t : Task) : bool :=
  (bool_decide (status t = Sleeping) || (bool_decide (status t = Waiting) && negb (wake_tick t =? 0))) &&
  (wake_tick t <=? now).

Definition wake_sleeper (now : Z) (s : sched) (i : nat) : sched :=
  match tasks s !! i with
  | Some t =>
      if is_due now t
      then push_back (home t) i (upd i (fun t => set_wait NO_KEY 0 (set_status Ready t)) s)
      else s
  | None => s
  end.

Definition wake_sleeping_tasks_locked (now : Z) (s : sched) : sched :=
  fold_left (wake_sleeper now) (seq 0 (length (tasks s))) s.

(** The first slot that holds [b] is cleared. *)
Fixpoint consume (b : Z) (slots : list Z) : option (list Z) :=
  match slots with
  | [] => None
  | x :: slots => if x =? b then Some (0 :: slots) else (fun l => x :: l) <$> consume b slots
  end.

Definition reap (s : sched) (i : nat) : sched :=
  match tasks s !! i with
  | Some t =>
      if bool_decide (status t <> Zombie) || (kernel_stack_bottom t =? 0) then s
      else if existsb (fun c => bool_decide (published s c = Some i)) (seq 0 NCPU) then s
      else match consume (kernel_stack_bottom t) (retired s) with
           | None => s
           | Some slots => upd i reaped (heap_free (kernel_stack_bottom t) (set_retired slots s))
           end
  | None => s
  end.

Definition reap_zombies (s : sched) : sched := fold_left reap (seq 0 (length (tasks s))) s.

(** Back to the idle loop of processor [c], away from its task [i]. *)
Definition to_idle (c i : nat) (t : Task) (s : sched) : sched :=
  let k := cpus s c in
  let p := mk_plan (Some i) None None (if decide (status t = Zombie) then kernel_stack_bottom t else 0)
             (idle_stack k) 0 0 0 (kernel_pml4 s) in
  publish_current_task c None
    (with_cpu c (fun k => mk_cpu (kernel_stack k) 0 None (idle_stack k) 0 false (cr3 k) 0 (rsp k) (on k) (Switching p))
      (upd i (set_user (user_stack k) (gs_base t)) s)).

Definition DEFAULT_TIME_SLICE_TICKS : Z := 5.

(** A running task that is left may not enter a queue before its stack pointer
    is saved. *)
Definition suspend (cur : option nat) (s : sched) : sched * option nat :=
  match cur with
  | Some i =>
      match tasks s !! i with
      | Some t => if decide (status t = Running) then (upd i (set_status SwitchingOut) s, Some i) else (s, None)
      | None => (s, None)
      end
  | None => (s, None)
  end.

Definition zombie_stack (cur : option nat) (s : sched) : Z :=
  match cur ≫= (fun i => tasks s !! i) with
  | Some t => if decide (status t = Zombie) then kernel_stack_bottom t else 0
  | None => 0
  end.

Definition save_user (cur : option nat) (k : cpu) (s : sched) : sched :=
  match cur with Some i => upd i (set_user (user_stack k) (gs k)) s | None => s end.

(** Entering task [n], which processor [c] has claimed and may run. *)
Definition enter_task (c : nat) (cur out : option nat) (n : nat) (s : sched) : res sched :=
  let s := upd n (fun t => set_affinity c (set_status Running (set_wait (waiting_for t) 0 t))) s in
  let s := save_user cur (cpus s c) s in
  match tasks s !! n with
  | None => Panic
  | Some tn =>
      let p := mk_plan cur (Some n) out (zombie_stack cur s) (stack_top tn) (kernel_stack_top tn)
                 (user_rsp tn) (gs_base tn) (default (kernel_pml4 s) (address_space tn)) in
      Ok (publish_current_task c (Some n)
        (with_cpu c (fun k => mk_cpu (kernel_stack k) (user_stack k) (Some n) (idle_stack k) DEFAULT_TIME_SLICE_TICKS false
                                (cr3 k) (gs k) (rsp k) (on k) (Switching p)) s))
  end.

Definition switch_to (c : nat) (cur : option nat) (n : nat) (s : sched) : res sched :=
  let '(s, out) := suspend cur s in
  match tasks s !! n with
  | None => Panic
  | Some tn =>
      if decide (status tn <> Claimed) then Ok (with_cpu c (set_ph Run) s)
      else if bool_decide (pinned_cpu tn = None \/ pinned_cpu tn = Some c) then enter_task c cur out n s
      else Ok (with_cpu c (set_ph Run) (push_back (home tn) n (upd n (set_status Ready) s)))
  end.

(** Nothing to run: a task that is blocked or has ended is left for the idle
    loop, a running one goes on. *)
Definition switch_none (c : nat) (cur : option nat) (s : sched) : res sched :=
  match cur with
  | None => Ok (with_cpu c (set_ph Run) s)
  | Some i =>
      match tasks s !! i with
      | None => Panic
      | Some t =>
          if bool_decide (status t = Zombie \/ status t = Sleeping \/ status t = Waiting) &&
             negb (idle_stack (cpus s c) =? 0)
          then Ok (to_idle c i t s)
          else Ok (with_cpu c (set_ph Run) s)
      end
  end.

(** The part of [switch_task] under the lock. *)
Definition maintenance (c : nat) (s : sched) : sched :=
  if decide (c = 0%nat) then reap_zombies (wake_sleeping_tasks_locked (ticks s) s) else s.

Definition claim (c : nat) (s : sched) : sched * option nat :=
  match claim_local_ready_task c s with
  | (s, Some n) => (s, Some n)
  | (s, None) => steal_and_claim_ready_task c s
  end.

Definition switch_task_locked (c : nat) (s : sched) : res sched :=
  let cur := current_task_index (cpus s c) in
  let '(s, r) := claim c (finish_switched_out_task c (maintenance c s)) in
  match r with
  | None => switch_none c cur s
  | Some n => switch_to c cur n s
  end.

(** After the lock is released: the processor's own registers, then
    [context_switch] up to the load of the stack pointer. *)
Definition context_load (c : nat) (p : SwitchPlan) (s : sched) : sched :=
  let r := rsp (cpus s c) in
  let s := match old p with Some i => upd i (set_stack_top r) s | None => s end in
  with_cpu c (fun k =>
    mk_cpu (if new_kernel_stack_top p =? 0 then kernel_stack k else new_kernel_stack_top p) (new_user_rsp p)
      (current_task_index k) (match old p with Some _ => idle_stack k | None => r end)
      (scheduler_ticks_left k) (need_resched k) (new_pml4 p) (new_user_gs p) (new_stack p) (next p) (Switched p)) s.

(** The first free slot takes [b]; a full table loses it. *)
Fixpoint retire (b : Z) (slots : list Z) : list Z :=
  match slots with
  | [] => []
  | x :: slots => if x =? 0 then b :: slots else x :: retire b slots
  end.

(** The rest of [context_switch], on the new stack: the handoff of a preempted
    task, then the acknowledgement of a dead task's stack.  A task is one or the
    other, so that a switch does at most one of the two
    ([SchedSafety.publishes_one]) and nobody can see a state between them.  The
    acknowledgement tries slot after slot; in between others may fill or free
    some, which changes the slot it takes. *)
Definition context_publish (c : nat) (p : SwitchPlan) (s : sched) : sched :=
  let s := match switched_out_task p with Some i => set_switched_out c (Some i) s | None => s end in
  let s := if retired_stack_bottom p =? 0 then s else set_retired (retire (retired_stack_bottom p) (retired s)) s in
  with_cpu c (set_ph Run) s.

(** * Blocking and waking *)

Definition scheduler_tick (c : nat) (s : sched) : sched :=
  match current_task_index (cpus s c) with
  | None => s
  | Some _ =>
      with_cpu c (fun k =>
        let left := if 0 <? scheduler_ticks_left k then scheduler_ticks_left k - 1 else scheduler_ticks_left k in
        mk_cpu (kernel_stack k) (user_stack k) (current_task_index k) (idle_stack k) left
          (if left =? 0 then true else need_resched k) (cr3 k) (gs k) (rsp k) (on k) (ph k)) s
  end.

(** [reschedule_if_needed]: whether to call [switch_task]. *)
Definition take_resched (c : nat) (s : sched) : sched * bool :=
  if need_resched (cpus s c)
  then (with_cpu c (fun k => mk_cpu (kernel_stack k) (user_stack k) (current_task_index k) (idle_stack k)
          (scheduler_ticks_left k) false (cr3 k) (gs k) (rsp k) (on k) (ph k)) s, true)
  else (s, false).

Definition find_task (task_id : Z) (s : sched) : option nat :=
  first_such (fun i => match tasks s !! i with Some t => id t =? task_id | None => false end) (seq 0 (length (tasks s))).

(** The current task of [c] blocks or ends: its fields change, and the processor
    has to switch. *)
Definition block (c i : nat) (f : Task -> Task) (s : sched) : sched := with_cpu c (set_ph MustSwitch) (upd i f s).

(** The first part of [wait_task]: an answer at once, or [None] after the task
    has blocked. *)
Definition wait_task_locked (c : nat) (task_id : Z) (s : sched) : res (sched * option Z) :=
  match find_task task_id s with
  | None => Ok (s, Some usize_max)
  | Some target =>
      match tasks s !! target with
      | None => Panic
      | Some t =>
          if decide (status t = Zombie) then Ok (s, Some (exit_code t))
          else match current_task_index (cpus s c) with
               | None => Ok (s, Some usize_max)
               | Some i =>
                   if decide (i = target) then Ok (s, Some usize_max)
                   else match tasks s !! i with
                        | None => Panic
                        | Some ti => Ok (block c i (fun t => set_wait task_id (wake_tick t) (set_status Waiting t)) s, None)
                        end
               end
      end
  end.

(** Its answer once the task runs again. *)
Definition wait_task_result (task_id : Z) (s : sched) : Z :=
  match find_task task_id s ≫= (fun i => tasks s !! i) with
  | Some t => exit_code t
  | None => usize_max
  end.

Definition event_generation (wait_key : Z) (s : sched) : Z :=
  match first_such (fun kg => kg.1 =? wait_key) (event_generations s) with
  | Some (_, g) => g
  | None => 0
  end.

Definition wait_current_until_locked (c : nat) (wait_key deadline generation : Z) (s : sched) : res (sched * bool) :=
  if decide (event_generation wait_key s <> generation) then Ok (s, false)
  else match current_task_index (cpus s c) with
       | None => Ok (s, false)
       | Some i =>
           match tasks s !! i with
           | None => Panic
           | Some _ => Ok (block c i (fun t => set_status Waiting (set_wait wait_key deadline t)) s, true)
           end
       end.

(** [generation.wrapping_add(1)], or a new counter. *)
Fixpoint bump_generation (wait_key : Z) (l : list (Z * Z)) : list (Z * Z) :=
  match l with
  | [] => [(wait_key, 1)]
  | (k, g) :: l => if k =? wait_key then (k, u64 (g + 1)) :: l else (k, g) :: bump_generation wait_key l
  end.

Definition wake_waiter (wait_key : Z) (s : sched) (i : nat) : sched :=
  match tasks s !! i with
  | Some t =>
      if bool_decide (status t = Waiting) && (waiting_for t =? wait_key) then
        if existsb (fun c => bool_decide (published s c = Some i)) (seq 0 NCPU)
        then upd i (fun t => set_status Running (set_wait NO_KEY 0 t)) s
        else let q := Nat.min (cpu_affinity t) MAX_AP_COUNT in
             kick q (push_back q i (upd i (fun t => set_status Ready (set_wait NO_KEY 0 t)) s))
      else s
  | None => s
  end.

Definition wake_waiters (wait_key : Z) (s : sched) : sched :=
  let s := with_generations (bump_generation wait_key) s in
  fold_left (wake_waiter wait_key) (seq 0 (length (tasks s))) s.

(** The deadline of [sleep_current], for a sleep that is not zero. *)
Definition sleep_deadline (milliseconds : Z) (s : sched) : Z :=
  saturating_add64 (ticks s) (Z.max (saturating_add64 milliseconds 9 / 10) 1).

Definition sleep_current_locked (c : nat) (deadline : Z) (s : sched) : res sched :=
  match current_task_index (cpus s c) with
  | None => Ok (with_cpu c (set_ph MustSwitch) s)
  | Some i =>
      match tasks s !! i with
      | None => Panic
      | Some _ => Ok (block c i (fun t => set_status Sleeping (set_wait (waiting_for t) deadline t)) s)
      end
  end.

(** * Ending a task *)

Definition take_current_files (c : nat) (s : sched) : sched * option nat :=
  match current_task_index (cpus s c) with
  | None => (s, None)
  | Some i =>
      match tasks s !! i with
      | None => (s, None)
      | Some t => (upd i (set_files None) s, files t)
      end
  end.

Definition wake_joiner (terminated_id : Z) (s : sched) (i : nat) : sched :=
  match tasks s !! i with
  | Some t =>
      if bool_decide (status t = Waiting) && (waiting_for t =? terminated_id)
      then push_back (Nat.min (cpu_affinity t) MAX_AP_COUNT) i
             (upd i (fun t => set_wait NO_KEY (wake_tick t) (set_status Ready t)) s)
      else s
  | None => s
  end.

Definition terminate_task_locked (c : nat) (code : Z) (s : sched) : res sched :=
  match current_task_index (cpus s c) with
  | None => Ok (with_cpu c (set_ph MustSwitch) s)
  | Some i =>
      match tasks s !! i with
      | None => Panic
      | Some t =>
          let s := block c i (fun t => set_exit_code code (set_status Zombie t)) s in
          Ok (fold_left (wake_joiner (id t)) (seq 0 (length (tasks s))) s)
      end
  end.

(** * Queries *)

Definition current_address_space (c : nat) (s : sched) : option Z :=
  (current_task_index (cpus s c) ≫= (fun i => tasks s !! i)) ≫= address_space.

Definition current_files (c : nat) (s : sched) : option nat :=
  (current_task_index (cpus s c) ≫= (fun i => tasks s !! i)) ≫= files.

Definition forget_wait_key (wait_key : Z) (s : sched) : sched :=
  with_generations (List.filter (fun kg => negb (kg.1 =? wait_key))) s.

Definition current_task_id (c : nat) (s : sched) : res Z :=
  match current_task_index (cpus s c) with
  | None => Ok 0
  | Some i => match tasks s !! i with Some t => Ok (id t) | None => Panic end
  end.

Definition status_code (x : TaskStatus) : Z :=
  match x with
  | Ready | Claimed | SwitchingOut => 0
  | Running => 1
  | Sleeping => 3
  | Waiting => 4
  | Zombie => 2
  end.

Definition get_task_status (task_id : Z) (s : sched) : Z :=
  match find_task task_id s ≫= (fun i => tasks s !! i) with
  | Some t => status_code (status t)
  | None => 3
  end.

Definition get_task_exit_code (task_id : Z) (s : sched) : Z :=
  match find_task task_id s ≫= (fun i => tasks s !! i) with
  | Some t => exit_code t
  | None => 0
  end.
