(* ===== verification/SchedInv.v ===== *)
(** The invariant of the scheduler.

    Every task is at one place at a time: in a run queue, current on a
    processor, being left by one, or away.  The invariant says that queues,
    processors and hand-over slots agree with such an assignment of places,
    and what each place means for the task's status, its stack and its page
    table.  Each lemma moves one task from one place to the next. *)

From S2P Require Import Prelude Sched.

(** * Places *)

Inductive place : Type :=
| Queued (c : nat)
| Held (c : nat)
| Seated (c : nat)
| Leaving (c : nat)
| Parting (c : nat)
| Dying (c : nat)
| Away.

#[export] Instance place_eq_dec : EqDecision place.
Proof. solve_decision. Defined.

Definition blocked (x : TaskStatus) : Prop := x = Sleeping \/ x = Waiting \/ x = Zombie.

Definition pin_ok (t : Task) (c : nat) : Prop := pinned_cpu t = None \/ pinned_cpu t = Some c.

(** The task that processor [c] has preempted and not yet put back in a queue. *)
Definition left_task (s : sched) (c : nat) : option nat :=
  match ph (cpus s c) with
  | Switching p | Switched p => switched_out_task p
  | _ => switched_out s c
  end.

Definition space_pml4 (s : sched) (t : Task) : Z := default (kernel_pml4 s) (address_space t).

Definition task_ok (s : sched) (x : place) (t : Task) : Prop :=
  match x with
  | Queued c => status t = Ready /\ (c < online s)%nat /\ pin_ok t c
  | Held c => status t = Claimed
  | Seated c => (status t = Running \/ ph (cpus s c) = MustSwitch /\ blocked (status t)) /\ cpu_affinity t = c
  | Leaving c => status t = SwitchingOut /\ cpu_affinity t = c
  | Parting c => blocked (status t) /\ forall p, ph (cpus s c) = Switching p ->
      retired_stack_bottom p = if decide (status t = Zombie) then kernel_stack_bottom t else 0
  | Dying c => status t = Zombie /\ forall p, ph (cpus s c) = Switched p -> retired_stack_bottom p = kernel_stack_bottom t
  | Away => blocked (status t)
  end.

(** What a plan says of the task or the idle loop it enters. *)
Definition plan_fresh (s : sched) (k : cpu) (p : SwitchPlan) : Prop :=
  match next p with
  | Some j => exists t, tasks s !! j = Some t /\ new_stack p = stack_top t /\
      new_kernel_stack_top p = kernel_stack_top t /\ new_pml4 p = space_pml4 s t
  | None => new_stack p = idle_stack k /\ new_kernel_stack_top p = 0 /\ new_pml4 p = kernel_pml4 s
  end.

(** The stack a processor is on, with its page table and interrupt stack. *)
Definition seat_ok (s : sched) (k : cpu) : Prop :=
  match on k with
  | Some i => exists t, tasks s !! i = Some t /\ idle_stack k <> 0 /\ cr3 k = space_pml4 s t /\
      kernel_stack k = kernel_stack_top t
  | None => rsp k <> 0 /\ cr3 k = kernel_pml4 s
  end.

Definition phase_ok (s : sched) (c : nat) (k : cpu) : Prop :=
  match ph k with
  | Run | MustSwitch => on k = current_task_index k
  | Switching p => on k = old p /\ current_task_index k = next p /\ switched_out s c = None /\
      (switched_out_task p = None \/ switched_out_task p = old p /\ retired_stack_bottom p = 0) /\
      (old p = None -> retired_stack_bottom p = 0 /\ next p <> None) /\ plan_fresh s k p
  | Switched p => on k = next p /\ current_task_index k = next p /\ switched_out s c = None /\
      (retired_stack_bottom p <> 0 -> old p <> None) /\ (switched_out_task p = None \/ retired_stack_bottom p = 0)
  end.

Definition inert (s : sched) (c : nat) : Prop :=
  ph (cpus s c) = Run /\ current_task_index (cpus s c) = None /\ switched_out s c = None.

(** Task data that does not depend on the place. *)
Definition data_ok (s : sched) (t : Task) : Prop :=
  (cpu_affinity t < online s)%nat /\ (forall k, pinned_cpu t = Some k -> cpu_affinity t = k) /\
  (status t <> Zombie -> kernel_stack_top t <> 0).

Record Inv (s : sched) (pl : nat -> place) : Prop := {
  v_online : (1 <= online s <= NCPU)%nat;
  v_queue c i : i ∈ run_queues s c <-> pl i = Queued c;
  v_nodup c : NoDup (run_queues s c);
  v_cur c i : current_task_index (cpus s c) = Some i <-> pl i = Seated c;
  v_left c i : left_task s c = Some i <-> pl i = Leaving c;
  v_part c i : pl i = Parting c <->
    exists p, ph (cpus s c) = Switching p /\ old p = Some i /\ switched_out_task p = None;
  v_dying c i : pl i = Dying c <->
    exists p, ph (cpus s c) = Switched p /\ old p = Some i /\ retired_stack_bottom p <> 0;
  v_task i t : tasks s !! i = Some t -> task_ok s (pl i) t;
  v_data i t : tasks s !! i = Some t -> data_ok s t;
  v_none i : tasks s !! i = None -> pl i = Away;
  v_pub c : published s c = current_task_index (cpus s c);
  v_seat c : seat_ok s (cpus s c);
  v_phase c : phase_ok s c (cpus s c);
  v_inert c : (online s <= c)%nat -> inert s c;
  v_bottom i j ti tj : tasks s !! i = Some ti -> tasks s !! j = Some tj ->
    kernel_stack_bottom ti = kernel_stack_bottom tj -> kernel_stack_bottom ti <> 0 -> i = j;
  v_ret b : b ∈ retired s -> b <> 0 ->
    exists i t, tasks s !! i = Some t /\ pl i = Away /\ status t = Zombie /\ kernel_stack_bottom t = b;
  v_ret_nodup : NoDup (filter (fun b => b <> 0) (retired s));
}.

(** * What the invariant gives *)

Section facts.
Context (s : sched) (pl : nat -> place) (HI : Inv s pl).

(** The task whose stack a processor is on is at a place that names it. *)
Lemma on_place c i : on (cpus s c) = Some i -> pl i = Seated c \/ pl i = Leaving c \/ pl i = Parting c.
Proof.
  intros Hon. pose proof (v_phase _ _ HI c) as Hp. unfold phase_ok in Hp.
  destruct (ph (cpus s c)) as [| |p|p] eqn:E.
  - left. apply (v_cur _ _ HI). congruence.
  - left. apply (v_cur _ _ HI). congruence.
  - destruct Hp as (Ho & _ & _ & [Hout|[Hout _]] & _); right.
    + right. apply (v_part _ _ HI). exists p. split; [done|]. split; congruence.
    + left. apply (v_left _ _ HI). unfold left_task. rewrite E. congruence.
  - left. apply (v_cur _ _ HI). destruct Hp as (Ho & Hc & _). congruence.
Qed.

Lemma on_inj c d i : on (cpus s c) = Some i -> on (cpus s d) = Some i -> c = d.
Proof. intros Hc Hd. destruct (on_place c i Hc) as [?|[?|?]], (on_place d i Hd) as [?|[?|?]]; congruence. Qed.

(** The stack a processor is about to load is free. *)
Lemma next_free c p j :
  ph (cpus s c) = Switching p -> next p = Some j -> forall d, on (cpus s d) <> Some j.
Proof.
  intros E Hn d Hon. pose proof (v_phase _ _ HI c) as Hp. unfold phase_ok in Hp. rewrite E in Hp.
  destruct Hp as (Ho & Hc & Hs & Hout & _). assert (pl j = Seated c) as Hj by (apply (v_cur _ _ HI); congruence).
  destruct (on_place d j Hon) as [Hd|[Hd|Hd]]; [|congruence|congruence].
  assert (d = c) as -> by congruence. rewrite Hon in Ho.
  destruct Hout as [Hout|[Hout _]].
  - assert (pl j = Parting c); [|congruence]. apply (v_part _ _ HI). exists p. split; [done|]. by split.
  - assert (pl j = Leaving c); [|congruence]. apply (v_left _ _ HI). unfold left_task. rewrite E. congruence.
Qed.

(** A blocked task that no processor is on is away. *)
Lemma asleep_away i t :
  tasks s !! i = Some t -> status t = Sleeping \/ status t = Waiting ->
  (forall c, on (cpus s c) <> Some i) -> pl i = Away.
Proof.
  intros Ht Hb Hoff. pose proof (v_task _ _ HI i t Ht) as Hok.
  destruct (pl i) as [c|c|c|c|c|c|] eqn:E; simpl in Hok.
  - destruct Hok as [Hok _]. destruct Hb; congruence.
  - destruct Hb; congruence.
  - destruct Hok as [[Hok|[Hm _]] _]; [destruct Hb; congruence|].
    destruct (Hoff c). pose proof (v_phase _ _ HI c) as Hp. unfold phase_ok in Hp. rewrite Hm in Hp.
    rewrite Hp. by apply (v_cur _ _ HI).
  - destruct Hok as [Hok _]. destruct Hb; congruence.
  - destruct (Hoff c). apply (v_part _ _ HI) in E as (p & Hp & Ho & _).
    pose proof (v_phase _ _ HI c) as Hph. unfold phase_ok in Hph. rewrite Hp in Hph. destruct Hph as (Hon & _). congruence.
  - destruct Hok as [Hok _]. destruct Hb; congruence.
  - done.
Qed.

Lemma seated_lookup c i : pl i = Seated c -> exists t, tasks s !! i = Some t.
Proof.
  intros Hp. destruct (tasks s !! i) as [t|] eqn:E; [by eexists|]. apply (v_none _ _ HI) in E. congruence.
Qed.

Lemma queued_lookup c i : pl i = Queued c -> exists t, tasks s !! i = Some t.
Proof.
  intros Hp. destruct (tasks s !! i) as [t|] eqn:E; [by eexists|]. apply (v_none _ _ HI) in E. congruence.
Qed.

Lemma cur_online c i : current_task_index (cpus s c) = Some i -> (c < online s)%nat.
Proof.
  intros Hc. apply Nat.nle_gt. intros Hle. destruct (v_inert _ _ HI c Hle) as (_ & Hn & _). congruence.
Qed.
End facts.

(** * Updates of one task *)

Lemma lookup_upd i f s j : tasks (upd i f s) !! j = if decide (i = j) then f <$> tasks s !! j else tasks s !! j.
Proof.
  unfold upd, with_tasks. simpl. case_decide as E; [subst; apply list_lookup_alter_eq|by apply list_lookup_alter_ne].
Qed.

(** The fields that no waking or blocking changes. *)
Definition frame (f : Task -> Task) : Prop := forall t,
  stack_top (f t) = stack_top t /\ kernel_stack_bottom (f t) = kernel_stack_bottom t /\
  kernel_stack_top (f t) = kernel_stack_top t /\ address_space (f t) = address_space t /\
  pinned_cpu (f t) = pinned_cpu t.

Lemma seat_ok_upd s i f k : frame f -> seat_ok s k -> seat_ok (upd i f s) k.
Proof.
  intros Hf. unfold seat_ok. destruct (on k) as [j|]; [|done]. intros (t & Ht & Hk).
  rewrite lookup_upd. rewrite Ht. unfold space_pml4 in *. case_decide; [|by exists t].
  exists (f t). destruct (Hf t) as (_ & _ & -> & -> & _). by split.
Qed.

Lemma phase_ok_upd s i f c k : frame f -> phase_ok s c k -> phase_ok (upd i f s) c k.
Proof.
  intros Hf. unfold phase_ok. destruct (ph k) as [| |p|p]; try done.
  intros (? & ? & ? & ? & ? & Hfresh). split_and!; try done. unfold plan_fresh in *.
  destruct (next p) as [j|]; [|done]. destruct Hfresh as (t & Ht & Hk). rewrite lookup_upd, Ht. unfold space_pml4 in *.
  case_decide; [|by exists t]. exists (f t). destruct (Hf t) as (-> & _ & -> & -> & _). by split.
Qed.

(** The same, for other processors, when the saved stack pointer changes. *)
Lemma bottom_upd s i f :
  (forall t, kernel_stack_bottom (f t) = kernel_stack_bottom t \/ kernel_stack_bottom (f t) = 0) ->
  (forall i j ti tj, tasks s !! i = Some ti -> tasks s !! j = Some tj ->
    kernel_stack_bottom ti = kernel_stack_bottom tj -> kernel_stack_bottom ti <> 0 -> i = j) ->
  forall a b ta tb, tasks (upd i f s) !! a = Some ta -> tasks (upd i f s) !! b = Some tb ->
    kernel_stack_bottom ta = kernel_stack_bottom tb -> kernel_stack_bottom ta <> 0 -> a = b.
Proof.
  intros Hf Hinj a b ta tb Ha Hb E Hne. rewrite lookup_upd in Ha, Hb.
  assert (exists t, tasks s !! a = Some t /\ kernel_stack_bottom t = kernel_stack_bottom ta) as (ta' & Ha' & Ea).
  { destruct (decide (i = a)); [|by exists ta]. apply fmap_Some in Ha as (t & Ht & ->). exists t. split; [done|].
    destruct (Hf t); congruence. }
  assert (exists t, tasks s !! b = Some t /\ kernel_stack_bottom t = kernel_stack_bottom tb) as (tb' & Hb' & Eb).
  { destruct (decide (i = b)); [|by exists tb]. apply fmap_Some in Hb as (t & Ht & ->). exists t. split; [done|].
    destruct (Hf t); congruence. }
  apply (Hinj a b ta' tb' Ha' Hb'); congruence.
Qed.

Lemma task_ok_move s s' x t :
  online s' = online s -> cpus s' = cpus s -> task_ok s x t -> task_ok s' x t.
Proof. intros E1 E2. unfold task_ok. by rewrite E1, E2. Qed.

(** ** Waking a task that is away *)

Lemma Inv_wake s pl i t q f :
  Inv s pl -> tasks s !! i = Some t -> pl i = Away -> status t = Sleeping \/ status t = Waiting ->
  frame f -> (forall t, status (f t) = Ready /\ cpu_affinity (f t) = cpu_affinity t) -> pin_ok t q -> (q < online s)%nat ->
  Inv (push_back q i (upd i f s)) (<[i := Queued q]> pl).
Proof.
  intros HI Ht Haway Hst Hf Hr Hpin Hq. destruct (Hr t) as [Hready Haff].
  assert (status t <> Zombie) as Hnz by (destruct Hst; congruence).
  destruct (Hf t) as (_ & _ & Htop & _ & Hpc).
  constructor; simpl; unfold insert, fn_insert.
  - apply HI.
  - intros c j. destruct (decide (q = c)) as [<-|Hqc].
    + rewrite elem_of_app, list_elem_of_singleton, (v_queue _ _ HI). case_decide as E; [subst; naive_solver|].
      naive_solver.
    + rewrite (v_queue _ _ HI). case_decide as E; [subst|done]. rewrite Haway. naive_solver.
  - intros c. case_decide as E; [subst c|apply HI]. apply NoDup_app. split; [apply HI|]. split; [|apply NoDup_singleton].
    intros j Hj Hj'. apply list_elem_of_singleton in Hj' as ->. apply (v_queue _ _ HI) in Hj. congruence.
  - intros c j. rewrite (v_cur _ _ HI). case_decide as E; [subst|done]. rewrite Haway. naive_solver.
  - intros c j. change (left_task _ c) with (left_task s c). rewrite (v_left _ _ HI).
    case_decide as E; [subst|done]. rewrite Haway. naive_solver.
  - intros c j. rewrite <- (v_part _ _ HI). case_decide as E; [subst|done]. rewrite Haway. naive_solver.
  - intros c j. rewrite <- (v_dying _ _ HI). case_decide as E; [subst|done]. rewrite Haway. naive_solver.
  - intros j tj Hj. change (alter f i (tasks s)) with (tasks (upd i f s)) in Hj. rewrite lookup_upd in Hj.
    case_decide as E.
    + subst j. rewrite Ht in Hj. injection Hj as <-. simpl. split; [done|]. split; [done|]. unfold pin_ok. by rewrite Hpc.
    + apply (task_ok_move s); [done|done|]. by apply (v_task _ _ HI).
  - intros j tj Hj. change (alter f i (tasks s)) with (tasks (upd i f s)) in Hj. rewrite lookup_upd in Hj.
    case_decide as E; [|by apply (v_data _ _ HI j)]. subst j. rewrite Ht in Hj. injection Hj as <-.
    destruct (v_data _ _ HI i t Ht) as (Ha & Hp & Hk). unfold data_ok. simpl. rewrite Haff, Hpc, Htop. by split_and!; auto.
  - intros j Hj. change (alter f i (tasks s)) with (tasks (upd i f s)) in Hj. rewrite lookup_upd in Hj.
    case_decide as E; [subst; by rewrite Ht in Hj|by apply (v_none _ _ HI)].
  - apply HI.
  - intros c. by apply (seat_ok_upd s i f), HI.
  - intros c. by apply (phase_ok_upd s i f), HI.
  - apply HI.
  - intros a b ta tb. apply (bottom_upd s i f); [intros u; left; apply Hf|apply HI].
  - intros b Hb Hb0. destruct (v_ret _ _ HI b Hb Hb0) as (j & tj & Hj & Hpl & Hz & Hbot). exists j, tj.
    assert (i <> j) as Hij by (intros ->; congruence).
    change (alter f i (tasks s)) with (tasks (upd i f s)). rewrite lookup_upd, decide_False by done.
    rewrite decide_False by done. done.
  - apply HI.
Qed.

(** ** Changing a task where it is *)

Lemma Inv_task s pl i f :
  Inv s pl -> frame f ->
  (forall t, tasks s !! i = Some t -> task_ok s (pl i) t -> task_ok s (pl i) (f t)) ->
  (forall t, tasks s !! i = Some t -> cpu_affinity (f t) = cpu_affinity t /\
    (status (f t) <> Zombie -> status t <> Zombie) /\ (pl i = Away -> status t = Zombie -> status (f t) = Zombie)) ->
  Inv (upd i f s) pl.
Proof.
  intros HI Hf Hok Hd. constructor; try apply HI.
  - intros j tj Hj. rewrite lookup_upd in Hj. case_decide as E; [|by apply (task_ok_move s), (v_task _ _ HI)].
    subst j. apply fmap_Some in Hj as (t & Ht & ->). apply (task_ok_move s); [done|done|].
    by apply Hok; [|apply (v_task _ _ HI)].
  - intros j tj Hj. rewrite lookup_upd in Hj. case_decide as E; [|by apply (v_data _ _ HI j)].
    subst j. apply fmap_Some in Hj as (t & Ht & ->). destruct (Hd t Ht) as (Ha & Hz & _).
    destruct (v_data _ _ HI i t Ht) as (H1 & H2 & H3). destruct (Hf t) as (_ & _ & Htop & _ & Hpc).
    unfold data_ok. simpl. rewrite Ha, Htop, Hpc. by split_and!; auto.
  - intros j Hj. rewrite lookup_upd in Hj. case_decide as E; [|by apply (v_none _ _ HI)].
    apply fmap_None in Hj. by apply (v_none _ _ HI).
  - intros c. by apply seat_ok_upd, HI.
  - intros c. by apply phase_ok_upd, HI.
  - apply bottom_upd; [intros u; left; apply Hf|apply HI].
  - intros b Hb Hb0. destruct (v_ret _ _ HI b Hb Hb0) as (j & tj & Hj & Hpl & Hz & Hbot).
    rewrite <- Hbot. exists j. rewrite lookup_upd, Hj. case_decide as E; [|by exists tj].
    subst j. exists (f tj). split; [done|]. split; [done|]. split; [by apply (Hd tj)|apply Hf].
Qed.

(** ** Changing a processor where it is *)

Definition settled (x : phase) : Prop := x = Run \/ x = MustSwitch.

Lemma Inv_cpu s pl c g :
  Inv s pl -> let k := cpus s c in let k' := g k in
  current_task_index k' = current_task_index k ->
  ph k' = ph k \/ settled (ph k) /\ settled (ph k') ->
  seat_ok s k' -> phase_ok s c k' -> ((online s <= c)%nat -> ph k' = Run) ->
  (forall i t, current_task_index k = Some i -> tasks s !! i = Some t ->
    status t = Running \/ ph k' = MustSwitch /\ blocked (status t)) ->
  Inv (with_cpu c g s) pl.
Proof.
  intros HI k k' Hcur Hph Hseat Hphase Hin Hst.
  assert (forall d, current_task_index (cpus (with_cpu c g s) d) = current_task_index (cpus s d)) as Hc.
  { intros d. simpl. unfold insert, fn_insert. case_decide; [subst|done]. done. }
  assert (forall d p, ph (cpus (with_cpu c g s) d) = Switching p <-> ph (cpus s d) = Switching p) as Hsw.
  { intros d p. simpl. unfold insert, fn_insert. case_decide; [subst d|done]. fold k k'. unfold settled in Hph.
    destruct Hph as [->|[[-> | ->] [-> | ->]]]; done. }
  assert (forall d p, ph (cpus (with_cpu c g s) d) = Switched p <-> ph (cpus s d) = Switched p) as Hsd.
  { intros d p. simpl. unfold insert, fn_insert. case_decide; [subst d|done]. fold k k'. unfold settled in Hph.
    destruct Hph as [->|[[-> | ->] [-> | ->]]]; done. }
  constructor; try apply HI.
  - intros d i. rewrite Hc. apply HI.
  - intros d i. rewrite <- (v_left _ _ HI). unfold left_task. simpl. unfold insert, fn_insert.
    case_decide; [subst d|done]. fold k k'. unfold settled in Hph. destruct Hph as [->|[[-> | ->] [-> | ->]]]; done.
  - intros d i. rewrite (v_part _ _ HI). by setoid_rewrite Hsw.
  - intros d i. rewrite (v_dying _ _ HI). by setoid_rewrite Hsd.
  - intros i t Ht. pose proof (v_task _ _ HI i t Ht) as Hok. unfold task_ok in *. destruct (pl i) as [d|d|d|d|d|d|] eqn:E; try done.
    + simpl. unfold insert, fn_insert. case_decide; [subst d|done]. fold k k'. destruct Hok as [_ Haff].
      split; [|done]. apply (Hst i); [|done]. by apply (v_cur _ _ HI).
    + by setoid_rewrite Hsw.
    + by setoid_rewrite Hsd.
  - intros d. rewrite Hc. apply HI.
  - intros d. simpl. unfold insert, fn_insert. case_decide; [by subst d|apply HI].
  - intros d. simpl. unfold insert, fn_insert. case_decide; [by subst d|apply HI].
  - intros d Hd. simpl in Hd. destruct (v_inert _ _ HI d Hd) as (Hp & Hn & Hs). split; [|split; [by rewrite Hc|done]].
    simpl. unfold insert, fn_insert. case_decide; [subst d; by apply Hin|done].
Qed.

Lemma seated_running s pl c i t :
  Inv s pl -> ph (cpus s c) <> MustSwitch -> current_task_index (cpus s c) = Some i -> tasks s !! i = Some t -> status t = Running.
Proof.
  intros HI Hph Hc Ht. apply (v_cur _ _ HI) in Hc. pose proof (v_task _ _ HI i t Ht) as Hok. rewrite Hc in Hok.
  by destruct Hok as [[?|[? _]] _].
Qed.

Lemma Inv_must s pl c :
  Inv s pl -> ph (cpus s c) = Run -> (c < online s)%nat -> Inv (with_cpu c (set_ph MustSwitch) s) pl.
Proof.
  intros HI Hph Hc. apply Inv_cpu; try done; simpl.
  - right. split; [by left|by right].
  - apply HI.
  - pose proof (v_phase _ _ HI c) as Hp. unfold phase_ok in *. rewrite Hph in Hp. done.
  - lia.
  - intros i t Hcur Ht. left. eapply seated_running; [done| |done|done]. by rewrite Hph.
Qed.

Lemma Inv_run s pl c :
  Inv s pl -> settled (ph (cpus s c)) ->
  (forall i t, current_task_index (cpus s c) = Some i -> tasks s !! i = Some t -> status t = Running) ->
  Inv (with_cpu c (set_ph Run) s) pl.
Proof.
  intros HI Hph Hst. apply Inv_cpu; try done; simpl.
  - right. split; [done|by left].
  - apply HI.
  - pose proof (v_phase _ _ HI c) as Hp. unfold phase_ok in *. destruct Hph as [Hph|Hph]; by rewrite Hph in Hp.
  - intros i t Hcur Ht. left. by apply (Hst i).
Qed.

(** The current task blocks or ends. *)
Lemma Inv_block s pl c i f :
  Inv s pl -> ph (cpus s c) = Run -> current_task_index (cpus s c) = Some i ->
  frame f -> (forall t, blocked (status (f t)) /\ cpu_affinity (f t) = cpu_affinity t) ->
  Inv (block c i f s) pl.
Proof.
  intros HI Hph Hcur Hf Hb. pose proof (cur_online _ _ HI c i Hcur) as Hon.
  assert (pl i = Seated c) as Hpl by (by apply (v_cur _ _ HI)).
  destruct (seated_lookup _ _ HI c i Hpl) as [t Ht].
  assert (status t = Running) as Hrun by (eapply seated_running; [done| |done|done]; by rewrite Hph).
  unfold block. change (with_cpu c (set_ph MustSwitch) (upd i f s)) with (upd i f (with_cpu c (set_ph MustSwitch) s)).
  apply Inv_task; [by apply Inv_must|done| |].
  - intros t' _. rewrite Hpl. intros [_ Ha]. destruct (Hb t') as [? ?]. split; [|congruence].
    right. simpl. unfold insert, fn_insert. by rewrite decide_True.
  - intros t' Ht'. simpl in Ht'. assert (t' = t) as -> by congruence. split; [apply Hb|]. split; [congruence|]. congruence.
Qed.

(** ** From a queue into a processor's hands *)

(** A queue with the same entries. *)
Lemma Inv_set_queue s pl c q :
  Inv s pl -> NoDup q -> (forall i, i ∈ q <-> i ∈ run_queues s c) -> Inv (set_queue c q s) pl.
Proof.
  intros HI Hnd Hq. constructor; try apply HI; simpl; unfold insert, fn_insert.
  - intros d i. case_decide; [subst d; rewrite Hq|]; apply HI.
  - intros d. case_decide; [done|apply HI].
Qed.

Lemma Inv_hold s pl v c i q f :
  Inv s pl -> pl i = Queued v -> NoDup q -> (forall j, j ∈ q <-> j ∈ run_queues s v /\ j <> i) ->
  frame f -> (c < online s)%nat ->
  (forall t, status (f t) = Claimed /\ (cpu_affinity (f t) = cpu_affinity t \/ cpu_affinity (f t) = c)) ->
  (forall t, tasks s !! i = Some t -> cpu_affinity (f t) = c -> pin_ok t c) ->
  Inv (upd i f (set_queue v q s)) (<[i := Held c]> pl).
Proof.
  intros HI Hpl Hnd Hq Hf Hc Hcl Hpin. destruct (queued_lookup _ _ HI v i Hpl) as [t Ht].
  pose proof (v_task _ _ HI i t Ht) as Hok. rewrite Hpl in Hok. destruct Hok as (Hready & _ & _).
  destruct (Hf t) as (_ & Hbot & Htop & _ & Hpc). destruct (Hcl t) as [Hst Haff].
  constructor; try apply HI; simpl.
  - intros d j. unfold insert, fn_insert. destruct (decide (v = d)) as [<-|Hvd].
    + rewrite Hq, (v_queue _ _ HI). case_decide as E; [subst j|]; split; try (intros [? ?]; congruence); try congruence.
      intros ?. split; [done|congruence].
    + rewrite (v_queue _ _ HI). case_decide as E; [subst j|done]. split; congruence.
  - intros d. unfold insert, fn_insert. case_decide; [done|apply HI].
  - intros d j. rewrite (v_cur _ _ HI). unfold insert, fn_insert. case_decide as E; [subst j; split; congruence|done].
  - intros d j. change (left_task _ d) with (left_task s d). rewrite (v_left _ _ HI).
    unfold insert, fn_insert. case_decide as E; [subst j; split; congruence|done].
  - intros d j. rewrite <- (v_part _ _ HI). unfold insert, fn_insert. case_decide as E; [subst j; split; congruence|done].
  - intros d j. rewrite <- (v_dying _ _ HI). unfold insert, fn_insert. case_decide as E; [subst j; split; congruence|done].
  - intros j tj Hj. change (alter f i (tasks s)) with (tasks (upd i f s)) in Hj. rewrite lookup_upd in Hj.
    unfold insert, fn_insert. case_decide as E.
    + subst j. rewrite Ht in Hj. injection Hj as <-. done.
    + apply (task_ok_move s); [done|done|]. by apply (v_task _ _ HI).
  - intros j tj Hj. change (alter f i (tasks s)) with (tasks (upd i f s)) in Hj. rewrite lookup_upd in Hj.
    case_decide as E; [|by apply (v_data _ _ HI j)]. subst j. rewrite Ht in Hj. injection Hj as <-.
    destruct (v_data _ _ HI i t Ht) as (Ha & Hp & Hk). unfold data_ok. simpl. rewrite Hpc, Htop.
    destruct Haff as [->|Eaff]; [split_and!; auto; intros _; apply Hk; congruence|].
    split; [lia|]. split; [|intros _; apply Hk; congruence].
    intros k Hpk. destruct (Hpin t Ht Eaff); congruence.
  - intros j Hj. change (alter f i (tasks s)) with (tasks (upd i f s)) in Hj. rewrite lookup_upd in Hj.
    unfold insert, fn_insert. case_decide as E; [subst; by rewrite Ht in Hj|by apply (v_none _ _ HI)].
  - intros d. by apply (seat_ok_upd s i f), HI.
  - intros d. by apply (phase_ok_upd s i f), HI.
  - intros a b ta tb. apply (bottom_upd s i f); [intros u; left; apply Hf|apply HI].
  - intros b Hb Hb0. destruct (v_ret _ _ HI b Hb Hb0) as (j & tj & Hj & Hpj & Hz & Hbj). exists j, tj.
    assert (i <> j) as Hij by (intros ->; congruence).
    change (alter f i (tasks s)) with (tasks (upd i f s)). rewrite lookup_upd, decide_False by done.
    unfold insert, fn_insert. rewrite decide_False by done. done.
Qed.

(** ** Leaving one task for another or for the idle loop *)

Definition same_frame (t t' : Task) : Prop :=
  stack_top t' = stack_top t /\ kernel_stack_bottom t' = kernel_stack_bottom t /\
  kernel_stack_top t' = kernel_stack_top t /\ address_space t' = address_space t /\ pinned_cpu t' = pinned_cpu t.

Section depart.
Context (s s' : sched) (pl : nat -> place) (c : nat) (cur nx : option nat) (p : SwitchPlan) (k' : cpu).

Definition pl_depart (j : nat) : place :=
  if decide (nx = Some j) then Seated c
  else if decide (cur = Some j) then (if decide (switched_out_task p = Some j) then Leaving c else Parting c)
  else pl j.

(** How the task that is left changes. *)
Definition departs (t t' : Task) (i : nat) : Prop :=
  status t = Running /\ status t' = SwitchingOut /\ switched_out_task p = Some i /\ retired_stack_bottom p = 0 \/
  blocked (status t) /\ status t' = status t /\ switched_out_task p = None /\
    retired_stack_bottom p = (if decide (status t = Zombie) then kernel_stack_bottom t else 0).

Record depart : Prop := {
  de_inv : Inv s pl;
  de_settled : settled (ph (cpus s c));
  de_cur : current_task_index (cpus s c) = cur;
  de_online : (c < online s)%nat;
  de_slot : switched_out s c = None;
  de_somewhere : cur = None -> nx <> None;
  de_held n : nx = Some n -> pl n = Held c;
  de_same : online s' = online s /\ run_queues s' = run_queues s /\ switched_out s' = switched_out s /\
    retired s' = retired s /\ kernel_pml4 s' = kernel_pml4 s;
  de_pub : published s' = <[c := nx]> (published s);
  de_cpus : cpus s' = <[c := k']> (cpus s);
  de_k : current_task_index k' = nx /\ ph k' = Switching p /\ on k' = on (cpus s c) /\ rsp k' = rsp (cpus s c) /\
    cr3 k' = cr3 (cpus s c) /\ kernel_stack k' = kernel_stack (cpus s c) /\ idle_stack k' = idle_stack (cpus s c);
  de_plan : old p = cur /\ next p = nx /\ plan_fresh s' k' p;
  de_others j : cur <> Some j -> nx <> Some j -> tasks s' !! j = tasks s !! j;
  de_old i : cur = Some i -> exists t t', tasks s !! i = Some t /\ tasks s' !! i = Some t' /\ same_frame t t' /\
    cpu_affinity t' = cpu_affinity t /\ departs t t' i;
  de_idle : cur = None -> switched_out_task p = None /\ retired_stack_bottom p = 0;
  de_new n : nx = Some n -> exists t t', tasks s !! n = Some t /\ tasks s' !! n = Some t' /\ same_frame t t' /\
    status t' = Running /\ cpu_affinity t' = c /\ pin_ok t c;
}.

Context (HD : depart).

Lemma de_cur_seated i : cur = Some i -> pl i = Seated c.
Proof. intros E. apply (v_cur _ _ (de_inv HD)). by rewrite (de_cur HD). Qed.

Lemma de_apart n i : nx = Some n -> cur = Some i -> n <> i.
Proof. intros Hn Hi ->. pose proof (de_held HD i Hn). pose proof (de_cur_seated i Hi). congruence. Qed.

Lemma de_fwd j t : tasks s !! j = Some t -> exists t', tasks s' !! j = Some t' /\ same_frame t t'.
Proof.
  intros Ht. destruct (decide (cur = Some j)) as [Hc|Hc].
  { destruct (de_old HD j Hc) as (t0 & t' & Ht0 & Ht' & Hs & _). assert (t0 = t) as -> by congruence. by exists t'. }
  destruct (decide (nx = Some j)) as [Hn|Hn].
  { destruct (de_new HD j Hn) as (t0 & t' & Ht0 & Ht' & Hs & _). assert (t0 = t) as -> by congruence. by exists t'. }
  exists t. rewrite (de_others HD) by done. done.
Qed.

Lemma de_bwd j t' : tasks s' !! j = Some t' -> exists t, tasks s !! j = Some t /\ same_frame t t'.
Proof.
  intros Ht'. destruct (tasks s !! j) as [t|] eqn:Ht.
  - exists t. destruct (de_fwd j t Ht) as (t2 & Ht2 & Hs). split; [done|]. congruence.
  - destruct (decide (cur = Some j)) as [Hc|Hc].
    { destruct (de_old HD j Hc) as (t0 & ? & Ht0 & _). congruence. }
    destruct (decide (nx = Some j)) as [Hn|Hn].
    { destruct (de_new HD j Hn) as (t0 & ? & Ht0 & _). congruence. }
    rewrite (de_others HD) in Ht' by done. congruence.
Qed.

Lemma de_cpu d : cpus s' d = if decide (c = d) then k' else cpus s d.
Proof. rewrite (de_cpus HD). done. Qed.

Lemma de_seat_ok k : seat_ok s k -> seat_ok s' k.
Proof.
  destruct (de_same HD) as (_ & _ & _ & _ & Hk). unfold seat_ok, space_pml4. rewrite Hk.
  destruct (on k) as [j|]; [|done]. intros (t & Ht & H1 & H2 & H3). destruct (de_fwd j t Ht) as (t' & Ht' & Hs).
  destruct Hs as (_ & _ & E1 & E2 & _). exists t'. by rewrite E1, E2.
Qed.

Lemma de_phase_ok d k : phase_ok s d k -> phase_ok s' d k.
Proof.
  destruct (de_same HD) as (_ & _ & Hso & _ & Hk). unfold phase_ok, plan_fresh, space_pml4. rewrite Hso, Hk.
  destruct (ph k) as [| |q|q]; try done. intros (? & ? & ? & ? & ? & Hfr). split_and!; try done.
  destruct (next q) as [j|]; [|done]. destruct Hfr as (t & Ht & G1 & G2 & G3).
  destruct (de_fwd j t Ht) as (t' & Ht' & E0 & _ & E1 & E2 & _). exists t'. by rewrite E0, E1, E2.
Qed.

(** A place that belongs to another processor, or to none, is kept. *)
Lemma de_elsewhere j x : x <> Held c -> x <> Seated c -> pl j = x -> pl_depart j = x.
Proof.
  intros Hh Hs Hx. unfold pl_depart. rewrite decide_False by (intros E; apply (de_held HD) in E; congruence).
  rewrite decide_False; [done|]. intros E. apply de_cur_seated in E. congruence.
Qed.

Lemma de_elsewhere_inv j x :
  pl_depart j = x -> x <> Seated c -> x <> Leaving c -> x <> Parting c -> pl j = x.
Proof. unfold pl_depart. repeat case_decide; congruence. Qed.

Lemma de_settled_left j : pl j <> Leaving c.
Proof.
  intros E. apply (v_left _ _ (de_inv HD)) in E. unfold left_task in E. pose proof (de_slot HD).
  destruct (de_settled HD) as [Hs|Hs]; rewrite Hs in E; congruence.
Qed.

Lemma de_settled_part j : pl j <> Parting c.
Proof.
  intros E. apply (v_part _ _ (de_inv HD)) in E as (q & E & _). destruct (de_settled HD); congruence.
Qed.

Lemma de_settled_dying j : pl j <> Dying c.
Proof.
  intros E. apply (v_dying _ _ (de_inv HD)) in E as (q & E & _). destruct (de_settled HD); congruence.
Qed.

Lemma de_out j : switched_out_task p = Some j -> cur = Some j.
Proof.
  intros E. destruct cur as [i|] eqn:Ec.
  - destruct (de_old HD i) as (t & t' & _ & _ & _ & _ & [(_ & _ & ? & _)|(_ & _ & ? & _)]); congruence.
  - destruct (de_idle HD); congruence.
Qed.

Lemma pl_depart_nx j : nx = Some j -> pl_depart j = Seated c.
Proof. intros E. unfold pl_depart. by rewrite decide_True. Qed.

Lemma pl_depart_cur j :
  cur = Some j -> pl_depart j = if decide (switched_out_task p = Some j) then Leaving c else Parting c.
Proof.
  intros E. unfold pl_depart. rewrite decide_False, decide_True by (done || (intros En; by apply (de_apart j j))). done.
Qed.

Lemma depart_task_ok j t' : tasks s' !! j = Some t' -> task_ok s' (pl_depart j) t'.
Proof.
  intros Ht'. destruct (de_same HD) as (Hon & _). destruct (de_k HD) as (Hkc & Hkp & _).
  destruct (decide (nx = Some j)) as [Hn|Hn].
  { rewrite pl_depart_nx by done. destruct (de_new HD j Hn) as (? & t2 & _ & Ht2 & _ & Hst & Haff & _).
    split; [left|]; congruence. }
  destruct (decide (cur = Some j)) as [Hc|Hc].
  { rewrite pl_depart_cur by done. destruct (de_old HD j Hc) as (t & t2 & Ht & Ht2 & Hs & Haff & Hdep).
    assert (t2 = t') as -> by congruence. destruct Hdep as [(_ & Hst & Hout & _)|(Hb & Hst & Hout & Hret)].
    - rewrite decide_True by done. split; [done|]. pose proof (v_task _ _ (de_inv HD) j t Ht) as Hok.
      rewrite (de_cur_seated j Hc) in Hok. destruct Hok. congruence.
    - rewrite decide_False by congruence. simpl. rewrite Hst. split; [done|].
      intros q. rewrite de_cpu, decide_True, Hkp by done. intros [= <-]. destruct Hs as (_ & -> & _). done. }
  rewrite (de_others HD) in Ht' by done. pose proof (v_task _ _ (de_inv HD) j t' Ht') as Hok.
  unfold pl_depart. rewrite !decide_False by done. unfold task_ok in *. rewrite Hon.
  destruct (pl j) as [d|d|d|d|d|d|] eqn:E; try done; rewrite de_cpu; (destruct (decide (c = d)); [subst d|done]).
  - apply (v_cur _ _ (de_inv HD)) in E. rewrite (de_cur HD) in E. congruence.
  - by apply de_settled_part in E.
  - by apply de_settled_dying in E.
Qed.

Lemma depart_data_ok j t' : tasks s' !! j = Some t' -> data_ok s' t'.
Proof.
  intros Ht'. destruct (de_same HD) as (Hon & _). unfold data_ok. rewrite Hon.
  destruct (decide (nx = Some j)) as [Hn|Hn].
  { destruct (de_new HD j Hn) as (t & t2 & Ht & Ht2 & Hs & Hst & Haff & Hpin).
    assert (t2 = t') as -> by congruence. destruct Hs as (_ & _ & Etop & _ & Epin).
    destruct (v_data _ _ (de_inv HD) j t Ht) as (H1 & H2 & H3). rewrite Haff, Etop, Epin.
    split; [apply (de_online HD)|]. split; [intros q Hq; destruct Hpin; congruence|]. intros _. apply H3.
    pose proof (v_task _ _ (de_inv HD) j t Ht) as Hok. rewrite (de_held HD j Hn) in Hok. simpl in Hok. congruence. }
  destruct (decide (cur = Some j)) as [Hc|Hc].
  { destruct (de_old HD j Hc) as (t & t2 & Ht & Ht2 & Hs & Haff & Hdep).
    assert (t2 = t') as -> by congruence. destruct Hs as (_ & _ & Etop & _ & Epin).
    destruct (v_data _ _ (de_inv HD) j t Ht) as (H1 & H2 & H3). rewrite Haff, Etop, Epin.
    split; [done|]. split; [done|]. intros Hz. apply H3. destruct Hdep as [(-> & _)|(_ & <- & _)]; done. }
  rewrite (de_others HD) in Ht' by done. by apply (v_data _ _ (de_inv HD) j).
Qed.

Lemma depart_phase_ok : phase_ok s' c k'.
Proof.
  destruct (de_k HD) as (Hkc & Hkp & Hon & _). destruct (de_plan HD) as (Ho & Hn & Hfr).
  destruct (de_same HD) as (_ & _ & Hso & _). unfold phase_ok. rewrite Hkp, Ho, Hn, Hso, Hon.
  split; [|split; [done|split; [apply (de_slot HD)|split; [|split; [|done]]]]].
  - pose proof (v_phase _ _ (de_inv HD) c) as Hp. unfold phase_ok in Hp. rewrite <- (de_cur HD).
    destruct (de_settled HD) as [Hs|Hs]; by rewrite Hs in Hp.
  - destruct cur as [i|] eqn:Ec; [|left; by destruct (de_idle HD Ec)].
    destruct (de_old HD i Ec) as (t & t' & _ & _ & _ & _ & [(_ & _ & ? & ?)|(_ & _ & ? & _)]); [right; by split|by left].
  - intros E. split; [by destruct (de_idle HD E)|by apply (de_somewhere HD)].
Qed.

Lemma Inv_depart : Inv s' pl_depart.
Proof.
  pose proof (de_inv HD) as HI. destruct (de_same HD) as (Hon & Hq & Hso & Hret & Hk).
  destruct (de_k HD) as (Hkc & Hkp & Hkon & Hkrsp & Hkcr3 & Hkks & Hkidle). destruct (de_plan HD) as (Ho & Hn & Hfr).
  constructor.
  - rewrite Hon. apply HI.
  - intros d j. rewrite Hq, (v_queue _ _ HI). split; intros E; [by apply de_elsewhere|by apply de_elsewhere_inv].
  - intros d. rewrite Hq. apply HI.
  - intros d j. rewrite de_cpu. case_decide as Ed; [subst d; rewrite Hkc|].
    + split; [apply pl_depart_nx|]. unfold pl_depart. repeat case_decide; try done. intros E.
      apply (v_cur _ _ HI) in E. rewrite (de_cur HD) in E. congruence.
    + rewrite (v_cur _ _ HI). split; intros E; [apply de_elsewhere; congruence|apply de_elsewhere_inv; congruence].
  - intros d j. unfold left_task. rewrite de_cpu, Hso. case_decide as Ed; [subst d; rewrite Hkp|].
    + split; [intros E; rewrite pl_depart_cur by (by apply de_out); by rewrite decide_True|].
      unfold pl_depart. repeat case_decide; try done. intros E. by apply de_settled_left in E.
    + fold (left_task s d). rewrite (v_left _ _ HI).
      split; intros E; [apply de_elsewhere; congruence|apply de_elsewhere_inv; congruence].
  - intros d j. rewrite de_cpu. case_decide as Ed; [subst d; rewrite Hkp|].
    + split.
      * unfold pl_depart. repeat case_decide; try done; [|intros E; by apply de_settled_part in E].
        intros _. exists p. split; [done|]. split; [congruence|]. destruct (switched_out_task p) as [m|] eqn:Em; [|done].
        apply de_out in Em. congruence.
      * intros (q & [= <-] & Hoj & Hout). rewrite pl_depart_cur by congruence. rewrite decide_False; [done|congruence].
    + rewrite <- (v_part _ _ HI). split; intros E; [apply de_elsewhere_inv; congruence|apply de_elsewhere; congruence].
  - intros d j. rewrite de_cpu. case_decide as Ed; [subst d; rewrite Hkp|].
    + split; [|naive_solver]. intros E. apply de_elsewhere_inv in E; try done. by apply de_settled_dying in E.
    + rewrite <- (v_dying _ _ HI). split; intros E; [apply de_elsewhere_inv; congruence|apply de_elsewhere; congruence].
  - apply depart_task_ok.
  - apply depart_data_ok.
  - intros j Hj. apply de_elsewhere; [done|done|]. apply (v_none _ _ HI). destruct (tasks s !! j) as [t|] eqn:E; [|done].
    destruct (de_fwd j t E) as (? & ? & _). congruence.
  - intros d. rewrite de_cpu, (de_pub HD). unfold insert, fn_insert. case_decide; [congruence|apply HI].
  - intros d. rewrite de_cpu. case_decide; [|apply de_seat_ok, HI].
    pose proof (de_seat_ok _ (v_seat _ _ HI c)) as Hs. unfold seat_ok in *. rewrite Hkon.
    destruct (on (cpus s c)) as [i|]; [by rewrite Hkidle, Hkcr3, Hkks|by rewrite Hkrsp, Hkcr3].
  - intros d. rewrite de_cpu. case_decide; [subst d; apply depart_phase_ok|apply de_phase_ok, HI].
  - intros d Hd. rewrite Hon in Hd. pose proof (de_online HD). unfold inert. rewrite de_cpu, decide_False, Hso by lia.
    by apply HI.
  - intros a b ta tb Ha Hb. destruct (de_bwd a ta Ha) as (ta' & Ha' & _ & -> & _).
    destruct (de_bwd b tb Hb) as (tb' & Hb' & _ & -> & _). by apply (v_bottom _ _ HI).
  - intros b. rewrite Hret. intros Hb Hb0. destruct (v_ret _ _ HI b Hb Hb0) as (j & t & Hj & Hpl & Hz & Hbot).
    exists j, t. rewrite (de_others HD); [split_and!; try done; by apply de_elsewhere|..].
    + intros E. apply de_cur_seated in E. congruence.
    + intros E. apply (de_held HD) in E. congruence.
  - rewrite Hret. apply HI.
Qed.
End depart.
