(* ===== verification/SchedSteps.v ===== *)
(** The scheduler's operations keep its invariant.

    [context_load] and [context_publish] are what a processor does without the
    lock; the others are the parts of the locked functions. *)

From S2P Require Import Prelude Sched SchedInv.

(** * Loading the new stack *)

Definition pl_load (pl : nat -> place) (c : nat) (p : SwitchPlan) (j : nat) : place :=
  if decide (pl j = Parting c) then (if decide (retired_stack_bottom p = 0) then Away else Dying c) else pl j.

Section load.
Context (s : sched) (pl : nat -> place) (c : nat) (p : SwitchPlan).
Context (HI : Inv s pl) (Hp : ph (cpus s c) = Switching p).

Lemma load_lookup j :
  tasks (context_load c p s) !! j =
    if decide (old p = Some j) then set_stack_top (rsp (cpus s c)) <$> tasks s !! j else tasks s !! j.
Proof.
  unfold context_load. destruct (old p) as [i|]; simpl; [|done].
  change (alter _ i (tasks s)) with (tasks (upd i (set_stack_top (rsp (cpus s c))) s)). rewrite lookup_upd.
  repeat case_decide; naive_solver.
Qed.

Lemma load_phase : phase_ok s c (cpus s c). Proof. apply HI. Qed.

Lemma load_old i : old p = Some i -> pl i = Leaving c \/ pl i = Parting c.
Proof.
  intros Ho. pose proof load_phase as Hph. unfold phase_ok in Hph. rewrite Hp in Hph.
  destruct Hph as (_ & _ & _ & [Hout|[Hout _]] & _).
  - right. apply (v_part _ _ HI). exists p. by split_and!.
  - left. apply (v_left _ _ HI). unfold left_task. rewrite Hp. congruence.
Qed.

Lemma load_part j : pl j = Parting c -> old p = Some j /\ switched_out_task p = None.
Proof. intros E. apply (v_part _ _ HI) in E as (q & Eq & Ho & Hout). assert (q = p) as -> by congruence. done. Qed.

(** Everything but the saved stack pointer of the task that is left. *)
Lemma load_fwd j t : tasks s !! j = Some t ->
  exists t', tasks (context_load c p s) !! j = Some t' /\ status t' = status t /\ cpu_affinity t' = cpu_affinity t /\
    kernel_stack_bottom t' = kernel_stack_bottom t /\ kernel_stack_top t' = kernel_stack_top t /\
    address_space t' = address_space t /\ pinned_cpu t' = pinned_cpu t /\ (old p <> Some j -> t' = t).
Proof.
  intros Ht. rewrite load_lookup, Ht. case_decide; [by eexists|]. by exists t.
Qed.

Lemma load_bwd j t' : tasks (context_load c p s) !! j = Some t' ->
  exists t, tasks s !! j = Some t /\ status t' = status t /\ cpu_affinity t' = cpu_affinity t /\
    kernel_stack_bottom t' = kernel_stack_bottom t /\ kernel_stack_top t' = kernel_stack_top t /\ pinned_cpu t' = pinned_cpu t.
Proof.
  intros Ht'. destruct (tasks s !! j) as [t|] eqn:Ht.
  - destruct (load_fwd j t Ht) as (t2 & Ht2 & ?). exists t. assert (t2 = t') as -> by congruence. naive_solver.
  - rewrite load_lookup, Ht in Ht'. by case_decide.
Qed.

Lemma load_cpu d : d <> c -> cpus (context_load c p s) d = cpus s d.
Proof. intros Hd. simpl. unfold insert, fn_insert. rewrite decide_False by done. by destruct (old p). Qed.

Lemma load_self : exists k, cpus (context_load c p s) c = k /\ ph k = Switched p /\ on k = next p /\
  current_task_index k = current_task_index (cpus s c) /\ rsp k = new_stack p /\ cr3 k = new_pml4 p /\
  kernel_stack k = (if new_kernel_stack_top p =? 0 then kernel_stack (cpus s c) else new_kernel_stack_top p) /\
  idle_stack k = match old p with Some _ => idle_stack (cpus s c) | None => rsp (cpus s c) end.
Proof.
  eexists. split; [reflexivity|]. simpl. unfold insert, fn_insert. rewrite decide_True by done. simpl.
  by destruct (old p).
Qed.

Lemma load_fields :
  online (context_load c p s) = online s /\ run_queues (context_load c p s) = run_queues s /\
  switched_out (context_load c p s) = switched_out s /\ retired (context_load c p s) = retired s /\
  kernel_pml4 (context_load c p s) = kernel_pml4 s /\ published (context_load c p s) = published s.
Proof. unfold context_load. by destruct (old p). Qed.

Lemma load_seat : seat_ok (context_load c p s) (cpus (context_load c p s) c).
Proof.
  destruct load_self as (k & -> & Hph & Hon & Hcur & Hr & Hcr & Hks & Hid).
  destruct load_fields as (_ & _ & _ & _ & Hk & _). pose proof load_phase as Hphase.
  unfold phase_ok in Hphase. rewrite Hp in Hphase. destruct Hphase as (Ho & Hc & _ & _ & Hnone & Hfr).
  pose proof (v_seat _ _ HI c) as Hseat. unfold seat_ok, space_pml4 in *. rewrite Hon. unfold plan_fresh in Hfr.
  destruct (next p) as [j|] eqn:En.
  - destruct Hfr as (t & Ht & H1 & H2 & H3). assert (pl j = Seated c) as Hj by (apply (v_cur _ _ HI); congruence).
    assert (old p <> Some j) as Hne by (intros E; destruct (load_old j E); congruence).
    exists t. rewrite load_lookup, decide_False, Hid, Hcr, Hk by done. split; [done|]. split; [|split; [done|]].
    + rewrite Ho in Hseat. destruct (old p); naive_solver.
    + rewrite Hks, H2. destruct (Z.eqb_spec (kernel_stack_top t) 0) as [E|]; [|done].
      destruct (v_data _ _ HI j t Ht) as (_ & _ & Htop). destruct Htop; [|done].
      pose proof (seated_running s pl c j t HI) as Hrun. rewrite Hrun; [done|by rewrite Hp|congruence|done].
  - destruct Hfr as (H1 & H2 & H3). rewrite Hr, H1, Hcr, H3, Hk. split; [|done].
    rewrite Ho in Hseat. destruct (old p) as [i|]; [naive_solver|]. by destruct Hnone.
Qed.

Lemma load_seat_other d : d <> c -> seat_ok (context_load c p s) (cpus s d).
Proof.
  intros Hd. pose proof (v_seat _ _ HI d) as Hseat. destruct load_fields as (_ & _ & _ & _ & Hk & _).
  unfold seat_ok, space_pml4 in *. rewrite Hk. destruct (on (cpus s d)) as [i|]; [|done].
  destruct Hseat as (t & Ht & H1 & H2 & H3). destruct (load_fwd i t Ht) as (t' & Ht' & _ & _ & _ & E1 & E2 & _).
  exists t'. by rewrite E1, E2.
Qed.

Lemma load_phase_other d : d <> c -> phase_ok (context_load c p s) d (cpus s d).
Proof.
  intros Hd. pose proof (v_phase _ _ HI d) as Hph. destruct load_fields as (_ & _ & Hso & _ & Hk & _).
  unfold phase_ok, plan_fresh, space_pml4 in *. rewrite Hso, Hk. destruct (ph (cpus s d)) as [| |q|q] eqn:Eq; try done.
  destruct Hph as (? & Hc & ? & ? & ? & Hfr). split_and!; try done. destruct (next q) as [j|] eqn:En; [|done].
  destruct Hfr as (t & Ht & G). assert (pl j = Seated d) as Hj by (by apply (v_cur _ _ HI)).
  destruct (load_fwd j t Ht) as (t' & Ht' & _ & _ & _ & _ & _ & _ & Hsame).
  rewrite Hsame in Ht' by (intros E; destruct (load_old j E); congruence). by exists t.
Qed.

Lemma load_task_ok j t' : tasks (context_load c p s) !! j = Some t' -> task_ok (context_load c p s) (pl_load pl c p j) t'.
Proof.
  intros Ht'. destruct (load_bwd j t' Ht') as (t & Ht & Est & Eaff & Ebot & _ & Epin).
  destruct load_fields as (Hon & _). pose proof (v_task _ _ HI j t Ht) as Hok. unfold pl_load.
  destruct (decide (pl j = Parting c)) as [E|E].
  - rewrite E in Hok. destruct Hok as [Hb Hret]. specialize (Hret p Hp).
    destruct (load_part j E) as [Ho _]. destruct (decide (retired_stack_bottom p = 0)) as [E0|E0]; cbn [task_ok]; rewrite ?Est; [done|].
    destruct (decide (status t = Zombie)); [|done]. split; [done|]. intros q. destruct load_self as (k & -> & -> & _). intros [= <-]. congruence.
  - unfold task_ok in *. rewrite Est, Eaff, Hon. unfold pin_ok in *. rewrite Epin.
    destruct (pl j) as [d|d|d|d|d|d|] eqn:Ed; try done; (destruct (decide (d = c)) as [->|]; [|by rewrite load_cpu, ?Ebot]).
    + split; [left|by destruct Hok]. apply (seated_running s pl c j t HI); [by rewrite Hp| |done]. by apply (v_cur _ _ HI).
    + congruence.
    + apply (v_dying _ _ HI) in Ed as (q & Eq & _). congruence.
Qed.

Lemma Inv_load : Inv (context_load c p s) (pl_load pl c p).
Proof.
  destruct load_fields as (Hon & Hq & Hso & Hret & Hk & Hpub). destruct load_self as (k & Ek & Hph & Honk & Hcurk & _).
  assert (forall d, current_task_index (cpus (context_load c p s) d) = current_task_index (cpus s d)) as Hcur.
  { intros d. destruct (decide (d = c)) as [->|]; [by rewrite Ek|by rewrite load_cpu]. }
  assert (forall j x, x <> Parting c -> x <> Away -> x <> Dying c -> pl_load pl c p j = x <-> pl j = x) as Hpl.
  { intros j x H1 H2 H3. unfold pl_load. repeat case_decide; split; congruence. }
  pose proof load_phase as Hphase. unfold phase_ok in Hphase. rewrite Hp in Hphase.
  destruct Hphase as (Ho & Hc & Hs & Hout & Hnone & Hfr).
  constructor; rewrite ?Hon; try apply HI.
  - intros d j. rewrite Hq, Hpl by done. apply HI.
  - intros d. rewrite Hq. apply HI.
  - intros d j. rewrite Hcur, Hpl by done. apply HI.
  - intros d j. rewrite Hpl, <- (v_left _ _ HI) by done. unfold left_task. rewrite Hso.
    destruct (decide (d = c)) as [->|]; [by rewrite Ek, Hph, Hp|by rewrite load_cpu].
  - intros d j. destruct (decide (d = c)) as [->|Hd].
    + rewrite Ek, Hph. split; [|intros (? & ? & _); congruence]. unfold pl_load. repeat case_decide; congruence.
    + rewrite load_cpu, <- (v_part _ _ HI) by done. unfold pl_load. repeat case_decide; split; congruence.
  - intros d j. destruct (decide (d = c)) as [->|Hd].
    + rewrite Ek, Hph. split.
      * unfold pl_load. destruct (decide (pl j = Parting c)) as [E|E];
          [destruct (decide (retired_stack_bottom p = 0)) as [E0|E0]; [done|]|].
        -- intros _. exists p. by destruct (load_part j E).
        -- intros E'. apply (v_dying _ _ HI) in E' as (q & Eq & _). congruence.
      * intros (q & [= <-] & Hoj & Hr). assert (pl j = Parting c) as Hj.
        { destruct (load_old j Hoj) as [E|]; [|done]. apply (v_left _ _ HI) in E. unfold left_task in E. rewrite Hp in E.
          destruct Hout as [?|[? ?]]; congruence. }
        unfold pl_load. by rewrite decide_True, decide_False.
    + rewrite load_cpu, <- (v_dying _ _ HI) by done. unfold pl_load. repeat case_decide; split; congruence.
  - apply load_task_ok.
  - intros j t' Ht'. destruct (load_bwd j t' Ht') as (t & Ht & Est & Eaff & _ & Etop & Epin).
    destruct (v_data _ _ HI j t Ht) as (G1 & G2 & G3). unfold data_ok. by rewrite Hon, Est, Eaff, Etop, Epin.
  - intros j Hj. rewrite load_lookup in Hj. assert (tasks s !! j = None) as Hj' by (case_decide; [by apply fmap_None in Hj|done]).
    apply (v_none _ _ HI) in Hj'. unfold pl_load. rewrite decide_False by congruence. done.
  - intros d. rewrite Hpub, Hcur. apply HI.
  - intros d. destruct (decide (d = c)) as [->|]; [apply load_seat|rewrite load_cpu by done; by apply load_seat_other].
  - intros d. destruct (decide (d = c)) as [->|]; [|rewrite load_cpu by done; by apply load_phase_other].
    rewrite Ek. unfold phase_ok. rewrite Hph, Hso, Honk, Hcurk. split_and!; try done; [intros Hr E; by destruct (Hnone E)|naive_solver].
  - intros d Hd. destruct (v_inert _ _ HI d Hd) as (Hi & ? & ?). unfold inert. rewrite Hcur, Hso.
    destruct (decide (d = c)) as [->|]; [congruence|by rewrite load_cpu].
  - intros a b ta tb Ha Hb. destruct (load_bwd a ta Ha) as (ta' & Ha' & _ & _ & -> & _).
    destruct (load_bwd b tb Hb) as (tb' & Hb' & _ & _ & -> & _). by apply (v_bottom _ _ HI).
  - intros b. rewrite Hret. intros Hb Hb0. destruct (v_ret _ _ HI b Hb Hb0) as (j & t & Hj & Hplj & Hz & Hbot).
    destruct (load_fwd j t Hj) as (t' & Ht' & Est & _ & Eb & _). exists j, t'. split; [done|].
    split; [|split; congruence]. unfold pl_load. rewrite decide_False by congruence. done.
  - rewrite Hret. apply HI.
Qed.
End load.

(** * Acknowledgements of retired stacks *)

Abbreviation live := (filter (fun b : Z => b <> 0)).

Lemma elem_of_retire b l x : x ∈ retire b l -> x = b \/ x ∈ l.
Proof.
  induction l as [|y l IH]; simpl; [by auto|]. destruct (y =? 0); rewrite !elem_of_cons; naive_solver.
Qed.

Lemma live_retire b l : b <> 0 -> b ∉ l -> NoDup (live l) -> NoDup (live (retire b l)).
Proof.
  intros Hb. induction l as [|y l IH]; [done|]. intros Hn Hnd. rewrite not_elem_of_cons in Hn. simpl.
  destruct (Z.eqb_spec y 0) as [->|Hy].
  - rewrite filter_cons_False in Hnd by auto. rewrite filter_cons_True by done. apply NoDup_cons. split; [|done].
    intros Hin. apply list_elem_of_filter in Hin. tauto.
  - rewrite filter_cons_True in Hnd by done. apply NoDup_cons in Hnd as [Hy' Hnd]. rewrite filter_cons_True by done.
    apply NoDup_cons. split; [|apply IH; [tauto|done]]. intros Hin. apply list_elem_of_filter in Hin as [_ Hin].
    apply elem_of_retire in Hin as [->|Hin]; [by destruct Hn|]. apply Hy'. by apply list_elem_of_filter.
Qed.

Lemma consume_spec b l l' :
  b <> 0 -> NoDup (live l) -> consume b l = Some l' ->
  b ∈ l /\ NoDup (live l') /\ forall x, x ∈ l' -> x <> 0 -> x ∈ l /\ x <> b.
Proof.
  intros Hb. revert l'. induction l as [|y l IH]; intros l' Hnd; simpl; [done|].
  destruct (Z.eqb_spec y b) as [->|Hy].
  - intros [= <-]. rewrite filter_cons_True in Hnd by done. apply NoDup_cons in Hnd as [Hy Hnd].
    split; [left|]. rewrite filter_cons_False by auto. split; [done|]. intros x Hx Hx0.
    apply elem_of_cons in Hx as [->|Hx]; [done|]. split; [by right|]. intros ->. apply Hy. by apply list_elem_of_filter.
  - destruct (consume b l) as [k|] eqn:E; [|done]. intros [= <-].
    assert (NoDup (live l)) as Hndl.
    { destruct (decide (y <> 0)); [rewrite filter_cons_True in Hnd by done; by apply NoDup_cons in Hnd as [_ ?]|].
      by rewrite filter_cons_False in Hnd. }
    destruct (IH k Hndl eq_refl) as (Hin & Hndk & Hk). split; [by right|]. split.
    + destruct (decide (y <> 0)) as [Hy0|Hy0]; [|by rewrite filter_cons_False].
      rewrite filter_cons_True in Hnd |- * by done. apply NoDup_cons in Hnd as [Hnin _]. apply NoDup_cons. split; [|done].
      intros Hin'. apply list_elem_of_filter in Hin' as [_ Hin']. destruct (Hk y Hin' Hy0) as [? _].
      apply Hnin. by apply list_elem_of_filter.
    + intros x Hx Hx0. apply elem_of_cons in Hx as [->|Hx]; [split; [left|done]|].
      destruct (Hk x Hx Hx0). split; [by right|done].
Qed.

(** * Publishing what was left *)

Definition pl_publish (pl : nat -> place) (c : nat) (j : nat) : place :=
  if decide (pl j = Dying c) then Away else pl j.

Section publish.
Context (s : sched) (pl : nat -> place) (c : nat) (p : SwitchPlan).
Context (HI : Inv s pl) (Hp : ph (cpus s c) = Switched p).

Lemma publish_fields :
  online (context_publish c p s) = online s /\ run_queues (context_publish c p s) = run_queues s /\
  tasks (context_publish c p s) = tasks s /\ kernel_pml4 (context_publish c p s) = kernel_pml4 s /\
  published (context_publish c p s) = published s.
Proof. unfold context_publish. by destruct (switched_out_task p), (retired_stack_bottom p =? 0). Qed.

Lemma publish_cpus d : cpus (context_publish c p s) d = if decide (c = d) then set_ph Run (cpus s c) else cpus s d.
Proof. unfold context_publish. by destruct (switched_out_task p), (retired_stack_bottom p =? 0). Qed.

Lemma publish_phase :
  on (cpus s c) = next p /\ current_task_index (cpus s c) = next p /\ switched_out s c = None /\
  (retired_stack_bottom p <> 0 -> old p <> None) /\ (switched_out_task p = None \/ retired_stack_bottom p = 0).
Proof. pose proof (v_phase _ _ HI c) as Hph. unfold phase_ok in Hph. by rewrite Hp in Hph. Qed.

Lemma publish_slot d :
  switched_out (context_publish c p s) d = if decide (c = d) then switched_out_task p else switched_out s d.
Proof.
  destruct publish_phase as (_ & _ & Hs & _). unfold context_publish.
  destruct (switched_out_task p) as [i|], (retired_stack_bottom p =? 0); simpl; try done; case_decide; congruence.
Qed.

Lemma publish_retired :
  retired (context_publish c p s) =
    if retired_stack_bottom p =? 0 then retired s else retire (retired_stack_bottom p) (retired s).
Proof. unfold context_publish. by destruct (switched_out_task p), (retired_stack_bottom p =? 0). Qed.

Lemma publish_dying : retired_stack_bottom p <> 0 ->
  exists i t, tasks s !! i = Some t /\ pl i = Dying c /\ status t = Zombie /\ kernel_stack_bottom t = retired_stack_bottom p.
Proof.
  intros Hr. destruct publish_phase as (_ & _ & _ & Hold & _). destruct (old p) as [i|] eqn:Eo; [|by destruct Hold].
  assert (pl i = Dying c) as Hi by (apply (v_dying _ _ HI); by exists p).
  destruct (tasks s !! i) as [t|] eqn:Et; [|apply (v_none _ _ HI) in Et; congruence].
  pose proof (v_task _ _ HI i t Et) as Hok. rewrite Hi in Hok. destruct Hok as [Hz Hb]. exists i, t.
  split_and!; try done. by rewrite (Hb p Hp).
Qed.

(** The stack was not acknowledged before. *)
Lemma publish_new : retired_stack_bottom p <> 0 -> retired_stack_bottom p ∉ retired s.
Proof.
  intros Hr Hin. destruct (publish_dying Hr) as (i & t & Ht & Hi & _ & Hb).
  destruct (v_ret _ _ HI _ Hin Hr) as (j & t' & Ht' & Hj & _ & Hb').
  assert (i = j) as -> by (apply (v_bottom _ _ HI i j t t' Ht Ht'); congruence). congruence.
Qed.

Lemma Inv_publish : Inv (context_publish c p s) (pl_publish pl c).
Proof.
  destruct publish_fields as (Hon & Hq & Ht & Hk & Hpub). destruct publish_phase as (Honk & Hcurk & Hs & Hold & _).
  assert (forall d, current_task_index (cpus (context_publish c p s) d) = current_task_index (cpus s d)) as Hcur.
  { intros d. rewrite publish_cpus. case_decide; [by subst d|done]. }
  assert (forall j x, x <> Away -> x <> Dying c -> pl_publish pl c j = x <-> pl j = x) as Hpl.
  { intros j x H1 H2. unfold pl_publish. case_decide; split; congruence. }
  assert (forall d q, ph (cpus (context_publish c p s) d) = Switching q <-> ph (cpus s d) = Switching q) as Hsw.
  { intros d q. rewrite publish_cpus. case_decide; [subst d|done]. simpl. split; congruence. }
  constructor; rewrite ?Hon; try apply HI.
  - intros d j. rewrite Hq, Hpl by done. apply HI.
  - intros d. rewrite Hq. apply HI.
  - intros d j. rewrite Hcur, Hpl by done. apply HI.
  - intros d j. rewrite Hpl, <- (v_left _ _ HI) by done. unfold left_task. rewrite publish_cpus, publish_slot.
    case_decide; [subst d; by rewrite Hp|done].
  - intros d j. rewrite Hpl, (v_part _ _ HI) by done. by setoid_rewrite Hsw.
  - intros d j. rewrite publish_cpus. case_decide as E.
    + subst d. simpl. split; [|intros (? & ? & _); congruence]. unfold pl_publish. case_decide; congruence.
    + rewrite Hpl, (v_dying _ _ HI) by congruence. done.
  - intros j t. rewrite Ht. intros Hj. pose proof (v_task _ _ HI j t Hj) as Hok. unfold pl_publish.
    case_decide as E; [rewrite E in Hok; destruct Hok as [Hz _]; by right; right|]. unfold task_ok in *. rewrite Hon.
    destruct (pl j) as [d|d|d|d|d|d|] eqn:Ed; try done.
    + destruct Hok as [Hok Haff]. split; [|done]. rewrite publish_cpus. case_decide as Ecd; [|done]. rewrite <- Ecd in Ed. left.
      apply (seated_running s pl c j t HI); [congruence| |done]. by apply (v_cur _ _ HI).
    + by setoid_rewrite Hsw.
    + rewrite publish_cpus. destruct (decide (c = d)); [congruence|done].
  - intros j t. rewrite Ht. intros Hj. unfold data_ok. rewrite Hon. by apply (v_data _ _ HI j).
  - intros j. rewrite Ht. intros Hj. apply (v_none _ _ HI) in Hj. unfold pl_publish. case_decide; congruence.
  - intros d. rewrite Hpub, Hcur. apply HI.
  - intros d. rewrite publish_cpus. unfold seat_ok, space_pml4. rewrite Ht, Hk. case_decide; [subst d|]; apply HI.
  - intros d. rewrite publish_cpus. case_decide as E; [subst d; unfold phase_ok; simpl; congruence|].
    pose proof (v_phase _ _ HI d) as Hph. unfold phase_ok, plan_fresh, space_pml4 in *. rewrite publish_slot, Ht, Hk.
    rewrite decide_False by done. done.
  - intros d Hd. destruct (v_inert _ _ HI d Hd) as (Hi & ? & ?). assert (c <> d) by congruence.
    unfold inert. rewrite publish_cpus, publish_slot, !decide_False by done. done.
  - rewrite Ht. apply HI.
  - intros b. rewrite publish_retired, Ht. destruct (Z.eqb_spec (retired_stack_bottom p) 0) as [E|E]; intros Hb Hb0.
    2: apply elem_of_retire in Hb as [->|Hb].
    2: { destruct (publish_dying E) as (i & t & Hti & Hi & Hz & Hbot). exists i, t. unfold pl_publish.
         rewrite decide_True by done. done. }
    all: destruct (v_ret _ _ HI b Hb Hb0) as (i & t & Hti & Hi & G); exists i, t; unfold pl_publish;
      rewrite decide_False by congruence; done.
  - rewrite publish_retired. destruct (Z.eqb_spec (retired_stack_bottom p) 0) as [E|E]; [apply HI|].
    apply live_retire; [done|by apply publish_new|apply HI].
Qed.
End publish.

(** * Putting a preempted task back *)

Section finish.
Context (s : sched) (pl : nat -> place) (c i : nat).
Context (HI : Inv s pl) (Hset : settled (ph (cpus s c))) (Hi : switched_out s c = Some i).

Lemma finish_place : pl i = Leaving c.
Proof. apply (v_left _ _ HI). unfold left_task. by destruct Hset as [-> | ->]. Qed.

Lemma finish_task : exists t, tasks s !! i = Some t /\ status t = SwitchingOut /\ cpu_affinity t = c /\ pin_ok t c.
Proof.
  destruct (tasks s !! i) as [t|] eqn:Ht; [|apply (v_none _ _ HI) in Ht; pose proof finish_place; congruence].
  exists t. pose proof (v_task _ _ HI i t Ht) as Hok. rewrite finish_place in Hok. destruct Hok as [Hst Haff].
  split_and!; try done. destruct (v_data _ _ HI i t Ht) as (_ & Hpin & _). unfold pin_ok.
  destruct (pinned_cpu t) as [k|] eqn:E; [right|by left]. f_equal. rewrite <- (Hpin k); done.
Qed.

Lemma finish_eq : finish_switched_out_task c s =
  push_back c i (upd i (fun t => set_affinity c (set_status Ready t)) (set_switched_out c None s)).
Proof.
  unfold finish_switched_out_task. rewrite Hi. destruct finish_task as (t & Ht & Hst & _). simpl. rewrite Ht.
  by rewrite decide_True.
Qed.

Lemma Inv_finish_some : Inv (finish_switched_out_task c s) (<[i := Queued c]> pl).
Proof.
  rewrite finish_eq. set (f := fun t => set_affinity c (set_status Ready t)). pose proof finish_place as Hpl.
  destruct finish_task as (t & Ht & Hst & Haff & Hpin).
  assert (c < online s)%nat as Hc by (apply Nat.nle_gt; intros Hle; destruct (v_inert _ _ HI c Hle) as (_ & _ & ?); congruence).
  assert (frame f) as Hf by (intros u; done).
  constructor; simpl; unfold insert, fn_insert; try apply HI.
  - intros d j. case_decide as Ed; [subst d|]; rewrite ?elem_of_app, ?list_elem_of_singleton, (v_queue _ _ HI);
      case_decide as Ej; try (subst j; split; intuition congruence); intuition congruence.
  - intros d. case_decide as Ed; [subst d|apply HI]. apply NoDup_app. split; [apply HI|]. split; [|apply NoDup_singleton].
    intros j Hj Hj'. apply list_elem_of_singleton in Hj' as ->. apply (v_queue _ _ HI) in Hj. congruence.
  - intros d j. rewrite (v_cur _ _ HI). case_decide as Ej; [subst j; split; congruence|done].
  - intros d j. unfold left_task. simpl. unfold insert, fn_insert. destruct (decide (c = d)) as [<-|Hd].
    + destruct Hset as [-> | ->]; (split; [done|]); case_decide as Ej; try congruence; intros E;
        apply (v_left _ _ HI) in E; unfold left_task in E; pose proof Hset as [E'|E']; rewrite E' in E; congruence.
    + fold (left_task s d). rewrite (v_left _ _ HI). case_decide as Ej; [subst j; split; congruence|done].
  - intros d j. rewrite <- (v_part _ _ HI). case_decide as Ej; [subst j; split; congruence|done].
  - intros d j. rewrite <- (v_dying _ _ HI). case_decide as Ej; [subst j; split; congruence|done].
  - intros j tj Hj. change (alter f i (tasks s)) with (tasks (upd i f s)) in Hj. rewrite lookup_upd in Hj.
    case_decide as E; [|by apply (task_ok_move s), (v_task _ _ HI)].
    subst j. rewrite Ht in Hj. injection Hj as <-. done.
  - intros j tj Hj. change (alter f i (tasks s)) with (tasks (upd i f s)) in Hj. rewrite lookup_upd in Hj.
    case_decide as E; [|by apply (v_data _ _ HI j)]. subst j. rewrite Ht in Hj. injection Hj as <-.
    destruct (v_data _ _ HI i t Ht) as (G1 & G2 & G3). unfold data_ok. simpl. split; [done|].
    split; [intros k Hk; rewrite <- Haff; by apply G2|]. intros _. apply G3. congruence.
  - intros j Hj. change (alter f i (tasks s)) with (tasks (upd i f s)) in Hj. rewrite lookup_upd in Hj.
    case_decide as E; [subst j; by rewrite Ht in Hj|by apply (v_none _ _ HI)].
  - intros d. apply (seat_ok_upd s i f), HI. done.
  - intros d. pose proof (phase_ok_upd s i f d (cpus s d) Hf (v_phase _ _ HI d)) as Hph.
    unfold phase_ok in *. simpl. unfold insert, fn_insert. destruct (decide (c = d)) as [<-|Hd]; [|done].
    destruct Hset as [E|E]; rewrite E in *; done.
  - intros d Hd. destruct (v_inert _ _ HI d Hd) as (? & ? & ?). unfold inert. simpl. unfold insert, fn_insert.
    case_decide; [lia|done].
  - intros a b ta tb. apply (bottom_upd s i f); [intros u; by left|apply HI].
  - intros b Hb Hb0. destruct (v_ret _ _ HI b Hb Hb0) as (j & tj & Hj & Hpj & Hz & Hbj). exists j, tj.
    assert (i <> j) as Hij by (intros ->; congruence).
    change (alter f i (tasks s)) with (tasks (upd i f s)). rewrite lookup_upd, !decide_False by done. done.
Qed.
End finish.

(** No task is in a processor's hands. *)
Definition calm (pl : nat -> place) : Prop := forall i c, pl i <> Held c.

Lemma calm_insert pl i x : calm pl -> (forall c, x <> Held c) -> calm (<[i := x]> pl).
Proof. intros Hc Hx j c. unfold insert, fn_insert. case_decide; [apply Hx|apply Hc]. Qed.

Lemma Inv_finish s pl c :
  Inv s pl -> calm pl -> settled (ph (cpus s c)) ->
  exists pl', Inv (finish_switched_out_task c s) pl' /\ calm pl' /\
    cpus (finish_switched_out_task c s) = cpus s /\ online (finish_switched_out_task c s) = online s /\
    switched_out (finish_switched_out_task c s) c = None.
Proof.
  intros HI Hcalm Hset. destruct (switched_out s c) as [i|] eqn:Hi.
  - exists (<[i := Queued c]> pl). split; [by apply Inv_finish_some|]. split; [by apply calm_insert|].
    rewrite (finish_eq s pl c i HI Hset Hi). split; [done|]. split; [done|]. simpl. unfold insert, fn_insert.
    by rewrite decide_True.
  - exists pl. unfold finish_switched_out_task. by rewrite Hi.
Qed.

(** * Reaping *)

(** The task that is reaped is a zombie that no processor is on or about to
    enter. *)
Lemma reap_cases s pl i :
  Inv s pl ->
  reap s i = s \/
  exists t slots, tasks s !! i = Some t /\ status t = Zombie /\ kernel_stack_bottom t <> 0 /\ pl i = Away /\
    consume (kernel_stack_bottom t) (retired s) = Some slots /\
    reap s i = upd i reaped (heap_free (kernel_stack_bottom t) (set_retired slots s)).
Proof.
  intros HI. unfold reap. destruct (tasks s !! i) as [t|] eqn:Ht; [|by left].
  case_bool_decide as Hz; [by left|]. destruct (Z.eqb_spec (kernel_stack_bottom t) 0) as [|Hb]; [by left|]. cbn [orb].
  match goal with |- context [existsb ?f ?l] => destruct (existsb f l); [by left|] end.
  destruct (consume (kernel_stack_bottom t) (retired s)) as [slots|] eqn:Ec; [|by left]. right.
  exists t, slots. split; [done|]. split; [done|]. split; [done|].
  split; [|done]. destruct (consume_spec _ _ _ Hb (v_ret_nodup _ _ HI) Ec) as (Hin & _).
  destruct (v_ret _ _ HI _ Hin Hb) as (j & t' & Hj & Hpl & _ & Hb').
  assert (i = j) as -> by (apply (v_bottom _ _ HI i j t t' Ht Hj); [congruence|done]). done.
Qed.

Lemma Inv_reap s pl i : Inv s pl -> Inv (reap s i) pl.
Proof.
  intros HI. destruct (reap_cases s pl i HI) as [->|(t & slots & Ht & Hz & Hb & Hpl & Hcons & ->)]; [done|].
  destruct (consume_spec _ _ _ Hb (v_ret_nodup _ _ HI) Hcons) as (Hin & Hnd & Hrest).
  assert (forall x : Task, stack_top (reaped x) = stack_top x) as Hsame by done.
  constructor; try apply HI; try done.
  - intros j tj Hj. rewrite lookup_upd in Hj. simpl in Hj. case_decide as E; [|by apply (task_ok_move s), (v_task _ _ HI)].
    subst j. rewrite Ht in Hj. injection Hj as <-. rewrite Hpl. simpl. by right; right.
  - intros j tj Hj. rewrite lookup_upd in Hj. simpl in Hj. case_decide as E; [|by apply (v_data _ _ HI j)].
    subst j. rewrite Ht in Hj. injection Hj as <-. destruct (v_data _ _ HI i t Ht) as (G1 & G2 & _).
    unfold data_ok. simpl. split_and!; [done|done|]. by rewrite Hz.
  - intros j Hj. rewrite lookup_upd in Hj. simpl in Hj. case_decide as E; [subst j; by rewrite Ht in Hj|by apply (v_none _ _ HI)].
  - intros c. pose proof (v_seat _ _ HI c) as Hs. unfold seat_ok, space_pml4 in *. simpl.
    destruct (on (cpus s c)) as [j|] eqn:Eon; [|done]. destruct Hs as (tj & Hj & G). exists tj.
    change (alter reaped i (tasks s)) with (tasks (upd i reaped s)). rewrite lookup_upd, decide_False; [done|].
    intros ->. destruct (on_place _ _ HI c j Eon) as [?|[?|?]]; congruence.
  - intros c. pose proof (v_phase _ _ HI c) as Hp. unfold phase_ok, plan_fresh, space_pml4 in *. simpl.
    destruct (ph (cpus s c)) as [| |p|p]; try done. destruct Hp as (? & Hc & ? & ? & ? & Hfr). split_and!; try done.
    destruct (next p) as [j|] eqn:En; [|done]. destruct Hfr as (tj & Hj & G). exists tj.
    change (alter reaped i (tasks s)) with (tasks (upd i reaped s)). rewrite lookup_upd, decide_False; [done|].
    intros ->. apply (v_cur _ _ HI) in Hc. congruence.
  - apply (bottom_upd (heap_free (kernel_stack_bottom t) (set_retired slots s))); [intros u; by right|apply HI].
  - simpl. intros b Hbin Hb0. destruct (Hrest b Hbin Hb0) as [Hin' Hne].
    destruct (v_ret _ _ HI b Hin' Hb0) as (j & tj & Hj & Hplj & Hzj & Hbj). exists j, tj.
    change (alter reaped i (tasks s)) with (tasks (upd i reaped s)). rewrite lookup_upd, decide_False; [done|].
    intros ->. congruence.
Qed.

(** * New tasks *)

(** Counters and logs are free. *)
Lemma Inv_log s s' pl :
  Inv s pl -> tasks s' = tasks s -> run_queues s' = run_queues s -> published s' = published s ->
  switched_out s' = switched_out s -> retired s' = retired s -> cpus s' = cpus s -> online s' = online s ->
  kernel_pml4 s' = kernel_pml4 s -> Inv s' pl.
Proof.
  intros HI. destruct s, s'. simpl. intros -> -> -> -> -> -> -> ->. constructor; apply HI.
Qed.

Lemma select_target_online s : (1 <= online s <= NCPU)%nat -> (select_target_cpu s < online s)%nat.
Proof.
  intros Ho. unfold select_target_cpu. destruct (first_such _ _) as [c|] eqn:E; simpl; [|lia].
  apply first_such_Some in E as [E _]. apply elem_of_seq in E. lia.
Qed.

Definition fresh_stack (s : sched) (b : Z) : Prop := forall i t, tasks s !! i = Some t -> kernel_stack_bottom t <> b.

Lemma Inv_add s pl t q :
  Inv s pl -> status t = Ready -> cpu_affinity t = q -> (q < online s)%nat ->
  (forall k, pinned_cpu t = Some k -> k = q) -> kernel_stack_top t <> 0 -> fresh_stack s (kernel_stack_bottom t) ->
  Inv (push_back q (length (tasks s)) (with_tasks (fun ts => ts ++ [t]) s)) (<[length (tasks s) := Queued q]> pl).
Proof.
  intros HI Hst Haff Hq Hpin Htop Hfresh. set (n := length (tasks s)).
  assert (tasks s !! n = None) as Hn by (by apply lookup_ge_None_2).
  assert (pl n = Away) as Hpl by (by apply (v_none _ _ HI)).
  assert (forall j, (tasks s ++ [t]) !! j = if decide (n = j) then Some t else tasks s !! j) as Hlook.
  { intros j. case_decide as E; [subst j; unfold n; by rewrite lookup_app_r, Nat.sub_diag by lia|].
    destruct (decide (j < n)%nat); [by rewrite lookup_app_l by (unfold n in *; lia)|].
    rewrite lookup_ge_None_2 by (rewrite length_app; simpl; unfold n in *; lia).
    rewrite lookup_ge_None_2 by (unfold n in *; lia). done. }
  constructor; simpl; unfold insert, fn_insert; try apply HI.
  - intros d j. case_decide as Ed; [subst d|]; rewrite ?elem_of_app, ?list_elem_of_singleton, (v_queue _ _ HI);
      case_decide as Ej; try (subst j; split; intuition congruence); intuition congruence.
  - intros d. case_decide as Ed; [subst d|apply HI]. apply NoDup_app. split; [apply HI|]. split; [|apply NoDup_singleton].
    intros j Hj Hj'. apply list_elem_of_singleton in Hj' as ->. apply (v_queue _ _ HI) in Hj. congruence.
  - intros d j. rewrite (v_cur _ _ HI). case_decide as Ej; [subst j; split; congruence|done].
  - intros d j. change (left_task _ d) with (left_task s d). rewrite (v_left _ _ HI).
    case_decide as Ej; [subst j; split; congruence|done].
  - intros d j. rewrite <- (v_part _ _ HI). case_decide as Ej; [subst j; split; congruence|done].
  - intros d j. rewrite <- (v_dying _ _ HI). case_decide as Ej; [subst j; split; congruence|done].
  - intros j tj. rewrite Hlook. case_decide as E; [|intros Hj; by apply (task_ok_move s), (v_task _ _ HI)].
    intros [= <-]. simpl. split; [done|]. split; [done|]. unfold pin_ok. destruct (pinned_cpu t) as [k|]; [right|by left].
    f_equal. by apply Hpin.
  - intros j tj. rewrite Hlook. case_decide as E; [|apply (v_data _ _ HI j)]. intros [= <-]. unfold data_ok. simpl.
    rewrite Haff. split_and!; [done| |done]. intros k Hk. symmetry. by apply Hpin.
  - intros j. rewrite Hlook. case_decide as E; [done|apply HI].
  - intros d. pose proof (v_seat _ _ HI d) as Hs. unfold seat_ok, space_pml4 in *. simpl.
    destruct (on (cpus s d)) as [j|]; [|done]. destruct Hs as (tj & Hj & G). exists tj. rewrite Hlook, decide_False; [done|].
    congruence.
  - intros d. pose proof (v_phase _ _ HI d) as Hp. unfold phase_ok, plan_fresh, space_pml4 in *. simpl.
    destruct (ph (cpus s d)) as [| |p|p]; try done. destruct Hp as (? & ? & ? & ? & ? & Hfr). split_and!; try done.
    destruct (next p) as [j|]; [|done]. destruct Hfr as (tj & Hj & G). exists tj. rewrite Hlook, decide_False; [done|].
    congruence.
  - intros a b ta tb. rewrite !Hlook. repeat case_decide; intros Ha Hb E Hne0; simplify_eq; try congruence.
    + by destruct (Hfresh b tb Hb).
    + by destruct (Hfresh a ta Ha).
    + by apply (v_bottom _ _ HI a b ta tb).
  - intros b Hb Hb0. destruct (v_ret _ _ HI b Hb Hb0) as (j & tj & Hj & Hpj & G). exists j, tj.
    rewrite Hlook, !decide_False by congruence. done.
Qed.
