(* ===== verification/SchedTheorems.v ===== *)
(** What the scheduler guarantees, over all interleavings of its processors. *)

From S2P Require Import Prelude Sched SchedInv SchedSteps.

(** * The locked functions keep the invariant *)

(** No processor is on the stack of task [i]. *)
Definition off_stack (s : sched) (i : nat) : Prop := forall c, on (cpus s c) <> Some i.

Lemma min_online s x : (1 <= online s <= NCPU)%nat -> (x < online s)%nat -> Nat.min x MAX_AP_COUNT = x.
Proof. unfold NCPU. lia. Qed.

Lemma home_ok s pl i t : Inv s pl -> tasks s !! i = Some t -> pin_ok t (home t) /\ (home t < online s)%nat.
Proof.
  intros HI Ht. destruct (v_data _ _ HI i t Ht) as (Ha & Hp & _). pose proof (v_online _ _ HI) as Ho.
  unfold home, pin_ok. destruct (pinned_cpu t) as [k|] eqn:E.
  - rewrite <- (Hp k eq_refl), (min_online s) by done. split; [by right|done].
  - rewrite (min_online s) by done. split; [by left|done].
Qed.

Lemma affinity_ok s pl i t : Inv s pl -> tasks s !! i = Some t ->
  pin_ok t (Nat.min (cpu_affinity t) MAX_AP_COUNT) /\ (Nat.min (cpu_affinity t) MAX_AP_COUNT < online s)%nat.
Proof.
  intros HI Ht. destruct (v_data _ _ HI i t Ht) as (Ha & Hp & _). pose proof (v_online _ _ HI) as Ho.
  rewrite (min_online s) by done. split; [|done]. unfold pin_ok. destruct (pinned_cpu t) as [k|] eqn:E; [right|by left].
  f_equal. symmetry. by apply Hp.
Qed.

(** Loops over the task table: [wakes] is the test of one round.  A round that
    wakes a task wakes no other one, and the task passes the test no more. *)
Section rounds.
Context (round : sched -> nat -> sched) (wakes : Task -> bool).

Definition quiet_for (s : sched) : Prop := forall i t, tasks s !! i = Some t -> wakes t = true -> off_stack s i.

Record round_ok (s s' : sched) (i : nat) : Prop := {
  ro_cpus : cpus s' = cpus s;
  ro_fields : published s' = published s /\ ticks s' = ticks s /\ online s' = online s /\ switched_out s' = switched_out s;
  ro_len : length (tasks s') = length (tasks s);
  ro_others j : i <> j -> tasks s' !! j = tasks s !! j;
  ro_self t : tasks s' !! i = Some t -> tasks s !! i = Some t \/ wakes t = false;
}.

Lemma quiet_round s s' i : quiet_for s -> round_ok s s' i -> quiet_for s'.
Proof.
  intros Hq Hr j t Ht Hw c. rewrite (ro_cpus _ _ _ Hr). destruct (decide (i = j)) as [->|Hij].
  - destruct (ro_self _ _ _ Hr t Ht) as [Ht'|]; [|congruence]. by apply (Hq j t).
  - rewrite (ro_others _ _ _ Hr) in Ht by done. by apply (Hq j t).
Qed.

Lemma rounds_Inv l s pl :
  (forall s pl i, Inv s pl -> calm pl -> quiet_for s -> round_ok s (round s i) i /\ exists pl', Inv (round s i) pl' /\ calm pl') ->
  Inv s pl -> calm pl -> quiet_for s ->
  let s' := fold_left round l s in
  (exists pl', Inv s' pl' /\ calm pl') /\ cpus s' = cpus s /\ published s' = published s /\ online s' = online s /\
  switched_out s' = switched_out s.
Proof.
  intros Hround. revert s pl. induction l as [|i l IH]; intros s pl HI Hc Hq; cbn [fold_left]; [by split; [exists pl|]|].
  destruct (Hround s pl i HI Hc Hq) as [Hr (pl' & HI' & Hc')].
  destruct (IH (round s i) pl' HI' Hc' (quiet_round _ _ _ Hq Hr)) as (Hex & E1 & E2 & E3 & E4).
  destruct Hr as [Hcp (Hp & _ & Ho & Hso) _ _ _]. split; [done|]. cbn zeta. rewrite E1, E2, E3, E4. by split_and!.
Qed.
End rounds.

Lemma upd_other_ok i f s j : i <> j -> tasks (upd i f s) !! j = tasks s !! j.
Proof. intros E. by rewrite lookup_upd, decide_False. Qed.

(** ** Sleepers *)

Lemma wake_sleeper_round now s pl i :
  Inv s pl -> calm pl -> quiet_for (is_due now) s ->
  round_ok (is_due now) s (wake_sleeper now s i) i /\ exists pl', Inv (wake_sleeper now s i) pl' /\ calm pl'.
Proof.
  intros HI Hc Hq. unfold wake_sleeper. destruct (tasks s !! i) as [t|] eqn:Ht.
  2: { split; [|by exists pl]. split; try done. by left. }
  destruct (is_due now t) eqn:Hdue; [|split; [|by exists pl]; split; try done; by left].
  set (f := fun t => set_wait NO_KEY 0 (set_status Ready t)).
  assert (status t = Sleeping \/ status t = Waiting) as Hst.
  { unfold is_due in Hdue. apply andb_true_iff in Hdue as [Hdue _]. apply orb_true_iff in Hdue as [Hdue|Hdue].
    - left. by apply bool_decide_eq_true in Hdue.
    - right. apply andb_true_iff in Hdue as [Hdue _]. by apply bool_decide_eq_true in Hdue. }
  split.
  - split; try done; simpl.
    + by rewrite length_alter.
    + intros j Hij. apply (upd_other_ok i f s j Hij).
    + intros t' Ht'. right. change (alter f i (tasks s)) with (tasks (upd i f s)) in Ht'.
      rewrite lookup_upd, decide_True, Ht in Ht' by done. injection Ht' as <-. done.
  - exists (<[i := Queued (home t)]> pl). split; [|by apply calm_insert].
    destruct (home_ok s pl i t HI Ht) as [Hpin Hon].
    apply (Inv_wake s pl i t (home t) f); try done. by apply (asleep_away s pl HI i t Ht Hst), (Hq i t).
Qed.

Lemma Inv_reap_zombies s pl : Inv s pl -> Inv (reap_zombies s) pl /\ cpus (reap_zombies s) = cpus s /\
  published (reap_zombies s) = published s /\ online (reap_zombies s) = online s /\ switched_out (reap_zombies s) = switched_out s.
Proof.
  unfold reap_zombies. generalize (seq 0 (length (tasks s))) as l. intros l. revert s.
  induction l as [|i l IH]; intros s HI; cbn [fold_left]; [by split_and!|].
  destruct (IH (reap s i) (Inv_reap s pl i HI)) as (HI' & E1 & E2 & E3 & E4). split; [done|].
  rewrite E1, E2, E3, E4. by destruct (reap_cases s pl i HI) as [->|(t & slots & _ & _ & _ & _ & _ & ->)].
Qed.

(** What CPU0 does first: no sleeper on some processor's stack may be due. *)
Definition quiet_due (c : nat) (s : sched) : Prop := c = 0%nat -> quiet_for (is_due (ticks s)) s.

Lemma Inv_maintenance s pl c :
  Inv s pl -> calm pl -> quiet_due c s ->
  (exists pl', Inv (maintenance c s) pl' /\ calm pl') /\ cpus (maintenance c s) = cpus s /\
  online (maintenance c s) = online s /\ switched_out (maintenance c s) = switched_out s.
Proof.
  intros HI Hc Hq. unfold maintenance. case_decide as E; [|by split; [exists pl|]].
  destruct (rounds_Inv (wake_sleeper (ticks s)) (is_due (ticks s)) (seq 0 (length (tasks s))) s pl
    (wake_sleeper_round (ticks s)) HI Hc (Hq E)) as ((pl' & HI' & Hc') & E1 & _ & E3 & E4).
  fold (wake_sleeping_tasks_locked (ticks s) s) in *.
  destruct (Inv_reap_zombies _ _ HI') as (HI2 & F1 & _ & F3 & F4).
  split; [by exists pl'|]. rewrite F1, F3, F4. by split_and!.
Qed.

(** ** Waiters *)

Definition waits (key : Z) (t : Task) : bool := bool_decide (status t = Waiting) && (waiting_for t =? key).

Lemma waits_spec key t : waits key t = true -> status t = Waiting.
Proof. unfold waits. intros Hw. apply andb_true_iff in Hw as [Hw _]. by apply bool_decide_eq_true in Hw. Qed.

(** [wake_waiters] leaves tasks alone that some processor still publishes. *)
Definition is_published (s : sched) (i : nat) : bool := existsb (fun c => bool_decide (published s c = Some i)) (seq 0 NCPU).

Lemma is_published_spec s pl i : Inv s pl -> is_published s i = true -> exists c, pl i = Seated c.
Proof.
  intros HI Hp. apply existsb_exists in Hp as (c & _ & Hc). apply bool_decide_eq_true in Hc. exists c.
  apply (v_cur _ _ HI). by rewrite <- (v_pub _ _ HI).
Qed.

(** No waiter is unpublished and still on a stack. *)
Definition quiet_wake (key : Z) (s : sched) : Prop := forall i t, tasks s !! i = Some t -> waits key t = true ->
  is_published s i = false -> off_stack s i.

Lemma wake_waiter_step key s pl i :
  Inv s pl -> calm pl -> quiet_wake key s ->
  let s' := wake_waiter key s i in
  (exists pl', Inv s' pl' /\ calm pl') /\ cpus s' = cpus s /\ published s' = published s /\
  (forall j, i <> j -> tasks s' !! j = tasks s !! j) /\
  (forall t, tasks s' !! i = Some t -> tasks s !! i = Some t \/ waits key t = false).
Proof.
  intros HI Hc Hq. unfold wake_waiter. destruct (tasks s !! i) as [t|] eqn:Ht.
  2: { cbn zeta. split; [by exists pl|]. split_and!; try done. intros ? ?. congruence. }
  fold (waits key t). destruct (waits key t) eqn:Hw; cbn zeta.
  2: { split; [by exists pl|]. split_and!; try done. intros ? ?. left. congruence. }
  set (f := fun x => fun t => set_status x (set_wait NO_KEY 0 t)).
  assert (forall x j, i <> j -> tasks (upd i (f x) s) !! j = tasks s !! j) as Ho by (intros x j; apply upd_other_ok).
  assert (forall x t', x <> Waiting -> tasks (upd i (f x) s) !! i = Some t' -> waits key t' = false) as Hself.
  { intros x t' Hx. rewrite lookup_upd, decide_True, Ht by done. intros [= <-]. unfold waits.
    apply andb_false_iff. left. by apply bool_decide_eq_false_2. }
  fold (is_published s i). destruct (is_published s i) eqn:Hpub.
  - destruct (is_published_spec s pl i HI Hpub) as [c Hpl]. split.
    + exists pl. split; [|done]. apply Inv_task; [done|done| |].
      * intros t' _. rewrite Hpl. intros [_ Haff]. split; [by left|done].
      * intros t' Ht'. simpl. rewrite Hpl. split_and!; [done| |done]. intros _ Hz. assert (t' = t) as -> by congruence.
        apply waits_spec in Hw. congruence.
    + split_and!; try done; [apply (Ho Running)|]. intros t' Ht'. right. by apply (Hself Running t').
  - pose proof (waits_spec key t Hw) as Hst. destruct (affinity_ok s pl i t HI Ht) as [Hpin Hon].
    set (q := Nat.min (cpu_affinity t) MAX_AP_COUNT) in *.
    assert (Inv (push_back q i (upd i (f Ready) s)) (<[i := Queued q]> pl)) as HI'.
    { apply (Inv_wake s pl i t q (f Ready)); try done; [|by right].
      apply (asleep_away s pl HI i t Ht); [by right|by apply (Hq i t)]. }
    split; [exists (<[i := Queued q]> pl); split; [|by apply calm_insert]|].
    + unfold kick. case_decide; [done|]. apply (Inv_log (push_back q i (upd i (f Ready) s))); done.
    + unfold kick. case_decide; (split_and!; [done|done|apply (Ho Ready)|]); intros t' Ht'; right; by apply (Hself Ready t').
Qed.

Lemma Inv_wake_waiters key s pl :
  Inv s pl -> calm pl -> quiet_wake key s ->
  (exists pl', Inv (wake_waiters key s) pl' /\ calm pl') /\ cpus (wake_waiters key s) = cpus s.
Proof.
  intros HI Hc Hq. unfold wake_waiters.
  assert (Inv (with_generations (bump_generation key) s) pl) as HI' by (by apply (Inv_log s)).
  change (cpus s) with (cpus (with_generations (bump_generation key) s)).
  change (tasks s) with (tasks (with_generations (bump_generation key) s)) in *.
  assert (quiet_wake key (with_generations (bump_generation key) s)) as Hq' by done.
  generalize (seq 0 (length (tasks (with_generations (bump_generation key) s)))) as l.
  clear HI Hq. revert HI' Hq'. generalize (with_generations (bump_generation key) s) as s0. clear s. intros s HI Hq l.
  revert s pl HI Hc Hq. induction l as [|i l IH]; intros s pl HI Hc Hq; cbn [fold_left]; [by split; [exists pl|]|].
  destruct (wake_waiter_step key s pl i HI Hc Hq) as ((pl' & HI' & Hc') & E1 & E2 & Ho & Hs).
  destruct (IH (wake_waiter key s i) pl' HI' Hc') as (Hex & E3).
  { intros j t Ht Hw Hp c. rewrite E1. unfold is_published in Hp. rewrite E2 in Hp.
    destruct (decide (i = j)) as [->|Hij]; [destruct (Hs t Ht) as [Ht'|]; [|congruence]; by apply (Hq j t)|].
    rewrite Ho in Ht by done. by apply (Hq j t). }
  split; [done|]. by rewrite E3.
Qed.

(** ** The end of a task *)

Lemma wake_joiner_round tid s pl i :
  Inv s pl -> calm pl -> quiet_for (waits tid) s ->
  round_ok (waits tid) s (wake_joiner tid s i) i /\ exists pl', Inv (wake_joiner tid s i) pl' /\ calm pl'.
Proof.
  intros HI Hc Hq. unfold wake_joiner. destruct (tasks s !! i) as [t|] eqn:Ht.
  2: { split; [|by exists pl]. split; try done. by left. }
  fold (waits tid t). destruct (waits tid t) eqn:Hw; [|split; [|by exists pl]; split; try done; by left].
  set (f := fun t => set_wait NO_KEY (wake_tick t) (set_status Ready t)). pose proof (waits_spec _ _ Hw) as Hst.
  split.
  - split; try done; simpl.
    + by rewrite length_alter.
    + intros j Hij. apply (upd_other_ok i f s j Hij).
    + intros t' Ht'. right. change (alter f i (tasks s)) with (tasks (upd i f s)) in Ht'.
      rewrite lookup_upd, decide_True, Ht in Ht' by done. injection Ht' as <-. done.
  - destruct (affinity_ok s pl i t HI Ht) as [Hpin Hon]. eexists. split; [|apply calm_insert; [exact Hc|]].
    + apply (Inv_wake s pl i t _ f); try done; [|by right].
      apply (asleep_away s pl HI i t Ht); [by right|by apply (Hq i t)].
    + done.
Qed.

(** The tasks that wait for the current task of [c] to end are off their stacks. *)
Definition quiet_join (c : nat) (s : sched) : Prop := forall i t, current_task_index (cpus s c) = Some i ->
  tasks s !! i = Some t -> quiet_for (waits (id t)) s.

Lemma Inv_terminate c code s s' pl :
  Inv s pl -> calm pl -> ph (cpus s c) = Run -> (c < online s)%nat -> quiet_join c s ->
  terminate_task_locked c code s = Ok s' -> exists pl', Inv s' pl' /\ calm pl'.
Proof.
  intros HI Hc Hph Hon Hq. unfold terminate_task_locked.
  destruct (current_task_index (cpus s c)) as [i|] eqn:Hcur.
  2: { intros [= <-]. exists pl. split; [by apply Inv_must|done]. }
  destruct (tasks s !! i) as [t|] eqn:Ht; [|done]. intros [= <-].
  set (f := fun t => set_exit_code code (set_status Zombie t)).
  assert (Inv (block c i f s) pl) as HI1.
  { apply Inv_block; try done. intros u. split; [by right; right|done]. }
  assert (quiet_for (waits (id t)) (block c i f s)) as Hq1.
  { intros j tj Hj Hw d. unfold block in Hj. simpl in Hj. change (alter f i (tasks s)) with (tasks (upd i f s)) in Hj.
    rewrite lookup_upd in Hj. case_decide as E.
    - subst j. rewrite Ht in Hj. injection Hj as <-. apply waits_spec in Hw. done.
    - simpl. unfold insert, fn_insert. pose proof (Hq i t Hcur Ht j tj Hj Hw d) as Hoff. case_decide; [by subst d|done]. }
  by destruct (rounds_Inv (wake_joiner (id t)) (waits (id t)) (seq 0 (length (tasks (block c i f s)))) (block c i f s) pl
    (wake_joiner_round (id t)) HI1 Hc Hq1) as ((pl' & HI' & Hc') & _); exists pl'.
Qed.

(** ** Claiming *)

Lemma claim_scan_head s pl c i q :
  Inv s pl -> run_queues s c = i :: q -> claim_scan (tasks s) (run_queues s c) = (q, Some i).
Proof.
  intros HI E. assert (pl i = Queued c) as Hpl by (apply (v_queue _ _ HI); rewrite E; left).
  destruct (queued_lookup _ _ HI c i Hpl) as [t Ht]. pose proof (v_task _ _ HI i t Ht) as Hok. rewrite Hpl in Hok.
  rewrite E. cbn [claim_scan]. rewrite Ht. rewrite decide_True by apply Hok. done.
Qed.

Lemma rposition_Some {A} (f : A -> bool) l k : rposition f l = Some k -> exists x, l !! k = Some x /\ f x = true.
Proof.
  revert k. induction l as [|y l IH]; intros k; simpl; [done|]. destruct (rposition f l) as [m|].
  - intros [= <-]. by apply IH.
  - destruct (f y) eqn:E; [|done]. intros [= <-]. by exists y.
Qed.

Lemma delete_spec (q : list nat) k x : NoDup q -> q !! k = Some x ->
  NoDup (delete k q) /\ forall j, j ∈ delete k q <-> j ∈ q /\ j <> x.
Proof.
  intros Hnd Hk. pose proof (delete_Permutation _ _ _ Hk) as Hp. revert Hp. generalize (delete k q) as d. intros d Hp.
  rewrite Hp in Hnd. apply NoDup_cons in Hnd as [Hx Hnd].
  split; [done|]. intros j. rewrite Hp, elem_of_cons. split; [intros ?; split; [by right|congruence]|].
  intros [[->|?] ?]; done.
Qed.

(** A claim leaves the processors alone and takes at most one task, which the
    processor may run. *)
Record claimed (c : nat) (s s' : sched) (r : option nat) (pl : nat -> place) : Prop := {
  cl_inv : Inv s' pl;
  cl_cpus : cpus s' = cpus s;
  cl_slots : switched_out s' = switched_out s;
  cl_online : online s' = online s;
  cl_held i d : pl i = Held d -> r = Some i;
  cl_task n : r = Some n -> pl n = Held c /\ exists t, tasks s' !! n = Some t /\ status t = Claimed /\ pin_ok t c;
}.

Lemma hold_claimed s pl v c i q f :
  Inv s pl -> calm pl -> pl i = Queued v -> NoDup q -> (forall j, j ∈ q <-> j ∈ run_queues s v /\ j <> i) ->
  frame f -> (c < online s)%nat ->
  (forall t, status (f t) = Claimed /\ (cpu_affinity (f t) = cpu_affinity t \/ cpu_affinity (f t) = c)) ->
  (forall t, tasks s !! i = Some t -> pin_ok t c) ->
  claimed c s (upd i f (set_queue v q s)) (Some i) (<[i := Held c]> pl).
Proof.
  intros HI Hc Hpl Hnd Hq Hf Hon Hcl Hpin. destruct (queued_lookup _ _ HI v i Hpl) as [t Ht]. split; try done.
  - apply Inv_hold; try done. intros u Hu _. by apply Hpin.
  - intros j d. unfold insert, fn_insert. case_decide; [congruence|]. intros E. by apply Hc in E.
  - intros n [= <-]. split; [unfold insert, fn_insert; by rewrite decide_True|]. exists (f t).
    rewrite lookup_upd, decide_True by done. simpl. rewrite Ht. split; [done|]. split; [apply Hcl|].
    unfold pin_ok. destruct (Hf t) as (_ & _ & _ & _ & ->). by apply Hpin.
Qed.

Lemma claim_local_spec s pl c :
  Inv s pl -> calm pl -> (c < online s)%nat ->
  exists s' r pl', claim_local_ready_task c s = (s', r) /\ claimed c s s' r pl' /\ (r = None -> calm pl').
Proof.
  intros HI Hc Hon. unfold claim_local_ready_task. destruct (run_queues s c) as [|i q] eqn:E.
  - simpl. eexists _, None, pl. split; [reflexivity|]. split; [|done]. split; try done.
    + apply Inv_set_queue; [done|constructor|]. by rewrite E.
    + intros i d Hi. by apply Hc in Hi.
  - rewrite <- E, (claim_scan_head s pl c i q HI E). eexists _, (Some i), (<[i := Held c]> pl). split; [reflexivity|].
    split; [|done]. pose proof (v_nodup _ _ HI c) as Hnd. rewrite E in Hnd. apply NoDup_cons in Hnd as [Hi Hnd].
    assert (pl i = Queued c) as Hpl by (apply (v_queue _ _ HI); rewrite E; left).
    apply (hold_claimed s pl c c); try done.
    + intros j. rewrite E, elem_of_cons. split; [intros ?; split; [by right|congruence]|]. intros [[->|?] ?]; done.
    + intros t. split; [done|by left].
    + intros t Ht. pose proof (v_task _ _ HI i t Ht) as Hok. rewrite Hpl in Hok. apply Hok.
Qed.

Lemma steal_spec s pl c :
  Inv s pl -> calm pl -> (c < online s)%nat ->
  exists s' r pl', steal_and_claim_ready_task c s = (s', r) /\ claimed c s s' r pl' /\ (r = None -> calm pl').
Proof.
  intros HI Hc Hon.
  assert (claimed c s s None pl) as Hnone.
  { split; try done. intros i d Hi. by apply Hc in Hi. }
  unfold steal_and_claim_ready_task. destruct (pick_victim s c) as [v|]; [|by exists s, None, pl].
  destruct (length (run_queues s v) <=? 1)%nat; [by exists s, None, pl|].
  destruct (rposition _ _) as [k|] eqn:Ek; [|by exists s, None, pl].
  apply rposition_Some in Ek as (i & Hk & Hcan). rewrite Hk. eexists _, (Some i), (<[i := Held c]> pl).
  split; [reflexivity|]. split; [|done].
  destruct (delete_spec (run_queues s v) k i (v_nodup _ _ HI v) Hk) as [Hnd Hq].
  assert (pl i = Queued v) as Hpl by (apply (v_queue _ _ HI); by apply list_elem_of_lookup_2 in Hk).
  apply (hold_claimed s pl v c); try done.
  - intros t. split; [done|by right].
  - intros t Ht. unfold can_steal in Hcan. rewrite Ht in Hcan. apply andb_true_iff in Hcan as [_ Hcan].
    left. by apply bool_decide_eq_true in Hcan.
Qed.

Lemma claim_spec s pl c :
  Inv s pl -> calm pl -> (c < online s)%nat ->
  exists s' r pl', claim c s = (s', r) /\ claimed c s s' r pl' /\ (r = None -> calm pl').
Proof.
  intros HI Hc Hon. unfold claim. destruct (claim_local_spec s pl c HI Hc Hon) as (s1 & r1 & pl1 & -> & Hcl & Hcalm).
  destruct r1 as [n|]; [by exists s1, (Some n), pl1|]. specialize (Hcalm eq_refl).
  destruct (steal_spec s1 pl1 c (cl_inv _ _ _ _ _ Hcl) Hcalm) as (s2 & r2 & pl2 & -> & Hcl2 & Hcalm2).
  { by rewrite (cl_online _ _ _ _ _ Hcl). }
  exists s2, r2, pl2. split; [done|]. split; [|done]. destruct Hcl, Hcl2. split; try done; congruence.
Qed.

(** ** Deciding *)

Lemma calm_depart pl c cur nx p :
  (forall i d, pl i = Held d -> nx = Some i) -> calm (pl_depart pl c cur nx p).
Proof.
  intros Hh i d. unfold pl_depart. repeat case_decide; try done. intros E. by apply Hh in E.
Qed.

Section switch.
Context (s : sched) (pl : nat -> place) (c n : nat) (cur : option nat) (tn : Task).
Context (HI : Inv s pl) (Hset : settled (ph (cpus s c))) (Hcur : current_task_index (cpus s c) = cur).
Context (Hon : (c < online s)%nat) (Hslot : switched_out s c = None).
Context (Hn : pl n = Held c) (Htn : tasks s !! n = Some tn) (Hcl : status tn = Claimed) (Hpin : pin_ok tn c).
Context (Hheld : forall i d, pl i = Held d -> Some n = Some i).

Definition enter_fn (t : Task) : Task := set_affinity c (set_status Running (set_wait (waiting_for t) 0 t)).

(** From the idle loop into a task. *)
Lemma enter_from_idle : cur = None ->
  exists s' p, enter_task c cur None n s = Ok s' /\ depart s s' pl c cur (Some n) p (cpus s' c) /\ next p = Some n.
Proof.
  intros E. subst cur. rewrite E. unfold enter_task. cbn [save_user zombie_stack mbind option_bind]. fold enter_fn.
  assert (tasks (upd n enter_fn s) !! n = Some (enter_fn tn)) as Hl by (by rewrite lookup_upd, decide_True, Htn).
  rewrite Hl. eexists _, (mk_plan None (Some n) None 0 (stack_top (enter_fn tn)) (kernel_stack_top (enter_fn tn))
    (user_rsp (enter_fn tn)) (gs_base (enter_fn tn)) (default (kernel_pml4 s) (address_space (enter_fn tn)))).
  split; [reflexivity|]. split; [|done].
  assert (forall k : cpu, (<[c := k]> (cpus s)) c = k) as Hk by (intros k; unfold insert, fn_insert; by rewrite decide_True).
  split; try done; simpl; rewrite ?Hk; try done.
  - congruence.
  - split_and!; try done. unfold plan_fresh. simpl. exists (enter_fn tn). by split.
  - intros j _ Hj. apply (upd_other_ok n enter_fn s j). congruence.
  - intros m [= <-]. exists tn, (enter_fn tn). by split_and!.
Qed.

(** From one task into another. *)
Lemma enter_from_task i : cur = Some i ->
  exists s1 out s' p, suspend cur s = (s1, out) /\ tasks s1 !! n = Some tn /\ enter_task c cur out n s1 = Ok s' /\
    depart s s' pl c cur (Some n) p (cpus s' c) /\ next p = Some n.
Proof.
  intros E. subst cur. rewrite E. assert (pl i = Seated c) as Hi by (by apply (v_cur _ _ HI)).
  destruct (seated_lookup _ _ HI c i Hi) as [t Ht]. pose proof (v_task _ _ HI i t Ht) as Hok. rewrite Hi in Hok.
  assert (i <> n) as Hin by congruence. cbn [suspend]. rewrite Ht.
  set (k0 := cpus s c). set (fu := set_user (user_stack k0) (gs k0)).
  set (fs := if decide (status t = Running) then set_status SwitchingOut else (fun t => t)).
  set (out := if decide (status t = Running) then Some i else None).
  assert ((if decide (status t = Running) then (upd i (set_status SwitchingOut) s, Some i) else (s, None)) =
    (if decide (status t = Running) then upd i (set_status SwitchingOut) s else s, out)) as -> by (unfold out; by case_decide).
  set (s1 := if decide (status t = Running) then upd i (set_status SwitchingOut) s else s).
  assert (tasks s1 !! n = Some tn) as Hn1 by (unfold s1; case_decide; rewrite ?lookup_upd, ?decide_False by done; done).
  assert (tasks s1 !! i = Some (fs t)) as Hi1 by (unfold s1, fs; case_decide; rewrite ?lookup_upd, ?decide_True, ?Ht by done; done).
  assert (forall j, j <> i -> tasks s1 !! j = tasks s !! j) as Ho1
    by (intros j Hj; unfold s1; case_decide; rewrite ?lookup_upd, ?decide_False by done; done).
  assert (cpus s1 = cpus s /\ online s1 = online s /\ run_queues s1 = run_queues s /\ switched_out s1 = switched_out s /\
    retired s1 = retired s /\ kernel_pml4 s1 = kernel_pml4 s /\ published s1 = published s) as (Es1 & Es2 & Es3 & Es4 & Es5 & Es6 & Es7)
    by (unfold s1; by case_decide).
  assert (tasks (upd i fu (upd n enter_fn s1)) !! n = Some (enter_fn tn)) as Hl
    by (rewrite lookup_upd, decide_False, lookup_upd, decide_True, Hn1 by done; done).
  assert (tasks (upd i fu (upd n enter_fn s1)) !! i = Some (fu (fs t))) as Hli
    by (rewrite lookup_upd, decide_True, lookup_upd, decide_False, Hi1 by done; done).
  set (z := zombie_stack (Some i) (upd i fu (upd n enter_fn s1))).
  set (p := mk_plan (Some i) (Some n) out z (stack_top (enter_fn tn)) (kernel_stack_top (enter_fn tn))
    (user_rsp (enter_fn tn)) (gs_base (enter_fn tn)) (default (kernel_pml4 s1) (address_space (enter_fn tn)))).
  exists s1, out. eexists _, p. split; [done|]. split; [done|]. split.
  { unfold enter_task. fold enter_fn. cbn [save_user]. change (cpus (upd n enter_fn s1)) with (cpus s1). rewrite Es1.
    fold k0 fu. rewrite Hl. reflexivity. }
  split; [|done].
  assert (forall k : cpu, (<[c := k]> (cpus s1)) c = k) as Hk by (intros k; unfold insert, fn_insert; by rewrite decide_True).
  split; try done; simpl; rewrite ?Hk, ?Es1, ?Es7; try done.
  - congruence.
  - split_and!; try done. unfold plan_fresh. cbn [next p]. exists (enter_fn tn). by split.
  - intros j Hj Hj'. change (tasks (upd i fu (upd n enter_fn s1)) !! j = tasks s !! j).
    rewrite lookup_upd, decide_False, lookup_upd, decide_False, Ho1 by congruence. done.
  - intros j [= <-]. exists t, (fu (fs t)). split; [done|]. split; [done|].
    assert (status (fu (fs t)) = status (fs t)) as Hsf by done.
    assert (z = if decide (status (fs t) = Zombie) then kernel_stack_bottom t else 0) as Hz.
    { unfold z, zombie_stack. cbn [mbind option_bind]. rewrite Hli. unfold fs. by destruct (decide (status t = Running)). }
    assert (same_frame t (fu (fs t)) /\ cpu_affinity (fu (fs t)) = cpu_affinity t) as [Hsa Haf]
      by (unfold fs, same_frame; destruct (decide (status t = Running)); by split_and!).
    split; [done|]. split; [done|].
    unfold departs. cbn [switched_out_task retired_stack_bottom p]. rewrite Hz. unfold out, fs in *.
    destruct (decide (status t = Running)) as [Er|Er]; [left; split_and!; try done; by rewrite decide_False|right]. destruct Hok as [[?|[_ Hb]] _]; [done|]. by split_and!.
  - intros m [= <-]. exists tn, (enter_fn tn). by split_and!.
Qed.

Lemma switch_to_spec : exists s' pl', switch_to c cur n s = Ok s' /\ Inv s' pl' /\ calm pl'.
Proof.
  assert (bool_decide (pinned_cpu tn = None \/ pinned_cpu tn = Some c) = true) as Hp by (by apply bool_decide_eq_true).
  pose proof enter_from_task as HT. pose proof enter_from_idle as HId. unfold switch_to. destruct cur as [i|].
  - destruct (HT i eq_refl) as (s1 & out & s' & p & Hsu & Hn1 & He & HD & _). rewrite Hsu, Hn1.
    rewrite decide_False by (by intros ?). rewrite Hp. exists s', (pl_depart pl c (Some i) (Some n) p). split; [done|].
    split; [by eapply Inv_depart|]. by apply calm_depart.
  - destruct (HId eq_refl) as (s' & p & He & HD & _). cbn [suspend]. rewrite Htn.
    rewrite decide_False by (by intros ?). rewrite Hp. exists s', (pl_depart pl c None (Some n) p). split; [done|].
    split; [by eapply Inv_depart|]. by apply calm_depart.
Qed.
End switch.

Lemma switch_none_spec s pl c cur :
  Inv s pl -> calm pl -> settled (ph (cpus s c)) -> current_task_index (cpus s c) = cur -> (c < online s)%nat ->
  switched_out s c = None -> exists s' pl', switch_none c cur s = Ok s' /\ Inv s' pl' /\ calm pl'.
Proof.
  intros HI Hc Hset Hcur Hon Hslot. unfold switch_none. destruct cur as [i|].
  2: { eexists _, pl. split; [reflexivity|]. split; [|done]. apply Inv_run; [done|done|]. congruence. }
  assert (pl i = Seated c) as Hi by (by apply (v_cur _ _ HI)).
  destruct (seated_lookup _ _ HI c i Hi) as [t Ht]. pose proof (v_task _ _ HI i t Ht) as Hok. rewrite Hi in Hok. rewrite Ht.
  destruct Hok as [[Hrun|[Hm Hb]] _].
  - rewrite bool_decide_eq_false_2 by (rewrite Hrun; intros [?|[?|?]]; done). cbn [andb].
    eexists _, pl. split; [reflexivity|]. split; [|done]. apply Inv_run; [done|done|].
    intros j tj Hj Htj. congruence.
  - rewrite bool_decide_eq_true_2 by (destruct Hb as [?|[?|?]]; auto).
    pose proof (v_seat _ _ HI c) as Hs. pose proof (v_phase _ _ HI c) as Hph. unfold phase_ok in Hph. rewrite Hm in Hph.
    unfold seat_ok in Hs. rewrite Hph, Hcur in Hs. destruct Hs as (t' & Ht' & Hidle & _).
    rewrite (proj2 (Z.eqb_neq _ _) Hidle). cbn [andb negb].
    set (p := mk_plan (Some i) None None (if decide (status t = Zombie) then kernel_stack_bottom t else 0)
             (idle_stack (cpus s c)) 0 0 0 (kernel_pml4 s)).
    exists (to_idle c i t s), (pl_depart pl c (Some i) None p). split; [done|].
    split; [|apply calm_depart; intros j d E; by apply Hc in E].
    assert (forall k : cpu, (<[c := k]> (cpus s)) c = k) as Hk by (intros k; unfold insert, fn_insert; by rewrite decide_True).
    apply (Inv_depart s _ pl c (Some i) None p (cpus (to_idle c i t s) c)).
    set (f := set_user (user_stack (cpus s c)) (gs_base t)).
    split; try done; simpl; rewrite ?Hk; try done.
    + intros j Hj _. apply (upd_other_ok i f s j). congruence.
    + intros j [= <-]. exists t, (f t). change (alter _ i (tasks s)) with (tasks (upd i f s)).
      rewrite lookup_upd, decide_True, Ht by done. split_and!; try done. right. by split_and!.
Qed.

(** The locked part of [switch_task] never panics and keeps the invariant. *)
Lemma Inv_switch s pl c :
  Inv s pl -> calm pl -> settled (ph (cpus s c)) -> (c < online s)%nat -> quiet_due c s ->
  exists s' pl', switch_task_locked c s = Ok s' /\ Inv s' pl' /\ calm pl'.
Proof.
  intros HI Hc Hset Hon Hq. unfold switch_task_locked.
  destruct (Inv_maintenance s pl c HI Hc Hq) as ((pl1 & HI1 & Hc1) & E1 & E2 & E3).
  destruct (Inv_finish (maintenance c s) pl1 c HI1 Hc1) as (pl2 & HI2 & Hc2 & F1 & F2 & F3); [by rewrite E1|].
  set (s2 := finish_switched_out_task c (maintenance c s)) in *.
  destruct (claim_spec s2 pl2 c HI2 Hc2) as (s3 & r & pl3 & -> & [HI3 G1 G2 G3 G4 G5] & Hcalm); [by rewrite F2, E2|].
  rewrite F1, E1 in G1. rewrite F2, E2 in G3.
  destruct r as [n|].
  - destruct (G5 n eq_refl) as (Hn & tn & Htn & Hcl & Hpin).
    apply (switch_to_spec s3 pl3 c n _ tn); try done; rewrite ?G1, ?G2, ?G3; try done.
  - apply (switch_none_spec s3 pl3 c); [done|by apply Hcalm|..]; rewrite ?G1, ?G2, ?G3; done.
Qed.
