(* ===== verification/SchedSafety.v ===== *)
(** The scheduler as a whole: every interleaving of the processors, and what
    holds in all of its states. *)

From S2P Require Import Prelude Sched SchedInv SchedSteps SchedTheorems.

(** * Interleavings *)

(** The state in which the boot processor enters its scheduler loop: the first
    user task is queued, the boot task is gone. *)
Definition boot (n : nat) (kernel_pml4 stack user_rsp stack_size : Z) (space : option Z) (fs : option nat) : sched :=
  enter_bsp_scheduler_idle (add_new_user_task stack user_rsp stack_size space fs (sched_init n kernel_pml4)).1.

(** A processor outside the scheduler computes: its stack pointer moves. *)
Definition set_rsp (r : Z) (k : cpu) : cpu :=
  mk_cpu (kernel_stack k) (user_stack k) (current_task_index k) (idle_stack k) (scheduler_ticks_left k) (need_resched k)
    (cr3 k) (gs k) r (on k) (ph k).

(** One step of some processor.  With [q] set, a task is made ready only when no
    processor is on its stack any more. *)
Inductive step (q : bool) : sched -> sched -> Prop :=
| st_switch c s s' :
    (c < online s)%nat -> settled (ph (cpus s c)) -> (q = true -> quiet_due c s) ->
    switch_task_locked c s = Ok s' -> step q s s'
| st_load c p s : ph (cpus s c) = Switching p -> step q s (context_load c p s)
| st_publish c p s : ph (cpus s c) = Switched p -> step q s (context_publish c p s)
| st_exec c r s : ph (cpus s c) = Run -> r <> 0 -> step q s (with_cpu c (set_rsp r) s)
| st_tick s : step q s (scheduler_clock_tick s)
| st_quantum c s : step q s (scheduler_tick c s)
| st_resched c s : step q s (take_resched c s).1
| st_wait_task c task_id s s' r :
    ph (cpus s c) = Run -> wait_task_locked c task_id s = Ok (s', r) -> step q s s'
| st_wait_until c key deadline generation s s' b :
    ph (cpus s c) = Run -> wait_current_until_locked c key deadline generation s = Ok (s', b) -> step q s s'
| st_sleep c deadline s s' :
    ph (cpus s c) = Run -> (c < online s)%nat -> sleep_current_locked c deadline s = Ok s' -> step q s s'
| st_wake key s : (q = true -> quiet_wake key s) -> step q s (wake_waiters key s)
| st_terminate c code s s' :
    ph (cpus s c) = Run -> (c < online s)%nat -> (q = true -> quiet_join c s) ->
    terminate_task_locked c code s = Ok s' -> step q s s'
| st_files c s : ph (cpus s c) = Run -> step q s (take_current_files c s).1
| st_forget key s : step q s (forget_wait_key key s)
| st_user stack user_rsp size space fs s :
    stack = 0 \/ 0 < stack /\ 0 <= size /\ fresh_stack s stack ->
    step q s (add_new_user_task stack user_rsp size space fs s).1
| st_kernel stack size s : 0 < stack -> 0 <= size -> fresh_stack s stack -> step q s (add_new_task stack size s).

Definition reachable (q : bool) (s : sched) : Prop :=
  exists n k stack r size space fs, (1 <= n <= NCPU)%nat /\ 0 < stack /\ 0 <= size /\
    rtc (step q) (boot n k stack r size space fs) s.

(** * The invariant holds throughout *)

Definition base (n : nat) (k : Z) : sched := enter_bsp_scheduler_idle (sched_init n k).

Lemma base_cpu n k c : ph (cpus (base n k) c) = Run /\ current_task_index (cpus (base n k) c) = None /\
  on (cpus (base n k) c) = None /\ rsp (cpus (base n k) c) = 1 /\ cr3 (cpus (base n k) c) = k.
Proof.
  unfold base, enter_bsp_scheduler_idle. simpl. unfold insert, fn_insert. unfold boot_cpu.
  destruct (decide (0%nat = c)) as [<-|Hc]; simpl; [done|]. rewrite decide_False by congruence. done.
Qed.

Lemma base_Inv n k : (1 <= n <= NCPU)%nat -> Inv (base n k) (fun _ => Away).
Proof.
  intros Hn.
  assert (forall j t, tasks (base n k) !! j = Some t -> j = 0%nat /\ t = set_status Zombie main_task) as Ht.
  { intros [|j] t Hj; [|done]. injection Hj as <-. done. }
  constructor; try done.
  - intros c i. simpl. split; [intros Hi; by apply not_elem_of_nil in Hi|done].
  - intros c. constructor.
  - intros c i. destruct (base_cpu n k c) as (_ & -> & _). done.
  - intros c i. unfold left_task. destruct (base_cpu n k c) as (-> & _). done.
  - intros c i. destruct (base_cpu n k c) as (-> & _). split; [done|]. by intros (? & ? & _).
  - intros c i. destruct (base_cpu n k c) as (-> & _). split; [done|]. by intros (? & ? & _).
  - intros j t Hj. destruct (Ht j t Hj) as [-> ->]. by right; right.
  - intros j t Hj. destruct (Ht j t Hj) as [-> ->]. unfold data_ok. simpl. split; [lia|]. split; [by intros m [= <-]|done].
  - intros c. destruct (base_cpu n k c) as (_ & -> & _). simpl. unfold insert, fn_insert. by case_decide.
  - intros c. unfold seat_ok. destruct (base_cpu n k c) as (_ & _ & -> & -> & ->). done.
  - intros c. unfold phase_ok. destruct (base_cpu n k c) as (-> & -> & -> & _). done.
  - intros c _. unfold inert. destruct (base_cpu n k c) as (-> & -> & _). done.
  - intros i j ti tj Hi Hj. destruct (Ht i ti Hi) as [-> _], (Ht j tj Hj) as [-> _]. done.
  - intros b Hb Hb0. change (retired (base n k)) with (replicate RETIRED_STACK_SLOTS 0) in Hb. apply elem_of_replicate in Hb as [-> _]. done.
  - change (NoDup (filter (fun b : Z => b <> 0) (replicate RETIRED_STACK_SLOTS 0))). vm_compute. constructor.
Qed.

Lemma boot_Inv n k stack r size space fs :
  (1 <= n <= NCPU)%nat -> 0 < stack -> 0 <= size ->
  exists pl, Inv (boot n k stack r size space fs) pl /\ calm pl.
Proof.
  intros Hn Hs Hz.
  set (t := mk_task 1 (stack + size - 8 * 14) (u64 (r - size)) Ready 0 (Some 0%nat) stack (stack + size) 0 r 0 0 NO_KEY space fs).
  exists (<[1%nat := Queued 0%nat]> (fun _ => Away)). split; [|by apply calm_insert].
  apply (Inv_log (push_back 0 1 (with_tasks (fun ts => ts ++ [t]) (base n k)))).
  1: apply (Inv_add (base n k) _ t 0); try done; simpl.
    1: by apply base_Inv.
    1: lia.
    1: by intros m [= <-].
    1: lia.
    1: intros [|j] u Hu; [|done]; injection Hu as <-; simpl; lia.
  all: unfold boot, add_new_user_task; rewrite (proj2 (Z.eqb_neq stack 0)) by lia; done.
Qed.

(** Changes of a processor's own data that concern nobody else. *)
Lemma Inv_cpu_data s pl c g :
  Inv s pl -> (forall k, current_task_index (g k) = current_task_index k /\ ph (g k) = ph k /\ on (g k) = on k /\
    cr3 (g k) = cr3 k /\ kernel_stack (g k) = kernel_stack k /\ idle_stack (g k) = idle_stack k) ->
  rsp (g (cpus s c)) <> 0 \/ rsp (g (cpus s c)) = rsp (cpus s c) -> Inv (with_cpu c g s) pl.
Proof.
  intros HI Hg Hr. destruct (Hg (cpus s c)) as (E1 & E2 & E3 & E4 & E5 & E6). apply Inv_cpu; try done; rewrite ?E1, ?E2.
  - by left.
  - pose proof (v_seat _ _ HI c) as Hs. unfold seat_ok in *. rewrite E3, E4, E5, E6.
    destruct (on (cpus s c)); [done|]. destruct Hs as [? ?]. split; [|done]. destruct Hr; congruence.
  - pose proof (v_phase _ _ HI c) as Hp. unfold phase_ok, plan_fresh in *. by rewrite E1, E2, E3, E6.
  - intros Hc. by destruct (v_inert _ _ HI c Hc).
  - intros i t Hi Ht. assert (pl i = Seated c) as Hpl by (by apply (v_cur _ _ HI)).
    pose proof (v_task _ _ HI i t Ht) as Hok. rewrite Hpl in Hok. by destruct Hok as [? _].
Qed.

Lemma Inv_files s pl c : Inv s pl -> Inv (take_current_files c s).1 pl.
Proof.
  intros HI. unfold take_current_files. destruct (current_task_index (cpus s c)) as [i|]; [|done].
  destruct (tasks s !! i) as [t|]; [|done]. simpl. apply Inv_task; try done.
Qed.

Lemma kick_Inv q s pl : Inv s pl -> Inv (kick q s) pl.
Proof. intros HI. unfold kick. case_decide; [done|]. by apply (Inv_log s). Qed.

Lemma upd_last f t s :
  upd (length (tasks s)) f (with_tasks (fun ts => ts ++ [t]) s) = with_tasks (fun ts => ts ++ [f t]) s.
Proof.
  unfold upd, with_tasks. simpl. f_equal.
  rewrite alter_app_r_alt by lia. by rewrite Nat.sub_diag.
Qed.

Lemma Inv_user s pl stack r size space fs :
  Inv s pl -> calm pl -> stack = 0 \/ 0 < stack /\ 0 <= size /\ fresh_stack s stack ->
  exists pl', Inv (add_new_user_task stack r size space fs s).1 pl' /\ calm pl'.
Proof.
  intros HI Hc Hs. unfold add_new_user_task. destruct (Z.eqb_spec stack 0) as [E|E].
  { exists pl. split; [|done]. by apply (Inv_log s). }
  destruct Hs as [?|(Hp & Hz & Hf)]; [done|].
  assert (Inv (take_id s) pl) as HI1 by (by apply (Inv_log s)). pose proof (v_online _ _ HI) as Ho.
  set (s1 := take_id s) in *. set (t := mk_task _ _ _ _ _ _ _ _ _ _ _ _ _ _ _).
  destruct (next_id s =? 1); cbn [fst].
  - rewrite !upd_last. exists (<[length (tasks s1) := Queued 0%nat]> pl). split; [|by apply calm_insert].
    apply kick_Inv, Inv_add; try done; simpl; [lia|by intros m [= <-]|lia].
  - rewrite upd_last. set (q := select_target_cpu _).
    assert (q < online s1)%nat as Hq by (apply (select_target_online (with_tasks (fun ts => ts ++ [t]) s1)), Ho).
    exists (<[length (tasks s1) := Queued q]> pl). split; [|by apply calm_insert].
    apply kick_Inv, Inv_add; try done; simpl; lia.
Qed.

Lemma Inv_kernel s pl stack size :
  Inv s pl -> calm pl -> 0 < stack -> 0 <= size -> fresh_stack s stack ->
  exists pl', Inv (add_new_task stack size s) pl' /\ calm pl'.
Proof.
  intros HI Hc Hp Hz Hf. unfold add_new_task.
  assert (Inv (take_id s) pl) as HI1 by (by apply (Inv_log s)). pose proof (v_online _ _ HI) as Ho.
  set (s1 := take_id s) in *. set (t := mk_task _ _ _ _ _ _ _ _ _ _ _ _ _ _ _).
  rewrite upd_last. set (q := select_target_cpu _).
  assert (q < online s1)%nat as Hq by (apply (select_target_online (with_tasks (fun ts => ts ++ [t]) s1)), Ho).
  exists (<[length (tasks s1) := Queued q]> pl). split; [|by apply calm_insert].
  apply kick_Inv, Inv_add; try done; simpl; lia.
Qed.

Lemma Inv_wait_task c task_id s s' r pl :
  Inv s pl -> ph (cpus s c) = Run -> wait_task_locked c task_id s = Ok (s', r) -> Inv s' pl.
Proof.
  intros HI Hph. unfold wait_task_locked. destruct (find_task task_id s) as [target|]; [|naive_solver].
  destruct (tasks s !! target) as [t|]; [|done]. case_decide; [naive_solver|].
  destruct (current_task_index (cpus s c)) as [i|] eqn:Hcur; [|naive_solver]. case_decide; [naive_solver|].
  destruct (tasks s !! i) as [ti|] eqn:Ht; [|done]. intros [= <- <-]. apply Inv_block; try done.
  intros u. split; [by right; left|done].
Qed.

Lemma Inv_wait_until c key deadline generation s s' b pl :
  Inv s pl -> ph (cpus s c) = Run -> wait_current_until_locked c key deadline generation s = Ok (s', b) -> Inv s' pl.
Proof.
  intros HI Hph. unfold wait_current_until_locked. case_decide; [naive_solver|].
  destruct (current_task_index (cpus s c)) as [i|] eqn:Hcur; [|naive_solver].
  destruct (tasks s !! i) as [ti|] eqn:Ht; [|done]. intros [= <- <-]. apply Inv_block; try done.
  intros u. split; [by right; left|done].
Qed.

Lemma Inv_sleep c deadline s s' pl :
  Inv s pl -> ph (cpus s c) = Run -> (c < online s)%nat -> sleep_current_locked c deadline s = Ok s' -> Inv s' pl.
Proof.
  intros HI Hph Hon. unfold sleep_current_locked. destruct (current_task_index (cpus s c)) as [i|] eqn:Hcur.
  2: { intros [= <-]. by apply Inv_must. }
  destruct (tasks s !! i) as [ti|] eqn:Ht; [|done]. intros [= <-]. apply Inv_block; try done.
  intros u. split; [by left|done].
Qed.

Lemma step_Inv s s' pl : Inv s pl -> calm pl -> step true s s' -> exists pl', Inv s' pl' /\ calm pl'.
Proof.
  intros HI Hc. destruct 1.
  - destruct (Inv_switch s pl c HI Hc) as (s2 & pl' & E & HI' & Hc'); [done|done|by auto|].
    exists pl'. replace s' with s2 by congruence. done.
  - exists (pl_load pl c p). split; [by apply Inv_load|]. intros i d. unfold pl_load. repeat case_decide; try done; apply Hc.
  - exists (pl_publish pl c). split; [by apply Inv_publish|]. intros i d. unfold pl_publish. case_decide; [done|apply Hc].
  - exists pl. split; [|done]. apply Inv_cpu_data; try done. by left.
  - exists pl. split; [|done]. by apply (Inv_log s).
  - exists pl. split; [|done]. unfold scheduler_tick. destruct (current_task_index (cpus s c)); [|done].
    apply Inv_cpu_data; [done|done|by right].
  - exists pl. split; [|done]. unfold take_resched. destruct (need_resched (cpus s c)); [|done].
    apply Inv_cpu_data; [done|done|by right].
  - exists pl. split; [|done]. by eapply Inv_wait_task.
  - exists pl. split; [|done]. by eapply Inv_wait_until.
  - exists pl. split; [|done]. by eapply Inv_sleep.
  - destruct (Inv_wake_waiters key s pl HI Hc) as [Hex _]; by auto.
  - eapply Inv_terminate; [exact HI|exact Hc|done|done|by auto|done].
  - exists pl. split; [|done]. by apply Inv_files.
  - exists pl. split; [|done]. by apply (Inv_log s).
  - by apply (Inv_user s pl).
  - by apply (Inv_kernel s pl).
Qed.

Lemma reachable_Inv s : reachable true s -> exists pl, Inv s pl /\ calm pl.
Proof.
  intros (n & k & stack & r & size & space & fs & Hn & Hs & Hz & Hsteps).
  destruct (boot_Inv n k stack r size space fs Hn Hs Hz) as (pl & HI & Hc). revert pl HI Hc.
  induction Hsteps as [s|s1 s2 s3 Hstep _ IH]; intros pl HI Hc; [by exists pl|].
  destruct (step_Inv s1 s2 pl HI Hc Hstep) as (pl' & HI' & Hc'). by apply (IH pl').
Qed.

(** * Theorems *)

(** C5: No two processors ever run on the same task's stack.  A processor that
    is about to load a task's stack loads the stack pointer that task was left
    with, and nobody is on that stack; on a task's stack, its page table and
    interrupt stack are the task's own.  This holds for all interleavings in
    which a task is made ready only once its processor is off its stack. *)
Theorem sched_stacks_exclusive s :
  reachable true s ->
  (forall c d i, on (cpus s c) = Some i -> on (cpus s d) = Some i -> c = d) /\
  (forall c p j, ph (cpus s c) = Switching p -> next p = Some j ->
    off_stack s j /\ exists t, tasks s !! j = Some t /\ status t = Running /\ new_stack p = stack_top t) /\
  (forall c i, on (cpus s c) = Some i -> exists t, tasks s !! i = Some t /\ cr3 (cpus s c) = space_pml4 s t /\
    kernel_stack (cpus s c) = kernel_stack_top t).
Proof.
  intros Hr. destruct (reachable_Inv s Hr) as (pl & HI & _). split; [apply (on_inj s pl HI)|]. split.
  - intros c p j Hp Hn. split; [intros d; by apply (next_free s pl HI c p j)|].
    pose proof (v_phase _ _ HI c) as Hph. unfold phase_ok in Hph. rewrite Hp in Hph.
    destruct Hph as (_ & Hc & _ & _ & _ & Hfr). unfold plan_fresh in Hfr. rewrite Hn in Hfr, Hc.
    destruct Hfr as (t & Ht & Hs & _). exists t. split; [done|]. split; [|done].
    apply (seated_running s pl c j t HI); [by rewrite Hp|done|done].
  - intros c i Hi. pose proof (v_seat _ _ HI c) as Hs. unfold seat_ok in Hs. rewrite Hi in Hs.
    destruct Hs as (t & Ht & _ & H1 & H2). by exists t.
Qed.

(** A switch publishes a handoff or acknowledges a stack, never both. *)
Lemma publishes_one s c p :
  reachable true s -> ph (cpus s c) = Switched p -> switched_out_task p = None \/ retired_stack_bottom p = 0.
Proof.
  intros Hr Hp. destruct (reachable_Inv s Hr) as (pl & HI & _). pose proof (v_phase _ _ HI c) as Hph.
  unfold phase_ok in Hph. rewrite Hp in Hph. apply Hph.
Qed.

(** C6: The run queues hold exactly the ready tasks, each once, on a processor
    that is online and that it may run on; a running task is current on exactly
    one processor; no task is left claimed when the lock is released.  This holds
    for all interleavings in which a task is made ready only once its processor
    is off its stack.  [terminate_task] and [wake_sleeping_tasks_locked] do not
    look whether it is ([stale_resume]). *)
Theorem sched_queues_exact s i t :
  reachable true s -> tasks s !! i = Some t ->
  (status t = Ready <-> exists c, i ∈ run_queues s c) /\
  (forall c d, i ∈ run_queues s c -> i ∈ run_queues s d -> c = d) /\ (forall c, NoDup (run_queues s c)) /\
  (forall c, i ∈ run_queues s c -> (c < online s)%nat /\ (pinned_cpu t = None \/ pinned_cpu t = Some c)) /\
  (status t = Running -> exists c, current_task_index (cpus s c) = Some i) /\
  (forall c d, current_task_index (cpus s c) = Some i -> current_task_index (cpus s d) = Some i -> c = d) /\
  status t <> Claimed.
Proof.
  intros Hr Ht. destruct (reachable_Inv s Hr) as (pl & HI & Hc). pose proof (v_task _ _ HI i t Ht) as Hok.
  setoid_rewrite (v_queue _ _ HI). setoid_rewrite (v_cur _ _ HI).
  assert (status t = Ready -> exists c, pl i = Queued c) as H1.
  { intros E. unfold task_ok, blocked in Hok. rewrite E in Hok. destruct (pl i) as [c|c|c|c|c|c|]; by eauto || naive_solver. }
  assert (status t = Running -> exists c, pl i = Seated c) as H2.
  { intros E. unfold task_ok, blocked in Hok. rewrite E in Hok. destruct (pl i) as [c|c|c|c|c|c|]; by eauto || naive_solver. }
  assert (status t <> Claimed) as H3.
  { intros E. unfold task_ok, blocked in Hok. rewrite E in Hok. pose proof (Hc i) as Hh.
    destruct (pl i) as [c|c|c|c|c|c|]; try naive_solver. }
  assert (forall c, pl i = Queued c -> status t = Ready /\ (c < online s)%nat /\ pin_ok t c) as H4.
  { intros c E. by rewrite E in Hok. }
  split; [split; [done|]; intros [c E]; by destruct (H4 c E)|]. split; [intros c d; congruence|]. split; [apply HI|].
  split; [intros c E; by destruct (H4 c E) as (_ & ? & ?)|]. split; [done|]. split; [intros c d; congruence|done].
Qed.

(** What one pass of the reaper does to a task. *)
Lemma reap_zombies_task s pl i t t' :
  Inv s pl -> tasks s !! i = Some t -> tasks (reap_zombies s) !! i = Some t' ->
  t' = t \/ t' = reaped t /\ status t = Zombie /\ pl i = Away.
Proof.
  unfold reap_zombies. generalize (seq 0 (length (tasks s))) as l. intros l. revert s t.
  induction l as [|j l IH]; intros s t HI Ht; cbn [fold_left]; [left; congruence|]. intros Ht'.
  destruct (reap_cases s pl j HI) as [E|(tj & slots & Hj & Hz & _ & Hpl & _ & E)].
  - rewrite E in Ht'. by apply (IH s t).
  - pose proof (Inv_reap s pl j HI) as HI'. rewrite E in HI', Ht'. destruct (decide (j = i)) as [->|Hji].
    + assert (tj = t) as -> by (simpl in Hj; congruence).
      destruct (IH _ (reaped t) HI') as [->|(-> & _ & _)].
      * rewrite lookup_upd, decide_True by done. simpl. by rewrite Ht.
      * done.
      * by right.
      * right. by split.
    + apply (IH _ t HI'); [|done]. rewrite lookup_upd, decide_False by done. done.
Qed.

(** C7: The reaper frees the kernel stack and drops the page table of a task
    only when the task has ended and no processor is on its stack; a processor
    that has a user page table loaded is on the stack of a task that still
    holds it.  This holds for all interleavings in which a task is made ready
    only once its processor is off its stack, which [terminate_task] and
    [wake_sleeping_tasks_locked] do not look at ([stale_resume]). *)
Theorem reap_safe s i t t' :
  reachable true s -> tasks s !! i = Some t -> tasks (reap_zombies s) !! i = Some t' -> t' <> t ->
  t' = reaped t /\ status t = Zombie /\ off_stack s i /\
  forall c, cr3 (cpus s c) <> kernel_pml4 s ->
    exists j tj, j <> i /\ on (cpus s c) = Some j /\ tasks (reap_zombies s) !! j = Some tj /\ address_space tj = Some (cr3 (cpus s c)).
Proof.
  intros Hr Ht Ht' Hne. destruct (reachable_Inv s Hr) as (pl & HI & _).
  destruct (reap_zombies_task s pl i t t' HI Ht Ht') as [?|(-> & Hz & Hpl)]; [done|].
  assert (off_stack s i) as Hoff.
  { intros c Hon. destruct (on_place s pl HI c i Hon) as [?|[?|?]]; congruence. }
  split_and!; try done. intros c Hcr. pose proof (v_seat _ _ HI c) as Hs. unfold seat_ok, space_pml4 in Hs.
  destruct (on (cpus s c)) as [j|] eqn:Hon; [|by destruct Hs].
  destruct Hs as (tj & Hj & _ & E & _). exists j. destruct (Inv_reap_zombies s pl HI) as (HI' & _).
  pose proof (on_place s pl HI c j Hon) as Hplj.
  assert (tasks (reap_zombies s) !! j = Some tj) as Hj'.
  { destruct (tasks (reap_zombies s) !! j) as [u|] eqn:Hu.
    - destruct (reap_zombies_task s pl j tj u HI Hj Hu) as [->|(_ & _ & Haway)]; [done|].
      destruct Hplj as [?|[?|?]]; congruence.
    - apply (v_none _ _ HI') in Hu. destruct Hplj as [?|[?|?]]; congruence. }
  exists tj. split; [intros ->; by apply (Hoff c)|]. split; [done|]. split; [done|].
  destruct (address_space tj); simpl in E; congruence.
Qed.

(** ** Waking *)

Lemma filter_agree {A} (P Q : A -> Prop) `{!forall x, Decision (P x)} `{!forall x, Decision (Q x)} (l : list A) :
  (forall x, x ∈ l -> P x <-> Q x) -> filter P l = filter Q l.
Proof.
  induction l as [|x l IH]; intros Hpq; [done|]. assert (P x <-> Q x) as Hx by (apply Hpq; left).
  assert (filter P l = filter Q l) as E by (apply IH; intros y Hy; apply Hpq; by right).
  destruct (decide (P x)).
  - rewrite !filter_cons_True by tauto. by rewrite E.
  - rewrite !filter_cons_False by tauto. done.
Qed.

(** What [wake_waiters] makes of a task. *)
Definition woken (s : sched) (key : Z) (i : nat) (t : Task) : Task :=
  if waits key t then set_status (if is_published s i then Running else Ready) (set_wait NO_KEY 0 t) else t.

(** The tasks it puts in the queue of processor [c]. *)
Definition queued_by (s : sched) (key : Z) (c : nat) (i : nat) : Prop :=
  exists t, tasks s !! i = Some t /\ waits key t = true /\ is_published s i = false /\
    Nat.min (cpu_affinity t) MAX_AP_COUNT = c.

#[local] Instance queued_by_dec s key c i : Decision (queued_by s key c i).
Proof.
  unfold queued_by. destruct (tasks s !! i) as [t|]; [|right; intros (? & ? & _); congruence].
  destruct (decide (waits key t = true /\ is_published s i = false /\ Nat.min (cpu_affinity t) MAX_AP_COUNT = c)) as [H|H].
  - left. by exists t.
  - right. intros (t' & [= <-] & H'). done.
Defined.

Lemma wake_waiter_lookup key s i j :
  tasks (wake_waiter key s i) !! j = if decide (i = j) then woken s key i <$> tasks s !! j else tasks s !! j.
Proof.
  unfold wake_waiter, woken. destruct (tasks s !! i) as [t|] eqn:Ht.
  2: { case_decide; [subst j; by rewrite Ht|done]. }
  fold (waits key t). fold (is_published s i). destruct (waits key t) eqn:Hw.
  2: { case_decide; [subst j; rewrite Ht; simpl; by rewrite Hw|done]. }
  destruct (is_published s i); [|unfold kick; case_decide; simpl]; 
    match goal with |- context [alter ?f i (tasks s)] => change (alter f i (tasks s)) with (tasks (upd i f s)) | _ => idtac end;
    rewrite lookup_upd; case_decide; try done; subst j; rewrite Ht; simpl; by rewrite Hw.
Qed.

Lemma wake_waiter_published key s i : published (wake_waiter key s i) = published s.
Proof.
  unfold wake_waiter. destruct (tasks s !! i) as [t|]; [|done]. destruct (_ && _); [|done].
  fold (is_published s i). destruct (is_published s i); [done|]. unfold kick. by case_decide.
Qed.

Lemma wake_waiter_queue key s i c :
  run_queues (wake_waiter key s i) c = run_queues s c ++ (if decide (queued_by s key c i) then [i] else []).
Proof.
  unfold wake_waiter. destruct (tasks s !! i) as [t|] eqn:Ht.
  2: { rewrite decide_False; [by rewrite app_nil_r|]. intros (? & ? & _). congruence. }
  fold (waits key t). fold (is_published s i). destruct (waits key t) eqn:Hw.
  2: { rewrite decide_False; [by rewrite app_nil_r|]. intros (t' & ? & ? & _). congruence. }
  destruct (is_published s i) eqn:Hp.
  { rewrite decide_False; [by rewrite app_nil_r|]. intros (t' & ? & ? & ? & _). congruence. }
  assert (forall s', run_queues (kick (Nat.min (cpu_affinity t) MAX_AP_COUNT) s') = run_queues s') as ->
    by (intros s'; unfold kick; by case_decide).
  simpl. unfold insert, fn_insert. destruct (decide (Nat.min (cpu_affinity t) MAX_AP_COUNT = c)) as [<-|Hc].
  - rewrite decide_True by (by exists t). done.
  - rewrite decide_False; [by rewrite app_nil_r|]. intros (t' & ? & _ & _ & ?). congruence.
Qed.

Lemma wake_fold key l s :
  NoDup l ->
  let s' := fold_left (wake_waiter key) l s in
  (forall j, tasks s' !! j = if decide (j ∈ l) then woken s key j <$> tasks s !! j else tasks s !! j) /\
  (forall c, run_queues s' c = run_queues s c ++ filter (queued_by s key c) l) /\ published s' = published s.
Proof.
  revert s. induction l as [|i l IH]; intros s Hnd; cbn [fold_left].
  { split_and!; try done. intros c. by rewrite app_nil_r. }
  apply NoDup_cons in Hnd as [Hi Hnd]. destruct (IH (wake_waiter key s i) Hnd) as (Ht & Hq & Hp).
  rewrite wake_waiter_published in Hp.
  assert (forall j, is_published (wake_waiter key s i) j = is_published s j) as Hpub
    by (intros j; unfold is_published; by rewrite wake_waiter_published).
  assert (forall j t, woken (wake_waiter key s i) key j t = woken s key j t) as Hw by (intros j t; unfold woken; by rewrite Hpub).
  cbn zeta. split_and!; [|intros c|done].
  - intros j. rewrite Ht, wake_waiter_lookup. destruct (decide (j ∈ l)) as [Hj|Hj].
    + rewrite decide_False by (intros ->; done). rewrite decide_True by (by right).
      destruct (tasks s !! j); [|done]. simpl. by rewrite Hw.
    + destruct (decide (i = j)) as [->|Hij]; [by rewrite decide_True by left|].
      rewrite decide_False; [done|]. rewrite elem_of_cons. by intros [?|?].
  - rewrite Hq, wake_waiter_queue, <- app_assoc. f_equal.
    assert (filter (queued_by (wake_waiter key s i) key c) l = filter (queued_by s key c) l) as ->.
    { apply filter_agree. intros j Hj. unfold queued_by. rewrite Hpub, wake_waiter_lookup.
      rewrite decide_False by (intros ->; done). done. }
    destruct (decide (queued_by s key c i)); [by rewrite filter_cons_True|by rewrite filter_cons_False].
Qed.

Lemma bump_generation_spec key l :
  let g l := match first_such (fun kg : Z * Z => kg.1 =? key) l with Some (_, g) => g | None => 0 end in
  g (bump_generation key l) = u64 (g l + 1).
Proof.
  simpl. induction l as [|[k v] l IH]; simpl.
  - by rewrite Z.eqb_refl.
  - destruct (k =? key) eqn:E; simpl; rewrite E; [done|]. exact IH.
Qed.

Lemma wake_generation key s : event_generation key (wake_waiters key s) = u64 (event_generation key s + 1).
Proof.
  unfold event_generation, wake_waiters.
  assert (forall l s0, event_generations (fold_left (wake_waiter key) l s0) = event_generations s0) as E.
  { intros l. induction l as [|i l IH]; intros s0; cbn [fold_left]; [done|]. rewrite IH. unfold wake_waiter.
    destruct (tasks s0 !! i) as [t|]; [|done]. destruct (_ && _); [|done]. fold (is_published s0 i).
    destruct (is_published s0 i); [done|]. unfold kick. by case_decide. }
  rewrite E. simpl. apply bump_generation_spec.
Qed.

(** [wake_waiters] moves the counter of its key on, and makes every task
    that waits for the key run again: a task that is still current on its
    processor is running as before, any other one is ready and in the queue of
    its processor, in the order of the task table; nothing else changes. *)
Theorem wake_waiters_correct key s :
  event_generation key (wake_waiters key s) = u64 (event_generation key s + 1) /\
  (forall i, tasks (wake_waiters key s) !! i = woken s key i <$> tasks s !! i) /\
  (forall i t, tasks (wake_waiters key s) !! i = Some t -> waits key t = false) /\
  (forall c, run_queues (wake_waiters key s) c =
     run_queues s c ++ filter (queued_by s key c) (seq 0 (length (tasks s)))).
Proof.
  split; [apply wake_generation|]. unfold wake_waiters. set (s0 := with_generations _ s).
  destruct (wake_fold key (seq 0 (length (tasks s0))) s0 (NoDup_seq 0 _)) as (Ht & Hq & _).
  assert (forall i, tasks (fold_left (wake_waiter key) (seq 0 (length (tasks s0))) s0) !! i = woken s key i <$> tasks s !! i) as Hall.
  { intros i. rewrite Ht. case_decide as Hi; [done|]. change (tasks s0) with (tasks s) in *.
    rewrite lookup_ge_None_2; [done|]. apply Nat.nlt_ge. intros Hlt. apply Hi. apply elem_of_seq. lia. }
  split; [done|]. split; [|intros c; apply Hq]. intros i t. rewrite Hall. intros E. apply fmap_Some in E as (t0 & _ & ->).
  unfold woken. destruct (waits key t0) eqn:Hw; [|done]. unfold waits. apply andb_false_iff. left.
  apply bool_decide_eq_false_2. by destruct (is_published s i).
Qed.

(** C36: A wakeup between the reading of a key's counter and the wait is not
    lost: the wait returns at once. *)
Theorem wait_sees_wakeup c key deadline s :
  0 <= event_generation key s < 2 ^ 64 ->
  wait_current_until_locked c key deadline (event_generation key s) (wake_waiters key s) = Ok (wake_waiters key s, false).
Proof.
  intros Hg. unfold wait_current_until_locked. rewrite decide_True; [done|]. rewrite wake_generation.
  unfold u64. destruct (decide (event_generation key s = 2 ^ 64 - 1)) as [->|Hne]; [done|].
  rewrite Z.mod_small by lia. lia.
Qed.

(** [switch_task] runs the head of the processor's own queue: once sleepers
    are awake and the task it last preempted is back, the first task in the
    queue is entered and leaves the queue. *)
Theorem switch_runs_head c s i q :
  reachable true s -> (c < online s)%nat -> settled (ph (cpus s c)) -> quiet_due c s ->
  run_queues (finish_switched_out_task c (maintenance c s)) c = i :: q ->
  exists s' p, switch_task_locked c s = Ok s' /\ ph (cpus s' c) = Switching p /\ next p = Some i /\ run_queues s' c = q /\
    current_task_index (cpus s' c) = Some i.
Proof.
  intros Hr Hon Hset Hq Hhead. destruct (reachable_Inv s Hr) as (pl & HI & Hc).
  destruct (Inv_maintenance s pl c HI Hc Hq) as ((pl1 & HI1 & Hc1) & E1 & E2 & _).
  destruct (Inv_finish (maintenance c s) pl1 c HI1 Hc1) as (pl2 & HI2 & Hc2 & F1 & F2 & F3); [by rewrite E1|].
  unfold switch_task_locked. set (s2 := finish_switched_out_task c (maintenance c s)) in *.
  destruct (claim_local_spec s2 pl2 c HI2 Hc2) as (s3 & r & pl3 & Hcl & [HI3 G1 G2 G3 G4 G5] & _); [by rewrite F2, E2|].
  unfold claim. rewrite Hcl. unfold claim_local_ready_task in Hcl. rewrite (claim_scan_head s2 pl2 c i q HI2 Hhead) in Hcl.
  injection Hcl as <- <-. destruct (G5 i eq_refl) as (Hn & tn & Htn & Hst & Hpin).
  set (s3 := upd i (set_status Claimed) (set_queue c q s2)) in *.
  assert (bool_decide (pinned_cpu tn = None \/ pinned_cpu tn = Some c) = true) as Hp by (by apply bool_decide_eq_true).
  rewrite F1, E1 in G1. rewrite F2, E2 in G3.
  assert (run_queues s3 c = q) as Hqueue by (simpl; unfold insert, fn_insert; by rewrite decide_True).
  unfold switch_to. destruct (current_task_index (cpus s c)) as [j|] eqn:Hcur.
  - destruct (enter_from_task s3 pl3 c i (Some j) tn HI3) with (i := j) as (s4 & out & s' & p & Hsu & Hn1 & He & HD & Hnext);
      rewrite ?G1, ?G2, ?G3; try done.
    rewrite Hsu, Hn1, decide_False, Hp by (by intros ?). exists s', p.
    destruct (de_k _ _ _ _ _ _ _ _ HD) as (K1 & K2 & _). destruct (de_same _ _ _ _ _ _ _ _ HD) as (_ & Q & _).
    split_and!; try done. by rewrite Q.
  - destruct (enter_from_idle s3 pl3 c i None tn HI3) as (s' & p & He & HD & Hnext);
      rewrite ?G1, ?G2, ?G3; try done.
    cbn [suspend]. rewrite Htn, decide_False, Hp by (by intros ?). exists s', p.
    destruct (de_k _ _ _ _ _ _ _ _ HD) as (K1 & K2 & _). destruct (de_same _ _ _ _ _ _ _ _ HD) as (_ & Q & _).
    split_and!; try done. by rewrite Q.
Qed.

(** * A run: two processors, a parent that waits for its child *)

Definition run_switch (c : nat) (s : sched) : sched := match switch_task_locked c s with Ok s' => s' | _ => s end.
Definition is_ok {A} (r : res A) : bool := match r with Ok _ => true | _ => false end.

Lemma run_switch_eq c s : is_ok (switch_task_locked c s) = true -> switch_task_locked c s = Ok (run_switch c s).
Proof. unfold run_switch. by destruct (switch_task_locked c s). Qed.

(** The switch under way on [c] is finished. *)
Definition run_load (c : nat) (s : sched) : sched := match ph (cpus s c) with Switching p => context_load c p s | _ => s end.
Definition run_publish (c : nat) (s : sched) : sched := match ph (cpus s c) with Switched p => context_publish c p s | _ => s end.
Definition run_task (c : nat) (s : sched) : sched := run_publish c (run_load c (run_switch c s)).

Definition w0 : sched := boot 2 0x1000 0x10000 0x9000 0x4000 (Some 0x2000) None.
(** The first task runs on CPU0 and adds a second one, which CPU1 takes. *)
Definition w1 : sched := run_task 0 w0.
Definition w2 : sched := (add_new_user_task 0x20000 0x9000 0x4000 (Some 0x2000) None w1).1.
Definition w3 : sched := with_cpu 1 (set_rsp 0x23000) (run_task 1 w2).

Lemma settled_run c s : is_ok (switch_task_locked c s) = true -> ph (cpus s c) = Run -> (c < online s)%nat ->
  step false s (run_switch c s).
Proof. intros Hok Hp Hc. apply (st_switch false c); [done|by left|intros E; discriminate E|by apply run_switch_eq]. Qed.

Lemma run_task_steps c s :
  is_ok (switch_task_locked c s) = true -> ph (cpus s c) = Run -> (c < online s)%nat -> rtc (step false) s (run_task c s).
Proof.
  intros Hok Hp Hc. unfold run_task. apply rtc_l with (run_switch c s); [by apply settled_run|].
  unfold run_load. destruct (ph (cpus (run_switch c s) c)) as [| |p|p] eqn:E1.
  3: eapply rtc_l; [by apply st_load|].
  all: unfold run_publish; case_match; try apply rtc_refl; apply rtc_once; by apply st_publish.
Qed.

Lemma w3_steps : rtc (step false) w0 w3.
Proof.
  transitivity w1; [apply run_task_steps; [by vm_compute|done|vm_compute; lia]|].
  transitivity w2.
  { apply rtc_once, st_user. right. split; [lia|]. split; [lia|]. intros [|[|i]] t Ht; [..|done];
      vm_compute in Ht; injection Ht as <-; vm_compute; discriminate. }
  transitivity (run_task 1 w2); [apply run_task_steps; [by vm_compute|done|vm_compute; lia]|].
  apply rtc_once, st_exec; [done|done].
Qed.

(** CPU1's task (index 2) waits for the task on CPU0 (index 1), which ends
    before CPU1 has left the waiting task. *)
Definition w4 : sched := match wait_task_locked 1 1 w3 with Ok (s, _) => s | _ => w3 end.
Definition w5 : sched := match terminate_task_locked 0 0 w4 with Ok s => s | _ => w4 end.
Definition w6 : sched := run_switch 1 w5.

Lemma w5_eq : terminate_task_locked 0 0 w4 = Ok w5.
Proof.
  assert (is_ok (terminate_task_locked 0 0 w4) = true) as Hok by (by vm_compute). unfold w5.
  by destruct (terminate_task_locked 0 0 w4).
Qed.

(** A task can be switched to while it is still on its processor, with the
    stack pointer of its last suspension: [terminate_task] makes a waiting task
    ready even if its processor has not yet switched away from it, which
    [wake_waiters] checks.  Here CPU1 loads the first frame of task 2 over its
    live stack. *)
Theorem stale_resume : exists s c p i,
  reachable false s /\ ph (cpus s c) = Switching p /\ on (cpus s c) = Some i /\ next p = Some i /\
  new_stack p <> rsp (cpus s c).
Proof.
  exists w6, 1%nat. eexists _, 2%nat. split; [|by vm_compute].
  exists 2%nat, 0x1000, 0x10000, 0x9000, 0x4000, (Some 0x2000), None.
  split; [unfold NCPU, MAX_AP_COUNT; lia|]. split; [lia|]. split; [lia|]. fold w0.
  transitivity w3; [apply w3_steps|].
  apply rtc_l with w4; [apply (st_wait_task false 1 1 w3 w4 None); [done|by vm_compute]|].
  apply rtc_l with w5; [apply (st_terminate false 0 0 w4 w5); [by vm_compute|vm_compute; lia|intros E; discriminate E|apply w5_eq]|].
  apply rtc_once. apply (st_switch false 1); [vm_compute; lia|right; by vm_compute|intros E; discriminate E|apply run_switch_eq; by vm_compute].
Qed.

(** ** Witnesses: the first task is being entered. *)

Definition v1 : sched := run_switch 0 w0.

Lemma w0_off i : off_stack w0 i.
Proof.
  intros c. unfold w0, boot, enter_bsp_scheduler_idle. simpl. unfold insert, fn_insert.
  destruct (decide (0%nat = c)); [done|]. unfold boot_cpu. done.
Qed.

Lemma w0_quiet c : quiet_due c w0.
Proof. intros _ i t _ _. apply w0_off. Qed.

Lemma w0_reachable q : reachable q w0.
Proof.
  exists 2%nat, 0x1000, 0x10000, 0x9000, 0x4000, (Some 0x2000), None. split; [unfold NCPU, MAX_AP_COUNT; lia|]. split; [lia|]. split; [lia|].
  apply rtc_refl.
Qed.

Lemma v1_reachable : reachable true v1.
Proof.
  destruct (w0_reachable true) as (n & k & st & r & sz & sp & fs & H1 & H2 & H3 & H4).
  exists n, k, st, r, sz, sp, fs. split_and!; try done; try lia. eapply rtc_r; [exact H4|].
  apply (st_switch true 0); [vm_compute; lia|by left|intros _; apply w0_quiet|apply run_switch_eq; by vm_compute].
Qed.

Lemma sched_stacks_exclusive_witness :
  (exists p, ph (cpus v1 0) = Switching p /\ next p = Some 1%nat) /\
  (forall c d i, on (cpus v1 c) = Some i -> on (cpus v1 d) = Some i -> c = d) /\
  (forall c p j, ph (cpus v1 c) = Switching p -> next p = Some j ->
    off_stack v1 j /\ exists t, tasks v1 !! j = Some t /\ status t = Running /\ new_stack p = stack_top t) /\
  (forall c i, on (cpus v1 c) = Some i -> exists t, tasks v1 !! i = Some t /\ cr3 (cpus v1 c) = space_pml4 v1 t /\
    kernel_stack (cpus v1 c) = kernel_stack_top t).
Proof. split; [by eexists; split; vm_compute|]. apply (sched_stacks_exclusive v1 v1_reachable). Defined.

Lemma sched_queues_exact_witness : exists t, tasks w0 !! 1%nat = Some t /\
  ((status t = Ready <-> exists c, 1%nat ∈ run_queues w0 c) /\
   (forall c d, 1%nat ∈ run_queues w0 c -> 1%nat ∈ run_queues w0 d -> c = d) /\ (forall c, NoDup (run_queues w0 c)) /\
   (forall c, 1%nat ∈ run_queues w0 c -> (c < online w0)%nat /\ (pinned_cpu t = None \/ pinned_cpu t = Some c)) /\
   (status t = Running -> exists c, current_task_index (cpus w0 c) = Some 1%nat) /\
   (forall c d, current_task_index (cpus w0 c) = Some 1%nat -> current_task_index (cpus w0 d) = Some 1%nat -> c = d) /\
   status t <> Claimed).
Proof. eexists. split; [reflexivity|]. apply (sched_queues_exact w0 1 _ (w0_reachable true)). reflexivity. Defined.

Lemma wait_sees_wakeup_witness :
  wait_current_until_locked 0 7 0 0 (wake_waiters 7 w0) = Ok (wake_waiters 7 w0, false).
Proof. apply (wait_sees_wakeup 0 7 0 w0). by vm_compute. Defined.

Lemma switch_runs_head_witness : exists s' p, switch_task_locked 0 w0 = Ok s' /\ ph (cpus s' 0) = Switching p /\
  next p = Some 1%nat /\ run_queues s' 0 = [] /\ current_task_index (cpus s' 0) = Some 1%nat.
Proof.
  apply (switch_runs_head 0 w0 1 []); [apply w0_reachable|vm_compute; lia|by left|apply w0_quiet|by vm_compute].
Defined.

(** The first task ends and its processor goes back to its idle loop. *)
Definition y1 : sched := run_load 0 v1.
Definition y2 : sched := run_publish 0 y1.
Definition y3 : sched := match terminate_task_locked 0 7 y2 with Ok s => s | _ => y2 end.
Definition y4 : sched := run_switch 0 y3.
Definition y5 : sched := run_load 0 y4.
Definition y6 : sched := run_publish 0 y5.

Definition none_waits (f : Task -> bool) (s : sched) : bool := forallb (fun t => negb (f t)) (tasks s).

Lemma none_waits_quiet f s : none_waits f s = true -> quiet_for f s.
Proof.
  intros Hf i t Ht Hw. apply forallb_forall with (x := t) in Hf; [by rewrite Hw in Hf|].
  apply list_elem_of_In. by apply list_elem_of_lookup_2 in Ht.
Qed.

Lemma y3_eq : terminate_task_locked 0 7 y2 = Ok y3.
Proof.
  assert (is_ok (terminate_task_locked 0 7 y2) = true) as Hok by (by vm_compute). unfold y3.
  by destruct (terminate_task_locked 0 7 y2).
Qed.

Lemma run_load_step q c s : match ph (cpus s c) with Switching _ => true | _ => false end = true -> step q s (run_load c s).
Proof. unfold run_load. destruct (ph (cpus s c)) as [| |p|p] eqn:E; try done. intros _. by apply st_load. Qed.

Lemma run_publish_step q c s : match ph (cpus s c) with Switched _ => true | _ => false end = true -> step q s (run_publish c s).
Proof. unfold run_publish. destruct (ph (cpus s c)) as [| |p|p] eqn:E; try done. intros _. by apply st_publish. Qed.

Lemma reachable_step s s' : reachable true s -> step true s s' -> reachable true s'.
Proof.
  intros (n & k & st & r & sz & sp & fs & H1 & H2 & H3 & H4) Hs. exists n, k, st, r, sz, sp, fs.
  split_and!; try done; try lia. by eapply rtc_r.
Qed.

Lemma y2_quiet : quiet_join 0 y2.
Proof.
  intros i t Hi Ht. apply none_waits_quiet.
  assert (forallb (fun t0 => none_waits (waits (id t0)) y2) (tasks y2) = true) as Hall by (by vm_compute).
  apply (forallb_forall _ (tasks y2)) with (x := t) in Hall; [done|]. apply list_elem_of_In. by apply list_elem_of_lookup_2 in Ht.
Qed.

Lemma y6_reachable : reachable true y6.
Proof.
  apply (reachable_step y5); [|apply run_publish_step; by vm_compute].
  apply (reachable_step y4); [|apply run_load_step; by vm_compute].
  apply (reachable_step y3).
  2: { apply (st_switch true 0); [vm_compute; lia|right; by vm_compute| |apply run_switch_eq; by vm_compute].
       intros _ _. apply none_waits_quiet. by vm_compute. }
  apply (reachable_step y2).
  2: { apply (st_terminate true 0 7); [by vm_compute|vm_compute; lia|intros _; apply y2_quiet|apply y3_eq]. }
  apply (reachable_step y1); [|apply run_publish_step; by vm_compute].
  apply (reachable_step v1); [|apply run_load_step; by vm_compute]. apply v1_reachable.
Qed.

Lemma reap_safe_witness : exists t, tasks y6 !! 1%nat = Some t /\ kernel_stack_bottom t = 0x10000 /\
  (reaped t = reaped t /\ status t = Zombie /\ off_stack y6 1 /\
   forall c, cr3 (cpus y6 c) <> kernel_pml4 y6 ->
     exists j tj, j <> 1%nat /\ on (cpus y6 c) = Some j /\ tasks (reap_zombies y6) !! j = Some tj /\
       address_space tj = Some (cr3 (cpus y6 c))).
Proof.
  eexists. split; [vm_compute; reflexivity|]. split; [by vm_compute|].
  apply (reap_safe y6 1 _ _ y6_reachable); [vm_compute; reflexivity|vm_compute; reflexivity|vm_compute; discriminate].
Defined.
