(* ===== verification/Context.v ===== *)
(** The assembly of [context_switch] (src/src/process/mod.rs): registers and
    stack words, the frames a new task starts from, and the round trip of a
    task's registers over a switch away and back. *)

From S2P Require Import Prelude Frame Sched.

(** * Registers and stack words *)

Record regs : Type := mk_regs {
  r_rsi : Z; r_rdi : Z; r_rbp : Z; r_rbx : Z; r_r12 : Z; r_r13 : Z; r_r14 : Z; r_r15 : Z;
  r_rsp : Z;
  r_rip : Z;
}.

(** [push] of a list of values, the first pushed first. *)
Fixpoint push_all (m : mem) (sp : Z) (l : list Z) : mem * Z :=
  match l with
  | [] => (m, sp)
  | x :: l => push_all (write64 m (sp - 8) x) (sp - 8) l
  end.

(** [*sp = x] from the saved stack pointer upwards: how the frames of new tasks
    are laid out. *)
Fixpoint put_words (m : mem) (a : Z) (l : list Z) : mem :=
  match l with
  | [] => m
  | x :: l => write64 (put_words m (a + 8) l) a x
  end.

(** The instructions: eight pushes, the store of the stack pointer through
    [rdi], the load of the new one from [rsi], eight pops and the return.  The
    publication in between works on other memory ([Sched.context_publish]). *)
Definition context_switch (m : mem) (r : regs) : mem * regs :=
  let '(m, sp) := push_all m (r_rsp r)
                    [r_r15 r; r_r14 r; r_r13 r; r_r12 r; r_rbx r; r_rbp r; r_rdi r; r_rsi r] in
  let m := write64 m (r_rdi r) sp in
  let sp := r_rsi r in
  let w i := read64 m (sp + 8 * i) in
  (m, mk_regs (w 0) (w 1) (w 2) (w 3) (w 4) (w 5) (w 6) (w 7) (sp + 72) (w 8)).

(** * Lemmas *)

(** A word away from a range of memory. *)
Definition apart (a lo hi : Z) : Prop := a + 8 <= lo \/ hi <= a.

Lemma push_all_spec l m sp :
  Forall (fun x => 0 <= x < 2 ^ 64) l ->
  let '(m', sp') := push_all m sp l in
  sp' = sp - 8 * zlen l /\ (forall a, apart a sp' sp -> read64 m' a = read64 m a) /\
  forall i x, rev l !! i = Some x -> read64 m' (sp' + 8 * Z.of_nat i) = x.
Proof.
  revert m sp. induction l as [|x l IH]; intros m sp Hl; cbn [push_all].
  - split; [unfold zlen; simpl; lia|]. split; [done|]. by intros i x Hx.
  - apply Forall_cons in Hl as [Hx Hl]. specialize (IH (write64 m (sp - 8) x) (sp - 8) Hl).
    destruct (push_all (write64 m (sp - 8) x) (sp - 8) l) as [m' sp']. destruct IH as (Hsp & Hother & Hin).
    assert (sp' = sp - 8 * zlen (x :: l)) as Hsp' by (rewrite Hsp; unfold zlen; simpl; lia).
    split; [done|]. split.
    + intros a Ha. rewrite Hother, read64_write64_ne; [done|..]; unfold apart in *; pose proof (zlen_nonneg l); lia.
    + intros i y. simpl rev. intros Hy. destruct (decide (i < length (rev l))%nat) as [Hi|Hi].
      * rewrite lookup_app_l in Hy by done. by apply Hin.
      * rewrite lookup_app_r in Hy by lia. assert (i = length (rev l)) as ->.
        { apply lookup_lt_Some in Hy. simpl in Hy. lia. }
        rewrite Nat.sub_diag in Hy. injection Hy as <-. rewrite length_rev in *.
        assert (sp' + 8 * Z.of_nat (length l) = sp - 8) as -> by (rewrite Hsp; unfold zlen; lia).
        rewrite Hother by (unfold apart; lia). by apply read64_write64.
Qed.

Lemma put_words_spec l m a :
  Forall (fun x => 0 <= x < 2 ^ 64) l ->
  forall i x, l !! i = Some x -> read64 (put_words m a l) (a + 8 * Z.of_nat i) = x.
Proof.
  revert a. induction l as [|x l IH]; intros a Hl i y Hy; [done|]. apply Forall_cons in Hl as [Hx Hl].
  cbn [put_words]. destruct i as [|i]; simpl in Hy.
  - injection Hy as <-. rewrite Z.mul_0_r, Z.add_0_r. by apply read64_write64.
  - rewrite read64_write64_ne by lia. replace (a + 8 * Z.of_nat (S i)) with (a + 8 + 8 * Z.of_nat i) by lia. by apply IH.
Qed.

Definition regs_ok (r : regs) : Prop :=
  Forall (fun x => 0 <= x < 2 ^ 64) [r_r15 r; r_r14 r; r_r13 r; r_r12 r; r_rbx r; r_rbp r; r_rdi r; r_rsi r].

(** What a switch leaves in memory. *)
Lemma switch_saves m r :
  regs_ok r -> 72 <= r_rsp r < 2 ^ 64 -> apart (r_rdi r) (r_rsp r - 64) (r_rsp r + 8) ->
  let m' := (context_switch m r).1 in
  read64 m' (r_rdi r) = r_rsp r - 64 /\
  (forall i x, [r_rsi r; r_rdi r; r_rbp r; r_rbx r; r_r12 r; r_r13 r; r_r14 r; r_r15 r] !! i = Some x ->
    read64 m' (r_rsp r - 64 + 8 * Z.of_nat i) = x) /\
  (forall a, apart a (r_rsp r - 64) (r_rsp r) -> apart a (r_rdi r) (r_rdi r + 8) -> read64 m' a = read64 m a).
Proof.
  intros Hr Hsp Hap. unfold context_switch. pose proof (push_all_spec _ m (r_rsp r) Hr) as Hp.
  destruct (push_all m (r_rsp r) _) as [m1 sp1]. destruct Hp as (E & Hother & Hin).
  change (zlen _) with 8 in E. assert (sp1 = r_rsp r - 64) as -> by lia. cbn [fst]. clear E. split_and!.
  - apply read64_write64. lia.
  - intros i x Hx. pose proof (lookup_lt_Some _ _ _ Hx) as Hi. simpl in Hi. rewrite read64_write64_ne; [by apply Hin|].
    unfold apart in Hap. lia.
  - intros a Ha Ha'. rewrite read64_write64_ne; [by apply Hother|]. unfold apart in Ha'. lia.
Qed.

(** * Theorems *)

(** C37: A task that was switched away from resumes where it left: whoever
    switches back to the stack pointer saved for it, with the words of its
    stack as they were left, continues at the task's return address with its
    stack pointer and all the registers [context_switch] must preserve. *)
Theorem context_switch_resumes m r m2 r2 :
  regs_ok r -> 72 <= r_rsp r < 2 ^ 64 -> apart (r_rdi r) (r_rsp r - 64) (r_rsp r + 8) ->
  (forall a, r_rsp r - 64 <= a <= r_rsp r -> read64 m2 a = read64 (context_switch m r).1 a) ->
  regs_ok r2 -> 72 <= r_rsp r2 < 2 ^ 64 -> apart (r_rdi r2) (r_rsp r2 - 64) (r_rsp r2 + 8) ->
  r_rsi r2 = read64 (context_switch m r).1 (r_rdi r) ->
  r_rsp r2 <= r_rsp r - 64 \/ r_rsp r + 8 <= r_rsp r2 - 64 ->
  apart (r_rdi r2) (r_rsp r - 64) (r_rsp r + 8) ->
  (context_switch m2 r2).2 =
    mk_regs (r_rsi r) (r_rdi r) (r_rbp r) (r_rbx r) (r_r12 r) (r_r13 r) (r_r14 r) (r_r15 r)
      (r_rsp r + 8) (read64 m (r_rsp r)).
Proof.
  intros Hr Hsp Hap Hm2 Hr2 Hsp2 Hap2 Hrsi Hdis Hdis'.
  destruct (switch_saves m r Hr Hsp Hap) as (Hsaved & Hwords & Hkeep). rewrite Hsaved in Hrsi.
  destruct (switch_saves m2 r2 Hr2 Hsp2 Hap2) as (_ & _ & Hkeep2).
  set (m3 := (context_switch m2 r2).1) in *.
  assert (forall i x, [r_rsi r; r_rdi r; r_rbp r; r_rbx r; r_r12 r; r_r13 r; r_r14 r; r_r15 r] !! i = Some x ->
    read64 m3 (r_rsp r - 64 + 8 * Z.of_nat i) = x) as Hw.
  { intros i x Hx. pose proof (lookup_lt_Some _ _ _ Hx) as Hi. simpl in Hi.
    rewrite Hkeep2, Hm2; [by apply Hwords|lia|unfold apart in *; lia|unfold apart in *; lia]. }
  assert (read64 m3 (r_rsp r) = read64 m (r_rsp r)) as Hret.
  { rewrite Hkeep2, Hm2; [|lia|unfold apart in *; lia|unfold apart in *; lia].
    apply Hkeep; unfold apart in *; lia. }
  transitivity (mk_regs (read64 m3 (r_rsi r2 + 8 * 0)) (read64 m3 (r_rsi r2 + 8 * 1)) (read64 m3 (r_rsi r2 + 8 * 2))
    (read64 m3 (r_rsi r2 + 8 * 3)) (read64 m3 (r_rsi r2 + 8 * 4)) (read64 m3 (r_rsi r2 + 8 * 5)) (read64 m3 (r_rsi r2 + 8 * 6))
    (read64 m3 (r_rsi r2 + 8 * 7)) (r_rsi r2 + 72) (read64 m3 (r_rsi r2 + 8 * 8))).
  { unfold m3, context_switch. by destruct (push_all _ _ _). }
  rewrite Hrsi. f_equal; try (by apply (Hw 0%nat)); try (by apply (Hw 1%nat)); try (by apply (Hw 2%nat)); try (by apply (Hw 3%nat));
    try (by apply (Hw 4%nat)); try (by apply (Hw 5%nat)); try (by apply (Hw 6%nat)); try (by apply (Hw 7%nat)); [lia|].
  replace (r_rsp r - 64 + 8 * 8) with (r_rsp r) by lia. done.
Qed.

(** The words of a frame survive a switch by somebody else. *)
Lemma frame_kept l m sp r :
  Forall (fun x => 0 <= x < 2 ^ 64) l -> regs_ok r -> 72 <= r_rsp r < 2 ^ 64 ->
  apart (r_rdi r) (r_rsp r - 64) (r_rsp r + 8) ->
  r_rsp r <= sp \/ sp + 8 * zlen l <= r_rsp r - 64 -> apart (r_rdi r) sp (sp + 8 * zlen l) ->
  forall i x, l !! i = Some x -> read64 (context_switch (put_words m sp l) r).1 (sp + 8 * Z.of_nat i) = x.
Proof.
  intros Hl Hr Hsp Hap Hd Hd' i x Hx. pose proof (lookup_lt_Some _ _ _ Hx) as Hi.
  destruct (switch_saves (put_words m sp l) r Hr Hsp Hap) as (_ & _ & Hkeep).
  rewrite Hkeep; [by apply put_words_spec|..]; unfold apart, zlen in *; lia.
Qed.

(** A new user task is entered through the trampoline with its arguments in
    [rdi] and [rsi] and all other registers zero; what is left on its stack is
    the frame with which [iretq] enters the program at its entry point, on its
    own stack, in user mode. *)
Theorem user_task_starts trampoline cs ss rflags entry_point user_rsp rdi rsi heap size m r :
  let l := user_frame trampoline cs ss rflags entry_point user_rsp rdi rsi in
  let sp := heap + size - 8 * 14 in
  Forall (fun x => 0 <= x < 2 ^ 64) l -> regs_ok r -> 72 <= r_rsp r < 2 ^ 64 ->
  apart (r_rdi r) (r_rsp r - 64) (r_rsp r + 8) -> r_rsi r = sp ->
  r_rsp r <= sp \/ heap + size <= r_rsp r - 64 -> apart (r_rdi r) sp (heap + size) ->
  let '(m', r') := context_switch (put_words m sp l) r in
  r' = mk_regs rsi rdi 0 0 0 0 0 0 (sp + 72) trampoline /\
  (fun i => read64 m' (r_rsp r' + 8 * i)) <$> [0; 1; 2; 3; 4] = [entry_point; cs; rflags; user_rsp; ss].
Proof.
  intros l sp Hl Hr Hsp Hap Hrsi Hd Hd'.
  pose proof (frame_kept l m sp r Hl Hr Hsp Hap) as Hw. change (zlen l) with 14 in Hw.
  specialize (Hw ltac:(unfold sp in *; lia) ltac:(unfold apart, sp in *; lia)).
  destruct (context_switch (put_words m sp l) r) as [m' r'] eqn:E. cbn [fst] in Hw.
  assert (r' = mk_regs (read64 m' (sp + 8 * 0)) (read64 m' (sp + 8 * 1)) (read64 m' (sp + 8 * 2)) (read64 m' (sp + 8 * 3))
    (read64 m' (sp + 8 * 4)) (read64 m' (sp + 8 * 5)) (read64 m' (sp + 8 * 6)) (read64 m' (sp + 8 * 7)) (sp + 72)
    (read64 m' (sp + 8 * 8))) as ->.
  { unfold context_switch in E. destruct (push_all _ _ _) as [m1 sp1]. injection E as <- <-. by rewrite Hrsi. }
  split.
  - f_equal; [apply (Hw 0%nat)|apply (Hw 1%nat)|apply (Hw 2%nat)|apply (Hw 3%nat)|apply (Hw 4%nat)|apply (Hw 5%nat)|
      apply (Hw 6%nat)|apply (Hw 7%nat)|apply (Hw 8%nat)]; done.
  - cbn [fmap list_fmap r_rsp]. repeat f_equal.
    + replace (sp + 72 + 8 * 0) with (sp + 8 * Z.of_nat 9) by lia. by apply Hw.
    + replace (sp + 72 + 8 * 1) with (sp + 8 * Z.of_nat 10) by lia. by apply Hw.
    + replace (sp + 72 + 8 * 2) with (sp + 8 * Z.of_nat 11) by lia. by apply Hw.
    + replace (sp + 72 + 8 * 3) with (sp + 8 * Z.of_nat 12) by lia. by apply Hw.
    + replace (sp + 72 + 8 * 4) with (sp + 8 * Z.of_nat 13) by lia. by apply Hw.
Qed.

(** ** Witnesses *)

Definition demo_regs : regs := mk_regs 0x9000 0x100 3 4 5 6 7 8 0x5000 0.
Definition back_regs : regs := mk_regs (0x5000 - 64) 0x108 1 1 1 1 1 1 0x8000 0.
Definition demo_mem : mem := write64 (fun _ => 0) 0x5000 0x1234.

Lemma context_switch_resumes_witness :
  (context_switch (context_switch demo_mem demo_regs).1 back_regs).2 =
    mk_regs 0x9000 0x100 3 4 5 6 7 8 0x5008 0x1234.
Proof.
  rewrite (context_switch_resumes demo_mem demo_regs (context_switch demo_mem demo_regs).1 back_regs).
  - by vm_compute.
  - repeat constructor; vm_compute; (reflexivity || discriminate).
  - vm_compute; split; (reflexivity || discriminate).
  - left. by vm_compute.
  - done.
  - repeat constructor; vm_compute; (reflexivity || discriminate).
  - vm_compute; split; (reflexivity || discriminate).
  - left. by vm_compute.
  - by vm_compute.
  - right. by vm_compute.
  - left. by vm_compute.
Defined.

Lemma user_task_starts_witness :
  let l := user_frame 0x77 0x23 0x1b 0x202 0x400000 0x7fff0000 11 12 in
  let '(m', r') := context_switch (put_words (fun _ => 0) (0x6000 + 0x1000 - 8 * 14) l)
                     (mk_regs (0x6000 + 0x1000 - 8 * 14) 0x108 1 1 1 1 1 1 0x9000 0) in
  r' = mk_regs 12 11 0 0 0 0 0 0 (0x6000 + 0x1000 - 8 * 14 + 72) 0x77 /\
  (fun i => read64 m' (r_rsp r' + 8 * i)) <$> [0; 1; 2; 3; 4] = [0x400000; 0x23; 0x202; 0x7fff0000; 0x1b].
Proof.
  apply (user_task_starts 0x77 0x23 0x1b 0x202 0x400000 0x7fff0000 11 12 0x6000 0x1000 (fun _ => 0)
    (mk_regs (0x6000 + 0x1000 - 8 * 14) 0x108 1 1 1 1 1 1 0x9000 0)).
  - repeat constructor; vm_compute; (reflexivity || discriminate).
  - repeat constructor; vm_compute; (reflexivity || discriminate).
  - vm_compute; split; (reflexivity || discriminate).
  - left. by vm_compute.
  - done.
  - right. by vm_compute.
  - left. by vm_compute.
Defined.
