(* ===== verification/Syscall.v ===== *)
(** System calls: src/src/syscall.rs.

    The dispatcher and its handlers, on a state that puts the components
    together: physical memory and frames, the kernel heap, the file system and
    the descriptor tables, the scheduler and the address spaces.  A handler
    reads and writes the memory of its caller through the page table in CR3.

    A call that blocks, yields or ends the task leaves the dispatcher with a
    [pending] operation: the loops of Pipe, the sockets, the scheduler.  What it
    stores to its caller's memory afterwards is [finish]. *)

From S2P Require Import Prelude Utf8 BlockDev Fat FatList FatApi Pipe FileTable FileInv Frame Heap Paging Loader Sched Context.
Open Scope kmonad_scope.

(** ** The caller's memory *)

Definition USER_TOP : Z := 0x00007FFFFFFFFFFF.

Definition user_range_ok (m : mem) (root ptr len : Z) : bool :=
  if (ptr =? 0) || (USER_TOP <? ptr) then false else
  match checked_add64 ptr len with
  | None => false
  | Some fin => if USER_TOP <? fin then false else is_user_range_mapped m root ptr len
  end.

(** The processor's translation of an address, large pages included. *)
Fixpoint translate_walk (m : mem) (table address : Z) (shifts : list Z) : option Z :=
  match shifts with
  | [] => None
  | shift :: rest =>
      let e := entry m table (Z.land (Z.shiftr address shift) 511) in
      if Z.land e PAGE_PRESENT =? 0 then None
      else
        let frame := Z.land e ADDRESS_MASK in
        if shift =? 12 then Some (frame + address mod 4096)
        else if negb (Z.land e (Z.shiftl 1 7) =? 0) && negb (shift =? 39)
             then Some (frame - frame mod 2 ^ shift + address mod 2 ^ shift)
             else translate_walk m frame address rest
  end.

Definition translate (m : mem) (root address : Z) : option Z := translate_walk m root address [39; 30; 21; 12].

(** A program may use the byte at [address] itself. *)
Definition accessible (m : mem) (root address : Z) : bool :=
  (address <=? USER_TOP) && page_present m root (page_of address) (Z.lor PAGE_PRESENT PAGE_USER).

Definition load_user (m : mem) (root ptr len : Z) : list Z :=
  (fun a => default 0 (m <$> translate m root a)) <$> seqZ ptr len.

(** The bytes of [l] stored at [ptr], through the translation of [m0]. *)
Definition store_user (m0 : mem) (root ptr : Z) (l : list Z) (m : mem) : mem :=
  foldl (fun m ab => match translate m0 root ab.1 with Some p => store m p [ab.2] | None => m end) m
    (zip (seqZ ptr (zlen l)) l).

(** The selectors of gdt.rs. *)
Definition USER_DATA_SEL : Z := Z.lor 0x18 3.
Definition USER_CODE_SEL : Z := Z.lor 0x20 3.

(** ** State *)

(** What a handler leaves to the rest of the kernel. *)
Inductive pending : Type :=
| PRead (t : target) (ptr len : Z)
| PWrite (t : target) (data : list Z)
| PBind (s : nat) (port : Z)
| PConnect (t : target) (ip : list Z) (port : Z)
| PSendTo (s : nat) (dest : option (list Z * Z)) (data : list Z)
| PRecvFrom (s : nat) (ptr len addr_ptr : Z) (timeout : option Z)
| PSwitch
| PTerminate (exit_code : Z)
| PSleep (milliseconds : Z)
| PWait (task_id : Z)
| PApScheduler
| PDevice (id : Z)
| PPing (ip : list Z)
| PRecvPing (ptr len : Z)
| PDns (name : list Z).

Section syscall.
Context {D : Type} `{BlockDevice D} {BU : Build}.

(** [spaces] has the [AddressSpace] of each page table.  [fault] is not in the
    source: it records that a handler touched a byte its caller may not use.
    [cells] is what was drawn. *)
Record sys : Type := mk_sys {
  y_phys : phys;
  y_kern : kernel (D := D);
  y_sched : sched;
  y_heap : Heap.heap;
  y_spaces : gmap Z AddressSpace;
  y_cells : list (Z * Z * Z * Z * Z);
  y_fault : bool;
}.

Abbreviation Y := (M sys).

(** The processor the call runs on, the boot page table, and where a new task
    starts. *)
Context (c : nat) (kernel_pml4 trampoline : Z).

Definition cr3_of (y : sys) : Z := cr3 (cpus (y_sched y) c).

Definition in_phys {A} (m : P A) : Y A := fun y =>
  let '(p, r) := m (y_phys y) in
  (mk_sys p (y_kern y) (y_sched y) (y_heap y) (y_spaces y) (y_cells y) (y_fault y), r).
Definition in_kern {A} (m : M (kernel (D := D)) A) : Y A := fun y =>
  let '(k, r) := m (y_kern y) in
  (mk_sys (y_phys y) k (y_sched y) (y_heap y) (y_spaces y) (y_cells y) (y_fault y), r).
Definition in_heap {A} (m : M Heap.heap A) : Y A := fun y =>
  let '(h, r) := m (y_heap y) in
  (mk_sys (y_phys y) (y_kern y) (y_sched y) h (y_spaces y) (y_cells y) (y_fault y), r).
Definition in_sched {A} (f : sched -> sched * A) : Y A := fun y =>
  let '(s, a) := f (y_sched y) in
  (mk_sys (y_phys y) (y_kern y) s (y_heap y) (y_spaces y) (y_cells y) (y_fault y), Ok a).
Definition set_space (sp : AddressSpace) : Y unit :=
  modify (fun y => mk_sys (y_phys y) (y_kern y) (y_sched y) (y_heap y) (<[pml4 sp := sp]> (y_spaces y)) (y_cells y) (y_fault y)).
Definition draw (l : list (Z * Z * Z * Z * Z)) : Y unit :=
  modify (fun y => mk_sys (y_phys y) (y_kern y) (y_sched y) (y_heap y) (y_spaces y) (y_cells y ++ l) (y_fault y)).

(** The caller may use the bytes [[ptr, ptr + len)] itself. *)
Definition reachable (y : sys) (ptr len : Z) : bool :=
  forallb (accessible (pmem (y_phys y)) (cr3_of y)) (seqZ ptr len).

Definition touch (ptr len : Z) : Y unit :=
  modify (fun y => mk_sys (y_phys y) (y_kern y) (y_sched y) (y_heap y) (y_spaces y) (y_cells y)
    (y_fault y || negb (reachable y ptr len))).

Definition range_ok (ptr len : Z) : Y bool :=
  gets (fun y => user_range_ok (pmem (y_phys y)) (cr3_of y) ptr len).

(** [slice::from_raw_parts(ptr, len)] *)
Definition uload (ptr len : Z) : Y (list Z) :=
  run! touch ptr len in
  gets (fun y => load_user (pmem (y_phys y)) (cr3_of y) ptr len).

Definition write_pieces (l : list (Z * list Z)) (root : Z) (m : mem) : mem :=
  foldl (fun m' ab => store_user m root ab.1 ab.2 m') m l.

(** Several stores of one handler.  The tables they go through are those the
    range was checked with. *)
Definition ustores (l : list (Z * list Z)) : Y unit :=
  modify (fun y => mk_sys (mk_phys (write_pieces l (cr3_of y) (pmem (y_phys y))) (frames (y_phys y)))
    (y_kern y) (y_sched y) (y_heap y) (y_spaces y) (y_cells y)
    (y_fault y || negb (forallb (fun ab => reachable y ab.1 (zlen ab.2)) l))).

Definition ustore (ptr : Z) (l : list Z) : Y unit := ustores [(ptr, l)].

(** ** Results *)

Definition isize_max : Z := 2 ^ 63 - 1.
Definition to_isize (value : Z) : Z := if value <=? isize_max then value else isize_max.

(** [fd_result], for a call that may leave the dispatcher. *)
Definition fd_result (m : Y (Z + pending)) : Y (Z + pending) := fun y =>
  match m y with
  | (y, Ok (inl value)) => (y, Ok (inl (to_isize value)))
  | (y, Err e) => (y, Ok (inl (code e)))
  | r => r
  end.

Definition done_with (m : Y Z) : Y (Z + pending) := let! v := m in kret (inl v).
Definition ret (v : Z) : Y (Z + pending) := kret (inl v).
Definition later (p : pending) : Y (Z + pending) := kret (inr p).
Definition invalid : Y (Z + pending) := ret (code InvalidArgument).

Definition current_files : Y nat := fun y =>
  match Sched.current_files c (y_sched y) with
  | Some t => (y, Ok t)
  | None => (y, Err BadDescriptor)
  end.

(** [match f() { Ok(()) => 0, Err(e) => e.code() }] *)
Definition fs_status (m : M (fs D) unit) : Y Z := fun y =>
  match in_kern (in_fs m) y with
  | (y, Ok _) => (y, Ok 0)
  | (y, Err e) => (y, Ok (code e))
  | (y, Panic) => (y, Panic)
  | (y, Hang) => (y, Hang)
  end.

(** ** Handlers *)

(** What is printed is left out. *)
Definition sys_print (ptr len : Z) : Y unit :=
  let! ok := range_ok ptr len in
  if negb ok then kret tt else
  let! slice := uload ptr len in
  if Utf8.from_utf8 slice then kret tt
  else if zlen slice =? 0 then kpanic else kret tt.

Definition sys_heap_grow (bytes : Z) : Y Z :=
  let! space := gets (fun y => current_address_space c (y_sched y) ≫= (fun root => y_spaces y !! root)) in
  match space with
  | None => kret 0
  | Some sp =>
      let! (sp, r) := in_phys (grow_heap sp bytes) in
      run! set_space sp in
      kret (default 0 r)
  end.

Definition STACK_SIZE : Z := 16384.

(** [add_new_user_task]; [None] stands for [usize::MAX].  The bottom of the user
    stack is [user_rsp - stack_size]. *)
Definition add_user_task (entry_point user_rsp rdi rsi : Z) (space : option Z) (files : option nat) : Y (option Z) :=
  let! stack := in_heap (Heap.alloc STACK_SIZE) in
  run! (if stack =? 0 then kret 0 else arith64 (user_rsp - STACK_SIZE)) in
  let! id := in_sched (add_new_user_task stack user_rsp STACK_SIZE space files) in
  if stack =? 0 then kret None
  else
    run! in_heap (modify (fun h => Heap.set_mem (put_words (Heap.hmem h) (stack + STACK_SIZE - 8 * 14)
           (user_frame trampoline USER_CODE_SEL USER_DATA_SEL 0x202 entry_point user_rsp rdi rsi)) h)) in
    kret (Some id).

Definition or_max (r : option Z) : Z := default usize_max r.

Definition sys_add_task (entry user_rsp : Z) : Y Z :=
  let! space := gets (fun y => current_address_space c (y_sched y)) in
  let! files := gets (fun y => Sched.current_files c (y_sched y)) in
  let! r := add_user_task entry user_rsp 0 0 space files in
  kret (or_max r).

Definition sys_fsformat : Y Z := fs_status format.

Definition entry_size : Z := 64.

(** The fields of a [SyscallFileEntry]; the six bytes behind them are padding. *)
Definition file_entry (f : PublicFileEntry) : list Z :=
  let len := Z.min (zlen (pname f)) 47 in
  take (Z.to_nat len) (pname f) ++ zeros (47 - len) ++ [u8 len] ++ le_bytes 8 (psize f) ++ le_bytes 2 (pfirst f).

Definition entry_pieces (ptr : Z) (l : list PublicFileEntry) : list (Z * list Z) :=
  imap (fun i f => (ptr + entry_size * Z.of_nat i, file_entry f)) l.

Definition sys_fsls (buffer_ptr max_entries : Z) : Y Z := fun y =>
  match in_kern (in_fs list_files) y with
  | (y, Ok l) =>
      (if negb (buffer_ptr =? 0) && (0 <? max_entries) then
         let! buf_bytes := arith64 (max_entries * entry_size) in
         let! ok := range_ok buffer_ptr buf_bytes in
         if negb ok then kret (-1)
         else
           run! ustores (entry_pieces buffer_ptr (take (Z.to_nat (Z.min (zlen l) max_entries)) l)) in
           kret (zlen l)
       else kret (zlen l)) y
  | (y, Err e) => (y, Ok (code e))
  | (y, Panic) => (y, Panic)
  | (y, Hang) => (y, Hang)
  end.

(** The name at [ptr], if the caller may read it and it is UTF-8. *)
Definition user_str (ptr len : Z) : Y (option (list Z)) :=
  let! ok := range_ok ptr len in
  if negb ok then kret None else
  let! name := uload ptr len in
  kret (if Utf8.from_utf8 name then Some name else None).

Definition sys_fswrite (filename_ptr filename_len content_ptr content_len : Z) : Y Z :=
  let! filename := user_str filename_ptr filename_len in
  match filename with
  | None => kret (code InvalidArgument)
  | Some filename =>
      if content_len =? 0 then kret (code InvalidArgument) else
      let! ok := range_ok content_ptr content_len in
      if negb ok then kret (code InvalidArgument) else
      let! content := uload content_ptr content_len in
      fs_status (create_file filename content)
  end.

Definition copy_out (buffer_ptr buffer_len : Z) (data : list Z) : Y Z :=
  if (buffer_ptr =? 0) || (buffer_len =? 0) then kret (zlen data)
  else
    let copy_len := Z.min (zlen data) buffer_len in
    let! ok := range_ok buffer_ptr copy_len in
    if negb ok then kret (code InvalidArgument) else
    run! ustore buffer_ptr (take (Z.to_nat copy_len) data) in
    kret copy_len.

Definition sys_fsread (filename_ptr filename_len buffer_ptr buffer_len : Z) : Y Z :=
  let! filename := user_str filename_ptr filename_len in
  match filename with
  | None => kret (code InvalidArgument)
  | Some filename => fun y =>
      match in_kern (in_fs (read_file filename)) y with
      | (y, Ok data) => copy_out buffer_ptr buffer_len data y
      | (y, Err e) => (y, Ok (code e))
      | (y, Panic) => (y, Panic)
      | (y, Hang) => (y, Hang)
      end
  end.

Definition sys_fsrm (filename_ptr filename_len : Z) : Y Z :=
  let! filename := user_str filename_ptr filename_len in
  match filename with
  | None => kret (code InvalidArgument)
  | Some filename => fs_status (delete_file filename)
  end.

(** ** File descriptors *)

Definition on_files {A} (f : nat -> M (kernel (D := D)) A) : Y A :=
  let! t := current_files in in_kern (f t).

Definition fd_of (n : nat) : Y (Z + pending) := ret (Z.of_nat n).

Definition sys_open (path_ptr path_len fl : Z) : Y (Z + pending) :=
  if path_len =? 0 then invalid else
  let! path := user_str path_ptr path_len in
  match path with
  | None => invalid
  | Some path => fd_result (let! fd := on_files (fun t => FileTable.open t path fl) in fd_of fd)
  end.

(** A disk file is read here: the buffer is the caller's memory.  (After a
    device error the source may have filled some of it.) *)
Definition sys_read (fd buf_ptr buf_len : Z) : Y (Z + pending) :=
  if buf_len =? 0 then ret 0 else
  let! ok := range_ok buf_ptr buf_len in
  if negb ok then invalid else
  let! buf := uload buf_ptr buf_len in
  fd_result
    (let! r := on_files (fun t => FileTable.read t fd buf) in
     match r with
     | inl (n, buf) => run! ustore buf_ptr buf in ret n
     | inr t => later (PRead t buf_ptr buf_len)
     end).

Definition sys_write (fd buf_ptr buf_len : Z) : Y (Z + pending) :=
  if buf_len =? 0 then ret 0 else
  let! ok := range_ok buf_ptr buf_len in
  if negb ok then invalid else
  let! data := uload buf_ptr buf_len in
  fd_result
    (let! r := on_files (fun t => FileTable.write t fd data) in
     match r with
     | inl n => ret n
     | inr t => later (PWrite t data)
     end).

Definition sys_close (fd : Z) : Y (Z + pending) :=
  fd_result (run! on_files (fun t => FileTable.close t fd) in ret 0).

(** [x as isize] *)
Definition as_i64 (x : Z) : Z := if x <? 2 ^ 63 then x else x - 2 ^ 64.

Definition sys_seek (fd off whence : Z) : Y (Z + pending) :=
  fd_result (let! x := on_files (fun t => FileTable.seek t fd (as_i64 off) whence) in ret x).

Definition sys_pipe (fds_ptr : Z) : Y (Z + pending) :=
  let! ok := range_ok fds_ptr 16 in
  if negb ok || negb (fds_ptr mod 8 =? 0) then invalid else
  fd_result
    (let! (read_fd, write_fd) := on_files FileTable.pipe in
     run! ustore fds_ptr (le_bytes 8 (Z.of_nat read_fd) ++ le_bytes 8 (Z.of_nat write_fd)) in
     ret 0).

Definition sys_fd_kind (fd : Z) : Y (Z + pending) :=
  fd_result (let! x := on_files (fun t => FileTable.kind t fd) in ret x).

(** ** Sockets *)

(** [a.b.c.d] is [a | b << 8 | c << 16 | d << 24]. *)
Definition endpoint (ip_packed port : Z) : Y (list Z * Z) :=
  if u16_max <? port then kfail InvalidArgument
  else if u32_max <? ip_packed then kfail InvalidArgument
  else kret (le_bytes 4 ip_packed, port).

Definition sys_socket (kind : Z) : Y (Z + pending) :=
  fd_result (let! fd := on_files (fun t => FileTable.socket t kind) in fd_of fd).

Definition sys_bind (fd port : Z) : Y (Z + pending) :=
  if u16_max <? port then invalid else
  fd_result (let! s := on_files (fun t => udp t fd) in later (PBind s port)).

Definition sys_connect (fd ip_packed port : Z) : Y (Z + pending) :=
  fd_result
    (let! (ip, port) := endpoint ip_packed port in
     let! t := on_files (fun t => FileTable.connect t fd) in
     later (PConnect t ip port)).

Definition sys_sendto (fd buf_ptr buf_len ip_packed port : Z) : Y (Z + pending) :=
  let! ok := (if buf_len =? 0 then kret true else range_ok buf_ptr buf_len) in
  if negb ok then invalid else
  let! data := (if buf_len =? 0 then kret [] else uload buf_ptr buf_len) in
  fd_result
    (let! dest := (if (ip_packed =? 0) && (port =? 0) then kret None
                   else let! e := endpoint ip_packed port in kret (Some e)) in
     let! s := on_files (fun t => udp t fd) in
     later (PSendTo s dest data)).

(** [timeout_ms.div_ceil(10)] ticks *)
Definition sys_recvfrom (fd buf_ptr buf_len addr_ptr timeout_ms : Z) : Y (Z + pending) :=
  let! ok := (if buf_len =? 0 then kret true else range_ok buf_ptr buf_len) in
  if negb ok then invalid else
  let! ok := (if addr_ptr =? 0 then kret true
              else let! ok := range_ok addr_ptr 8 in kret (ok && (addr_ptr mod 4 =? 0))) in
  if negb ok then invalid else
  fd_result
    (let! s := on_files (fun t => udp t fd) in
     later (PRecvFrom s buf_ptr buf_len addr_ptr
              (if timeout_ms =? 0 then None else Some ((timeout_ms + 9) / 10)))).

(** ** Programs *)

(** [Arc::new] of a table with three consoles. *)
Definition new_console : Y nat :=
  in_kern (fun k => (mk_kernel (kfs k) (kpipes k) (ksocks k) (knext k) (ktabs k ++ [with_console]), Ok (length (ktabs k)))).

Definition exec_args (args_ptr args_len : Z) : Y (option (list Z)) :=
  if (args_ptr =? 0) || (args_len =? 0) then kret (Some []) else
  let! ok := range_ok args_ptr args_len in
  if negb ok then kret None else
  let! args := uload args_ptr args_len in
  kret (Some args).

(** Everything behind the file: the new space goes away again on an error. *)
Definition exec_image (file_data args : list Z) (t : nat) : Y (option Z) :=
  let! space := in_phys (space_new kernel_pml4) in
  match space with
  | None => kret None
  | Some space =>
      let! loaded := in_phys (load_kef file_data (pml4 space) args) in
      match loaded with
      | inl _ => run! in_phys (space_drop space) in kret None
      | inr (entry_point, user_rsp, args_ptr) =>
          let! r := add_user_task entry_point user_rsp args_ptr (zlen args) (Some (pml4 space)) (Some t) in
          match r with
          | None => run! in_phys (space_drop space) in kret None
          | Some id => run! set_space space in kret (Some id)
          end
      end
  end.

Definition exec_file (filename_ptr filename_len : Z) (args : list Z) (t : nat) : Y (option Z) :=
  if (filename_ptr =? 0) || (filename_len =? 0) || (255 <? filename_len) then kret None else
  let! filename := user_str filename_ptr filename_len in
  match filename with
  | None => kret None
  | Some filename => fun y =>
      match in_kern (in_fs (read_file filename)) y with
      | (y, Ok file_data) => exec_image file_data args t y
      | (y, Err _) => (y, Ok None)
      | (y, Panic) => (y, Panic)
      | (y, Hang) => (y, Hang)
      end
  end.

(** The table [t] is the child's alone: without a child it is dropped. *)
Definition exec_program (filename_ptr filename_len : Z) (args : list Z) (t : nat) : Y Z :=
  let! r := exec_file filename_ptr filename_len args t in
  run! (match r with None => in_kern (drop_table t) | Some _ => kret tt end) in
  kret (or_max r).

Definition sys_exec (filename_ptr filename_len : Z) : Y Z :=
  let! t := new_console in exec_program filename_ptr filename_len [] t.

Definition sys_exec2 (filename_ptr filename_len args_ptr args_len : Z) : Y Z :=
  let! args := exec_args args_ptr args_len in
  match args with
  | None => kret usize_max
  | Some args => let! t := new_console in exec_program filename_ptr filename_len args t
  end.

Definition words (l : list Z) : list Z :=
  [le_val (slice 0 8 l); le_val (slice 8 16 l); le_val (slice 16 24 l)].

Definition sys_spawn (filename_ptr filename_len args_ptr args_len stdio_ptr : Z) : Y Z :=
  let! args := exec_args args_ptr args_len in
  match args with
  | None => kret usize_max
  | Some args =>
      let! ok := range_ok stdio_ptr 24 in
      if negb ok || negb (stdio_ptr mod 8 =? 0) then kret usize_max else
      let! stdio := uload stdio_ptr 24 in
      fun y =>
        match on_files (fun t => inherit t (words stdio)) y with
        | (y, Ok t) => exec_program filename_ptr filename_len args t y
        | (y, Err _) => (y, Ok usize_max)
        | (y, Panic) => (y, Panic)
        | (y, Hang) => (y, Hang)
        end
  end.

(** ** Drawing *)

(** [char::from_u32] *)
Definition is_char (x : Z) : bool := (x <? 0xD800) || ((0xE000 <=? x) && (x <=? 0x10FFFF)).

Definition sys_write_cell (row col char_code fg bg : Z) : Y unit :=
  if is_char (u32 char_code) then draw [(row, col, u32 char_code, u32 fg, u32 bg)] else kret tt.

Definition word32 (raw : list Z) (i : Z) : Z := le_val (slice (4 * i) (4 * i + 4) raw).

(** One round of the loop over the cells, and the loop. *)
Definition write_region_cell (row col width : Z) (raw : list Z) (i : Z) : Y unit :=
  if is_char (word32 raw (i * 3)) then
    let! cell_row := arith64 (row + i / width) in
    let! cell_col := arith64 (col + i mod width) in
    draw [(cell_row, cell_col, word32 raw (i * 3), word32 raw (i * 3 + 1), word32 raw (i * 3 + 2))]
  else kret tt.

Fixpoint write_region_cells (row col width : Z) (raw : list Z) (cells : list Z) : Y unit :=
  match cells with
  | [] => kret tt
  | i :: cells => run! write_region_cell row col width raw i in write_region_cells row col width raw cells
  end.

Definition sys_write_region (row col ptr len width : Z) : Y unit :=
  if width =? 0 then kret tt else
  if (ptr =? 0) || (USER_TOP <? ptr) then kret tt else
  let byte_len := len * 12 in
  if u64_max <? byte_len then kret tt else
  match checked_add64 ptr byte_len with
  | None => kret tt
  | Some fin =>
      if USER_TOP <? fin then kret tt else
      let! ok := range_ok ptr byte_len in
      if negb ok then kret tt else
      let! raw := uload ptr byte_len in
      write_region_cells row col width raw (seqZ 0 len)
  end.

(** ** The network *)

Definition sys_net_send_ping (dst_ip_packed : Z) : Y (Z + pending) :=
  later (PPing (le_bytes 4 (dst_ip_packed mod 2 ^ 32))).

Definition sys_net_recv_ping (buf_ptr buf_len : Z) : Y (Z + pending) :=
  if (buf_ptr =? 0) || (buf_len =? 0) then ret 0 else
  let! ok := range_ok buf_ptr buf_len in
  if negb ok then ret 0 else later (PRecvPing buf_ptr buf_len).

Definition sys_dns_resolve (name_ptr name_len : Z) : Y (Z + pending) :=
  if (name_len =? 0) || (253 <? name_len) then ret 0 else
  let! name := user_str name_ptr name_len in
  match name with
  | None => ret 0
  | Some name => later (PDns name)
  end.

(** ** The dispatcher *)

Definition syscall_dispatcher_impl (id arg1 arg2 arg3 arg4 arg5 : Z) : Y (Z + pending) :=
  let unit_call (m : Y unit) := (run! m in ret 0) in
  let as_usize (m : Y (Z + pending)) := (let! r := m in match r with inl v => ret (u64 v) | inr p => later p end) in
  match id with
  | 0 => unit_call (sys_print arg1 arg2)
  | 1 | 2 | 10 => ret 0
  | 3 => done_with (sys_add_task arg1 arg2)
  | 4 => later PSwitch
  | 5 => later (PTerminate arg1)
  | 6 | 7 | 8 | 9 => later (PDevice id)
  | 11 => as_usize (done_with sys_fsformat)
  | 12 => as_usize (done_with (sys_fsls arg1 arg2))
  | 13 => as_usize (done_with (sys_fswrite arg1 arg2 arg3 arg4))
  | 14 => as_usize (done_with (sys_fsread arg1 arg2 arg3 arg4))
  | 15 => as_usize (done_with (sys_fsrm arg1 arg2))
  | 16 => let! s := gets y_sched in ret (get_task_status arg1 s)
  | 17 => let! s := gets y_sched in ret (get_task_exit_code arg1 s)
  | 18 => later PApScheduler
  | 19 => unit_call (sys_write_cell arg1 arg2 arg3 arg4 arg5)
  | 20 => unit_call (sys_write_region arg1 arg2 arg3 arg4 arg5)
  | 21 => done_with (sys_exec arg1 arg2)
  | 22 => done_with (sys_exec2 arg1 arg2 arg3 arg4)
  | 23 => sys_net_send_ping arg1
  | 24 => sys_net_recv_ping arg1 arg2
  | 25 => later (PSleep arg1)
  | 26 => later (PWait arg1)
  | 27 => sys_dns_resolve arg1 arg2
  | 28 => done_with (sys_heap_grow arg1)
  | 29 => as_usize (sys_open arg1 arg2 arg3)
  | 30 => as_usize (sys_read arg1 arg2 arg3)
  | 31 => as_usize (sys_write arg1 arg2 arg3)
  | 32 => as_usize (sys_close arg1)
  | 33 => as_usize (sys_seek arg1 arg2 arg3)
  | 34 => as_usize (sys_pipe arg1)
  | 35 => done_with (sys_spawn arg1 arg2 arg3 arg4 arg5)
  | 36 => as_usize (sys_fd_kind arg1)
  | 37 => as_usize (sys_socket arg1)
  | 38 => as_usize (sys_bind arg1 arg2)
  | 39 => as_usize (sys_connect arg1 arg2 arg3)
  | 40 => as_usize (sys_sendto arg1 arg2 arg3 arg4 arg5)
  | 41 => as_usize (sys_recvfrom arg1 arg2 arg3 arg4 arg5)
  | _ => ret usize_max
  end.

(** ** Waking up *)

(** The ranges of the caller's memory a pending operation will write to. *)
Definition ranges (p : pending) : list (Z * Z) :=
  match p with
  | PRead _ ptr len | PRecvPing ptr len => [(ptr, len)]
  | PRecvFrom _ ptr len addr_ptr _ =>
      (if len =? 0 then [] else [(ptr, len)]) ++ (if addr_ptr =? 0 then [] else [(addr_ptr, 8)])
  | _ => []
  end.

(** What a handler stores when the operation it waited for has delivered
    [data], a datagram with its sender: as much as fits into the slice the
    handler made of the caller's buffer, and the [SockAddr] of the sender.  The
    task may have moved to another processor meanwhile. *)
Definition finish (p : pending) (data : list Z) (from : list Z * Z) : Y Z :=
  match p with
  | PRead _ ptr len | PRecvPing ptr len =>
      run! ustore ptr (take (Z.to_nat len) data) in kret (Z.min len (zlen data))
  | PRecvFrom _ ptr len addr_ptr _ =>
      run! ustores ((if len =? 0 then [] else [(ptr, take (Z.to_nat len) data)]) ++
                    (if addr_ptr =? 0 then [] else [(addr_ptr, from.1 ++ le_bytes 2 from.2 ++ [0; 0])])) in
      kret (Z.min len (zlen data))
  | _ => kret 0
  end.

End syscall.
