(* ===== verification/SyscallMem.v ===== *)
(** The memory of a system call's caller: what the range check guarantees, and
    what a load or a store does to an address space. *)

From S2P Require Import Prelude BlockDev Fat FileTable Frame FrameProofs Heap Paging PagingProofs Space SpaceDrop SpaceHeap SpaceTheorems Loader Sched Syscall.
Open Scope kmonad_scope.
Implicit Types (T : tree) (m : mem) (p : phys) (B : gset Z).

(** * The range check *)

Lemma user_range_ok_spec m root ptr len :
  0 <= ptr -> 0 <= len -> user_range_ok m root ptr len = true ->
  ptr + len <= USER_TOP /\ forall a, ptr <= a < ptr + len -> accessible m root a = true.
Proof.
  intros Hp Hl. unfold user_range_ok, checked_add64, is_user_range_mapped.
  destruct ((ptr =? 0) || (USER_TOP <? ptr)); [done|]. destruct (ptr + len <=? u64_max); [|done].
  destruct (Z.ltb_spec USER_TOP (ptr + len)) as [|Htop]; [done|].
  intros [->|(_ & _ & _ & Ha)]%range_mapped_spec; [split; [lia|]; intros a Ha; lia| |done|done].
  split; [done|]. intros a Hin. unfold accessible. rewrite (Ha a Hin), andb_true_r. apply Z.leb_le. lia.
Qed.

Lemma user_range_ok_forallb m root ptr len :
  0 <= ptr -> 0 <= len -> user_range_ok m root ptr len = true -> forallb (accessible m root) (seqZ ptr len) = true.
Proof.
  intros Hp Hl Hok. apply forallb_forall. intros a Ha%list_elem_of_In%elem_of_seqZ.
  by apply (user_range_ok_spec m root ptr len).
Qed.

(** * Translation *)

Section translation.
Context `{KernelHalf}.

Lemma translate_table m root T k t virt shift rest :
  Space m root T -> T !! k = Some t -> (length k <= 2)%nat -> idx_ok k (index virt shift) -> shift <> 12 ->
  translate_walk m t virt (shift :: rest) =
    match T !! (index virt shift :: k) with
    | Some t' => translate_walk m t' virt rest
    | None => None
    end.
Proof.
  intros HS Hk Hl Hi Hsh. cbn [translate_walk].
  change (Z.land (Z.shiftr virt shift) 511) with (index virt shift).
  rewrite (sp_entry _ _ _ HS k t) by (done || lia). destruct (T !! (index virt shift :: k)) as [t'|] eqn:E; [|done].
  rewrite decide_False by lia.
  assert (frame_ok t') as Hf by (apply (sp_table _ _ _ HS _ t' E); simpl; lia).
  destruct (table_bits t' Hf) as [_ ->]. destruct (table_entry t' Hf) as (Hp & _ & -> & _).
  unfold present in Hp. apply negb_true_iff in Hp. rewrite Hp.
  destruct (Z.eqb_spec shift 12); [done|]. done.
Qed.

(** The processor finds the byte of the tree. *)
Lemma translate_tree m root T virt :
  Space m root T -> user virt ->
  translate m root virt = (fun e => Z.land e ADDRESS_MASK + virt mod 4096) <$> T !! path virt.
Proof.
  intros HS Hu. unfold translate.
  unfold path, table_path.
  assert (forall pre k, T !! k = None -> T !! (pre ++ k) = None) as Hnone.
  { intros pre k Hk. apply eq_None_not_Some. intros [x Hx].
    destruct (sp_ancestor _ _ _ _ _ _ HS Hx). congruence. }
  assert (forall k s, k <> [] -> idx_ok k (index virt s)) as Hi by (intros k s Hk; split; [apply index_range|done]).
  rewrite (translate_table m root T [] root) by
    (done || apply (sp_root _ _ _ HS) || (simpl; lia) || (split; [apply index_range|intros _; by apply index_user])).
  destruct (T !! [index virt 39]) as [t1|] eqn:E1; [|pose proof (Hnone [index virt 12; index virt 21; index virt 30] _ E1) as E0; cbn [app] in E0; by rewrite E0].
  rewrite (translate_table m root T [index virt 39] t1) by (done || (simpl; lia) || by apply Hi).
  destruct (T !! [index virt 30; index virt 39]) as [t2|] eqn:E2; [|pose proof (Hnone [index virt 12; index virt 21] _ E2) as E0; cbn [app] in E0; by rewrite E0].
  rewrite (translate_table m root T [index virt 30; index virt 39] t2) by (done || (simpl; lia) || by apply Hi).
  destruct (T !! [index virt 21; index virt 30; index virt 39]) as [t3|] eqn:E3; [|pose proof (Hnone [index virt 12] _ E3) as E0; cbn [app] in E0; by rewrite E0].
  cbn [translate_walk]. change (Z.land (Z.shiftr virt 12) 511) with (index virt 12).
  rewrite (sp_entry _ _ _ HS _ t3 _ E3) by (simpl; lia || by apply Hi).
  destruct (T !! [index virt 12; _; _; _]) as [e|] eqn:E; [|done].
  destruct (sp_leaf _ _ _ HS _ e E eq_refl) as (Hp & _). rewrite decide_True by done.
  unfold present in Hp. apply negb_true_iff in Hp. by rewrite Hp.
Qed.

(** Addresses below the top of user space that are not in the user slots go
    through the kernel's entries. *)
Lemma index_kernel a : 0 <= a <= USER_TOP -> ~ user a -> 0 <= index a 39 < 512 /\ ~ 128 <= index a 39 < 256.
Proof.
  intros Ha Hu. split; [apply index_range|]. replace 39 with (12 + 9 * 3) by lia. rewrite index_div by lia.
  unfold user in Hu. change USER_SPACE_START with (2 ^ 46) in Hu. change USER_SPACE_END with (2 ^ 47) in Hu.
  unfold USER_TOP in Ha. dlia.
Qed.

Lemma user_page a : user a <-> user (page_of a).
Proof.
  unfold user, page_of. change USER_SPACE_START with (2 ^ 46). change USER_SPACE_END with (2 ^ 47). dlia.
Qed.

(** The pages there are those of the boot page table. *)
Lemma page_present_kernel m root T kernel a required :
  Space m root T -> kernel_half m kernel -> 0 <= a <= USER_TOP -> ~ user a ->
  page_present m root a required = page_present m kernel a required.
Proof.
  intros HS Hk Ha Hu. destruct (index_kernel a Ha Hu) as [Hi Hn]. unfold page_present. cbn [present_walk].
  change (Z.land (Z.shiftr a 39) 511) with (index a 39).
  by rewrite (sp_shared _ _ _ HS), (Hk _ Hi Hn).
Qed.

(** * Stores *)

Lemma store_byte_other m a x b : b <> a -> store m a [x] b = m b.
Proof. intros Hb. apply store_other. change (zlen [x]) with 1. lia. Qed.

(** A byte that changes is the translation of an address of the range. *)
Lemma store_user_other m0 root ptr l m b :
  store_user m0 root ptr l m b = m b \/ exists a, ptr <= a < ptr + zlen l /\ translate m0 root a = Some b.
Proof.
  unfold store_user. set (pairs := zip (seqZ ptr (zlen l)) l).
  assert (forall a x, (a, x) ∈ pairs -> ptr <= a < ptr + zlen l) as Hin.
  { intros a x Hx. apply elem_of_zip_l in Hx. by apply elem_of_seqZ in Hx. }
  revert m. induction pairs as [|[a x] pairs IH]; intros m; [by left|]. cbn [foldl fst snd].
  destruct (IH ltac:(intros a' x' H'; apply (Hin a' x'); by right) (match translate m0 root a with Some q => store m q [x] | None => m end))
    as [->|Hb]; [|by right].
  destruct (translate m0 root a) as [q|] eqn:E; [|by left]. destruct (decide (b = q)) as [->|Hne].
  - right. exists a. split; [apply (Hin a x); left|done].
  - left. by apply store_byte_other.
Qed.

Lemma write_pieces_other l root m b :
  write_pieces l root m b = m b \/
  exists ab a, ab ∈ l /\ ab.1 <= a < ab.1 + zlen ab.2 /\ translate m root a = Some b.
Proof.
  unfold write_pieces. generalize m at 2 3 as m1. induction l as [|ab l IH]; intros m1; [by left|]. cbn [foldl].
  destruct (IH (store_user m root ab.1 ab.2 m1)) as [->|(ab' & a & Hin & Hr)]; [|right; exists ab', a; split; [by right|done]].
  destruct (store_user_other m root ab.1 ab.2 m1 b) as [?|(a & Ha & Ht)]; [by left|right]. exists ab, a. split; [left|done].
Qed.

(** A store through addresses of the user half goes to pages of the space. *)
Lemma user_store_page m root T a b :
  Space m root T -> user a -> translate m root a = Some b ->
  exists e, T !! path a = Some e /\ Z.land e ADDRESS_MASK <= b < Z.land e ADDRESS_MASK + PAGE_SIZE.
Proof.
  intros HS Hu Ht. rewrite (translate_tree m root T a HS Hu) in Ht. apply fmap_Some in Ht as (e & He & ->).
  exists e. split; [done|]. pose proof (Z.mod_pos_bound a 4096 ltac:(lia)). unfold PAGE_SIZE. lia.
Qed.

(** Writing to its pages keeps a space and all frames of the others. *)
Lemma Owns_pages p root T av B m' :
  Owns p root T av B ->
  (forall b, m' b = pmem p b \/
     exists k e, T !! k = Some e /\ length k = 4%nat /\ Z.land e ADDRESS_MASK <= b < Z.land e ADDRESS_MASK + PAGE_SIZE) ->
  Owns (mk_phys m' (frames p)) root T av B /\ agree B (pmem p) m'.
Proof.
  intros [HP HS HD] Hm.
  assert (forall k e, T !! k = Some e -> length k = 4%nat -> node_frame k e = Z.land e ADDRESS_MASK) as Hnf.
  { intros k e _ Hl. unfold node_frame. by rewrite decide_True. }
  assert (forall k e, T !! k = Some e -> length k = 4%nat -> Z.land e ADDRESS_MASK ∈ owned T) as Hown.
  { intros k e He Hl. apply elem_of_owned. exists k, e. split; [done|by apply Hnf]. }
  split; [split; simpl; [| |done]|].
  - apply pool_write; [done|]. intros b. destruct (Hm b) as [?|(k & e & He & Hl & Hb)]; [by left|right].
    exists (Z.land e ADDRESS_MASK). split; [apply elem_of_union_l; by apply (Hown k)|done].
  - apply Space_ext with (pmem p); [done|]. intros k t b Hk Hl Hb. destruct (Hm b) as [?|(k' & e & He & Hl' & Hb')]; [done|].
    exfalso. apply (frames_apart t (Z.land e ADDRESS_MASK) b); [by apply (sp_table _ _ _ HS k)| | |done|done].
    + apply (pl_ok _ _ _ HP). right. apply elem_of_union_l. by apply (Hown k').
    + intros ->. assert (k = k') as ->; [|lia].
      apply (sp_inj _ _ _ HS k k' _ e Hk He). rewrite (Hnf k' e) by done. by apply node_frame_table.
  - intros f b Hf Hb. destruct (Hm b) as [?|(k & e & He & Hl & Hb')]; [done|]. exfalso.
    apply (frames_apart f (Z.land e ADDRESS_MASK) b); [| | |done|done].
    + apply (pl_ok _ _ _ HP). right. by apply elem_of_union_r.
    + apply (pl_ok _ _ _ HP). right. apply elem_of_union_l. by apply (Hown k).
    + intros ->. apply (HD (Z.land e ADDRESS_MASK)); [by apply (Hown k)|done].
Qed.

End translation.
