(* ===== verification/SyscallInv.v ===== *)
(** Address spaces side by side.

    [Spaces p ss T av K]: every address space of [ss] has the tree [T] gives
    it, the trees and the kernel's own frames [K] are disjoint, together they
    are the frames in use, and no page of the kernel half is open to programs.
    Replacing, adding or dropping one space leaves the others as they are. *)

From S2P Require Import Prelude Frame FrameProofs Paging PagingProofs Space SpaceDrop SpaceHeap SpaceTheorems Loader Syscall SyscallMem.
Open Scope kmonad_scope.
Implicit Types (T : Z -> tree) (m : mem) (p : phys) (K : gset Z) (ss : gmap Z AddressSpace).

Section spaces.
Context `{KernelHalf} (kernel_pml4 : Z).

Definition frames_of (R : gset Z) T K : gset Z := K ∪ set_bind (fun r => owned (T r)) R.

Lemma elem_of_frames_of R T K f : f ∈ frames_of R T K <-> f ∈ K \/ exists r, r ∈ R /\ f ∈ owned (T r).
Proof. unfold frames_of. by rewrite elem_of_union, elem_of_set_bind. Qed.

(** No address outside the user slots is open to programs, as long as the
    frames [K] are not written. *)
Definition private K m : Prop :=
  forall m', agree K m m' -> forall a, 0 <= a <= USER_TOP -> ~ user a -> page_present m' kernel_pml4 a USER_BITS = false.

Record Spaces p ss T (av : list Z) K : Prop := {
  ss_pool : Pool p av (frames_of (dom ss) T K);
  ss_space r sp : ss !! r = Some sp -> pml4 sp = r /\ Space (pmem p) r (T r) /\ heap_ok sp (T r);
  ss_apart r r' : r ∈ dom ss -> r' ∈ dom ss -> r <> r' -> owned (T r) ## owned (T r');
  ss_out r : r ∈ dom ss -> owned (T r) ## K;
  ss_kernel : kernel_pml4 ∈ K;
  ss_words : words_ok (pmem p) kernel_pml4;
  ss_half : kernel_half (pmem p) kernel_pml4;
  ss_private : private K (pmem p);
}.

(** The frames of everybody but [r]. *)
Definition others ss T K (r : Z) : gset Z := frames_of (dom ss ∖ {[r]}) T K.

Lemma Spaces_Owns p ss T av K r sp :
  Spaces p ss T av K -> ss !! r = Some sp -> Owns p r (T r) av (others ss T K r).
Proof.
  intros HS Hr. assert (r ∈ dom ss) as Hd by (by apply elem_of_dom_2 in Hr).
  destruct (ss_space _ _ _ _ _ HS r sp Hr) as (_ & HSp & _). split; [|done|].
  - replace (owned (T r) ∪ others ss T K r) with (frames_of (dom ss) T K); [apply HS|].
    apply set_eq. intros f. unfold others. rewrite elem_of_union, !elem_of_frames_of. split.
    + intros [?|(r' & Hr' & Hf)]; [by right; left|]. destruct (decide (r' = r)) as [->|Hne]; [by left|].
      right. right. exists r'. split; [set_solver|done].
    + intros [Hf|[?|(r' & Hr' & Hf)]]; [right; by exists r|by left|right]. exists r'. split; [set_solver|done].
  - intros f Hf. unfold others. rewrite elem_of_frames_of. intros [HK|(r' & Hr' & Hf')].
    + by apply (ss_out _ _ _ _ _ HS r Hd f).
    + apply (ss_apart _ _ _ _ _ HS r r' Hd ltac:(set_solver) ltac:(set_solver) f Hf Hf').
Qed.

Lemma kernel_agree K m m' : kernel_pml4 ∈ K -> agree K m m' ->
  (forall i, 0 <= i < 512 -> entry m' kernel_pml4 i = entry m kernel_pml4 i) /\ (private K m -> private K m').
Proof.
  intros HK Ha. split.
  - intros i Hi. apply entry_agree; [|done]. apply (agree_mono K); [set_solver|done].
  - intros Hp m2 Ha2. apply Hp. intros f b Hf Hb. by rewrite (Ha2 f b Hf Hb), (Ha f b Hf Hb).
Qed.

(** Spaces whose tables are not written stay. *)
Lemma Space_agree m m' (root : Z) (T : tree) (F : gset Z) : Space m root T -> owned T ⊆ F -> agree F m m' -> Space m' root T.
Proof.
  intros HS HF Ha. apply Space_ext with m; [done|]. intros k t b Hk Hl Hb. apply (Ha t b); [|done].
  apply HF, elem_of_owned. exists k, t. by rewrite node_frame_table.
Qed.

(** One space, old or new, gets a tree of its own. *)
Lemma Spaces_insert p ss T (av : list Z) K (p' : phys) (r : Z) (sp : AddressSpace) (T1 : tree) (av' : list Z) :
  Spaces p ss T av K ->
  Owns p' r T1 av' (others ss T K r) -> agree (others ss T K r) (pmem p) (pmem p') -> pml4 sp = r -> heap_ok sp T1 ->
  Spaces p' (<[r := sp]> ss) (<[r := T1]> T) av' K.
Proof.
  intros HS [HP HSp HD] Ha Hsp Hh.
  assert (forall r', r' <> r -> r' ∈ dom ss -> owned (T r') ⊆ others ss T K r) as Hsub.
  { intros r' Hne Hr' f Hf. apply elem_of_frames_of. right. exists r'. split; [set_solver|done]. }
  assert (agree K (pmem p) (pmem p')) as HaK.
  { apply (agree_mono (others ss T K r)); [|done]. intros f Hf. apply elem_of_frames_of. by left. }
  destruct (kernel_agree K _ _ (ss_kernel _ _ _ _ _ HS) HaK) as [He Hpr].
  assert (forall r', r' <> r -> (<[r := T1]> T) r' = T r') as Hne by (intros; by apply fn_lookup_insert_ne).
  assert ((<[r := T1]> T) r = T1) as Heq by apply fn_lookup_insert.
  split.
  - rewrite dom_insert_L. replace (frames_of ({[r]} ∪ dom ss) (<[r := T1]> T) K) with (owned T1 ∪ others ss T K r); [done|].
    apply set_eq. intros f. unfold others. rewrite elem_of_union, !elem_of_frames_of. split.
    + intros [Hf|[?|(r' & Hr' & Hf)]]; [right; exists r; rewrite Heq; split; [set_solver|done]|by left|right].
      exists r'. rewrite Hne by set_solver. split; [set_solver|done].
    + intros [?|(r' & Hr' & Hf)]; [by right; left|]. destruct (decide (r' = r)) as [->|Hn]; [left; by rewrite Heq in Hf|].
      rewrite Hne in Hf by done. right. right. exists r'. split; [set_solver|done].
  - intros r' sp' [[<- <-]|[Hn Hr']]%lookup_insert_Some; [by rewrite Heq|]. rewrite Hne by done.
    destruct (ss_space _ _ _ _ _ HS r' sp' Hr') as (? & HSp' & ?). split_and!; [done| |done].
    apply (Space_agree (pmem p) _ _ _ (others ss T K r)); [done| |done]. apply Hsub; [done|by apply elem_of_dom_2 in Hr'].
  - intros r1 r2. rewrite dom_insert_L. intros H1 H2 Hn.
    destruct (decide (r1 = r)) as [->|Hn1], (decide (r2 = r)) as [->|Hn2]; [done|..].
    + rewrite Heq, Hne by done. intros f Hf Hf2. apply (HD f Hf), (Hsub r2); [done|set_solver|done].
    + rewrite Heq, Hne by done. intros f Hf Hf2. apply (HD f Hf2), (Hsub r1); [done|set_solver|done].
    + rewrite !Hne by done. apply (ss_apart _ _ _ _ _ HS); set_solver.
  - intros r'. rewrite dom_insert_L. intros Hr'. destruct (decide (r' = r)) as [->|Hn].
    + rewrite Heq. intros f Hf HK. apply (HD f Hf). apply elem_of_frames_of. by left.
    + rewrite Hne by done. apply (ss_out _ _ _ _ _ HS). set_solver.
  - apply HS.
  - intros i Hi. rewrite He by done. by apply (ss_words _ _ _ _ _ HS).
  - intros i Hi Hn. rewrite He by done. by apply (ss_half _ _ _ _ _ HS).
  - by apply Hpr, HS.
Qed.

(** Frames were used and given back. *)
Lemma Spaces_frames p ss T av K p' av' :
  Spaces p ss T av K -> Pool p' av' (frames_of (dom ss) T K) -> agree (frames_of (dom ss) T K) (pmem p) (pmem p') ->
  Spaces p' ss T av' K.
Proof.
  intros HS HP Ha. assert (agree K (pmem p) (pmem p')) as HaK.
  { apply (agree_mono (frames_of (dom ss) T K)); [|done]. intros f Hf. apply elem_of_frames_of. by left. }
  destruct (kernel_agree K _ _ (ss_kernel _ _ _ _ _ HS) HaK) as [He Hpr].
  split; [done| |by apply (ss_apart _ _ _ _ _ HS)|by apply (ss_out _ _ _ _ _ HS)|apply HS| | |by apply Hpr, HS].
  - intros r sp Hr. destruct (ss_space _ _ _ _ _ HS r sp Hr) as (? & HSp & ?). split_and!; [done| |done].
    apply (Space_agree (pmem p) _ _ _ (frames_of (dom ss) T K)); [done| |done].
    intros f Hf. apply elem_of_frames_of. right. exists r. split; [by apply elem_of_dom_2 in Hr|done].
  - intros i Hi. rewrite He by done. by apply (ss_words _ _ _ _ _ HS).
  - intros i Hi Hn. rewrite He by done. by apply (ss_half _ _ _ _ _ HS).
Qed.

(** What a program sees depends on the frames of its tree. *)
Lemma user_byte_agree p p' (T : tree) (v : Z) (F : gset Z) m (root : Z) :
  Space m root T -> owned T ⊆ F -> agree F (pmem p) (pmem p') -> user_byte p' T v = user_byte p T v.
Proof.
  intros HS HF Ha. unfold user_byte. destruct (T !! path v) as [e|] eqn:E; [|done].
  cbn [fmap option_fmap option_map]. do 2 f_equal. apply (Ha (Z.land e ADDRESS_MASK)).
  - apply HF, elem_of_owned. exists (path v), e. split; [done|]. unfold node_frame. by rewrite decide_True.
  - pose proof (Z.mod_pos_bound v 4096 ltac:(lia)). unfold PAGE_SIZE. lia.
Qed.

(** An accessible address is one of the user slots, on a page of the space. *)
Lemma accessible_user p ss T av K r sp a :
  Spaces p ss T av K -> ss !! r = Some sp -> 0 <= a -> accessible (pmem p) r a = true -> user a.
Proof.
  intros HS Hr Ha Hacc. unfold accessible in Hacc. apply andb_true_iff in Hacc as [Htop%Z.leb_le Hp].
  destruct (decide (USER_SPACE_START <= a < USER_SPACE_END)) as [Hu|Hu]; [done|]. exfalso.
  destruct (ss_space _ _ _ _ _ HS r sp Hr) as (_ & HSp & _).
  assert (0 <= page_of a <= USER_TOP) as Hpa by (unfold page_of; dlia).
  rewrite (page_present_kernel _ _ _ _ _ _ HSp (ss_half _ _ _ _ _ HS)) in Hp by (done || by rewrite <- user_page).
  change (Z.lor PAGE_PRESENT PAGE_USER) with USER_BITS in Hp.
  rewrite (ss_private _ _ _ _ _ HS (pmem p)) in Hp; [done|by intros f b|done|by rewrite <- user_page].
Qed.

End spaces.
