(* ===== verification/SyscallAct.v ===== *)
(** What a system call does to memory.

    Whatever its arguments, a call does one of four things to physical memory:
    nothing, a store through checked addresses, growing the caller's heap, or
    building a new program; and a call that waits has checked the buffers it
    will store to.  The one exception is [sys_fsls] in a build without overflow
    checks, with a size that does not fit 64 bits ([args_ok]). *)

From S2P Require Import Prelude Utf8 BlockDev Fat FatList FatApi FileTable FileInv Frame Heap Paging Loader Sched Syscall SyscallMem.
Open Scope kmonad_scope.

Section act.
Context {D : Type} `{BlockDevice D} {BU : Build}.
Context (c : nat) (kernel_pml4 trampoline : Z).
Abbreviation sys := (sys (D := D)).
Abbreviation Y := (M sys).
Abbreviation reachable := (Syscall.reachable c).
Abbreviation exec_image := (Syscall.exec_image kernel_pml4 trampoline).
Abbreviation sys_heap_grow := (Syscall.sys_heap_grow c).

(** * Steps that leave memory alone *)

Record quiet (y y' : sys) : Prop := {
  q_phys : y_phys y' = y_phys y;
  q_spaces : y_spaces y' = y_spaces y;
  q_fault : y_fault y' = y_fault y;
  q_cpus : cpus (y_sched y') = cpus (y_sched y);
  q_space : current_address_space c (y_sched y') = current_address_space c (y_sched y);
  q_heap : y_heap y' = y_heap y;
}.

#[global] Instance quiet_preorder : PreOrder quiet.
Proof.
  split; [by split|]. intros y1 y2 y3 [] []. split; congruence.
Qed.

Definition quietly {A} (m : Y A) : Prop := forall y, quiet y (m y).1.

Lemma quietly_ret {A} (a : A) : quietly (kret a).
Proof. by intros y. Qed.

Lemma quietly_fail {A} e : quietly (kfail (A := A) e).
Proof. by intros y. Qed.

Lemma quietly_panic {A} : quietly (kpanic (A := A)).
Proof. by intros y. Qed.

Lemma quietly_gets {A} (f : sys -> A) : quietly (gets f).
Proof. by intros y. Qed.

Lemma quietly_bind {A B} (m : Y A) (k : A -> Y B) : quietly m -> (forall a, quietly (k a)) -> quietly (kbind m k).
Proof.
  intros Hm Hk y. specialize (Hm y). unfold kbind. destruct (m y) as [y1 [a|e| |]]; try done.
  simpl in Hm. etrans; [exact Hm|apply Hk].
Qed.

Lemma quietly_in_kern {A} (m : M (kernel (D := D)) A) : quietly (in_kern m).
Proof. intros y. unfold in_kern. by destruct (m (y_kern y)). Qed.

Lemma quietly_arith64 x : quietly (arith64 x).
Proof. intros y. unfold arith64. destruct (_ && _); [done|]. by destruct overflow_checks. Qed.

Lemma quietly_draw l : quietly (draw l).
Proof. done. Qed.

Lemma quietly_current_files : quietly (current_files c).
Proof. intros y. unfold current_files. by destruct (Sched.current_files c (y_sched y)). Qed.

Lemma quietly_fs_status m : quietly (fs_status m).
Proof.
  intros y. pose proof (quietly_in_kern (in_fs m) y) as Hq. unfold fs_status.
  by destruct (in_kern (in_fs m) y) as [y1 [a|e| |]].
Qed.

(** * One action *)

Inductive act (y : sys) : sys -> Prop :=
| act_none : act y y
| act_write l : Forall (fun ab => 0 <= ab.1 /\ reachable y ab.1 (zlen ab.2) = true) l -> act y (ustores c l y).1
| act_grow bytes : 0 <= bytes <= u64_max -> act y (sys_heap_grow bytes y).1
| act_exec data args t : bytes_ok data -> act y (exec_image data args t y).1
| act_task entry rsp rdi rsi space files : act y (add_user_task trampoline entry rsp rdi rsi space files y).1.

Definition effect (y y' : sys) : Prop := exists y1 y2, quiet y y1 /\ act y1 y2 /\ quiet y2 y'.

Lemma quiet_effect y y' : quiet y y' -> effect y y'.
Proof. intros Hq. exists y, y. split_and!; [done|constructor|done]. Qed.

Lemma act_effect y y' : act y y' -> effect y y'.
Proof. intros Ha. by exists y, y'. Qed.

Definition acts {A} (y : sys) (m : Y A) : Prop := effect y (m y).1.

Lemma acts_quietly {A} y (m : Y A) : quietly m -> acts y m.
Proof. intros Hm. apply quiet_effect, Hm. Qed.

(** A quiet step first: what follows starts from where it ends. *)
Lemma acts_after {A B} y (m : Y A) (k : A -> Y B) :
  quietly m -> (forall a y1, m y = (y1, Ok a) -> acts y1 (k a)) -> acts y (kbind m k).
Proof.
  intros Hm Hk. specialize (Hm y). unfold acts, kbind. destruct (m y) as [y1 [a|e| |]] eqn:E; simpl in Hm;
    [|by apply quiet_effect..].
  destruct (Hk a y1 eq_refl) as (y2 & y3 & H1 & H2 & H3). exists y2, y3. split_and!; [by etrans|done|done].
Qed.

(** A quiet step last. *)
Lemma acts_then {A B} y (m : Y A) (k : A -> Y B) :
  acts y m -> (forall a, quietly (k a)) -> acts y (kbind m k).
Proof.
  intros (y1 & y2 & H1 & H2 & H3) Hk. unfold acts, kbind. exists y1, y2. split_and!; [done|done|].
  destruct (m y) as [y3 [a|e| |]]; try done. etrans; [exact H3|apply Hk].
Qed.

(** A step that changes nothing at all. *)
Lemma acts_same {A B} y (m : Y A) (k : A -> Y B) a : m y = (y, Ok a) -> acts y (k a) -> acts y (kbind m k).
Proof. intros Hm Hk. unfold acts. by rewrite (kbind_Ok _ _ _ _ _ Hm). Qed.

Lemma fd_result_fst m y : (fd_result m y).1 = (m y).1 :> sys.
Proof. unfold fd_result. by destruct (m y) as [y1 [[v|p]|e| |]]. Qed.

Lemma acts_fd_result y m : acts y m -> acts y (fd_result m).
Proof. unfold acts. by rewrite fd_result_fst. Qed.

Lemma quietly_fd_result m : quietly m -> quietly (fd_result m).
Proof. intros Hm y. rewrite fd_result_fst. apply Hm. Qed.

(** * Loads *)

Lemma touch_reachable (y : sys) ptr len : reachable y ptr len = true -> touch c ptr len y = (y, Ok tt).
Proof. intros Hr. unfold touch, modify. rewrite Hr, orb_false_r. by destruct y. Qed.

Lemma uload_reachable (y : sys) ptr len :
  reachable y ptr len = true -> uload c ptr len y = (y, Ok (load_user (pmem (y_phys y)) (cr3_of c y) ptr len)).
Proof. intros Hr. unfold uload. by rewrite (kbind_Ok _ _ _ _ _ (touch_reachable y ptr len Hr)). Qed.

Lemma range_reachable (y : sys) ptr len :
  0 <= ptr -> 0 <= len -> user_range_ok (pmem (y_phys y)) (cr3_of c y) ptr len = true -> reachable y ptr len = true.
Proof. apply user_range_ok_forallb. Qed.

Lemma reachable_quiet (y y' : sys) ptr len : quiet y y' -> reachable y' ptr len = reachable y ptr len.
Proof. intros []. unfold Syscall.reachable, cr3_of. congruence. Qed.

Lemma acts_range {B} y ptr len (k : bool -> Y B) :
  0 <= ptr -> 0 <= len ->
  acts y (k false) -> (reachable y ptr len = true -> acts y (k true)) -> acts y (kbind (range_ok c ptr len) k).
Proof.
  intros Hp Hl Hf Ht. unfold range_ok. eapply acts_same; [reflexivity|].
  destruct (user_range_ok _ _ ptr len) eqn:E; [|done]. by apply Ht, range_reachable.
Qed.

Lemma acts_uload {B} y ptr len (k : list Z -> Y B) :
  reachable y ptr len = true -> acts y (k (load_user (pmem (y_phys y)) (cr3_of c y) ptr len)) ->
  acts y (kbind (uload c ptr len) k).
Proof. intros Hr. apply acts_same. by apply uload_reachable. Qed.

Lemma acts_user_str {B} y ptr len (k : option (list Z) -> Y B) :
  0 <= ptr -> 0 <= len -> (forall o, acts y (k o)) -> acts y (kbind (user_str c ptr len) k).
Proof.
  intros Hp Hl Hk. unfold acts, user_str. rewrite kbind_assoc. apply acts_range; [done|done|apply Hk|].
  intros Hr. unfold acts. cbn [negb]. rewrite kbind_assoc. apply acts_uload; [done|]. apply Hk.
Qed.

(** * The handlers *)

Lemma quietly_on_files {A} (f : nat -> M (kernel (D := D)) A) : quietly (on_files c f).
Proof. apply quietly_bind; [apply quietly_current_files|intros t; apply quietly_in_kern]. Qed.

Create HintDb quietly.
#[local] Hint Resolve quietly_ret quietly_fail quietly_panic quietly_gets quietly_bind quietly_in_kern quietly_draw
  quietly_current_files quietly_fs_status quietly_fd_result quietly_on_files quietly_arith64 : quietly.
#[local] Hint Unfold done_with ret later invalid fd_of sys_close sys_seek sys_fd_kind sys_socket sys_net_send_ping
  sys_fsformat : quietly.

Ltac quietly := cbn [negb orb andb]; autounfold with quietly; intros; solve [auto 6 with quietly].

Lemma acts_print y ptr len : 0 <= ptr -> 0 <= len -> acts y (sys_print c ptr len).
Proof.
  intros Hp Hl. apply acts_range; [done|done|apply acts_quietly; quietly|]. intros Hr. cbn [negb].
  apply acts_uload; [done|]. apply acts_quietly. destruct (Utf8.from_utf8 _); [quietly|]. destruct (_ =? 0); quietly.
Qed.

Lemma acts_ustores y l : Forall (fun ab => 0 <= ab.1 /\ reachable y ab.1 (zlen ab.2) = true) l -> acts y (ustores c l).
Proof. intros Hl. by apply act_effect, act_write. Qed.

Lemma acts_ustore y ptr l : 0 <= ptr -> reachable y ptr (zlen l) = true -> acts y (ustore c ptr l).
Proof. intros Hp Hl. apply acts_ustores. by repeat constructor. Qed.

(** A part of what was checked. *)
Lemma reachable_sub (y : sys) ptr len ptr' len' :
  reachable y ptr len = true -> ptr <= ptr' -> ptr' + len' <= ptr + len -> reachable y ptr' len' = true.
Proof.
  unfold Syscall.reachable. rewrite !forallb_forall. intros Hr H1 H2 a Ha%list_elem_of_In%elem_of_seqZ.
  apply Hr, list_elem_of_In, elem_of_seqZ. lia.
Qed.

Lemma file_entry_len f : zlen (file_entry f) <= entry_size.
Proof.
  unfold file_entry. set (len := Z.min _ _). assert (0 <= len <= 47) as Hlen by (unfold len; pose proof (zlen_nonneg (pname f)); lia).
  rewrite !zlen_app, zlen_zeros by lia. change (zlen [_]) with 1.
  assert (zlen (le_bytes 8 (psize f)) = 8 /\ zlen (le_bytes 2 (pfirst f)) = 2) as [-> ->] by done.
  assert (zlen (take (Z.to_nat len) (pname f)) <= len) by (unfold zlen; rewrite length_take; lia). unfold entry_size. lia.
Qed.

(** The entries that are written lie in the range that was checked. *)
Lemma acts_entries y buffer_ptr max_entries l :
  0 <= buffer_ptr -> 0 <= max_entries -> reachable y buffer_ptr (max_entries * entry_size) = true ->
  acts y (ustores c (entry_pieces buffer_ptr (take (Z.to_nat (Z.min (zlen l) max_entries)) l))).
Proof.
  intros Hp Hn Hr. apply acts_ustores, Forall_lookup. intros i [a b] Hi. unfold entry_pieces in Hi.
  rewrite list_lookup_imap in Hi. apply fmap_Some in Hi as (f & Hi & [= -> ->]).
  apply lookup_lt_Some in Hi as Hlt. rewrite length_take in Hlt. pose proof (file_entry_len f).
  split; [unfold entry_size; simpl; lia|]. apply (reachable_sub _ _ _ _ _ Hr); unfold entry_size in *; simpl; lia.
Qed.

Lemma acts_fsls y buffer_ptr max_entries :
  0 <= buffer_ptr -> 0 <= max_entries -> (overflow_checks = false -> max_entries * entry_size < 2 ^ 64) ->
  acts y (sys_fsls c buffer_ptr max_entries).
Proof.
  intros Hp Hn Hfit. unfold acts, sys_fsls. pose proof (quietly_in_kern (in_fs list_files) y) as Hq.
  destruct (in_kern (in_fs list_files) y) as [y1 [l|e| |]]; simpl in Hq; [|by apply quiet_effect..].
  assert (forall m : Y Z, acts y1 m -> effect y (m y1).1) as Hfrom.
  { intros m (y2 & y3 & H1 & H2 & H3). exists y2, y3. split_and!; [by etrans|done|done]. }
  apply Hfrom. destruct (_ && _); [|apply acts_quietly; quietly].
  assert (0 <= max_entries * entry_size) as H0 by (unfold entry_size; lia).
  destruct (Z.leb_spec (max_entries * entry_size) u64_max) as [Hle|Hgt].
  - eapply acts_same; [by apply arith64_small|]. apply acts_range; [done|done|apply acts_quietly; quietly|].
    intros Hr. cbn [negb]. apply acts_then; [by apply acts_entries|quietly].
  - unfold acts, arith64, kbind. rewrite (proj2 (Z.leb_le 0 _)), (proj2 (Z.leb_gt _ u64_max)) by done. cbn [andb].
    destruct overflow_checks; [by apply quiet_effect|]. specialize (Hfit eq_refl). unfold u64_max in Hgt. lia.
Qed.

Lemma acts_fswrite y p1 l1 p2 l2 :
  0 <= p1 -> 0 <= l1 -> 0 <= p2 -> 0 <= l2 -> acts y (sys_fswrite c p1 l1 p2 l2).
Proof.
  intros. apply acts_user_str; [done|done|]. intros [name|]; [|apply acts_quietly; quietly].
  destruct (l2 =? 0); [apply acts_quietly; quietly|]. apply acts_range; [done|done|apply acts_quietly; quietly|].
  intros Hr. cbn [negb]. apply acts_uload; [done|]. apply acts_quietly. quietly.
Qed.

Lemma acts_copy_out y ptr len data : 0 <= ptr -> 0 <= len -> acts y (copy_out c ptr len data).
Proof.
  intros Hp Hl. unfold copy_out. destruct (_ || _); [apply acts_quietly; quietly|].
  pose proof (zlen_nonneg data). apply acts_range; [done|lia|apply acts_quietly; quietly|]. intros Hr. cbn [negb].
  apply acts_then; [|quietly]. apply acts_ustore; [done|]. apply (reachable_sub _ _ _ _ _ Hr); [lia|].
  unfold zlen. rewrite length_take. lia.
Qed.

(** The effects of a computation that starts after a quiet step. *)
Lemma acts_kern {A B} y (m : M (kernel (D := D)) A) (ok : A -> Y B) (err : FsError -> Y B) :
  (forall a y1, in_kern m y = (y1, Ok a) -> acts y1 (ok a)) -> (forall e, quietly (err e)) ->
  acts y (fun y => match in_kern m y with
                   | (y, Ok a) => ok a y
                   | (y, Err e) => err e y
                   | (y, Panic) => (y, Panic)
                   | (y, Hang) => (y, Hang)
                   end).
Proof.
  intros Hok Herr. unfold acts. pose proof (quietly_in_kern m y) as Hq.
  destruct (in_kern m y) as [y1 [a|e| |]]; simpl in Hq;
    [|apply quiet_effect; etrans; [exact Hq|apply Herr]|by apply quiet_effect..].
  destruct (Hok a y1 eq_refl) as (y2 & y3 & H1 & H2 & H3). exists y2, y3. split_and!; [by etrans|done|done].
Qed.

Lemma acts_fsread y p1 l1 p2 l2 :
  0 <= p1 -> 0 <= l1 -> 0 <= p2 -> 0 <= l2 -> acts y (sys_fsread c p1 l1 p2 l2).
Proof.
  intros. apply acts_user_str; [done|done|]. intros [name|]; [|apply acts_quietly; quietly].
  apply (acts_kern y _ (copy_out c p2 l2) (fun e => kret (code e))); [|quietly]. intros data y1 _. by apply acts_copy_out.
Qed.

Lemma acts_fsrm y ptr len : 0 <= ptr -> 0 <= len -> acts y (sys_fsrm c ptr len).
Proof.
  intros. apply acts_user_str; [done|done|]. intros [name|]; apply acts_quietly; quietly.
Qed.

Lemma acts_open y ptr len fl : 0 <= ptr -> 0 <= len -> acts y (sys_open c ptr len fl).
Proof.
  intros. unfold sys_open. destruct (_ =? 0); [apply acts_quietly; quietly|].
  apply acts_user_str; [done|done|]. intros [name|]; apply acts_quietly; quietly.
Qed.

(** A read leaves the length of the buffer. *)
Lemma read_len t fd buf (k k' : kernel (D := D)) n buf' :
  FileTable.read t fd buf k = (k', Ok (inl (n, buf'))) -> zlen buf' = zlen buf.
Proof.
  unfold FileTable.read. intros Hrun. apply kbind_inv_Ok in Hrun as (l & k1 & _ & Hrun).
  destruct (get_fd l fd) as [[|f|p|p|s|s]|]; try done.
  destruct (has _ _); [|done]. apply kbind_inv_Ok in Hrun as ([n1 b1] & k2 & H1 & Hrun).
  apply kbind_inv_Ok in Hrun as (u & k3 & _ & Hrun). injection Hrun as _ _ <-.
  unfold in_fs in H1. destruct (read_at_unlocked _ _ _ (kfs k1)) as [s2 r2] eqn:E. injection H1 as _ ->.
  by apply (read_at_len _ _ _ _ _ _ _ E).
Qed.

Lemma on_files_Ok {A} (f : nat -> M (kernel (D := D)) A) (y y1 : sys) a :
  on_files c f y = (y1, Ok a) -> exists t k', f t (y_kern y) = (k', Ok a).
Proof.
  unfold on_files. intros Hrun. apply kbind_inv_Ok in Hrun as (t & y2 & H1 & H2).
  unfold current_files in H1. destruct (Sched.current_files c (y_sched y)); [|done]. injection H1 as <- <-.
  unfold in_kern in H2. exists n. destruct (f n (y_kern y)) as [k' r]. injection H2 as _ ->. by exists k'.
Qed.

Lemma acts_read y fd ptr len : 0 <= ptr -> 0 <= len -> acts y (sys_read c fd ptr len).
Proof.
  intros Hp Hl. unfold sys_read. destruct (len =? 0); [apply acts_quietly; quietly|].
  apply acts_range; [done|done|apply acts_quietly; quietly|]. intros Hr. cbn [negb].
  apply acts_uload; [done|]. apply acts_fd_result, acts_after; [quietly|].
  intros r y1 Hrun. pose proof (quietly_on_files (fun t => FileTable.read t fd (load_user (pmem (y_phys y)) (cr3_of c y) ptr len)) y) as Hq.
  rewrite Hrun in Hq. apply on_files_Ok in Hrun as (t & k' & Hrun). destruct r as [[n buf]|t']; [|apply acts_quietly; quietly].
  apply acts_then; [|quietly]. apply acts_ustore; [done|]. rewrite (reachable_quiet y y1 _ _ Hq), (read_len _ _ _ _ _ _ _ Hrun).
  unfold load_user, zlen. rewrite length_fmap, length_seqZ, Z2Nat.id by done. done.
Qed.

Lemma acts_write y fd ptr len : 0 <= ptr -> 0 <= len -> acts y (sys_write c fd ptr len).
Proof.
  intros Hp Hl. unfold sys_write. destruct (len =? 0); [apply acts_quietly; quietly|].
  apply acts_range; [done|done|apply acts_quietly; quietly|]. intros Hr. cbn [negb].
  apply acts_uload; [done|]. apply acts_quietly, quietly_fd_result, quietly_bind; [quietly|]. intros [n|t]; quietly.
Qed.

Lemma acts_pipe y ptr : 0 <= ptr -> acts y (sys_pipe c ptr).
Proof.
  intros Hp. apply acts_range; [done|done|apply acts_quietly; quietly|]. intros Hr. cbn [negb orb].
  destruct (negb _); [apply acts_quietly; quietly|]. apply acts_fd_result, acts_after; [quietly|].
  intros [rd wr] y1 Hrun. pose proof (quietly_on_files FileTable.pipe y) as Hq. rewrite Hrun in Hq.
  apply acts_then; [|quietly]. apply acts_ustore; [done|]. by rewrite (reachable_quiet y y1 _ _ Hq).
Qed.

Lemma quietly_endpoint ip port : quietly (endpoint ip port).
Proof. unfold endpoint. destruct (_ <? _); [quietly|]. destruct (_ <? _); quietly. Qed.
#[local] Hint Resolve quietly_endpoint : quietly.

Lemma quietly_bind_port fd port : quietly (sys_bind c fd port).
Proof. unfold sys_bind. destruct (_ <? _); quietly. Qed.

Lemma quietly_connect fd ip port : quietly (sys_connect c fd ip port).
Proof. unfold sys_connect. apply quietly_fd_result, quietly_bind; [quietly|]. intros [? ?]. quietly. Qed.

Lemma acts_sendto y fd ptr len ip port : 0 <= ptr -> 0 <= len -> acts y (sys_sendto c fd ptr len ip port).
Proof.
  intros Hp Hl. unfold sys_sendto.
  assert (forall data, quietly (fd_result
    (let! dest := (if (ip =? 0) && (port =? 0) then kret None else let! e := endpoint ip port in kret (Some e)) in
     let! s := on_files c (fun t => udp t fd) in later (PSendTo s dest data)))) as Hq.
  { intros data. apply quietly_fd_result, quietly_bind; [destruct (_ && _); quietly|quietly]. }
  destruct (len =? 0).
  - eapply acts_same; [reflexivity|]. eapply acts_same; [reflexivity|]. apply acts_quietly, Hq.
  - apply acts_range; [done|done|apply acts_quietly; quietly|]. intros Hr. cbn [negb].
    apply acts_uload; [done|]. apply acts_quietly, Hq.
Qed.

Lemma quietly_recvfrom fd ptr len addr timeout : quietly (sys_recvfrom c fd ptr len addr timeout).
Proof.
  unfold sys_recvfrom, range_ok. apply quietly_bind; [destruct (_ =? 0); quietly|]. intros [|]; [|quietly]. cbn [negb].
  apply quietly_bind; [destruct (addr =? 0); quietly|]. intros [|]; quietly.
Qed.

(** ** Programs *)

Abbreviation holds_bytes y := (disk_bytes (kfs (y_kern y))).

Lemma acts_exec_file y ptr len args t :
  holds_bytes y -> 0 <= ptr -> 0 <= len -> acts y (exec_file c kernel_pml4 trampoline ptr len args t).
Proof.
  intros Hd Hp Hl. unfold exec_file. destruct (_ || _); [apply acts_quietly; quietly|].
  apply acts_user_str; [done|done|]. intros [name|]; [|apply acts_quietly; quietly].
  apply (acts_kern y _ (fun data => exec_image data args t) (fun _ => kret None)); [|quietly].
  intros data y1 Hrun. apply act_effect, act_exec. unfold in_kern, in_fs in Hrun.
  destruct (read_file name (kfs (y_kern y))) as [s' r] eqn:E. injection Hrun as _ ->.
  by apply (read_file_bytes _ _ _ _ Hd E).
Qed.

Lemma acts_exec_program y ptr len args t :
  holds_bytes y -> 0 <= ptr -> 0 <= len -> acts y (exec_program c kernel_pml4 trampoline ptr len args t).
Proof.
  intros Hd Hp Hl. apply acts_then; [by apply acts_exec_file|]. intros [id|]; quietly.
Qed.

Lemma acts_new_console_exec y ptr len args :
  holds_bytes y -> 0 <= ptr -> 0 <= len ->
  acts y (let! t := new_console in exec_program c kernel_pml4 trampoline ptr len args t).
Proof.
  intros Hd Hp Hl. apply acts_after; [apply quietly_in_kern|]. intros t y1 [= <- _]. by apply acts_exec_program.
Qed.

Lemma acts_args {B} y ptr len (k : option (list Z) -> Y B) :
  0 <= ptr -> 0 <= len -> (forall o, acts y (k o)) -> acts y (kbind (exec_args c ptr len) k).
Proof.
  intros Hp Hl Hk. unfold exec_args. destruct (_ || _); [apply Hk|].
  unfold acts. rewrite kbind_assoc. apply acts_range; [done|done|apply Hk|].
  intros Hr. unfold acts. cbn [negb]. rewrite kbind_assoc. apply acts_uload; [done|]. apply Hk.
Qed.

Lemma clone_kfs f (k : kernel (D := D)) : kfs (clone_file f k).1 = kfs k.
Proof. by destruct f. Qed.

Lemma drop_kfs f (k : kernel (D := D)) : kfs (drop_file f k).1 = kfs k.
Proof. by destruct f. Qed.

Lemma inherit_kfs t stdio (k : kernel (D := D)) : kfs (inherit t stdio k).1 = kfs k.
Proof.
  assert (forall l stdio child (k : kernel (D := D)), kfs (inherit_loop l stdio child k).1 = kfs k) as Hloop.
  { clear. intros l stdio. induction stdio as [|fd stdio IH]; intros child k; [done|]. cbn [inherit_loop].
    destruct (get_fd l fd) as [f|].
    - unfold kbind. pose proof (clone_kfs f k) as Hc. destruct (clone_file f k) as [k1 [u|e| |]]; try done.
      by rewrite IH.
    - simpl. induction child as [|f child IHc] using rev_ind; [done|].
      rewrite fold_left_app. simpl. by rewrite drop_kfs. }
  unfold inherit, kbind. destruct (get_tab t k) as [k0 [l|e| |]] eqn:E; injection E as <- E; try done.
  pose proof (Hloop l stdio [] k) as Hl. by destruct (inherit_loop l stdio [] k) as [k1 [ch|e| |]].
Qed.

Lemma acts_spawn y p1 l1 p2 l2 p3 :
  holds_bytes y -> 0 <= p1 -> 0 <= l1 -> 0 <= p2 -> 0 <= l2 -> 0 <= p3 ->
  acts y (sys_spawn c kernel_pml4 trampoline p1 l1 p2 l2 p3).
Proof.
  intros Hd H1 H2 H3 H4 H5. apply acts_args; [done|done|]. intros [args|]; [|apply acts_quietly; quietly].
  apply acts_range; [done|done|apply acts_quietly; quietly|]. intros Hr. cbn [negb orb].
  destruct (negb _); [apply acts_quietly; quietly|]. apply acts_uload; [done|].
  unfold acts, on_files, kbind. unfold current_files.
  destruct (Sched.current_files c (y_sched y)) as [t|]; [|by apply quiet_effect].
  apply (acts_kern y _ (fun t => exec_program c kernel_pml4 trampoline p1 l1 args t) (fun _ => kret usize_max)); [|quietly].
  intros t' y1 Hrun. apply acts_exec_program; [|done|done]. unfold in_kern in Hrun.
  pose proof (inherit_kfs t (words (load_user (pmem (y_phys y)) (cr3_of c y) p3 24)) (y_kern y)) as Hk.
  destruct (inherit _ _ _) as [k' r]. injection Hrun as <- _. simpl in Hk |- *. by rewrite Hk.
Qed.

Lemma acts_exec2 y p1 l1 p2 l2 :
  holds_bytes y -> 0 <= p1 -> 0 <= l1 -> 0 <= p2 -> 0 <= l2 -> acts y (sys_exec2 c kernel_pml4 trampoline p1 l1 p2 l2).
Proof.
  intros Hd H1 H2 H3 H4. apply acts_args; [done|done|].
  intros [args|]; [by apply acts_new_console_exec|apply acts_quietly; quietly].
Qed.

Lemma acts_add_task y entry rsp : acts y (sys_add_task c trampoline entry rsp).
Proof.
  eapply acts_same; [reflexivity|]. eapply acts_same; [reflexivity|].
  apply acts_then; [|quietly]. apply act_effect, act_task.
Qed.

Lemma quietly_write_region_cells row col width raw l : quietly (write_region_cells (D := D) row col width raw l).
Proof.
  induction l as [|i l IH]; cbn [write_region_cells]; [quietly|]. apply quietly_bind; [|by intros _].
  unfold write_region_cell. destruct (is_char _); quietly.
Qed.

Lemma acts_write_region y row col ptr len width :
  0 <= ptr -> 0 <= len -> acts y (sys_write_region c row col ptr len width).
Proof.
  intros Hp Hl. unfold sys_write_region. destruct (width =? 0); [apply acts_quietly; quietly|].
  destruct (_ || _); [apply acts_quietly; quietly|]. destruct (_ <? _); [apply acts_quietly; quietly|].
  destruct (checked_add64 _ _); [|apply acts_quietly; quietly]. destruct (_ <? _); [apply acts_quietly; quietly|].
  apply acts_range; [done|lia|apply acts_quietly; quietly|]. intros Hr. cbn [negb].
  apply acts_uload; [done|]. apply acts_quietly, quietly_write_region_cells.
Qed.

Lemma acts_dns y ptr len : 0 <= ptr -> 0 <= len -> acts y (sys_dns_resolve c ptr len).
Proof.
  intros Hp Hl. unfold sys_dns_resolve. destruct (_ || _); [apply acts_quietly; quietly|].
  apply acts_user_str; [done|done|]. intros [name|]; apply acts_quietly; quietly.
Qed.

Lemma quietly_recv_ping ptr len : quietly (sys_net_recv_ping c ptr len).
Proof.
  unfold sys_net_recv_ping, range_ok. destruct (_ || _); [quietly|]. apply quietly_bind; [quietly|]. intros [|]; quietly.
Qed.

Lemma quietly_write_cell row col ch fg bg : quietly (sys_write_cell (D := D) row col ch fg bg).
Proof. unfold sys_write_cell. destruct (is_char _); quietly. Qed.

(** * The dispatcher *)

Abbreviation dispatch := (syscall_dispatcher_impl c kernel_pml4 trampoline).

(** The arguments come in registers.  Without overflow checks the size of the
    buffer of [sys_fsls], which the code does not check, must fit as well. *)
Definition args_ok (id arg1 arg2 arg3 arg4 arg5 : Z) : Prop :=
  Forall (fun x => 0 <= x <= u64_max) [arg1; arg2; arg3; arg4; arg5] /\
  (overflow_checks = false -> id = 12 -> arg2 * entry_size < 2 ^ 64).

Lemma acts_done y m : acts y m -> acts y (done_with m).
Proof. intros Hm. apply acts_then; [done|quietly]. Qed.

Lemma dispatch_effect id arg1 arg2 arg3 arg4 arg5 y :
  args_ok id arg1 arg2 arg3 arg4 arg5 -> holds_bytes y -> acts y (dispatch id arg1 arg2 arg3 arg4 arg5).
Proof.
  intros [Ha Hfit] Hd. rewrite !Forall_cons in Ha. destruct Ha as ([? Hmax] & [? _] & [? _] & [? _] & [? _] & _).
  unfold syscall_dispatcher_impl.
  assert (forall m, acts y m -> acts y (let! r := m in match r with inl v => ret (u64 v) | inr p => later p end)) as Hu.
  { intros m Hm. apply acts_then; [done|]. intros [v|p]; quietly. }
  assert (forall m : Y unit, acts y m -> acts y (run! m in ret 0)) as Hn by (intros m Hm; apply acts_then; [done|quietly]).
  repeat case_match; subst; try (apply acts_quietly; quietly).
  all: try apply Hu; try apply Hn; try apply acts_done.
  all: eauto using acts_print, acts_fsls, acts_fswrite, acts_fsread, acts_fsrm, acts_open, acts_read, acts_write, acts_pipe,
    acts_sendto, acts_exec2, acts_spawn, acts_add_task, acts_write_region, acts_dns, acts_new_console_exec.
  all: try (apply acts_quietly; (apply quietly_recv_ping || apply quietly_recvfrom || apply quietly_connect ||
    apply quietly_bind_port || apply quietly_write_cell || quietly)).
  by apply act_effect, act_grow.
Qed.

(** * What is written after a wait *)

(** The ranges a pending operation will write to are the caller's. *)
Definition reaches (y : sys) (p : pending) : Prop :=
  Forall (fun x => 0 <= x.1 /\ 0 <= x.2 /\ reachable y x.1 x.2 = true) (ranges p).

(** [m] leaves nothing pending that writes to the caller's memory. *)
Definition calm (m : Y (Z + pending)) : Prop := forall y y' p, m y = (y', Ok (inr p)) -> ranges p = [].

Lemma calm_bind {A} (m : Y A) (k : A -> Y (Z + pending)) : (forall a, calm (k a)) -> calm (kbind m k).
Proof. intros Hk y y' p Hrun. apply kbind_inv_Ok in Hrun as (a & y1 & _ & Hrun). by apply (Hk a y1 y'). Qed.

Lemma calm_ret v : calm (ret v).
Proof. by intros y y' p. Qed.

Lemma calm_fail e : calm (kfail e).
Proof. by intros y y' p. Qed.

Lemma calm_later p : ranges p = [] -> calm (later p).
Proof. by intros Hp y y' p' [= <- <-]. Qed.

Lemma calm_fd_result m : calm m -> calm (fd_result m).
Proof.
  intros Hm y y' p. specialize (Hm y). unfold fd_result. destruct (m y) as [y1 [[v|q]|e| |]]; try done.
  intros [= -> ->]. by apply (Hm y').
Qed.

Lemma calm_usize m : calm m -> calm (let! r := m in match r with inl v => ret (u64 v) | inr p => later p end).
Proof.
  intros Hm y y' p Hrun. apply kbind_inv_Ok in Hrun as ([v|q] & y1 & H1 & Hrun); [done|].
  injection Hrun as <- <-. by apply (Hm y y1).
Qed.

Create HintDb calm.
#[local] Hint Unfold done_with invalid fd_of sys_close sys_seek sys_fd_kind sys_socket sys_net_send_ping sys_pipe
  sys_bind sys_connect sys_open sys_sendto sys_write sys_dns_resolve : calm.
Ltac calm := autounfold with calm; repeat (intros; match goal with
  | |- calm (ret _) => apply calm_ret
  | |- calm (kret (inl _)) => apply calm_ret
  | |- calm (kfail _) => apply calm_fail
  | |- calm (later _) => by apply calm_later
  | |- calm (fd_result _) => apply calm_fd_result
  | |- calm (kbind _ (fun r => match r with inl v => ret (u64 v) | inr p => later p end)) => apply calm_usize
  | |- calm (kbind _ _) => apply calm_bind
  | |- calm (match ?x with _ => _ end) => destruct x
  end).

Definition reaching (m : Y (Z + pending)) : Prop := forall y y' p, m y = (y', Ok (inr p)) -> reaches y' p.

Lemma reaching_calm m : calm m -> reaching m.
Proof. intros Hm y y' p Hrun. unfold reaches. rewrite (Hm y y' p Hrun). by apply Forall_nil_2. Qed.

(** [x as usize] *)
Lemma reaching_usize m :
  reaching m -> reaching (let! r := m in match r with inl v => ret (u64 v) | inr p => later p end).
Proof.
  intros Hm y y' p Hrun. apply kbind_inv_Ok in Hrun as ([v|q] & y1 & H1 & Hrun); [done|].
  injection Hrun as <- <-. by apply (Hm y y1).
Qed.

Lemma reaching_fd_result (m : Y (Z + pending)) (y y' : sys) p :
  (forall y' p, m y = (y', Ok (inr p)) -> reaches y' p) -> fd_result m y = (y', Ok (inr p)) -> reaches y' p.
Proof.
  intros Hm. unfold fd_result. destruct (m y) as [y1 [[v|q]|e| |]]; try done. intros [= -> ->]. by apply Hm.
Qed.

(** A buffer that was checked stays one while the descriptor is looked up. *)
Lemma reaches_quiet (y y' : sys) p : quiet y y' -> reaches y p -> reaches y' p.
Proof.
  intros Hq Hp. unfold reaches in *. eapply Forall_impl; [exact Hp|]. intros [ptr len] (? & ? & Hr). split_and!; [done|done|].
  simpl in *. by rewrite (reachable_quiet y y' ptr len Hq).
Qed.

Lemma range_ok_inv {B} ptr len (k : bool -> Y B) (y y' : sys) b :
  kbind (range_ok c ptr len) k y = (y', Ok b) -> 0 <= ptr -> 0 <= len ->
  exists ok, k ok y = (y', Ok b) /\ (ok = true -> reachable y ptr len = true).
Proof.
  intros Hrun Hp Hl. apply kbind_inv_Ok in Hrun as (ok & y1 & [= <- E] & Hrun). exists ok. split; [done|].
  intros ->. by apply range_reachable.
Qed.

Lemma reaching_read fd ptr len : 0 <= ptr -> 0 <= len -> reaching (sys_read c fd ptr len).
Proof.
  intros Hp Hl y y' p. unfold sys_read. destruct (len =? 0); [done|]. intros Hrun.
  apply range_ok_inv in Hrun as (ok & Hrun & Hok); [|done..]. destruct ok; [|done]. specialize (Hok eq_refl). cbn [negb] in Hrun.
  rewrite (kbind_Ok _ _ _ _ _ (uload_reachable y ptr len Hok)) in Hrun. revert Hrun. apply reaching_fd_result.
  clear y' p. intros y' p Hrun. apply kbind_inv_Ok in Hrun as (r & y1 & H1 & Hrun).
  pose proof (quietly_on_files (fun t => FileTable.read t fd (load_user (pmem (y_phys y)) (cr3_of c y) ptr len)) y) as Hq.
  rewrite H1 in Hq. destruct r as [[n b]|t].
  - by apply kbind_inv_Ok in Hrun as (? & ? & _ & ?).
  - injection Hrun as <- <-. apply (reaches_quiet y); [exact Hq|]. by repeat constructor.
Qed.

Lemma reaching_recv_ping ptr len : 0 <= ptr -> 0 <= len -> reaching (sys_net_recv_ping c ptr len).
Proof.
  intros Hp Hl y y' p. unfold sys_net_recv_ping. destruct (_ || _); [done|]. intros Hrun.
  apply range_ok_inv in Hrun as (ok & Hrun & Hok); [|done..]. destruct ok; [|done]. specialize (Hok eq_refl).
  injection Hrun as <- <-. by repeat constructor.
Qed.

(** A range that is checked only when it is there. *)
Lemma optional_range_inv {B} (b : bool) ptr len (f : bool -> bool) (k : bool -> Y B) (y y' : sys) x :
  kbind (if b then kret true else let! ok := range_ok c ptr len in kret (ok && f ok)) k y = (y', Ok x) ->
  0 <= ptr -> 0 <= len ->
  exists ok, k ok y = (y', Ok x) /\ (ok = true -> b = true \/ reachable y ptr len = true).
Proof.
  intros Hrun Hp Hl. apply kbind_inv_Ok in Hrun as (ok & y1 & H1 & Hrun). destruct b.
  - injection H1 as <- <-. exists true. auto.
  - apply range_ok_inv in H1 as (ok1 & [= <- <-] & Hok); [|done..]. exists (ok1 && f ok1). split; [done|].
    intros E. apply andb_true_iff in E as [E _]. auto.
Qed.

Lemma reaching_recvfrom fd ptr len addr timeout :
  0 <= ptr -> 0 <= len -> 0 <= addr -> reaching (sys_recvfrom c fd ptr len addr timeout).
Proof.
  intros Hp Hl Ha y y' p Hrun. unfold sys_recvfrom in Hrun.
  assert (exists ok, (fun ok => if negb ok then invalid else
      let! ok := (if addr =? 0 then kret true else let! ok := range_ok c addr 8 in kret (ok && (addr mod 4 =? 0))) in
      if negb ok then invalid else
      fd_result (let! s := on_files c (fun t => udp t fd) in
        later (PRecvFrom s ptr len addr (if timeout =? 0 then None else Some ((timeout + 9) / 10))))) ok y = (y', Ok (inr p)) /\
      (ok = true -> (len =? 0) = true \/ reachable y ptr len = true)) as (ok & Hrun1 & Hok1).
  { destruct (len =? 0); [exists true; auto|]. apply range_ok_inv in Hrun as (ok & Hrun & Hok); [|done..]. exists ok. auto. }
  clear Hrun. destruct ok; [|done]. specialize (Hok1 eq_refl). cbn [negb] in Hrun1.
  apply (optional_range_inv (addr =? 0) addr 8 (fun _ => addr mod 4 =? 0)) in Hrun1 as (ok & Hrun & Hok); [|done..].
  destruct ok; [|done]. specialize (Hok eq_refl). cbn [negb] in Hrun. revert Hrun. apply reaching_fd_result.
  clear y' p. intros y' p Hrun. apply kbind_inv_Ok in Hrun as (s & y1 & H1 & Hrun).
  pose proof (quietly_on_files (fun t => udp t fd) y) as Hq. rewrite H1 in Hq. injection Hrun as <- <-.
  apply (reaches_quiet y); [exact Hq|]. unfold reaches. cbn [ranges].
  destruct (len =? 0), (addr =? 0); simpl; repeat constructor; try done; simpl;
    (by destruct Hok1) || (by destruct Hok) || done.
Qed.

Lemma dispatch_reaches id arg1 arg2 arg3 arg4 arg5 :
  args_ok id arg1 arg2 arg3 arg4 arg5 -> reaching (dispatch id arg1 arg2 arg3 arg4 arg5).
Proof.
  intros [Ha _]. rewrite !Forall_cons in Ha. destruct Ha as ([? _] & [? _] & [? _] & [? _] & [? _] & _).
  unfold syscall_dispatcher_impl. repeat case_match; subst;
    first [by apply reaching_recv_ping | apply reaching_usize; (by apply reaching_read || by apply reaching_recvfrom) | idtac].
  all: try (apply reaching_calm; calm).
Qed.

(** The stores of a woken task go where its handler checked. *)
Lemma finish_acts (y : sys) p data from :
  reaches y p -> length from.1 = 4%nat -> acts y (finish c p data from).
Proof.
  intros Hr Hf. assert (forall n (l : list Z), zlen (take (Z.to_nat n) l) <= Z.max 0 n) as Ht.
  { intros n l. unfold zlen. rewrite length_take. lia. }
  assert (forall ptr len (l : list Z), 0 <= ptr /\ 0 <= len /\ reachable y ptr len = true -> zlen l <= len ->
    0 <= ptr /\ reachable y ptr (zlen l) = true) as Hs.
  { intros ptr len l (? & ? & Hr') Hl. split; [done|]. apply (reachable_sub _ _ _ _ _ Hr'); lia. }
  unfold reaches in Hr. destruct p; cbn [ranges] in Hr; unfold finish; try (apply acts_quietly; quietly).
  - apply acts_then; [|quietly]. apply Forall_cons in Hr as [Hr _]. apply acts_ustores. constructor; [|done].
    apply (Hs _ len); [done|]. specialize (Ht len data). simpl in Hr. simpl. lia.
  - apply acts_then; [|quietly]. apply acts_ustores. apply Forall_app in Hr as [Hr1 Hr2]. apply Forall_app. split.
    + destruct (len =? 0); [done|]. apply Forall_cons in Hr1 as [Hr1 _]. constructor; [|done].
      apply (Hs _ len); [done|]. specialize (Ht len data). simpl in Hr1. simpl. lia.
    + destruct (addr_ptr =? 0); [done|]. apply Forall_cons in Hr2 as [Hr2 _]. constructor; [|done].
      apply (Hs _ 8); [done|]. simpl. rewrite !zlen_app. unfold zlen. rewrite Hf. simpl. lia.
  - apply acts_then; [|quietly]. apply Forall_cons in Hr as [Hr _]. apply acts_ustores. constructor; [|done].
    apply (Hs _ len); [done|]. specialize (Ht len data). simpl in Hr. simpl. lia.
Qed.

End act.

(** Checked buffers stay the caller's as long as its pages do, on whatever
    processor it runs next. *)
Lemma reaches_later {D} `{BlockDevice D} (c c' : nat) (y y' : Syscall.sys (D := D)) p :
  cr3_of c' y' = cr3_of c y ->
  (forall a, 0 <= a -> accessible (pmem (y_phys y)) (cr3_of c y) a = true ->
     accessible (pmem (y_phys y')) (cr3_of c y) a = true) ->
  reaches c y p -> reaches c' y' p.
Proof.
  intros Ecr Hacc Hp. unfold reaches in *. eapply Forall_impl; [exact Hp|]. intros [ptr len] (H1 & H2 & Hr).
  split_and!; [done|done|]. unfold Syscall.reachable in *. rewrite forallb_forall in Hr |- *. intros a Ha. rewrite Ecr.
  apply Hacc; [|by apply Hr]. apply list_elem_of_In, elem_of_seqZ in Ha. simpl in *. lia.
Qed.
