(* ===== verification/SyscallWorld.v ===== *)
(** The state of all programs and how a system call changes it: new tasks, new
    programs, and the invariant that keeps programs and kernel apart. *)

From S2P Require Import Prelude Utf8 BlockDev Fat FatApi FileTable FileInv Frame FrameProofs Heap HeapInv HeapOps Paging PagingProofs Space SpaceDrop SpaceHeap SpaceTheorems Loader Sched Context Syscall SyscallMem SyscallInv SyscallAct.
Import Heap HeapInv HeapOps.
Open Scope kmonad_scope.

Section world.
Context {D : Type} `{BlockDevice D} {BU : Build} `{KernelHalf}.
Context (c : nat) (kernel_pml4 trampoline : Z).
Abbreviation sys := (sys (D := D)).

(** * New tasks *)

Lemma put_words_other l m a b : ~ a <= b < a + 8 * zlen l -> put_words m a l b = m b.
Proof.
  revert a. induction l as [|x l IH]; intros a Hb; [done|]. cbn [put_words]. pose proof (zlen_nonneg l).
  unfold zlen in *. simpl length in Hb. rewrite write64_other by lia. apply IH. lia.
Qed.

Definition stack_words (entry rsp rdi rsi : Z) : list Z :=
  user_frame trampoline USER_CODE_SEL USER_DATA_SEL 0x202 entry rsp rdi rsi.

(** The heap after a kernel stack was taken from it and filled. *)
Record stacked (A : aheap) (h : heap) (A' : aheap) (h' : heap) (stack : Z) (l : list Z) : Prop := {
  st_rep : Rep A' h';
  st_live : exists c, live A' stack c /\ STACK_SIZE <= c;
  st_new : forall c, ~ live A stack c;
  st_keeps : keeps A h h';
  st_words : Forall (fun x => 0 <= x < 2 ^ 64) l -> forall i x, l !! i = Some x ->
    read64 (hmem h') (stack + STACK_SIZE - 8 * 14 + 8 * Z.of_nat i) = x;
}.

Lemma stack_fill A h A1 h1 r d l :
  Rep A h -> zlen l = 14 -> STACK_SIZE <= d -> allocated A h A1 h1 r d ->
  stacked A h A1 (set_mem (put_words (hmem h1) (r + STACK_SIZE - 8 * 14) l) h1) r l.
Proof.
  intros HR Hl Hd HA. set (a := r + STACK_SIZE - 8 * 14).
  assert (live A1 r d) as Hv by (apply (al_live _ _ _ _ _ _ HA); by right).
  assert (forall x, ~ r <= x < r + d -> put_words (hmem h1) a l x = hmem h1 x) as Hout.
  { intros x Hx. apply put_words_other. unfold a, STACK_SIZE in *. lia. }
  split.
  - by apply (Rep_payload A1 h1 r d); [apply HA|done|].
  - by exists d.
  - apply HA.
  - intros p e x Hp Hx. simpl. rewrite Hout; [by apply (al_keeps _ _ _ _ _ _ HA p e)|]. intros Hin.
    assert (live A1 p e) as Hp1 by (apply (al_live _ _ _ _ _ _ HA); by left).
    assert (p <> r) as Hne by (intros ->; by apply (al_new _ _ _ _ _ _ HA e)).
    destruct (live_apart A1 h1 p e r d (al_rep _ _ _ _ _ _ HA) Hp1 Hv Hne); lia.
  - intros Hw i x Hx. by apply put_words_spec.
Qed.

Lemma heap_alloc_spec A h size : Rep A h -> 0 <= size ->
  (alloc size h = (h, Ok 0) /\ exhausted A h size 8) \/
  (exists A' h' r d, alloc size h = (h', Ok r) /\ r <> 0 /\ size <= d /\ allocated A h A' h' r d).
Proof.
  intros HR Hs. unfold alloc. change 8 with (2 ^ 3).
  destruct (alloc_aligned_spec A h size 3 HR Hs ltac:(lia)) as [?|(A' & h' & r & d & Hrun & _ & Hd & HA)]; [by left|right].
  exists A', h', r, d. split_and!; [done| |done|done].
  assert (live A' r d) as Hv by (apply (al_live _ _ _ _ _ _ HA); by right).
  destruct (live_range A' h' r d (al_rep _ _ _ _ _ _ HA) Hv) as (? & _).
  destruct (rp_range _ _ (al_rep _ _ _ _ _ _ HA)). destruct (rp_arena _ _ (al_rep _ _ _ _ _ _ HA)) as (? & _). lia.
Qed.

(** Everything but the heap and the scheduler. *)
Definition same_rest (y y' : sys) : Prop :=
  y_phys y' = y_phys y /\ y_kern y' = y_kern y /\ y_spaces y' = y_spaces y /\ y_cells y' = y_cells y /\ y_fault y' = y_fault y.

(** The bottom of the user stack can be computed. *)
Definition has_bottom (rsp : Z) : Prop := overflow_checks = false \/ 0 <= rsp - STACK_SIZE <= u64_max.

Lemma has_bottom_arith rsp (y : sys) : has_bottom rsp -> exists v, arith64 (rsp - STACK_SIZE) y = (y, Ok v).
Proof.
  intros Hb. unfold arith64. destruct (_ && _) eqn:E; [by eexists|]. destruct Hb as [->|Hb]; [by eexists|].
  rewrite !(proj2 (Z.leb_le _ _)) in E by lia. done.
Qed.

Lemma no_bottom_arith rsp (y : sys) : ~ has_bottom rsp -> arith64 (rsp - STACK_SIZE) y = (y, Panic).
Proof.
  intros Hb. unfold has_bottom, arith64 in *. destruct overflow_checks; [|tauto].
  destruct (Z.leb_spec 0 (rsp - STACK_SIZE)), (Z.leb_spec (rsp - STACK_SIZE) u64_max); simpl; [tauto|done..].
Qed.

Lemma add_user_task_spec entry rsp rdi rsi space files (y : sys) A :
  Rep A (y_heap y) -> has_bottom rsp ->
  exists y' stack, same_rest y y' /\
    add_user_task trampoline entry rsp rdi rsi space files y =
      (y', Ok (if stack =? 0 then None else Some (next_id (y_sched y)))) /\
    y_sched y' = (add_new_user_task stack rsp STACK_SIZE space files (y_sched y)).1 /\
    if stack =? 0 then y_heap y' = y_heap y /\ exhausted A (y_heap y) STACK_SIZE 8
    else exists A', stacked A (y_heap y) A' (y_heap y') stack (stack_words entry rsp rdi rsi).
Proof.
  intros HR Hbot. unfold add_user_task, in_heap, in_sched, modify, kbind, kret.
  destruct (heap_alloc_spec A (y_heap y) STACK_SIZE HR ltac:(done)) as [[-> Hex]|(A' & h' & r & d & -> & Hr & Hd & HA)].
  - cbn beta iota. change (0 =? 0) with true. cbn beta iota. cbn [y_sched].
    destruct (add_new_user_task 0 rsp STACK_SIZE space files (y_sched y)) as [s' id] eqn:E.
    eexists _, 0. split; [|split; [reflexivity|]]; [done|]. cbn [y_sched y_heap Z.eqb]. by rewrite E.
  - cbn beta iota. rewrite (proj2 (Z.eqb_neq _ _) Hr).
    match goal with |- context [arith64 _ ?y0] => destruct (has_bottom_arith rsp y0 Hbot) as [v ->] end.
    cbn beta iota. cbn [y_sched]. destruct (add_new_user_task r rsp STACK_SIZE space files (y_sched y)) as [s' id] eqn:E.
    assert (id = next_id (y_sched y)) as ->.
    { unfold add_new_user_task in E. rewrite (proj2 (Z.eqb_neq _ _) Hr) in E.
      destruct (next_id (y_sched y) =? 1); by injection E as _ <-. }
    eexists _, r. rewrite (proj2 (Z.eqb_neq _ _) Hr), E.
    split; [|split; [reflexivity|]]; [done|]. split; [done|]. exists A'. cbn [y_heap]. by apply (stack_fill _ _ _ _ _ d).
Qed.

(** Where it cannot be computed the kernel stops, with the stack allocated. *)
Lemma add_user_task_panics entry rsp rdi rsi space files (y : sys) A :
  Rep A (y_heap y) -> ~ has_bottom rsp ->
  exists y' A', same_rest y y' /\ y_sched y' = y_sched y /\ Rep A' (y_heap y') /\
    add_user_task trampoline entry rsp rdi rsi space files y = (y', Panic) \/
    add_user_task trampoline entry rsp rdi rsi space files y = (y', Ok None) /\ same_rest y y' /\
    y_sched y' = take_id (y_sched y) /\ y_heap y' = y_heap y.
Proof.
  intros HR Hbot. unfold add_user_task, in_heap, in_sched, modify, kbind, kret.
  destruct (heap_alloc_spec A (y_heap y) STACK_SIZE HR ltac:(done)) as [[-> Hex]|(A' & h' & r & d & -> & Hr & Hd & HA)].
  - cbn beta iota. eexists _, A. right. split; [reflexivity|]. done.
  - cbn beta iota. rewrite (proj2 (Z.eqb_neq _ _) Hr), no_bottom_arith by done.
    exists (mk_sys (y_phys y) (y_kern y) (y_sched y) h' (y_spaces y) (y_cells y) (y_fault y)), A'. left.
    split; [done|]. split; [done|]. split; [apply HA|done].
Qed.

(** * New programs *)

Abbreviation Spaces := (Spaces kernel_pml4).
Implicit Types (T : Z -> tree) (K : gset Z).

(** A loaded program has no page in the heap range. *)
Lemma loaded_heap_ok p (T1 : tree) code cs args root :
  cs < 2 ^ 32 -> (forall v, user v -> user_byte p T1 v = program code cs args v) ->
  heap_ok (mk_space root USER_HEAP_BASE) T1.
Proof.
  intros Hcs Hview. split; simpl; [done|done|]. intros v Hv.
  change USER_HEAP_BASE with (7 * 2 ^ 44) in Hv. change USER_HEAP_LIMIT with (7 * 2 ^ 44 + 2 ^ 28) in Hv.
  assert (user v) as Hu.
  { unfold user. change USER_SPACE_START with (2 ^ 46). change USER_SPACE_END with (2 ^ 47). lia. }
  specialize (Hview v Hu). unfold program in Hview. cbn zeta in Hview.
  rewrite decide_False in Hview by (change USER_CODE_BASE with (2 ^ 46); dlia).
  rewrite decide_False in Hview by (unfold STACK_PAGES; change USER_STACK_TOP with (2 ^ 47 - 16 * 4096); lia).
  unfold user_byte in Hview. by destruct (T1 !! path v).
Qed.

(** The outcome of a started program: a new space that holds exactly the image
    and the arguments, and a task that enters it. *)
Record started (y y' : sys) T (T' : Z -> tree) A (data args : list Z) (t : nat) (root stack : Z) : Prop := {
  sd_fresh : y_spaces y !! root = None;
  sd_space : y_spaces y' = <[root := mk_space root USER_HEAP_BASE]> (y_spaces y);
  sd_others : forall r, r <> root -> T' r = T r;
  sd_image : exists eo co cs fe, parse_kef data = inr (eo, co, cs, fe) /\
    (forall v, user v -> user_byte (y_phys y') (T' root) v = program (slice co fe data) cs args v) /\
    exists A', stacked A (y_heap y) A' (y_heap y') stack
      (stack_words (USER_CODE_BASE + eo) (args_place (zlen args)) (args_place (zlen args)) (zlen args));
  sd_task : y_sched y' =
    (add_new_user_task stack (args_place (zlen args)) STACK_SIZE (Some root) (Some t) (y_sched y)).1;
}.

(** Why a program is not started: there is no frame for a root table, the
    loader refuses the file or runs out of frames, or the kernel heap is full. *)
Definition refused (y : sys) A (av : list Z) (data args : list Z) : Prop :=
  av = [] \/
  (exists p1 sp p2 e, space_new kernel_pml4 (y_phys y) = (p1, Ok (Some sp)) /\
                      load_kef data (pml4 sp) args p1 = (p2, Ok (inl e))) \/
  exhausted A (y_heap y) STACK_SIZE 8.

(** What every program keeps, whatever happens to the new one. *)
Record grown_by (y y' : sys) T K (av' : list Z) (T' : Z -> tree) : Prop := {
  gb_spaces : Spaces (y_phys y') (y_spaces y') T' av' K;
  gb_agree : agree (frames_of (dom (y_spaces y)) T K) (pmem (y_phys y)) (pmem (y_phys y'));
  gb_kern : y_kern y' = y_kern y;
  gb_fault : y_fault y' = y_fault y;
}.

Definition with_phys (p : phys) (y : sys) : sys :=
  mk_sys p (y_kern y) (y_sched y) (y_heap y) (y_spaces y) (y_cells y) (y_fault y).

Lemma bind_phys {B C} (m : M phys B) (k : B -> M sys C) (y : sys) p p' b :
  y_phys y = p -> m p = (p', Ok b) -> kbind (in_phys m) k y = k b (with_phys p' y).
Proof. intros <- Hm. unfold in_phys, kbind. by rewrite Hm. Qed.

Lemma others_fresh (ss : gmap Z AddressSpace) T K r : ss !! r = None -> others ss T K r = frames_of (dom ss) T K.
Proof.
  intros Hr. unfold others. f_equal. apply not_elem_of_dom in Hr. set_solver.
Qed.

(** Dropping the space that was made on the way gives everything back. *)
Lemma drop_new (y : sys) T av K p2 sp (T1 : tree) (av2 : list Z) :
  Spaces (y_phys y) (y_spaces y) T av K -> y_spaces y !! pml4 sp = None ->
  Owns p2 (pml4 sp) T1 av2 (frames_of (dom (y_spaces y)) T K) ->
  agree (frames_of (dom (y_spaces y)) T K) (pmem (y_phys y)) (pmem p2) ->
  exists p3 av3, space_drop sp p2 = (p3, Ok tt) /\ Spaces p3 (y_spaces y) T av3 K /\
    agree (frames_of (dom (y_spaces y)) T K) (pmem (y_phys y)) (pmem p3).
Proof.
  intros HS Hr HO Ha. destruct (space_drop_spec p2 sp T1 av2 _ HO) as (p3 & av3 & Hrun & HP & Ha3).
  assert (agree (frames_of (dom (y_spaces y)) T K) (pmem (y_phys y)) (pmem p3)) as Ha13.
  { intros f b Hf Hb. by rewrite (Ha3 f b Hf Hb), (Ha f b Hf Hb). }
  exists p3, av3. split_and!; [done| |done]. by apply (Spaces_frames _ (y_phys y) _ _ av).
Qed.

(** A free frame is the root of no space. *)
Lemma free_not_root p ss T av K f : Spaces p ss T av K -> f ∈ av -> ss !! f = None.
Proof.
  intros HS Hf. apply eq_None_not_Some. intros [sp Hsp].
  destruct (ss_space _ _ _ _ _ _ HS f sp Hsp) as (_ & HSp & _).
  apply (pl_disj _ _ _ (ss_pool _ _ _ _ _ _ HS) f); [|done]. apply elem_of_frames_of. right. exists f.
  split; [by apply elem_of_dom_2 in Hsp|]. apply elem_of_owned. exists [], f. split; [apply (sp_root _ _ _ HSp)|].
  by rewrite node_frame_table by (simpl; lia).
Qed.

Abbreviation exec_image := (Syscall.exec_image kernel_pml4 trampoline).

Lemma exec_image_spec data args t (y : sys) T av K A :
  Spaces (y_phys y) (y_spaces y) T av K -> Rep A (y_heap y) -> bytes_ok data ->
  exists y' T' av' r, exec_image data args t y = (y', Ok r) /\ grown_by y y' T K av' T' /\
    match r with
    | Some id => id = next_id (y_sched y) /\ exists root stack, started y y' T T' A data args t root stack
    | None => T' = T /\ y_spaces y' = y_spaces y /\ y_heap y' = y_heap y /\ refused y A av data args /\
        (y_sched y' = y_sched y \/ y_sched y' = take_id (y_sched y))
    end.
Proof.
  intros HS HR Hb. pose proof (space_new_spec (y_phys y) av _ kernel_pml4 (ss_pool _ _ _ _ _ _ HS)) as Hnew.
  specialize (Hnew ltac:(apply elem_of_frames_of; left; apply HS) (ss_words _ _ _ _ _ _ HS) (ss_half _ _ _ _ _ _ HS)).
  destruct av as [|f av].
  { destruct Hnew as (p1 & Hrun & HP & Hm). unfold Syscall.exec_image. rewrite (bind_phys _ _ y _ _ _ eq_refl Hrun).
    eexists _, T, [], None. split; [reflexivity|]. split; [split; simpl; [|by rewrite Hm|done|done]|].
    - apply (Spaces_frames _ (y_phys y) _ _ []); [done|done|by rewrite Hm].
    - split_and!; [done|done|done|by left|by left]. }
  destruct Hnew as (p1 & Hrun1 & HO1 & Ha1 & _).
  pose proof (free_not_root _ _ _ _ _ f HS ltac:(left)) as Hroot.
  destruct (load_kef_spec data args p1 f {[ [] := f ]} av _ Hb HO1) as (p2 & T2 & av2 & r & Hrun2 & HO2 & Ha2 & Hr).
  { intros k Hk. apply lookup_singleton_ne. by intros <-. }
  set (F := frames_of (dom (y_spaces y)) T K) in *.
  assert (agree F (pmem (y_phys y)) (pmem p2)) as Ha.
  { intros g b Hg Hb'. by rewrite (Ha2 g b Hg Hb'), (Ha1 g b Hg Hb'). }
  destruct (drop_new y T (f :: av) K p2 (mk_space f USER_HEAP_BASE) T2 av2 HS Hroot HO2 Ha) as (p3 & av3 & Hdrop & HS3 & Ha3).
  unfold Syscall.exec_image. rewrite (bind_phys _ _ y _ _ _ eq_refl Hrun1). cbn [pml4].
  rewrite (bind_phys _ _ (with_phys p1 y) _ _ _ eq_refl Hrun2).
  destruct r as [e|[[entry rsp] ap]].
  { rewrite (bind_phys _ _ (with_phys p2 (with_phys p1 y)) _ _ _ eq_refl Hdrop).
    eexists _, T, av3, None. split; [reflexivity|]. split; [by split|]. split_and!; [done|done|done| |by left].
    right. left. by exists p1, (mk_space f USER_HEAP_BASE), p2, e. }
  destruct Hr as (eo & co & cs & fe & Hparse & -> & -> & -> & _ & Hap1 & Hap2 & Hview). pose proof (zlen_nonneg args).
  assert (has_bottom (args_place (zlen args))) as Hbot.
  { right. unfold STACK_SIZE, u64_max. change PAGE_SIZE with 4096 in *. unfold USER_STACK_TOP, USER_SPACE_END in *. lia. }
  destruct (add_user_task_spec (USER_CODE_BASE + eo) (args_place (zlen args)) (args_place (zlen args)) (zlen args) (Some f) (Some t)
    (with_phys p2 (with_phys p1 y)) A HR Hbot)
    as (y2 & stack & (E1 & E2 & E3 & E4 & E5) & Hrun & Hs & Hh). cbn [with_phys y_phys y_kern y_sched y_heap y_spaces y_cells y_fault] in *.
  rewrite (kbind_Ok _ _ _ _ _ Hrun). destruct (Z.eqb_spec stack 0) as [->|Hst].
  - rewrite (bind_phys _ _ y2 _ _ _ E1 Hdrop).
    eexists _, T, av3, None. split; [reflexivity|]. split; [split; simpl; [by rewrite E3|done|done|done]|].
    destruct Hh as [Hh Hex]. simpl. rewrite Hs. split_and!; [done|done|done|by right; right|by right].
  - destruct Hh as (A' & Hst').
    eexists _, (<[f := T2]> T), av2, (Some _). split; [reflexivity|]. cbn [y_phys y_kern y_sched y_heap y_spaces y_cells y_fault].
    destruct (parse_kef_ok data eo co cs fe Hb Hparse) as (_ & _ & _ & _ & Hcs). split; [split; simpl|].
    + rewrite E1, E3. apply (Spaces_insert _ (y_phys y) _ _ (f :: av)); [done| | |done|].
      * by rewrite others_fresh.
      * by rewrite others_fresh.
      * by apply (loaded_heap_ok p2 T2 (slice co fe data) cs args).
    + by rewrite E1.
    + done.
    + done.
    + split; [done|]. exists f, stack. split; simpl.
      * done.
      * by rewrite E3.
      * intros r Hr. by apply fn_lookup_insert_ne.
      * exists eo, co, cs, fe. rewrite E1, fn_lookup_insert. split_and!; [done|done|by exists A'].
      * done.
Qed.

(** * The invariant *)

(** The caller runs in its own address space, all spaces and the kernel are
    apart, and the heap is in order. *)
Record World (y : sys) T (av : list Z) K : Prop := {
  wo_spaces : Spaces (y_phys y) (y_spaces y) T av K;
  wo_current : current_address_space c (y_sched y) = Some (cr3_of c y);
  wo_caller : is_Some (y_spaces y !! cr3_of c y);
  wo_heap : exists A, Rep A (y_heap y);
}.

(** Nothing changed for the programs other than [r], nor for the kernel, and [r]
    kept its pages. *)
Record isolated (y y' : sys) T (T' : Z -> tree) K (r : Z) : Prop := {
  is_kernel : agree K (pmem (y_phys y)) (pmem (y_phys y'));
  is_space r' sp : r' <> r -> y_spaces y !! r' = Some sp -> y_spaces y' !! r' = Some sp /\ T' r' = T r';
  is_bytes r' v : r' <> r -> is_Some (y_spaces y !! r') -> user_byte (y_phys y') (T r') v = user_byte (y_phys y) (T r') v;
  is_own k e : length k = 4%nat -> T r !! k = Some e -> T' r !! k = Some e;
}.

(** One step of the system on behalf of the caller. *)
Definition preserves (y y' : sys) : Prop :=
  forall T av K, World y T av K -> exists T' av', World y' T' av' K /\ isolated y y' T T' K (cr3_of c y) /\
    cr3_of c y' = cr3_of c y.

Lemma isolated_agree (y y' : sys) T T' av K r :
  Spaces (y_phys y) (y_spaces y) T av K -> is_Some (y_spaces y !! r) ->
  agree (others (y_spaces y) T K r) (pmem (y_phys y)) (pmem (y_phys y')) ->
  (forall r' sp, r' <> r -> y_spaces y !! r' = Some sp -> y_spaces y' !! r' = Some sp /\ T' r' = T r') ->
  (forall k e, length k = 4%nat -> T r !! k = Some e -> T' r !! k = Some e) ->
  isolated y y' T T' K r.
Proof.
  intros HS Hr Ha Hsp Hown. split; [|done| |done].
  - apply (agree_mono (others (y_spaces y) T K r)); [|done]. intros f Hf. apply elem_of_frames_of. by left.
  - intros r' v Hne [sp' Hr']. destruct (ss_space _ _ _ _ _ _ HS r' sp' Hr') as (_ & HSp & _).
    apply (user_byte_agree _ _ _ _ (others (y_spaces y) T K r) _ _ HSp); [|done].
    intros f Hf. apply elem_of_frames_of. right. exists r'. apply elem_of_dom_2 in Hr'. split; [set_solver|done].
Qed.

Lemma quiet_preserves (y y' : sys) : quiet c y y' -> preserves y y'.
Proof.
  intros [E1 E2 E3 E4 E5 E6] T av K [HS Hc Hr HR]. exists T, av.
  assert (cr3_of c y' = cr3_of c y) as Ecr by (unfold cr3_of; by rewrite E4).
  split_and!; [split|split|done].
  - by rewrite E1, E2.
  - by rewrite Ecr, E5.
  - by rewrite Ecr, E2.
  - by rewrite E6.
  - by rewrite E1.
  - intros r' sp _ Hsp. by rewrite E2.
  - intros r' v _ _. by rewrite E1.
  - done.
Qed.

Lemma isolated_trans (y1 y2 y3 : sys) T1 T2 T3 K r :
  isolated y1 y2 T1 T2 K r -> isolated y2 y3 T2 T3 K r -> isolated y1 y3 T1 T3 K r.
Proof.
  intros [A1 S1 B1 O1] [A2 S2 B2 O2]. split; [| | |auto].
  - intros f b Hf Hb. by rewrite (A2 f b Hf Hb), (A1 f b Hf Hb).
  - intros r' sp Hne Hsp. destruct (S1 r' sp Hne Hsp) as [Hsp2 <-]. by apply S2.
  - intros r' v Hne [sp Hsp]. destruct (S1 r' sp Hne Hsp) as [Hsp2 E].
    rewrite <- (B1 r' v Hne ltac:(by exists sp)), <- E. apply B2; [done|by exists sp].
Qed.

Lemma preserves_trans (y1 y2 y3 : sys) : preserves y1 y2 -> preserves y2 y3 -> preserves y1 y3.
Proof.
  intros H12 H23 T av K HW. destruct (H12 T av K HW) as (T2 & av2 & HW2 & HI2 & E2).
  destruct (H23 T2 av2 K HW2) as (T3 & av3 & HW3 & HI3 & E3). rewrite E2 in HI3, E3.
  exists T3, av3. split_and!; [done|by eapply isolated_trans|done].
Qed.

(** ** Stores *)

Lemma fn_insert_same T r r' : (<[r := T r]> T) r' = T r'.
Proof. destruct (decide (r' = r)) as [->|Hne]; [apply fn_lookup_insert|by apply fn_lookup_insert_ne]. Qed.

(** Writing to the pages of one space, seen from all of them. *)
Lemma Spaces_pages p ss T av K m' r sp :
  Spaces p ss T av K -> ss !! r = Some sp -> Owns (mk_phys m' (frames p)) r (T r) av (others ss T K r) ->
  agree (others ss T K r) (pmem p) m' -> Spaces (mk_phys m' (frames p)) ss T av K.
Proof.
  intros HS Hr HO Ha. destruct (ss_space _ _ _ _ _ _ HS r sp Hr) as (Hpml4 & _ & Hh).
  pose proof (Spaces_insert _ _ _ _ _ _ _ r sp (T r) av HS HO Ha Hpml4 Hh) as HS'.
  rewrite insert_id in HS' by done. destruct HS' as [P S AP O ? ? ? ?]. split; try done.
  - replace (frames_of (dom ss) T K) with (frames_of (dom ss) (<[r := T r]> T) K); [done|].
    apply set_eq. intros f. rewrite !elem_of_frames_of. by setoid_rewrite fn_insert_same.
  - intros r' sp' Hr'. specialize (S r' sp' Hr'). by rewrite fn_insert_same in S.
  - intros r1 r2. specialize (AP r1 r2). by rewrite !fn_insert_same in AP.
  - intros r1. specialize (O r1). by rewrite fn_insert_same in O.
Qed.

Lemma write_preserves (y : sys) l :
  Forall (fun ab => 0 <= ab.1 /\ reachable c y ab.1 (zlen ab.2) = true) l -> preserves y (ustores c l y).1.
Proof.
  intros Hl T av K [HS Hc [sp Hr] HR]. exists T, av. pose proof (Spaces_Owns _ _ _ _ _ _ _ _ HS Hr) as HO.
  set (r := cr3_of c y) in *. set (m' := write_pieces l r (pmem (y_phys y))).
  destruct (ss_space _ _ _ _ _ _ HS r sp Hr) as (_ & HSp & _).
  destruct (Owns_pages (y_phys y) r (T r) av (others (y_spaces y) T K r) m' HO) as [HO' Ha].
  { intros b. destruct (write_pieces_other l r (pmem (y_phys y)) b) as [?|(ab & a & Hin & Hrange & Ht)]; [by left|right].
    rewrite Forall_forall in Hl. destruct (Hl ab Hin) as [H0' Hreach]. unfold reachable in Hreach. rewrite forallb_forall in Hreach.
    assert (accessible (pmem (y_phys y)) r a = true) as Hacc by (apply Hreach, list_elem_of_In, elem_of_seqZ; lia).
    pose proof (accessible_user _ _ _ _ _ _ r sp a HS Hr ltac:(lia) Hacc) as Hu.
    destruct (user_store_page _ _ _ a b HSp Hu Ht) as (e & He & Hb). by exists (path a), e. }
  pose proof (Spaces_pages _ _ _ _ _ m' r sp HS Hr HO' Ha) as HS'.
  split_and!; [by split|by apply (isolated_agree y _ T T av)|done].
Qed.

(** ** The heap of a program *)

(** A page that was there is not one of the new heap pages. *)
Lemma grow_own sp sp' bytes res (T1 T2 : tree) p' k e :
  heap_ok sp T1 -> heap_ok sp' T2 ->
  match res with
  | Some old => old = heap_end sp /\ heap_end sp' = old + round_up bytes /\
      grown p' T1 T2 old (Z.to_nat (round_up bytes / PAGE_SIZE))
  | None => sp' = sp /\ same_pages T1 T2
  end -> length k = 4%nat -> T1 !! k = Some e -> T2 !! k = Some e.
Proof.
  intros H1 H2 Hres Hk He. destruct res as [old|]; [|destruct Hres as [_ [_ Hs]]; by rewrite Hs].
  destruct Hres as (-> & Hend & [_ Hold]). rewrite Hold; [done|done|]. intros j Hj ->.
  rewrite (hp_free _ _ H1) in He; [done|]. pose proof (hp_range _ _ H1). pose proof (hp_range _ _ H2).
  assert (round_up bytes / PAGE_SIZE * PAGE_SIZE = round_up bytes) as Hm.
  { unfold round_up, PAGE_SIZE. by rewrite Z.div_mul by lia. }
  unfold PAGE_SIZE in *. nia.
Qed.

Lemma grow_preserves (y : sys) bytes : 0 <= bytes <= u64_max -> preserves y (sys_heap_grow c bytes y).1.
Proof.
  intros Hb T av K [HS Hc [sp Hr] HR]. set (r := cr3_of c y) in *. pose proof (Spaces_Owns _ _ _ _ _ _ _ _ HS Hr) as HO.
  destruct (ss_space _ _ _ _ _ _ HS r sp Hr) as (Hpml4 & HSp & Hh). rewrite <- Hpml4 in HO at 1.
  destruct (grow_heap_spec sp bytes (y_phys y) (T r) av _ HO Hh Hb)
    as (p' & T' & av' & sp' & res & Hrun & HO' & Hh' & Hpml' & Hk & Hres).
  apply kept_agree in Hk. rewrite Hpml4 in HO', Hpml'.
  exists (<[r := T']> T), av'. unfold sys_heap_grow, gets. rewrite (kbind_Ok _ _ y y (Some sp)); [|by rewrite Hc; simpl; rewrite Hr].
  rewrite (bind_phys _ _ y _ _ _ eq_refl Hrun). simpl. rewrite Hpml'.
  split_and!; [split; simpl|apply (isolated_agree y _ T _ av); simpl|done].
  - by apply (Spaces_insert _ (y_phys y) _ _ av).
  - done.
  - fold r. rewrite lookup_insert_eq. by eexists.
  - done.
  - done.
  - by exists sp.
  - done.
  - intros r' sp2 Hne Hsp2. rewrite lookup_insert_ne by done. split; [done|]. by apply fn_lookup_insert_ne.
  - intros k e Hk4 He. rewrite fn_lookup_insert. by apply (grow_own sp sp' bytes res (T r) T' p').
Qed.

(** ** Tasks and programs *)

Lemma kick_fields i s : cpus (kick i s) = cpus s /\ tasks (kick i s) = tasks s.
Proof. unfold kick. by case_decide. Qed.

Lemma add_task_cpus stack rsp size space files s : cpus (add_new_user_task stack rsp size space files s).1 = cpus s.
Proof.
  unfold add_new_user_task. destruct (stack =? 0); [done|]. destruct (_ =? 1); cbn [fst]; by rewrite (proj1 (kick_fields _ _)).
Qed.

Lemma add_task_tasks stack rsp size space files s i t :
  tasks s !! i = Some t -> tasks (add_new_user_task stack rsp size space files s).1 !! i = Some t.
Proof.
  intros Ht. pose proof (lookup_lt_Some _ _ _ Ht) as Hlt. unfold add_new_user_task. destruct (stack =? 0); [done|].
  destruct (_ =? 1); cbn [fst]; rewrite (proj2 (kick_fields _ _)); simpl; rewrite ?list_lookup_alter_ne by lia;
    by rewrite lookup_app_l.
Qed.

Lemma add_task_current stack rsp size space files s r :
  current_address_space c s = Some r -> current_address_space c (add_new_user_task stack rsp size space files s).1 = Some r.
Proof.
  unfold current_address_space. rewrite add_task_cpus. destruct (current_task_index (cpus s c)) as [i|]; [|done]. simpl.
  destruct (tasks s !! i) as [t|] eqn:E; [|done]. by rewrite (add_task_tasks _ _ _ _ _ _ _ _ E).
Qed.

(** Only the heap and the scheduler change. *)
Lemma rest_preserves (y y' : sys) A' :
  same_rest y y' -> Rep A' (y_heap y') -> cpus (y_sched y') = cpus (y_sched y) ->
  (forall r, current_address_space c (y_sched y) = Some r -> current_address_space c (y_sched y') = Some r) ->
  preserves y y'.
Proof.
  intros (E1 & E2 & E3 & E4 & E5) HR' Ec Ecur T av K [HS Hc Hr _]. exists T, av.
  assert (cr3_of c y' = cr3_of c y) as Ecr by (unfold cr3_of; by rewrite Ec).
  split_and!; [split|split|done].
  - by rewrite E1, E3.
  - rewrite Ecr. auto.
  - by rewrite Ecr, E3.
  - by exists A'.
  - by rewrite E1.
  - intros r' sp _ Hsp. by rewrite E3.
  - intros r' v _ _. by rewrite E1.
  - done.
Qed.

Lemma task_preserves (y : sys) entry rsp rdi rsi space files :
  preserves y (add_user_task trampoline entry rsp rdi rsi space files y).1.
Proof.
  intros T av K HW. destruct (wo_heap _ _ _ _ HW) as [A HR]. revert T av K HW.
  assert (has_bottom rsp \/ ~ has_bottom rsp) as [Hb|Hb].
  { unfold has_bottom. destruct overflow_checks; [|by left; left]. destruct (decide (0 <= rsp - STACK_SIZE <= u64_max)); [by left; right|right].
    intros [?|?]; done. }
  - destruct (add_user_task_spec entry rsp rdi rsi space files y A HR Hb) as (y' & stack & Hrest & -> & Es & Hh).
    assert (exists A', Rep A' (y_heap y')) as [A' HR'].
    { destruct (stack =? 0); [exists A; by destruct Hh as [-> _]|]. destruct Hh as (A' & [HR' _ _ _ _]). by exists A'. }
    apply (rest_preserves y y' A'); [done|done|by rewrite Es, add_task_cpus|]. intros r Hr. rewrite Es. by apply add_task_current.
  - destruct (add_user_task_panics entry rsp rdi rsi space files y A HR Hb)
      as (y' & A' & [(Hrest & Es & HR' & ->)|(-> & Hrest & Es & Eh)]).
    + apply (rest_preserves y y' A'); [done|done|by rewrite Es|by rewrite Es].
    + apply (rest_preserves y y' A); [done|simpl; by rewrite Eh|by rewrite Es|by rewrite Es].
Qed.

Lemma exec_preserves (y : sys) data args t : bytes_ok data -> preserves y (exec_image data args t y).1.
Proof.
  intros Hb T av K [HS Hc Hr [A HR]]. destruct (exec_image_spec data args t y T av K A HS HR Hb)
    as (y' & T' & av' & r & -> & [HS' Ha Ek Ef] & Hres). exists T', av'. simpl.
  assert (cpus (y_sched y') = cpus (y_sched y) /\ current_address_space c (y_sched y') = Some (cr3_of c y)) as [Ecpu Ecur].
  { destruct r as [id|].
    - destruct Hres as (_ & root & stack & Hst). rewrite (sd_task _ _ _ _ _ _ _ _ _ _ Hst), add_task_cpus.
      split; [done|by apply add_task_current].
    - destruct Hres as (_ & _ & _ & _ & [-> | ->]); done. }
  assert (cr3_of c y' = cr3_of c y) as Ecr by (unfold cr3_of; by rewrite Ecpu).
  assert (forall r' sp, y_spaces y !! r' = Some sp -> y_spaces y' !! r' = Some sp /\ T' r' = T r') as Hsp.
  { intros r' sp Hsp. destruct r as [id|]; [|by destruct Hres as (-> & -> & _)].
    destruct Hres as (_ & root & stack & [Hfresh -> Hoth _ _]). assert (r' <> root) as Hne by congruence.
    rewrite lookup_insert_ne by done. split; [done|by apply Hoth]. }
  split_and!; [split|apply (isolated_agree y _ T _ av)|done].
  - done.
  - by rewrite Ecr.
  - rewrite Ecr. destruct Hr as [sp Hr]. destruct (Hsp _ _ Hr) as [-> _]. by exists sp.
  - destruct r as [id|].
    + destruct Hres as (_ & root & stack & [_ _ _ (? & ? & ? & ? & _ & _ & A' & [HR' _ _ _ _]) _]). by exists A'.
    + destruct Hres as (_ & _ & -> & _). by exists A.
  - done.
  - done.
  - apply (agree_mono (frames_of (dom (y_spaces y)) T K)); [|done]. intros f. unfold others. rewrite !elem_of_frames_of.
    intros [?|(r' & Hr' & Hf)]; [by left|right]. exists r'. split; [set_solver|done].
  - intros r' sp _. apply Hsp.
  - intros k e _ He. destruct Hr as [sp Hr]. by destruct (Hsp _ _ Hr) as [_ ->].
Qed.

Lemma act_preserves (y y' : sys) : act c kernel_pml4 trampoline y y' -> preserves y y'.
Proof.
  intros [|l Hl|bytes Hb|data args t Hb|entry rsp rdi rsi space files].
  - by apply quiet_preserves.
  - by apply write_preserves.
  - by apply grow_preserves.
  - by apply exec_preserves.
  - apply task_preserves.
Qed.

Lemma effect_preserves (y y' : sys) : effect c kernel_pml4 trampoline y y' -> preserves y y'.
Proof.
  intros (y1 & y2 & H1 & H2 & H3). apply preserves_trans with y1; [by apply quiet_preserves|].
  apply preserves_trans with y2; [by apply act_preserves|by apply quiet_preserves].
Qed.

(** What a program may use it keeps. *)
Lemma accessible_kept (y y' : sys) T T' av av' K r a :
  World y T av K -> World y' T' av' K -> isolated y y' T T' K (cr3_of c y) -> cr3_of c y' = cr3_of c y ->
  is_Some (y_spaces y !! r) -> 0 <= a ->
  accessible (pmem (y_phys y)) r a = true -> accessible (pmem (y_phys y')) r a = true.
Proof.
  intros HW HW' HI Ecr [sp Hr] H0a Hacc. pose proof (wo_spaces _ _ _ _ HW) as HS. pose proof (wo_spaces _ _ _ _ HW') as HS'.
  pose proof (accessible_user _ _ _ _ _ _ r sp a HS Hr H0a Hacc) as Hu. apply user_page in Hu.
  assert (exists sp', y_spaces y' !! r = Some sp' /\
    forall k e, length k = 4%nat -> T r !! k = Some e -> T' r !! k = Some e) as (sp' & Hr' & Hk).
  { destruct (decide (r = cr3_of c y)) as [->|Hne].
    - destruct (wo_caller _ _ _ _ HW') as [sp' Hr']. rewrite Ecr in Hr'. exists sp'. split; [done|apply (is_own _ _ _ _ _ _ HI)].
    - destruct (is_space _ _ _ _ _ _ HI r sp Hne Hr) as [Hr' ->]. by exists sp. }
  destruct (ss_space _ _ _ _ _ _ HS r sp Hr) as (_ & HSp & _). destruct (ss_space _ _ _ _ _ _ HS' r sp' Hr') as (_ & HSp' & _).
  unfold accessible in *. apply andb_true_iff in Hacc as [-> Hp]. change (Z.lor PAGE_PRESENT PAGE_USER) with USER_BITS in *.
  rewrite (page_present_tree _ _ _ _ HSp Hu) in Hp. rewrite (page_present_tree _ _ _ _ HSp' Hu).
  destruct (T r !! path (page_of a)) as [e|] eqn:E; [|done]. by rewrite (Hk (path (page_of a)) e eq_refl E).
Qed.

(** * Nothing is touched without a check *)

Definition checked {A} (m : M sys A) : Prop := forall y, y_fault (m y).1 = y_fault y.

Lemma checked_bind {A B} (m : M sys A) (k : A -> M sys B) : checked m -> (forall a, checked (k a)) -> checked (kbind m k).
Proof.
  intros Hm Hk y. specialize (Hm y). unfold kbind. destruct (m y) as [y1 [a|e| |]]; try done. by rewrite Hk.
Qed.

Lemma checked_phys {A} (m : M phys A) : checked (in_phys m).
Proof. intros y. unfold in_phys. by destruct (m (y_phys y)). Qed.

Lemma checked_heap {A} (m : M heap A) : checked (in_heap m).
Proof. intros y. unfold in_heap. by destruct (m (y_heap y)). Qed.

Lemma checked_task entry rsp rdi rsi space files : checked (add_user_task trampoline entry rsp rdi rsi space files).
Proof.
  apply checked_bind; [apply checked_heap|]. intros stack. apply checked_bind.
  { destruct (stack =? 0); [done|]. intros y. apply (q_fault c), quietly_arith64. }
  intros _. apply checked_bind.
  - intros y. unfold in_sched. by destruct (add_new_user_task _ _ _ _ _ _).
  - intros id. destruct (stack =? 0); [done|]. apply checked_bind; [apply checked_heap|done].
Qed.

Lemma checked_exec data args t : checked (exec_image data args t).
Proof.
  apply checked_bind; [apply checked_phys|]. intros [sp|]; [|done].
  apply checked_bind; [apply checked_phys|]. intros [e|[[entry rsp] ap]]; [apply checked_bind; [apply checked_phys|done]|].
  apply checked_bind; [apply checked_task|]. intros [id|]; apply checked_bind; done || apply checked_phys.
Qed.

Lemma effect_checked (y y' : sys) : effect c kernel_pml4 trampoline y y' -> y_fault y' = y_fault y.
Proof.
  intros (y1 & y2 & H1 & H2 & H3). rewrite (q_fault _ _ _ H3), <- (q_fault _ _ _ H1). clear - H2.
  destruct H2 as [|l Hl|bytes Hb|data args t Hb|entry rsp rdi rsi space files].
  - done.
  - simpl. assert (forallb (fun ab => reachable c y1 ab.1 (zlen ab.2)) l = true) as ->; [|apply orb_false_r].
    rewrite Forall_forall in Hl. apply forallb_forall. intros ab Hin%list_elem_of_In. by apply Hl.
  - unfold sys_heap_grow. revert y1. apply checked_bind; [done|]. intros [sp|]; [|done].
    apply checked_bind; [apply checked_phys|]. by intros [sp' r].
  - apply checked_exec.
  - apply checked_task.
Qed.

End world.
