(* ===== verification/SyscallTheorems.v ===== *)
(** What system calls promise: memory is touched only after a check, also after
    a wait, programs are isolated, and a program starts as its file says. *)

From S2P Require Import Prelude Utf8 BlockDev Fat FatList FatRep FatSpec FatOps FatFormat FatApi FatTheorems FileTable FileInv Frame FrameProofs Heap HeapInv HeapOps HeapTheorems Paging PagingProofs Space SpaceDrop SpaceHeap SpaceTheorems Loader Sched Context Syscall SyscallMem SyscallInv SyscallAct SyscallWorld.
Import HeapInv Ram.
Open Scope kmonad_scope.

Section theorems.
Context {D : Type} `{ReliableDevice D} {BU : Build} `{KernelHalf}.
Context (c : nat) (kernel_pml4 trampoline : Z).
Abbreviation sys := (Syscall.sys (D := D)).
Abbreviation World := (SyscallWorld.World c kernel_pml4).
Implicit Types (T : Z -> tree) (K : gset Z).

(** C3: system calls keep programs apart.  In a build with overflow checks,
    whatever the number and the arguments of a call, it touches user memory only
    where the caller could itself, it leaves the frames of the kernel and
    everything other programs see (their mappings and every byte) as they were,
    it takes no page from any program, and it leads from a state in which
    address spaces, kernel and heap are in order to such a state.  When the call
    has to wait, the same holds of what it stores on waking up, on whatever
    processor, as long as the caller still has its pages; no call takes them.
    Without overflow checks all this holds but for [sys_fsls] with 2^58 entries
    or more, whose size in bytes the code does not check. *)
Theorem syscall_isolation (y : sys) T av K id arg1 arg2 arg3 arg4 arg5 y' r :
  World y T av K -> args_ok id arg1 arg2 arg3 arg4 arg5 -> disk_bytes (kfs (y_kern y)) ->
  syscall_dispatcher_impl c kernel_pml4 trampoline id arg1 arg2 arg3 arg4 arg5 y = (y', r) ->
  y_fault y' = y_fault y /\
  (exists T' av', World y' T' av' K /\ isolated y y' T T' K (cr3_of c y)) /\
  (forall root a, is_Some (y_spaces y !! root) -> 0 <= a ->
     accessible (pmem (y_phys y)) root a = true -> accessible (pmem (y_phys y')) root a = true) /\
  (forall p, r = Ok (inr p) -> forall c2 (y2 : sys) T2 av2 data from,
     SyscallWorld.World c2 kernel_pml4 y2 T2 av2 K -> cr3_of c2 y2 = cr3_of c y -> length from.1 = 4%nat ->
     (forall a, 0 <= a -> accessible (pmem (y_phys y')) (cr3_of c y) a = true ->
        accessible (pmem (y_phys y2)) (cr3_of c y) a = true) ->
     let y3 := (finish c2 p data from y2).1 in
     y_fault y3 = y_fault y2 /\
     exists T3 av3, SyscallWorld.World c2 kernel_pml4 y3 T3 av3 K /\ isolated y2 y3 T2 T3 K (cr3_of c y)).
Proof.
  intros HW Ha Hd Hrun. pose proof (dispatch_effect c kernel_pml4 trampoline _ _ _ _ _ _ y Ha Hd) as He.
  unfold acts in He. rewrite Hrun in He. simpl in He.
  destruct (effect_preserves c kernel_pml4 trampoline y y' He T av K HW) as (T' & av' & HW' & HI & Ecr).
  split; [by apply (effect_checked c kernel_pml4 trampoline)|]. split; [by exists T', av'|]. split.
  - intros root a. by apply (accessible_kept c kernel_pml4 y y' T T' av av' K).
  - intros p -> c2 y2 T2 av2 data from HW2 Ecr2 Hf Hacc y3.
    pose proof (dispatch_reaches c kernel_pml4 trampoline _ _ _ _ _ _ Ha y y' p Hrun) as Hp.
    apply (reaches_later c c2 y' y2) in Hp; [|by rewrite Ecr2|by rewrite Ecr].
    pose proof (finish_acts c2 kernel_pml4 trampoline y2 p data from Hp Hf) as Hfin. unfold acts in Hfin. fold y3 in Hfin.
    split; [by apply (effect_checked c2 kernel_pml4 trampoline)|].
    destruct (effect_preserves c2 kernel_pml4 trampoline y2 y3 Hfin T2 av2 K HW2) as (T3 & av3 & HW3 & HI3 & _).
    exists T3, av3. by rewrite <- Ecr2.
Qed.

(** Without overflow checks [sys_fsls] accepts every lower-half address and
    writes the listing there. *)
Lemma fsls_overflow ptr (y : sys) k' f l :
  overflow_checks = false ->
  0 < ptr <= USER_TOP -> list_files (kfs (y_kern y)) = (k', Ok (f :: l)) ->
  accessible (pmem (y_phys y)) (cr3_of c y) ptr = false -> y_fault (sys_fsls c ptr (2 ^ 58) y).1 = true.
Proof.
  intros Hb Hp Hl Ha. unfold sys_fsls, in_kern, in_fs. rewrite Hl. cbn beta iota.
  rewrite (proj2 (Z.eqb_neq ptr 0)) by lia. cbn [negb andb]. change (0 <? 2 ^ 58) with true. cbn iota.
  set (y1 := mk_sys _ _ _ _ _ _ _). assert (user_range_ok (pmem (y_phys y1)) (cr3_of c y1) ptr 0 = true) as Hok.
  { unfold user_range_ok, checked_add64, USER_TOP, u64_max in *. rewrite Z.add_0_r. zcase; simpl; lia || done. }
  rewrite (kbind_Ok _ _ y1 y1 0) by (unfold arith64; by rewrite Hb).
  unfold range_ok, gets. rewrite (kbind_Ok _ _ y1 y1 true); [|by rewrite Hok]. cbn [negb].
  assert (zlen l >= 0) as Hz by (unfold zlen; lia).
  assert (take (Z.to_nat (Z.min (zlen (f :: l)) (2 ^ 58))) (f :: l) = f :: take (Z.to_nat (Z.min (zlen (f :: l)) (2 ^ 58)) - 1) l) as ->.
  { assert (Z.to_nat (Z.min (zlen (f :: l)) (2 ^ 58)) = S (Z.to_nat (Z.min (zlen (f :: l)) (2 ^ 58)) - 1)) as ->;
      [unfold zlen; simpl length; lia|]. simpl. by rewrite Nat.sub_0_r. }
  unfold entry_pieces. rewrite imap_cons. unfold ustores, modify, kbind, kret. cbn [fst snd y_fault forallb].
  assert (reachable c y1 (ptr + entry_size * Z.of_nat 0) (zlen (file_entry f)) = false) as ->; [|by rewrite orb_true_r].
  rewrite Z.mul_0_r, Z.add_0_r. unfold reachable.
  assert (0 < zlen (file_entry f)) as Hlen.
  { unfold file_entry. rewrite !zlen_app. change (zlen [_]) with 1. pose proof (zlen_nonneg (le_bytes 8 (psize f))).
    pose proof (zlen_nonneg (le_bytes 2 (pfirst f))). unfold zlen in *. lia. }
  rewrite seqZ_cons by lia. cbn [forallb]. change (pmem (y_phys y1)) with (pmem (y_phys y)).
  change (cr3_of c y1) with (cr3_of c y). by rewrite Ha.
Qed.

(** The name and the file of a program to start. *)
Lemma exec_file_named (y : sys) files n nm data ptr len args t :
  FS (kfs (y_kern y)) files n -> files !! nm = Some data -> good_name nm -> 0 <= ptr -> 0 <= len ->
  user_range_ok (pmem (y_phys y)) (cr3_of c y) ptr len = true ->
  load_user (pmem (y_phys y)) (cr3_of c y) ptr len = nm -> Utf8.from_utf8 nm = true ->
  exec_file c kernel_pml4 trampoline ptr len args t y = exec_image kernel_pml4 trampoline data args t y.
Proof.
  intros HF Hnm Hg Hp Hl Hok Hload Hutf. assert (zlen nm = len) as Hlen.
  { rewrite <- Hload. unfold load_user, zlen. rewrite length_fmap, length_seqZ. lia. }
  destruct Hg as [Hg1 Hg2]. unfold exec_file.
  destruct (Z.eqb_spec ptr 0) as [->|_]; [done|]. destruct (Z.eqb_spec len 0); [lia|]. destruct (Z.ltb_spec 255 len); [lia|].
  cbn [orb]. rewrite (kbind_Ok _ _ y y (Some nm)).
  - unfold in_kern, in_fs, read_file. rewrite (read_file_spec (kfs (y_kern y)) files n nm HF (conj Hg1 Hg2)), Hnm. by destruct y as [? []].
  - unfold user_str, range_ok, gets. rewrite (kbind_Ok _ _ y y true) by (by rewrite Hok). cbn [negb].
    rewrite (kbind_Ok _ _ y y nm); [by rewrite Hutf|]. rewrite <- Hload. apply uload_reachable. by apply range_reachable.
Qed.

(** C4: starting a program by name.  When the caller names a file of the
    volume, either a new task with the next number is queued, in a new address
    space that holds exactly the file's image, its zero-filled rest and a stack
    with the arguments, the task's kernel stack enters that image with the
    arguments in its registers, and the descriptor table is the task's; or the
    call returns [usize::MAX] because a frame, a valid image or kernel heap was
    missing, and then no frame, no heap and no task remains of it and the
    descriptor table is closed.  All frames in use before keep their
    contents. *)
Theorem exec_program_correct (y : sys) T av K A files n nm data ptr len args t :
  World y T av K -> HeapInv.Rep A (y_heap y) ->
  FS (kfs (y_kern y)) files n -> files !! nm = Some data -> bytes_ok data -> good_name nm -> 0 <= ptr -> 0 <= len ->
  user_range_ok (pmem (y_phys y)) (cr3_of c y) ptr len = true ->
  load_user (pmem (y_phys y)) (cr3_of c y) ptr len = nm -> Utf8.from_utf8 nm = true ->
  exists y' T' av' r, exec_program c kernel_pml4 trampoline ptr len args t y = (y', Ok r) /\
    Spaces kernel_pml4 (y_phys y') (y_spaces y') T' av' K /\
    agree (frames_of (dom (y_spaces y)) T K) (pmem (y_phys y)) (pmem (y_phys y')) /\
    (r = next_id (y_sched y) /\ y_kern y' = y_kern y /\
       (exists root stack, started trampoline y y' T T' A data args t root stack) \/
     r = usize_max /\ refused kernel_pml4 y A av data args /\
       T' = T /\ y_spaces y' = y_spaces y /\ y_heap y' = y_heap y /\ tasks (y_sched y') = tasks (y_sched y) /\
       frames_in_use (y_phys y') = frames_in_use (y_phys y) /\ y_kern y' = (drop_table t (y_kern y)).1).
Proof.
  intros HW HR HF Hnm Hb Hg Hp Hl Hok Hload Hutf.
  destruct (exec_image_spec kernel_pml4 trampoline data args t y T av K A (wo_spaces _ _ _ _ _ _ HW) HR Hb)
    as (y1 & T' & av' & r & Hrun & [HS Ha Hk Hf] & Hres). unfold exec_program.
  rewrite (kbind_Ok _ _ y y1 r) by (by rewrite (exec_file_named y files n nm data)).
  destruct r as [id|].
  - destruct Hres as [-> Hst]. exists y1, T', av', (next_id (y_sched y)). split_and!; [done|done|done|left].
    split_and!; done.
  - destruct Hres as (-> & Hsp & Hh & Href & Hs). eexists _, T, av', usize_max. split; [reflexivity|].
    cbn [y_phys y_spaces y_heap y_sched y_kern]. rewrite Hk. split_and!; [done|done|right].
    split_and!; [done|done|done|done|done|by destruct Hs as [-> | ->]| |done].
    unfold frames_in_use. rewrite (pl_use _ _ _ (ss_pool _ _ _ _ _ _ HS)), (pl_use _ _ _ (ss_pool _ _ _ _ _ _ (wo_spaces _ _ _ _ _ _ HW))).
    by rewrite Hsp.
Qed.

End theorems.

(** * Witnesses: a program on a RAM disk starts another *)

#[local] Existing Instance empty_half.
#[local] Existing Instance dev_build.

Lemma demo_file_bytes : bytes_ok demo_file.
Proof. vm_compute. repeat constructor; discriminate. Qed.

(** The disk with the program "a". *)
Definition ram_kef : fs ram_disk := (create_file_unlocked name_a demo_file ram_formatted).1.

Lemma ram_kef_FS : FS ram_kef {[name_a := demo_file]} 2036.
Proof.
  destruct (create_file_spec ram_formatted ∅ 2037 name_a demo_file) as (s' & m & _ & Hm & Hc);
    [apply ram_formatted_FS|apply name_a_good|apply demo_file_bytes|done|].
  rewrite Hm in Hc by done. rewrite !decide_True in Hc by done. destruct Hc as [Hrun HF].
  unfold ram_kef. by rewrite Hrun.
Qed.

Lemma ram_kef_bytes : disk_bytes ram_kef.
Proof.
  destruct ram_kef_FS as (v & tbl & [Hok _ _ _ _ _ _] & _). unfold disk_bytes. revert Hok.
  generalize (dev ram_kef). intros [m|] Hok lba count l; [|done]. cbn. unfold ram_read, transfer_check.
  destruct (checked_add64 lba count) as [fin|]; [|done]. destruct (fin <=? _); [|done]. intros [= <-].
  unfold sectors. apply Forall_concat, Forall_fmap, Forall_forall. intros i _.
  by apply (ram_block_shape (Some m) i).
Qed.

(** The kernel before the first program, and with it. *)
Definition boot_sys : sys (D := ram_disk) :=
  mk_sys kernel_pool (mk_kernel ram_kef ∅ ∅ 0 [with_console]) (sched_init 1 0x1000)
    (Heap.init 0x100000 0x100000 (Heap.new mem0)) ∅ [] false.
Definition first_sys := (exec_image 0x1000 0x5000 demo_file name_a 0%nat boot_sys).1.

(** The first program runs on processor 0. *)
Definition running (y : sys (D := ram_disk)) : sys (D := ram_disk) :=
  mk_sys (y_phys y) (y_kern y)
    (with_cpu 0 (fun _ => mk_cpu 0 0 (Some 1%nat) 0 0 false 0x2000 0 1 None Run) (y_sched y))
    (y_heap y) (y_spaces y) [] false.
Definition demo_sys : sys (D := ram_disk) := running first_sys.

Lemma running_World (y : sys (D := ram_disk)) T av K A sp :
  SyscallInv.Spaces 0x1000 (y_phys y) (y_spaces y) T av K -> y_spaces y !! 0x2000 = Some sp ->
  current_address_space 0 (y_sched (running y)) = Some 0x2000 -> Rep A (y_heap y) ->
  World 0 0x1000 (running y) T av K /\ Rep A (y_heap (running y)).
Proof. intros HS Hr Hc HR. split; [|done]. split; [done|done|by exists sp|by exists A]. Qed.

Lemma boot_Spaces : Spaces 0x1000 (y_phys boot_sys) (y_spaces boot_sys) (fun _ => ∅) (tail (future (mk_fa [mk_desc 7 0x1000 40] 0 0))) {[0x1000]}.
Proof.
  simpl. split.
  - assert (frames_of (dom (∅ : gmap Z AddressSpace)) (fun _ => ∅) {[0x1000]} = {[0x1000]}) as ->; [|apply kernel_pool_Pool].
    apply set_eq. intros f. rewrite elem_of_frames_of. set_solver.
  - intros r sp. by rewrite lookup_empty.
  - intros r r'. set_solver.
  - intros r. set_solver.
  - set_solver.
  - apply mem_words_ok, kernel_mem_ok.
  - apply kernel_pool_half.
  - intros m' Ha a Hr Hu. destruct (index_kernel a Hr Hu) as [Hi Hn]. unfold page_present. cbn [present_walk].
    change (Z.land (Z.shiftr a 39) 511) with (index a 39). rewrite (entry_agree (pmem kernel_pool) m') by done.
    rewrite (kernel_pool_half _ Hi Hn). done.
Qed.

Lemma boot_heap : Rep (HeapTheorems.init_heap 0x100000 0x100000) (y_heap boot_sys).
Proof. by apply HeapTheorems.init_Rep. Qed.

(** The first program was started, in the second frame. *)
Lemma first_result : (exec_image 0x1000 0x5000 demo_file name_a 0%nat boot_sys).2 = Ok (Some 1).
Proof. vm_compute. reflexivity. Qed.

Lemma first_root : y_spaces first_sys !! 0x2000 = Some (mk_space 0x2000 USER_HEAP_BASE).
Proof. vm_compute. reflexivity. Qed.

Lemma first_current : current_address_space 0 (y_sched demo_sys) = Some 0x2000.
Proof. vm_compute. reflexivity. Qed.

Lemma demo_World : exists T av A, World 0 0x1000 demo_sys T av {[0x1000]} /\ Rep A (y_heap demo_sys).
Proof.
  destruct (exec_image_spec 0x1000 0x5000 demo_file name_a 0%nat boot_sys _ _ _ _ boot_Spaces boot_heap demo_file_bytes)
    as (y' & T' & av' & r & Hrun & [HS _ _ _] & Hres).
  pose proof first_result as Hr. rewrite Hrun in Hr. cbn [snd] in Hr. injection Hr as ->.
  destruct Hres as (_ & root & stack & [_ _ _ (? & ? & ? & ? & _ & _ & A' & [HR _ _ _ _]) _]).
  assert (y' = first_sys) as -> by (unfold first_sys; by rewrite Hrun).
  exists T', av', A'. exact (running_World _ _ _ _ _ _ HS first_root first_current HR).
Qed.

(** Where the program's argument, the name "a", is in its memory. *)
Definition name_ptr : Z := args_place 1.

Lemma name_range : user_range_ok (pmem (y_phys demo_sys)) (cr3_of 0 demo_sys) name_ptr 1 = true.
Proof. vm_compute. reflexivity. Qed.

Lemma name_loaded : load_user (pmem (y_phys demo_sys)) (cr3_of 0 demo_sys) name_ptr 1 = name_a.
Proof. vm_compute. reflexivity. Qed.

(** The program starts another one; and it reads from the console into its
    stack, and is woken with a byte. *)
Lemma syscall_isolation_witness :
  (exists T y' r,
    syscall_dispatcher_impl 0 0x1000 0x5000 21 name_ptr 1 0 0 0 demo_sys = (y', r) /\ r = Ok (inl 2) /\
    y_fault y' = false /\
    exists T' (av' : list Z), World 0 0x1000 y' T' av' {[0x1000]} /\ isolated demo_sys y' T T' {[0x1000]} (cr3_of 0 demo_sys)) /\
  (exists p y', syscall_dispatcher_impl 0 0x1000 0x5000 30 0 name_ptr 1 0 0 demo_sys = (y', Ok (inr p)) /\
    y_fault (finish 0 p [13] ([0; 0; 0; 0], 0) y').1 = false).
Proof.
  destruct demo_World as (T & av & A & HW & _). split.
  - destruct (syscall_dispatcher_impl 0 0x1000 0x5000 21 name_ptr 1 0 0 0 demo_sys) as [y' r] eqn:E.
    exists T, y', r. split; [reflexivity|]. split.
    { change r with (y', r).2. rewrite <- E. vm_compute. reflexivity. }
    destruct (syscall_isolation 0 0x1000 0x5000 demo_sys T av {[0x1000]} 21 name_ptr 1 0 0 0 y' r HW) as (H1 & H2 & _);
      [|exact ram_kef_bytes|exact E|exact (conj H1 H2)].
    split; [repeat constructor; vm_compute; discriminate|discriminate].
  - destruct (syscall_dispatcher_impl 0 0x1000 0x5000 30 0 name_ptr 1 0 0 demo_sys) as [y' r] eqn:E.
    assert (r = Ok (inr (PRead ToConsole name_ptr 1))) as ->.
    { change r with (y', r).2. rewrite <- E. vm_compute. reflexivity. }
    destruct (syscall_isolation 0 0x1000 0x5000 demo_sys T av {[0x1000]} 30 0 name_ptr 1 0 0 y'
      (Ok (inr (PRead ToConsole name_ptr 1))) HW) as (H1 & (T' & av' & HW' & _) & _ & H3);
      [split; [repeat constructor; vm_compute; discriminate|discriminate]|exact ram_kef_bytes|exact E|].
    exists (PRead ToConsole name_ptr 1), y'. split; [reflexivity|].
    assert (cr3_of 0 y' = cr3_of 0 demo_sys) as Ecr.
    { change y' with (y', Ok (A := Z + pending) (inr (PRead ToConsole name_ptr 1))).1. rewrite <- E. vm_compute. reflexivity. }
    destruct (H3 _ eq_refl 0%nat y' T' av' [13] ([0; 0; 0; 0], 0) HW' Ecr eq_refl (fun a _ H => H)) as [H4 _].
    rewrite H4, H1. reflexivity.
Defined.

Lemma exec_program_correct_witness :
  exists T (av : list Z) A y' T' (av' : list Z) r, exec_program 0 0x1000 0x5000 name_ptr 1 [] 0 demo_sys = (y', Ok r) /\
    Spaces 0x1000 (y_phys y') (y_spaces y') T' av' {[0x1000]} /\
    agree (frames_of (dom (y_spaces demo_sys)) T {[0x1000]}) (pmem (y_phys demo_sys)) (pmem (y_phys y')) /\
    (r = next_id (y_sched demo_sys) /\ y_kern y' = y_kern demo_sys /\
       (exists root stack, started 0x5000 demo_sys y' T T' A demo_file [] 0 root stack) \/
     r = usize_max /\ refused 0x1000 demo_sys A av demo_file [] /\
       T' = T /\ y_spaces y' = y_spaces demo_sys /\ y_heap y' = y_heap demo_sys /\
       tasks (y_sched y') = tasks (y_sched demo_sys) /\
       frames_in_use (y_phys y') = frames_in_use (y_phys demo_sys) /\ y_kern y' = (drop_table 0 (y_kern demo_sys)).1).
Proof.
  destruct demo_World as (T & av & A & HW & HR). exists T, av, A.
  apply (exec_program_correct 0 0x1000 0x5000 demo_sys T av {[0x1000]} A {[name_a := demo_file]} 2036 name_a demo_file
    name_ptr 1 [] 0 HW HR ram_kef_FS); [apply lookup_singleton_eq|exact demo_file_bytes|exact name_a_good|by vm_compute|lia|
    exact name_range|exact name_loaded|reflexivity].
Defined.
