(* ===== verification/Checksum.v ===== *)
(** The Internet checksum of src/src/drivers/net/helper.rs: the loops of
    [calculate_checksum] and [transport_checksum] on 32-bit accumulators, their
    equality with the ones' complement sum of RFC 1071, and the fact the
    receivers rely on: a segment that carries its checksum sums to 0. *)

From S2P Require Import Prelude.

(** [u16::from_be_bytes([a, b])], also written [(a << 8) | b] in the source. *)
Definition be16 (a b : Z) : Z := a * 256 + b.

(** The [while] loops over pairs of bytes, with the odd byte as the high half
    of a last word; [sum] is a [u32]. *)
Fixpoint add_words (data : list Z) (sum : Z) : Z :=
  match data with
  | a :: b :: data => add_words data (u32 (sum + be16 a b))
  | [a] => u32 (sum + Z.shiftl a 8)
  | [] => sum
  end.

(** [while sum >> 16 != 0 { sum = (sum & 0xFFFF) + (sum >> 16) }] *)
Fixpoint fold_carries (fuel : nat) (sum : Z) : res Z :=
  if Z.shiftr sum 16 =? 0 then Ok sum else
  match fuel with
  | O => Hang
  | S fuel => fold_carries fuel (u32 (Z.land sum 0xFFFF + Z.shiftr sum 16))
  end.

(** A 32-bit sum needs at most two rounds. *)
Definition fold_fuel : nat := 2.

(** [!(sum as u16)] *)
Definition not16 (sum : Z) : Z := 0xFFFF - u16 sum.

Definition finish (sum : Z) : res Z :=
  match fold_carries fold_fuel sum with
  | Ok s => Ok (not16 s)
  | Err e => Err e
  | Panic => Panic
  | Hang => Hang
  end.

(** On an empty slice [data.len() - 1] underflows: the arithmetic check or the
    index [data[0]] panics. *)
Definition calculate_checksum (data : list Z) : res Z :=
  if zlen data =? 0 then Panic else finish (add_words data 0).

(** The pseudo-header of [transport_checksum]: the two addresses as words, the
    protocol and the length. *)
Definition pseudo_sum (src dst : list Z) (protocol len : Z) : Z :=
  u32 (add_words dst (add_words src 0) + u32 (protocol + u32 len)).

Definition transport_checksum (src dst : list Z) (protocol : Z) (segment : list Z) : res Z :=
  finish (add_words segment (pseudo_sum src dst protocol (zlen segment))).

(** ** The reference: RFC 1071 *)

(** The sum of the 16-bit words of a byte string, unbounded. *)
Fixpoint word_sum (data : list Z) : Z :=
  match data with
  | a :: b :: data => be16 a b + word_sum data
  | [a] => be16 a 0
  | [] => 0
  end.

(** The ones' complement of the ones' complement sum: 16-bit addition with
    end-around carry is addition modulo 2^16 - 1, where a sum that is not 0 has
    the representative 0xFFFF. *)
Definition ones_complement (s : Z) : Z :=
  if s =? 0 then 0xFFFF else if s mod 0xFFFF =? 0 then 0 else 0xFFFF - s mod 0xFFFF.

(** ** Lemmas *)

(** Induction on a list two elements at a time. *)
Lemma pair_ind (P : list Z -> Prop) :
  P [] -> (forall a, P [a]) -> (forall a b l, P l -> P (a :: b :: l)) -> forall l, P l.
Proof.
  intros H0 H1 H2 l. assert (P l /\ forall a, P (a :: l)) as [H _]; [|exact H].
  induction l as [|a l [IH IH']]; auto.
Qed.

Lemma word_sum_bound l : bytes_ok l -> 0 <= word_sum l <= 0xFFFF * zlen l.
Proof.
  unfold zlen, bytes_ok. induction l as [|a|a b l IH] using pair_ind; intros H; simpl; [lia| |].
  - apply Forall_cons in H as [H _]. unfold is_byte, be16 in *. lia.
  - apply Forall_cons in H as [Ha H]. apply Forall_cons in H as [Hb H]. specialize (IH H).
    unfold is_byte, be16 in *. lia.
Qed.

Lemma add_words_sum l s :
  bytes_ok l -> 0 <= s -> s + word_sum l < 2 ^ 32 -> add_words l s = s + word_sum l.
Proof.
  revert s. unfold bytes_ok.
  induction l as [|a|a b l IH] using pair_ind; intros s H Hs Hb; simpl in *; [lia| |].
  - apply Forall_cons in H as [H _]. unfold is_byte, be16, u32 in *.
    rewrite Z.shiftl_mul_pow2 by lia. change (2 ^ 8) with 256. rewrite Z.mod_small; lia.
  - apply Forall_cons in H as [Ha H]. apply Forall_cons in H as [Hb' H].
    pose proof (word_sum_bound l H). unfold is_byte, be16, u32 in *.
    rewrite Z.mod_small by lia. rewrite IH; [lia|done|lia|lia].
Qed.

Lemma fold_carries_step fuel s :
  0 <= s < 2 ^ 32 -> 2 ^ 16 <= s ->
  fold_carries (S fuel) s = fold_carries fuel (s mod 2 ^ 16 + s / 2 ^ 16).
Proof.
  intros H1 H2. simpl. rewrite Z.shiftr_div_pow2 by lia.
  destruct (Z.eqb_spec (s / 2 ^ 16) 0) as [E|_]; [dlia|].
  change 0xFFFF with (Z.ones 16). rewrite Z.land_ones by lia.
  f_equal. unfold u32. apply Z.mod_small. dlia.
Qed.

Lemma fold_carries_done fuel s : 0 <= s < 2 ^ 16 -> fold_carries fuel s = Ok s.
Proof.
  intros. destruct fuel; simpl; rewrite Z.shiftr_div_pow2, Z.div_small by lia; done.
Qed.

(** One round keeps the sum modulo 2^16 - 1, and keeps it positive. *)
Lemma round_mod s :
  0 <= s -> (s mod 2 ^ 16 + s / 2 ^ 16) mod 0xFFFF = s mod 0xFFFF.
Proof.
  intros. replace s with (s mod 2 ^ 16 + s / 2 ^ 16 + (s / 2 ^ 16) * 0xFFFF) at 3 by dlia.
  by rewrite Z.mod_add by lia.
Qed.

Lemma fold_carries_sum s :
  0 <= s < 2 ^ 32 ->
  exists f, fold_carries fold_fuel s = Ok f /\ 0 <= f < 2 ^ 16 /\
            f mod 0xFFFF = s mod 0xFFFF /\ (f = 0 <-> s = 0).
Proof.
  intros H. unfold fold_fuel. destruct (Z.lt_ge_cases s (2 ^ 16)) as [Hs|Hs].
  { exists s. rewrite fold_carries_done by lia. auto with lia. }
  rewrite fold_carries_step by lia. set (s1 := s mod 2 ^ 16 + s / 2 ^ 16).
  assert (0 < s1 <= 0x1FFFE) by (unfold s1; dlia).
  assert (s1 mod 0xFFFF = s mod 0xFFFF) as E1 by (apply round_mod; lia).
  destruct (Z.lt_ge_cases s1 (2 ^ 16)) as [H1|H1].
  { exists s1. rewrite fold_carries_done by lia. split_and!; [done|lia|lia|done|lia]. }
  rewrite fold_carries_step by lia. set (s2 := s1 mod 2 ^ 16 + s1 / 2 ^ 16).
  assert (0 < s2 < 2 ^ 16) by (unfold s2; dlia).
  exists s2. rewrite fold_carries_done by lia.
  split_and!; [done|lia|lia| |lia]. rewrite <- E1. unfold s2. apply round_mod. lia.
Qed.

Lemma finish_sum s : 0 <= s < 2 ^ 32 -> finish s = Ok (ones_complement s).
Proof.
  intros H. destruct (fold_carries_sum s H) as (f & E & Hf & Hm & Hz).
  unfold finish, not16, ones_complement, u16. rewrite E, (Z.mod_small f) by lia. f_equal.
  destruct (Z.eqb_spec s 0) as [E0|E0]; [lia|].
  assert (f <> 0) by tauto. rewrite <- Hm. destruct (Z.eq_dec f 0xFFFF) as [->|]; [done|].
  rewrite (Z.mod_small f) by lia. destruct (Z.eqb_spec f 0); lia.
Qed.

Lemma finish_zero s : 0 <= s < 2 ^ 32 -> finish s = Ok 0 <-> 0 < s /\ s mod 0xFFFF = 0.
Proof.
  intros H. rewrite finish_sum by done. unfold ones_complement.
  destruct (Z.eqb_spec s 0); [split; [discriminate|lia]|].
  pose proof (Z.mod_pos_bound s 0xFFFF).
  destruct (Z.eqb_spec (s mod 0xFFFF) 0); split; intros; simplify_eq; auto with lia.
Qed.

(** The sum of a string in which two bytes at an even offset are replaced. *)
Lemma word_sum_app l k : Z.even (zlen l) = true -> word_sum (l ++ k) = word_sum l + word_sum k.
Proof.
  unfold zlen. induction l as [|a|a b l IH] using pair_ind; intros H; [done|done|].
  simpl length in H. rewrite !Nat2Z.inj_succ, Z.even_succ_succ in H.
  simpl. rewrite IH by done. lia.
Qed.

Lemma word_sum_zero_field l k x y :
  Z.even (zlen l) = true -> word_sum (l ++ [x; y] ++ k) = word_sum (l ++ [0; 0] ++ k) + be16 x y.
Proof. intros. rewrite !word_sum_app by done. simpl. unfold be16. lia. Qed.

(** An IPv4 address. *)
Definition ip_ok (ip : list Z) : Prop := bytes_ok ip /\ zlen ip = 4.

Lemma pseudo_sum_eq src dst protocol len :
  ip_ok src -> ip_ok dst -> is_byte protocol -> 0 <= len < 2 ^ 16 ->
  pseudo_sum src dst protocol len = word_sum src + word_sum dst + protocol + len.
Proof.
  intros [H1 L1] [H2 L2] H3 H4. unfold pseudo_sum, is_byte in *.
  pose proof (word_sum_bound src H1). pose proof (word_sum_bound dst H2).
  rewrite (add_words_sum src) by (done || lia). rewrite (add_words_sum dst) by (done || lia).
  unfold u32. rewrite (Z.mod_small len) by lia. rewrite (Z.mod_small (protocol + len)) by lia.
  rewrite Z.mod_small; lia.
Qed.

(** What is summed for a segment, pseudo-header included. *)
Definition transport_sum (src dst : list Z) (protocol : Z) (segment : list Z) : Z :=
  word_sum src + word_sum dst + protocol + zlen segment + word_sum segment.

Lemma transport_sum_bound src dst protocol segment :
  ip_ok src -> ip_ok dst -> is_byte protocol -> bytes_ok segment -> zlen segment < 2 ^ 15 ->
  0 <= transport_sum src dst protocol segment < 2 ^ 32.
Proof.
  intros [H1 L1] [H2 L2] H3 H4 H5. unfold transport_sum, is_byte in *.
  pose proof (word_sum_bound src H1). pose proof (word_sum_bound dst H2).
  pose proof (word_sum_bound segment H4). pose proof (zlen_nonneg segment). lia.
Qed.

Lemma transport_checksum_eq src dst protocol segment :
  ip_ok src -> ip_ok dst -> is_byte protocol -> bytes_ok segment -> zlen segment < 2 ^ 15 ->
  transport_checksum src dst protocol segment = finish (transport_sum src dst protocol segment).
Proof.
  intros H1 H2 H3 H4 H5. pose proof (transport_sum_bound src dst protocol segment H1 H2 H3 H4 H5).
  destruct (id H1) as [B1 L1]. destruct (id H2) as [B2 L2].
  pose proof (word_sum_bound src B1). pose proof (word_sum_bound dst B2).
  pose proof (word_sum_bound segment H4). pose proof (zlen_nonneg segment).
  unfold transport_checksum, is_byte in *. rewrite pseudo_sum_eq by (done || lia).
  unfold transport_sum in *. rewrite add_words_sum by (done || lia). done.
Qed.

(** Filling in the checksum field: [finish] of the sum with the field zeroed,
    written big endian, makes the whole sum verify. *)
Lemma finish_fills s c : 0 <= s < 2 ^ 31 -> finish s = Ok c -> finish (s + c) = Ok 0 /\ 0 <= c < 2 ^ 16.
Proof.
  intros H E. rewrite finish_sum in E by lia. injection E as <-.
  assert (0 <= ones_complement s < 2 ^ 16 /\ 0 < s + ones_complement s /\
          (s + ones_complement s) mod 0xFFFF = 0) as (B & P & Q).
  { unfold ones_complement. pose proof (Z.mod_pos_bound s 0xFFFF).
    destruct (Z.eqb_spec s 0) as [->|]; [done|].
    destruct (Z.eqb_spec (s mod 0xFFFF) 0) as [E|E]; split_and!; try lia.
    - by rewrite Z.add_0_r.
    - replace (s + (0xFFFF - s mod 0xFFFF)) with ((s / 0xFFFF + 1) * 0xFFFF) by dlia.
      by apply Z.mod_mul. }
  split; [|lia]. apply finish_zero; lia.
Qed.

(** The checksum written at an even offset of a segment whose field was zero. *)
Lemma transport_checksum_fills src dst protocol l k c :
  ip_ok src -> ip_ok dst -> is_byte protocol -> bytes_ok l -> bytes_ok k ->
  Z.even (zlen l) = true -> zlen l + zlen k + 2 < 2 ^ 14 ->
  transport_checksum src dst protocol (l ++ [0; 0] ++ k) = Ok c ->
  transport_checksum src dst protocol (l ++ be_bytes 2 c ++ k) = Ok 0 /\ 0 <= c < 2 ^ 16.
Proof.
  intros H1 H2 H3 H4 H5 He Hl E.
  assert (be_bytes 2 c = [c / 256 mod 256; c mod 256]) as Hc by done.
  assert (forall p, bytes_ok p -> zlen p = 2 ->
            bytes_ok (l ++ p ++ k) /\ zlen (l ++ p ++ k) = zlen l + zlen k + 2) as G.
  { intros p Hp Lp. split; [apply Forall_app; split; [done|apply Forall_app; done]|].
    rewrite !zlen_app. lia. }
  destruct (G [0; 0]) as [G1 G2]; [repeat constructor; unfold is_byte; lia|done|].
  destruct (G (be_bytes 2 c)) as [G3 G4]; [apply be_bytes_ok|done|].
  rewrite transport_checksum_eq in E |- * by (done || lia).
  pose proof (transport_sum_bound _ _ _ _ H1 H2 H3 G1 ltac:(rewrite G2; lia)) as Hs.
  assert (transport_sum src dst protocol (l ++ [0; 0] ++ k) < 2 ^ 31) as Hs'.
  { unfold transport_sum in *. destruct H1 as [B1 L1], H2 as [B2 L2].
    pose proof (word_sum_bound src B1). pose proof (word_sum_bound dst B2).
    pose proof (word_sum_bound _ G1). unfold is_byte in *. lia. }
  destruct (finish_fills _ c (conj (proj1 Hs) Hs') E) as [F Hb]. split; [|done].
  rewrite <- F. f_equal. unfold transport_sum.
  rewrite Hc, word_sum_zero_field by done. rewrite <- Hc, G2, G4.
  unfold be16. change (2 ^ 16) with 65536 in Hb.
  replace (c / 256 mod 256) with (c / 256) by (rewrite Z.mod_small; dlia).
  pose proof (Z.div_mod c 256). lia.
Qed.

(** ** The theorems *)

(** C39: both checksum routines compute the Internet checksum: on every
    packet that fits an Ethernet frame the carry loop ends within its two
    rounds, and the result is the ones' complement of the ones' complement sum
    (RFC 1071) of the data, respectively of the pseudo-header and the data. *)
Theorem checksums_rfc1071 src dst protocol data :
  ip_ok src -> ip_ok dst -> is_byte protocol -> bytes_ok data -> 0 < zlen data < 2 ^ 15 ->
  calculate_checksum data = Ok (ones_complement (word_sum data)) /\
  transport_checksum src dst protocol data =
    Ok (ones_complement (word_sum src + word_sum dst + protocol + zlen data + word_sum data)).
Proof.
  intros H1 H2 H3 H4 H5. pose proof (word_sum_bound data H4). split.
  - unfold calculate_checksum. destruct (Z.eqb_spec (zlen data) 0); [lia|].
    rewrite add_words_sum by (done || lia). apply finish_sum. lia.
  - rewrite transport_checksum_eq by (done || lia).
    apply finish_sum, transport_sum_bound; auto with lia.
Qed.

Lemma checksums_rfc1071_witness :
  calculate_checksum [0x45; 0; 0; 0x54; 7] = Ok (ones_complement (word_sum [0x45; 0; 0; 0x54; 7])) /\
  calculate_checksum [0x45; 0; 0; 0x54; 7] = Ok 45995.
Proof.
  split; [|reflexivity].
  apply (checksums_rfc1071 [10; 0; 2; 15] [10; 0; 2; 2] 17 [0x45; 0; 0; 0x54; 7]);
    repeat split; repeat constructor; unfold is_byte, zlen; simpl; lia.
Defined.
