(* ===== verification/Dns.v ===== *)
(** The DNS client, src/src/drivers/net/dns.rs: the query [send_query] builds
    and the reply [handle_udp] takes apart.  The reply comes from the network,
    so the theorems are about every byte string: no index is out of range, no
    loop runs on, and of a reply in the format of RFC 1035, with compressed
    names or without, the address of the first A record is taken. *)

From S2P Require Import Prelude Checksum.

Module Dns.

Definition DNS_SERVER : list Z := [10; 0; 2; 3].
Definition DNS_PORT : Z := 53.
Definition SRC_PORT : Z := 49152.
Definition TXID : Z := 0x4b47.
Definition WAIT_KEY : Z := usize_max - 1.

(** ** Parsers

    The code between an index and a [return] without a value: [Ok None] is the
    early return (or the [None] of [skip_name]), [Panic] an index out of
    range. *)
Definition P (A : Type) : Type := res (option A).

Definition pret {A} (a : A) : P A := Ok (Some a).
Definition pstop {A} : P A := Ok None.
Definition pbind {A B} (m : P A) (k : A -> P B) : P B :=
  match m with
  | Ok (Some a) => k a
  | Ok None => Ok None
  | Err e => Err e
  | Panic => Panic
  | Hang => Hang
  end.
Notation "'get!' x := m 'in' k" := (pbind m (fun x => k))
  (at level 10, x name, m at level 200, k at level 200,
   format "'[v' 'get!'  x  :=  m  'in' '/' k ']'").

(** [d[i]] *)
Definition index (d : list Z) (i : Z) : P Z :=
  if (0 <=? i) && (i <? zlen d) then pret (byte_at d i) else Panic.
(** [u16::from_be_bytes([d[i], d[i + 1]])] *)
Definition index16 (d : list Z) (i : Z) : P Z :=
  get! a := index d i in get! b := index d (i + 1) in pret (be16 a b).

(** ** The query *)

(** [name.split('.')] on the bytes of the name. *)
Fixpoint split (name : list Z) : list (list Z) :=
  match name with
  | [] => [[]]
  | c :: name =>
      if c =? 46 then [] :: split name
      else match split name with
           | l :: ls => (c :: l) :: ls
           | [] => [[c]]
           end
  end.

(** The loop over the labels: [None] is [return false], [q] the bytes written
    from offset 12 on; [p] is 12 more than their number. *)
Fixpoint put_labels (labels : list (list Z)) (q : list Z) : option (list Z) :=
  match labels with
  | [] => Some q
  | label :: labels =>
      if (zlen label =? 0) || (63 <? zlen label) ||
         (256 <? 12 + zlen q + 1 + zlen label + 5)
      then None
      else put_labels labels (q ++ [u8 (zlen label)] ++ label)
  end.

(** The message [q[..p]]. *)
Definition query (name : list Z) : option (list Z) :=
  if (zlen name =? 0) || (253 <? zlen name) then None else
  match put_labels (split name) [] with
  | None => None
  | Some labels =>
      Some (be_bytes 2 TXID ++ be_bytes 2 0x0100 ++ be_bytes 2 1 ++ zeros 6 ++
            labels ++ [0] ++ be_bytes 2 1 ++ be_bytes 2 1)
  end.

(** The UDP segment [udp[..udp_len]] that [send_query] passes to
    [transmit_ipv4]; its checksum is left 0. *)
Definition query_segment (name : list Z) : option (list Z) :=
  match query name with
  | None => None
  | Some q =>
      Some (be_bytes 2 SRC_PORT ++ be_bytes 2 DNS_PORT ++ be_bytes 2 (8 + zlen q) ++ zeros 2 ++ q)
  end.

(** ** The reply *)

Fixpoint skip_name_loop (fuel : nat) (data : list Z) (p : Z) : P Z :=
  match fuel with
  | O => Hang
  | S fuel =>
      if zlen data <=? p then pstop else
      let n := byte_at data p in
      if Z.land n 0xc0 =? 0xc0 then
        if p + 1 <? zlen data then pret (p + 2) else pstop
      else
        let p := p + 1 in
        if n =? 0 then pret p else
        match checked_add64 p n with
        | None => pstop
        | Some p => if zlen data <? p then pstop else skip_name_loop fuel data p
        end
  end.

(** Every round moves [p] forward and keeps it within the data. *)
Definition skip_name (data : list Z) (p : Z) : P Z := skip_name_loop (S (length data)) data p.

Fixpoint skip_questions (qd : nat) (d : list Z) (p : Z) : P Z :=
  match qd with
  | O => pret p
  | S qd =>
      get! p := skip_name d p in
      if zlen d <? p + 4 then pstop else skip_questions qd d (p + 4)
  end.

Fixpoint find_answer (an : nat) (d : list Z) (p : Z) : P (list Z) :=
  match an with
  | O => pstop
  | S an =>
      get! p := skip_name d p in
      if zlen d <? p + 10 then pstop else
      get! typ := index16 d p in
      get! cls := index16 d (p + 2) in
      get! len := index16 d (p + 8) in
      let p := p + 10 in
      if zlen d <? p + len then pstop
      else if (typ =? 1) && (cls =? 1) && (len =? 4) then
        get! a := index d p in
        get! b := index d (p + 1) in
        get! c := index d (p + 2) in
        get! e := index d (p + 3) in
        pret [a; b; c; e]
      else find_answer an d (p + len)
  end.

(** [handle_udp] up to its effect: the address it stores in [DNS_RESULT]
    before it wakes the waiters of [WAIT_KEY]. *)
Definition handle_udp (src_ip data : list Z) : P (list Z) :=
  if negb (bool_decide (src_ip = DNS_SERVER)) || (zlen data <? 20) then pstop else
  get! src := index16 data 0 in
  get! dst := index16 data 2 in
  if negb (src =? DNS_PORT) || negb (dst =? SRC_PORT) then pstop else
  let d := drop 8 data in
  if zlen d <? 12 then pstop else
  get! id := index16 d 0 in
  if negb (id =? TXID) then pstop else
  get! rcode := index d 3 in
  if negb (Z.land rcode 0x0f =? 0) then pstop else
  get! qd := index16 d 4 in
  get! an := index16 d 6 in
  get! p := skip_questions (Z.to_nat qd) d 12 in
  find_answer (Z.to_nat an) d p.

(** ** No byte string makes the parser panic or hang *)

(** [m] ends, and a result satisfies [Q]. *)
Definition ends {A} (Q : A -> Prop) (m : P A) : Prop :=
  match m with Ok (Some a) => Q a | Ok None => True | _ => False end.

Lemma ends_bind {A B} (Q : A -> Prop) (R : B -> Prop) (m : P A) (k : A -> P B) :
  ends Q m -> (forall a, Q a -> ends R (k a)) -> ends R (pbind m k).
Proof. destruct m as [[a|]| | |]; simpl; auto; contradiction. Qed.

Lemma byte_at_ok d i : bytes_ok d -> 0 <= i < zlen d -> is_byte (byte_at d i).
Proof.
  intros Hd Hi. unfold byte_at, zlen in *.
  apply (proj1 (Forall_forall _ _) Hd), list_elem_of_In, nth_In. lia.
Qed.

Lemma ends_index d i : bytes_ok d -> 0 <= i < zlen d -> ends is_byte (index d i).
Proof.
  intros Hd Hi. unfold index. destruct (Z.leb_spec 0 i); [|lia].
  destruct (Z.ltb_spec i (zlen d)); [|lia]. by apply byte_at_ok.
Qed.

Lemma ends_index16 d i :
  bytes_ok d -> 0 <= i -> i + 1 < zlen d -> ends (fun v => 0 <= v < 2 ^ 16) (index16 d i).
Proof.
  intros Hd H1 H2. unfold index16.
  eapply ends_bind; [apply (ends_index d i); [done|lia]|intros a Ha].
  eapply ends_bind; [apply (ends_index d (i + 1)); [done|lia]|intros b Hb].
  unfold is_byte, be16 in *. simpl. lia.
Qed.

Lemma skip_name_loop_ends fuel d p :
  bytes_ok d -> 0 <= p -> zlen d < 2 ^ 63 -> Z.max 0 (zlen d - p) < Z.of_nat fuel ->
  ends (fun q => p < q <= zlen d) (skip_name_loop fuel d p).
Proof.
  revert p. induction fuel as [|fuel IH]; intros p Hd Hp Hl Hf; simpl.
  { exfalso. lia. }
  destruct (Z.leb_spec (zlen d) p) as [|Hpd]; [done|].
  assert (is_byte (byte_at d p)) as Hb by (apply byte_at_ok; [done|lia]).
  destruct (_ =? _).
  { destruct (Z.ltb_spec (p + 1) (zlen d)); simpl; [lia|done]. }
  destruct (Z.eqb_spec (byte_at d p) 0); [simpl; lia|].
  unfold checked_add64, is_byte, u64_max in *.
  destruct (Z.leb_spec (p + 1 + byte_at d p) (2 ^ 64 - 1)); [|lia].
  destruct (Z.ltb_spec (zlen d) (p + 1 + byte_at d p)); [done|].
  specialize (IH (p + 1 + byte_at d p) Hd ltac:(lia) Hl ltac:(lia)).
  destruct (skip_name_loop _ _ _) as [[q|]| | |]; simpl in *; auto; lia.
Qed.

Lemma skip_name_ends d p :
  bytes_ok d -> 0 <= p -> zlen d < 2 ^ 63 -> ends (fun q => p < q <= zlen d) (skip_name d p).
Proof. intros. apply skip_name_loop_ends; [done|done|done|]. unfold zlen in *. lia. Qed.

Lemma skip_questions_ends qd d p :
  bytes_ok d -> 0 <= p -> zlen d < 2 ^ 63 -> ends (fun q => 0 <= q) (skip_questions qd d p).
Proof.
  revert p. induction qd as [|qd IH]; intros p Hd Hp Hl; simpl; [done|].
  eapply ends_bind; [by apply skip_name_ends|]. intros q Hq. cbn beta in Hq.
  destruct (zlen d <? q + 4); [done|]. apply IH; [done|lia|done].
Qed.

(** An address: four bytes. *)
Definition addr (a : list Z) : Prop := bytes_ok a /\ zlen a = 4.

Lemma find_answer_ends an d p :
  bytes_ok d -> 0 <= p -> zlen d < 2 ^ 63 -> ends addr (find_answer an d p).
Proof.
  revert p. induction an as [|an IH]; intros p Hd Hp Hl; simpl; [done|].
  eapply ends_bind; [by apply skip_name_ends|]. intros q Hq. cbn beta in Hq.
  destruct (Z.ltb_spec (zlen d) (q + 10)); [done|].
  eapply ends_bind; [apply ends_index16; [done|lia|lia]|intros typ _].
  eapply ends_bind; [apply ends_index16; [done|lia|lia]|intros cls _].
  eapply ends_bind; [apply ends_index16; [done|lia|lia]|intros len Hlen]. cbn beta in Hlen.
  destruct (Z.ltb_spec (zlen d) (q + 10 + len)); [done|].
  destruct (Z.eqb_spec len 4) as [->|]; [|rewrite andb_false_r; apply IH; [done|lia|done]].
  destruct (_ && _); [|apply IH; [done|lia|done]].
  eapply ends_bind; [apply ends_index; [done|lia]|intros a Ha].
  eapply ends_bind; [apply ends_index; [done|lia]|intros b Hb].
  eapply ends_bind; [apply ends_index; [done|lia]|intros c Hc].
  eapply ends_bind; [apply ends_index; [done|lia]|intros e He].
  split; [|done]. apply Forall_cons_2, Forall_cons_2, Forall_cons_2, Forall_cons_2; done || by constructor.
Qed.

Lemma handle_udp_ends src_ip data :
  bytes_ok data -> zlen data < 2 ^ 63 -> ends addr (handle_udp src_ip data).
Proof.
  intros Hb Hl. unfold handle_udp. destruct (negb _); simpl orb; [done|].
  destruct (Z.ltb_spec (zlen data) 20); [done|].
  eapply ends_bind; [apply ends_index16; [done|lia|lia]|intros src _].
  eapply ends_bind; [apply ends_index16; [done|lia|lia]|intros dst _].
  destruct (_ || _); [done|].
  assert (bytes_ok (drop 8 data)) as Hd by by apply Forall_drop.
  assert (zlen (drop 8 data) = zlen data - 8) as Ld.
  { unfold zlen in *. rewrite length_drop. lia. }
  destruct (Z.ltb_spec (zlen (drop 8 data)) 12); [done|].
  eapply ends_bind; [apply ends_index16; [done|lia|lia]|intros id _].
  destruct (negb _); [done|].
  eapply ends_bind; [apply ends_index; [done|lia]|intros rcode _].
  destruct (negb _); [done|].
  eapply ends_bind; [apply ends_index16; [done|lia|lia]|intros qd _].
  eapply ends_bind; [apply ends_index16; [done|lia|lia]|intros an _].
  eapply ends_bind; [apply skip_questions_ends; [done|lia|lia]|intros p Hp].
  apply find_answer_ends; [done|done|lia].
Qed.

(** ** The format of RFC 1035 *)

(** A name: labels, then the root or a pointer to an earlier name. *)
Inductive name_end : Type := Root | Pointer (hi lo : Z).
Record name : Type := mkName { n_labels : list (list Z); n_end : name_end }.
Record question : Type := mkQuestion { q_name : name; q_type : Z; q_class : Z }.
Record record : Type := mkRecord {
  r_name : name; r_type : Z; r_class : Z; r_ttl : Z; r_data : list Z;
}.

Definition enc_labels (ls : list (list Z)) : list Z := concat ((fun l => zlen l :: l) <$> ls).
Definition enc_end (e : name_end) : list Z :=
  match e with Root => [0] | Pointer hi lo => [hi; lo] end.
Definition enc_name (n : name) : list Z := enc_labels (n_labels n) ++ enc_end (n_end n).
Definition enc_question (q : question) : list Z :=
  enc_name (q_name q) ++ be_bytes 2 (q_type q) ++ be_bytes 2 (q_class q).
Definition enc_record (r : record) : list Z :=
  enc_name (r_name r) ++ be_bytes 2 (r_type r) ++ be_bytes 2 (r_class r) ++
  be_bytes 4 (r_ttl r) ++ be_bytes 2 (zlen (r_data r)) ++ r_data r.

Definition label_ok (l : list Z) : Prop := 1 <= zlen l <= 63.
Definition end_ok (e : name_end) : Prop :=
  match e with Root => True | Pointer hi _ => 0xc0 <= hi < 256 end.
Definition name_ok (n : name) : Prop := Forall label_ok (n_labels n) /\ end_ok (n_end n).
Definition record_ok (r : record) : Prop :=
  name_ok (r_name r) /\ 0 <= r_type r < 2 ^ 16 /\ 0 <= r_class r < 2 ^ 16 /\
  zlen (r_data r) < 2 ^ 16.

(** The A record of class IN. *)
Definition is_address (r : record) : bool :=
  (r_type r =? 1) && (r_class r =? 1) && (zlen (r_data r) =? 4).

(** A reply: header, questions, answers, and whatever follows them. *)
Definition reply (hi rcode : Z) (qs : list question) (rs : list record) (counts rest : list Z)
  : list Z :=
  be_bytes 2 TXID ++ [hi; rcode] ++ be_bytes 2 (zlen qs) ++ be_bytes 2 (zlen rs) ++ counts ++
  concat (enc_question <$> qs) ++ concat (enc_record <$> rs) ++ rest.

Lemma zcons {A} (x : A) l : zlen (x :: l) = 1 + zlen l.
Proof. unfold zlen. simpl. lia. Qed.

Lemma zlen_be_bytes n v : zlen (be_bytes n v) = Z.of_nat n.
Proof. unfold zlen. by rewrite length_be_bytes. Qed.

Lemma byte_at_mid (l : list Z) x k : byte_at (l ++ x :: k) (zlen l) = x.
Proof. rewrite byte_at_app_r by lia. by rewrite Z.sub_diag. Qed.

(** Which first bytes are pointers, by evaluation. *)
Lemma land_label n : 0 <= n < 64 -> (Z.land n 0xc0 =? 0xc0) = false.
Proof.
  intros H. apply (proj1 (Forall_forall (fun n => (Z.land n 0xc0 =? 0xc0) = false) (seqZ 0 64)));
    [by apply (bool_decide_unpack _)|]. apply elem_of_seqZ. lia.
Qed.

Lemma land_pointer n : 0xc0 <= n < 256 -> (Z.land n 0xc0 =? 0xc0) = true.
Proof.
  intros H. apply (proj1 (Forall_forall (fun n => (Z.land n 0xc0 =? 0xc0) = true) (seqZ 192 64)));
    [by apply (bool_decide_unpack _)|]. apply elem_of_seqZ. lia.
Qed.

(** The walk over a name that is in the data, with any fuel that is enough. *)
Lemma skip_labels ls e : forall fuel pre rest,
  Forall label_ok ls -> end_ok e -> (length ls < fuel)%nat ->
  zlen (pre ++ enc_labels ls ++ enc_end e ++ rest) < 2 ^ 63 ->
  skip_name_loop fuel (pre ++ enc_labels ls ++ enc_end e ++ rest) (zlen pre) =
    pret (zlen (pre ++ enc_labels ls ++ enc_end e)).
Proof.
  induction ls as [|l ls IH]; intros [|fuel] pre rest Hls He Hf Hl; simpl in Hf; try lia.
  - unfold enc_labels in *. simpl app in *. pose proof (zlen_nonneg rest).
    destruct e as [|hi lo]; simpl enc_end in *; simpl in He; simpl skip_name_loop.
    + rewrite byte_at_mid, !zlen_app, zcons, (proj2 (Z.leb_gt _ _)) by lia. done.
    + rewrite byte_at_mid, land_pointer, !zlen_app, !zcons, (proj2 (Z.leb_gt _ _)) by (done || lia).
      rewrite (proj2 (Z.ltb_lt _ _)) by lia. done.
  - apply Forall_cons in Hls as [[H1 H2] Hls].
    change (enc_labels (l :: ls)) with (zlen l :: (l ++ enc_labels ls)) in *.
    set (d := pre ++ _) in *.
    assert (d = (pre ++ zlen l :: l) ++ enc_labels ls ++ enc_end e ++ rest) as Ed.
    { unfold d. rewrite <- app_assoc. simpl. by rewrite <- app_assoc. }
    assert (zlen (pre ++ zlen l :: l) = zlen pre + 1 + zlen l) as El.
    { rewrite zlen_app. unfold zlen. simpl. lia. }
    simpl skip_name_loop. assert (byte_at d (zlen pre) = zlen l) as -> by apply byte_at_mid.
    pose proof (zlen_nonneg pre). pose proof (zlen_nonneg (enc_labels ls ++ enc_end e ++ rest)).
    assert (zlen pre + 1 + zlen l <= zlen d) by (rewrite Ed, zlen_app; lia).
    rewrite (proj2 (Z.leb_gt _ _)), land_label, (proj2 (Z.eqb_neq _ _)) by lia.
    unfold checked_add64, u64_max. rewrite (proj2 (Z.leb_le _ _)), (proj2 (Z.ltb_ge _ _)) by lia.
    rewrite <- El, Ed, IH; [|done|done|lia|by rewrite <- Ed].
    do 2 f_equal. rewrite <- app_assoc. simpl. by rewrite <- app_assoc.
Qed.

Lemma length_enc_labels ls : (length ls <= length (enc_labels ls))%nat.
Proof.
  induction ls as [|l ls IH]; [done|].
  change (enc_labels (l :: ls)) with (zlen l :: (l ++ enc_labels ls)).
  simpl. rewrite length_app. lia.
Qed.

Lemma skip_name_enc n pre rest :
  name_ok n -> zlen (pre ++ enc_name n ++ rest) < 2 ^ 63 ->
  skip_name (pre ++ enc_name n ++ rest) (zlen pre) = pret (zlen (pre ++ enc_name n)).
Proof.
  intros [H1 H2] Hl. unfold skip_name, enc_name in *. rewrite <- app_assoc in *.
  apply skip_labels; [done|done| |done]. pose proof (length_enc_labels (n_labels n)).
  rewrite !length_app. lia.
Qed.

(** Two bytes in the middle of the data. *)
Lemma index_mid pre x rest : index (pre ++ x :: rest) (zlen pre) = pret x.
Proof.
  unfold index. pose proof (zlen_nonneg pre). pose proof (zlen_nonneg rest).
  rewrite byte_at_mid, zlen_app, zcons, (proj2 (Z.leb_le _ _)), (proj2 (Z.ltb_lt _ _)) by lia. done.
Qed.

Lemma index_at d pre x rest i : d = pre ++ x :: rest -> i = zlen pre -> index d i = pret x.
Proof. intros -> ->. apply index_mid. Qed.

Lemma index16_at d pre v rest i :
  d = pre ++ be_bytes 2 v ++ rest -> i = zlen pre -> 0 <= v < 2 ^ 16 -> index16 d i = pret v.
Proof.
  intros -> -> Hv. unfold index16.
  change (be_bytes 2 v) with [v / 256 mod 256; v mod 256]. simpl app.
  rewrite index_mid. simpl pbind.
  rewrite (index_at _ (pre ++ [v / 256 mod 256]) (v mod 256) rest);
    [|by rewrite <- app_assoc|rewrite zlen_app, zcons; done].
  simpl pbind. f_equal. f_equal. unfold be16. dlia.
Qed.

Lemma skip_questions_enc qs : forall pre rest,
  Forall (fun q => name_ok (q_name q)) qs ->
  zlen (pre ++ concat (enc_question <$> qs) ++ rest) < 2 ^ 63 ->
  skip_questions (length qs) (pre ++ concat (enc_question <$> qs) ++ rest) (zlen pre) =
    pret (zlen (pre ++ concat (enc_question <$> qs))).
Proof.
  induction qs as [|q qs IH]; intros pre rest Hq Hl.
  { simpl. by rewrite app_nil_r. }
  apply Forall_cons in Hq as [Hq Hqs]. simpl fmap in *. simpl concat in *.
  set (body := concat (enc_question <$> qs)) in *. set (d := pre ++ _ ++ rest) in *.
  assert (d = (pre ++ enc_question q) ++ body ++ rest) as E1 by (unfold d; by rewrite <- !app_assoc).
  assert (d = pre ++ enc_name (q_name q) ++
            (be_bytes 2 (q_type q) ++ be_bytes 2 (q_class q)) ++ body ++ rest) as E2.
  { rewrite E1. unfold enc_question. by rewrite <- !app_assoc. }
  simpl skip_questions. rewrite E2 at 1. rewrite skip_name_enc by (done || by rewrite <- E2).
  simpl pbind. assert (zlen (pre ++ enc_name (q_name q)) + 4 = zlen (pre ++ enc_question q)) as E3.
  { unfold enc_question. rewrite !zlen_app, !zlen_be_bytes. lia. }
  pose proof (zlen_nonneg (body ++ rest)).
  rewrite E3, (proj2 (Z.ltb_ge _ _)) by (rewrite E1, (zlen_app (_ ++ _)); lia).
  rewrite E1, IH by (done || by rewrite <- E1). by rewrite <- app_assoc.
Qed.

(** The fields of a record behind its name. *)
Lemma record_fields d pre r rest :
  d = pre ++ enc_record r ++ rest -> record_ok r ->
  let p := zlen (pre ++ enc_name (r_name r)) in
  index16 d p = pret (r_type r) /\ index16 d (p + 2) = pret (r_class r) /\
  index16 d (p + 8) = pret (zlen (r_data r)) /\
  p + 10 + zlen (r_data r) = zlen (pre ++ enc_record r).
Proof.
  intros -> (_ & Ht & Hc & Hd) p. pose proof (zlen_nonneg (r_data r)).
  unfold enc_record. rewrite <- !app_assoc. set (h := pre ++ enc_name (r_name r)) in *.
  split_and!.
  - eapply (index16_at _ h); [unfold h; by rewrite <- !app_assoc|done|done].
  - eapply (index16_at _ (h ++ be_bytes 2 (r_type r)));
      [unfold h; by rewrite <- !app_assoc| |done]. by rewrite zlen_app, zlen_be_bytes.
  - eapply (index16_at _ (h ++ be_bytes 2 (r_type r) ++ be_bytes 2 (r_class r) ++
      be_bytes 4 (r_ttl r))); [unfold h; by rewrite <- !app_assoc| |lia].
    rewrite !zlen_app, !zlen_be_bytes. unfold p. lia.
  - unfold p, h. rewrite !zlen_app, !zlen_be_bytes. lia.
Qed.

Lemma four_bytes d pre data rest :
  d = pre ++ data ++ rest -> zlen data = 4 ->
  (get! a := index d (zlen pre) in get! b := index d (zlen pre + 1) in
   get! c := index d (zlen pre + 2) in get! e := index d (zlen pre + 3) in
   pret [a; b; c; e]) = pret data.
Proof.
  intros -> Hl. destruct data as [|a [|b [|c [|e [|? ?]]]]]; try discriminate Hl.
  - rewrite (index_at _ pre a (b :: c :: e :: rest)) by done. simpl pbind.
    rewrite (index_at _ (pre ++ [a]) b (c :: e :: rest))
      by (rewrite ?zlen_app, <- ?app_assoc; done). simpl pbind.
    rewrite (index_at _ (pre ++ [a; b]) c (e :: rest))
      by (rewrite ?zlen_app, <- ?app_assoc; done). simpl pbind.
    rewrite (index_at _ (pre ++ [a; b; c]) e rest) by (rewrite ?zlen_app, <- ?app_assoc; done).
    done.
  - exfalso. unfold zlen in Hl. simpl in Hl. lia.
Qed.

Lemma find_answer_enc rs : forall pre rest,
  Forall record_ok rs -> zlen (pre ++ concat (enc_record <$> rs) ++ rest) < 2 ^ 63 ->
  find_answer (length rs) (pre ++ concat (enc_record <$> rs) ++ rest) (zlen pre) =
    Ok (r_data <$> first_such is_address rs).
Proof.
  induction rs as [|r rs IH]; intros pre rest Hr Hl; [done|].
  apply Forall_cons in Hr as [Hr Hrs]. simpl fmap in *. simpl concat in *.
  set (body := concat (enc_record <$> rs)) in *. set (d := pre ++ _ ++ rest) in *.
  assert (d = pre ++ enc_record r ++ body ++ rest) as E0 by (unfold d; by rewrite <- !app_assoc).
  assert (d = (pre ++ enc_record r) ++ body ++ rest) as E1 by (rewrite E0; by rewrite <- !app_assoc).
  destruct (record_fields d pre r _ E0 Hr) as (F1 & F2 & F3 & F4).
  simpl find_answer. assert (skip_name d (zlen pre) = pret (zlen (pre ++ enc_name (r_name r)))) as ->.
  { unfold d, enc_record in *. rewrite <- !app_assoc in *. apply skip_name_enc; [apply Hr|done]. }
  set (p := zlen (pre ++ enc_name (r_name r))) in *. simpl pbind.
  pose proof (zlen_nonneg (body ++ rest)). pose proof (zlen_nonneg (r_data r)).
  assert (p + 10 + zlen (r_data r) <= zlen d) by (rewrite E1, zlen_app; lia).
  rewrite (proj2 (Z.ltb_ge _ _)) by lia. rewrite F1, F2, F3. simpl pbind.
  rewrite (proj2 (Z.ltb_ge _ _)) by lia. unfold is_address at 1.
  destruct (_ && _ && _) eqn:E; [|rewrite F4, E1; apply IH; [done|by rewrite <- E1]].
  apply andb_true_iff in E as [_ E]. apply Z.eqb_eq in E.
  assert (p + 10 = zlen (pre ++ enc_name (r_name r) ++ be_bytes 2 (r_type r) ++
    be_bytes 2 (r_class r) ++ be_bytes 4 (r_ttl r) ++ be_bytes 2 (zlen (r_data r)))) as E4.
  { unfold p. rewrite !zlen_app, !zlen_be_bytes. lia. }
  rewrite <- !(Z.add_assoc p 10), !(Z.add_assoc p 10), E4.
  apply (four_bytes _ _ _ (body ++ rest)); [|done].
  rewrite E0. unfold enc_record. by rewrite <- !app_assoc.
Qed.

(** The UDP header in front of a message. *)
Definition in_udp (sport dport checksum : Z) (m : list Z) : list Z :=
  be_bytes 2 sport ++ be_bytes 2 dport ++ be_bytes 2 (8 + zlen m) ++ be_bytes 2 checksum ++ m.

Lemma pbind_ret {A B} (a : A) (k : A -> P B) : pbind (pret a) k = k a.
Proof. done. Qed.

(** The checks [handle_udp] makes before it walks over a message [d]. *)
Lemma handle_udp_message checksum d qd an :
  12 <= zlen d -> index16 d 0 = pret TXID ->
  (exists rcode, index d 3 = pret rcode /\ Z.land rcode 0x0f = 0) ->
  index16 d 4 = pret qd -> index16 d 6 = pret an ->
  handle_udp DNS_SERVER (in_udp DNS_PORT SRC_PORT checksum d) =
    get! p := skip_questions (Z.to_nat qd) d 12 in find_answer (Z.to_nat an) d p.
Proof.
  intros Hl Hi (rcode & Hr & Hc) Hq Ha. unfold handle_udp.
  assert (zlen (in_udp DNS_PORT SRC_PORT checksum d) = 8 + zlen d) as ->.
  { unfold in_udp. rewrite !zlen_app, !zlen_be_bytes. lia. }
  rewrite bool_decide_eq_true_2, (proj2 (Z.ltb_ge _ 20)) by (done || lia). cbn [negb orb].
  rewrite (index16_at _ [] DNS_PORT
    (be_bytes 2 SRC_PORT ++ be_bytes 2 (8 + zlen d) ++ be_bytes 2 checksum ++ d)) by done.
  rewrite pbind_ret, (index16_at _ (be_bytes 2 DNS_PORT) SRC_PORT
    (be_bytes 2 (8 + zlen d) ++ be_bytes 2 checksum ++ d)), pbind_ret by done.
  rewrite !Z.eqb_refl. cbn [negb orb].
  change (drop 8 (in_udp DNS_PORT SRC_PORT checksum d)) with d. cbv zeta.
  rewrite (proj2 (Z.ltb_ge _ 12)), Hi, pbind_ret, Z.eqb_refl by lia. cbn [negb].
  by rewrite Hr, pbind_ret, Hc, Hq, Ha, !pbind_ret.
Qed.

Lemma handle_udp_reply hi rcode qs rs counts rest checksum :
  Z.land rcode 0x0f = 0 -> Forall (fun q => name_ok (q_name q)) qs -> Forall record_ok rs ->
  zlen qs < 2 ^ 16 -> zlen rs < 2 ^ 16 -> zlen counts = 4 ->
  zlen (reply hi rcode qs rs counts rest) < 2 ^ 62 ->
  handle_udp DNS_SERVER (in_udp DNS_PORT SRC_PORT checksum (reply hi rcode qs rs counts rest)) =
    Ok (r_data <$> first_such is_address rs).
Proof.
  intros Hc Hq Hr Lq Lr L4 Hl. pose proof (zlen_nonneg qs). pose proof (zlen_nonneg rs).
  pose proof (eq_refl (reply hi rcode qs rs counts rest)) as Ed. unfold reply at 2 in Ed.
  set (d := reply hi rcode qs rs counts rest) in *. clearbody d.
  assert (exists h, zlen h = 12 /\
    d = h ++ concat (enc_question <$> qs) ++ concat (enc_record <$> rs) ++ rest) as (h & Lh & Eh).
  { exists (be_bytes 2 TXID ++ [hi; rcode] ++ be_bytes 2 (zlen qs) ++ be_bytes 2 (zlen rs) ++ counts).
    split; [|by rewrite Ed, <- !app_assoc].
    rewrite zlen_app, (zlen_app [hi; rcode]), zlen_app, zlen_app, !zlen_be_bytes, L4. done. }
  pose proof (zlen_nonneg (concat (enc_question <$> qs) ++ concat (enc_record <$> rs) ++ rest)).
  rewrite (handle_udp_message checksum d (zlen qs) (zlen rs)).
  - clear Ed. subst d. unfold zlen at 1 2. rewrite !Nat2Z.id, <- Lh.
    rewrite skip_questions_enc by (done || lia). rewrite pbind_ret.
    rewrite app_assoc in *. apply find_answer_enc; [done|lia].
  - rewrite Eh, zlen_app. lia.
  - by apply (index16_at d [] TXID _ 0 Ed).
  - exists rcode. split; [|done]. by apply (index_at d (be_bytes 2 TXID ++ [hi]) rcode _ 3 Ed).
  - by apply (index16_at d (be_bytes 2 TXID ++ [hi; rcode]) (zlen qs) _ 4 Ed).
  - by apply (index16_at d (be_bytes 2 TXID ++ [hi; rcode] ++ be_bytes 2 (zlen qs)) (zlen rs) _ 6 Ed).
Qed.

(** ** The query *)

#[export] Instance label_ok_dec l : Decision (label_ok l).
Proof. unfold label_ok. apply _. Defined.

Lemma split_cons name : exists l ls, split name = l :: ls.
Proof.
  destruct name as [|c name]; simpl; [eauto|]. destruct (c =? 46); [eauto|].
  destruct (split name); eauto.
Qed.

Lemma enc_labels_cons l ls : enc_labels (l :: ls) = zlen l :: (l ++ enc_labels ls).
Proof. done. Qed.

(** Every dot becomes a length, and one length comes first. *)
Lemma enc_split_len name : zlen (enc_labels (split name)) = zlen name + 1.
Proof.
  induction name as [|c name IH]; [done|]. simpl split. destruct (c =? 46).
  { rewrite enc_labels_cons, !zcons. simpl app. lia. }
  destruct (split_cons name) as (l & ls & E). rewrite E in *.
  rewrite !enc_labels_cons, ?zcons, ?zlen_app, ?zcons in *. lia.
Qed.

Lemma put_labels_spec ls : forall q,
  put_labels ls q =
    if bool_decide (Forall label_ok ls) && ((17 + zlen q + zlen (enc_labels ls) <=? 256) ||
                                            bool_decide (ls = []))
    then Some (q ++ enc_labels ls) else None.
Proof.
  induction ls as [|l ls IH]; intros q.
  { simpl. rewrite app_nil_r, orb_true_r. done. }
  simpl put_labels. pose proof (zlen_nonneg l). pose proof (zlen_nonneg (enc_labels ls)).
  rewrite (bool_decide_eq_false_2 (l :: ls = [])), orb_false_r, enc_labels_cons by done.
  destruct (decide (label_ok l)) as [H1|H1].
  - unfold label_ok in H1. rewrite (proj2 (Z.eqb_neq _ _)), (proj2 (Z.ltb_ge _ _)) by lia. simpl orb.
    assert (bool_decide (Forall label_ok (l :: ls)) = bool_decide (Forall label_ok ls)) as ->.
    { apply bool_decide_ext. rewrite Forall_cons. unfold label_ok at 1. tauto. }
    rewrite zcons, zlen_app. unfold u8. rewrite Z.mod_small by lia.
    destruct (Z.ltb_spec 256 (12 + zlen q + 1 + zlen l + 5)).
    { rewrite (proj2 (Z.leb_gt _ _)) by lia. by rewrite andb_false_r. }
    rewrite IH, zlen_app, <- !app_assoc. simpl app. rewrite zcons.
    match goal with |- (if _ && ?x then _ else _) = (if _ && ?y then _ else _) =>
      assert (x = y) as ->; [|done] end.
    destruct ls as [|l' ls].
    + rewrite orb_true_r. symmetry. apply Z.leb_le. unfold zlen at 3. simpl. lia.
    + rewrite (bool_decide_eq_false_2 (l' :: ls = [])), orb_false_r by done. f_equal. lia.
  - rewrite bool_decide_eq_false_2 by (rewrite Forall_cons; tauto). simpl andb.
    unfold label_ok in H1. destruct (Z.eqb_spec (zlen l) 0); [done|].
    destruct (Z.ltb_spec 63 (zlen l)); [done|lia].
Qed.


(** ** The theorems *)

(** [send_query] builds, for a name of at most 238 bytes all of whose
    labels have 1 to 63 bytes, the RFC 1035 query with its labels as the one
    question, of type A and class IN, and refuses every other name; the buffer
    of 256 bytes is never overrun. *)
Theorem dns_query_correct nm :
  query nm =
    if bool_decide (Forall label_ok (split nm)) && (zlen nm <=? 238)
    then Some (be_bytes 2 TXID ++ be_bytes 2 0x0100 ++ be_bytes 2 1 ++ zeros 6 ++
               enc_question (mkQuestion (mkName (split nm) Root) 1 1))
    else None.
Proof.
  unfold query. rewrite put_labels_spec, enc_split_len.
  destruct (split_cons nm) as (l & ls & E). pose proof (zlen_nonneg nm).
  rewrite (bool_decide_eq_false_2 (split nm = [])), orb_false_r by by rewrite E.
  change (zlen []) with 0. destruct (bool_decide (Forall label_ok (split nm))) eqn:F; simpl andb.
  - assert (zlen nm <> 0).
    { apply bool_decide_eq_true_1 in F. destruct nm; [|rewrite zcons; pose proof (zlen_nonneg nm); lia].
      by apply Forall_cons in F as [[? _] _]. }
    rewrite (proj2 (Z.eqb_neq _ _)) by done. simpl orb.
    destruct (Z.leb_spec (zlen nm) 238).
    + rewrite (proj2 (Z.ltb_ge _ _)), (proj2 (Z.leb_le _ _)) by lia.
      unfold enc_question, enc_name. simpl n_labels. simpl n_end. by rewrite <- !app_assoc.
    + rewrite (proj2 (Z.leb_gt _ _)) by lia. by destruct (_ <? _).
  - by destruct (_ || _).
Qed.

(** C14: [handle_udp] takes any bytes: it ends, indexes nothing out of
    range, and stores only an address of four bytes, only from the name server.
    From a reply of that server in the format of RFC 1035, with names compressed
    or not, any other records before it and anything behind it, it stores the
    address of the first A record of class IN, and none when there is none. *)
Theorem dns_reply_correct :
  (forall src_ip data, bytes_ok data -> zlen data < 2 ^ 16 ->
     exists r, handle_udp src_ip data = Ok r /\
       forall a, r = Some a -> src_ip = DNS_SERVER /\ bytes_ok a /\ zlen a = 4) /\
  (forall hi rcode qs rs counts rest checksum,
     Z.land rcode 0x0f = 0 -> Forall (fun q => name_ok (q_name q)) qs -> Forall record_ok rs ->
     zlen qs < 2 ^ 16 -> zlen rs < 2 ^ 16 -> zlen counts = 4 ->
     zlen (reply hi rcode qs rs counts rest) < 2 ^ 16 ->
     handle_udp DNS_SERVER (in_udp DNS_PORT SRC_PORT checksum (reply hi rcode qs rs counts rest)) =
       Ok (r_data <$> first_such is_address rs)).
Proof.
  split.
  - intros src_ip data Hb Hl. pose proof (handle_udp_ends src_ip data Hb ltac:(lia)) as H.
    destruct (handle_udp src_ip data) as [r| | |] eqn:E; try contradiction.
    exists r. split; [done|]. intros a ->. split; [|apply H].
    unfold handle_udp in E. case_bool_decide; [done|discriminate E].
  - intros. apply handle_udp_reply; try done. lia.
Qed.

(** A reply with a compressed CNAME record before the address. *)
Definition demo_question : question := mkQuestion (mkName (split [97; 46; 98; 99]) Root) 1 1.
Definition demo_records : list record :=
  [mkRecord (mkName [] (Pointer 0xc0 12)) 5 1 60 [1; 120; 0xc0; 14];
   mkRecord (mkName [[120]] (Pointer 0xc0 14)) 1 1 60 [93; 184; 216; 34]].

Lemma dns_reply_correct_witness :
  handle_udp DNS_SERVER
    (in_udp DNS_PORT SRC_PORT 0 (reply 0x81 0x80 [demo_question] demo_records (zeros 4) [])) =
    Ok (Some [93; 184; 216; 34]) /\
  query [97; 46; 98; 99] <> None.
Proof.
  split; [|discriminate].
  apply (proj2 dns_reply_correct 0x81 0x80 [demo_question] demo_records (zeros 4) [] 0);
    try done; repeat constructor; done.
Defined.

(** A name of 239 bytes with legal labels is refused, although the code allows
    names of up to 253 bytes. *)
Definition long_name : list Z :=
  concat (replicate 3 (replicate 59 97 ++ [46])) ++ replicate 59 97.

Lemma dns_long_name_refused :
  zlen long_name = 239 /\ Forall label_ok (split long_name) /\ query long_name = None.
Proof. split; [done|]. split; [by apply (bool_decide_unpack _)|done]. Qed.

End Dns.
