(* ===== verification/Tcp.v ===== *)
(** TCP client connections, src/src/drivers/net/tcp.rs: the control block
    [Tcb] with its handlers (segment arrival, timer, output), the descriptor
    calls (connect, read, write, close) and the connection table.

    The segments a handler passes to [transmit] are appended to the field [tx],
    which is not a field of the source: nothing reads it, and it makes what is
    put on the wire, and in which order, part of the result.  [segment_bytes]
    is the wire form of such a segment. *)

From S2P Require Import Prelude Checksum.

Module Tcp.

(** ** Constants, lines 24-43 *)

Definition PROTOCOL : Z := 6.
Definition FIN : Z := 0x01.
Definition SYN : Z := 0x02.
Definition RST : Z := 0x04.
Definition PSH : Z := 0x08.
Definition ACK : Z := 0x10.
Definition HEADER_LEN : Z := 20.
Definition MSS : Z := 1460.
Definition DEFAULT_PEER_MSS : Z := 536.
Definition RECV_CAP : Z := 16 * 1024.
Definition SEND_CAP : Z := 8 * 1024.
Definition EPHEMERAL_FIRST : Z := 50000.
Definition INITIAL_RTO : Z := 100.
Definition MAX_RTO : Z := 1600.
Definition MAX_RETRIES : Z := 6.
Definition FIN_WAIT2_TIMEOUT : Z := 3000.

(** ** Data *)

(** [Endpoint] of net/mod.rs. *)
Record Endpoint : Type := mkEndpoint { ip : list Z; port : Z }.

#[export] Instance Endpoint_eq_dec : EqDecision Endpoint.
Proof. solve_decision. Defined.

Inductive State : Type :=
| Idle | SynSent | Established | FinWait1 | FinWait2 | CloseWait | Closing | LastAck | Closed.

#[export] Instance State_eq_dec : EqDecision State.
Proof. solve_decision. Defined.

(** The arguments of a call of [transmit]. *)
Record Out : Type := mkOut {
  o_port : Z; o_remote : Endpoint; o_seq : Z; o_ack : Z; o_flags : Z; o_window : Z;
  o_payload : list Z;
}.

(** An incoming segment, as [parse] delivers it. *)
Record Segment : Type := mkSegment {
  src_port : Z; dst_port : Z; seq : Z; ack : Z; flags : Z; window : Z; seg_mss : option Z;
  payload : list Z;
}.

Record Tcb : Type := mkTcb {
  st : State;
  local_port : Z;
  remote : Endpoint;
  iss : Z;
  snd_una : Z;
  snd_nxt : Z;
  snd_max : Z;
  snd_wnd : Z;
  mss : Z;
  send_buf : list Z;
  fin_queued : bool;
  fin_seq : option Z;
  fin_acked : bool;
  rcv_nxt : Z;
  recv_buf : list Z;
  peer_fin : bool;
  user_closed : bool;
  advertised : Z;
  error : option FsError;
  rto : Z;
  retries : Z;
  deadline : option Z;
  tx : list Out;
}.

Definition set_st (x : State) (t : Tcb) : Tcb :=
  mkTcb x (local_port t) (remote t) (iss t) (snd_una t) (snd_nxt t) (snd_max t) (snd_wnd t) (mss t)
    (send_buf t) (fin_queued t) (fin_seq t) (fin_acked t) (rcv_nxt t) (recv_buf t) (peer_fin t)
    (user_closed t) (advertised t) (error t) (rto t) (retries t) (deadline t) (tx t).
Definition set_snd_una (x : Z) (t : Tcb) : Tcb :=
  mkTcb (st t) (local_port t) (remote t) (iss t) x (snd_nxt t) (snd_max t) (snd_wnd t) (mss t)
    (send_buf t) (fin_queued t) (fin_seq t) (fin_acked t) (rcv_nxt t) (recv_buf t) (peer_fin t)
    (user_closed t) (advertised t) (error t) (rto t) (retries t) (deadline t) (tx t).
Definition set_snd_nxt (x : Z) (t : Tcb) : Tcb :=
  mkTcb (st t) (local_port t) (remote t) (iss t) (snd_una t) x (snd_max t) (snd_wnd t) (mss t)
    (send_buf t) (fin_queued t) (fin_seq t) (fin_acked t) (rcv_nxt t) (recv_buf t) (peer_fin t)
    (user_closed t) (advertised t) (error t) (rto t) (retries t) (deadline t) (tx t).
Definition set_snd_max (x : Z) (t : Tcb) : Tcb :=
  mkTcb (st t) (local_port t) (remote t) (iss t) (snd_una t) (snd_nxt t) x (snd_wnd t) (mss t)
    (send_buf t) (fin_queued t) (fin_seq t) (fin_acked t) (rcv_nxt t) (recv_buf t) (peer_fin t)
    (user_closed t) (advertised t) (error t) (rto t) (retries t) (deadline t) (tx t).
Definition set_snd_wnd (x : Z) (t : Tcb) : Tcb :=
  mkTcb (st t) (local_port t) (remote t) (iss t) (snd_una t) (snd_nxt t) (snd_max t) x (mss t)
    (send_buf t) (fin_queued t) (fin_seq t) (fin_acked t) (rcv_nxt t) (recv_buf t) (peer_fin t)
    (user_closed t) (advertised t) (error t) (rto t) (retries t) (deadline t) (tx t).
Definition set_mss (x : Z) (t : Tcb) : Tcb :=
  mkTcb (st t) (local_port t) (remote t) (iss t) (snd_una t) (snd_nxt t) (snd_max t) (snd_wnd t) x
    (send_buf t) (fin_queued t) (fin_seq t) (fin_acked t) (rcv_nxt t) (recv_buf t) (peer_fin t)
    (user_closed t) (advertised t) (error t) (rto t) (retries t) (deadline t) (tx t).
Definition set_send_buf (x : list Z) (t : Tcb) : Tcb :=
  mkTcb (st t) (local_port t) (remote t) (iss t) (snd_una t) (snd_nxt t) (snd_max t) (snd_wnd t)
    (mss t) x (fin_queued t) (fin_seq t) (fin_acked t) (rcv_nxt t) (recv_buf t) (peer_fin t)
    (user_closed t) (advertised t) (error t) (rto t) (retries t) (deadline t) (tx t).
Definition set_fin_queued (x : bool) (t : Tcb) : Tcb :=
  mkTcb (st t) (local_port t) (remote t) (iss t) (snd_una t) (snd_nxt t) (snd_max t) (snd_wnd t)
    (mss t) (send_buf t) x (fin_seq t) (fin_acked t) (rcv_nxt t) (recv_buf t) (peer_fin t)
    (user_closed t) (advertised t) (error t) (rto t) (retries t) (deadline t) (tx t).
Definition set_fin_seq (x : option Z) (t : Tcb) : Tcb :=
  mkTcb (st t) (local_port t) (remote t) (iss t) (snd_una t) (snd_nxt t) (snd_max t) (snd_wnd t)
    (mss t) (send_buf t) (fin_queued t) x (fin_acked t) (rcv_nxt t) (recv_buf t) (peer_fin t)
    (user_closed t) (advertised t) (error t) (rto t) (retries t) (deadline t) (tx t).
Definition set_fin_acked (x : bool) (t : Tcb) : Tcb :=
  mkTcb (st t) (local_port t) (remote t) (iss t) (snd_una t) (snd_nxt t) (snd_max t) (snd_wnd t)
    (mss t) (send_buf t) (fin_queued t) (fin_seq t) x (rcv_nxt t) (recv_buf t) (peer_fin t)
    (user_closed t) (advertised t) (error t) (rto t) (retries t) (deadline t) (tx t).
Definition set_rcv_nxt (x : Z) (t : Tcb) : Tcb :=
  mkTcb (st t) (local_port t) (remote t) (iss t) (snd_una t) (snd_nxt t) (snd_max t) (snd_wnd t)
    (mss t) (send_buf t) (fin_queued t) (fin_seq t) (fin_acked t) x (recv_buf t) (peer_fin t)
    (user_closed t) (advertised t) (error t) (rto t) (retries t) (deadline t) (tx t).
Definition set_recv_buf (x : list Z) (t : Tcb) : Tcb :=
  mkTcb (st t) (local_port t) (remote t) (iss t) (snd_una t) (snd_nxt t) (snd_max t) (snd_wnd t)
    (mss t) (send_buf t) (fin_queued t) (fin_seq t) (fin_acked t) (rcv_nxt t) x (peer_fin t)
    (user_closed t) (advertised t) (error t) (rto t) (retries t) (deadline t) (tx t).
Definition set_peer_fin (x : bool) (t : Tcb) : Tcb :=
  mkTcb (st t) (local_port t) (remote t) (iss t) (snd_una t) (snd_nxt t) (snd_max t) (snd_wnd t)
    (mss t) (send_buf t) (fin_queued t) (fin_seq t) (fin_acked t) (rcv_nxt t) (recv_buf t) x
    (user_closed t) (advertised t) (error t) (rto t) (retries t) (deadline t) (tx t).
Definition set_user_closed (x : bool) (t : Tcb) : Tcb :=
  mkTcb (st t) (local_port t) (remote t) (iss t) (snd_una t) (snd_nxt t) (snd_max t) (snd_wnd t)
    (mss t) (send_buf t) (fin_queued t) (fin_seq t) (fin_acked t) (rcv_nxt t) (recv_buf t) (peer_fin
    t) x (advertised t) (error t) (rto t) (retries t) (deadline t) (tx t).
Definition set_advertised (x : Z) (t : Tcb) : Tcb :=
  mkTcb (st t) (local_port t) (remote t) (iss t) (snd_una t) (snd_nxt t) (snd_max t) (snd_wnd t)
    (mss t) (send_buf t) (fin_queued t) (fin_seq t) (fin_acked t) (rcv_nxt t) (recv_buf t) (peer_fin
    t) (user_closed t) x (error t) (rto t) (retries t) (deadline t) (tx t).
Definition set_error (x : option FsError) (t : Tcb) : Tcb :=
  mkTcb (st t) (local_port t) (remote t) (iss t) (snd_una t) (snd_nxt t) (snd_max t) (snd_wnd t)
    (mss t) (send_buf t) (fin_queued t) (fin_seq t) (fin_acked t) (rcv_nxt t) (recv_buf t) (peer_fin
    t) (user_closed t) (advertised t) x (rto t) (retries t) (deadline t) (tx t).
Definition set_rto (x : Z) (t : Tcb) : Tcb :=
  mkTcb (st t) (local_port t) (remote t) (iss t) (snd_una t) (snd_nxt t) (snd_max t) (snd_wnd t)
    (mss t) (send_buf t) (fin_queued t) (fin_seq t) (fin_acked t) (rcv_nxt t) (recv_buf t) (peer_fin
    t) (user_closed t) (advertised t) (error t) x (retries t) (deadline t) (tx t).
Definition set_retries (x : Z) (t : Tcb) : Tcb :=
  mkTcb (st t) (local_port t) (remote t) (iss t) (snd_una t) (snd_nxt t) (snd_max t) (snd_wnd t)
    (mss t) (send_buf t) (fin_queued t) (fin_seq t) (fin_acked t) (rcv_nxt t) (recv_buf t) (peer_fin
    t) (user_closed t) (advertised t) (error t) (rto t) x (deadline t) (tx t).
Definition set_deadline (x : option Z) (t : Tcb) : Tcb :=
  mkTcb (st t) (local_port t) (remote t) (iss t) (snd_una t) (snd_nxt t) (snd_max t) (snd_wnd t)
    (mss t) (send_buf t) (fin_queued t) (fin_seq t) (fin_acked t) (rcv_nxt t) (recv_buf t) (peer_fin
    t) (user_closed t) (advertised t) (error t) (rto t) (retries t) x (tx t).
Definition set_tx (x : list Out) (t : Tcb) : Tcb :=
  mkTcb (st t) (local_port t) (remote t) (iss t) (snd_una t) (snd_nxt t) (snd_max t) (snd_wnd t)
    (mss t) (send_buf t) (fin_queued t) (fin_seq t) (fin_acked t) (rcv_nxt t) (recv_buf t) (peer_fin
    t) (user_closed t) (advertised t) (error t) (rto t) (retries t) (deadline t) x.

(** [flags & mask != 0] *)
Definition has (fl mask : Z) : bool := negb (Z.land fl mask =? 0).

Definition seq_lt (a b : Z) : bool := as_i32 (u32 (a - b)) <? 0.
Definition seq_le (a b : Z) : bool := as_i32 (u32 (a - b)) <=? 0.

(** ** The wire format *)

(** The walk over the options: [None] is the early return of [rest.first()?],
    [Some mss] the result of the loop.  Each round drops at least one byte, so
    the length of the options is enough fuel. *)
Fixpoint parse_options (fuel : nat) (options : list Z) (m : option Z) : option (option Z) :=
  match fuel, options with
  | S fuel, kind :: rest =>
      if kind =? 0 then Some m
      else if kind =? 1 then parse_options fuel rest m
      else
        match rest with
        | [] => None
        | len :: _ =>
            if (len <? 2) || (zlen options <? len) then Some m
            else
              let m := if (kind =? 2) && (len =? 4)
                       then Some (be16 (byte_at options 2) (byte_at options 3)) else m in
              parse_options fuel (drop (Z.to_nat len) options) m
        end
  | _, _ => Some m
  end.

Definition parse (segment : list Z) : option Segment :=
  if zlen segment <? HEADER_LEN then None else
  let data_offset := Z.shiftr (byte_at segment 12) 4 * 4 in
  if (data_offset <? HEADER_LEN) || (zlen segment <? data_offset) then None else
  let options := slice HEADER_LEN data_offset segment in
  match parse_options (length options) options None with
  | None => None
  | Some m =>
      Some (mkSegment
        (be_val (slice 0 2 segment)) (be_val (slice 2 4 segment))
        (be_val (slice 4 8 segment)) (be_val (slice 8 12 segment))
        (byte_at segment 13) (be_val (slice 14 16 segment)) m
        (slice data_offset (zlen segment) segment))
  end.

(** [transmit] up to the call of [transmit_ipv4_cached]: the bytes of the
    segment, checksum included.  [copy_from_slice] panics when the payload does
    not fit the buffer of a header with options and [MSS] bytes. *)
Definition segment_header (o : Out) : list Z :=
  let header_len := if has (o_flags o) SYN then HEADER_LEN + 4 else HEADER_LEN in
  be_bytes 2 (o_port o) ++ be_bytes 2 (port (o_remote o)) ++
  be_bytes 4 (o_seq o) ++ be_bytes 4 (o_ack o) ++
  [u8 (Z.shiftl (header_len / 4) 4); o_flags o] ++
  be_bytes 2 (Z.min (o_window o) u16_max).

Definition segment_tail (o : Out) : list Z :=
  [0; 0] ++ (if has (o_flags o) SYN then [2; 4; Z.shiftr MSS 8; u8 MSS] else []) ++ o_payload o.

Definition segment_bytes (local_ip : list Z) (o : Out) : res (list Z) :=
  let header_len := if has (o_flags o) SYN then HEADER_LEN + 4 else HEADER_LEN in
  if HEADER_LEN + 4 + MSS <? header_len + zlen (o_payload o) then Panic else
  match transport_checksum local_ip (ip (o_remote o)) PROTOCOL
          (segment_header o ++ [0; 0] ++ segment_tail o) with
  | Ok checksum => Ok (segment_header o ++ be_bytes 2 checksum ++ segment_tail o)
  | Err e => Err e
  | Panic => Panic
  | Hang => Hang
  end.

(** ** The control block *)

Definition Tcb_new : Tcb :=
  mkTcb Idle 0 (mkEndpoint [0; 0; 0; 0] 0) 0 0 0 0 0 DEFAULT_PEER_MSS [] false None false 0 []
    false false 0 None INITIAL_RTO 0 None [].

(** [transmit], as a step of a handler. *)
Definition emit (o : Out) (t : Tcb) : Tcb := set_tx (tx t ++ [o]) t.

Definition send (fl sq : Z) (data : list Z) (t : Tcb) : Tcb :=
  let wnd := RECV_CAP - zlen (recv_buf t) in
  let a := if has fl ACK then rcv_nxt t else 0 in
  emit (mkOut (local_port t) (remote t) sq a fl wnd data) (set_advertised wnd t).

Definition send_ack (t : Tcb) : Tcb := send ACK (snd_max t) [] t.

Definition advance (len : Z) (t : Tcb) : Tcb :=
  let t := set_snd_nxt (u32 (snd_nxt t + len)) t in
  if seq_lt (snd_max t) (snd_nxt t) then set_snd_max (snd_nxt t) t else t.

Definition arm (now : Z) (t : Tcb) : Tcb :=
  match deadline t with
  | None => set_deadline (Some (now + rto t)) t
  | Some _ => t
  end.

Definition fail (e : FsError) (t : Tcb) : Tcb :=
  set_send_buf [] (set_deadline None (set_st Closed (set_error (Some e) t))).

Definition data_before_cursor (t : Tcb) : Z :=
  Z.min (u32 (snd_nxt t - snd_una t)) (zlen (send_buf t)).

(** [n] of the loop of [output], lines 267-271. *)
Definition chunk_len (probe : bool) (t : Tcb) : Z :=
  let in_flight := data_before_cursor t in
  let unsent := zlen (send_buf t) - in_flight in
  let wnd := if probe && (snd_wnd t =? 0) && (in_flight =? 0) then 1 else snd_wnd t in
  Z.min (Z.min unsent (saturating_sub wnd in_flight)) (mss t).

Definition send_chunk (now n : Z) (t : Tcb) : Tcb :=
  let in_flight := data_before_cursor t in
  arm now (advance n
    (send (Z.lor ACK PSH) (snd_nxt t) (slice in_flight (in_flight + n) (send_buf t)) t)).

(** Each round sends at least one byte of [send_buf], whose length is enough
    fuel. *)
Fixpoint output_loop (fuel : nat) (now : Z) (probe : bool) (t : Tcb) : Tcb :=
  let n := chunk_len probe t in
  if n =? 0 then t else
  match fuel with
  | O => t
  | S fuel => output_loop fuel now probe (send_chunk now n t)
  end.

(** The FIN, lines 283-299. *)
Definition fin_due (t : Tcb) : bool :=
  let cursor_at_fin := u32 (snd_nxt t - snd_una t) =? zlen (send_buf t) in
  fin_queued t && negb (fin_acked t) && cursor_at_fin &&
  match fin_seq t with None => true | Some fin => fin =? snd_nxt t end.

(** [send_fin] up to the change of state. *)
Definition fin_sent (t : Tcb) : Tcb :=
  let t := set_fin_seq (Some (snd_nxt t)) t in
  advance 1 (send (Z.lor FIN ACK) (snd_nxt t) [] t).

Definition after_fin (s : State) : State :=
  match s with
  | Established => FinWait1
  | CloseWait => LastAck
  | state => state
  end.

Definition send_fin (now : Z) (t : Tcb) : Tcb :=
  arm now (set_st (after_fin (st (fin_sent t))) (fin_sent t)).

Definition output (now : Z) (probe : bool) (t : Tcb) : Tcb :=
  match st t with
  | SynSent =>
      if snd_nxt t =? iss t then arm now (advance 1 (send SYN (iss t) [] t)) else t
  | Established | CloseWait | FinWait1 | Closing | LastAck =>
      let t := output_loop (length (send_buf t)) now probe t in
      let t := if fin_due t then send_fin now t else t in
      if data_before_cursor t <? zlen (send_buf t) then arm now t else t
  | _ => t
  end.

(** ** Segment arrival *)

(** The answer in [SynSent], lines 308-334. *)
Definition on_syn_sent (seg : Segment) (now : Z) (t : Tcb) : Tcb :=
  if has (flags seg) ACK && negb (ack seg =? u32 (iss t + 1)) then
    if has (flags seg) RST then t
    else emit (mkOut (local_port t) (remote t) (ack seg) 0 RST 0 []) t
  else if has (flags seg) RST then
    if has (flags seg) ACK then fail ConnectionRefused t else t
  else if Z.land (flags seg) (Z.lor SYN ACK) =? Z.lor SYN ACK then
    let t := set_rcv_nxt (u32 (seq seg + 1)) t in
    let t := set_snd_una (ack seg) t in
    let t := set_snd_wnd (window seg) t in
    let t := set_mss (Z.min (default DEFAULT_PEER_MSS (seg_mss seg)) MSS) t in
    let t := set_st Established t in
    let t := set_deadline None (set_rto INITIAL_RTO (set_retries 0 t)) in
    output now false (send_ack t)
  else t.

(** An acknowledgement of new data, lines 355-367. *)
Definition ack_data (seg : Segment) (now : Z) (t : Tcb) : Tcb :=
  let acked := u32 (ack seg - snd_una t) in
  let t := set_send_buf (drop (Z.to_nat (Z.min acked (zlen (send_buf t)))) (send_buf t)) t in
  let t := set_fin_acked
             (fin_acked t || match fin_seq t with Some fin => seq_lt fin (ack seg) | None => false end)
             t in
  let t := set_snd_una (ack seg) t in
  let t := set_snd_nxt (if seq_lt (snd_nxt t) (snd_una t) then snd_una t else snd_nxt t) t in
  let t := set_rto INITIAL_RTO (set_retries 0 t) in
  set_deadline (if snd_una t =? snd_max t then None else Some (now + rto t)) t.

(** The acknowledgement of our FIN, lines 368-377. *)
Definition ack_fin (now : Z) (t : Tcb) : Tcb :=
  if fin_acked t then
    match st t with
    | FinWait1 => set_deadline (Some (now + FIN_WAIT2_TIMEOUT)) (set_st FinWait2 t)
    | Closing | LastAck => set_st Closed t
    | _ => t
    end
  else t.

Definition take_ack (seg : Segment) (now : Z) (t : Tcb) : Tcb := ack_fin now (ack_data seg now t).

(** In-order data and a FIN, lines 389-417. *)
Definition accepts (s : State) : bool :=
  match s with Established | FinWait1 | FinWait2 => true | _ => false end.

Definition taken (seg : Segment) (t : Tcb) : Z :=
  if user_closed t then zlen (payload seg)
  else Z.min (zlen (payload seg)) (RECV_CAP - zlen (recv_buf t)).

Definition accept_data (seg : Segment) (t : Tcb) : Tcb :=
  let n := taken seg t in
  let t := set_recv_buf (if user_closed t then recv_buf t
                         else recv_buf t ++ slice 0 n (payload seg)) t in
  set_rcv_nxt (u32 (rcv_nxt t + n)) t.

Definition accept_fin (t : Tcb) : Tcb :=
  let t := set_peer_fin true (set_rcv_nxt (u32 (rcv_nxt t + 1)) t) in
  let t := set_st (match st t with
                   | Established => CloseWait
                   | FinWait1 => Closing
                   | FinWait2 => Closed
                   | state => state
                   end) t in
  set_deadline (if decide (st t = Closed) then None else deadline t) t.

Definition take_data (seg : Segment) (t : Tcb) : Tcb :=
  if (seq seg =? rcv_nxt t) && accepts (st t) then
    let t' := accept_data seg t in
    if has (flags seg) FIN && (taken seg t =? zlen (payload seg)) then accept_fin t' else t'
  else t.

(** Lines 385-422, after the acknowledgement field has been handled. *)
Definition after_ack (seg : Segment) (now : Z) (t : Tcb) : Tcb :=
  let t := set_snd_wnd (window seg) t in
  let t := if negb (zlen (payload seg) =? 0) || has (flags seg) FIN
           then send_ack (take_data seg t) else t in
  output now false t.

Definition on_segment (seg : Segment) (now : Z) (t : Tcb) : Tcb :=
  match st t with
  | Idle | Closed => t
  | SynSent => on_syn_sent seg now t
  | _ =>
      if has (flags seg) RST then
        let wnd := Z.max (RECV_CAP - zlen (recv_buf t)) 1 in
        if seq_le (rcv_nxt t) (seq seg) && seq_lt (seq seg) (u32 (rcv_nxt t + wnd))
        then fail ConnectionReset t else t
      else if has (flags seg) SYN then send_ack t
      else if negb (has (flags seg) ACK) then t
      else if seq_lt (snd_una t) (ack seg) && seq_le (ack seg) (snd_max t) then
        after_ack seg now (take_ack seg now t)
      else if seq_lt (snd_max t) (ack seg) then send_ack t
      else if (ack seg =? snd_una t) && (window seg =? 0) then
        after_ack seg now (set_retries 0 t)
      else after_ack seg now t
  end.

(** ** The timer *)

Definition on_timer (now : Z) (t : Tcb) : Tcb :=
  match deadline t with
  | None => t
  | Some d =>
      if now <? d then t else
      let t := set_deadline None t in
      if decide (st t = FinWait2) then set_st Closed t else
      let t := set_retries (retries t + 1) t in
      if MAX_RETRIES <? retries t then fail TimedOut t else
      let t := set_rto (Z.min (rto t * 2) MAX_RTO) t in
      let t := set_snd_nxt (if decide (st t = SynSent) then iss t else snd_una t) t in
      arm now (output now true t)
  end.

(** ** The descriptor calls

    [read] and [write] are loops around a critical section under the lock of
    the control block; [Wait] is the call of [wait_current_until] between two
    rounds, [Again] the [continue]. *)
Inductive outcome (A : Type) : Type :=
| Return (r : res A)
| Again
| Wait.
Arguments Return {A} r.
Arguments Again {A}.
Arguments Wait {A}.

(** One round of [read] with a buffer of [len] bytes, lines 544-577; the
    result is the bytes copied out. *)
Definition read_round (len : Z) (t : Tcb) : Tcb * outcome (list Z) :=
  if len =? 0 then (t, Return (Ok []))
  else if negb (zlen (recv_buf t) =? 0) then
    let n := Z.min len (zlen (recv_buf t)) in
    let data := slice 0 n (recv_buf t) in
    let t := set_recv_buf (drop (Z.to_nat n) (recv_buf t)) t in
    let t := if (advertised t <? RECV_CAP / 2) &&
                (RECV_CAP / 2 <=? RECV_CAP - zlen (recv_buf t)) &&
                match st t with Idle | SynSent | Closed => false | _ => true end
             then send_ack t else t in
    (t, Return (Ok data))
  else if peer_fin t then (t, Return (Ok []))
  else
    match error t with
    | Some e => (t, Return (Err e))
    | None =>
        match st t with
        | Idle => (t, Return (Err NotConnected))
        | Closed => (t, Return (Ok []))
        | _ => (t, Wait)
        end
    end.

(** The error of a [write], lines 588-593. *)
Definition write_error (t : Tcb) : option FsError :=
  match error t, st t with
  | Some e, _ => Some e
  | None, (Idle | SynSent) => Some NotConnected
  | None, (Established | CloseWait) => if fin_queued t then Some BrokenPipe else None
  | None, _ => Some BrokenPipe
  end.

(** One round of [write]: the new state, the new value of [written]. *)
Definition write_round (now : Z) (data : list Z) (written : Z) (t : Tcb) : Tcb * Z * outcome Z :=
  if negb (written <? zlen data) then (t, written, Return (Ok written)) else
  match write_error t with
  | Some e => (t, written, Return (if 0 <? written then Ok written else Err e))
  | None =>
      let n := Z.min (SEND_CAP - zlen (send_buf t)) (zlen data - written) in
      if 0 <? n then
        let t := set_send_buf (send_buf t ++ slice written (written + n) data) t in
        (output now false t, written + n, Again)
      else (t, written, Wait)
  end.

(** The critical section of [Drop for TcpSocket], lines 614-625. *)
Definition close (now : Z) (t : Tcb) : Tcb :=
  let t := set_recv_buf [] (set_user_closed true t) in
  match st t with
  | SynSent => set_st Closed t
  | Established | CloseWait => output now false (set_fin_queued true t)
  | _ => t
  end.

(** The part of [connect] that fills in the control block, lines 516-524. *)
Definition open (lport : Z) (rem : Endpoint) (isn now : Z) (t : Tcb) : Tcb :=
  output now false
    (mkTcb SynSent lport rem isn isn isn isn (snd_wnd t) (mss t) (send_buf t) (fin_queued t)
       (fin_seq t) (fin_acked t) (rcv_nxt t) (recv_buf t) (peer_fin t) (user_closed t)
       (advertised t) (error t) (rto t) (retries t) (deadline t) (tx t)).

(** ** The connection table *)

(** An entry of [CONNS]; a connection ([Arc<Conn>]) is its index in [tcbs]. *)
Record Entry : Type := mkEntry { e_port : Z; e_remote : Endpoint; e_conn : nat }.

(** [CONNS], [NEXT_EPHEMERAL] and the control blocks.  [woken] lists the
    connections passed to [process::wake_waiters], [resets] the segments sent
    without a connection. *)
Record tcp : Type := mkTcp {
  tcbs : list Tcb;
  conns : list Entry;
  next_ephemeral : Z;
  woken : list nat;
  resets : list Out;
}.

Definition upd_tcb (c : nat) (f : Tcb -> Tcb) (s : tcp) : tcp :=
  mkTcp (alter f c (tcbs s)) (conns s) (next_ephemeral s) (woken s) (resets s).
Definition set_conns (x : list Entry) (s : tcp) : tcp :=
  mkTcp (tcbs s) x (next_ephemeral s) (woken s) (resets s).
Definition set_next (x : Z) (s : tcp) : tcp :=
  mkTcp (tcbs s) (conns s) x (woken s) (resets s).
Definition wake (c : nat) (s : tcp) : tcp :=
  mkTcp (tcbs s) (conns s) (next_ephemeral s) (woken s ++ [c]) (resets s).
Definition reset (o : Out) (s : tcp) : tcp :=
  mkTcp (tcbs s) (conns s) (next_ephemeral s) (woken s) (resets s ++ [o]).

Definition remove (c : nat) (s : tcp) : tcp :=
  set_conns (filter (fun e => e_conn e <> c) (conns s)) s.

(** [TcpSocket::new] *)
Definition new_socket (s : tcp) : tcp * nat :=
  (mkTcp (tcbs s ++ [Tcb_new]) (conns s) (next_ephemeral s) (woken s) (resets s), length (tcbs s)).

Definition port_used (p : Z) (l : list Entry) : bool := existsb (fun e => e_port e =? p) l.

(** The search for a free ephemeral port, lines 503-513: the new value of
    [NEXT_EPHEMERAL] and the port. *)
Fixpoint pick_port (span : nat) (next : Z) (l : list Entry) : Z * option Z :=
  match span with
  | O => (next, None)
  | S span =>
      let next' := if next =? u16_max then EPHEMERAL_FIRST else next + 1 in
      if port_used next l then pick_port span next' l else (next', Some next)
  end.

Definition span : nat := Z.to_nat (u16_max - EPHEMERAL_FIRST + 1).

(** [connect] up to its waiting loop.  [resolved] says whether the next hop of
    the address is known and its MAC was resolved; [isn] is the value of the
    time stamp counter. *)
Definition connect (resolved : bool) (rem : Endpoint) (isn now : Z) (c : nat) : M tcp unit := fun s =>
  if (port rem =? 0) || bool_decide (ip rem = [0; 0; 0; 0]) then (s, Err InvalidArgument)
  else if negb resolved then (s, Err NetworkUnreachable)
  else
    match tcbs s !! c with
    | None => (s, Panic)
    | Some t =>
        if decide (st t = Idle) then
          let '(next, p) := pick_port span (next_ephemeral s) (conns s) in
          let s := set_next next s in
          match p with
          | None => (s, Err AddressInUse)
          | Some lport =>
              let s := upd_tcb c (open lport rem isn now) s in
              (set_conns (conns s ++ [mkEntry lport rem c]) s, Ok tt)
          end
        else (s, Err InvalidArgument)
    end.

(** One round of the waiting loop of [connect], lines 528-539. *)
Definition connect_round (t : Tcb) : outcome unit :=
  match st t with
  | SynSent => Wait
  | Closed => Return (Err (default ConnectionReset (error t)))
  | _ => Return (Ok tt)
  end.

(** The end of a handler that ran under the lock of connection [c]. *)
Definition reap (c : nat) (s : tcp) : tcp :=
  match tcbs s !! c with
  | Some t => if decide (st t = Closed) then remove c s else s
  | None => s
  end.

(** [Drop for TcpSocket] *)
Definition drop_socket (now : Z) (c : nat) (s : tcp) : tcp := reap c (upd_tcb c (close now) s).

(** The connection a segment belongs to, lines 641-646. *)
Definition lookup_conn (rem : Endpoint) (seg : Segment) (s : tcp) : option nat :=
  e_conn <$> first_such (fun e => (e_port e =? dst_port seg) && bool_decide (e_remote e = rem))
               (conns s).

(** The reset for a segment without a connection, lines 648-658. *)
Definition no_connection (rem : Endpoint) (seg : Segment) (s : tcp) : tcp :=
  if has (flags seg) RST then s else
  if has (flags seg) ACK then reset (mkOut (dst_port seg) rem (ack seg) 0 RST 0 []) s
  else
    let fin_syn := if has (flags seg) (Z.lor SYN FIN) then 1 else 0 in
    let a := u32 (seq seg + u32 (zlen (payload seg) + fin_syn)) in
    reset (mkOut (dst_port seg) rem 0 a (Z.lor RST ACK) 0 []) s.

Definition handle_incoming (src_ip dst_ip segment : list Z) (now : Z) (s : tcp) : tcp :=
  match transport_checksum src_ip dst_ip PROTOCOL segment with
  | Ok 0 =>
      match parse segment with
      | None => s
      | Some seg =>
          let rem := mkEndpoint src_ip (src_port seg) in
          match lookup_conn rem seg s with
          | None => no_connection rem seg s
          | Some c => reap c (wake c (upd_tcb c (on_segment seg now) s))
          end
      end
  | _ => s
  end.

(** One connection of the loop of [on_timer], lines 675-689. *)
Definition timer_conn (now : Z) (s : tcp) (c : nat) : tcp :=
  match tcbs s !! c with
  | None => s
  | Some t =>
      let fired := match deadline t with Some d => d <=? now | None => false end in
      let s := if fired then wake c (upd_tcb c (on_timer now) s) else s in
      reap c s
  end.

Definition on_timer_all (now : Z) (s : tcp) : tcp :=
  foldl (timer_conn now) s (e_conn <$> conns s).

End Tcp.
