(* ===== verification/TcpWire.v ===== *)
(** The TCP wire format: a segment built by [transmit] verifies and parses
    back to the values it was built from. *)

From S2P Require Import Prelude Checksum Tcp.

Module TcpWire.
Import Tcp.

(** A literal byte string. *)
Ltac bytes_lit :=
  unfold bytes_ok; repeat first [apply Forall_nil_2 | apply Forall_cons_2; [unfold is_byte; done|]].

(** The arguments [transmit] is called with: machine integers and bytes. *)
Record out_ok (o : Out) : Prop := {
  ok_port : 0 <= o_port o < 2 ^ 16;
  ok_remote : ip_ok (ip (o_remote o)) /\ 0 <= port (o_remote o) < 2 ^ 16;
  ok_seq : 0 <= o_seq o < 2 ^ 32;
  ok_ack : 0 <= o_ack o < 2 ^ 32;
  ok_flags : is_byte (o_flags o);
  ok_window : 0 <= o_window o;
  ok_payload : bytes_ok (o_payload o);
  ok_payload_len : zlen (o_payload o) <= MSS;
}.

(** The segment the other side sees. *)
Definition seg_of (o : Out) : Segment :=
  mkSegment (o_port o) (port (o_remote o)) (o_seq o) (o_ack o) (o_flags o)
    (Z.min (o_window o) u16_max) (if has (o_flags o) SYN then Some MSS else None) (o_payload o).

Lemma slice_tail {A} (h p : list A) : slice (zlen h) (zlen (h ++ p)) (h ++ p) = p.
Proof.
  pose proof (zlen_nonneg h). pose proof (zlen_nonneg p). rewrite zlen_app, slice_app_r by lia.
  rewrite Z.sub_diag. replace (zlen h + zlen p - zlen h) with (zlen p) by lia. apply slice_all.
Qed.

(** The fixed part of a parsed segment is read from its header. *)
Lemma parse_header h p data_offset m :
  zlen h = data_offset -> HEADER_LEN <= data_offset ->
  Z.shiftr (byte_at h 12) 4 * 4 = data_offset ->
  parse_options (length (slice HEADER_LEN data_offset h)) (slice HEADER_LEN data_offset h) None
    = Some m ->
  parse (h ++ p) =
    Some (mkSegment (be_val (slice 0 2 h)) (be_val (slice 2 4 h)) (be_val (slice 4 8 h))
            (be_val (slice 8 12 h)) (byte_at h 13) (be_val (slice 14 16 h)) m p).
Proof.
  unfold HEADER_LEN. intros Hl Hd Ho Hm. pose proof (zlen_nonneg p) as Hp.
  assert (forall i, 0 <= i < 20 -> byte_at (h ++ p) i = byte_at h i) as Hb.
  { intros i Hi. unfold byte_at, zlen in *. apply app_nth1. lia. }
  unfold parse, HEADER_LEN. rewrite Hb, Ho by lia.
  rewrite (proj2 (Z.ltb_ge (zlen (h ++ p)) 20)) by (rewrite zlen_app; lia).
  rewrite (proj2 (Z.ltb_ge data_offset 20)) by lia.
  rewrite (proj2 (Z.ltb_ge (zlen (h ++ p)) data_offset)) by (rewrite zlen_app; lia).
  cbn [orb]. rewrite (slice_app_l 20 data_offset) by lia. rewrite Hm.
  rewrite <- Hl at 1. rewrite slice_tail, Hb by lia.
  rewrite !slice_app_l by lia. done.
Qed.

Lemma length_header o : zlen (segment_header o) = 16.
Proof. unfold segment_header. by destruct (has (o_flags o) SYN). Qed.

Lemma header_ok o : out_ok o -> bytes_ok (segment_header o).
Proof.
  intros H. unfold segment_header. pose proof (ok_flags o H).
  repeat (apply Forall_app; split; try apply be_bytes_ok).
  constructor; [unfold is_byte, u8; pose proof (Z.mod_pos_bound
    (Z.shiftl ((if has (o_flags o) SYN then HEADER_LEN + 4 else HEADER_LEN) / 4) 4) (2 ^ 8)); lia|].
  by constructor.
Qed.

Lemma tail_ok o : out_ok o -> bytes_ok (segment_tail o).
Proof.
  intros H. unfold segment_tail. apply Forall_app; split.
  { bytes_lit. }
  apply Forall_app; split; [|apply (ok_payload o H)].
  destruct (has (o_flags o) SYN); bytes_lit.
Qed.

Lemma be_val_small n z : 0 <= z < 2 ^ (8 * Z.of_nat n) -> be_val (be_bytes n z) = z.
Proof. intros. rewrite be_val_be_bytes. by apply Z.mod_small. Qed.

(** The header with the checksum [c] parses to the arguments. *)
Lemma parse_segment o c :
  out_ok o -> parse (segment_header o ++ be_bytes 2 c ++ segment_tail o) = Some (seg_of o).
Proof.
  intros H. destruct H as [Hp [Hi Hr] Hs Ha Hf Hw Hd Hl].
  assert (0 <= Z.min (o_window o) u16_max < 2 ^ 16) as Hw' by (unfold u16_max; lia).
  unfold segment_tail, segment_header, seg_of.
  destruct (has (o_flags o) SYN) eqn:E.
  - rewrite !app_assoc. erewrite (parse_header _ _ 24); [|done|done|done|done].
    do 2 f_equal; [by apply (be_val_small 2)|by apply (be_val_small 2)
      |by apply (be_val_small 4)|by apply (be_val_small 4)|by apply (be_val_small 2)].
  - rewrite app_nil_l, !app_assoc. erewrite (parse_header _ _ 20); [|done|done|done|done].
    do 2 f_equal; [by apply (be_val_small 2)|by apply (be_val_small 2)
      |by apply (be_val_small 4)|by apply (be_val_small 4)|by apply (be_val_small 2)].
Qed.

Lemma segment_bytes_ok lip o :
  ip_ok lip -> out_ok o ->
  exists b, segment_bytes lip o = Ok b /\
            transport_checksum lip (ip (o_remote o)) PROTOCOL b = Ok 0 /\ parse b = Some (seg_of o).
Proof.
  intros Hi Ho. pose proof (ok_payload_len o Ho) as Hl.
  assert (zlen (segment_tail o) <= 6 + MSS) as Ht.
  { unfold segment_tail. rewrite !zlen_app. destruct (has (o_flags o) SYN);
      unfold zlen at 1 2; simpl length; lia. }
  pose proof (zlen_nonneg (segment_tail o)).
  assert (is_byte PROTOCOL) as HP by (unfold is_byte, PROTOCOL; lia).
  unfold segment_bytes, MSS, HEADER_LEN in *.
  rewrite (proj2 (Z.ltb_ge _ _)) by (destruct (has (o_flags o) SYN); lia).
  pose proof (header_ok o Ho) as Hh. pose proof (tail_ok o Ho) as Htk.
  assert (exists c, transport_checksum lip (ip (o_remote o)) PROTOCOL
            (segment_header o ++ [0; 0] ++ segment_tail o) = Ok c) as [c Hc].
  { eexists. rewrite transport_checksum_eq; [|apply Hi|apply (ok_remote o Ho)|done| |].
    - apply finish_sum, transport_sum_bound; [apply Hi|apply (ok_remote o Ho)|done| |];
        [|rewrite !zlen_app, length_header; unfold zlen at 1; simpl length; lia].
      apply Forall_app; split; [done|]. apply Forall_app; split; [bytes_lit|done].
    - apply Forall_app; split; [done|]. apply Forall_app; split; [bytes_lit|done].
    - rewrite !zlen_app, length_header. unfold zlen at 1. simpl length. lia. }
  rewrite Hc. eexists. split; [done|].
  apply transport_checksum_fills in Hc as [Hc Hb];
    [|apply Hi|apply (ok_remote o Ho)|done|done|done|by rewrite length_header
     |rewrite length_header; lia].
  split; [done|]. by apply parse_segment.
Qed.

(** C38: a segment [transmit] builds, in particular one with the MSS
    option, fits its buffer, carries a checksum that the receiver accepts, and
    parses back to the ports, sequence numbers, flags, window, MSS and payload
    it was built from. *)
Theorem tcp_segment_roundtrip lip o :
  ip_ok lip -> out_ok o ->
  exists b, segment_bytes lip o = Ok b /\
            transport_checksum lip (ip (o_remote o)) PROTOCOL b = Ok 0 /\
            parse b = Some (mkSegment (o_port o) (port (o_remote o)) (o_seq o) (o_ack o) (o_flags o)
                              (Z.min (o_window o) u16_max)
                              (if has (o_flags o) SYN then Some MSS else None) (o_payload o)).
Proof. apply segment_bytes_ok. Qed.

Definition syn_out : Out :=
  mkOut 50000 (mkEndpoint [10; 0; 2; 2] 80) 0xFFFFFFFF 0 SYN RECV_CAP [].
Definition data_out : Out :=
  mkOut 50000 (mkEndpoint [10; 0; 2; 2] 80) 17 99 (Z.lor ACK PSH) RECV_CAP [104; 105; 33].

Lemma tcp_segment_roundtrip_witness :
  (exists b, segment_bytes [10; 0; 2; 15] syn_out = Ok b /\
     transport_checksum [10; 0; 2; 15] (ip (o_remote syn_out)) PROTOCOL b = Ok 0 /\
     parse b = Some (mkSegment 50000 80 0xFFFFFFFF 0 2 16384 (Some 1460) [])) /\
  (exists b, segment_bytes [10; 0; 2; 15] data_out = Ok b /\
     transport_checksum [10; 0; 2; 15] (ip (o_remote data_out)) PROTOCOL b = Ok 0 /\
     parse b = Some (mkSegment 50000 80 17 99 24 16384 None [104; 105; 33])).
Proof.
  split; [apply (tcp_segment_roundtrip [10; 0; 2; 15] syn_out)
         |apply (tcp_segment_roundtrip [10; 0; 2; 15] data_out)];
    repeat split; simpl; first [done | bytes_lit; done].
Defined.

End TcpWire.
