(* ===== verification/TcpInv.v ===== *)
(** The invariants of a TCP control block.

    Sequence numbers are 32-bit and wrap; the invariants speak of positions,
    unbounded offsets from the initial sequence number: position 0 is the SYN,
    position [1 + k] byte [k] of the stream, the FIN follows the last byte.
    [Synced] relates the sender's fields to the bytes written so far, [honest]
    says that a transmitted segment carries the bytes of its position, and
    [Receiver] relates the receiving side to the peer's stream. *)

From S2P Require Import Prelude Checksum Tcp TcpWire.

Module TcpInv.
Import Tcp TcpWire.

(** ** Positions and sequence numbers *)

Lemma u32_range x : 0 <= u32 x < 2 ^ 32.
Proof. unfold u32. apply Z.mod_pos_bound. lia. Qed.

Lemma u32_sub i a b : 0 <= a - b < 2 ^ 32 -> u32 (u32 (i + a) - u32 (i + b)) = a - b.
Proof.
  intros H. unfold u32. rewrite <- Zminus_mod. replace (i + a - (i + b)) with (a - b) by lia.
  by apply Z.mod_small.
Qed.

Lemma u32_add i a n : u32 (u32 (i + a) + n) = u32 (i + (a + n)).
Proof. unfold u32. rewrite Z.add_mod_idemp_l by lia. f_equal. lia. Qed.

Lemma u32_inj i a b : - 2 ^ 32 < a - b < 2 ^ 32 -> u32 (i + a) = u32 (i + b) -> a = b.
Proof.
  unfold u32. intros H E. assert ((a - b) mod 2 ^ 32 = 0) as Hm.
  { replace (a - b) with (i + a - (i + b)) by lia. by rewrite Zminus_mod, E, Z.sub_diag. }
  apply Z.mod_divide in Hm as [q Hq]; lia.
Qed.

(** [a - b] modulo 2^32 as a signed integer, for positions less than half the
    sequence space apart. *)
Lemma as_i32_sub i a b :
  - 2 ^ 31 <= a - b < 2 ^ 31 -> as_i32 (u32 (u32 (i + a) - u32 (i + b))) = a - b.
Proof.
  intros H. unfold as_i32, u32. rewrite <- Zminus_mod.
  replace (i + a - (i + b)) with (a - b) by lia.
  destruct (Z.le_gt_cases 0 (a - b)).
  - rewrite Z.mod_small by lia. destruct (Z.ltb_spec (a - b) (2 ^ 31)); lia.
  - replace ((a - b) mod 2 ^ 32) with (a - b + 2 ^ 32); [destruct (Z.ltb_spec (a - b + 2 ^ 32) (2 ^ 31)); lia|].
    rewrite <- (Z.mod_add _ 1) by lia. rewrite Z.mod_small; lia.
Qed.

Lemma seq_lt_pos i a b :
  - 2 ^ 31 <= a - b < 2 ^ 31 -> seq_lt (u32 (i + a)) (u32 (i + b)) = (a <? b).
Proof. intros. unfold seq_lt. rewrite as_i32_sub by done. zcase; lia. Qed.

Lemma seq_le_pos i a b :
  - 2 ^ 31 <= a - b < 2 ^ 31 -> seq_le (u32 (i + a)) (u32 (i + b)) = (a <=? b).
Proof. intros. unfold seq_le. rewrite as_i32_sub by done. zcase; lia. Qed.

(** An acknowledgement number has a position within half the sequence space
    of a given one. *)
Lemma near i a x :
  0 <= x < 2 ^ 32 -> exists p, x = u32 (i + p) /\ a - 2 ^ 31 < p <= a + 2 ^ 31.
Proof.
  intros Hx. set (d := u32 (x - (i + a))). pose proof (u32_range (x - (i + a))) as Hd. fold d in Hd.
  assert (forall k, u32 (i + (a + d + k * 2 ^ 32)) = x) as E.
  { intros k. unfold u32. rewrite Z.add_assoc, Z.mod_add by lia.
    unfold d, u32. rewrite Z.add_assoc, Z.add_mod_idemp_r by lia.
    replace (i + a + (x - (i + a))) with x by lia. by apply Z.mod_small. }
  destruct (Z.le_gt_cases d (2 ^ 31)).
  - exists (a + d + 0 * 2 ^ 32). rewrite E. lia.
  - exists (a + d + (-1) * 2 ^ 32). rewrite E. lia.
Qed.

(** The fields of an updated control block. *)
Ltac tcb_simpl :=
  cbn [st local_port remote iss snd_una snd_nxt snd_max snd_wnd mss send_buf fin_queued fin_seq
       fin_acked rcv_nxt recv_buf peer_fin user_closed advertised error rto retries deadline tx
       set_st set_snd_una set_snd_nxt set_snd_max set_snd_wnd set_mss set_send_buf
       set_fin_queued set_fin_seq set_fin_acked set_rcv_nxt set_recv_buf set_peer_fin
       set_user_closed set_advertised set_error set_rto set_retries set_deadline set_tx] in *.

(** ** What is fixed during [output] *)

Definition core (t : Tcb) :=
  (local_port t, remote t, iss t, snd_una t, snd_wnd t, mss t, send_buf t, fin_queued t,
   fin_acked t, (rcv_nxt t, recv_buf t, peer_fin t, user_closed t, error t, rto t, retries t)).

Lemma core_set_st x t : core (set_st x t) = core t.
Proof. done. Qed.

Lemma core_set_fin_seq x t : core (set_fin_seq x t) = core t.
Proof. done. Qed.

Lemma core_send fl sq d t : core (send fl sq d t) = core t.
Proof. done. Qed.

Lemma core_advance n t : core (advance n t) = core t.
Proof. unfold advance. destruct (seq_lt _ _); done. Qed.

Lemma core_arm now t : core (arm now t) = core t.
Proof. unfold arm. destruct (deadline t); done. Qed.

Lemma core_chunk now n t : core (send_chunk now n t) = core t.
Proof. unfold send_chunk. by rewrite core_arm, core_advance, core_send. Qed.

Lemma core_loop fuel now probe t : core (output_loop fuel now probe t) = core t.
Proof.
  revert t. induction fuel as [|fuel IH]; intros t; simpl; destruct (_ =? 0); try done.
  by rewrite IH, core_chunk.
Qed.

Lemma core_fin_sent t : core (fin_sent t) = core t.
Proof. unfold fin_sent. by rewrite core_advance, core_send, core_set_fin_seq. Qed.

Lemma core_fin now t : core (send_fin now t) = core t.
Proof. unfold send_fin. by rewrite core_arm, core_set_st, core_fin_sent. Qed.

Lemma core_output now probe t : core (output now probe t) = core t.
Proof.
  unfold output. destruct (st t); try done.
  1: by destruct (_ =? _); rewrite ?core_arm, ?core_advance, ?core_send.
  all: cbn zeta; destruct (_ <? _); rewrite ?core_arm; destruct (fin_due _);
    rewrite ?core_fin; apply core_loop.
Qed.

(** ** The sender *)

(** The sender's fields after the handshake: [una <= nxt <= mx] are the
    positions of [snd_una], [snd_nxt] and [snd_max], and [wr] is everything
    written to the connection. *)
Record Synced (wr : list Z) (una nxt mx : Z) (t : Tcb) : Prop := {
  sy_una : snd_una t = u32 (iss t + una);
  sy_nxt : snd_nxt t = u32 (iss t + nxt);
  sy_max : snd_max t = u32 (iss t + mx);
  sy_ord : 1 <= una <= nxt /\ nxt <= mx;
  sy_buf : send_buf t = drop (Z.to_nat (una - 1)) wr;
  sy_cap : zlen (send_buf t) <= SEND_CAP;
  sy_acked : if fin_acked t then una = zlen wr + 2 else una <= zlen wr + 1;
  sy_fin : match fin_seq t with
           | None => mx <= zlen wr + 1 /\ fin_acked t = false
           | Some f => f = u32 (iss t + (1 + zlen wr)) /\ mx = zlen wr + 2 /\ fin_queued t = true
           end;
  sy_mss : 0 <= mss t <= MSS;
  sy_wnd : 0 <= snd_wnd t;
}.

(** How far each state has got with the FIN. *)
Definition fin_state (t : Tcb) : Prop :=
  match st t with
  | Established | CloseWait => fin_seq t = None
  | FinWait1 | Closing | LastAck => fin_seq t <> None /\ fin_acked t = false
  | FinWait2 => fin_acked t = true
  | Idle | SynSent | Closed => False
  end.

Lemma sy_buf_len wr una nxt mx t :
  Synced wr una nxt mx t -> zlen (send_buf t) = Z.max 0 (zlen wr - (una - 1)).
Proof.
  intros H. rewrite (sy_buf _ _ _ _ _ H). unfold zlen. rewrite length_drop.
  pose proof (sy_ord _ _ _ _ _ H). lia.
Qed.

(** The window of unacknowledged positions is small. *)
Lemma sy_span wr una nxt mx t : Synced wr una nxt mx t -> mx - una <= SEND_CAP + 1.
Proof.
  intros H. pose proof (sy_buf_len _ _ _ _ _ H). pose proof (sy_cap _ _ _ _ _ H).
  pose proof (sy_fin _ _ _ _ _ H) as F. pose proof (sy_acked _ _ _ _ _ H) as A.
  destruct (fin_seq t); destruct (fin_acked t); lia.
Qed.

(** The number of data bytes before the cursor. *)
Lemma sy_cursor wr una nxt mx t :
  Synced wr una nxt mx t ->
  u32 (snd_nxt t - snd_una t) = nxt - una /\
  data_before_cursor t = Z.min (nxt - una) (zlen (send_buf t)).
Proof.
  intros H. pose proof (sy_span _ _ _ _ _ H). pose proof (sy_ord _ _ _ _ _ H).
  unfold data_before_cursor. rewrite (sy_nxt _ _ _ _ _ H), (sy_una _ _ _ _ _ H).
  unfold SEND_CAP in *. rewrite u32_sub by lia. done.
Qed.

(** [Synced] and [fin_state] read only these fields. *)
Definition sender_view (t : Tcb) :=
  (iss t, snd_una t, snd_nxt t, snd_max t, send_buf t, fin_queued t, fin_acked t, fin_seq t,
   (mss t, snd_wnd t)).

Lemma Synced_view wr una nxt mx t t' :
  sender_view t = sender_view t' -> Synced wr una nxt mx t -> Synced wr una nxt mx t'.
Proof.
  unfold sender_view. intros E [? ? ? ? ? ? ? ? ? ?]. injection E as E1 E2 E3 E4 E5 E6 E7 E8 E9 E10.
  constructor; rewrite <- ?E1, <- ?E2, <- ?E3, <- ?E4, <- ?E5, <- ?E6, <- ?E7, <- ?E8, <- ?E9, <- ?E10;
    done.
Qed.

Lemma view_send fl sq d t : sender_view (send fl sq d t) = sender_view t.
Proof. done. Qed.

Lemma view_arm now t : sender_view (arm now t) = sender_view t.
Proof. unfold arm. destruct (deadline t); done. Qed.

Lemma Synced_send wr una nxt mx fl sq d t :
  Synced wr una nxt mx t -> Synced wr una nxt mx (send fl sq d t).
Proof. by apply Synced_view. Qed.

Lemma Synced_set_st wr una nxt mx x t :
  Synced wr una nxt mx t -> Synced wr una nxt mx (set_st x t).
Proof. by apply Synced_view. Qed.

Lemma Synced_arm wr una nxt mx now t :
  Synced wr una nxt mx t -> Synced wr una nxt mx (arm now t).
Proof. apply Synced_view. by rewrite view_arm. Qed.

(** The cursor and the high-water mark, in positions. *)
Lemma advance_pos nxt mx n t :
  snd_nxt t = u32 (iss t + nxt) -> snd_max t = u32 (iss t + mx) ->
  - 2 ^ 31 <= mx - (nxt + n) < 2 ^ 31 ->
  snd_nxt (advance n t) = u32 (iss t + (nxt + n)) /\
  snd_max (advance n t) = u32 (iss t + Z.max mx (nxt + n)) /\
  fin_seq (advance n t) = fin_seq t.
Proof.
  intros E1 E2 Hn. unfold advance. cbn zeta. simpl snd_max. simpl snd_nxt.
  rewrite E1, E2, u32_add, seq_lt_pos by lia.
  destruct (Z.ltb_spec mx (nxt + n)); simpl; rewrite ?E2; split_and!; try done; do 2 f_equal; lia.
Qed.

(** Moving the cursor forward over data or the FIN. *)
Lemma Synced_advance wr una nxt mx n t :
  Synced wr una nxt mx t -> 0 <= n ->
  nxt + n <= zlen wr + (if fin_seq t is Some _ then 2 else 1) ->
  Synced wr una (nxt + n) (Z.max mx (nxt + n)) (advance n t).
Proof.
  intros H Hn Hb. pose proof (sy_ord _ _ _ _ _ H) as Ho. pose proof (sy_span _ _ _ _ _ H) as Hs.
  assert (nxt + n <= una + SEND_CAP + 1) as Hc.
  { pose proof (sy_buf_len _ _ _ _ _ H). pose proof (sy_cap _ _ _ _ _ H).
    pose proof (sy_fin _ _ _ _ _ H) as F. pose proof (sy_acked _ _ _ _ _ H) as A.
    destruct (fin_seq t); destruct (fin_acked t); simpl in Hb; lia. }
  unfold SEND_CAP in *.
  destruct (advance_pos nxt mx n t) as (E1 & E2 & E4); [apply H|apply H|lia|].
  pose proof (core_advance n t) as E3.
  unfold core in E3. injection E3 as C1 C2 C3 C4 C5 C6 C7 C8 C9 _ _ _ _ _ _ _.
  destruct H as [? ? ? ? ? ? ? F ? ?].
  constructor; rewrite ?E1, ?E2, ?E4, ?C3, ?C4, ?C5, ?C6, ?C7, ?C8, ?C9; try done; [lia|].
  destruct (fin_seq t); simpl in Hb; [destruct F as (? & ? & ?); split_and!; auto with lia|].
  destruct F as [? ?]. split; [lia|done].
Qed.

(** The bytes of a round of the loop. *)
Lemma chunk_bounds wr una nxt mx probe t :
  Synced wr una nxt mx t ->
  0 <= chunk_len probe t <= MSS /\ chunk_len probe t <= zlen (send_buf t) - data_before_cursor t /\
  (chunk_len probe t <> 0 ->
     data_before_cursor t = nxt - una /\ nxt + chunk_len probe t <= zlen wr + 1).
Proof.
  intros H. destruct (sy_cursor _ _ _ _ _ H) as [_ C]. pose proof (sy_mss _ _ _ _ _ H) as M.
  pose proof (sy_ord _ _ _ _ _ H). pose proof (sy_buf_len _ _ _ _ _ H).
  pose proof (zlen_nonneg (send_buf t)).
  unfold chunk_len, saturating_sub. rewrite C. destruct (_ && _); lia.
Qed.

Lemma Synced_chunk wr una nxt mx now probe t :
  Synced wr una nxt mx t -> chunk_len probe t <> 0 ->
  Synced wr una (nxt + chunk_len probe t) (Z.max mx (nxt + chunk_len probe t))
    (send_chunk now (chunk_len probe t) t).
Proof.
  intros H Hn. destruct (chunk_bounds _ _ _ _ probe _ H) as (B1 & B2 & B3).
  destruct (B3 Hn) as [B4 B5]. apply Synced_arm, Synced_advance; [by apply Synced_send|lia|].
  simpl fin_seq. destruct (fin_seq t); lia.
Qed.

Lemma fin_seq_chunk now n t : fin_seq (send_chunk now n t) = fin_seq t /\ st (send_chunk now n t) = st t.
Proof.
  unfold send_chunk, arm, advance. cbn zeta.
  destruct (seq_lt _ _); simpl; destruct (deadline t); done.
Qed.

Lemma fin_seq_loop fuel now probe t :
  fin_seq (output_loop fuel now probe t) = fin_seq t /\ st (output_loop fuel now probe t) = st t.
Proof.
  revert t. induction fuel as [|fuel IH]; intros t; simpl; destruct (_ =? 0); try done.
  destruct (IH (send_chunk now (chunk_len probe t) t)) as [-> ->]. apply fin_seq_chunk.
Qed.

(** The loop ends because nothing more may be sent, not because the fuel is
    used up. *)
Lemma Synced_loop wr una fuel now probe :
  forall nxt mx t, Synced wr una nxt mx t ->
  zlen (send_buf t) - data_before_cursor t <= Z.of_nat fuel ->
  exists nxt' mx', Synced wr una nxt' mx' (output_loop fuel now probe t) /\ nxt <= nxt' /\ mx <= mx' /\
    chunk_len probe (output_loop fuel now probe t) = 0.
Proof.
  induction fuel as [|fuel IH]; intros nxt mx t H Hf.
  - destruct (chunk_bounds _ _ _ _ probe _ H) as (B1 & B2 & B3). simpl.
    assert (chunk_len probe t = 0) as E by lia. rewrite E. simpl. eauto with lia.
  - simpl. destruct (Z.eqb_spec (chunk_len probe t) 0) as [E|E]; [eauto 6 with lia|].
    destruct (chunk_bounds _ _ _ _ probe _ H) as (B1 & B2 & B3). destruct (B3 E) as [B4 B5].
    pose proof (Synced_chunk _ _ _ _ now probe _ H E) as H'.
    destruct (IH _ _ _ H') as (nxt' & mx' & ? & ? & ? & ?); [|exists nxt', mx'; auto with lia].
    destruct (sy_cursor _ _ _ _ _ H') as [_ ->]. rewrite (sy_buf_len _ _ _ _ _ H').
    rewrite (sy_buf_len _ _ _ _ _ H) in *. lia.
Qed.

Lemma st_advance n t : st (advance n t) = st t.
Proof. unfold advance. by destruct (seq_lt _ _). Qed.

Lemma st_arm now t : st (arm now t) = st t /\ fin_seq (arm now t) = fin_seq t.
Proof. unfold arm. by destruct (deadline t). Qed.

Lemma fin_seq_advance n t : fin_seq (advance n t) = fin_seq t.
Proof. unfold advance. by destruct (seq_lt _ _). Qed.

Lemma st_set_st x t : st (set_st x t) = x /\ fin_seq (set_st x t) = fin_seq t.
Proof. done. Qed.

Lemma st_fin_sent t : st (fin_sent t) = st t.
Proof. unfold fin_sent. cbn zeta. by rewrite st_advance. Qed.

Lemma fin_sent_pos nxt mx t :
  snd_nxt t = u32 (iss t + nxt) -> snd_max t = u32 (iss t + mx) ->
  - 2 ^ 31 <= mx - (nxt + 1) < 2 ^ 31 ->
  snd_nxt (fin_sent t) = u32 (iss t + (nxt + 1)) /\
  snd_max (fin_sent t) = u32 (iss t + Z.max mx (nxt + 1)) /\
  fin_seq (fin_sent t) = Some (snd_nxt t).
Proof.
  intros E1 E2 Hn. unfold fin_sent. cbn zeta.
  set (t2 := send (Z.lor FIN ACK) _ [] _).
  assert (iss t2 = iss t /\ snd_nxt t2 = snd_nxt t /\ snd_max t2 = snd_max t /\
          fin_seq t2 = Some (snd_nxt t)) as (F1 & F2 & F3 & F4) by done.
  clearbody t2. rewrite <- F1, <- F4. rewrite <- F1, <- F2 in E1. rewrite <- F1, <- F3 in E2.
  by apply advance_pos.
Qed.

(** The FIN is due exactly at the position after the data. *)
Lemma fin_due_pos wr una nxt mx t :
  Synced wr una nxt mx t -> fin_due t = true ->
  nxt = zlen wr + 1 /\ fin_queued t = true /\ fin_acked t = false.
Proof.
  intros H D. unfold fin_due in D. destruct (sy_cursor _ _ _ _ _ H) as [E _]. rewrite E in D.
  rewrite !andb_true_iff, negb_true_iff, Z.eqb_eq in D. destruct D as (((D1 & D2) & D3) & _).
  pose proof (sy_buf_len _ _ _ _ _ H). pose proof (sy_acked _ _ _ _ _ H) as A.
  pose proof (sy_ord _ _ _ _ _ H). rewrite D2 in A. split_and!; try done. lia.
Qed.

Lemma Synced_fin wr una nxt mx now t :
  Synced wr una nxt mx t -> fin_due t = true ->
  Synced wr una (zlen wr + 2) (zlen wr + 2) (send_fin now t) /\ fin_seq (send_fin now t) <> None.
Proof.
  intros H D. destruct (fin_due_pos _ _ _ _ _ H D) as (-> & Hq & Ha).
  assert (Synced wr una (zlen wr + 2) (zlen wr + 2) (fin_sent t)) as H2.
  { pose proof (sy_ord _ _ _ _ _ H) as Ho. pose proof (sy_span _ _ _ _ _ H) as Hs.
    pose proof (sy_acked _ _ _ _ _ H) as A. rewrite Ha in A.
    pose proof (sy_fin _ _ _ _ _ H) as F0. unfold SEND_CAP in *.
    assert (mx <= zlen wr + 2) by (destruct (fin_seq t); lia).
    destruct (fin_sent_pos (zlen wr + 1) mx t) as (E1 & E2 & E4); [apply H|apply H|lia|].
    replace (zlen wr + 1 + 1) with (zlen wr + 2) in E1, E2 by lia.
    rewrite Z.max_r in E2 by lia. pose proof (core_fin_sent t) as E.
    unfold core in E. injection E as C1 C2 C3 C4 C5 C6 C7 C8 C9 _ _ _ _ _ _ _.
    pose proof (sy_nxt _ _ _ _ _ H) as Hnxt.
    destruct H as [? ? ? ? ? ? ? F ? ?].
    constructor; rewrite ?E1, ?E2, ?E4, ?C3, ?C4, ?C5, ?C6, ?C7, ?C8, ?C9; try done; [lia|].
    rewrite Hnxt. split_and!; [f_equal; lia|done|done]. }
  unfold send_fin. split.
  - by apply Synced_arm, Synced_set_st.
  - rewrite (proj2 (st_arm _ _)), (proj2 (st_set_st _ _)). unfold fin_sent. cbn zeta.
    by rewrite fin_seq_advance.
Qed.

(** The states in which [output] runs its loop. *)
Definition sending (s : State) : bool :=
  match s with Established | CloseWait | FinWait1 | Closing | LastAck => true | _ => false end.

(** [output] after the loop. *)
Definition output_end (now : Z) (t : Tcb) : Tcb :=
  let t := if fin_due t then send_fin now t else t in
  if data_before_cursor t <? zlen (send_buf t) then arm now t else t.

Lemma output_sending now probe t :
  sending (st t) = true ->
  output now probe t = output_end now (output_loop (length (send_buf t)) now probe t).
Proof. unfold output, output_end. destruct (st t); done. Qed.

Lemma output_idle now probe t : st t = FinWait2 \/ st t = Closed -> output now probe t = t.
Proof. unfold output. by intros [-> | ->]. Qed.

Lemma fin_state_sending t : fin_state t -> sending (st t) = true \/ st t = FinWait2.
Proof. unfold fin_state. destruct (st t); auto. Qed.

(** The state after the FIN. *)
Lemma st_fin now t :
  st (send_fin now t) = after_fin (st t).
Proof.
  unfold send_fin. by rewrite (proj1 (st_arm _ _)), (proj1 (st_set_st _ _)), st_fin_sent.
Qed.

Lemma fin_state_closed t : fin_state t -> st t <> Closed.
Proof. unfold fin_state. by destruct (st t). Qed.

Lemma st_output now probe t :
  st (output now probe t) = st t \/ st (output now probe t) = after_fin (st t).
Proof.
  destruct (sending (st t)) eqn:E.
  - rewrite output_sending by done. unfold output_end. cbn zeta.
    rewrite <- (proj2 (fin_seq_loop (length (send_buf t)) now probe t)).
    generalize (output_loop (length (send_buf t)) now probe t). intros t1.
    destruct (fin_due t1); destruct (_ <? _); rewrite ?(proj1 (st_arm _ _)), ?st_fin; auto.
  - unfold output. destruct (st t) eqn:Es; try done; auto.
    left. destruct (_ =? _); [|done]. by rewrite (proj1 (st_arm _ _)), st_advance.
Qed.

Lemma fin_state_fin wr una nxt mx now t :
  Synced wr una nxt mx t -> sending (st t) = true -> fin_due t = true -> fin_state (send_fin now t).
Proof.
  intros H Ha D. destruct (fin_due_pos _ _ _ _ _ H D) as (_ & _ & Hn).
  destruct (Synced_fin _ _ _ _ now _ H D) as [_ Hf].
  assert (fin_acked (send_fin now t) = false) as Ea.
  { pose proof (core_fin now t) as E. unfold core in E. congruence. }
  unfold fin_state. rewrite st_fin. destruct (st t); done.
Qed.

Lemma output_end_synced wr una nxt mx now t :
  Synced wr una nxt mx t -> fin_state t -> sending (st t) = true ->
  exists nxt' mx', Synced wr una nxt' mx' (output_end now t) /\ fin_state (output_end now t).
Proof.
  intros H Hs Ha. unfold output_end. cbn zeta.
  assert (exists nxt' mx', Synced wr una nxt' mx' (if fin_due t then send_fin now t else t) /\
            fin_state (if fin_due t then send_fin now t else t)) as (nxt' & mx' & H1 & H2).
  { destruct (fin_due t) eqn:D; [|eauto].
    destruct (Synced_fin _ _ _ _ now _ H D) as [H1 _]. eauto using fin_state_fin. }
  destruct (_ <? _); [|eauto]. exists nxt', mx'. split; [by apply Synced_arm|].
  revert H2. set (t1 := if fin_due t then _ else _). unfold fin_state, arm. by destruct (deadline t1).
Qed.

Lemma Synced_output wr una nxt mx now probe t :
  Synced wr una nxt mx t -> fin_state t ->
  exists nxt' mx', Synced wr una nxt' mx' (output now probe t) /\ fin_state (output now probe t).
Proof.
  intros H Hs. destruct (fin_state_sending t Hs) as [Ha|Ha]; [|rewrite output_idle by auto; eauto].
  rewrite output_sending by done.
  destruct (Synced_loop wr una (length (send_buf t)) now probe nxt mx t H) as (n1 & m1 & H1 & _).
  { destruct (sy_cursor _ _ _ _ _ H) as [_ ->]. pose proof (sy_ord _ _ _ _ _ H). unfold zlen. lia. }
  destruct (fin_seq_loop (length (send_buf t)) now probe t) as [Ef Es].
  pose proof (core_loop (length (send_buf t)) now probe t) as Ec.
  apply (output_end_synced _ _ n1 m1); [done| |by rewrite Es].
  unfold fin_state in *. rewrite Ef, Es. unfold core in Ec.
  by replace (fin_acked (output_loop (length (send_buf t)) now probe t)) with (fin_acked t) by congruence.
Qed.

(** ** The retransmission timer *)

(** Something remains to be acknowledged or sent. *)
Definition outstanding (t : Tcb) : Prop :=
  snd_una t <> snd_max t \/ send_buf t <> [] \/ (fin_queued t = true /\ fin_acked t = false).

(** Whatever is in flight has a timer. *)
Definition in_flight_armed (t : Tcb) : Prop := snd_una t <> snd_max t -> deadline t <> None.

Lemma deadline_arm now t : deadline (arm now t) <> None.
Proof. unfold arm. destruct (deadline t) eqn:E; simpl; congruence. Qed.

Lemma deadline_fin now t : deadline (send_fin now t) <> None.
Proof. apply deadline_arm. Qed.

Lemma loop_armed fuel now probe t :
  output_loop fuel now probe t = t \/ deadline (output_loop fuel now probe t) <> None.
Proof.
  revert t. induction fuel as [|fuel IH]; intros t; simpl; destruct (_ =? 0); auto.
  right. destruct (IH (send_chunk now (chunk_len probe t) t)) as [->|]; [apply deadline_arm|done].
Qed.

(** The cursor is past the data and the FIN: all of it is in flight. *)
Lemma all_sent wr una nxt mx t :
  Synced wr una nxt mx t -> zlen (send_buf t) <= data_before_cursor t -> fin_due t = false ->
  outstanding t -> snd_una t <> snd_max t.
Proof.
  intros H Hd D [O|O]; [done|]. destruct (sy_cursor _ _ _ _ _ H) as [Ec C]. rewrite C in Hd.
  pose proof (sy_ord _ _ _ _ _ H). pose proof (sy_span _ _ _ _ _ H). unfold SEND_CAP in *.
  pose proof (sy_buf_len _ _ _ _ _ H) as Hl. pose proof (zlen_nonneg (send_buf t)).
  assert (una < mx).
  { destruct O as [O|[Q A]]; [destruct (send_buf t); [done|unfold zlen in *; simpl in *; lia]|].
    pose proof (sy_acked _ _ _ _ _ H) as Hk. rewrite A in Hk.
    destruct (Z.eq_dec (nxt - una) (zlen (send_buf t))) as [E|E]; [|lia].
    unfold fin_due in D. rewrite Q, A, Ec, E, Z.eqb_refl in D. cbn [andb negb] in D.
    pose proof (sy_fin _ _ _ _ _ H) as F. destruct (fin_seq t) as [f|]; [|done].
    destruct F as (-> & _ & _). rewrite (sy_nxt _ _ _ _ _ H) in D.
    replace nxt with (1 + zlen wr) in D by lia. by rewrite Z.eqb_refl in D. }
  rewrite (sy_una _ _ _ _ _ H), (sy_max _ _ _ _ _ H). intros E. apply u32_inj in E; lia.
Qed.

Lemma output_armed wr una nxt mx now probe t :
  Synced wr una nxt mx t -> fin_state t -> sending (st t) = true -> in_flight_armed t ->
  outstanding (output now probe t) -> deadline (output now probe t) <> None.
Proof.
  intros H Hs Ha Hf. rewrite output_sending by done. unfold output_end. cbn zeta.
  destruct (fin_due (output_loop (length (send_buf t)) now probe t)) eqn:D.
  { intros _. destruct (_ <? _); [apply deadline_arm|apply deadline_fin]. }
  destruct (Z.ltb_spec (data_before_cursor (output_loop (length (send_buf t)) now probe t))
             (zlen (send_buf (output_loop (length (send_buf t)) now probe t)))) as [_|Hd].
  { intros _. apply deadline_arm. }
  destruct (loop_armed (length (send_buf t)) now probe t) as [E|E]; [|done].
  rewrite E in *. intros O. apply Hf. eapply all_sent; eauto.
Qed.

End TcpInv.
