(* ===== verification/TcpTx.v ===== *)
(** What a TCP control block transmits: every segment is well formed, carries
    the bytes of its position in the stream, and acknowledges a position of
    the peer's stream that has been received. *)

From S2P Require Import Prelude Checksum Tcp TcpWire TcpInv.

Module TcpTx.
Import Tcp TcpWire TcpInv.

(** [o] is a segment of the stream [wr] that starts after the sequence number
    [isn]; a FIN is sent only when the stream is [closed], after its last
    byte. *)
Record honest (wr : list Z) (closed : bool) (isn : Z) (o : Out) : Prop := {
  h_ok : out_ok o;
  h_data : o_payload o <> [] ->
    exists k, 0 <= k /\ k + zlen (o_payload o) <= zlen wr /\ o_seq o = u32 (isn + (1 + k)) /\
              o_payload o = slice k (k + zlen (o_payload o)) wr;
  h_fin : has (o_flags o) FIN = true ->
    closed = true /\ o_payload o = [] /\ o_seq o = u32 (isn + (1 + zlen wr));
}.

(** [o] acknowledges a position of the peer's stream [pw]. *)
Definition acks (pw : list Z) (irs : Z) (o : Out) : Prop :=
  has (o_flags o) ACK = true -> exists a, 0 <= a <= zlen pw + 2 /\ o_ack o = u32 (irs + a).

(** Data written later does not touch what was sent. *)
Lemma honest_app wr d isn o : honest wr false isn o -> honest (wr ++ d) false isn o.
Proof.
  intros [H1 H2 H3]. constructor; [done| |].
  - intros Hp. destruct (H2 Hp) as (k & ? & ? & ? & E). exists k. pose proof (zlen_nonneg d).
    pose proof (zlen_nonneg (o_payload o)).
    split_and!; [done|rewrite zlen_app; lia|done|]. by rewrite slice_app_l by lia.
  - intros Hf. by destruct (H3 Hf).
Qed.

Lemma honest_close wr b isn o : honest wr b isn o -> honest wr true isn o.
Proof. intros [H1 H2 H3]. constructor; [done|done|]. intros Hf. by destruct (H3 Hf). Qed.

Lemma acks_app pw d irs o : acks pw irs o -> acks (pw ++ d) irs o.
Proof.
  intros H Ha. destruct (H Ha) as (a & ? & ?). exists a. rewrite zlen_app.
  pose proof (zlen_nonneg d). split; [lia|done].
Qed.

(** What [send] reads besides its arguments. *)
Record Base (pw : list Z) (irs : Z) (t : Tcb) : Prop := {
  b_port : 0 <= local_port t < 2 ^ 16;
  b_remote : ip_ok (ip (remote t)) /\ 0 <= port (remote t) < 2 ^ 16;
  b_rcv : exists a, 0 <= a <= zlen pw + 2 /\ rcv_nxt t = u32 (irs + a);
  b_cap : zlen (recv_buf t) <= RECV_CAP;
}.

Lemma Base_view pw irs t t' :
  (local_port t, remote t, rcv_nxt t, recv_buf t) = (local_port t', remote t', rcv_nxt t', recv_buf t') ->
  Base pw irs t -> Base pw irs t'.
Proof.
  intros E [B1 B2 B3 B4]. injection E as E1 E2 E3 E4.
  rewrite E1 in B1. rewrite E2 in B2. rewrite E3 in B3. rewrite E4 in B4. by constructor.
Qed.

Lemma Base_core pw irs t t' : core t = core t' -> Base pw irs t -> Base pw irs t'.
Proof.
  unfold core. intros E. injection E as E1 E2 _ _ _ _ _ _ _ E3 E4 _ _ _ _ _.
  apply Base_view. congruence.
Qed.

Lemma Base_app pw d irs t : Base pw irs t -> Base (pw ++ d) irs t.
Proof.
  intros [? ? (a & ? & ?) ?]. constructor; try done. exists a. rewrite zlen_app.
  pose proof (zlen_nonneg d). split; [lia|done].
Qed.

Lemma slice_drop {A} a b m (l : list A) :
  0 <= a -> 0 <= m -> slice a b (drop (Z.to_nat m) l) = slice (m + a) (m + b) l.
Proof. intros. unfold slice. rewrite drop_drop. f_equal; [lia|f_equal; lia]. Qed.

Section tx.
Context (wr pw : list Z) (irs : Z) (Hwr : bytes_ok wr).

Definition TxOk (t : Tcb) : Prop :=
  Forall (fun o => honest wr (fin_queued t) (iss t) o /\ acks pw irs o) (tx t).

Lemma TxOk_view t t' :
  (fin_queued t, iss t, tx t) = (fin_queued t', iss t', tx t') -> TxOk t -> TxOk t'.
Proof. unfold TxOk. intros E. by injection E as -> -> ->. Qed.

Lemma TxOk_emit o t :
  TxOk t -> honest wr (fin_queued t) (iss t) o -> acks pw irs o -> TxOk (emit o t).
Proof. unfold TxOk. intros. simpl. apply Forall_app. split; [done|]. by apply Forall_singleton. Qed.

(** A segment sent with [send] is honest if its payload and FIN are. *)
Lemma TxOk_send fl sq d t :
  TxOk t -> Base pw irs t -> is_byte fl -> 0 <= sq < 2 ^ 32 -> bytes_ok d -> zlen d <= MSS ->
  (d <> [] -> exists k, 0 <= k /\ k + zlen d <= zlen wr /\ sq = u32 (iss t + (1 + k)) /\
                        d = slice k (k + zlen d) wr) ->
  (has fl FIN = true -> fin_queued t = true /\ d = [] /\ sq = u32 (iss t + (1 + zlen wr))) ->
  TxOk (send fl sq d t).
Proof.
  intros H [B1 B2 (a & Ba & Br) B4] Hfl Hsq Hd Hl Hdata Hfin. unfold send. cbn zeta.
  apply TxOk_emit; [by revert H; apply TxOk_view| |].
  - constructor; [|done|done]. constructor; try done; simpl.
    + destruct (has fl ACK); [|done]. rewrite Br. apply u32_range.
    + lia.
  - unfold acks. simpl. intros ->. eauto.
Qed.

Lemma TxOk_ack t una nxt mx : TxOk t -> Base pw irs t -> Synced wr una nxt mx t -> TxOk (send_ack t).
Proof.
  intros H HB HS. apply TxOk_send; try done; [|by constructor].
  rewrite (sy_max _ _ _ _ _ HS). apply u32_range.
Qed.

Lemma tx_advance n t : tx (advance n t) = tx t /\ iss (advance n t) = iss t.
Proof. unfold advance. by destruct (seq_lt _ _). Qed.

Lemma tx_arm now t : tx (arm now t) = tx t.
Proof. unfold arm. by destruct (deadline t). Qed.

Lemma TxOk_arm now t : TxOk t -> TxOk (arm now t).
Proof. unfold arm. destruct (deadline t); [done|]. by apply TxOk_view. Qed.

Lemma TxOk_arm_st now t : TxOk (arm now t) -> TxOk (arm now (set_st (after_fin (st t)) t)).
Proof.
  unfold arm. cbn [set_st deadline]. destruct (deadline t); by apply TxOk_view.
Qed.

(** [advance] and [arm] transmit nothing. *)
Lemma TxOk_advance_arm now n t : TxOk t -> TxOk (arm now (advance n t)).
Proof.
  apply TxOk_view. rewrite tx_arm, (proj1 (tx_advance n t)).
  pose proof (core_arm now (advance n t)) as E. rewrite core_advance in E.
  unfold core in E. injection E as _ _ E1 _ _ _ _ E2 _ _ _ _ _ _ _ _. by rewrite E1, E2.
Qed.

Lemma TxOk_chunk una nxt mx now probe t :
  Synced wr una nxt mx t -> chunk_len probe t <> 0 -> TxOk t -> Base pw irs t ->
  TxOk (send_chunk now (chunk_len probe t) t).
Proof.
  intros HS Hn H HB. destruct (chunk_bounds _ _ _ _ probe _ HS) as (B1 & B2 & B3).
  destruct (B3 Hn) as [B4 B5]. pose proof (sy_ord _ _ _ _ _ HS) as Ho.
  set (n := chunk_len probe t) in *.
  assert (slice (data_before_cursor t) (data_before_cursor t + n) (send_buf t) =
          slice (nxt - 1) (nxt - 1 + n) wr) as E.
  { rewrite B4, (sy_buf _ _ _ _ _ HS), slice_drop by lia. f_equal; lia. }
  assert (zlen (slice (nxt - 1) (nxt - 1 + n) wr) = n) as El by (rewrite zlen_slice; lia).
  unfold send_chunk. cbn zeta. apply TxOk_advance_arm. rewrite E.
  apply TxOk_send; try done.
  - rewrite (sy_nxt _ _ _ _ _ HS). apply u32_range.
  - by apply slice_ok.
  - lia.
  - intros _. exists (nxt - 1). rewrite El. split_and!; [lia|lia| |done].
    rewrite (sy_nxt _ _ _ _ _ HS). f_equal. lia.
Qed.

Lemma TxOk_loop una fuel now probe :
  forall nxt mx t, Synced wr una nxt mx t -> TxOk t -> Base pw irs t ->
  TxOk (output_loop fuel now probe t).
Proof.
  induction fuel as [|fuel IH]; intros nxt mx t HS H HB; simpl;
    destruct (Z.eqb_spec (chunk_len probe t) 0) as [|Hn]; try done.
  eapply IH; [by apply Synced_chunk|by eapply TxOk_chunk|].
  revert HB. apply Base_core. by rewrite core_chunk.
Qed.

Lemma TxOk_fin una nxt mx now t :
  Synced wr una nxt mx t -> fin_due t = true -> TxOk t -> Base pw irs t -> TxOk (send_fin now t).
Proof.
  intros HS D H HB. destruct (fin_due_pos _ _ _ _ _ HS D) as (E & Hq & _).
  assert (TxOk (arm now (fin_sent t))) as H1.
  { unfold fin_sent. apply TxOk_advance_arm, TxOk_send; try done.
    - by revert HB; apply Base_core.
    - simpl. rewrite (sy_nxt _ _ _ _ _ HS). apply u32_range.
    - by constructor.
    - intros _. split_and!; [done|done|]. simpl snd_nxt. rewrite (sy_nxt _ _ _ _ _ HS). simpl iss. f_equal. lia. }
  unfold send_fin. revert H1. generalize (fin_sent t). apply TxOk_arm_st.
Qed.

Lemma TxOk_output una nxt mx now probe t :
  Synced wr una nxt mx t -> fin_state t -> TxOk t -> Base pw irs t -> TxOk (output now probe t).
Proof.
  intros HS Hs H HB. destruct (fin_state_sending t Hs) as [Ha|Ha]; [|by rewrite output_idle by auto].
  rewrite output_sending by done. unfold output_end. cbn zeta.
  set (t1 := output_loop _ _ _ _).
  destruct (Synced_loop wr una (length (send_buf t)) now probe nxt mx t HS) as (n1 & m1 & H1 & _).
  { destruct (sy_cursor _ _ _ _ _ HS) as [_ ->]. pose proof (sy_ord _ _ _ _ _ HS). unfold zlen. lia. }
  assert (TxOk (if fin_due t1 then send_fin now t1 else t1)) as H2.
  { assert (TxOk t1) by (by eapply TxOk_loop). destruct (fin_due t1) eqn:D; [|done].
    eapply TxOk_fin; eauto. revert HB. apply Base_core. unfold t1. by rewrite core_loop. }
  destruct (_ <? _); [|done]. revert H2. apply TxOk_arm.
Qed.

End tx.

End TcpTx.
