(* ===== verification/TcpSteps.v ===== *)
(** Every operation on a TCP control block preserves its invariant [Ep]: the
    sender's positions, the honesty of what is transmitted, the receiver's
    prefix of the peer's stream, and the timer. *)

From S2P Require Import Prelude Checksum Tcp TcpWire TcpInv TcpTx.

Module TcpSteps.
Import Tcp TcpWire TcpInv TcpTx.

(** ** The invariant *)

(** The receiving side: [rd] has been read by the program, [r] bytes of the
    peer's stream [pw] have been accepted; a FIN is accepted after all of it. *)
Record Receiver (pw rd : list Z) (pclosed : bool) (irs : Z) (t : Tcb) : Prop := {
  r_pos : exists r, 0 <= r <= zlen pw /\
    rcv_nxt t = u32 (irs + (1 + r + (if peer_fin t then 1 else 0))) /\
    (peer_fin t = true -> r = zlen pw /\ pclosed = true) /\
    (user_closed t = false -> rd ++ recv_buf t = take (Z.to_nat r) pw);
  r_prefix : rd ++ recv_buf t `prefix_of` pw;
  r_accept : accepts (st t) = true -> peer_fin t = false;
  r_closed : st t = Closed -> user_closed t = false -> peer_fin t = true \/ error t <> None;
}.

(** What holds at every point of a handler, of a connection that has written
    [wr], whose peer has written [pw] and has closed if [pclosed]. *)
Record Ep0 (wr rd pw : list Z) (pclosed : bool) (irs : Z) (t : Tcb) : Prop := {
  ep_snd : st t = Closed \/ exists una nxt mx, Synced wr una nxt mx t /\ fin_state t;
  ep_tx : TxOk wr pw irs t;
  ep_base : Base pw irs t;
  ep_rcv : Receiver pw rd pclosed irs t;
  ep_max : 0 <= snd_max t < 2 ^ 32;
  ep_finq : fin_queued t = true -> user_closed t = true;
}.

(** The timer of a connection: before, and after, [output] has run. *)
Definition Flight (t : Tcb) : Prop :=
  (sending (st t) = true -> in_flight_armed t) /\ (st t = FinWait2 -> deadline t <> None).
Definition Armed (t : Tcb) : Prop :=
  (sending (st t) = true -> outstanding t -> deadline t <> None) /\
  (st t = FinWait2 -> deadline t <> None).

Lemma Armed_Flight t : Armed t -> Flight t.
Proof. intros [H1 H2]. split; [|done]. intros Hs Hu. apply H1; [done|]. by left. Qed.

(** A segment of a peer that follows the protocol: it carries the bytes of its
    position in the peer's stream [pw]; a FIN, alone or behind data, stands
    right after the last byte of a stream the peer has closed; an
    acknowledgement names a position of our stream.  Everything else (the
    window, the ports, the other flags, RST and SYN among them) is as the peer
    likes. *)
Record incoming (wr pw : list Z) (pclosed : bool) (isn irs : Z) (seg : Segment) : Prop := {
  i_data : payload seg <> [] ->
    exists k, 0 <= k /\ k + zlen (payload seg) <= zlen pw /\ seq seg = u32 (irs + (1 + k)) /\
              payload seg = slice k (k + zlen (payload seg)) pw;
  i_fin : has (flags seg) FIN = true ->
    pclosed = true /\ seq seg = u32 (irs + (1 + zlen pw - zlen (payload seg)));
  i_ack : has (flags seg) ACK = true -> exists a, 0 <= a <= zlen wr + 2 /\ ack seg = u32 (isn + a);
  i_wnd : 0 <= window seg;
}.

(** ** Acknowledgements *)

(** The sender's fields after an acknowledgement of the position [p]. *)
Lemma ack_data_synced seg now t wr una nxt mx p :
  Synced wr una nxt mx t -> ack seg = u32 (iss t + p) -> una < p <= mx ->
  Synced wr p (Z.max nxt p) mx (ack_data seg now t).
Proof.
  intros H Ea Hp. pose proof (sy_span _ _ _ _ _ H) as Hs. pose proof (sy_ord _ _ _ _ _ H) as Ho.
  pose proof (sy_buf_len _ _ _ _ _ H) as Hb. pose proof (sy_fin _ _ _ _ _ H) as F.
  pose proof (sy_acked _ _ _ _ _ H) as A. unfold SEND_CAP in *.
  destruct H as [Hu Hn Hm _ Hbuf Hcap _ _ Hmss Hwnd].
  destruct t as [s lp rem i su sn sm sw m sb fq fs fa rn rb pf uc ad er rt re dl tx0].
  simpl in Hu, Hn, Hm, Hbuf, Hcap, Hmss, Hwnd, F, A, Ea, Hb.
  assert (u32 (ack seg - su) = p - una) as Eacked by (rewrite Ea, Hu, u32_sub; lia).
  assert (seq_lt sn (ack seg) = (nxt <? p)) as Elt by (rewrite Ea, Hn, seq_lt_pos; [done|lia]).
  unfold ack_data. cbn zeta. tcb_simpl. rewrite Eacked, Elt. constructor; tcb_simpl; try done.
  - destruct (Z.ltb_spec nxt p); [rewrite Ea|rewrite Hn]; f_equal; lia.
  - lia.
  - rewrite Hbuf, drop_drop. rewrite <- Hbuf.
    destruct (Z.le_gt_cases (p - una) (zlen sb)) as [L|L].
    + rewrite Z.min_l by lia. f_equal. lia.
    + rewrite Z.min_r by lia. rewrite !drop_ge; [done| |]; unfold zlen in *; lia.
  - unfold zlen in *. rewrite length_drop. unfold SEND_CAP in *. lia.
  - destruct fs as [f|]; [|destruct F as [? ->]; simpl; lia].
    destruct F as (-> & -> & _). rewrite Ea, seq_lt_pos by lia.
    destruct fa; [lia|]. simpl. destruct (Z.ltb_spec (1 + zlen wr) p); lia.
  - destruct fs as [f|]; [done|]. destruct F as [? ->]. done.
Qed.

(** ** Updates of single fields *)

(** The fields [Ep0] reads. *)
Definition ep_view (t : Tcb) :=
  (sender_view t, st t, tx t, local_port t, remote t,
   (rcv_nxt t, recv_buf t, peer_fin t, user_closed t, error t)).

Section steps.
Context (wr rd pw : list Z) (pclosed : bool) (irs : Z).
Abbreviation Ep0 := (Ep0 wr rd pw pclosed irs).
Abbreviation Receiver := (Receiver pw rd pclosed irs).

Lemma Receiver_view t t' :
  (st t, (rcv_nxt t, recv_buf t, peer_fin t, user_closed t, error t)) =
  (st t', (rcv_nxt t', recv_buf t', peer_fin t', user_closed t', error t')) ->
  Receiver t -> Receiver t'.
Proof.
  intros E [R1 R2 R3 R4]. injection E as E1 E2 E3 E4 E5 E6.
  rewrite E2, E3, E4, E5 in R1. rewrite E3 in R2. rewrite E1, E4 in R3. rewrite E1, E4, E5, E6 in R4.
  by constructor.
Qed.

Lemma Ep0_view t t' : ep_view t = ep_view t' -> Ep0 t -> Ep0 t'.
Proof.
  unfold ep_view, sender_view. intros E [H1 H2 H3 H4 H5 H6].
  injection E as E1 E2 E3 E4 E5 E6 E7 E8 E9 E10 E11 E12 E13 E14 E15 E16 E17 E18 E19.
  constructor.
  - destruct H1 as [H1|(una & nxt & mx & HS & HF)]; [left; congruence|right].
    exists una, nxt, mx. split.
    + revert HS. apply Synced_view. unfold sender_view. congruence.
    + unfold fin_state in *. by rewrite <- E7, <- E8, <- E11.
  - revert H2. apply TxOk_view. congruence.
  - revert H3. apply Base_view. congruence.
  - revert H4. apply Receiver_view. congruence.
  - by rewrite <- E4.
  - by rewrite <- E6, <- E18.
Qed.

Lemma Ep0_retries x t : Ep0 t -> Ep0 (set_retries x t).
Proof. by apply Ep0_view. Qed.

Lemma Ep0_deadline x t : Ep0 t -> Ep0 (set_deadline x t).
Proof. by apply Ep0_view. Qed.

Lemma Ep0_wnd x t : 0 <= x -> Ep0 t -> Ep0 (set_snd_wnd x t).
Proof.
  intros Hx [H1 H2 H3 H4 H5 H6]. constructor; try done.
  - destruct H1 as [H1|(una & nxt & mx & HS & HF)]; [by left|right]. exists una, nxt, mx.
    split; [|done]. destruct HS. by constructor.
  - by revert H3; apply Base_view.
  - by revert H4; apply Receiver_view.
Qed.

Lemma Ep0_closed t : user_closed t = true -> Ep0 t -> Ep0 (set_st Closed t).
Proof.
  intros Hu [H1 H2 H3 H4 H5 H6]. constructor; try done; [by left| |].
  - by revert H3; apply Base_view.
  - destruct H4. constructor; try done. simpl. congruence.
Qed.

(** The error paths. *)
Lemma Ep0_fail e t : Ep0 t -> Ep0 (fail e t).
Proof.
  intros [H1 H2 H3 H4 H5 H6]. unfold fail. constructor; try done; [by left| |].
  - destruct H3. by constructor.
  - destruct H4 as [R1 R2 R3 R4]. constructor; try done. simpl. by right.
Qed.

Lemma Ep0_ack t : Ep0 t -> Ep0 (send_ack t).
Proof.
  intros [H1 H2 H3 H4 H5 H6]. constructor; try done.
  - destruct H1 as [H1|(una & nxt & mx & HS & HF)]; [by left|right].
    exists una, nxt, mx. split; [by apply Synced_send|done].
  - apply TxOk_send; try done. by constructor.
  - by revert H3; apply Base_view.
  - by revert H4; apply Receiver_view.
Qed.

Lemma Flight_ack t : Flight t -> Flight (send_ack t).
Proof. done. Qed.

Lemma Armed_ack t : Armed t -> Armed (send_ack t).
Proof. done. Qed.

(** A connection that has sent its FIN was closed by the program. *)
Lemma fin_sent_closed una nxt mx t :
  Ep0 t -> Synced wr una nxt mx t -> fin_seq t <> None -> user_closed t = true.
Proof.
  intros H HS Hf. apply (ep_finq _ _ _ _ _ _ H). pose proof (sy_fin _ _ _ _ _ HS) as F.
  destruct (fin_seq t); [tauto|done].
Qed.

(** ** Acknowledgements *)

(** What an acknowledgement leaves as it is. *)
Definition ack_frame (t : Tcb) :=
  (st t, local_port t, remote t, iss t, snd_max t, tx t,
   (fin_queued t, fin_seq t, rcv_nxt t, recv_buf t, peer_fin t, user_closed t, error t)).

Lemma ack_data_frame seg now t : ack_frame (ack_data seg now t) = ack_frame t.
Proof. by destruct t. Qed.

(** After an acknowledgement the connection may change state. *)
Lemma Ep0_acked x una nxt mx t t' :
  Ep0 t -> Synced wr una nxt mx t' -> ack_frame t' = ack_frame t ->
  (x = Closed /\ user_closed t = true) \/
  (x <> Closed /\ fin_state (set_st x t') /\ (accepts x = true -> accepts (st t) = true)) ->
  Ep0 (set_st x t').
Proof.
  unfold ack_frame. intros H HS' E Hx.
  injection E as E1 E2 E3 E4 E5 E6 E7 E8 E9 E10 E11 E12 E13.
  destruct H as [H1 H2 H3 [R1 R2 R3 R4] H5 H6]. constructor.
  - destruct Hx as [[-> _]|(Hx & HF & _)]; [by left|right].
    exists una, nxt, mx. split; [by apply Synced_set_st|done].
  - revert H2. apply TxOk_view. simpl. congruence.
  - revert H3. apply Base_view. simpl. congruence.
  - constructor; simpl.
    + rewrite E9, E10, E11, E12. exact R1.
    + rewrite E10. exact R2.
    + intros Ha. rewrite E11. apply R3. destruct Hx as [[-> _]|(_ & _ & Hx)]; [discriminate Ha|auto].
    + intros -> Hu. destruct Hx as [[_ Hx]|[Hx _]]; congruence.
  - simpl. rewrite E5. exact H5.
  - simpl. rewrite E7, E12. exact H6.
Qed.

Lemma set_st_same t : set_st (st t) t = t.
Proof. by destruct t. Qed.

Lemma ack_data_armed seg now t : in_flight_armed (ack_data seg now t).
Proof.
  destruct t. unfold in_flight_armed, ack_data. cbn zeta. tcb_simpl.
  destruct (Z.eqb_spec (ack seg) snd_max0); congruence.
Qed.

(** In [FinWait2] nothing is left to acknowledge. *)
Lemma fin_wait2_acked una nxt mx t : Synced wr una nxt mx t -> fin_acked t = true -> una = mx.
Proof.
  intros HS Ha. pose proof (sy_acked _ _ _ _ _ HS) as A. pose proof (sy_fin _ _ _ _ _ HS) as F.
  rewrite Ha in A, F. destruct (fin_seq t); [lia|]. by destruct F.
Qed.

Lemma Ep0_take_ack seg now una nxt mx p t :
  Ep0 t -> Synced wr una nxt mx t -> ack seg = u32 (iss t + p) -> una < p <= mx -> fin_state t ->
  Ep0 (take_ack seg now t) /\ Flight (take_ack seg now t).
Proof.
  intros H HS Ea Hp HF. pose proof (ack_data_synced seg now t _ _ _ _ _ HS Ea Hp) as HS'.
  pose proof (fun x => Ep0_acked x _ _ _ _ _ H HS' (ack_data_frame seg now t)) as HE.
  pose proof (ack_data_frame seg now t) as E. pose proof (ack_data_armed seg now t) as HA.
  unfold take_ack. revert HS' HE E HA. generalize (ack_data seg now t). intros t' HS' HE E HA.
  injection E as E1 _ _ _ _ _ E7 E8 _ _ _ E12 _.
  assert (st t <> FinWait2) as N2.
  { intros E. unfold fin_state in HF. rewrite E in HF. pose proof (fin_wait2_acked _ _ _ _ HS HF). lia. }
  unfold ack_fin. destruct (fin_acked t') eqn:Ef.
  - assert (fin_seq t <> None) as Hq.
    { rewrite <- E8. intros Hn. pose proof (sy_fin _ _ _ _ _ HS') as F. rewrite Hn in F. intuition congruence. }
    pose proof (fin_sent_closed _ _ _ _ H HS Hq) as Hu. rewrite E1.
    unfold fin_state in HF. destruct (st t) eqn:Est; try done.
    + split; [|by split]. apply Ep0_deadline, HE. right. by split_and!.
    + split; [apply HE; auto|by split].
    + split; [apply HE; auto|by split].
  - assert (Ep0 t') as HE'.
    { rewrite <- (set_st_same t'), E1. apply HE. right. split; [|split; [|done]].
      - unfold fin_state in HF. by intros E; rewrite E in HF.
      - unfold fin_state in *. tcb_simpl. rewrite E8, Ef. destruct (st t); tauto. }
    split; [done|]. split; [done|]. by rewrite E1.
Qed.

(** ** Incoming data *)

Lemma accept_data_frame seg t :
  (sender_view (accept_data seg t), st (accept_data seg t), tx (accept_data seg t),
   local_port (accept_data seg t), remote (accept_data seg t), peer_fin (accept_data seg t),
   (user_closed (accept_data seg t), error (accept_data seg t), deadline (accept_data seg t))) =
  (sender_view t, st t, tx t, local_port t, remote t, peer_fin t, (user_closed t, error t, deadline t)).
Proof. by destruct t. Qed.

(** Data is accepted at the position the receiver is at. *)
Lemma accept_pos r seg t :
  zlen pw < 2 ^ 31 -> 0 <= r <= zlen pw -> rcv_nxt t = u32 (irs + (1 + r)) -> seq seg = rcv_nxt t ->
  (payload seg <> [] -> exists k, 0 <= k /\ k + zlen (payload seg) <= zlen pw /\
     seq seg = u32 (irs + (1 + k)) /\ payload seg = slice k (k + zlen (payload seg)) pw) ->
  payload seg = slice r (r + zlen (payload seg)) pw /\ r + zlen (payload seg) <= zlen pw.
Proof.
  intros Hl Hr Er Es Hd. destruct (payload seg) as [|b p] eqn:Ep.
  - change (zlen []) with 0. rewrite Z.add_0_r. unfold slice. rewrite Z.sub_diag. split; [done|lia].
  - destruct Hd as (k & Hk & Hk' & Ek & Hsl); [done|]. pose proof (zlen_nonneg (b :: p)).
    assert (k = r) as ->; [|done]. rewrite Es, Er in Ek. apply u32_inj in Ek; lia.
Qed.

(** What receiving leaves as it is. *)
Definition rcv_frame (t : Tcb) :=
  (sender_view t, tx t, local_port t, remote t, user_closed t, error t).

Lemma Ep0_rcv t t' :
  Ep0 t -> rcv_frame t' = rcv_frame t ->
  st t' = Closed \/ (st t <> Closed /\ (fin_state t -> fin_state t')) ->
  Base pw irs t' -> Receiver t' -> Ep0 t'.
Proof.
  unfold rcv_frame, sender_view. intros [H1 H2 H3 H4 H5 H6] E Hst HB HR.
  injection E as E1 E2 E3 E4 E5 E6 E7 E8 E9 E10 E11 E12 E13 E14 E15.
  constructor; [|..|exact HB|exact HR|rewrite E4; exact H5|rewrite E6, E14; exact H6].
  - destruct Hst as [Hst|[Hst HF]]; [by left|right].
    destruct H1 as [H1|(una & nxt & mx & HS & HF')]; [done|].
    exists una, nxt, mx. split; [|auto]. revert HS. apply Synced_view. unfold sender_view. congruence.
  - revert H2. apply TxOk_view. congruence.
Qed.

Lemma take_extend {A} (l : list A) r n m :
  0 <= r -> 0 <= n <= m -> take (Z.to_nat r) l ++ slice 0 n (slice r (r + m) l) = take (Z.to_nat (r + n)) l.
Proof.
  intros. unfold slice. rewrite Z.sub_0_r, drop_0, take_take, Nat.min_l by lia.
  rewrite take_take_drop. f_equal. lia.
Qed.

(** In-order data extends the receiver's prefix of the peer's stream. *)
Lemma accept_data_pos seg t :
  zlen pw < 2 ^ 31 -> Ep0 t -> accepts (st t) = true -> seq seg = rcv_nxt t ->
  (payload seg <> [] -> exists k, 0 <= k /\ k + zlen (payload seg) <= zlen pw /\
     seq seg = u32 (irs + (1 + k)) /\ payload seg = slice k (k + zlen (payload seg)) pw) ->
  exists r, 0 <= r /\ r + taken seg t <= zlen pw /\ 0 <= taken seg t <= zlen (payload seg) /\
    rcv_nxt t = u32 (irs + (1 + r)) /\
    rcv_nxt (accept_data seg t) = u32 (irs + (1 + (r + taken seg t))) /\
    zlen (recv_buf (accept_data seg t)) <= RECV_CAP /\
    (user_closed t = false -> rd ++ recv_buf (accept_data seg t) = take (Z.to_nat (r + taken seg t)) pw) /\
    rd ++ recv_buf (accept_data seg t) `prefix_of` pw.
Proof.
  intros Hl H Ha Es Hd. pose proof (b_cap _ _ _ (ep_base _ _ _ _ _ _ H)) as Hc.
  destruct (ep_rcv _ _ _ _ _ _ H) as [(r & Hr & Er & _ & Hb) R2 R3 _]. rewrite (R3 Ha) in Er.
  replace (1 + r + 0) with (1 + r) in Er by lia.
  destruct (accept_pos r seg t Hl Hr Er Es Hd) as [Hp Hp'].
  pose proof (zlen_nonneg (payload seg)). pose proof (zlen_nonneg (recv_buf t)).
  assert (0 <= taken seg t <= zlen (payload seg)) as Ht by (unfold taken; destruct (user_closed t); lia).
  exists r. split_and!; try lia.
  - cbn. rewrite Er, u32_add. f_equal. lia.
  - cbn -[RECV_CAP]. destruct (user_closed t) eqn:Eu; [done|]. rewrite zlen_app, zlen_slice by lia.
    unfold taken. rewrite Eu. lia.
  - cbn. intros Eu. by rewrite Eu, app_assoc, (Hb Eu), Hp, take_extend by lia.
  - cbn. destruct (user_closed t) eqn:Eu; [done|].
    rewrite app_assoc, (Hb eq_refl), Hp, take_extend by lia. apply prefix_take.
Qed.

Lemma Ep0_accept_data seg t :
  zlen pw < 2 ^ 31 -> Ep0 t -> accepts (st t) = true -> seq seg = rcv_nxt t ->
  (payload seg <> [] -> exists k, 0 <= k /\ k + zlen (payload seg) <= zlen pw /\
     seq seg = u32 (irs + (1 + k)) /\ payload seg = slice k (k + zlen (payload seg)) pw) ->
  Ep0 (accept_data seg t).
Proof.
  intros Hl H Ha Es Hd.
  destruct (accept_data_pos seg t Hl H Ha Es Hd) as (r & H0 & H1 & H2 & H3 & H4 & H5 & H6 & H7).
  apply (Ep0_rcv t); [done|done| | |].
  - right. split; [by intros E; rewrite E in Ha|done].
  - destruct (ep_base _ _ _ _ _ _ H) as [? ? _ _]. constructor; [done|done| |done].
    exists (1 + (r + taken seg t)). split; [lia|done].
  - pose proof (r_accept _ _ _ _ _ (ep_rcv _ _ _ _ _ _ H)) as R3. constructor.
    + exists (r + taken seg t). split; [lia|]. rewrite H4. simpl peer_fin. rewrite (R3 Ha).
      split_and!; [f_equal; lia|done|done].
    + exact H7.
    + exact R3.
    + simpl. intros E. by rewrite E in Ha.
Qed.

(** The FIN ends the peer's stream. *)
Lemma Ep0_accept_fin t :
  Ep0 t -> accepts (st t) = true -> rcv_nxt t = u32 (irs + (1 + zlen pw)) -> pclosed = true ->
  zlen pw < 2 ^ 31 -> Ep0 (accept_fin t).
Proof.
  intros H Ha Er Hp Hl. pose proof (zlen_nonneg pw).
  assert (rcv_nxt (accept_fin t) = u32 (irs + (2 + zlen pw))) as Er'.
  { simpl. rewrite Er, u32_add. f_equal. lia. }
  assert (st (accept_fin t) = match st t with
            | Established => CloseWait | FinWait1 => Closing | _ => Closed end) as Est.
  { simpl. by destruct (st t). }
  apply (Ep0_rcv t); [done|done| | |].
  - rewrite Est. destruct (st t) eqn:E; try done; [right|right|by left].
    + split; [done|]. unfold fin_state. rewrite Est, E. done.
    + split; [done|]. unfold fin_state. rewrite Est, E. done.
  - destruct (ep_base _ _ _ _ _ _ H) as [? ? _ ?]. constructor; [done|done| |done].
    exists (2 + zlen pw). split; [lia|done].
  - destruct (ep_rcv _ _ _ _ _ _ H) as [(r & Hr & E1 & _ & E2) R2 R3 _]. constructor.
    + exists (zlen pw). split; [lia|]. rewrite Er'. simpl peer_fin.
      split_and!; [f_equal; lia|done|]. intros Hu. simpl. rewrite (E2 Hu).
      rewrite (R3 Ha), Er in E1. apply u32_inj in E1; [|lia]. f_equal. lia.
    + exact R2.
    + rewrite Est. by destruct (st t).
    + intros _ _. by left.
Qed.

Lemma Ep0_take_data isn seg t :
  zlen pw < 2 ^ 31 -> Ep0 t -> incoming wr pw pclosed isn irs seg -> Ep0 (take_data seg t).
Proof.
  intros Hl H [Hd Hf _ _]. unfold take_data.
  destruct ((seq seg =? rcv_nxt t) && accepts (st t)) eqn:E; [|done].
  apply andb_true_iff in E as [Es Ha]. apply Z.eqb_eq in Es.
  pose proof (Ep0_accept_data seg t Hl H Ha Es Hd) as H'. cbn zeta.
  destruct (has (flags seg) FIN && (taken seg t =? zlen (payload seg))) eqn:E; [|done].
  apply andb_true_iff in E as [Ef Et]. apply Z.eqb_eq in Et. destruct (Hf Ef) as (Hp & Hq).
  apply Ep0_accept_fin; try done.
  destruct (accept_data_pos seg t Hl H Ha Es Hd) as (r & H0 & H1 & H2 & H3 & H4 & _).
  rewrite H4. rewrite Es, H3 in Hq. apply u32_inj in Hq; [|lia]. f_equal. lia.
Qed.

Lemma Flight_take_data seg t : Flight t -> Flight (take_data seg t).
Proof.
  intros [F1 F2]. unfold take_data.
  destruct ((seq seg =? rcv_nxt t) && accepts (st t)) eqn:E; [|done].
  apply andb_true_iff in E as [_ Ha]. cbn zeta.
  destruct (has (flags seg) FIN && (taken seg t =? zlen (payload seg))); [|done].
  unfold Flight, in_flight_armed in *. destruct t as [s]; simpl in *.
  destruct s; simpl in *; try discriminate Ha; split; intros; try discriminate; auto.
Qed.

(** ** The end of a handler *)

Context (Hwr : bytes_ok wr).

Lemma Ep0_output now probe t : Ep0 t -> Ep0 (output now probe t).
Proof.
  intros H. pose proof (core_output now probe t) as Ec. pose proof H as [H1 H2 H3 H4 H5 H6].
  destruct H1 as [H1|(una & nxt & mx & HS & HF)]; [by rewrite output_idle by auto|].
  destruct (Synced_output _ _ _ _ now probe _ HS HF) as (nxt' & mx' & HS' & HF').
  pose proof (TxOk_output wr pw irs Hwr _ _ _ now probe _ HS HF H2 H3) as HT.
  pose proof (Base_core pw irs _ _ (eq_sym Ec) H3) as HB. pose proof (st_output now probe t) as Est.
  revert Ec HS' HF' HT HB Est. generalize (output now probe t). intros t' Ec HS' HF' HT HB Est.
  unfold core in Ec. injection Ec as _ _ _ _ _ _ _ E8 _ E10 E11 E12 E13 E14 _ _.
  constructor; [right; eauto|exact HT|exact HB| | |rewrite E8, E13; exact H6].
  - destruct H4 as [R1 R2 R3 R4]. constructor.
    + rewrite E10, E11, E12, E13. exact R1.
    + rewrite E11. exact R2.
    + rewrite E12. destruct Est as [->| ->]; [exact R3|]. intros Ha. apply R3.
      by destruct (st t).
    + intros E. by destruct (fin_state_closed _ HF').
  - rewrite (sy_max _ _ _ _ _ HS'). apply u32_range.
Qed.

Lemma Armed_output now probe t : Ep0 t -> Flight t -> Armed (output now probe t).
Proof.
  intros H [F1 F2]. destruct (sending (st t)) eqn:Es.
  - destruct (ep_snd _ _ _ _ _ _ H) as [E|(una & nxt & mx & HS & HF)]; [by rewrite E in Es|]. split.
    + intros _. eapply output_armed; eauto.
    + intros E. exfalso. destruct (st_output now probe t) as [E'|E']; rewrite E in E';
        by destruct (st t).
  - assert (st t = FinWait2 \/ st t = Closed) as E.
    { destruct (ep_snd _ _ _ _ _ _ H) as [E|(? & ? & ? & _ & HF)]; [auto|].
      destruct (fin_state_sending _ HF); [congruence|auto]. }
    rewrite output_idle by done. split; [by rewrite Es|done].
Qed.

(** The invariant between two operations. *)
Definition Ep (t : Tcb) : Prop := Ep0 t /\ Armed t.

Lemma Ep_output now probe t : Ep0 t -> Flight t -> Ep (output now probe t).
Proof. split; [by apply Ep0_output|by apply Armed_output]. Qed.

Lemma Ep_fail e t : Ep0 t -> Ep (fail e t).
Proof. split; [by apply Ep0_fail|done]. Qed.

(** ** Segment arrival *)

Context (Hpw : zlen pw < 2 ^ 31) (Hwl : zlen wr < 2 ^ 31 - 2).

Lemma Ep_after_ack isn seg now t :
  Ep0 t -> Flight t -> incoming wr pw pclosed isn irs seg -> Ep (after_ack seg now t).
Proof.
  intros H F Hi. unfold after_ack. cbn zeta. pose proof (Ep0_wnd _ _ (i_wnd _ _ _ _ _ _ Hi) H) as H1.
  assert (Flight (set_snd_wnd (window seg) t)) as F1 by exact F.
  revert H1 F1. generalize (set_snd_wnd (window seg) t). intros t1 H1 F1.
  destruct (_ || _); [|by apply Ep_output].
  apply Ep_output; [apply Ep0_ack; by eapply Ep0_take_data|by apply Flight_ack, Flight_take_data].
Qed.

(** The branches of [on_segment] after the handshake. *)
Lemma Ep_on_segment seg now t :
  Ep t -> incoming wr pw pclosed (iss t) irs seg -> Ep (on_segment seg now t).
Proof.
  intros [H HA] Hi. pose proof (Armed_Flight _ HA) as HFl.
  destruct (ep_snd _ _ _ _ _ _ H) as [E|(una & nxt & mx & HS & HF)].
  { unfold on_segment. by rewrite E. }
  assert (Ep (if has (flags seg) RST then
        let wnd := Z.max (RECV_CAP - zlen (recv_buf t)) 1 in
        if seq_le (rcv_nxt t) (seq seg) && seq_lt (seq seg) (u32 (rcv_nxt t + wnd))
        then fail ConnectionReset t else t
      else if has (flags seg) SYN then send_ack t
      else if negb (has (flags seg) ACK) then t
      else if seq_lt (snd_una t) (ack seg) && seq_le (ack seg) (snd_max t) then
        after_ack seg now (take_ack seg now t)
      else if seq_lt (snd_max t) (ack seg) then send_ack t
      else if (ack seg =? snd_una t) && (window seg =? 0) then
        after_ack seg now (set_retries 0 t)
      else after_ack seg now t)) as G.
  { cbn zeta. destruct (has (flags seg) RST); [destruct (_ && _); [by apply Ep_fail|by split]|].
    destruct (has (flags seg) SYN); [split; [by apply Ep0_ack|by apply Armed_ack]|].
    destruct (has (flags seg) ACK) eqn:Ek; [|by split]. cbn [negb].
    destruct (i_ack _ _ _ _ _ _ Hi Ek) as (a & Ha & Ea).
    pose proof (sy_ord _ _ _ _ _ HS) as Ho. pose proof (sy_fin _ _ _ _ _ HS) as Hm.
    pose proof (sy_acked _ _ _ _ _ HS) as Hu.
    assert (una <= zlen wr + 2 /\ mx <= zlen wr + 2) as [Hu' Hm']
      by (destruct (fin_acked t), (fin_seq t); lia).
    rewrite Ea, (sy_una _ _ _ _ _ HS), (sy_max _ _ _ _ _ HS), !seq_lt_pos, seq_le_pos by lia.
    destruct (Z.ltb_spec una a); cbn [andb].
    - destruct (Z.leb_spec a mx); [|destruct (Z.ltb_spec mx a); [|lia]].
      + destruct (Ep0_take_ack seg now una nxt mx a t H HS Ea) as [H' F']; [lia|done|].
        by eapply Ep_after_ack.
      + split; [by apply Ep0_ack|by apply Armed_ack].
    - destruct (Z.ltb_spec mx a); [lia|]. destruct (_ && _); [|by eapply Ep_after_ack].
      eapply Ep_after_ack; [by apply Ep0_retries|exact HFl|exact Hi]. }
  unfold on_segment. unfold fin_state in HF. destruct (st t); try done; exact G.
Qed.

(** ** The timer *)

Lemma Ep0_rewind t : Ep0 t -> Ep0 (set_snd_nxt (snd_una t) t).
Proof.
  intros [H1 H2 H3 H4 H5 H6]. constructor; [|exact H2| | |exact H5|exact H6].
  - destruct H1 as [H1|(una & nxt & mx & HS & HF)]; [by left|right]. exists una, una, mx.
    split; [|exact HF]. destruct HS as [? ? ? ? ? ? ? ? ? ?]. constructor; try done. lia.
  - by revert H3; apply Base_view.
  - by revert H4; apply Receiver_view.
Qed.

Lemma Ep0_rto x t : Ep0 t -> Ep0 (set_rto x t).
Proof. by apply Ep0_view. Qed.

Lemma Ep0_arm now t : Ep0 t -> Ep0 (arm now t).
Proof. unfold arm. destruct (deadline t); [done|]. by apply Ep0_view. Qed.

Lemma Ep_on_timer now t : Ep t -> Ep (on_timer now t).
Proof.
  intros [H HA]. unfold on_timer. destruct (deadline t) as [d|] eqn:Ed; [|by split].
  destruct (now <? d); [by split|]. cbn zeta. apply (Ep0_deadline None) in H.
  destruct (decide (st (set_deadline None t) = FinWait2)) as [E|E].
  { split; [|done]. apply Ep0_closed; [|done].
    destruct (ep_snd _ _ _ _ _ _ H) as [E'|(una & nxt & mx & HS & HF)]; [congruence|].
    eapply fin_sent_closed; eauto. unfold fin_state in HF. rewrite E in HF.
    pose proof (sy_fin _ _ _ _ _ HS) as F. destruct (fin_seq _); [done|]. by destruct F; congruence. }
  revert H E. generalize (set_deadline None t). intros t1 H E.
  apply (Ep0_retries (retries t1 + 1)) in H.
  assert (st (set_retries (retries t1 + 1) t1) <> FinWait2) as E1 by exact E.
  revert H E1. generalize (set_retries (retries t1 + 1) t1). intros t2 H E1.
  destruct (_ <? _); [by apply Ep_fail|].
  apply (Ep0_rto (Z.min (rto t2 * 2) MAX_RTO)) in H.
  assert (st (set_rto (Z.min (rto t2 * 2) MAX_RTO) t2) <> SynSent) as E2.
  { intros Ec. destruct (ep_snd _ _ _ _ _ _ H) as [E'|(? & ? & ? & _ & HF)]; [congruence|].
    unfold fin_state in HF. by rewrite Ec in HF. }
  revert H E2. generalize (set_rto (Z.min (rto t2 * 2) MAX_RTO) t2). intros t3 H E2.
  destruct (decide (st t3 = SynSent)) as [Es|_]; [done|].
  split; [by apply Ep0_arm, Ep0_output, Ep0_rewind|].
  split; intros; apply deadline_arm.
Qed.


End steps.

End TcpSteps.
