(* ===== verification/TcpStream.v ===== *)
(** A TCP connection and the host at its other end, over a network that loses,
    duplicates and reorders segments.  The host is an abstract one that follows
    the protocol.  Also the handshake that [connect] makes with it. *)

From S2P Require Import Prelude Checksum Tcp TcpWire TcpInv TcpTx TcpSteps.

Module TcpStream.
Import Tcp TcpWire TcpInv TcpTx TcpSteps.

(** ** The program's calls *)

Definition read_bytes (o : outcome (list Z)) : list Z :=
  match o with Return (Ok d) => d | _ => [] end.

Lemma slice_drop_all {A} n (l : list A) : 0 <= n -> slice 0 n l ++ drop (Z.to_nat n) l = l.
Proof. intros. unfold slice. rewrite Z.sub_0_r, drop_0. apply take_drop. Qed.

(** Bytes handed to the program move from the buffer to what was read. *)
Lemma Ep_consume wr rd pw pc irs n t :
  0 <= n -> Ep wr rd pw pc irs t ->
  Ep wr (rd ++ slice 0 n (recv_buf t)) pw pc irs (set_recv_buf (drop (Z.to_nat n) (recv_buf t)) t).
Proof.
  intros Hn [[H1 H2 H3 [R1 R2 R3 R4] H5 H6] HA]. split; [|exact HA].
  assert ((rd ++ slice 0 n (recv_buf t)) ++ drop (Z.to_nat n) (recv_buf t) = rd ++ recv_buf t) as E
    by (by rewrite <- app_assoc, slice_drop_all).
  constructor; [|exact H2| | |exact H5|exact H6].
  - destruct H1 as [H1|(una & nxt & mx & HS & HF)]; [by left|right]. exists una, nxt, mx.
    split; [|exact HF]. by revert HS; apply Synced_view.
  - destruct H3 as [B1 B2 B3 B4]. constructor; [exact B1|exact B2|exact B3|].
    simpl. unfold zlen in *. rewrite length_drop. lia.
  - constructor; [|simpl; by rewrite E|exact R3|exact R4].
    simpl. rewrite E. exact R1.
Qed.

Lemma Ep_read wr rd pw pc irs n t :
  0 <= n -> Ep wr rd pw pc irs t ->
  Ep wr (rd ++ read_bytes (read_round n t).2) pw pc irs (read_round n t).1.
Proof.
  intros Hn H. unfold read_round.
  assert (Ep wr (rd ++ []) pw pc irs t) as H0 by (by rewrite app_nil_r).
  destruct (n =? 0); [exact H0|].
  destruct (negb _).
  - cbn zeta. assert (0 <= Z.min n (zlen (recv_buf t))) as Hm by (pose proof (zlen_nonneg (recv_buf t)); lia).
    destruct (Ep_consume _ _ _ _ _ _ _ Hm H) as [G1 G2].
    revert G1 G2. generalize (set_recv_buf (drop (Z.to_nat (Z.min n (zlen (recv_buf t)))) (recv_buf t)) t).
    intros t1 G1 G2. cbn [fst snd read_bytes]. destruct (_ && _); [|by split].
    split; [by apply Ep0_ack|by apply Armed_ack].
  - destruct (peer_fin t); [exact H0|]. destruct (error t); [exact H0|]. by destruct (st t).
Qed.

(** Data appended to the send buffer of a connection that may still write. *)
Lemma Ep0_append wr rd pw pc irs d t :
  Ep0 wr rd pw pc irs t -> fin_queued t = false -> zlen (send_buf t) + zlen d <= SEND_CAP ->
  Ep0 (wr ++ d) rd pw pc irs (set_send_buf (send_buf t ++ d) t).
Proof.
  intros [H1 H2 H3 H4 H5 H6] Hq Hc. constructor; [| | | |exact H5|exact H6].
  - destruct H1 as [H1|(una & nxt & mx & HS & HF)]; [by left|right]. exists una, nxt, mx.
    split; [|exact HF]. pose proof (sy_fin _ _ _ _ _ HS) as F. pose proof (sy_acked _ _ _ _ _ HS) as A.
    pose proof (sy_ord _ _ _ _ _ HS) as O. pose proof (zlen_nonneg d).
    destruct (fin_seq t) eqn:Ef; [destruct F as (_ & _ & ?); congruence|].
    destruct F as [F Fa]. rewrite Fa in A.
    destruct HS as [S1 S2 S3 S4 S5 S6 S7 S8 S9 S10]. constructor; try done.
    + simpl. rewrite S5, drop_app_le; [done|]. unfold zlen in *. lia.
    + simpl. by rewrite zlen_app.
    + simpl. rewrite Fa, zlen_app. lia.
    + simpl. rewrite Ef, zlen_app. split; [lia|done].
  - unfold TxOk in *. simpl. rewrite Hq in *. eapply Forall_impl; [exact H2|].
    intros o [Ho Ha]. split; [by apply honest_app|done].
  - by revert H3; apply Base_view.
  - by revert H4; apply Receiver_view.
Qed.

Lemma Ep_write wr rd pw pc irs now data written t :
  bytes_ok wr -> bytes_ok data -> 0 <= written -> Ep wr rd pw pc irs t ->
  let '(t', written', _) := write_round now data written t in
  Ep (wr ++ slice written written' data) rd pw pc irs t' /\ written <= written'.
Proof.
  intros Hw Hd H0 [H HA].
  assert (Ep (wr ++ slice written written data) rd pw pc irs t /\ written <= written) as Hsame.
  { unfold slice. rewrite Z.sub_diag, app_nil_r. split; [by split|lia]. }
  unfold write_round. destruct (Z.ltb_spec written (zlen data)); cbn [negb]; [|exact Hsame].
  destruct (write_error t) as [e|] eqn:Ee; [exact Hsame|]. cbn zeta.
  set (n := Z.min (SEND_CAP - zlen (send_buf t)) (zlen data - written)).
  destruct (Z.ltb_spec 0 n) as [Hn|Hn]; [|exact Hsame]. split; [|lia].
  assert (fin_queued t = false) as Hq.
  { unfold write_error in Ee. destruct (error t); [done|]. destruct (st t); try done; by destruct (fin_queued t). }
  assert (Ep0 (wr ++ slice written (written + n) data) rd pw pc irs
            (set_send_buf (send_buf t ++ slice written (written + n) data) t)) as H'.
  { apply Ep0_append; [done|done|]. rewrite zlen_slice by (unfold n in *; lia). unfold n. lia. }
  apply Ep_output; [apply Forall_app; split; [done|by apply slice_ok]|exact H'|].
  apply Armed_Flight in HA. exact HA.
Qed.

Lemma Ep_close wr rd pw pc irs now t :
  bytes_ok wr -> Ep wr rd pw pc irs t -> Ep wr rd pw pc irs (close now t).
Proof.
  intros Hw [[H1 H2 H3 [R1 R2 R3 R4] H5 H6] HA]. unfold close. cbn zeta.
  assert (Ep0 wr rd pw pc irs (set_recv_buf [] (set_user_closed true t))) as H.
  { constructor; [|exact H2| | |exact H5|done].
    - destruct H1 as [H1|(una & nxt & mx & HS & HF)]; [by left|right]. exists una, nxt, mx.
      split; [|exact HF]. by revert HS; apply Synced_view.
    - destruct H3 as [B1 B2 B3 B4]. by constructor.
    - constructor; [|simpl|exact R3|done].
      + destruct R1 as (r & G1 & G2 & G3 & _). exists r.
        split; [exact G1|]. split; [exact G2|]. split; [exact G3|]. intros E; discriminate E.
      + rewrite app_nil_r. etrans; [|exact R2]. by exists (recv_buf t). }
  assert (Armed (set_recv_buf [] (set_user_closed true t))) as HA' by exact HA.
  assert (user_closed (set_recv_buf [] (set_user_closed true t)) = true) as Hu by done.
  revert H HA' Hu. generalize (set_recv_buf [] (set_user_closed true t)). intros t1 H HA' Hu.
  assert (Ep wr rd pw pc irs (output now false (set_fin_queued true t1))) as Ho.
  { apply Ep_output; [done| |exact (Armed_Flight _ HA')]. destruct H as [G1 G2 G3 G4 G5 G6].
    constructor; [| | | |exact G5|done].
    - destruct G1 as [G1|(una & nxt & mx & HS & HF)]; [by left|right]. exists una, nxt, mx.
      split; [|exact HF]. destruct HS as [? ? ? ? ? ? ? F ? ?]. constructor; try done.
      simpl. destruct (fin_seq t1); [|exact F]. by destruct F as (? & ? & ?).
    - unfold TxOk in *. simpl. eapply Forall_impl; [exact G2|].
      intros o [Ho Ha]. split; [by eapply honest_close|done].
    - by revert G3; apply Base_view.
    - by revert G4; apply Receiver_view. }
  destruct (st t1); first [by split | exact Ho | split; [by apply Ep0_closed|done]].
Qed.

(** ** The peer moves on *)

Lemma Ep_peer wr rd pw pc irs d pc' t :
  Ep wr rd pw pc irs t -> (pc = true -> d = []) -> (pc = true -> pc' = true) ->
  Ep wr rd (pw ++ d) pc' irs t.
Proof.
  intros [[H1 H2 H3 [(r & Hr & Er & Hf & Hb) R2 R3 R4] H5 H6] HA] Hd Hc. split; [|exact HA].
  pose proof (zlen_nonneg d). constructor; [exact H1| |by apply Base_app| |exact H5|exact H6].
  - eapply Forall_impl; [exact H2|]. intros o [Ho Ha]. split; [exact Ho|by apply acks_app].
  - constructor; [|etrans; [exact R2|by exists d]|exact R3|exact R4].
    exists r. rewrite zlen_app. split; [lia|]. split; [exact Er|]. split.
    + intros Hp. destruct (Hf Hp) as [-> Hq]. rewrite (Hd Hq). change (zlen []) with 0. split; [lia|auto].
    + intros Hu. rewrite (Hb Hu), take_app_le; [done|]. unfold zlen in *. lia.
Qed.

(** ** Fields no segment changes *)

Definition keep (t : Tcb) := (iss t, fin_queued t).

Lemma keep_output now probe t : keep (output now probe t) = keep t.
Proof.
  pose proof (core_output now probe t) as E. unfold core in E. unfold keep. congruence.
Qed.

Lemma keep_take_ack seg now t : keep (take_ack seg now t) = keep t.
Proof.
  unfold take_ack, ack_fin. transitivity (keep (ack_data seg now t)); [|by destruct t].
  generalize (ack_data seg now t). intros t'. destruct (fin_acked t'); [|done]. by destruct (st t').
Qed.

Lemma keep_after_ack seg now t : keep (after_ack seg now t) = keep t.
Proof.
  unfold after_ack. cbn zeta. rewrite keep_output. destruct (_ || _); [|done].
  transitivity (keep (take_data seg (set_snd_wnd (window seg) t))); [done|].
  transitivity (keep (set_snd_wnd (window seg) t)); [|done].
  generalize (set_snd_wnd (window seg) t). intros t'. unfold take_data. cbn zeta.
  destruct (_ && _); [|done]. by destruct (_ && _).
Qed.

Lemma keep_on_segment seg now t : st t <> SynSent -> keep (on_segment seg now t) = keep t.
Proof.
  intros Hs. unfold on_segment. cbn zeta.
  destruct (st t); try done;
  (destruct (has (flags seg) RST); [by destruct (_ && _)|]);
  (destruct (has (flags seg) SYN); [done|]); (destruct (negb _); [done|]);
  (destruct (_ && _); [by rewrite keep_after_ack, keep_take_ack|]);
  (destruct (seq_lt _ _); [done|]); (destruct (_ && _)); by rewrite keep_after_ack.
Qed.

Lemma keep_arm now t : keep (arm now t) = keep t.
Proof. unfold arm. by destruct (deadline t). Qed.

Lemma keep_on_timer now t : keep (on_timer now t) = keep t.
Proof.
  unfold on_timer. destruct (deadline t); [|done]. destruct (_ <? _); [done|]. cbn zeta.
  destruct (decide _); [done|]. destruct (_ <? _); [done|]. by rewrite keep_arm, keep_output.
Qed.

Lemma keep_read n t : keep (read_round n t).1 = keep t.
Proof.
  unfold read_round. destruct (n =? 0); [done|]. destruct (negb _).
  - cbn zeta. by destruct (_ && _).
  - destruct (peer_fin t); [done|]. destruct (error t); [done|]. by destruct (st t).
Qed.

(** [write] changes neither, and writes nothing after a close. *)
Lemma keep_write now data written t :
  keep (write_round now data written t).1.1 = keep t /\
  (fin_queued t = true -> (write_round now data written t).1.2 = written).
Proof.
  unfold write_round. destruct (negb _); [done|]. destruct (write_error t) as [e|] eqn:E; [done|].
  cbn zeta. destruct (0 <? _); [|done]. split; [cbn [fst snd]; by rewrite keep_output|].
  intros Hq. unfold write_error in E. rewrite Hq in E. destruct (error t); [done|]. by destruct (st t).
Qed.

Lemma keep_close now t :
  iss (close now t) = iss t /\ (fin_queued t = true -> fin_queued (close now t) = true).
Proof.
  unfold close. cbn zeta.
  assert (keep (set_recv_buf [] (set_user_closed true t)) = keep t) as E by done. revert E.
  generalize (set_recv_buf [] (set_user_closed true t)). intros t1 E.
  unfold keep in E. injection E as E1 E2.
  assert (forall t2, keep t2 = (iss t1, true) -> iss t2 = iss t /\ (fin_queued t = true -> fin_queued t2 = true)) as G.
  { unfold keep. intros t2 G. injection G as -> ->. done. }
  destruct (st t1); try (simpl; rewrite E1, E2; done); apply G; by rewrite keep_output.
Qed.

(** ** A connection and its peer *)

(** A connection with what its program wrote and read. *)
Record ep : Type := mkEp { tcb : Tcb; wr : list Z; rd : list Z }.

(** What one side does by itself: a round of [write] or [read] of a program
    that has not closed, [close], and the timer. *)
Inductive local : ep -> ep -> Prop :=
| l_write now data written e :
    user_closed (tcb e) = false -> bytes_ok data -> 0 <= written ->
    local e (mkEp (write_round now data written (tcb e)).1.1
                  (wr e ++ slice written (write_round now data written (tcb e)).1.2 data) (rd e))
| l_read n e :
    user_closed (tcb e) = false -> 0 <= n ->
    local e (mkEp (read_round n (tcb e)).1 (wr e) (rd e ++ read_bytes (read_round n (tcb e)).2))
| l_close now e : local e (mkEp (close now (tcb e)) (wr e) (rd e))
| l_timer now e : local e (mkEp (on_timer now (tcb e)) (wr e) (rd e)).

(** The host at the other end, known by what the protocol asks of it and not by
    its code: the stream its program writes, whether it has closed that, and
    what it has accepted of our stream, its end included. *)
Record peer : Type := mkPeer { p_wr : list Z; p_closed : bool; p_rd : list Z; p_eof : bool }.

(** What the peer does by itself.  It accepts bytes of our stream only from
    segments we have [sent], those that follow what it has: [k] is the position
    of the segment in the stream, at most half the sequence space before its
    own.  It sees the end at the FIN of such a segment. *)
Inductive peer_step (isn : Z) (sent : list Out) : peer -> peer -> Prop :=
| p_write d p :
    p_closed p = false -> peer_step isn sent p (mkPeer (p_wr p ++ d) false (p_rd p) (p_eof p))
| p_close p : peer_step isn sent p (mkPeer (p_wr p) true (p_rd p) (p_eof p))
| p_accept o k n p :
    o ∈ sent -> o_seq o = u32 (isn + (1 + k)) -> 0 <= zlen (p_rd p) - k <= 2 ^ 31 -> 0 <= n ->
    peer_step isn sent p
      (mkPeer (p_wr p) (p_closed p)
         (p_rd p ++ slice (zlen (p_rd p) - k) (zlen (p_rd p) - k + n) (o_payload o)) (p_eof p))
| p_end o p :
    o ∈ sent -> has (o_flags o) FIN = true ->
    o_seq o = u32 (isn + (1 + zlen (p_rd p) - zlen (o_payload o))) ->
    peer_step isn sent p (mkPeer (p_wr p) (p_closed p) (p_rd p) true).

(** At any time any segment may arrive that the peer could have sent, first or
    again: so segments may be cut in any way, lost, duplicated, delayed and
    reordered. *)
Inductive step (isn irs : Z) : ep * peer -> ep * peer -> Prop :=
| s_local a a' p : local a a' -> step isn irs (a, p) (a', p)
| s_peer a p p' : peer_step isn (tx (tcb a)) p p' -> step isn irs (a, p) (a, p')
| s_arrive a p seg now :
    incoming (wr a) (p_wr p) (p_closed p) isn irs seg ->
    step isn irs (a, p) (mkEp (on_segment seg now (tcb a)) (wr a) (rd a), p).

(** A connection whose handshake is done: our SYN took the sequence number
    [isn], the peer's took [irs]. *)
Record fresh (isn irs : Z) (t : Tcb) : Prop := {
  fr_st : st t = Established;
  fr_seq : iss t = isn /\ snd_una t = u32 (isn + 1) /\ snd_nxt t = u32 (isn + 1) /\
           snd_max t = u32 (isn + 1) /\ rcv_nxt t = u32 (irs + 1);
  fr_bufs : send_buf t = [] /\ recv_buf t = [];
  fr_fin : fin_queued t = false /\ fin_seq t = None /\ fin_acked t = false /\ peer_fin t = false /\
           user_closed t = false;
  fr_peer : 0 <= mss t <= MSS /\ 0 <= snd_wnd t;
  fr_addr : 0 <= local_port t < 2 ^ 16 /\ ip_ok (ip (remote t)) /\ 0 <= port (remote t) < 2 ^ 16;
  fr_tx : Forall (fun o => honest [] false isn o /\ acks [] irs o) (tx t);
}.

Lemma Ep_fresh isn irs t : fresh isn irs t -> Ep [] [] [] false irs t.
Proof.
  intros [E (E1 & E2 & E3 & E4 & E5) (E6 & E7) (E8 & E9 & E10 & E11 & E12) (E13 & E14) (E15 & E16 & E17) E18].
  split; [constructor|split].
  - right. exists 1, 1, 1. split; [|unfold fin_state; by rewrite E].
    constructor; rewrite ?E1, ?E6, ?E9, ?E10; try done.
  - unfold TxOk. by rewrite E8, E1.
  - constructor; [done|done| |by rewrite E7]. exists 1. split; [done|]. by rewrite E5.
  - constructor; rewrite ?E, ?E7, ?E11, ?E12; try done. exists 0. by rewrite E5.
  - rewrite E4. apply u32_range.
  - by rewrite E8.
  - intros _ [O|[O|[O _]]]; congruence.
  - intros O. congruence.
Qed.

(** ** The handshake *)

Lemma u32_0 x : 0 <= x < 2 ^ 32 -> u32 (x + 0) = x.
Proof. intros. rewrite Z.add_0_r. unfold u32. by apply Z.mod_small. Qed.

(** The control block right after the SYN. *)
Definition syn_sent (lport : Z) (rem : Endpoint) (isn now : Z) : Tcb :=
  mkTcb SynSent lport rem isn isn (u32 (isn + 1)) (u32 (isn + 1)) 0 DEFAULT_PEER_MSS [] false None
    false 0 [] false false RECV_CAP None INITIAL_RTO 0 (Some (now + INITIAL_RTO))
    [mkOut lport rem isn 0 SYN RECV_CAP []].

Lemma open_syn_sent lport rem isn now :
  0 <= isn < 2 ^ 32 -> open lport rem isn now Tcb_new = syn_sent lport rem isn now.
Proof.
  intros Hi. unfold open, output, Tcb_new, syn_sent. cbn [st snd_nxt iss snd_wnd mss send_buf fin_queued
    fin_seq fin_acked rcv_nxt recv_buf peer_fin user_closed advertised error rto retries deadline tx].
  rewrite Z.eqb_refl. unfold arm, advance, send, emit. tcb_simpl.
  pose proof (seq_lt_pos isn 0 1 ltac:(lia)) as E. rewrite u32_0 in E by done. rewrite E. done.
Qed.

(** [output] of a connection with nothing to send. *)
Lemma output_nothing now t :
  st t = Established -> send_buf t = [] -> fin_queued t = false -> 0 <= mss t -> output now false t = t.
Proof.
  intros E1 E2 E3 Hm. rewrite output_sending by (by rewrite E1). rewrite E2. simpl.
  assert (data_before_cursor t = 0) as Ed.
  { unfold data_before_cursor. rewrite E2. change (zlen []) with 0. pose proof (u32_range (snd_nxt t - snd_una t)). lia. }
  assert (chunk_len false t = 0) as Ec.
  { unfold chunk_len, saturating_sub. rewrite Ed, E2. change (zlen []) with 0. cbn [andb]. lia. }
  rewrite Ec. simpl. unfold output_end, fin_due. rewrite E3. cbn [andb]. by rewrite Ed, E2.
Qed.

(** After [connect] has sent its SYN, a SYN-ACK of that SYN
    establishes the connection: our next sequence number follows the SYN, the
    peer's next one follows its SYN, the peer's MSS is bounded by our own, and
    exactly the SYN and the final ACK of the handshake have been sent. *)
Theorem tcp_handshake lport rem isn irs now now' seg :
  0 <= lport < 2 ^ 16 -> ip_ok (ip rem) -> 0 <= port rem < 2 ^ 16 -> 0 <= isn < 2 ^ 32 ->
  seq seg = irs -> ack seg = u32 (isn + 1) -> flags seg = Z.lor SYN ACK -> 0 <= window seg ->
  (forall m, seg_mss seg = Some m -> 0 <= m) ->
  let t := on_segment seg now' (open lport rem isn now Tcb_new) in
  fresh isn irs t /\ snd_wnd t = window seg /\
  tx t = [mkOut lport rem isn 0 SYN RECV_CAP [];
          mkOut lport rem (u32 (isn + 1)) (u32 (irs + 1)) ACK RECV_CAP []].
Proof.
  intros H1 H2 H3 H4 <- E2 E3 H5 H6 t.
  set (m := Z.min (default DEFAULT_PEER_MSS (seg_mss seg)) MSS).
  assert (0 <= m <= MSS) as Hm.
  { unfold m, DEFAULT_PEER_MSS, MSS. destruct (seg_mss seg) as [x|]; simpl; [specialize (H6 x eq_refl)|]; lia. }
  assert (t = mkTcb Established lport rem isn (u32 (isn + 1)) (u32 (isn + 1)) (u32 (isn + 1)) (window seg) m
    [] false None false (u32 (seq seg + 1)) [] false false RECV_CAP None INITIAL_RTO 0 None
    [mkOut lport rem isn 0 SYN RECV_CAP [];
     mkOut lport rem (u32 (isn + 1)) (u32 (seq seg + 1)) ACK RECV_CAP []]) as ->.
  { unfold t. rewrite open_syn_sent by done. unfold on_segment, syn_sent. cbn [st].
    unfold on_syn_sent. rewrite E2, E3. cbn [iss]. rewrite Z.eqb_refl. cbn [negb].
    rewrite andb_false_r. change (has (Z.lor SYN ACK) RST) with false.
    change (Z.land (Z.lor SYN ACK) (Z.lor SYN ACK) =? Z.lor SYN ACK) with true. cbn [andb].
    cbn zeta. unfold send_ack, send, emit. cbn zeta. tcb_simpl. fold m.
    rewrite output_nothing; [done|done|done|done|]. tcb_simpl. lia. }
  split; [|done]. constructor; try done. tcb_simpl.
  repeat constructor; try done; simpl; try lia; try apply u32_range; try apply H2.
  intros _. exists 1. split; [|done]. change (zlen []) with 0. lia.
Qed.

Lemma tcp_handshake_witness :
  fresh 0xFFFFFFFF 7 (on_segment (mkSegment 80 50000 7 0 (Z.lor SYN ACK) 65535 (Some 1460) []) 5
    (open 50000 (mkEndpoint [10; 0; 2; 2] 80) 0xFFFFFFFF 0 Tcb_new)).
Proof.
  apply (tcp_handshake 50000 (mkEndpoint [10; 0; 2; 2] 80) 0xFFFFFFFF 7 0 5
    (mkSegment 80 50000 7 0 (Z.lor SYN ACK) 65535 (Some 1460) [])); try done.
  - split; [bytes_lit; done|done].
  - simpl. intros m E. injection E as <-. done.
Defined.

(** ** The invariant of a connection and its peer *)

(** A connection that [connect] has opened and a SYN-ACK has established. *)
Definition connected (isn irs : Z) (t : Tcb) : Prop :=
  exists lport rem now now' seg,
    (0 <= lport < 2 ^ 16 /\ ip_ok (ip rem) /\ 0 <= port rem < 2 ^ 16 /\ 0 <= isn < 2 ^ 32) /\
    (seq seg = irs /\ ack seg = u32 (isn + 1) /\ flags seg = Z.lor SYN ACK /\ 0 <= window seg /\
     forall m, seg_mss seg = Some m -> 0 <= m) /\
    t = on_segment seg now' (open lport rem isn now Tcb_new).

Section conn.
Context (isn irs : Z).

(** The states of a connection and its peer after the handshake. *)
Definition reachable (x : ep * peer) : Prop :=
  exists t, connected isn irs t /\ rtc (step isn irs) (mkEp t [] [], mkPeer [] false [] false) x.

Definition short (x : ep * peer) : Prop := zlen (wr x.1) < 2 ^ 31 - 2 /\ zlen (p_wr x.2) < 2 ^ 31 - 2.

(** The connection is in order, and what the peer has accepted is ours. *)
Record Conn (a : ep) (p : peer) : Prop := {
  co_ep : Ep (wr a) (rd a) (p_wr p) (p_closed p) irs (tcb a);
  co_iss : iss (tcb a) = isn;
  co_bytes : bytes_ok (wr a);
  co_rd : p_rd p `prefix_of` wr a;
  co_eof : p_eof p = true -> p_rd p = wr a /\ fin_queued (tcb a) = true;
}.

Lemma Conn_local a a' p : local a a' -> Conn a p -> Conn a' p.
Proof.
  intros L [H Hi Hb Hr He]. destruct L as [now data written a Hu Hd Hw|n a Hu Hn|now a|now a].
  - pose proof (Ep_write _ _ _ _ _ now data written _ Hb Hd Hw H) as G.
    destruct (keep_write now data written (tcb a)) as [K K']. unfold keep in K.
    destruct (write_round now data written (tcb a)) as [[t' w'] o]. simpl in *. injection K as K1 K2.
    constructor; simpl; [apply G|congruence| | |].
    + apply Forall_app; split; [done|by apply slice_ok].
    + etrans; [exact Hr|by eexists].
    + intros E. destruct (He E) as [-> Hq]. rewrite (K' Hq). unfold slice. rewrite Z.sub_diag, app_nil_r.
      split; [done|congruence].
  - pose proof (keep_read n (tcb a)) as K. unfold keep in K. injection K as K1 K2.
    constructor; simpl; [by apply Ep_read|congruence|done|done|by rewrite K2].
  - destruct (keep_close now (tcb a)) as [K1 K2].
    constructor; simpl; [by apply Ep_close|congruence|done|done|]. intros E. destruct (He E). auto.
  - pose proof (keep_on_timer now (tcb a)) as K. unfold keep in K. injection K as K1 K2.
    constructor; simpl; [by apply Ep_on_timer|congruence|done|done|by rewrite K2].
Qed.

(** The bytes at the position the peer is at, from one of our segments. *)
Lemma accept_prefix (w l : list Z) closed o k n :
  honest w closed isn o -> l `prefix_of` w -> zlen w < 2 ^ 31 - 2 ->
  o_seq o = u32 (isn + (1 + k)) -> 0 <= zlen l - k <= 2 ^ 31 -> 0 <= n ->
  l ++ slice (zlen l - k) (zlen l - k + n) (o_payload o) `prefix_of` w.
Proof.
  intros Ho [rest ->] Hw Es Hk Hn. pose proof (zlen_nonneg l). pose proof (zlen_nonneg rest).
  rewrite zlen_app in Hw. destruct (decide (o_payload o = [])) as [E|Hp].
  { rewrite E. unfold slice. rewrite drop_nil, take_nil, app_nil_r. by exists rest. }
  destruct (h_data _ _ _ _ Ho Hp) as (k' & G0 & G1 & Es' & Ed). pose proof (zlen_nonneg (o_payload o)).
  rewrite Es in Es'. rewrite zlen_app in G1. assert (k = k') as <- by (apply u32_inj in Es'; lia).
  apply prefix_app. rewrite Ed. unfold slice. rewrite Z.add_simpl_l.
  replace (k + zlen (o_payload o) - k) with (zlen (o_payload o)) by lia.
  rewrite skipn_firstn_comm, take_take, drop_drop.
  replace (Z.to_nat k + Z.to_nat (zlen l - k))%nat with (length l) by (unfold zlen in *; lia).
  rewrite drop_app_length. apply prefix_take.
Qed.

Lemma Conn_peer a p p' : peer_step isn (tx (tcb a)) p p' -> short (a, p) -> Conn a p -> Conn a p'.
Proof.
  intros S [Hs _] [H Hi Hb Hr He]. simpl in Hs.
  assert (forall o, o ∈ tx (tcb a) -> honest (wr a) (fin_queued (tcb a)) isn o) as HT.
  { pose proof (ep_tx _ _ _ _ _ _ (proj1 H)) as HT. unfold TxOk in HT. rewrite Forall_forall in HT.
    intros o Ho. rewrite <- Hi. apply (HT o Ho). }
  destruct S as [d p Hc|p|o k n p Ho Es Hk Hn|o p Ho Hf Es]; constructor; simpl in *; try done.
  - apply (Ep_peer _ _ _ _ _ _ _ _ H); congruence.
  - rewrite <- (app_nil_r (p_wr p)). by apply (Ep_peer _ _ _ _ _ _ _ _ H).
  - by eapply accept_prefix; [apply (HT o Ho)|..].
  - intros E. destruct (He E) as [Hw Hq]. split; [|done].
    pose proof (accept_prefix _ _ _ o k n (HT o Ho) Hr Hs Es Hk Hn) as P. rewrite Hw in P |- *.
    destruct P as [z Hz]. rewrite <- app_assoc in Hz. rewrite <- (app_nil_r (wr a)) in Hz at 1.
    apply app_inv_head in Hz. symmetry in Hz. apply app_eq_nil in Hz as [-> _]. apply app_nil_r.
  - intros _. destruct (h_fin _ _ _ _ (HT o Ho) Hf) as (Hq & Hn & Es'). split; [|done].
    rewrite Es, Hn in Es'. destruct Hr as [z Hz]. rewrite Hz in *. rewrite zlen_app in *.
    pose proof (zlen_nonneg z). pose proof (zlen_nonneg (p_rd p)). change (zlen []) with 0 in Es'.
    apply u32_inj in Es'; [|lia]. assert (zlen z = 0) as Ez by lia. destruct z; [by rewrite app_nil_r|].
    unfold zlen in Ez. simpl in Ez. lia.
Qed.

Lemma Ep_not_syn w r p c i t : Ep w r p c i t -> st t <> SynSent.
Proof.
  intros [H _] E. destruct (ep_snd _ _ _ _ _ _ H) as [E'|(? & ? & ? & _ & HF)]; [congruence|].
  unfold fin_state in HF. by rewrite E in HF.
Qed.

Lemma Conn_step x x' : step isn irs x x' -> short x -> Conn x.1 x.2 -> Conn x'.1 x'.2.
Proof.
  intros S Hs HC. destruct S as [a a' p L|a p p' S|a p seg now Hin]; cbn [fst snd] in *.
  - by eapply Conn_local.
  - by eapply Conn_peer.
  - destruct Hs as [Hs1 Hs2]. simpl in Hs1, Hs2. destruct HC as [H Hi Hb Hr He].
    pose proof (keep_on_segment seg now _ (Ep_not_syn _ _ _ _ _ _ H)) as K. unfold keep in K.
    injection K as K1 K2. constructor; simpl; [|congruence|done|done|by rewrite K2].
    apply Ep_on_segment; [done|lia|lia|done|]. by rewrite Hi.
Qed.

(** The streams only grow. *)
Lemma step_grows x x' : step isn irs x x' -> short x' -> short x.
Proof.
  unfold short. intros S. destruct S as [a a' p L|a p p' S|a p seg now Hin]; simpl; [|..|done].
  - intros [H1 H2]. split; [|done].
    destruct L as [now data written a| | |]; simpl in H1; rewrite ?zlen_app in H1; [|done..].
    pose proof (zlen_nonneg (slice written (write_round now data written (tcb a)).1.2 data)). lia.
  - intros [H1 H2]. split; [done|]. destruct S as [d p Hc|p|o k n p|o p]; simpl in H2; [|done..].
    rewrite zlen_app in H2. pose proof (zlen_nonneg d). lia.
Qed.

Lemma connected_fresh t : connected isn irs t -> fresh isn irs t.
Proof.
  intros (lport & rem & now & now' & seg & (? & ? & ? & ?) & (? & ? & ? & ? & ?) & ->).
  by apply tcp_handshake.
Qed.

Lemma reachable_Conn x : reachable x -> short x -> Conn x.1 x.2.
Proof.
  intros (t & Ht & R). revert x R. apply (rtc_ind_r (fun x => short x -> Conn x.1 x.2)).
  - intros _. apply connected_fresh in Ht. constructor; simpl; [by eapply Ep_fresh| |by apply Forall_nil_2|done|done].
    apply (fr_seq _ _ _ Ht).
  - intros x x' _ S IH Hs. pose proof (step_grows _ _ S Hs) as Hs'. eapply Conn_step; [exact S|exact Hs'|auto].
Qed.

End conn.

End TcpStream.
