(* ===== verification/TcpTheorems.v ===== *)
(** The theorems on TCP connections: delivery of both streams, retransmission,
    and the give-up of a silent peer; and two behaviours that are wrong. *)

From S2P Require Import Prelude Checksum Tcp TcpWire TcpInv TcpTx TcpSteps TcpStream.

Module TcpTheorems.
Import Tcp TcpWire TcpInv TcpTx TcpSteps TcpStream.

(** ** Delivery *)

(** What the program has read. *)
Lemma Conn_reads isn irs a p :
  Conn isn irs a p ->
  rd a `prefix_of` p_wr p /\
  (forall n, 0 < n -> user_closed (tcb a) = false -> (read_round n (tcb a)).2 = Return (Ok []) ->
     rd a = p_wr p /\ p_closed p = true).
Proof.
  intros [[H _] _ _ _ _]. destruct (ep_rcv _ _ _ _ _ _ H) as [(r & Hr & _ & Hf & Hb) R2 _ R4].
  split; [etrans; [|exact R2]; by exists (recv_buf (tcb a))|].
  intros n Hn Hu E. unfold read_round in E. destruct (Z.eqb_spec n 0); [lia|].
  destruct (Z.eqb_spec (zlen (recv_buf (tcb a))) 0) as [E0|E0]; cbn [negb] in E.
  - assert (recv_buf (tcb a) = []) as En by (unfold zlen in E0; destruct (recv_buf (tcb a)); done).
    assert (peer_fin (tcb a) = true) as Hp.
    { destruct (peer_fin (tcb a)) eqn:Ep; [done|]. destruct (error (tcb a)) eqn:Ee; [done|].
      destruct (st (tcb a)) eqn:Es; try done. destruct (R4 eq_refl Hu); congruence. }
    destruct (Hf Hp) as [-> Hc]. split; [|done]. specialize (Hb Hu). rewrite En, app_nil_r in Hb.
    rewrite Hb. apply take_ge. unfold zlen. lia.
  - exfalso. cbn [snd] in E. injection E as E. apply (f_equal zlen) in E.
    pose proof (zlen_nonneg (recv_buf (tcb a))). rewrite zlen_slice in E by lia.
    change (zlen []) with 0 in E. lia.
Qed.

(** C8: both streams of a connection arrive as they were written.  [connect]
    has opened the connection to any host that follows the protocol; its
    segments are cut as it likes, a FIN may come with the last data, and the
    network may lose, duplicate, delay and reorder them, with timers, writes,
    reads and closes at any time.  As long as both streams are shorter than
    2^31 - 2 bytes, so that sequence numbers compare unambiguously, what the
    program has read is a prefix of what the peer wrote, and a read reports the
    end only when all of it has been read and the peer has closed; and what the
    peer accepts from our segments is a prefix of what the program wrote, with
    the end only after all of it and after the program's close. *)
Theorem tcp_stream_delivery isn irs a p :
  reachable isn irs (a, p) -> zlen (wr a) < 2 ^ 31 - 2 -> zlen (p_wr p) < 2 ^ 31 - 2 ->
  (rd a `prefix_of` p_wr p /\
   forall n, 0 < n -> user_closed (tcb a) = false -> (read_round n (tcb a)).2 = Return (Ok []) ->
     rd a = p_wr p /\ p_closed p = true) /\
  (p_rd p `prefix_of` wr a /\
   (p_eof p = true -> p_rd p = wr a /\ fin_queued (tcb a) = true)).
Proof.
  intros R H1 H2. pose proof (reachable_Conn isn irs (a, p) R (conj H1 H2)) as HC.
  split; [by apply (Conn_reads isn irs)|]. split; apply HC.
Qed.

(** ** Retransmission *)

Lemma tx_chunk now n t :
  tx (send_chunk now n t) =
    tx t ++ [mkOut (local_port t) (remote t) (snd_nxt t) (rcv_nxt t) (Z.lor ACK PSH)
               (RECV_CAP - zlen (recv_buf t))
               (slice (data_before_cursor t) (data_before_cursor t + n) (send_buf t))].
Proof. unfold send_chunk. cbn zeta. by rewrite tx_arm, (proj1 (tx_advance _ _)). Qed.

Lemma tx_loop fuel now probe t : tx t `prefix_of` tx (output_loop fuel now probe t).
Proof.
  revert t. induction fuel as [|fuel IH]; intros t; simpl; destruct (_ =? 0); try done.
  etrans; [|apply IH]. rewrite tx_chunk. by eexists.
Qed.

Lemma tx_set_st x t : tx (set_st x t) = tx t.
Proof. done. Qed.

Lemma tx_output_end now t : tx t `prefix_of` tx (output_end now t).
Proof.
  unfold output_end. cbn zeta.
  assert (tx t `prefix_of` tx (if fin_due t then send_fin now t else t)) as H.
  { destruct (fin_due t); [|done]. unfold send_fin. rewrite tx_arm.
    rewrite tx_set_st. unfold fin_sent. cbn zeta. rewrite (proj1 (tx_advance _ _)). by eexists. }
  destruct (_ <? _); [by rewrite tx_arm|done].
Qed.

(** The first segment of a retransmission starts at the oldest byte. *)
Lemma resend now t :
  sending (st t) = true -> send_buf t <> [] -> 0 < mss t -> 0 <= snd_wnd t -> snd_nxt t = snd_una t ->
  exists o rest, tx (output now true t) = tx t ++ o :: rest /\ o_seq o = snd_una t /\
    o_payload o <> [] /\ o_payload o = slice 0 (zlen (o_payload o)) (send_buf t).
Proof.
  intros Hs Hb Hm Hw En. rewrite output_sending by done.
  assert (0 < zlen (send_buf t)) as Hl by (unfold zlen; destruct (send_buf t); [done|simpl; lia]).
  assert (data_before_cursor t = 0) as Ed.
  { unfold data_before_cursor. rewrite En, Z.sub_diag. change (u32 0) with 0. lia. }
  set (n := chunk_len true t).
  assert (1 <= n <= zlen (send_buf t)) as Hn.
  { unfold n, chunk_len, saturating_sub. rewrite Ed. cbn [andb].
    destruct (Z.eqb_spec (snd_wnd t) 0); cbn [andb]; rewrite ?Z.eqb_refl; lia. }
  destruct (length (send_buf t)) as [|fuel] eqn:El; [unfold zlen in Hl; lia|]. simpl.
  fold n. destruct (Z.eqb_spec n 0); [lia|].
  destruct (tx_output_end now (output_loop fuel now true (send_chunk now n t))) as [l1 E1].
  destruct (tx_loop fuel now true (send_chunk now n t)) as [l2 E2]. rewrite tx_chunk, Ed in E2.
  rewrite E1, E2. rewrite <- !app_assoc. eexists _, _. split; [reflexivity|]. simpl.
  rewrite zlen_slice by lia. split_and!; [exact En| |f_equal; lia].
  intros E. apply (f_equal zlen) in E. rewrite zlen_slice in E by lia. change (zlen []) with 0 in E. lia.
Qed.

(** An expiry before the retry limit sends from the oldest byte. *)
Lemma timer_tx now d t :
  sending (st t) = true -> deadline t = Some d -> d <= now -> retries t < MAX_RETRIES ->
  exists t2, tx (on_timer now t) = tx (output now true (set_snd_nxt (snd_una t2) t2)) /\
    (sending (st t2) = true /\ send_buf t2 = send_buf t /\ mss t2 = mss t /\ snd_wnd t2 = snd_wnd t) /\
    snd_una t2 = snd_una t /\ tx t2 = tx t.
Proof.
  intros Hs Ed Hn Hr. unfold on_timer. rewrite Ed, (proj2 (Z.ltb_ge now d)) by done. cbn zeta.
  destruct (decide (st (set_deadline None t) = FinWait2)) as [E|_].
  { simpl in E. by rewrite E in Hs. }
  destruct (Z.ltb_spec MAX_RETRIES (retries (set_retries (retries (set_deadline None t) + 1) (set_deadline None t))))
    as [E|_]; [simpl in E; lia|].
  set (t2 := set_rto _ _). exists t2. rewrite tx_arm.
  assert (sending (st t2) = true) as G1 by done.
  destruct (decide (st t2 = SynSent)) as [E|_]; [by rewrite E in G1|]. by split_and!.
Qed.

Lemma timer_resends now d t :
  sending (st t) = true -> deadline t = Some d -> d <= now -> retries t < MAX_RETRIES ->
  send_buf t <> [] -> 0 <= snd_wnd t -> 0 < mss t ->
  exists o rest, tx (on_timer now t) = tx t ++ o :: rest /\ o_seq o = snd_una t /\
    o_payload o <> [] /\ o_payload o = slice 0 (zlen (o_payload o)) (send_buf t).
Proof.
  intros Hs Ed Hn Hr Hb Hw Hm. destruct (timer_tx now d t Hs Ed Hn Hr) as (t2 & -> & (G1 & G2 & G3 & G4) & G5 & G6).
  rewrite <- G2, <- G5, <- G6.
  apply (resend now (set_snd_nxt (snd_una t2) t2)); [exact G1|simpl; congruence|simpl; lia|simpl; lia|done].
Qed.

Lemma timer_mss_zero now d t :
  sending (st t) = true -> deadline t = Some d -> d <= now -> retries t < MAX_RETRIES ->
  send_buf t <> [] -> 0 <= snd_wnd t -> mss t = 0 -> tx (on_timer now t) = tx t.
Proof.
  intros Hs Ed Hn Hr Hb Hw Hm. destruct (timer_tx now d t Hs Ed Hn Hr) as (t2 & -> & (G1 & G2 & G3 & G4) & G5 & G6).
  rewrite <- G6. set (t3 := set_snd_nxt (snd_una t2) t2).
  assert (sending (st t3) = true /\ send_buf t3 = send_buf t /\ mss t3 = 0 /\ snd_wnd t3 = snd_wnd t /\
    snd_nxt t3 = snd_una t3 /\ tx t3 = tx t2) as (K1 & K2 & K3 & K4 & K5 & <-) by (split_and!; done || (simpl; congruence)).
  clearbody t3. assert (0 < zlen (send_buf t3)) as Hl by (rewrite K2; unfold zlen; destruct (send_buf t); [done|simpl; lia]).
  assert (data_before_cursor t3 = 0) as E0.
  { unfold data_before_cursor. rewrite K5, Z.sub_diag. change (u32 0) with 0. lia. }
  assert (chunk_len true t3 = 0) as Ec.
  { unfold chunk_len, saturating_sub. rewrite E0, K3, K4. destruct (_ && _); lia. }
  rewrite output_sending by done. assert (forall n, output_loop n now true t3 = t3) as ->.
  { intros n. destruct n; simpl; by rewrite Ec. }
  unfold output_end, fin_due. rewrite K5, Z.sub_diag. change (u32 0) with 0.
  rewrite (proj2 (Z.eqb_neq 0 (zlen (send_buf t3)))), andb_false_r by lia. cbn [andb].
  destruct (_ <? _); [by rewrite tx_arm|done].
Qed.

(** One expiry of a connection that waits for an acknowledgement. *)
Lemma fire_once now d t :
  sending (st t) = true \/ st t = SynSent -> deadline t = Some d -> d <= now ->
  (retries t < MAX_RETRIES ->
     (sending (st (on_timer now t)) = true \/ st (on_timer now t) = SynSent) /\
     deadline (on_timer now t) <> None /\ retries (on_timer now t) = retries t + 1) /\
  (MAX_RETRIES <= retries t -> st (on_timer now t) = Closed /\ error (on_timer now t) = Some TimedOut).
Proof.
  intros Hs Ed Hn. unfold on_timer. rewrite Ed, (proj2 (Z.ltb_ge now d)) by done. cbn zeta.
  destruct (decide (st (set_deadline None t) = FinWait2)) as [E|_].
  { simpl in E. rewrite E in Hs. by destruct Hs. }
  set (t1 := set_retries _ _).
  assert (st t1 = st t /\ retries t1 = retries t + 1) as [E1 E2] by done. clearbody t1.
  destruct (Z.ltb_spec MAX_RETRIES (retries t1)); (split; [intros Hr|intros Hr]); try lia; [done|].
  set (t2 := set_snd_nxt _ _).
  assert (st t2 = st t /\ retries t2 = retries t + 1) as [E3 E4] by done. clearbody t2.
  split_and!; [|apply deadline_arm|].
  - rewrite (proj1 (st_arm _ _)). destruct (st_output now true t2) as [->| ->]; rewrite E3; [done|].
    destruct Hs as [Hs|Hs]; [left; by destruct (st t)|right; by rewrite Hs].
  - pose proof (core_arm now (output now true t2)) as Ec. rewrite core_output in Ec. unfold core in Ec. congruence.
Qed.

(** C9: no written byte is forgotten.  While the peer of a connection has not
    acknowledged everything that was written (both streams being shorter than
    2^31 - 2 bytes), the connection's timer is armed.  When it fires after at
    most [MAX_RETRIES] retries, it is armed again, the retry is counted, and the
    connection transmits again, starting with the oldest unacknowledged byte,
    even into a closed window; only to a peer that announced a maximum segment
    size of 0 nothing can be sent.  The expiry after the last retry closes the
    connection with [TimedOut]. *)
Theorem tcp_retransmits isn irs a p :
  reachable isn irs (a, p) -> zlen (wr a) < 2 ^ 31 - 2 -> zlen (p_wr p) < 2 ^ 31 - 2 ->
  sending (st (tcb a)) = true -> send_buf (tcb a) <> [] ->
  exists d, deadline (tcb a) = Some d /\ forall now, d <= now ->
    let t := on_timer now (tcb a) in
    (retries (tcb a) < MAX_RETRIES ->
       deadline t <> None /\ retries t = retries (tcb a) + 1 /\
       (0 < mss (tcb a) -> exists o rest, tx t = tx (tcb a) ++ o :: rest /\
          o_seq o = snd_una (tcb a) /\ o_payload o <> [] /\
          o_payload o = slice 0 (zlen (o_payload o)) (send_buf (tcb a))) /\
       (mss (tcb a) = 0 -> tx t = tx (tcb a))) /\
    (MAX_RETRIES <= retries (tcb a) -> st t = Closed /\ error t = Some TimedOut).
Proof.
  intros R H1 H2 Hs Hbuf. destruct (reachable_Conn isn irs (a, p) R (conj H1 H2)) as [[H0 HA] _ _ _ _].
  simpl in H0, HA. assert (0 <= snd_wnd (tcb a)) as Hw.
  { destruct (ep_snd _ _ _ _ _ _ H0) as [E|(? & ? & ? & HS & _)]; [by rewrite E in Hs|]. apply (sy_wnd _ _ _ _ _ HS). }
  destruct (deadline (tcb a)) as [d|] eqn:Ed; [|by destruct (proj1 HA Hs (or_intror (or_introl Hbuf)))].
  exists d. split; [done|]. intros now Hn t. destruct (fire_once now d (tcb a) (or_introl Hs) Ed Hn) as [F1 F2].
  split; [|exact F2]. intros Hr. destruct (F1 Hr) as (_ & G2 & G3). split_and!; [done|done|..].
  - intros Hm. by apply (timer_resends now d).
  - intros Hm. by apply (timer_mss_zero now d).
Qed.

(** ** A silent peer *)

(** [n] expiries of the timer, each at its deadline. *)
Fixpoint fire (n : nat) (t : Tcb) : Tcb :=
  match n with
  | O => t
  | S n => fire n (match deadline t with Some d => on_timer d t | None => t end)
  end.

Lemma fire_more n t : sending (st t) = true \/ st t = SynSent -> deadline t <> None ->
  0 <= retries t -> retries t + Z.of_nat n = MAX_RETRIES + 1 -> (1 <= n)%nat ->
  st (fire n t) = Closed /\ error (fire n t) = Some TimedOut.
Proof.
  revert t. induction n as [|n IH]; intros t Hs Hd Hr Hn H1; [lia|]. simpl.
  destruct (deadline t) as [d|] eqn:Ed; [|done].
  destruct (fire_once d d t Hs Ed ltac:(lia)) as [F1 F2]. destruct n as [|n].
  - simpl. apply F2. lia.
  - destruct F1 as (G1 & G2 & G3); [lia|]. apply IH; [done|done|lia|lia|lia].
Qed.

(** A connection whose peer has gone silent ends.  A connection
    that waits for an acknowledgement (of its SYN, its data or its FIN) and
    hears nothing is closed with [TimedOut] after at most [MAX_RETRIES + 1]
    expiries of its timer, never earlier than the last of them. *)
Theorem tcp_silent_peer_times_out t :
  sending (st t) = true \/ st t = SynSent -> deadline t <> None -> 0 <= retries t <= MAX_RETRIES ->
  st (fire (Z.to_nat (MAX_RETRIES + 1 - retries t)) t) = Closed /\
  error (fire (Z.to_nat (MAX_RETRIES + 1 - retries t)) t) = Some TimedOut.
Proof. intros Hs Hd Hr. apply fire_more; try done; lia. Qed.

Lemma tcp_silent_peer_times_out_witness :
  st (fire 7 (open 50000 (mkEndpoint [10; 0; 2; 2] 80) 1000 0 Tcb_new)) = Closed /\
  st (fire 6 (open 50000 (mkEndpoint [10; 0; 2; 2] 80) 1000 0 Tcb_new)) = SynSent.
Proof.
  split; [|reflexivity].
  apply (tcp_silent_peer_times_out (open 50000 (mkEndpoint [10; 0; 2; 2] 80) 1000 0 Tcb_new));
    [by right|done|done].
Defined.

(** ** Examples *)

Definition demo_ipb : list Z := [10; 0; 2; 2].

(** A connection after its handshake; our stream starts at the wrap of the
    sequence numbers. *)
Definition demo_syn_ack : Segment := mkSegment 80 50000 7 0 (Z.lor SYN ACK) 65535 (Some 1460) [].
Definition demo_a : Tcb :=
  mkTcb Established 50000 (mkEndpoint demo_ipb 80) 0xFFFFFFFF 0 0 0 65535 1460 [] false None false 8 []
    false false RECV_CAP None INITIAL_RTO 0 None
    [mkOut 50000 (mkEndpoint demo_ipb 80) 0xFFFFFFFF 0 SYN RECV_CAP [];
     mkOut 50000 (mkEndpoint demo_ipb 80) 0 8 ACK RECV_CAP []].

Lemma demo_connected : connected 0xFFFFFFFF 7 demo_a.
Proof.
  exists 50000, (mkEndpoint demo_ipb 80), 0, 0, demo_syn_ack. split; [|split; [|vm_compute; reflexivity]].
  - repeat split; try done; bytes_lit; done.
  - repeat split; try done. intros m [= <-]. done.
Qed.

(** The program writes two bytes and the peer takes them; the peer writes two
    bytes, closes, and sends both in one segment with its FIN. *)
Definition demo_data : list Z := [104; 105].
Definition demo_a1 : ep :=
  mkEp (write_round 0 demo_data 0 demo_a).1.1
       ([] ++ slice 0 (write_round 0 demo_data 0 demo_a).1.2 demo_data) [].
Definition demo_o : Out := mkOut 50000 (mkEndpoint demo_ipb 80) 0 8 (Z.lor ACK PSH) RECV_CAP demo_data.
Definition demo_p0 : peer := mkPeer [] false [] false.
Definition demo_p : peer := mkPeer [111; 107] true ([] ++ slice 0 2 demo_data) false.
Definition demo_seg : Segment := mkSegment 80 50000 8 2 (Z.lor ACK FIN) 65535 None [111; 107].
Definition demo_a2 : ep := mkEp (on_segment demo_seg 1 (tcb demo_a1)) (wr demo_a1) [].
Definition demo_a3 : ep :=
  mkEp (read_round 10 (tcb demo_a2)).1 (wr demo_a2) ([] ++ read_bytes (read_round 10 (tcb demo_a2)).2).

Lemma demo_written : reachable 0xFFFFFFFF 7 (demo_a1, demo_p0).
Proof.
  exists demo_a. split; [exact demo_connected|]. eapply rtc_l; [|apply rtc_refl]. apply s_local.
  apply (l_write 0 demo_data 0 (mkEp demo_a [] [])); [done|bytes_lit; done|done].
Qed.

Lemma demo_sent : demo_o ∈ tx (tcb demo_a1).
Proof. vm_compute. right. right. left. Qed.

Lemma demo_incoming : incoming (wr demo_a1) (p_wr demo_p) (p_closed demo_p) 0xFFFFFFFF 7 demo_seg.
Proof.
  constructor; simpl; [|done| |done].
  - intros _. exists 0. by split_and!.
  - intros _. exists 3. by split_and!.
Qed.

Lemma demo_run : reachable 0xFFFFFFFF 7 (demo_a3, demo_p).
Proof.
  destruct demo_written as (t & Ht & R). exists t. split; [done|].
  eapply rtc_r; [eapply rtc_r; [eapply rtc_r; [eapply rtc_r; [eapply rtc_r; [exact R|]|]|]|]|].
  - apply s_peer, (p_write _ _ [111; 107] demo_p0). done.
  - apply s_peer, (p_accept _ _ demo_o 0 2 (mkPeer [111; 107] false [] false)); [exact demo_sent|done|done|done].
  - apply s_peer, (p_close _ _ (mkPeer [111; 107] false ([] ++ slice 0 2 demo_data) false)).
  - apply (s_arrive _ _ demo_a1 demo_p demo_seg 1 demo_incoming).
  - apply s_local, (l_read 10 demo_a2); [reflexivity|done].
Qed.

Lemma tcp_stream_delivery_witness :
  rd demo_a3 = [111; 107] /\ rd demo_a3 = p_wr demo_p /\ p_closed demo_p = true /\ p_rd demo_p `prefix_of` wr demo_a3.
Proof.
  split; [reflexivity|].
  destruct (tcp_stream_delivery 0xFFFFFFFF 7 demo_a3 demo_p demo_run ltac:(done) ltac:(done)) as [[_ E] [P _]].
  destruct (E 10) as [E1 E2]; [done|reflexivity|reflexivity|]. by split_and!.
Defined.

Lemma tcp_retransmits_witness :
  send_buf (tcb demo_a1) = demo_data /\
  exists d, deadline (tcb demo_a1) = Some d /\ forall now, d <= now ->
    exists o rest, tx (on_timer now (tcb demo_a1)) = tx (tcb demo_a1) ++ o :: rest /\
      o_seq o = snd_una (tcb demo_a1) /\ o_payload o <> [] /\
      o_payload o = slice 0 (zlen (o_payload o)) (send_buf (tcb demo_a1)).
Proof.
  split; [vm_compute; reflexivity|].
  destruct (tcp_retransmits 0xFFFFFFFF 7 demo_a1 demo_p0 demo_written) as (d & Ed & H);
    [done|done|reflexivity|vm_compute; intros E; discriminate E|].
  exists d. split; [exact Ed|]. intros now Hn. destruct (H now Hn) as [H1 _].
  destruct H1 as (_ & _ & H1 & _); [reflexivity|]. apply H1. reflexivity.
Defined.

(** ** Two wrong behaviours *)

(** A connection with unsent data in a closed window and nothing in flight. *)
Definition stalled : Tcb :=
  set_snd_wnd 0 (set_send_buf [1; 2; 3] demo_a).

(** An acknowledgement 2^31 after [snd_una] passes both comparisons when
    nothing is in flight, [seq_lt] and [seq_le] both being true of numbers half
    the sequence space apart: the data, which was never sent, is dropped, and
    the send sequence jumps. *)
Lemma ack_half_space :
  tx stalled = tx demo_a /\
  let t := on_segment (mkSegment 80 50000 8 (2 ^ 31) ACK 65535 None []) 0 stalled in
  send_buf t = [] /\ tx t = tx demo_a /\ snd_una t = 2 ^ 31 /\ snd_max t = 0.
Proof. repeat split. Qed.

(** A SYN-ACK whose MSS option is 0 is accepted, and the connection can never
    send a byte: no chunk is ever longer than 0. *)
Lemma mss_zero_stalls :
  let t := on_segment (mkSegment 80 50000 7 1001 (Z.lor SYN ACK) 65535 (Some 0) []) 0
             (open 50000 (mkEndpoint demo_ipb 80) 1000 0 Tcb_new) in
  st t = Established /\ mss t = 0 /\
  let '(t', written, _) := write_round 0 [1; 2; 3] 0 t in
  written = 3 /\ tx t' = tx t /\ tx (on_timer 1000 t') = tx t.
Proof. vm_compute. repeat split. Qed.

End TcpTheorems.
