(* ===== verification/NetTcp.v ===== *)
(** The segments a TCP connection sends fit their buffer whatever arrives: the
    part of the TCP handlers the receive path needs so as not to panic. *)

From S2P Require Import Prelude Checksum Tcp.

Module NetTcp.
Import Tcp.

Definition small_out (o : Out) : Prop := zlen (o_payload o) <= MSS.

(** A connection whose segments are small. *)
Record small (t : Tcb) : Prop := {
  sm_mss : mss t <= MSS;
  sm_tx : Forall small_out (tx t);
}.

(** The fields [small] looks at. *)
Lemma small_view t t' : mss t' = mss t -> tx t' = tx t -> small t -> small t'.
Proof. intros E1 E2 [H1 H2]. split; [by rewrite E1|by rewrite E2]. Qed.

Create HintDb small.

Lemma small_new : small Tcb_new.
Proof. by split; [|constructor]. Qed.

Lemma small_emit o t : small_out o -> small t -> small (emit o t).
Proof. intros Ho [H1 H2]. split; [done|]. apply Forall_app. auto. Qed.

Lemma small_send fl sq d t : zlen d <= MSS -> small t -> small (send fl sq d t).
Proof. intros Hd Ht. apply small_emit; [done|]. by apply (small_view t). Qed.

Lemma small_send_ack t : small t -> small (send_ack t).
Proof. by apply small_send. Qed.

Lemma small_advance n t : small t -> small (advance n t).
Proof. apply small_view; unfold advance; by destruct (seq_lt _ _). Qed.

Lemma small_arm now t : small t -> small (arm now t).
Proof. apply small_view; unfold arm; by destruct (deadline t). Qed.

Lemma small_fail e t : small t -> small (fail e t).
Proof. by apply small_view. Qed.

#[local] Hint Resolve small_send_ack small_advance small_arm small_fail : small.

Lemma zlen_slice_le {A} lo hi (l : list A) : zlen (slice lo hi l) <= Z.max 0 (hi - lo).
Proof. unfold slice, zlen. rewrite length_take, length_drop. lia. Qed.

Lemma small_chunk now n t : n <= MSS -> small t -> small (send_chunk now n t).
Proof.
  intros Hn Ht. apply small_arm, small_advance, small_send; [|done].
  etrans; [apply zlen_slice_le|]. unfold MSS in *. lia.
Qed.

Lemma small_loop fuel now probe t : small t -> small (output_loop fuel now probe t).
Proof.
  revert t. induction fuel as [|fuel IH]; intros t Ht; simpl; [by destruct (_ =? 0)|].
  destruct (_ =? 0); [done|]. apply IH, small_chunk; [|done].
  unfold chunk_len. pose proof (sm_mss t Ht). lia.
Qed.

Lemma small_fin now t : small t -> small (send_fin now t).
Proof.
  intros Ht. apply small_arm, (small_view (fin_sent t)); [done|done|].
  apply small_advance, small_send; [done|]. by apply (small_view t).
Qed.

Lemma small_output now probe t : small t -> small (output now probe t).
Proof.
  intros Ht. unfold output.
  assert (small (arm now (advance 1 (send SYN (iss t) [] t)))).
  { apply small_arm, small_advance, small_send; done. }
  assert (small (let t := output_loop (length (send_buf t)) now probe t in
    let t := if fin_due t then send_fin now t else t in
    if data_before_cursor t <? zlen (send_buf t) then arm now t else t)) as G.
  { cbv zeta. pose proof (small_loop (length (send_buf t)) now probe t Ht) as Hl.
    destruct (fin_due _); destruct (_ <? _); auto using small_arm, small_fin. }
  destruct (st t); try done; try exact G. by destruct (_ =? _).
Qed.

#[local] Hint Resolve small_output : small.

Lemma small_syn_sent seg now t : small t -> small (on_syn_sent seg now t).
Proof.
  intros Ht. unfold on_syn_sent. destruct (_ && _).
  { destruct (has _ _); [done|]. by apply small_emit. }
  destruct (has _ RST); [destruct (has _ _); auto with small|]. destruct (_ =? _); [|done].
  apply small_output, small_send_ack. split; [|apply Ht]. simpl. lia.
Qed.

Lemma small_take_ack seg now t : small t -> small (take_ack seg now t).
Proof.
  apply small_view; unfold take_ack, ack_fin; destruct (fin_acked _); try done;
    by destruct (st (ack_data seg now t)).
Qed.

Lemma small_take_data seg t : small t -> small (take_data seg t).
Proof. apply small_view; unfold take_data; destruct (_ && _); try done; by destruct (_ && _). Qed.

Lemma small_after_ack seg now t : small t -> small (after_ack seg now t).
Proof.
  intros Ht. apply small_output. assert (small (set_snd_wnd (window seg) t)) as H by by apply (small_view t).
  destruct (_ || _); [|done]. by apply small_send_ack, small_take_data.
Qed.

#[local] Hint Resolve small_after_ack small_take_ack small_syn_sent : small.

Lemma small_on_segment seg now t : small t -> small (on_segment seg now t).
Proof.
  intros Ht. assert (small (set_retries 0 t)) as Hr by by apply (small_view t).
  unfold on_segment. destruct (st t); auto with small;
    repeat (match goal with |- context [if ?b then _ else _] => destruct b end); auto with small.
Qed.

Lemma small_on_timer now t : small t -> small (on_timer now t).
Proof.
  intros Ht. unfold on_timer. destruct (deadline t); [|done]. destruct (_ <? _); [done|].
  case_decide; [by apply (small_view t)|]. cbv zeta. destruct (_ <? _).
  { apply small_fail. by apply (small_view t). }
  apply small_arm, small_output. by apply (small_view t).
Qed.

(** ** The connection table *)

(** Every connection and every reset is small. *)
Record small_tcp (s : tcp) : Prop := {
  st_tcbs : Forall small (tcbs s);
  st_resets : Forall small_out (resets s);
}.

Lemma small_upd c f s :
  (forall t, small t -> small (f t)) -> small_tcp s -> small_tcp (upd_tcb c f s).
Proof. intros Hf [H1 H2]. split; [|done]. apply Forall_alter; auto. Qed.

Lemma small_reap c s : small_tcp s -> small_tcp (reap c s).
Proof.
  intros [H1 H2]. unfold reap. destruct (tcbs s !! c) as [t|]; [|by split].
  case_decide; by split.
Qed.

Lemma small_incoming src dst segment now s :
  small_tcp s -> small_tcp (handle_incoming src dst segment now s).
Proof.
  intros Hs. unfold handle_incoming. destruct (transport_checksum _ _ _ _) as [[]| | |]; try done.
  destruct (parse segment) as [seg|]; [|done]. destruct (lookup_conn _ _ _) as [c|].
  - apply small_reap. destruct (small_upd c (on_segment seg now) s) as [H1 H2]; [|done|by split].
    intros t. apply small_on_segment.
  - destruct Hs as [H1 H2]. unfold no_connection.
    destruct (has _ _); [by split|]. destruct (has _ _); split; try done; simpl;
      apply Forall_app; (split; [done|]); by constructor.
Qed.

Lemma small_timer now s c : small_tcp s -> small_tcp (timer_conn now s c).
Proof.
  intros Hs. unfold timer_conn. destruct (tcbs s !! c) as [t|]; [|done]. apply small_reap.
  destruct (match deadline t with Some d => d <=? now | None => false end); [|done].
  destruct (small_upd c (on_timer now) s) as [H1 H2]; [|done|by split].
  intros t'. apply small_on_timer.
Qed.

(** ** No segment overflows its buffer *)

Lemma add_words_range l x : 0 <= x < 2 ^ 32 -> 0 <= add_words l x < 2 ^ 32.
Proof.
  revert x. induction l as [|a|a b l IH] using pair_ind; intros x Hx; simpl; [done| |].
  - unfold u32. by apply Z.mod_pos_bound.
  - apply IH. unfold u32. by apply Z.mod_pos_bound.
Qed.

Lemma transport_checksum_total src dst protocol segment :
  exists c, transport_checksum src dst protocol segment = Ok c.
Proof.
  unfold transport_checksum. eexists. apply finish_sum, add_words_range.
  unfold pseudo_sum, u32. by apply Z.mod_pos_bound.
Qed.

Lemma segment_bytes_total local_ip o :
  small_out o -> exists b, segment_bytes local_ip o = Ok b.
Proof.
  intros Ho. unfold segment_bytes, small_out, HEADER_LEN in *.
  rewrite (proj2 (Z.ltb_ge _ _)) by (destruct (has _ _); lia).
  destruct (transport_checksum_total local_ip (ip (o_remote o)) PROTOCOL
    (segment_header o ++ [0; 0] ++ segment_tail o)) as [c ->]. eauto.
Qed.

End NetTcp.
