(* ===== verification/Udp.v ===== *)
(** UDP sockets, src/src/drivers/net/udp.rs: the table of bound ports, the
    queues of received datagrams and the wire format.  A socket ([Arc<UdpSocket>])
    is its index in [socks]; what runs under the locks of the table or of a
    socket is one function.  The table holds weak references: [strong] says
    whether a socket still has a strong one.  Sending needs the layers below
    and is in Net. *)

From S2P Require Import Prelude Checksum Dns Tcp.
Open Scope kmonad_scope.

Module Udp.
Import Tcp(Endpoint, mkEndpoint, ip, port, outcome, Return, Wait).
#[export] Existing Instance Tcp.Endpoint_eq_dec.

Definition PROTOCOL : Z := 17.
Definition HEADER_LEN : Z := 8.
Definition MAX_PAYLOAD : Z := 1500 - 20 - HEADER_LEN.
Definition QUEUE_DATAGRAMS : Z := 16.
Definition EPHEMERAL_FIRST : Z := 50000.

Record Datagram : Type := mkDatagram { from : Endpoint; data : list Z }.

Record State : Type := mkState {
  local_port : Z;
  peer : option Endpoint;
  queue : list Datagram;
}.

Record Socket : Type := mkSocket { state : State; strong : bool }.

(** [PORTS], [NEXT_EPHEMERAL] and the sockets. *)
Record udp : Type := mkUdp {
  socks : list Socket;
  ports : list (Z * nat);
  next_ephemeral : Z;
}.

Definition set_socks (x : list Socket) (s : udp) : udp := mkUdp x (ports s) (next_ephemeral s).
Definition set_ports (x : list (Z * nat)) (s : udp) : udp := mkUdp (socks s) x (next_ephemeral s).
Definition set_next (x : Z) (s : udp) : udp := mkUdp (socks s) (ports s) x.

Definition upd_state (f : State -> State) (k : Socket) : Socket := mkSocket (f (state k)) (strong k).
Definition upd (i : nat) (f : State -> State) (s : udp) : udp :=
  set_socks (alter (upd_state f) i (socks s)) s.
Definition set_port (p : Z) (t : State) : State := mkState p (peer t) (queue t).
Definition set_peer (p : Endpoint) (t : State) : State := mkState (local_port t) (Some p) (queue t).
Definition set_queue (q : list Datagram) (t : State) : State := mkState (local_port t) (peer t) q.

(** The table at boot. *)
Definition init : udp := mkUdp [] [] EPHEMERAL_FIRST.

(** ** Sockets and ports *)

(** [UdpSocket::new] *)
Definition new_socket (s : udp) : udp * nat :=
  (set_socks (socks s ++ [mkSocket (mkState 0 None []) true]) s, length (socks s)).

(** [socket.strong_count() > 0] *)
Definition alive (s : udp) (i : nat) : bool :=
  match socks s !! i with Some k => strong k | None => false end.

Definition in_use (p : Z) (l : list (Z * nat)) : bool :=
  (p =? Dns.SRC_PORT) || existsb (fun e => e.1 =? p) l.

(** The search for an ephemeral port: the new [NEXT_EPHEMERAL] and the port. *)
Fixpoint pick_port (span : nat) (next : Z) (l : list (Z * nat)) : Z * option Z :=
  match span with
  | O => (next, None)
  | S span =>
      let next' := if next =? u16_max then EPHEMERAL_FIRST else next + 1 in
      if in_use next l then pick_port span next' l else (next', Some next)
  end.

Definition span : nat := Z.to_nat (u16_max - EPHEMERAL_FIRST + 1).

Definition assign (i : nat) (p : Z) (s : udp) : udp :=
  upd i (set_port p) (set_ports (ports s ++ [(p, i)]) s).

Definition bind_port (i : nat) (p : Z) (implicit : bool) : M udp Z := fun s =>
  let s := set_ports (filter (fun e => alive s e.2 = true) (ports s)) s in
  match socks s !! i with
  | None => (s, Panic)
  | Some k =>
      let bound := local_port (state k) in
      if negb (bound =? 0) then (s, if implicit then Ok bound else Err InvalidArgument)
      else if negb (p =? 0) then
        if in_use p (ports s) then (s, Err AddressInUse) else (assign i p s, Ok p)
      else
        let '(next, chosen) := pick_port span (next_ephemeral s) (ports s) in
        let s := set_next next s in
        match chosen with
        | None => (s, Err AddressInUse)
        | Some p => (assign i p s, Ok p)
        end
  end.

Definition bind (i : nat) (p : Z) : M udp Z := bind_port i p false.

(** [self.state.lock()], read *)
Definition get_state (i : nat) : M udp State := fun s =>
  (s, match socks s !! i with Some k => Ok (state k) | None => Panic end).

Definition ensure_bound (i : nat) : M udp Z :=
  let! t := get_state i in
  if negb (local_port t =? 0) then kret (local_port t) else bind_port i 0 true.

(** The critical section of [connect]. *)
Definition set_connected (i : nat) (p : Endpoint) : udp -> udp :=
  upd i (fun t => set_queue (filter (fun d => from d = p) (queue t)) (set_peer p t)).

Definition connect (i : nat) (p : Endpoint) : M udp unit :=
  if port p =? 0 then kfail InvalidArgument else
  run! ensure_bound i in
  modify (set_connected i p).

(** The destination of [send_to], lines 117-126. *)
Definition destination (i : nat) (dest : option Endpoint) (len : Z) : M udp Endpoint :=
  if MAX_PAYLOAD <? len then kfail InvalidArgument else
  let! d := match dest with
            | Some d => kret d
            | None => let! t := get_state i in ok_or (peer t) NotConnected
            end in
  if port d =? 0 then kfail InvalidArgument else kret d.

(** The segment of [send_to], lines 130-140. *)
Definition header (lport : Z) (dest : Endpoint) (len : Z) : list Z :=
  be_bytes 2 lport ++ be_bytes 2 (port dest) ++ be_bytes 2 (HEADER_LEN + len).

Definition segment_bytes (src_ip : list Z) (lport : Z) (dest : Endpoint) (payload : list Z)
  : res (list Z) :=
  let h := header lport dest (zlen payload) in
  match transport_checksum src_ip (ip dest) PROTOCOL (h ++ [0; 0] ++ payload) with
  | Ok sum => Ok (h ++ be_bytes 2 (if sum =? 0 then 0xFFFF else sum) ++ payload)
  | Err e => Err e
  | Panic => Panic
  | Hang => Hang
  end.

(** ** Receiving *)

(** The deadline of [recv_from]. *)
Definition recv_deadline (timeout : option Z) (now : Z) : option Z :=
  (fun ticks => saturating_add64 now (Z.max ticks 1)) <$> timeout.

(** One round of the loop of [recv_from] with a buffer of [len] bytes: the
    bytes copied out and their sender. *)
Definition recv_round (i : nat) (len : Z) (deadline : option Z) (now : Z)
  : udp -> udp * outcome (list Z * Endpoint) := fun s =>
  match socks s !! i with
  | None => (s, Return Panic)
  | Some k =>
      if local_port (state k) =? 0 then (s, Return (Err NotConnected)) else
      match queue (state k) with
      | d :: q =>
          let n := Z.min (zlen (data d)) len in
          (upd i (set_queue q) s, Return (Ok (slice 0 n (data d), from d)))
      | [] =>
          (s, match deadline with
              | Some t => if t <=? now then Return (Err TimedOut) else Wait
              | None => Wait
              end)
      end
  end.

(** The last strong reference goes; then [Drop for UdpSocket] runs. *)
Definition release (i : nat) (s : udp) : udp :=
  set_socks (alter (fun k => mkSocket (state k) false) i (socks s)) s.
Definition drop_socket (i : nat) (s : udp) : udp :=
  set_ports (filter (fun e => e.2 <> i) (ports s)) s.

(** What [handle_incoming] did with a segment: it passed it to the DNS client,
    it queued it and woke the readers of a socket, or it did nothing. *)
Inductive delivery : Type :=
| Ignored
| ToDns (segment : list Z)
| Queued (i : nat).

(** The socket bound to a port, lines 209-213. *)
Definition find_socket (p : Z) (s : udp) : option nat :=
  match first_such (fun e => e.1 =? p) (ports s) with
  | Some e => if alive s e.2 then Some e.2 else None
  | None => None
  end.

(** Lines 218-226. *)
Definition accepts (e : Endpoint) (t : State) : bool :=
  negb (match peer t with Some p => negb (bool_decide (p = e)) | None => false end ||
        (QUEUE_DATAGRAMS <=? zlen (queue t))).

Definition deliver (i : nat) (d : Datagram) (s : udp) : udp * delivery :=
  match socks s !! i with
  | Some k =>
      if accepts (from d) (state k)
      then (upd i (fun t => set_queue (queue t ++ [d]) t) s, Queued i)
      else (s, Ignored)
  | None => (s, Ignored)
  end.

Definition handle_incoming (src_ip dst_ip segment : list Z) : M udp delivery := fun s =>
  if zlen segment <? HEADER_LEN then (s, Ok Ignored) else
  let src_port := be16 (byte_at segment 0) (byte_at segment 1) in
  let dst_port := be16 (byte_at segment 2) (byte_at segment 3) in
  let len := be16 (byte_at segment 4) (byte_at segment 5) in
  if (len <? HEADER_LEN) || (zlen segment <? len) then (s, Ok Ignored) else
  let segment := slice 0 len segment in
  let verified :=
    if bool_decide (slice 6 8 segment = [0; 0]) then Ok 0
    else transport_checksum src_ip dst_ip PROTOCOL segment in
  match verified with
  | Ok sum =>
      if negb (sum =? 0) then (s, Ok Ignored)
      else if dst_port =? Dns.SRC_PORT then (s, Ok (ToDns segment))
      else
        match find_socket dst_port s with
        | None => (s, Ok Ignored)
        | Some i =>
            let d := mkDatagram (mkEndpoint src_ip src_port) (slice HEADER_LEN len segment) in
            let '(s, r) := deliver i d s in (s, Ok r)
        end
  | Err e => (s, Err e)
  | Panic => (s, Panic)
  | Hang => (s, Hang)
  end.

End Udp.
