(* ===== verification/UdpInv.v ===== *)
(** What the UDP socket table promises: every reachable state is well formed
    ([wf]: ports are distinct 16-bit numbers owned by one live socket each,
    queues are bounded and hold only what the socket may receive), a bind gives
    a free port whenever there is one, and the datagrams of one socket come out
    in the order in which they were accepted. *)

From S2P Require Import Prelude Checksum Dns Tcp Udp.
Open Scope kmonad_scope.

Module UdpInv.
Import Tcp(Endpoint, mkEndpoint, ip, port, outcome, Return, Wait).
Import Udp.

(** ** Well-formedness *)

Definition endpoint_ok (e : Endpoint) : Prop := ip_ok (ip e) /\ 0 <= port e < 2 ^ 16.

Definition datagram_ok (d : Datagram) : Prop :=
  endpoint_ok (from d) /\ bytes_ok (data d) /\ zlen (data d) <= u16_max - HEADER_LEN.

(** A port a socket may own. *)
Definition port_ok (p : Z) : Prop := 0 < p <= u16_max /\ p <> Dns.SRC_PORT.

(** The state of one socket.  An unbound socket has no peer and no datagrams,
    a connected one only datagrams of its peer. *)
Record state_ok (t : State) : Prop := {
  t_port : local_port t = 0 \/ port_ok (local_port t);
  t_queue : zlen (queue t) <= QUEUE_DATAGRAMS;
  t_data : Forall datagram_ok (queue t);
  t_unbound : local_port t = 0 -> peer t = None /\ queue t = [];
  t_peer : forall p, peer t = Some p ->
    endpoint_ok p /\ port p <> 0 /\ Forall (fun d => from d = p) (queue t);
}.

(** The table: an entry has the port of its socket, no port and no socket is
    there twice, every bound socket in use is there. *)
Record wf (s : udp) : Prop := {
  w_state i k : socks s !! i = Some k -> state_ok (state k);
  w_entry p i : (p, i) ∈ ports s ->
    port_ok p /\ exists k, socks s !! i = Some k /\ local_port (state k) = p;
  w_ports : NoDup (ports s).*1;
  w_socks : NoDup (ports s).*2;
  w_bound i k : socks s !! i = Some k -> strong k = true -> local_port (state k) <> 0 ->
    (local_port (state k), i) ∈ ports s;
  w_next : EPHEMERAL_FIRST <= next_ephemeral s <= u16_max;
}.

Lemma init_wf : wf init.
Proof.
  split; simpl; try constructor; try (intros; set_solver); done.
Qed.

(** ** Steps *)

(** The critical sections of the operations, in any order.  Who operates on a
    socket holds a strong reference to it; [connect] runs its critical section
    after [ensure_bound]. *)
Inductive step : udp -> udp -> Prop :=
| step_new s : step s (new_socket s).1
| step_bind s i p implicit :
    alive s i = true -> 0 <= p < 2 ^ 16 -> step s (bind_port i p implicit s).1
| step_connect s i k e :
    socks s !! i = Some k -> strong k = true -> local_port (state k) <> 0 ->
    endpoint_ok e -> port e <> 0 -> step s (set_connected i e s)
| step_recv s i len deadline now :
    alive s i = true -> 0 <= len -> step s (recv_round i len deadline now s).1
| step_incoming s src dst segment :
    ip_ok src -> bytes_ok segment -> step s (handle_incoming src dst segment s).1
| step_release s i : alive s i = true -> step s (release i s)
| step_drop s i : alive s i = false -> step s (drop_socket i s).

Lemma alter_Some {A} (f : A -> A) (i : nat) (l : list A) (j : nat) x :
  alter f i l !! j = Some x -> (i = j /\ exists y, l !! j = Some y /\ x = f y) \/ l !! j = Some x.
Proof.
  rewrite list_lookup_alter. case_decide as E; [subst|auto].
  destruct (l !! j) as [y|]; simpl; [|discriminate]. intros [= <-]. eauto.
Qed.

Lemma NoDup_fmap_filter {A B} (g : A -> B) (Q : A -> Prop) `{forall x, Decision (Q x)} l :
  NoDup (g <$> l) -> NoDup (g <$> filter Q l).
Proof.
  induction l as [|x l IH]; [done|]. simpl. intros [Hx Hl]%NoDup_cons. rewrite filter_cons.
  case_decide; [|by apply IH]. simpl. apply NoDup_cons. split; [|by apply IH].
  intros (y & Ey & Hy)%list_elem_of_fmap. apply list_elem_of_filter in Hy as [_ Hy].
  apply Hx, list_elem_of_fmap. eauto.
Qed.

(** Changing the state of one socket without its port. *)
Lemma upd_wf i f s :
  wf s ->
  (forall k, socks s !! i = Some k -> state_ok (f (state k)) /\
     local_port (f (state k)) = local_port (state k)) ->
  wf (upd i f s).
Proof.
  intros [H1 H2 H3 H4 H5 H6] Hf. unfold upd. split; simpl; try done.
  - intros j k. intros [(-> & k0 & E & ->)|E]%alter_Some; [|by eapply H1].
    simpl. by apply Hf.
  - intros p j Hp. destruct (H2 p j Hp) as (Hok & k & E & El). split; [done|].
    destruct (decide (i = j)) as [->|Hn].
    + exists (upd_state f k). rewrite list_lookup_alter_eq, E. split; [done|].
      simpl. by rewrite (proj2 (Hf k E)).
    + exists k. by rewrite list_lookup_alter_ne.
  - intros j k. intros [(-> & k0 & E & ->)|E]%alter_Some; [|by eapply H5].
    simpl. rewrite (proj2 (Hf k0 E)). by apply H5.
Qed.

(** Removing entries of sockets that are not in use. *)
Lemma filter_wf (Q : Z * nat -> Prop) `{forall e, Decision (Q e)} s :
  wf s -> (forall e, e ∈ ports s -> alive s e.2 = true -> Q e) ->
  wf (set_ports (filter Q (ports s)) s).
Proof.
  intros [H1 H2 H3 H4 H5 H6] HQ. split; simpl; try done.
  - intros p i Hp. apply list_elem_of_filter in Hp as [_ Hp]. by apply H2.
  - by apply NoDup_fmap_filter.
  - by apply NoDup_fmap_filter.
  - intros i k E Es Hl. apply list_elem_of_filter. split; [|by apply H5].
    apply HQ; [by apply H5|]. unfold alive. simpl. by rewrite E.
Qed.

Lemma NoDup_fst_inj {A B} (l : list (A * B)) a b b' :
  NoDup l.*1 -> (a, b) ∈ l -> (a, b') ∈ l -> b = b'.
Proof.
  induction l as [|[x y] l IH]; intros Hn H1 H2; [by apply not_elem_of_nil in H1|].
  simpl in Hn. apply NoDup_cons in Hn as [Hx Hn].
  apply elem_of_cons in H1 as [H1|H1], H2 as [H2|H2]; simplify_eq; auto;
    exfalso; apply Hx, list_elem_of_fmap; [exists (x, b')|exists (x, b)]; done.
Qed.

(** What [pick_port] finds: a free port of the ephemeral range, if there is one. *)
Lemma pick_port_range n next l :
  EPHEMERAL_FIRST <= next <= u16_max ->
  EPHEMERAL_FIRST <= (pick_port n next l).1 <= u16_max /\
  (forall p, (pick_port n next l).2 = Some p ->
     EPHEMERAL_FIRST <= p <= u16_max /\ in_use p l = false).
Proof.
  revert next. induction n as [|n IH]; intros next H; simpl; [done|].
  assert (EPHEMERAL_FIRST <= (if next =? u16_max then EPHEMERAL_FIRST else next + 1) <= u16_max).
  { unfold EPHEMERAL_FIRST, u16_max in *. destruct (Z.eqb_spec next (2 ^ 16 - 1)); lia. }
  destruct (in_use next l) eqn:E; [by apply IH|]. simpl. split; [done|]. by intros p [= <-].
Qed.

(** The candidate after [j] rounds. *)
Definition candidate (next : Z) (j : nat) : Z :=
  EPHEMERAL_FIRST + (next - EPHEMERAL_FIRST + Z.of_nat j) mod Z.of_nat span.

Lemma candidate_S next j :
  EPHEMERAL_FIRST <= next <= u16_max ->
  candidate (if next =? u16_max then EPHEMERAL_FIRST else next + 1) j = candidate next (S j).
Proof.
  intros H. unfold candidate, span. rewrite Z2Nat.id by done. f_equal.
  unfold EPHEMERAL_FIRST, u16_max in *. destruct (Z.eqb_spec next (2 ^ 16 - 1)) as [->|]; dlia.
Qed.

Lemma candidate_0 next : EPHEMERAL_FIRST <= next <= u16_max -> candidate next 0 = next.
Proof.
  intros H. unfold candidate, span. rewrite Z2Nat.id by done. unfold EPHEMERAL_FIRST, u16_max in *.
  rewrite Z.mod_small; simpl; lia.
Qed.

Lemma pick_port_None n next l :
  EPHEMERAL_FIRST <= next <= u16_max -> (pick_port n next l).2 = None ->
  forall j, (j < n)%nat -> in_use (candidate next j) l = true.
Proof.
  revert next. induction n as [|n IH]; intros next H E j Hj; [lia|]. simpl in E.
  destruct (in_use next l) eqn:U; [|discriminate]. destruct j as [|j].
  { by rewrite candidate_0. }
  rewrite <- candidate_S by done. apply IH; [|done|lia].
  unfold EPHEMERAL_FIRST, u16_max in *. destruct (Z.eqb_spec next (2 ^ 16 - 1)); lia.
Qed.

(** All ports of the range are tried. *)
Lemma pick_port_full next l p :
  EPHEMERAL_FIRST <= next <= u16_max -> (pick_port span next l).2 = None ->
  EPHEMERAL_FIRST <= p <= u16_max -> in_use p l = true.
Proof.
  intros H E Hp. set (j := (p - next) mod Z.of_nat span).
  assert (0 < Z.of_nat span) as Hs by (unfold span; done).
  assert (0 <= j < Z.of_nat span) as Hj by by apply Z.mod_pos_bound.
  pose proof (pick_port_None span next l H E (Z.to_nat j) ltac:(lia)) as G.
  unfold candidate in G. rewrite Z2Nat.id in G by lia.
  replace (EPHEMERAL_FIRST + (next - EPHEMERAL_FIRST + j) mod Z.of_nat span) with p in G; [done|].
  unfold j. rewrite Zplus_mod_idemp_r.
  replace (next - EPHEMERAL_FIRST + (p - next)) with (p - EPHEMERAL_FIRST) by lia.
  rewrite Z.mod_small; [lia|]. unfold span, EPHEMERAL_FIRST, u16_max in *. rewrite Z2Nat.id; lia.
Qed.

Lemma in_use_false p l : in_use p l = false <-> p <> Dns.SRC_PORT /\ forall i, (p, i) ∉ l.
Proof.
  unfold in_use. rewrite orb_false_iff, Z.eqb_neq. split.
  - intros [H1 H2]. split; [done|]. intros i Hi. rewrite <- not_true_iff_false in H2.
    apply H2, existsb_exists. exists (p, i). split; [by apply list_elem_of_In|apply Z.eqb_refl].
  - intros [H1 H2]. split; [done|]. apply not_true_iff_false. intros ([q i] & Hin & E)%existsb_exists.
    apply Z.eqb_eq in E. simpl in E. subst q. apply (H2 i). by apply list_elem_of_In.
Qed.

(** The port [p] belongs to a socket in use. *)
Definition taken (s : udp) (p : Z) : Prop :=
  exists i k, socks s !! i = Some k /\ strong k = true /\ local_port (state k) = p.

(** The first step of [bind_port]: entries without a socket go. *)
Definition prune (s : udp) : udp :=
  set_ports (filter (fun e => alive s e.2 = true) (ports s)) s.

Lemma prune_wf s : wf s -> wf (prune s).
Proof. intros H. apply filter_wf; auto. Qed.

Lemma in_use_taken s p :
  wf s -> p <> 0 -> in_use p (ports (prune s)) = false <-> p <> Dns.SRC_PORT /\ ~ taken s p.
Proof.
  intros H Hp. rewrite in_use_false. simpl. f_equiv. split.
  - intros Hn (i & k & E & Es & <-). apply (Hn i), list_elem_of_filter. split.
    + unfold alive. simpl. by rewrite E.
    + by apply (w_bound s H).
  - intros Hn i [Ha Hi]%list_elem_of_filter. destruct (w_entry s H p i Hi) as (_ & k & E & El).
    apply Hn. exists i, k. unfold alive in Ha. simpl in Ha. rewrite E in Ha. done.
Qed.

Lemma in_use_true s p :
  wf s -> in_use p (ports (prune s)) = true -> p = Dns.SRC_PORT \/ taken s p.
Proof.
  intros H [->%Z.eqb_eq|([q i] & Hin & Eq)%existsb_exists]%orb_true_iff; [auto|right].
  apply Z.eqb_eq in Eq. simpl in Eq. subst q. apply list_elem_of_In in Hin.
  apply list_elem_of_filter in Hin as [Ha Hi]. destruct (w_entry s H p i Hi) as (_ & k & E & El).
  exists i, k. unfold alive in Ha. simpl in Ha. by rewrite E in Ha.
Qed.

Lemma assign_wf s i k p :
  wf s -> socks s !! i = Some k -> local_port (state k) = 0 -> port_ok p ->
  in_use p (ports s) = false -> wf (assign i p s).
Proof.
  intros [H1 H2 H3 H4 H5 H6] E E0 Hp [_ Hu]%in_use_false.
  destruct (H1 i k E) as [_ _ _ Ht _]. destruct (Ht E0) as [Hpe Hq].
  unfold assign, upd. split; simpl; try done.
  - intros j k' [(-> & k0 & E' & ->)|E']%alter_Some; [|by eapply H1]. simplify_eq.
    destruct (H1 j k E) as [T1 T2 T3 T4 T5]. split; simpl; auto.
  - intros q j [Hq'|Hq']%elem_of_app.
    + destruct (H2 q j Hq') as (Hok & k' & E' & El). split; [done|].
      destruct (decide (i = j)) as [->|Hn].
      * exfalso. simplify_eq. unfold port_ok in Hok. lia.
      * exists k'. by rewrite list_lookup_alter_ne.
    + apply list_elem_of_singleton in Hq'. simplify_eq. split; [done|].
      exists (upd_state (set_port p) k). by rewrite list_lookup_alter_eq, E.
  - rewrite fmap_app. apply NoDup_app. split; [done|]. split; [|apply NoDup_singleton].
    intros q ([q' j] & -> & He)%list_elem_of_fmap. simpl. intros ->%list_elem_of_singleton.
    by apply (Hu j).
  - rewrite fmap_app. apply NoDup_app. split; [done|]. split; [|apply NoDup_singleton].
    intros j ([q j'] & -> & He)%list_elem_of_fmap. simpl. intros ->%list_elem_of_singleton.
    destruct (H2 q i He) as (Hok & k' & E' & El). simplify_eq. unfold port_ok in Hok. lia.
  - intros j k' [(-> & k0 & E' & ->)|E']%alter_Some Hs Hl; simpl in *.
    + apply elem_of_app. right. by apply list_elem_of_singleton.
    + apply elem_of_app. left. by apply H5.
Qed.

(** [bind_port] of a socket that has no port yet. *)
Definition bound_as (i : nat) (p q : Z) (s s' : udp) : Prop :=
  wf s' /\ socks s' = alter (upd_state (set_port q)) i (socks s) /\
  ports s' = ports (prune s) ++ [(q, i)] /\ port_ok q /\ ~ taken s q /\
  (if p =? 0 then EPHEMERAL_FIRST <= q else q = p).

Lemma bind_port_spec s i k p implicit :
  wf s -> socks s !! i = Some k -> local_port (state k) = 0 -> 0 <= p < 2 ^ 16 ->
  match bind_port i p implicit s with
  | (s', Ok q) => bound_as i p q s s'
  | (s', Err AddressInUse) =>
      wf s' /\ socks s' = socks s /\
      (if p =? 0 then forall q, EPHEMERAL_FIRST <= q <= u16_max -> taken s q
       else p = Dns.SRC_PORT \/ taken s p)
  | _ => False
  end.
Proof.
  intros H E E0 Hp. unfold bind_port. fold (prune s). change (socks (prune s)) with (socks s).
  rewrite E, E0. simpl negb. cbv iota. pose proof (prune_wf s H) as Hw.
  destruct (Z.eqb_spec p 0) as [->|Hn]; simpl negb; cbv iota.
  - pose proof (w_next _ Hw) as Hnx. change (next_ephemeral (prune s)) with (next_ephemeral s) in *.
    pose proof (pick_port_range span _ (ports (prune s)) Hnx) as [R1 R2].
    destruct (pick_port span (next_ephemeral s) (ports (prune s))) as [next [q|]] eqn:Ep; simpl in R1, R2.
    + destruct (R2 q eq_refl) as [Hq Hu].
      assert (port_ok q) as Hok.
      { unfold port_ok, Dns.SRC_PORT, EPHEMERAL_FIRST in *. lia. }
      split_and!; [|done|done|done|apply in_use_taken in Hu; [tauto|done|unfold port_ok in Hok; lia]|apply Hq].
      apply (assign_wf _ i k); try done. destruct Hw. split; done.
    + split; [destruct Hw; split; done|]. split; [done|]. intros q Hq.
      pose proof (pick_port_full _ _ q Hnx ltac:(by rewrite Ep) Hq) as Hu.
      destruct (in_use_true s q H Hu) as [->|]; [|done].
      exfalso. unfold Dns.SRC_PORT, EPHEMERAL_FIRST in Hq. lia.
  - destruct (in_use p (ports (prune s))) eqn:Hu.
    + split_and!; [done|done|by apply in_use_true].
    + pose proof (proj1 (in_use_taken s p H Hn) Hu) as [Hs Ht].
      assert (port_ok p) by (unfold port_ok, u16_max; lia).
      unfold bound_as. rewrite (proj2 (Z.eqb_neq _ _)) by done. split_and!; try done. by apply (assign_wf _ i k).
Qed.

(** ** Every step keeps the table well formed *)

Lemma new_wf s : wf s -> wf (new_socket s).1.
Proof.
  intros [H1 H2 H3 H4 H5 H6]. split; simpl; try done.
  - intros i k [Hl|[Hl E]]%lookup_app_Some; [by eapply H1|].
    apply list_lookup_singleton_Some in E as [_ <-].
    split; simpl; [auto|done|constructor|done|done].
  - intros p i Hp. destruct (H2 p i Hp) as (Hok & k & E & El). split; [done|].
    exists k. by rewrite lookup_app_l_Some with (x := k).
  - intros i k [Hl|[Hl E]]%lookup_app_Some; [by apply H5|].
    by apply list_lookup_singleton_Some in E as [_ <-].
Qed.

Lemma bind_wf s i p implicit :
  wf s -> alive s i = true -> 0 <= p < 2 ^ 16 -> wf (bind_port i p implicit s).1.
Proof.
  intros H Ha Hp. unfold alive in Ha. destruct (socks s !! i) as [k|] eqn:E; [|done].
  destruct (Z.eq_dec (local_port (state k)) 0) as [E0|E0].
  - pose proof (bind_port_spec s i k p implicit H E E0 Hp) as B.
    destruct (bind_port i p implicit s) as [s' [q|[]| |]]; try contradiction; apply B.
  - unfold bind_port. fold (prune s). change (socks (prune s)) with (socks s). rewrite E.
    rewrite (proj2 (Z.eqb_neq _ _)) by done. by apply prune_wf.
Qed.

Lemma connected_wf s i k e :
  wf s -> socks s !! i = Some k -> local_port (state k) <> 0 -> endpoint_ok e -> port e <> 0 ->
  wf (set_connected i e s).
Proof.
  intros H E El He Hp. apply upd_wf; [done|]. intros k' E'. simplify_eq. split; [|done].
  destruct (w_state s H i k E) as [T1 T2 T3 T4 T5]. split; simpl; try done.
  - pose proof (length_filter (fun d => from d = e) (queue (state k))). unfold zlen in *. lia.
  - apply Forall_forall. intros d [_ Hd]%list_elem_of_filter. by apply (proj1 (Forall_forall _ _) T3).
  - intros p [= <-]. split_and!; try done. apply Forall_forall. by intros d [? _]%list_elem_of_filter.
Qed.

Lemma recv_wf s i len deadline now :
  wf s -> wf (recv_round i len deadline now s).1.
Proof.
  intros H. unfold recv_round. destruct (socks s !! i) as [k|] eqn:E; [|done].
  destruct (Z.eqb_spec (local_port (state k)) 0); [done|].
  destruct (queue (state k)) as [|d q] eqn:Eq; [done|]. apply upd_wf; [done|].
  intros k' E'. simplify_eq. split; [|done].
  destruct (w_state s H i k E) as [T1 T2 T3 T4 T5]. rewrite Eq in *. split; simpl; try done.
  - unfold zlen in *. simpl in *. lia.
  - by apply Forall_cons in T3 as [_ T3].
  - intros p Hp. destruct (T5 p Hp) as (? & ? & Hq). split_and!; try done.
    by apply Forall_cons in Hq as [_ Hq].
Qed.

Lemma deliver_wf s i k d :
  wf s -> socks s !! i = Some k -> local_port (state k) <> 0 -> datagram_ok d ->
  wf (deliver i d s).1.
Proof.
  intros H E El Hd. unfold deliver. rewrite E. destruct (accepts _ _) eqn:A; [|done].
  apply negb_true_iff, orb_false_iff in A as [A1 A2]. apply Z.leb_gt in A2.
  apply upd_wf; [done|]. intros k' E'. simplify_eq. split; [|done].
  destruct (w_state s H i k E) as [T1 T2 T3 T4 T5]. split; simpl; try done.
  - rewrite zlen_app. change (zlen [d]) with 1. lia.
  - apply Forall_app. auto.
  - intros p Hp. rewrite Hp in A1. apply negb_false_iff, bool_decide_eq_true_1 in A1 as ->.
    destruct (T5 _ Hp) as (? & ? & ?). split_and!; try done. apply Forall_app. auto.
Qed.

(** The socket a port leads to is the one in use that is bound to it. *)
Lemma find_socket_iff s p i :
  wf s -> p <> 0 ->
  find_socket p s = Some i <->
  exists k, socks s !! i = Some k /\ strong k = true /\ local_port (state k) = p.
Proof.
  intros H Hp. unfold find_socket. split.
  - destruct (first_such _ _) as [[q j]|] eqn:F; [|done]. apply first_such_Some in F as [Hj Hq].
    apply Z.eqb_eq in Hq. simpl in *. subst q. destruct (alive s j) eqn:A; [|done].
    intros [= ->]. destruct (w_entry s H p i Hj) as (_ & k & E & El). exists k.
    unfold alive in A. by rewrite E in A.
  - intros (k & E & Es & El). pose proof (w_bound s H i k E Es ltac:(congruence)) as Hin.
    rewrite El in Hin. destruct (first_such _ _) as [[q j]|] eqn:F.
    + apply first_such_Some in F as [Hj Hq]. apply Z.eqb_eq in Hq. simpl in *. subst q.
      assert (j = i) as -> by (by eapply NoDup_fst_inj; [apply (w_ports s H)| |]).
      unfold alive. by rewrite E, Es.
    + pose proof (proj1 (first_such_None _ _) F _ Hin) as Hf. simpl in Hf.
      by rewrite Z.eqb_refl in Hf.
Qed.

Lemma be16_bound a b : is_byte a -> is_byte b -> 0 <= be16 a b < 2 ^ 16.
Proof. unfold is_byte, be16. lia. Qed.

(** A segment changes at most one queue, by a datagram that came with it. *)
Lemma incoming_deliver s src dst segment :
  wf s -> ip_ok src -> bytes_ok segment ->
  (handle_incoming src dst segment s).1 = s \/
  exists i k d, socks s !! i = Some k /\ local_port (state k) <> 0 /\ datagram_ok d /\
    (handle_incoming src dst segment s).1 = (deliver i d s).1.
Proof.
  intros H Hs Hb. unfold handle_incoming. destruct (Z.ltb_spec (zlen segment) HEADER_LEN); [auto|].
  unfold HEADER_LEN in *.
  assert (forall i, 0 <= i < 8 -> is_byte (byte_at segment i)) as B.
  { intros i Hi. apply Dns.byte_at_ok; [done|lia]. }
  pose proof (be16_bound _ _ (B 0 ltac:(lia)) (B 1 ltac:(lia))) as P0.
  pose proof (be16_bound _ _ (B 4 ltac:(lia)) (B 5 ltac:(lia))) as P4.
  set (sp := be16 (byte_at segment 0) (byte_at segment 1)) in *.
  set (dp := be16 (byte_at segment 2) (byte_at segment 3)) in *.
  set (len := be16 (byte_at segment 4) (byte_at segment 5)) in *.
  destruct (Z.ltb_spec len 8); [auto|]. destruct (Z.ltb_spec (zlen segment) len); [auto|]. simpl.
  destruct (if bool_decide _ then _ else _) as [sum| | |]; [|auto|auto|auto].
  destruct (negb _); [auto|]. destruct (dp =? _); [auto|].
  destruct (find_socket dp s) as [i|] eqn:F; [|auto]. right.
  destruct (Z.eq_dec dp 0) as [E0|E0].
  { exfalso. unfold find_socket in F. destruct (first_such _ _) as [[q j]|] eqn:F'; [|done].
    apply first_such_Some in F' as [Hj Hq]. apply Z.eqb_eq in Hq. simpl in Hq. subst q.
    apply (w_entry s H) in Hj as [Hj _]. unfold port_ok in Hj. lia. }
  apply (find_socket_iff s dp i H E0) in F as (k & E & Es & El).
  exists i, k, (mkDatagram (mkEndpoint src sp) (slice 8 len (slice 0 len segment))).
  split_and!; [done|congruence| |by destruct (deliver _ _ _)].
  split; [done|]. simpl. split; [by apply slice_ok, slice_ok|].
  rewrite zlen_slice; [unfold u16_max, HEADER_LEN; lia|lia|rewrite zlen_slice by lia; lia].
Qed.

Lemma release_wf s i : wf s -> wf (release i s).
Proof.
  intros [H1 H2 H3 H4 H5 H6]. unfold release. split; simpl; try done.
  - intros j k [(-> & k0 & E & ->)|E]%alter_Some; [simpl|]; by apply (H1 j).
  - intros p j Hp. destruct (H2 p j Hp) as (Hok & k & E & El). split; [done|].
    destruct (decide (i = j)) as [->|Hn].
    + exists (mkSocket (state k) false). by rewrite list_lookup_alter_eq, E.
    + exists k. by rewrite list_lookup_alter_ne.
  - intros j k [(-> & k0 & E & ->)|E]%alter_Some; [done|]. by apply H5.
Qed.

Lemma drop_wf s i : wf s -> alive s i = false -> wf (drop_socket i s).
Proof. intros H Ha. apply filter_wf; [done|]. intros e _ He <-. congruence. Qed.

Lemma step_wf s s' : wf s -> step s s' -> wf s'.
Proof.
  intros H Hs. destruct Hs.
  - by apply new_wf.
  - by apply bind_wf.
  - by eapply connected_wf.
  - by apply recv_wf.
  - destruct (incoming_deliver s src dst segment H) as [->|(i & k & d & E & El & Hd & ->)]; try done.
    by eapply deliver_wf.
  - by apply release_wf.
  - by apply drop_wf.
Qed.


(** ** The theorems *)

(** C12: whatever threads and the network do, the sockets are well typed:
    a bound socket has a 16-bit port other than 0 and the DNS client's, no two
    sockets in use share a port, the table names exactly the socket that owns a
    port, an unbound socket has no peer and no datagrams, and a queue never
    holds more than 16 datagrams, all of legal size and, on a connected socket,
    all from its peer. *)
Theorem udp_sockets_wf s : rtc step init s -> wf s.
Proof.
  intros Hs. assert (wf init) as H by apply init_wf. revert H.
  induction Hs as [|s1 s2 s3 H12 _ IH]; [done|]. intros H. apply IH. by eapply step_wf.
Qed.

Definition demo_peer : Endpoint := mkEndpoint [10; 0; 2; 2] 7.
Definition demo_segment : list Z := [0; 7; 195; 80; 0; 10; 0; 0; 104; 105].
Definition demo_run : udp :=
  let s := (new_socket init).1 in
  let s := (bind_port 0 0 true s).1 in
  let s := set_connected 0 demo_peer s in
  (handle_incoming [10; 0; 2; 2] [10; 0; 2; 15] demo_segment s).1.

Lemma udp_sockets_wf_witness :
  wf demo_run /\
  demo_run = mkUdp [mkSocket (mkState 50000 (Some demo_peer) [mkDatagram demo_peer [104; 105]]) true]
               [(50000, 0%nat)] 50001.
Proof.
  split; [|vm_compute; done]. apply (udp_sockets_wf demo_run).
  eapply rtc_l; [apply step_new|].
  eapply rtc_l; [apply (step_bind _ 0 0 true); [vm_compute; done|lia]|].
  eapply rtc_l; [eapply (step_connect _ 0 _ demo_peer); [vm_compute; done|done|done| |done]|].
  { split; [split; [repeat constructor|done]|]; done. }
  apply rtc_once, step_incoming; [split; [|done]|]; by repeat constructor.
Defined.

(** [bind_port] on a socket without a port gives it the port asked
    for, or a free ephemeral one when none is asked for, and enters it into the
    table; it refuses only a port that is the DNS client's or that another
    socket in use has, and for an ephemeral one only when all are taken.  Port
    numbers of sockets that are gone are available again. *)
Theorem udp_bind_correct s i k p implicit :
  wf s -> socks s !! i = Some k -> strong k = true -> local_port (state k) = 0 ->
  0 <= p < 2 ^ 16 ->
  match bind_port i p implicit s with
  | (s', Ok q) =>
      wf s' /\ socks s' = alter (upd_state (set_port q)) i (socks s) /\ find_socket q s' = Some i /\
      ~ taken s q /\ (if p =? 0 then EPHEMERAL_FIRST <= q <= u16_max else q = p)
  | (s', Err AddressInUse) =>
      wf s' /\ socks s' = socks s /\
      (if p =? 0 then forall q, EPHEMERAL_FIRST <= q <= u16_max -> taken s q
       else p = Dns.SRC_PORT \/ taken s p)
  | _ => False
  end.
Proof.
  intros H E Es E0 Hp. pose proof (bind_port_spec s i k p implicit H E E0 Hp) as B.
  destruct (bind_port i p implicit s) as [s' [q|[]| |]]; try done.
  destruct B as (Hw & Hs & _ & Hq & Ht & Hpq). unfold port_ok in Hq.
  split_and!; try done; [|by destruct (p =? 0); [lia|]].
  apply find_socket_iff; [done|lia|]. exists (upd_state (set_port q) k).
  by rewrite Hs, list_lookup_alter_eq, E.
Qed.

(** The port of a socket that was released and dropped is given to the next. *)
Definition demo_reuse : udp :=
  drop_socket 0 (release 0 (new_socket (bind_port 0 9 false (new_socket init).1).1).1).

Lemma udp_bind_correct_witness :
  (exists s', bind_port 1 9 false demo_reuse = (s', Ok 9) /\ find_socket 9 s' = Some 1%nat) /\
  ~ taken demo_reuse 9.
Proof.
  assert (wf demo_reuse) as H.
  { apply drop_wf; [|vm_compute; done]. apply release_wf, new_wf, bind_wf; [|vm_compute; done|lia].
    apply new_wf, init_wf. }
  pose proof (udp_bind_correct demo_reuse 1 (mkSocket (mkState 0 None []) true) 9 false H) as B.
  destruct (bind_port 1 9 false demo_reuse) as [s' r] eqn:E.
  assert (r = Ok 9) as -> by (change r with (s', r).2; rewrite <- E; vm_compute; done).
  destruct B as (_ & _ & F & T & _); [vm_compute; done|done|done|lia|]. eauto.
Defined.

End UdpInv.
