(* ===== verification/Net.v ===== *)
(** The network stack below the sockets, src/src/drivers/net: the state of
    mod.rs (the NIC, the host address, the ARP cache, the ring of echo
    replies), ARP frames and the receive path of arp.rs, IPv4 output of
    ipv4.rs, and the calls that need both a socket table and the wire
    ([send_to] of udp.rs, [send_query] of dns.rs, [transmit] of tcp.rs).

    The network card is behind the interface [NetworkDriver], the trait of
    driver.rs.  [sleep key] is what the rest of the system does to this state
    while a task waits for [key] in [wait_current_until]: a parameter, since it
    is up to the scheduler and to the network. *)

From S2P Require Import Prelude Checksum Dns Tcp Udp.
Open Scope kmonad_scope.

(** * The network card *)

(** [NetworkDriver] of driver.rs: [nic_poll_rx n len] takes one frame, cut to
    [len] bytes, or nothing. *)
Class NetworkDriver (N : Type) : Type := {
  nic_transmit : N -> list Z -> N * bool;
  nic_poll_rx : N -> Z -> N * list Z;
  nic_mac : N -> list Z;
}.

(** What a card promises: frames leave and arrive in order.  [sent] are the
    frames it accepted, [arrived] those that wait to be polled. *)
Class Wire (N : Type) `{NetworkDriver N} : Type := {
  nic_ok : N -> Prop;
  sent : N -> list (list Z);
  arrived : N -> list (list Z);
  nic_mac_ok n : nic_ok n -> bytes_ok (nic_mac n) /\ zlen (nic_mac n) = 6;
  nic_arrived_ok n : nic_ok n -> Forall bytes_ok (arrived n);
  nic_transmit_ok n f :
    nic_ok n ->
    let '(n', b) := nic_transmit n f in
    nic_ok n' /\ nic_mac n' = nic_mac n /\ arrived n' = arrived n /\
    sent n' = if b then sent n ++ [f] else sent n;
  nic_poll_rx_ok n len :
    nic_ok n -> 0 <= len <= 1514 ->
    let '(n', f) := nic_poll_rx n len in
    nic_ok n' /\ nic_mac n' = nic_mac n /\ sent n' = sent n /\
    match arrived n with
    | [] => f = [] /\ arrived n' = []
    | g :: gs => f = take (Z.to_nat len) g /\ arrived n' = gs
    end;
}.

Module Net.

(** * The state *)

Definition ARP_CACHE_SIZE : Z := 8.
Definition ICMP_RX_CAPACITY : Z := 16.

Record ArpEntry : Type := mkArpEntry { e_ip : list Z; e_mac : list Z; e_valid : bool }.

Record IcmpEchoReply : Type := mkReply {
  r_src_ip : list Z; r_identifier : Z; r_sequence : Z; r_payload_len : Z; r_payload : list Z;
}.

(** Who is woken: the waiters of an event number, or the readers of a UDP
    socket, whose key is its address.  TCP keeps its own list. *)
Inductive wake_key : Type := Event (key : Z) | Reader (i : nat).

Record net (N : Type) : Type := mkNet {
  active_nic : option N;
  host_ip : list Z;
  arp_cache : list ArpEntry;
  icmp_ring : list IcmpEchoReply;
  icmp_head : Z;
  icmp_tail : Z;
  ping_seq : Z;
  rx_work : bool;
  dns_result : option (list Z);
  udp : Udp.udp;
  tcp : Tcp.tcp;
  woken : list wake_key;
}.
Arguments mkNet {N}.
Arguments active_nic {N}.
Arguments host_ip {N}.
Arguments arp_cache {N}.
Arguments icmp_ring {N}.
Arguments icmp_head {N}.
Arguments icmp_tail {N}.
Arguments ping_seq {N}.
Arguments rx_work {N}.
Arguments dns_result {N}.
Arguments udp {N}.
Arguments tcp {N}.
Arguments woken {N}.

Section setters.
Context {N : Type}.
Implicit Type s : net N.

Definition set_nic x s : net N := mkNet x (host_ip s) (arp_cache s) (icmp_ring s) (icmp_head s) (icmp_tail s)
  (ping_seq s) (rx_work s) (dns_result s) (udp s) (tcp s) (woken s).
Definition set_host_ip x s : net N := mkNet (active_nic s) x (arp_cache s) (icmp_ring s) (icmp_head s)
  (icmp_tail s) (ping_seq s) (rx_work s) (dns_result s) (udp s) (tcp s) (woken s).
Definition set_cache x s : net N := mkNet (active_nic s) (host_ip s) x (icmp_ring s) (icmp_head s)
  (icmp_tail s) (ping_seq s) (rx_work s) (dns_result s) (udp s) (tcp s) (woken s).
Definition set_ring x h t s : net N := mkNet (active_nic s) (host_ip s) (arp_cache s) x h t (ping_seq s)
  (rx_work s) (dns_result s) (udp s) (tcp s) (woken s).
Definition set_ping_seq x s : net N := mkNet (active_nic s) (host_ip s) (arp_cache s) (icmp_ring s)
  (icmp_head s) (icmp_tail s) x (rx_work s) (dns_result s) (udp s) (tcp s) (woken s).
Definition set_rx_work x s : net N := mkNet (active_nic s) (host_ip s) (arp_cache s) (icmp_ring s)
  (icmp_head s) (icmp_tail s) (ping_seq s) x (dns_result s) (udp s) (tcp s) (woken s).
Definition set_dns x s : net N := mkNet (active_nic s) (host_ip s) (arp_cache s) (icmp_ring s) (icmp_head s)
  (icmp_tail s) (ping_seq s) (rx_work s) x (udp s) (tcp s) (woken s).
Definition set_udp x s : net N := mkNet (active_nic s) (host_ip s) (arp_cache s) (icmp_ring s) (icmp_head s)
  (icmp_tail s) (ping_seq s) (rx_work s) (dns_result s) x (tcp s) (woken s).
Definition set_tcp x s : net N := mkNet (active_nic s) (host_ip s) (arp_cache s) (icmp_ring s) (icmp_head s)
  (icmp_tail s) (ping_seq s) (rx_work s) (dns_result s) (udp s) x (woken s).
(** [process::wake_waiters] *)
Definition wake_waiters k s : net N := mkNet (active_nic s) (host_ip s) (arp_cache s) (icmp_ring s)
  (icmp_head s) (icmp_tail s) (ping_seq s) (rx_work s) (dns_result s) (udp s) (tcp s)
  (woken s ++ [k]).

(** ** Accessors *)

Definition is_ready s : bool := match active_nic s with Some _ => true | None => false end.

Definition get_ip_address s : option (list Z) :=
  if bool_decide (host_ip s = [0; 0; 0; 0]) then None else Some (host_ip s).

Definition mark_rx_work_pending s : net N := set_rx_work true s.
Definition take_rx_work_pending s : net N * bool := (set_rx_work false s, rx_work s).

(** An operation on the UDP sockets. *)
Definition on_udp {A} (m : M Udp.udp A) : M (net N) A := fun s =>
  let '(u, r) := m (udp s) in (set_udp u s, r).

(** ** The ARP cache *)

(** The first entry with [p] is replaced by its image under [f]. *)
Fixpoint update_first (p : ArpEntry -> bool) (f : ArpEntry -> ArpEntry) (l : list ArpEntry)
  : option (list ArpEntry) :=
  match l with
  | [] => None
  | e :: l => if p e then Some (f e :: l) else cons e <$> update_first p f l
  end.

Definition cached (addr : list Z) (e : ArpEntry) : bool := e_valid e && bool_decide (e_ip e = addr).

Definition cache_insert (addr mac : list Z) (l : list ArpEntry) : list ArpEntry :=
  match update_first (cached addr) (fun e => mkArpEntry (e_ip e) mac (e_valid e)) l with
  | Some l => l
  | None =>
      default l (update_first (fun e => negb (e_valid e)) (fun _ => mkArpEntry addr mac true) l)
  end.
Definition cache_lookup (addr : list Z) (l : list ArpEntry) : option (list Z) :=
  e_mac <$> first_such (cached addr) l.

Definition arp_cache_insert (addr mac : list Z) s : net N :=
  set_cache (cache_insert addr mac (arp_cache s)) s.
Definition arp_cache_lookup (addr : list Z) s : option (list Z) := cache_lookup addr (arp_cache s).

(** The event number of an address, in 64-bit arithmetic. *)
Definition ARP_WAIT_BASE : Z := usize_max - 0x100000000.
Definition arp_wait_key (addr : list Z) : Z := ARP_WAIT_BASE + be_val addr.
Definition wake_arp_waiters (addr : list Z) s : net N := wake_waiters (Event (arp_wait_key addr)) s.

(** ** The ring of echo replies *)

Definition push_icmp_reply (r : IcmpEchoReply) s : net N :=
  let next := (icmp_head s + 1) mod ICMP_RX_CAPACITY in
  if next =? icmp_tail s then s
  else set_ring (<[Z.to_nat (icmp_head s) := r]> (icmp_ring s)) next (icmp_tail s) s.

Definition no_reply : IcmpEchoReply := mkReply [0; 0; 0; 0] 0 0 0 (zeros 64).

Definition pop_icmp_reply s : net N * option IcmpEchoReply :=
  if icmp_tail s =? icmp_head s then (s, None)
  else (set_ring (icmp_ring s) (icmp_head s) ((icmp_tail s + 1) mod ICMP_RX_CAPACITY) s,
        Some (nth (Z.to_nat (icmp_tail s)) (icmp_ring s) no_reply)).

(** The packed structure in memory. *)
Definition reply_bytes (r : IcmpEchoReply) : list Z :=
  r_src_ip r ++ le_bytes 2 (r_identifier r) ++ le_bytes 2 (r_sequence r) ++
  le_bytes 2 (r_payload_len r) ++ r_payload r.

(** The bytes copied into a buffer of [len] bytes. *)
Definition pop_icmp_reply_raw (len : Z) s : net N * list Z :=
  match pop_icmp_reply s with
  | (s, None) => (s, [])
  | (s, Some r) => (s, slice 0 (Z.min 74 len) (reply_bytes r))
  end.

End setters.

(** * Output *)

(** [for x in l { f(x) }] *)
Fixpoint each {S A} (f : A -> M S unit) (l : list A) : M S unit :=
  match l with
  | [] => kret tt
  | x :: l => run! f x in each f l
  end.

(** The fields of an [ArpFrame] in memory order. *)
Definition arp_frame (dst_mac src_mac : list Z) (opcode : Z)
    (sender_mac sender_ip target_mac target_ip : list Z) : list Z :=
  dst_mac ++ src_mac ++ be_bytes 2 0x0806 ++
  be_bytes 2 1 ++ be_bytes 2 0x0800 ++ [6; 4] ++ be_bytes 2 opcode ++
  sender_mac ++ sender_ip ++ target_mac ++ target_ip.

(** The 20 bytes of the header built by [transmit_to]. *)
Definition ipv4_header (total_len protocol checksum : Z) (src dst : list Z) : list Z :=
  [0x45; 0] ++ be_bytes 2 total_len ++ [0; 0; 0x40; 0; 64; protocol] ++ be_bytes 2 checksum ++
  src ++ dst.

Section output.
Context {N : Type} `{NetworkDriver N}.

Definition get_mac_address (s : net N) : option (list Z) := nic_mac <$> active_nic s.

Definition transmit (data : list Z) : M (net N) bool := fun s =>
  match active_nic s with
  | Some nic => let '(nic, b) := nic_transmit nic data in (set_nic (Some nic) s, Ok b)
  | None => (s, Ok false)
  end.

Definition poll_rx (len : Z) : M (net N) (list Z) := fun s =>
  match active_nic s with
  | Some nic => let '(nic, f) := nic_poll_rx nic len in (set_nic (Some nic) s, Ok f)
  | None => (s, Ok [])
  end.

Definition send_arp_request (target_ip my_ip my_mac : list Z) : M (net N) unit :=
  run! transmit (arp_frame (replicate 6 0xFF) my_mac 1 my_mac my_ip (zeros 6) target_ip) in kret tt.

Definition NETMASK : list Z := [255; 255; 255; 0].
Definition DEFAULT_GATEWAY : list Z := [10; 0; 2; 2].

Definition same_subnet (a b : list Z) : bool :=
  forallb (fun i => Z.land (byte_at a i) (byte_at NETMASK i) =? Z.land (byte_at b i) (byte_at NETMASK i))
    [0; 1; 2; 3].

Definition next_hop (dst_ip : list Z) (s : net N) : option (list Z) :=
  match get_ip_address s with
  | None => None
  | Some my_ip => Some (if same_subnet my_ip dst_ip then dst_ip else DEFAULT_GATEWAY)
  end.

Definition transmit_to (dst_mac dst_ip : list Z) (protocol : Z) (payload : list Z)
  : M (net N) bool :=
  if 1500 - 20 <? zlen payload then kret false else
  let! my_ip := gets get_ip_address in
  let! my_mac := gets get_mac_address in
  match my_ip, my_mac with
  | Some my_ip, Some my_mac =>
      let total_len := 20 + zlen payload in
      let! checksum := lift_res (calculate_checksum (ipv4_header total_len protocol 0 my_ip dst_ip)) in
      transmit (dst_mac ++ my_mac ++ be_bytes 2 0x0800 ++
                ipv4_header total_len protocol checksum my_ip dst_ip ++ payload)
  | _, _ => kret false
  end.

(** [transmit_ipv4_cached] *)
Definition transmit_ipv4_cached (dst_ip : list Z) (protocol : Z) (payload : list Z)
  : M (net N) bool :=
  let! hop := gets (next_hop dst_ip) in
  match hop with
  | None => kret false
  | Some hop =>
      let! mac := gets (arp_cache_lookup hop) in
      match mac with
      | Some dst_mac => transmit_to dst_mac dst_ip protocol payload
      | None =>
          let! ip := gets get_ip_address in
          let! mac := gets get_mac_address in
          match ip, mac with
          | Some ip, Some mac => run! send_arp_request hop ip mac in kret false
          | _, _ => kret false
          end
      end
  end.

(** [transmit] of tcp.rs, for a segment of the control block. *)
Definition tcp_transmit (o : Tcp.Out) : M (net N) unit :=
  let! ip := gets get_ip_address in
  match ip with
  | None => kret tt
  | Some local_ip =>
      let! segment := lift_res (Tcp.segment_bytes local_ip o) in
      run! transmit_ipv4_cached (Tcp.ip (Tcp.o_remote o)) Tcp.PROTOCOL segment in kret tt
  end.

(** The segments a handler of one connection sent: what it appended to the
    list of that connection, or to the resets. *)
Definition new_out (before after : Tcp.tcp) : list Tcp.Out :=
  concat (imap (fun c t => drop (length (default [] (Tcp.tx <$> Tcp.tcbs before !! c))) (Tcp.tx t))
            (Tcp.tcbs after)) ++
  drop (length (Tcp.resets before)) (Tcp.resets after).

Definition tcp_step (f : Tcp.tcp -> Tcp.tcp) : M (net N) unit := fun s =>
  let t := f (tcp s) in each tcp_transmit (new_out (tcp s) t) (set_tcp t s).

(** [tcp::on_timer] *)
Definition tcp_on_timer (now : Z) : M (net N) unit := fun s =>
  each (fun c => tcp_step (fun t => Tcp.timer_conn now t c)) (Tcp.e_conn <$> Tcp.conns (tcp s)) s.

(** ** Calls that may wait for the address of the next hop *)

Variable sleep : Z -> net N -> net N.

Definition arp_resolve (target_ip : list Z) : M (net N) (option (list Z)) :=
  let! hit := gets (arp_cache_lookup target_ip) in
  match hit with
  | Some mac => kret (Some mac)
  | None =>
      let! ip := gets get_ip_address in
      let! mac := gets get_mac_address in
      match ip, mac with
      | Some my_ip, Some my_mac =>
          run! send_arp_request target_ip my_ip my_mac in
          let! hit := gets (arp_cache_lookup target_ip) in
          match hit with
          | Some mac => kret (Some mac)
          | None =>
              run! modify (sleep (arp_wait_key target_ip)) in
              gets (arp_cache_lookup target_ip)
          end
      | _, _ => kret None
      end
  end.

Definition transmit_ipv4 (dst_ip : list Z) (protocol : Z) (payload : list Z) : M (net N) bool :=
  let! hop := gets (next_hop dst_ip) in
  match hop with
  | None => kret false
  | Some hop =>
      let! mac := arp_resolve hop in
      match mac with
      | Some dst_mac => transmit_to dst_mac dst_ip protocol payload
      | None => kret false
      end
  end.

(** [UdpSocket::send_to] *)
Definition send_to (i : nat) (dest : option Tcp.Endpoint) (data : list Z) : M (net N) Z :=
  let! dest := on_udp (Udp.destination i dest (zlen data)) in
  let! local_port := on_udp (Udp.ensure_bound i) in
  let! ip := gets get_ip_address in
  let! src_ip := ok_or ip NetworkUnreachable in
  let! segment := lift_res (Udp.segment_bytes src_ip local_port dest data) in
  let! b := transmit_ipv4 (Tcp.ip dest) Udp.PROTOCOL segment in
  if b then kret (zlen data) else kfail NetworkUnreachable.

(** [dns::send_query] and [dns::take_result] *)
Definition send_query (name : list Z) : M (net N) bool :=
  match Dns.query_segment name with
  | None => kret false
  | Some segment =>
      run! modify (set_dns None) in
      transmit_ipv4 Dns.DNS_SERVER 17 segment
  end.

Definition take_result (s : net N) : net N * option (list Z) := (set_dns None s, dns_result s).

(** [send_icmp_echo_request]; [ts] is the low half of the time stamp counter. *)
Definition echo_request (seq ts : Z) (checksum : Z) : list Z :=
  [8; 0] ++ be_bytes 2 checksum ++ be_bytes 2 0xBEEF ++ be_bytes 2 seq ++
  be_bytes 4 ts ++ (Z.land 0xFF <$> seqZ 4 44).

Definition send_icmp_echo_request (target_ip : list Z) (ts : Z) : M (net N) Z :=
  let! seq := gets ping_seq in
  run! modify (set_ping_seq (u16 (seq + 1))) in
  let! checksum := lift_res (calculate_checksum (echo_request seq ts 0)) in
  let! b := transmit_ipv4 target_ip 1 (echo_request seq ts checksum) in
  kret (if b then seq else 0).

End output.

(** * Input *)

Section input.
Context {N : Type} `{NetworkDriver N} {BU : Build}.

(** [udp::handle_incoming] with its effects outside the table. *)
Definition udp_incoming (src_ip dst_ip segment : list Z) : M (net N) unit :=
  let! r := on_udp (Udp.handle_incoming src_ip dst_ip segment) in
  match r with
  | Udp.Ignored => kret tt
  | Udp.Queued i => modify (wake_waiters (Reader i))
  | Udp.ToDns segment =>
      let! a := lift_res (Dns.handle_udp src_ip segment) in
      match a with
      | Some a => modify (fun s => wake_waiters (Event Dns.WAIT_KEY) (set_dns (Some a) s))
      | None => kret tt
      end
  end.

(** A received frame in the 1514 bytes of [rx_buffer], and its fields. *)
Definition rx_buffer (f : list Z) : list Z := f ++ zeros (1514 - zlen f).
Definition field16 (buf : list Z) (o : Z) : Z := be16 (byte_at buf o) (byte_at buf (o + 1)).

(** The ARP branch, lines 73-114. *)
Definition handle_arp (my_ip my_mac buf : list Z) : M (net N) unit :=
  let opcode := field16 buf 20 in
  let sender_mac := slice 22 28 buf in
  let sender_ip := slice 28 32 buf in
  let target_ip := slice 38 42 buf in
  if (opcode =? 1) && bool_decide (target_ip = my_ip) then
    run! modify (arp_cache_insert sender_ip sender_mac) in
    run! transmit (arp_frame sender_mac my_mac 2 my_mac my_ip sender_mac sender_ip) in
    kret tt
  else if opcode =? 2 then
    run! modify (arp_cache_insert sender_ip sender_mac) in
    modify (wake_arp_waiters sender_ip)
  else kret tt.

(** The answer to an echo request, lines 159-184.  The ICMP message starts at
    [o], and the writes go to the buffer one by one, since with a short header
    the two overlap.  A message that does not end in the buffer makes
    [icmp_bytes] a slice of memory outside of it, and the kernel stops.  With a
    total length above 1500 it reads what lies behind the buffer, which does
    not matter: the index of line 183 panics.  With a length that has wrapped
    around, close to 2^64, the checksum runs off the mapped memory, and no
    handler catches the fault. *)
Definition echo_reply (my_ip my_mac buf : list Z) (ihl : Z) : M (net N) unit :=
  let o := 14 + ihl in
  let buf := splice (o + 2) [0; 0] (splice o [0] buf) in
  let total_length := field16 buf 16 in
  let! icmp_len := arith64 (total_length - ihl) in
  if 1514 <? o + icmp_len then kpanic else
  let! icmp_sum := lift_res (calculate_checksum (slice o (o + icmp_len) buf)) in
  let buf := splice (o + 2) (be_bytes 2 icmp_sum) buf in
  let temp_ip := slice 26 30 buf in
  let buf := splice 24 [0; 0] (splice 30 temp_ip (splice 26 my_ip buf)) in
  let! ip_sum := lift_res (calculate_checksum (slice 14 (14 + ihl) buf)) in
  let buf := splice 24 (be_bytes 2 ip_sum) buf in
  let buf := splice 6 my_mac (splice 0 (slice 6 12 buf) buf) in
  run! transmit (slice 0 (14 + total_length) buf) in kret tt.

(** An echo reply for user land, lines 191-213. *)
Definition echo_received (buf : list Z) (ihl : Z) : M (net N) unit :=
  let o := 14 + ihl in
  let! icmp_len := arith64 (field16 buf 16 - ihl) in
  let payload_len := if 8 <? icmp_len then Z.min (icmp_len - 8) 64 else 0 in
  modify (push_icmp_reply (mkReply (slice 26 30 buf) (field16 buf (o + 4)) (field16 buf (o + 6)) (u16 payload_len)
    (slice (o + 8) (o + 8 + payload_len) buf ++ zeros (64 - payload_len)))).

(** The ICMP branch, lines 148-215; the lines printed are left out. *)
Definition handle_icmp (my_ip my_mac buf : list Z) (received ihl : Z) : M (net N) unit :=
  if received <? 14 + ihl + 8 then kret tt else
  let icmp_type := byte_at buf (14 + ihl) in
  if icmp_type =? 8 then echo_reply my_ip my_mac buf ihl
  else if icmp_type =? 0 then echo_received buf ihl
  else kret tt.

(** The IPv4 branch, lines 115-216. *)
Definition handle_ipv4 (now : Z) (my_ip my_mac buf : list Z) (received : Z) : M (net N) unit :=
  if received <? 14 + 20 then kret tt else
  let ihl := Z.land (byte_at buf 14) 0x0F * 4 in
  let total_length := field16 buf 16 in
  let protocol := byte_at buf 23 in
  let src_ip := slice 26 30 buf in
  let dst_ip := slice 30 34 buf in
  let fits least := (ihl + least <=? total_length) && (14 + total_length <=? received) in
  let segment := slice (14 + ihl) (14 + total_length) buf in
  if negb (bool_decide (dst_ip = my_ip)) then kret tt
  else if protocol =? 17 then
    if fits 8 then udp_incoming src_ip dst_ip segment else kret tt
  else if protocol =? Tcp.PROTOCOL then
    if fits 20 then tcp_step (Tcp.handle_incoming src_ip dst_ip segment now) else kret tt
  else if protocol =? 1 then handle_icmp my_ip my_mac buf received ihl
  else kret tt.

Definition handle_incoming_packets (now : Z) (my_ip my_mac : list Z) : M (net N) bool :=
  let! f := poll_rx 1514 in
  if zlen f <? 14 then kret false else
  let buf := rx_buffer f in
  let ethertype := field16 buf 12 in
  run! (if ethertype =? 0x0806 then handle_arp my_ip my_mac buf
        else if ethertype =? 0x0800 then handle_ipv4 now my_ip my_mac buf (zlen f)
        else kret tt) in
  kret true.

(** The loop of [poll]: the number of frames handled. *)
Fixpoint drain (budget : nat) (now : Z) (my_ip my_mac : list Z) : M (net N) nat :=
  match budget with
  | O => kret 0%nat
  | S budget =>
      let! more := handle_incoming_packets now my_ip my_mac in
      if more then let! n := drain budget now my_ip my_mac in kret (S n) else kret 0%nat
  end.

Definition RX_DRAIN_BUDGET : nat := 8.

(** [poll], at the scheduler clock [now] *)
Definition poll (now : Z) : M (net N) unit :=
  let! irq_work := fun s => let '(s, b) := take_rx_work_pending s in (s, Ok b) in
  let! ready := gets is_ready in
  if negb ready then kret tt else
  run! tcp_on_timer now in
  let! ip := gets get_ip_address in
  let! mac := gets get_mac_address in
  match ip, mac with
  | Some my_ip, Some my_mac =>
      if negb irq_work then kret tt else
      let! drained := drain RX_DRAIN_BUDGET now my_ip my_mac in
      if bool_decide (drained = RX_DRAIN_BUDGET) then modify mark_rx_work_pending else kret tt
  | _, _ => kret tt
  end.

End input.

End Net.
