(* ===== verification/NetRx.v ===== *)
(** The receive path takes every frame: which frames make it panic, and that
    all others are handled, whatever they hold. *)

From S2P Require Import Prelude Checksum Dns Tcp NetTcp Udp UdpInv Net.
Open Scope kmonad_scope.

Module NetRx.
Import Net.

(** ** Operations that return *)

(** [m] returns a value from [s], and [Q] holds of it and of the state. *)
Definition wp {S A} (m : M S A) (Q : A -> S -> Prop) (s : S) : Prop :=
  match m s with (s', Ok a) => Q a s' | _ => False end.

Lemma wp_bind {S A B} (m : M S A) (k : A -> M S B) Q s :
  wp m (fun a => wp (k a) Q) s -> wp (kbind m k) Q s.
Proof. unfold wp, kbind. by destruct (m s) as [s' []]. Qed.

Lemma wp_mono {S A} (m : M S A) (Q R : A -> S -> Prop) s :
  wp m Q s -> (forall a s', Q a s' -> R a s') -> wp m R s.
Proof. unfold wp. destruct (m s) as [s' []]; eauto. Qed.

Lemma wp_ret {S A} (a : A) (Q : A -> S -> Prop) s : Q a s -> wp (kret a) Q s.
Proof. done. Qed.

Lemma wp_gets {S A} (f : S -> A) (Q : A -> S -> Prop) s : Q (f s) s -> wp (gets f) Q s.
Proof. done. Qed.

Lemma wp_modify {S} (f : S -> S) (Q : unit -> S -> Prop) s : Q tt (f s) -> wp (modify f) Q s.
Proof. done. Qed.

Lemma wp_lift {S A} (r : res A) a (Q : A -> S -> Prop) s : r = Ok a -> Q a s -> wp (lift_res r) Q s.
Proof. by intros ->. Qed.

Lemma wp_panic {S A} (m : M S A) Q s : wp m Q s -> (m s).2 <> Panic.
Proof. unfold wp. by destruct (m s) as [s' []]. Qed.

(** ** The invariant *)

Section rx.
Context {N : Type} `{Wire N} {BU : Build}.
Implicit Type s : net N.

Definition mac_ok (m : list Z) : Prop := bytes_ok m /\ zlen m = 6.

Record net_ok s : Prop := {
  k_nic : forall n, active_nic s = Some n -> nic_ok n;
  k_ip : ip_ok (host_ip s);
  k_cache : zlen (arp_cache s) = ARP_CACHE_SIZE;
  k_entry : Forall (fun e => ip_ok (e_ip e) /\ mac_ok (e_mac e)) (arp_cache s);
  k_ring : zlen (icmp_ring s) = ICMP_RX_CAPACITY;
  k_head : 0 <= icmp_head s < ICMP_RX_CAPACITY;
  k_tail : 0 <= icmp_tail s < ICMP_RX_CAPACITY;
  k_udp : UdpInv.wf (udp s);
  k_tcp : NetTcp.small_tcp (tcp s);
}.

(** The frames that wait. *)
Definition waiting s : list (list Z) := default [] (arrived <$> active_nic s).
(** The frames that left. *)
Definition wire s : list (list Z) := default [] (sent <$> active_nic s).

(** What handling a frame does not touch. *)
Definition same_rx s s' : Prop :=
  waiting s' = waiting s /\ get_mac_address s' = get_mac_address s /\ host_ip s' = host_ip s /\
  rx_work s' = rx_work s.

#[export] Instance same_rx_po : PreOrder same_rx.
Proof.
  split; [done|]. intros s1 s2 s3 (A1 & A2 & A3 & A4) (B1 & B2 & B3 & B4).
  unfold same_rx. by rewrite B1, B2, B3, B4.
Qed.

(** A step that keeps the invariant. *)
Definition fine {A} (s : net N) (a : A) (s' : net N) : Prop := net_ok s' /\ same_rx s s'.

(** The card, if there is one, accepts the frame [f]. *)
Definition takes (nic : option N) (f : list Z) : bool :=
  match nic with Some n => (nic_transmit n f).2 | None => false end.

(** The card after one frame has been polled. *)
Definition polled s : option N := (fun n => (nic_poll_rx n 1514).1) <$> active_nic s.

Lemma transmit_wp f s :
  net_ok s ->
  wp (transmit f) (fun b s' => fine s b s' /\ arp_cache s' = arp_cache s /\ b = takes (active_nic s) f /\
                    wire s' = if b then wire s ++ [f] else wire s) s.
Proof.
  intros K. unfold wp, transmit. destruct (active_nic s) as [n|] eqn:E; [|done].
  pose proof (nic_transmit_ok n f (k_nic s K n E)) as T.
  simpl. destruct (nic_transmit n f) as [n' b]. destruct T as (T1 & T2 & T3 & T4).
  split; [split|split; [|split]]; [|split_and!|done|done|]; simpl; try done.
  - destruct K. split; try done. by intros ? [= <-].
  - unfold waiting. simpl. by rewrite E, T3.
  - unfold get_mac_address. simpl. by rewrite E, T2.
  - unfold wire. simpl. by rewrite E, T4.
Qed.

(** Programs that keep [net_ok] and [same_rx]. *)
Definition keeps {A} (m : M (net N) A) : Prop := forall s, net_ok s -> wp m (fine s) s.

Lemma keeps_bind {A B} (m : M (net N) A) (k : A -> M (net N) B) :
  keeps m -> (forall a, keeps (k a)) -> keeps (kbind m k).
Proof.
  intros Hm Hk s K. apply wp_bind. eapply wp_mono; [by apply Hm|]. intros a s1 [K1 R1].
  eapply wp_mono; [by apply Hk|]. intros b s2 [K2 R2]. split; [done|by etrans].
Qed.

Lemma keeps_ret {A} (a : A) : keeps (kret a).
Proof. by intros s K. Qed.

Lemma keeps_gets {A} (f : net N -> A) : keeps (gets f).
Proof. by intros s K. Qed.

Lemma keeps_lift {A} (r : res A) a : r = Ok a -> keeps (lift_res r).
Proof. intros -> s K. done. Qed.

Lemma keeps_modify f : (forall s, net_ok s -> net_ok (f s) /\ same_rx s (f s)) -> keeps (modify f).
Proof. intros Hf s K. by apply Hf. Qed.

Lemma keeps_transmit f : keeps (transmit f).
Proof. intros s K. eapply wp_mono; [by apply transmit_wp|]. by intros b s' [F _]. Qed.

Lemma keeps_each {A} (f : A -> M (net N) unit) l : Forall (fun x => keeps (f x)) l -> keeps (each f l).
Proof.
  induction 1; simpl; [apply keeps_ret|]. by apply keeps_bind.
Qed.

(** ** Output *)

Lemma calculate_checksum_total d : d <> [] -> exists c, calculate_checksum d = Ok c.
Proof.
  intros Hd. unfold calculate_checksum. destruct (Z.eqb_spec (zlen d) 0) as [E|_].
  { destruct d; [done|]. unfold zlen in E. simpl in E. lia. }
  eexists. apply finish_sum, NetTcp.add_words_range. lia.
Qed.

Lemma keeps_arp_request t i m : keeps (send_arp_request t i m).
Proof. apply keeps_bind; [apply keeps_transmit|]. intros. apply keeps_ret. Qed.

Lemma keeps_transmit_to mac ip protocol payload : keeps (transmit_to mac ip protocol payload).
Proof.
  unfold transmit_to. destruct (_ <? _); [apply keeps_ret|].
  apply keeps_bind; [apply keeps_gets|intros [my_ip|]];
    (apply keeps_bind; [apply keeps_gets|intros [my_mac|]]); try apply keeps_ret.
  destruct (calculate_checksum_total (ipv4_header (20 + zlen payload) protocol 0 my_ip ip))
    as [c Hc]; [done|]. apply keeps_bind; [by eapply keeps_lift|]. intros a. apply keeps_transmit.
Qed.

Lemma keeps_cached ip protocol payload : keeps (transmit_ipv4_cached ip protocol payload).
Proof.
  unfold transmit_ipv4_cached.
  apply keeps_bind; [apply keeps_gets|intros [hop|]]; [|apply keeps_ret].
  apply keeps_bind; [apply keeps_gets|intros [mac|]]; [apply keeps_transmit_to|].
  apply keeps_bind; [apply keeps_gets|intros [my_ip|]];
    (apply keeps_bind; [apply keeps_gets|intros [my_mac|]]); try apply keeps_ret.
  apply keeps_bind; [apply keeps_arp_request|]. intros. apply keeps_ret.
Qed.

Lemma keeps_tcp_transmit o : NetTcp.small_out o -> keeps (tcp_transmit o).
Proof.
  intros Ho. unfold tcp_transmit.
  apply keeps_bind; [apply keeps_gets|intros [ip|]]; [|apply keeps_ret].
  destruct (NetTcp.segment_bytes_total ip o Ho) as [b Hb].
  apply keeps_bind; [by eapply keeps_lift|]. intros seg.
  apply keeps_bind; [apply keeps_cached|]. intros. apply keeps_ret.
Qed.

Lemma new_out_small a b : NetTcp.small_tcp b -> Forall NetTcp.small_out (new_out a b).
Proof.
  intros [H1 H2]. unfold new_out. apply Forall_app. split; [|by apply Forall_drop].
  apply Forall_concat, Forall_lookup_2. intros i l Hl. rewrite list_lookup_imap in Hl.
  destruct (Tcp.tcbs b !! i) as [t|] eqn:E; [|done]. simpl in Hl. injection Hl as <-.
  apply Forall_drop, NetTcp.sm_tx. by eapply (Forall_lookup_1 _ _ _ _ H1).
Qed.

Lemma keeps_tcp_step f :
  (forall t, NetTcp.small_tcp t -> NetTcp.small_tcp (f t)) -> keeps (tcp_step f).
Proof.
  intros Hf s K. unfold tcp_step. assert (NetTcp.small_tcp (f (tcp s))) as Hs by apply Hf, K.
  set (s1 := set_tcp (f (tcp s)) s). assert (net_ok s1) as K1 by (destruct K; by split).
  change (wp (each tcp_transmit (new_out (tcp s) (f (tcp s)))) (fine s) s1).
  eapply wp_mono; [apply keeps_each; [|exact K1]|].
  - eapply Forall_impl; [by apply new_out_small|]. intros o. apply keeps_tcp_transmit.
  - intros a s2 [K2 R2]. split; [done|]. etrans; [|exact R2]. done.
Qed.

(** ** Input *)

(** The receive buffer. *)
Definition buffer (buf : list Z) : Prop := bytes_ok buf /\ zlen buf = 1514.

Lemma rx_buffer_ok f : bytes_ok f -> zlen f <= 1514 -> buffer (rx_buffer f).
Proof.
  intros Hf Hl. split; [apply Forall_app; split; [done|apply zeros_ok]|].
  unfold rx_buffer. rewrite zlen_app, zlen_zeros by lia. lia.
Qed.

Lemma slice_ip buf o : buffer buf -> 0 <= o <= 1510 -> ip_ok (slice o (o + 4) buf).
Proof. intros [B1 B2] Ho. split; [by apply slice_ok|]. rewrite zlen_slice; lia. Qed.

Lemma slice_mac buf o : buffer buf -> 0 <= o <= 1508 -> mac_ok (slice o (o + 6) buf).
Proof. intros [B1 B2] Ho. split; [by apply slice_ok|]. rewrite zlen_slice; lia. Qed.

Lemma update_first_Forall (P : ArpEntry -> Prop) p f l l' :
  (forall e, P e -> P (f e)) -> Forall P l -> update_first p f l = Some l' ->
  Forall P l' /\ length l' = length l.
Proof.
  intros Hf. revert l'. induction l as [|e l IH]; intros l' Hl; simpl; [done|].
  apply Forall_cons in Hl as [He Hl]. destruct (p e).
  { intros [= <-]. split; [|done]. constructor; auto. }
  destruct (update_first p f l) as [l1|]; simpl; [|done]. intros [= <-].
  destruct (IH l1 Hl eq_refl) as [F L]. split; [by constructor|]. simpl. by rewrite L.
Qed.

Lemma keeps_cache_insert_ok addr mac s :
  ip_ok addr -> mac_ok mac -> net_ok s -> net_ok (arp_cache_insert addr mac s).
Proof.
  intros Ha Hm K.
  assert (zlen (cache_insert addr mac (arp_cache s)) = ARP_CACHE_SIZE /\
    Forall (fun e => ip_ok (e_ip e) /\ mac_ok (e_mac e)) (cache_insert addr mac (arp_cache s)))
    as [L F]; [|destruct K; by split].
  pose proof (k_cache s K) as L. pose proof (k_entry s K) as F. unfold cache_insert, zlen in *.
  destruct (update_first (cached addr) _ _) as [l|] eqn:E.
  { apply (update_first_Forall (fun e => ip_ok (e_ip e) /\ mac_ok (e_mac e))) in E as [E1 E2];
      [by rewrite E2|by intros e [? ?]|exact F]. }
  clear E. destruct (update_first _ _ _) as [l|] eqn:E'; simpl; [|by split].
  apply (update_first_Forall (fun e => ip_ok (e_ip e) /\ mac_ok (e_mac e))) in E' as [E1 E2];
    [by rewrite E2|by intros e _|exact F].
Qed.

Lemma keeps_cache_insert addr mac :
  ip_ok addr -> mac_ok mac -> keeps (modify (arp_cache_insert addr mac)).
Proof.
  intros Ha Hm. apply keeps_modify. intros s K. split; [by apply keeps_cache_insert_ok|done].
Qed.

Lemma keeps_wake k : keeps (modify (wake_waiters k)).
Proof. apply keeps_modify. intros s K. split; [destruct K; by split|done]. Qed.

Lemma keeps_arp my_ip my_mac buf : buffer buf -> keeps (handle_arp my_ip my_mac buf).
Proof.
  intros B. unfold handle_arp.
  assert (keeps (modify (arp_cache_insert (slice 28 32 buf) (slice 22 28 buf)))) as Hc.
  { apply keeps_cache_insert; [apply (slice_ip buf 28); [done|lia]|apply (slice_mac buf 22); [done|lia]]. }
  destruct (_ && _).
  { apply keeps_bind; [done|]. intros _. apply keeps_bind; [apply keeps_transmit|].
    intros. apply keeps_ret. }
  destruct (_ =? 2); [|apply keeps_ret]. apply keeps_bind; [done|]. intros _. apply keeps_wake.
Qed.

(** The UDP layer returns, and passes on a part of the segment. *)
Lemma handle_incoming_wp src dst segment u :
  UdpInv.wf u -> ip_ok src -> bytes_ok segment ->
  wp (Udp.handle_incoming src dst segment)
    (fun r u' => UdpInv.wf u' /\
       match r with Udp.ToDns d => bytes_ok d /\ zlen d < 2 ^ 16 | _ => True end) u.
Proof.
  intros W Hs Hb. assert (UdpInv.wf (Udp.handle_incoming src dst segment u).1) as W'.
  { eapply UdpInv.step_wf; [exact W|]. by constructor. }
  unfold wp. unfold Udp.handle_incoming in *.
  destruct (Z.ltb_spec (zlen segment) Udp.HEADER_LEN) as [|L]; [done|].
  set (len := be16 (byte_at segment 4) (byte_at segment 5)) in *.
  unfold Udp.HEADER_LEN in *.
  assert (0 <= len < 2 ^ 16) as Hl by (apply UdpInv.be16_bound; apply Dns.byte_at_ok; done || lia).
  destruct (Z.ltb_spec len 8); [done|]. destruct (Z.ltb_spec (zlen segment) len); [done|].
  simpl orb in *. cbv iota in *.
  assert (exists c, (if bool_decide (slice 6 8 (slice 0 len segment) = [0; 0]) then Ok 0
    else transport_checksum src dst Udp.PROTOCOL (slice 0 len segment)) = Ok c) as [c Ec].
  { case_bool_decide; [eauto|apply NetTcp.transport_checksum_total]. }
  rewrite Ec in *. destruct (negb _); [done|]. destruct (_ =? Dns.SRC_PORT).
  { split; [done|]. split; [by apply slice_ok|]. rewrite zlen_slice; lia. }
  destruct (Udp.find_socket _ u) as [i|]; [|done].
  set (d := Udp.mkDatagram _ _) in *. unfold Udp.deliver in *.
  destruct (Udp.socks u !! i); [|done]. by destruct (Udp.accepts _ _).
Qed.

Lemma keeps_udp src dst segment :
  ip_ok src -> bytes_ok segment -> keeps (udp_incoming src dst segment).
Proof.
  intros Hs Hb s K. unfold udp_incoming. apply wp_bind.
  pose proof (handle_incoming_wp src dst segment (udp s) (k_udp s K) Hs Hb) as W.
  unfold wp in W. unfold wp at 1, on_udp.
  destruct (Udp.handle_incoming src dst segment (udp s)) as [u [r| | |]]; try contradiction.
  destruct W as [W Wr]. assert (net_ok (set_udp u s)) as K1 by (destruct K; by split).
  assert (forall A (a : A) s2, fine (set_udp u s) a s2 -> fine s a s2) as G by done.
  destruct r as [|d|i]; [done| |eapply wp_mono; [by apply keeps_wake|auto]].
  pose proof (Dns.handle_udp_ends src d (proj1 Wr) ltac:(lia)) as D.
  destruct (Dns.handle_udp src d) as [a| | |]; try contradiction. apply wp_bind. simpl.
  unfold wp at 1. simpl. destruct a as [a|]; [|done]. split; [destruct K1; by split|done].
Qed.

Lemma buffer_splice off src buf :
  buffer buf -> bytes_ok src -> 0 <= off -> off + zlen src <= 1514 -> buffer (splice off src buf).
Proof.
  intros [B1 B2] Hs H1 H2. split; [by apply splice_ok|]. rewrite zlen_splice; lia.
Qed.

Lemma keeps_push r : keeps (modify (push_icmp_reply r)).
Proof.
  apply keeps_modify. intros s K. unfold push_icmp_reply. destruct (_ =? _); [done|].
  split; [|done]. destruct K. split; try done; simpl.
  - unfold zlen in *. by rewrite length_insert.
  - by apply Z.mod_pos_bound.
Qed.

(** The lengths in an echo request that make [handle_incoming_packets] panic. *)
Definition bad_lengths (buf : list Z) (ihl : Z) : bool :=
  (ihl =? 0) || (field16 buf 16 <=? ihl) || (1500 <? field16 buf 16).

(** The message with its type and checksum cleared. *)
Definition cleared (buf : list Z) (ihl : Z) : list Z :=
  splice (14 + ihl + 2) [0; 0] (splice (14 + ihl) [0] buf).

Lemma cleared_ok buf ihl : buffer buf -> 4 <= ihl <= 60 -> buffer (cleared buf ihl).
Proof.
  intros B Hi. apply buffer_splice; [apply buffer_splice; [done| | |]| | |];
    first [apply (zeros_ok 1) | apply (zeros_ok 2) | change (zlen [0; 0]) with 2; lia
          | change (zlen [0]) with 1; lia | lia].
Qed.

Lemma cleared_total buf ihl :
  buffer buf -> 4 <= ihl <= 60 -> field16 (cleared buf ihl) 16 = field16 buf 16.
Proof.
  intros [B1 B2] Hi. unfold field16, cleared.
  assert (zlen (splice (14 + ihl) [0] buf) = 1514) as L.
  { rewrite zlen_splice; [done|lia|]. change (zlen [0]) with 1. lia. }
  rewrite !byte_at_splice by lia. change (zlen [0; 0]) with 2. change (zlen [0]) with 1.
  rewrite !(proj2 (Z.leb_gt _ _)) by lia. done.
Qed.

Lemma field16_range buf o : buffer buf -> 0 <= o < 1513 -> 0 <= field16 buf o < 2 ^ 16.
Proof. intros [B L] Ho. apply UdpInv.be16_bound; apply Dns.byte_at_ok; done || lia. Qed.

Lemma echo_reply_panics my_ip my_mac buf ihl s :
  buffer buf -> ihl = 0 \/ 4 <= ihl <= 60 -> bad_lengths buf ihl = true ->
  (echo_reply my_ip my_mac buf ihl s).2 = Panic.
Proof.
  intros B Hi Hb. unfold echo_reply. fold (cleared buf ihl). destruct Hi as [->|Hi].
  - assert (field16 (cleared buf 0) 16 = 0) as ->; [|done].
    unfold field16, cleared. destruct B as [B1 B2].
    assert (zlen (splice (14 + 0) [0] buf) = 1514) as L.
    { rewrite zlen_splice; [done|lia|]. change (zlen [0]) with 1. lia. }
    rewrite !(byte_at_splice (14 + 0 + 2)) by lia. done.
  - rewrite cleared_total by done. pose proof (field16_range buf 16 B ltac:(lia)) as Hr. unfold bad_lengths in Hb.
    rewrite (proj2 (Z.eqb_neq ihl 0)) in Hb by lia. simpl in Hb.
    destruct (Z.le_gt_cases ihl (field16 buf 16)) as [Hle|Hgt].
    + rewrite (kbind_Ok _ _ s s (field16 buf 16 - ihl)) by (apply arith64_small; unfold u64_max; lia).
      destruct (Z.ltb_spec 1514 (14 + ihl + (field16 buf 16 - ihl))); [done|].
      rewrite (proj2 (Z.ltb_ge 1500 _)), orb_false_r in Hb by lia. apply Z.leb_le in Hb.
      replace (field16 buf 16) with ihl by lia.
      unfold kbind, lift_res, calculate_checksum, slice. rewrite Z.sub_diag, Z.add_0_r, Z.sub_diag. done.
    + unfold arith64. rewrite (proj2 (Z.leb_gt 0 _)) by lia. cbn [andb]. destruct overflow_checks; [done|].
      rewrite (kbind_Ok _ _ s s (u64 (field16 buf 16 - ihl))) by done.
      destruct (Z.ltb_spec 1514 (14 + ihl + u64 (field16 buf 16 - ihl))) as [|Hs]; [done|].
      exfalso. unfold u64 in Hs. dlia.
Qed.

Lemma slice_nonempty lo hi (b : list Z) : 0 <= lo -> lo < hi -> lo < zlen b -> slice lo hi b <> [].
Proof.
  intros H1 H2 H3 E. apply (f_equal length) in E. unfold slice in E.
  rewrite length_take, length_drop in E. unfold zlen in *. simpl in E. lia.
Qed.

Lemma splice_long off (src b : list Z) : 14 < off -> 14 < zlen b -> 14 < zlen (splice off src b).
Proof. unfold splice, zlen. rewrite !length_app, length_take. lia. Qed.

Lemma keeps_echo_reply my_ip my_mac buf ihl :
  buffer buf -> 4 <= ihl <= 60 -> bad_lengths buf ihl = false ->
  keeps (echo_reply my_ip my_mac buf ihl).
Proof.
  intros B Hi Hb. unfold echo_reply. fold (cleared buf ihl). rewrite cleared_total by done.
  unfold bad_lengths in Hb. apply orb_false_iff in Hb as [Hb Ht]. apply Z.ltb_ge in Ht.
  apply orb_false_iff in Hb as [_ Hb]. apply Z.leb_gt in Hb. pose proof (field16_range buf 16 B ltac:(lia)) as Hr.
  intros s K. unfold wp. rewrite (kbind_Ok _ _ s s (field16 buf 16 - ihl)) by (apply arith64_small; unfold u64_max; lia).
  replace (14 + ihl + (field16 buf 16 - ihl)) with (14 + field16 buf 16) by lia.
  rewrite (proj2 (Z.ltb_ge _ _)) by lia. revert s K.
  match goal with |- forall s, net_ok s -> match ?m s with _ => _ end => change (keeps m) end.
  assert (zlen (cleared buf ihl) = 1514) as Lc by by apply cleared_ok.
  destruct (calculate_checksum_total (slice (14 + ihl) (14 + field16 buf 16) (cleared buf ihl)))
    as [c Hc]; [apply slice_nonempty; lia|].
  apply keeps_bind; [by eapply keeps_lift|]. intros c'.
  match goal with |- context [calculate_checksum (slice 14 _ ?b)] =>
    destruct (calculate_checksum_total (slice 14 (14 + ihl) b)) as [d Hd] end.
  { apply slice_nonempty; [lia|lia|]. do 4 (apply splice_long; [lia|]). lia. }
  apply keeps_bind; [by eapply keeps_lift|]. intros d'.
  apply keeps_bind; [apply keeps_transmit|]. intros. apply keeps_ret.
Qed.

(** A reply for user land is put into the ring, or stops the kernel when its
    length cannot be computed. *)
Lemma keeps_echo_received buf ihl :
  overflow_checks && (field16 buf 16 <? ihl) = false -> buffer buf -> 0 <= ihl -> keeps (echo_received buf ihl).
Proof.
  intros Hb B Hi. apply keeps_bind; [|intros n; apply keeps_push]. intros s K. unfold wp, arith64.
  destruct (Z.leb_spec 0 (field16 buf 16 - ihl)); cbn [andb].
  - pose proof (field16_range buf 16 B ltac:(lia)). by rewrite (proj2 (Z.leb_le _ _)) by (unfold u64_max; lia).
  - rewrite (proj2 (Z.ltb_lt _ _)), andb_true_r in Hb by lia. by rewrite Hb.
Qed.

Lemma echo_received_panics buf ihl s :
  overflow_checks = true -> field16 buf 16 < ihl -> (echo_received buf ihl s).2 = Panic.
Proof.
  intros Hc Hl. unfold echo_received, arith64, kbind. rewrite (proj2 (Z.leb_gt 0 _)), Hc by lia. done.
Qed.

(** ** Whole frames *)

Definition ihl_of (buf : list Z) : Z := Z.land (byte_at buf 14) 0x0F * 4.

(** An ICMP message of type [ty] for [my_ip]. *)
Definition icmp_for (my_ip f : list Z) (ty : Z) : bool :=
  let buf := rx_buffer f in
  let ihl := ihl_of buf in
  (14 + 20 <=? zlen f) && (field16 buf 12 =? 0x0800) && bool_decide (slice 30 34 buf = my_ip) &&
  (byte_at buf 23 =? 1) && (14 + ihl + 8 <=? zlen f) && (byte_at buf (14 + ihl) =? ty).

(** An echo request whose lengths stop the kernel, and an echo reply whose total
    length is below the header length. *)
Definition bad_echo (my_ip f : list Z) : bool :=
  icmp_for my_ip f 8 && bad_lengths (rx_buffer f) (ihl_of (rx_buffer f)).
Definition short_reply (my_ip f : list Z) : bool :=
  icmp_for my_ip f 0 && (field16 (rx_buffer f) 16 <? ihl_of (rx_buffer f)).

(** The frames that stop the kernel, in a build with or without overflow
    checks. *)
Definition stops (my_ip f : list Z) : bool := bad_echo my_ip f || overflow_checks && short_reply my_ip f.

Lemma ihl_range buf : buffer buf -> ihl_of buf = 0 \/ 4 <= ihl_of buf <= 60.
Proof.
  intros [B1 B2]. unfold ihl_of. change 0x0F with (Z.ones 4). rewrite Z.land_ones by lia.
  pose proof (Z.mod_pos_bound (byte_at buf 14) (2 ^ 4)). lia.
Qed.

(** Handling the frame in the buffer. *)
Definition dispatch (now : Z) (my_ip my_mac f : list Z) : M (net N) unit :=
  let buf := rx_buffer f in
  if field16 buf 12 =? 0x0806 then handle_arp my_ip my_mac buf
  else if field16 buf 12 =? 0x0800 then handle_ipv4 now my_ip my_mac buf (zlen f)
  else kret tt.

Lemma keeps_dispatch now my_ip my_mac f :
  bytes_ok f -> zlen f <= 1514 -> stops my_ip f = false -> keeps (dispatch now my_ip my_mac f).
Proof.
  intros Hf Hl Hb. pose proof (rx_buffer_ok f Hf Hl) as B. apply orb_false_iff in Hb as [Hb Hs].
  unfold dispatch, bad_echo, short_reply, icmp_for in *. set (buf := rx_buffer f) in *.
  destruct (_ =? 0x0806); [by apply keeps_arp|].
  destruct (field16 buf 12 =? 0x0800) eqn:E0; [|apply keeps_ret]. unfold handle_ipv4.
  destruct (Z.ltb_spec (zlen f) (14 + 20)); [apply keeps_ret|].
  rewrite (proj2 (Z.leb_le _ _)) in Hb, Hs by lia. fold (ihl_of buf). simpl andb in Hb, Hs.
  cbv zeta beta. case_bool_decide; [|apply keeps_ret]. simpl negb. cbv iota.
  destruct (_ =? 17).
  { destruct ((_ <=? _) && (_ <=? _)); [|apply keeps_ret]. apply keeps_udp; [apply (slice_ip buf 26); [done|lia]|].
    by apply slice_ok, B. }
  destruct (_ =? Tcp.PROTOCOL).
  { destruct ((_ <=? _) && (_ <=? _)); [|apply keeps_ret]. apply keeps_tcp_step. intros t. apply NetTcp.small_incoming. }
  destruct (_ =? 1); [|apply keeps_ret]. unfold handle_icmp.
  destruct (Z.ltb_spec (zlen f) (14 + ihl_of buf + 8)); [apply keeps_ret|].
  rewrite (proj2 (Z.leb_le _ _)) in Hb, Hs by lia. simpl andb in Hb, Hs.
  destruct (_ =? 8); [|destruct (_ =? 0); [|apply keeps_ret]].
  - simpl andb in Hb. apply keeps_echo_reply; [done| |done].
    destruct (ihl_range buf B) as [E|]; [|done]. exfalso. unfold bad_lengths in Hb. by rewrite E in Hb.
  - simpl andb in Hs. apply keeps_echo_received; [done|done|]. destruct (ihl_range buf B); lia.
Qed.

(** A message of type [ty] reaches its branch. *)
Lemma dispatch_icmp now my_ip my_mac f s ty :
  icmp_for my_ip f ty = true ->
  dispatch now my_ip my_mac f s =
    (let buf := rx_buffer f in
     if ty =? 8 then echo_reply my_ip my_mac buf (ihl_of buf)
     else if ty =? 0 then echo_received buf (ihl_of buf) else kret tt) s.
Proof.
  unfold icmp_for, dispatch. set (buf := rx_buffer f). intros Hb. repeat apply andb_true_iff in Hb as [Hb ?].
  repeat match goal with
  | E : (_ <=? _) = true |- _ => apply Z.leb_le in E
  | E : (_ =? _) = true |- _ => apply Z.eqb_eq in E
  end.
  match goal with E : field16 buf 12 = _ |- _ => rewrite E end. simpl. unfold handle_ipv4.
  rewrite (proj2 (Z.ltb_ge _ _)) by lia. fold (ihl_of buf).
  match goal with E : bool_decide _ = true |- _ => rewrite E end.
  match goal with E : byte_at buf 23 = _ |- _ => rewrite E end. simpl. unfold handle_icmp.
  rewrite (proj2 (Z.ltb_ge _ _)) by lia. match goal with E : byte_at buf (14 + _) = _ |- _ => by rewrite E end.
Qed.

Lemma dispatch_panics now my_ip my_mac f s :
  bytes_ok f -> zlen f <= 1514 -> stops my_ip f = true ->
  (dispatch now my_ip my_mac f s).2 = Panic.
Proof.
  intros Hf Hl Hb. pose proof (rx_buffer_ok f Hf Hl) as B. apply orb_true_iff in Hb as [Hb|Hb].
  - apply andb_true_iff in Hb as [Hi Hb]. rewrite (dispatch_icmp _ _ _ _ _ 8 Hi). cbn zeta.
    by apply echo_reply_panics, Hb; [|apply ihl_range].
  - apply andb_true_iff in Hb as [Hc Hb]. apply andb_true_iff in Hb as [Hi Hb].
    rewrite (dispatch_icmp _ _ _ _ _ 0 Hi). cbn zeta. apply Z.ltb_lt in Hb. by apply echo_received_panics.
Qed.

(** Taking a frame from the card. *)
Lemma poll_rx_wp s :
  net_ok s ->
  wp (poll_rx 1514) (fun f s' => net_ok s' /\ get_mac_address s' = get_mac_address s /\
    host_ip s' = host_ip s /\ rx_work s' = rx_work s /\ wire s' = wire s /\
    arp_cache s' = arp_cache s /\ udp s' = udp s /\ tcp s' = tcp s /\ woken s' = woken s /\
    dns_result s' = dns_result s /\ active_nic s' = polled s /\
    f = take 1514 (default [] (head (waiting s))) /\ waiting s' = tail (waiting s)) s.
Proof.
  intros K. unfold wp, poll_rx, waiting, get_mac_address, wire, polled.
  destruct (active_nic s) as [n|] eqn:E; simpl; [|rewrite E; by split_and!].
  pose proof (nic_poll_rx_ok n 1514 (k_nic s K n E) ltac:(lia)) as T.
  destruct (nic_poll_rx n 1514) as [n' f]. destruct T as (T1 & T2 & T3 & T4). simpl.
  rewrite T2, T3. split; [destruct K; split; try done; by intros ? [= <-]|].
  split_and!; try done; by destruct (arrived n) as [|g gs]; destruct T4.
Qed.

Lemma waiting_ok s : net_ok s -> Forall bytes_ok (waiting s).
Proof.
  intros K. unfold waiting. destruct (active_nic s) as [n|] eqn:E; simpl; [|constructor].
  by apply nic_arrived_ok, (k_nic s K).
Qed.

(** [handle_incoming_packets] on the first waiting frame. *)
Lemma packets_eq now my_ip my_mac s :
  handle_incoming_packets now my_ip my_mac s =
  (let! f := poll_rx 1514 in
   if zlen f <? 14 then kret false else run! dispatch now my_ip my_mac f in kret true) s.
Proof. done. Qed.

(** Handling a frame of legal size is [dispatch] after it was taken. *)
Lemma packets_taken now my_ip my_mac s f fs Q :
  net_ok s -> waiting s = f :: fs -> 14 <= zlen f <= 1514 ->
  (forall s1, net_ok s1 -> arp_cache s1 = arp_cache s -> udp s1 = udp s -> woken s1 = woken s ->
     wire s1 = wire s -> active_nic s1 = polled s -> wp (dispatch now my_ip my_mac f) (fun _ => Q) s1) ->
  wp (handle_incoming_packets now my_ip my_mac) (fun b s' => b = true /\ Q s') s.
Proof.
  intros K Ew L HQ. unfold wp. rewrite packets_eq. apply wp_bind.
  eapply wp_mono; [by apply poll_rx_wp|].
  intros g s1 (K1 & _ & _ & _ & W & C & U & _ & Wk & _ & Ep & Eg & _). rewrite Ew in Eg. simpl in Eg.
  assert (take 1514 f = f) as Et by (apply take_ge; unfold zlen in *; lia). rewrite Et in Eg. subst g.
  rewrite (proj2 (Z.ltb_ge _ _)) by lia. apply wp_bind.
  eapply wp_mono; [by apply HQ|]. intros [] s2 HQ2. by apply wp_ret.
Qed.

Lemma packets_wp now my_ip my_mac s f fs :
  net_ok s -> waiting s = f :: fs -> 14 <= zlen f -> stops my_ip (take 1514 f) = false ->
  wp (handle_incoming_packets now my_ip my_mac)
    (fun b s' => net_ok s' /\ b = true /\ waiting s' = fs /\
       get_mac_address s' = get_mac_address s /\ host_ip s' = host_ip s /\ rx_work s' = rx_work s) s.
Proof.
  intros K E L Hb. unfold wp. rewrite packets_eq. apply wp_bind.
  eapply wp_mono; [by apply poll_rx_wp|]. simpl.
  intros g s1 (K1 & A1 & A2 & A3 & _ & _ & _ & _ & _ & _ & _ & Eg & Ew). rewrite E in Eg, Ew. simpl in Eg, Ew.
  pose proof (waiting_ok s K) as W. rewrite E in W. apply Forall_cons in W as [Wf _].
  assert (bytes_ok g /\ 14 <= zlen g <= 1514) as [Hg Lg].
  { subst g. split; [by apply Forall_take|]. unfold zlen in *. rewrite length_take. lia. }
  rewrite (proj2 (Z.ltb_ge _ _)) by lia. apply wp_bind. subst g.
  eapply wp_mono; [apply keeps_dispatch; done || lia|].
  intros [] s2 [K2 (R1 & R2 & R3 & R4)]. simpl.
  unfold wp. simpl. split_and!; try done; congruence.
Qed.

Lemma packets_panic now my_ip my_mac s f fs :
  net_ok s -> waiting s = f :: fs -> 14 <= zlen f -> stops my_ip (take 1514 f) = true ->
  (handle_incoming_packets now my_ip my_mac s).2 = Panic.
Proof.
  intros K E L Hb. rewrite packets_eq. pose proof (poll_rx_wp s K) as P. unfold wp in P.
  unfold kbind at 1. destruct (poll_rx 1514 s) as [s1 [g| | |]]; try contradiction.
  destruct P as (K1 & _ & _ & _ & _ & _ & _ & _ & _ & _ & _ & Eg & _). rewrite E in Eg. simpl in Eg.
  pose proof (waiting_ok s K) as W. rewrite E in W. apply Forall_cons in W as [Wf _].
  assert (bytes_ok g /\ 14 <= zlen g <= 1514) as [Hg Lg].
  { subst g. split; [by apply Forall_take|]. unfold zlen in *. rewrite length_take. lia. }
  rewrite (proj2 (Z.ltb_ge _ _)) by lia. subst g. unfold kbind.
  pose proof (dispatch_panics now my_ip my_mac _ s1 Hg ltac:(lia) Hb) as D.
  destruct (dispatch _ _ _ _ _) as [s2 []]; by simpl in D.
Qed.

(** Frames the loop of [poll] can take. *)
Definition harmless (my_ip f : list Z) : Prop := 14 <= zlen f /\ stops my_ip (take 1514 f) = false.

Lemma drain_wp n now my_ip my_mac s :
  net_ok s -> Forall (harmless my_ip) (waiting s) ->
  wp (drain n now my_ip my_mac)
    (fun k s' => net_ok s' /\ k = Nat.min n (length (waiting s)) /\
       waiting s' = drop k (waiting s) /\ rx_work s' = rx_work s) s.
Proof.
  revert s. induction n as [|n IH]; intros s K Hw; simpl; [done|]. apply wp_bind.
  destruct (waiting s) as [|f fs] eqn:E.
  - unfold wp at 1. rewrite packets_eq. apply wp_bind. eapply wp_mono; [by apply poll_rx_wp|].
    simpl. rewrite E. intros g s1 (K1 & A1 & A2 & A3 & _ & _ & _ & _ & _ & _ & _ & -> & Ew). simpl.
    by split_and!.
  - apply Forall_cons in Hw as [[L Hb] Hw]. eapply wp_mono; [by eapply packets_wp|].
    simpl. intros b s1 (K1 & -> & W1 & _ & _ & R1). apply wp_bind.
    eapply wp_mono; [apply IH; [done|by rewrite W1]|]. simpl.
    intros k s2 (K2 & -> & W2 & R2). rewrite W1 in *. apply wp_ret. split_and!; try done. congruence.
Qed.

Lemma keeps_tcp_on_timer now : keeps (tcp_on_timer now).
Proof.
  intros s K. unfold wp, tcp_on_timer. apply keeps_each; [|done].
  apply Forall_forall. intros c _. apply keeps_tcp_step. intros t. apply NetTcp.small_timer.
Qed.

Lemma poll_wp now s :
  net_ok s -> Forall (harmless (host_ip s)) (waiting s) ->
  wp (poll now)
    (fun _ s' => net_ok s' /\
       if rx_work s && bool_decide (host_ip s <> [0; 0; 0; 0])
       then waiting s' = drop 8 (waiting s) /\ (waiting s' <> [] -> rx_work s' = true)
       else waiting s' = waiting s) s.
Proof.
  intros K Hw. unfold poll. apply wp_bind.
  match goal with |- wp _ ?Q _ => change (Q (rx_work s) (set_rx_work false s)); cbv beta end.
  set (s0 := set_rx_work false s). assert (net_ok s0) as K0 by (destruct K; by split).
  apply wp_bind, wp_gets. destruct (is_ready s0) eqn:Hr; simpl negb; cbv iota.
  2: { apply wp_ret. split; [done|]. unfold is_ready, s0 in Hr. simpl in Hr.
       unfold waiting. simpl. destruct (active_nic s); [done|]. by destruct (_ && _). }
  apply wp_bind. eapply wp_mono; [by apply keeps_tcp_on_timer|].
  intros [] s1 [K1 (R1 & R2 & R3 & R4)]. apply wp_bind, wp_gets. apply wp_bind, wp_gets.
  unfold get_ip_address. rewrite R3. change (host_ip s0) with (host_ip s).
  change (waiting s0) with (waiting s) in R1.
  case_bool_decide as E0.
  { apply wp_ret. split; [done|]. rewrite bool_decide_eq_false_2 by tauto. by rewrite andb_false_r. }
  rewrite (bool_decide_eq_true_2 (host_ip s <> _)), andb_true_r by done.
  rewrite R2. unfold get_mac_address, is_ready in *. change (active_nic s0) with (active_nic s) in *.
  destruct (active_nic s) as [n|]; [|done]. cbn [fmap option_fmap option_map].
  destruct (rx_work s); cbn [negb]; [|apply wp_ret; by split].
  apply wp_bind. eapply wp_mono; [apply drain_wp; [done|by rewrite R1]|].
  rewrite R1. intros k s2 (K2 & -> & W2 & R5). unfold RX_DRAIN_BUDGET in *.
  case_bool_decide as E8.
  - apply wp_modify. split; [destruct K2; by split|]. split; [|done].
    change (waiting s2 = drop 8 (waiting s)). by rewrite W2, E8.
  - apply wp_ret. split; [done|]. rewrite W2, !drop_ge by lia. done.
Qed.

End rx.
End NetRx.
