(* ===== verification/NetFrames.v ===== *)
(** Frames on the wire: what the receiver finds in the frames that ARP, IPv4
    and UDP build. *)

From S2P Require Import Prelude Checksum Dns Tcp NetTcp Udp UdpInv Net NetRx.
Open Scope kmonad_scope.

Module NetFrames.
Import Net NetRx.

(** ** Lists of known length *)

Lemma list4 (l : list Z) : zlen l = 4 -> exists a b c d, l = [a; b; c; d].
Proof.
  intros H. destruct l as [|a [|b [|c [|d [|e l]]]]]; try (unfold zlen in H; simpl in H; lia). eauto.
Qed.

Lemma list6 (l : list Z) : zlen l = 6 -> exists a b c d e f, l = [a; b; c; d; e; f].
Proof.
  intros H. destruct l as [|a [|b [|c [|d [|e [|f [|g l]]]]]]]; try (unfold zlen in H; simpl in H; lia).
  eauto 10.
Qed.

Lemma be2 v : be_bytes 2 v = [v / 256 mod 256; v mod 256].
Proof. done. Qed.

Lemma be16_val v : 0 <= v < 2 ^ 16 -> be16 (v / 256 mod 256) (v mod 256) = v.
Proof. intros. unfold be16. dlia. Qed.

Lemma rx_buffer_app h p : rx_buffer (h ++ p) = h ++ p ++ zeros (1514 - zlen (h ++ p)).
Proof. unfold rx_buffer. by rewrite <- app_assoc. Qed.

(** ** IPv4 *)

Definition ipv4_frame (dst_mac src_mac : list Z) (protocol checksum : Z) (src dst payload : list Z)
  : list Z :=
  dst_mac ++ src_mac ++ be_bytes 2 0x0800 ++
  ipv4_header (20 + zlen payload) protocol checksum src dst ++ payload.

Lemma zlen_ipv4_frame dm sm protocol checksum src dst payload :
  zlen dm = 6 -> zlen sm = 6 -> zlen src = 4 -> zlen dst = 4 ->
  zlen (ipv4_frame dm sm protocol checksum src dst payload) = 34 + zlen payload.
Proof.
  intros H1 H2 H3 H4. unfold ipv4_frame, ipv4_header. rewrite !zlen_app, !Dns.zlen_be_bytes, H1, H2, H3, H4.
  unfold zlen. simpl. lia.
Qed.

(** The fields the receiver reads. *)
Lemma ipv4_frame_fields dm sm protocol checksum src dst payload :
  zlen dm = 6 -> zlen sm = 6 -> zlen src = 4 -> zlen dst = 4 -> zlen payload <= 1480 ->
  let buf := rx_buffer (ipv4_frame dm sm protocol checksum src dst payload) in
  field16 buf 12 = 0x0800 /\ ihl_of buf = 20 /\ field16 buf 16 = 20 + zlen payload /\
  byte_at buf 23 = protocol /\ slice 26 30 buf = src /\ slice 30 34 buf = dst /\
  slice 34 (34 + zlen payload) buf = payload.
Proof.
  intros H1 H2 H3 H4 Hp buf. pose proof (zlen_nonneg payload).
  destruct (list6 dm H1) as (?&?&?&?&?&?&->), (list6 sm H2) as (?&?&?&?&?&?&->),
    (list4 src H3) as (?&?&?&?&->), (list4 dst H4) as (?&?&?&?&->).
  unfold buf, ipv4_frame, ipv4_header. rewrite !be2, !app_assoc, rx_buffer_app. simpl app.
  split_and!; try done.
  - unfold field16, byte_at. simpl nth. apply be16_val. lia.
  - set (z := zeros _). change (take (Z.to_nat (34 + zlen payload - 34)) (payload ++ z) = payload).
    replace (Z.to_nat (34 + zlen payload - 34)) with (length payload) by (unfold zlen; lia).
    by rewrite take_app_length.
Qed.

(** ** ARP *)

Lemma arp_frame_fields dm sm op smac sip tmac tip :
  zlen dm = 6 -> zlen sm = 6 -> zlen smac = 6 -> zlen sip = 4 -> zlen tmac = 6 -> zlen tip = 4 ->
  0 <= op < 2 ^ 16 ->
  let f := arp_frame dm sm op smac sip tmac tip in
  zlen f = 42 /\ field16 (rx_buffer f) 12 = 0x0806 /\ field16 (rx_buffer f) 20 = op /\
  slice 22 28 (rx_buffer f) = smac /\ slice 28 32 (rx_buffer f) = sip /\
  slice 38 42 (rx_buffer f) = tip.
Proof.
  intros H1 H2 H3 H4 H5 H6 Hop f.
  destruct (list6 dm H1) as (?&?&?&?&?&?&->), (list6 sm H2) as (?&?&?&?&?&?&->),
    (list6 smac H3) as (?&?&?&?&?&?&->), (list4 sip H4) as (?&?&?&?&->),
    (list6 tmac H5) as (?&?&?&?&?&?&->), (list4 tip H6) as (?&?&?&?&->).
  unfold f, arp_frame. rewrite !be2. split; [done|].
  unfold rx_buffer. simpl app. split_and!; try done. by apply be16_val.
Qed.

(** The cache after an insertion: the new mapping when there was an entry for
    the address or a free one, nothing otherwise. *)
Definition room (addr : list Z) (l : list ArpEntry) : Prop :=
  Exists (fun e => cached addr e = true \/ e_valid e = false) l.

Lemma update_first_lookup p f l l' addr :
  update_first p f l = Some l' ->
  (forall e, p e = true -> cached addr (f e) = cached addr e) ->
  (forall e, p e = true -> cached addr e = false) ->
  cache_lookup addr l' = cache_lookup addr l.
Proof.
  intros E Hf Hp. unfold cache_lookup. revert l' E. induction l as [|e l IH]; intros l'; simpl; [done|].
  destruct (p e) eqn:P.
  - intros [= <-]. simpl. by rewrite (Hf e P), (Hp e P).
  - destruct (update_first p f l) as [l1|]; simpl; [|done]. intros [= <-]. simpl.
    destruct (cached addr e); [done|]. by apply IH.
Qed.

Lemma update_first_hit p f l l' addr :
  update_first p f l = Some l' ->
  (forall e, p e = true -> cached addr (f e) = true) ->
  (forall e, p e = false -> cached addr e = false) \/ first_such (cached addr) l = None ->
  exists e, p e = true /\ cache_lookup addr l' = Some (e_mac (f e)).
Proof.
  intros E Hf. revert l' E. unfold cache_lookup.
  induction l as [|e l IH]; intros l'; simpl; [done|]. destruct (p e) eqn:P.
  - intros [= <-] _. exists e. split; [done|]. simpl. by rewrite (Hf e P).
  - destruct (update_first p f l) as [l1|]; simpl; [|done]. intros [= <-] Hc.
    assert (cached addr e = false) as Ce by (destruct Hc as [Hc|Hc]; [auto|by destruct (cached addr e)]).
    simpl. rewrite Ce. apply IH; [done|]. destruct Hc as [Hc|Hc]; [auto|]. rewrite Ce in Hc. auto.
Qed.

Lemma update_first_None p f l : update_first p f l = None -> forall e, e ∈ l -> p e = false.
Proof.
  induction l as [|e l IH]; simpl; [by intros _ e ?%not_elem_of_nil|].
  destruct (p e) eqn:P; [done|]. destruct (update_first p f l); [done|].
  intros _ x [->|Hx]%elem_of_cons; [done|by apply IH].
Qed.

Lemma cache_insert_lookup addr mac l :
  room addr l -> cache_lookup addr (cache_insert addr mac l) = Some mac.
Proof.
  intros R. unfold cache_insert.
  destruct (update_first (cached addr) _ l) as [l'|] eqn:E.
  { destruct (update_first_hit _ _ _ _ addr E) as (e & _ & ->); [done|by left|done]. }
  assert (first_such (cached addr) l = None) as F.
  { apply first_such_None. by apply (update_first_None _ _ _ E). }
  destruct (update_first (fun e => negb (e_valid e)) _ l) as [l'|] eqn:E'; simpl.
  - destruct (update_first_hit _ _ _ _ addr E') as (e & _ & ->); [|by right|done].
    intros e _. unfold cached. simpl. by rewrite bool_decide_eq_true_2.
  - exfalso. apply Exists_exists in R as (e & He & [R|R]).
    + by rewrite (update_first_None _ _ _ E e He) in R.
    + pose proof (update_first_None _ _ _ E' e He) as V. simpl in V. by rewrite R in V.
Qed.

Lemma cache_insert_other addr mac l addr' :
  addr' <> addr -> cache_lookup addr' (cache_insert addr mac l) = cache_lookup addr' l.
Proof.
  intros Hn. unfold cache_insert.
  destruct (update_first (cached addr) _ l) as [l'|] eqn:E.
  { apply (update_first_lookup _ _ _ _ addr' E); [done|]. intros e [_ C]%andb_true_iff.
    apply bool_decide_eq_true_1 in C. unfold cached.
    rewrite (bool_decide_eq_false_2 (e_ip e = addr')) by congruence. apply andb_false_r. }
  destruct (update_first (fun e => negb (e_valid e)) _ l) as [l'|] eqn:E'; simpl; [|done].
  apply (update_first_lookup _ _ _ _ addr' E'); intros e V%negb_true_iff; unfold cached; simpl.
  - rewrite V, bool_decide_eq_false_2; [done|congruence].
  - by rewrite V.
Qed.

Lemma cache_insert_full addr mac l : ~ room addr l -> cache_insert addr mac l = l.
Proof.
  intros R. assert (forall e, e ∈ l -> cached addr e = false /\ e_valid e = true) as G.
  { intros e He. destruct (cached addr e) eqn:C, (e_valid e) eqn:V; try done; exfalso; apply R;
      apply Exists_exists; eauto. }
  assert (forall p f, (forall e, e ∈ l -> p e = false) -> update_first p f l = None) as U.
  { intros p f. clear. induction l as [|e l IH]; intros Hp; simpl; [done|].
    rewrite (Hp e) by left. rewrite IH; [done|]. intros x Hx. apply Hp. by right. }
  unfold cache_insert. rewrite !U; [done| |].
  - intros e He. by rewrite (proj2 (G e He)).
  - intros e He. by apply G.
Qed.

(** ** UDP *)

(** A checksum of 0 sent as 0xFFFF verifies as well. *)
Lemma checksum_ffff src dst protocol l k :
  ip_ok src -> ip_ok dst -> is_byte protocol -> bytes_ok l -> bytes_ok k ->
  Z.even (zlen l) = true -> zlen l + zlen k + 2 < 2 ^ 14 ->
  transport_checksum src dst protocol (l ++ [0; 0] ++ k) = Ok 0 ->
  transport_checksum src dst protocol (l ++ be_bytes 2 0xFFFF ++ k) = Ok 0.
Proof.
  intros H1 H2 H3 H4 H5 He Hl E. change (be_bytes 2 0xFFFF) with [255; 255].
  assert (forall p, bytes_ok p -> zlen p = 2 ->
            bytes_ok (l ++ p ++ k) /\ zlen (l ++ p ++ k) = zlen l + zlen k + 2) as G.
  { intros p Hp Lp. split; [apply Forall_app; split; [done|apply Forall_app; done]|].
    rewrite !zlen_app. lia. }
  destruct (G [0; 0]) as [G1 G2]; [apply (zeros_ok 2)|done|].
  destruct (G [255; 255]) as [G3 G4]; [apply (be_bytes_ok 2 0xFFFF)|done|].
  rewrite transport_checksum_eq in E |- * by (done || lia).
  pose proof (transport_sum_bound _ _ _ _ H1 H2 H3 G1 ltac:(lia)) as B1.
  pose proof (transport_sum_bound _ _ _ _ H1 H2 H3 G3 ltac:(lia)) as B2.
  apply finish_zero in E as [E1 E2]; [|done]. apply finish_zero; [done|].
  unfold transport_sum in *. rewrite (word_sum_zero_field l k 255 255) in * by done.
  rewrite G2, G4 in *. change (be16 255 255) with 0xFFFF in *.
  rewrite Z.add_assoc. split; [lia|]. by rewrite <- (Z.mul_1_l 0xFFFF) at 1; rewrite Z.mod_add.
Qed.

Lemma header_bytes lport dest len : bytes_ok (Udp.header lport dest len).
Proof. apply Forall_app. split; [|apply Forall_app; split]; apply be_bytes_ok. Qed.

Lemma udp_segment_ok src lport dest data :
  ip_ok src -> ip_ok (Tcp.ip dest) -> bytes_ok data -> zlen data <= Udp.MAX_PAYLOAD ->
  exists c, Udp.segment_bytes src lport dest data =
              Ok (Udp.header lport dest (zlen data) ++ be_bytes 2 c ++ data) /\
            transport_checksum src (Tcp.ip dest) Udp.PROTOCOL
              (Udp.header lport dest (zlen data) ++ be_bytes 2 c ++ data) = Ok 0.
Proof.
  intros Hs Hd Hb Hl. unfold Udp.segment_bytes. set (h := Udp.header lport dest (zlen data)).
  assert (bytes_ok h) as Hh by apply header_bytes.
  assert (zlen h = 6) as Lh by done. unfold Udp.MAX_PAYLOAD, Udp.HEADER_LEN in Hl.
  assert (is_byte Udp.PROTOCOL) as HP by done. pose proof (zlen_nonneg data).
  destruct (NetTcp.transport_checksum_total src (Tcp.ip dest) Udp.PROTOCOL (h ++ [0; 0] ++ data))
    as [c Hc]. rewrite Hc. eexists. split; [done|]. destruct (Z.eqb_spec c 0) as [->|].
  - apply checksum_ffff; try done; lia.
  - apply (transport_checksum_fills _ _ _ h data c); try done; lia.
Qed.

(** A segment that was sent is delivered with its payload and its sender. *)
Lemma udp_delivered src lport dest data seg u :
  ip_ok src -> ip_ok (Tcp.ip dest) -> 0 <= lport < 2 ^ 16 -> 0 <= Tcp.port dest < 2 ^ 16 ->
  Tcp.port dest <> Dns.SRC_PORT -> bytes_ok data -> zlen data <= Udp.MAX_PAYLOAD ->
  Udp.segment_bytes src lport dest data = Ok seg ->
  zlen seg = 8 + zlen data /\ bytes_ok seg /\
  Udp.handle_incoming src (Tcp.ip dest) seg u =
    match Udp.find_socket (Tcp.port dest) u with
    | None => (u, Ok Udp.Ignored)
    | Some i => let '(u, r) := Udp.deliver i (Udp.mkDatagram (Tcp.mkEndpoint src lport) data) u in (u, Ok r)
    end.
Proof.
  intros Hs Hd Hp Hq Hn Hb Hl E. destruct (udp_segment_ok src lport dest data Hs Hd Hb Hl) as (c & E' & V).
  assert (seg = Udp.header lport dest (zlen data) ++ be_bytes 2 c ++ data) as -> by congruence.
  clear E E'. unfold Udp.MAX_PAYLOAD, Udp.HEADER_LEN in Hl.
  pose proof (zlen_nonneg data). unfold Udp.header in *. set (len := Udp.HEADER_LEN + zlen data) in *.
  assert (0 <= len < 2 ^ 16) as Bl by (unfold len, Udp.HEADER_LEN; lia).
  assert (len = 8 + zlen data) as El by done. clearbody len.
  set (seg := (_ ++ _ ++ be_bytes 2 len) ++ be_bytes 2 c ++ data) in *.
  assert (zlen seg = len) as Ls.
  { unfold seg. rewrite !zlen_app, !Dns.zlen_be_bytes. lia. }
  assert (be16 (byte_at seg 0) (byte_at seg 1) = lport /\ be16 (byte_at seg 2) (byte_at seg 3) = Tcp.port dest
    /\ be16 (byte_at seg 4) (byte_at seg 5) = len /\ slice 8 len seg = data) as (F1 & F2 & F3 & F4).
  { split_and!; try by apply be16_val. unfold slice, seg.
    change (take (Z.to_nat (len - 8)) data = data). apply take_ge. unfold zlen in *. lia. }
  assert (bytes_ok seg) as Bs.
  { apply Forall_app. split; [|apply Forall_app; split; [apply be_bytes_ok|done]].
    apply Forall_app. split; [|apply Forall_app; split]; apply be_bytes_ok. }
  clearbody seg. split; [lia|]. split; [done|].
  unfold Udp.handle_incoming, Udp.HEADER_LEN. rewrite F1, F2, F3, Ls, (proj2 (Z.ltb_ge len 8)) by lia.
  rewrite Z.ltb_irrefl. simpl orb. cbv iota.
  assert (slice 0 len seg = seg) as -> by (rewrite <- Ls; apply slice_all). rewrite V.
  assert ((if bool_decide (slice 6 8 seg = [0; 0]) then Ok 0 else Ok 0) = Ok 0) as ->
    by by case_bool_decide.
  simpl negb. cbv iota. rewrite (proj2 (Z.eqb_neq _ _)) by done.
  destruct (Udp.find_socket _ _); [|done]. by rewrite F4.
Qed.

(** What [transmit_to] sends. *)
Section tx.
Context {N : Type} `{Wire N}.
Implicit Type s : net N.

(** The parts of the state that sending leaves alone. *)
Definition same_state s s' : Prop :=
  arp_cache s' = arp_cache s /\ udp s' = udp s /\ tcp s' = tcp s /\ woken s' = woken s /\
  host_ip s' = host_ip s /\ waiting s' = waiting s /\ dns_result s' = dns_result s /\
  get_mac_address s' = get_mac_address s.

Lemma transmit_state f s :
  net_ok s ->
  wp (transmit f) (fun b s' => net_ok s' /\ same_state s s' /\ b = takes (active_nic s) f /\
                    wire s' = if b then wire s ++ [f] else wire s) s.
Proof.
  intros K. eapply wp_mono; [|intros b s' Q; exact Q].
  pose proof (transmit_wp f s K) as T. unfold wp in *.
  destruct (transmit f s) as [s' [b| | |]] eqn:E; try contradiction.
  destruct T as ([K' (R1 & R2 & R3 & R4)] & C & Eb & W). split; [done|]. split; [|by split].
  unfold transmit in E. destruct (active_nic s) as [n|]; [destruct (nic_transmit n f)|];
    simplify_eq; by split_and!.
Qed.

Lemma transmit_to_wp dm dst protocol payload s my_ip my_mac :
  net_ok s -> get_ip_address s = Some my_ip -> get_mac_address s = Some my_mac ->
  zlen payload <= 1480 ->
  wp (transmit_to dm dst protocol payload)
    (fun b s' => net_ok s' /\ same_state s s' /\
       exists c, calculate_checksum (ipv4_header (20 + zlen payload) protocol 0 my_ip dst) = Ok c /\
         wire s' = if b then wire s ++ [ipv4_frame dm my_mac protocol c my_ip dst payload]
                   else wire s) s.
Proof.
  intros K Ei Em Hp. unfold transmit_to. rewrite (proj2 (Z.ltb_ge _ _)) by lia.
  apply wp_bind, wp_gets. rewrite Ei. apply wp_bind, wp_gets. rewrite Em.
  destruct (calculate_checksum_total (ipv4_header (20 + zlen payload) protocol 0 my_ip dst))
    as [c Hc]; [done|]. apply wp_bind. eapply wp_lift; [exact Hc|].
  eapply wp_mono; [by apply transmit_state|]. intros b s' (K' & S & _ & W). eauto 6.
Qed.

End tx.
End NetFrames.
