(* ===== verification/NetEcho.v ===== *)
(** Answering a ping: what [echo_reply] sends for a well-formed echo request.
    The code patches the received frame in place; the lemmas follow the
    patches through the checksums they leave behind. *)

From S2P Require Import Prelude Checksum Dns Tcp NetTcp Udp UdpInv Net NetRx NetFrames.
Open Scope kmonad_scope.

Module NetEcho.
Import Net NetRx NetFrames.

(** ** Checksums of patched buffers *)

Lemma calculate_checksum_eq d :
  bytes_ok d -> 0 < zlen d < 2 ^ 15 -> calculate_checksum d = finish (word_sum d).
Proof.
  intros Hb Hl. pose proof (word_sum_bound d Hb). unfold calculate_checksum.
  destruct (Z.eqb_spec (zlen d) 0); [lia|]. by rewrite add_words_sum by (done || lia).
Qed.

Lemma slice_splice_mid {A} lo hi off (src b : list A) :
  0 <= lo <= off -> off + zlen src <= hi -> hi <= zlen b ->
  slice lo hi (splice off src b) = slice lo off b ++ src ++ slice (off + zlen src) hi b.
Proof.
  intros H1 H2 H3. pose proof (zlen_nonneg src).
  assert (zlen (splice off src b) = zlen b) as L by (apply zlen_splice; lia).
  rewrite <- (slice_join lo off hi), <- (slice_join off (off + zlen src) hi) by lia.
  rewrite slice_splice_before, slice_splice_same, slice_splice_after by lia. done.
Qed.

(** The checksum of a range, written into a field of the range that was 0. *)
Lemma checksum_patch b lo hi off c :
  bytes_ok b -> 0 <= lo <= off -> Z.even (off - lo) = true -> off + 2 <= hi <= zlen b ->
  hi - lo < 2 ^ 14 -> slice off (off + 2) b = [0; 0] -> calculate_checksum (slice lo hi b) = Ok c ->
  calculate_checksum (slice lo hi (splice off (be_bytes 2 c) b)) = Ok 0 /\ 0 <= c < 2 ^ 16.
Proof.
  intros Hb Hlo He Hhi Hl Hz Hc.
  assert (zlen (be_bytes 2 c) = 2) as L2 by apply Dns.zlen_be_bytes.
  assert (zlen (slice lo off b) = off - lo) as Ll by (apply zlen_slice; lia).
  assert (slice lo hi b = slice lo off b ++ [0; 0] ++ slice (off + 2) hi b) as Es.
  { rewrite <- Hz, (slice_join off (off + 2) hi), slice_join by lia. done. }
  assert (bytes_ok (slice lo hi (splice off (be_bytes 2 c) b))) as Hb'
    by (apply slice_ok, splice_ok; [apply be_bytes_ok|done]).
  assert (zlen (slice lo hi b) = hi - lo) as L by (apply zlen_slice; lia).
  assert (zlen (slice lo hi (splice off (be_bytes 2 c) b)) = hi - lo) as L'.
  { apply zlen_slice; [lia|]. rewrite zlen_splice; lia. }
  rewrite calculate_checksum_eq in Hc |- * by (done || lia || by apply slice_ok).
  assert (0 <= word_sum (slice lo hi b) < 2 ^ 31) as B.
  { pose proof (word_sum_bound (slice lo hi b) ltac:(by apply slice_ok)). lia. }
  destruct (finish_fills _ c B Hc) as [F Hcb]. split; [|done].
  rewrite <- F. f_equal. rewrite slice_splice_mid, L2, Es by lia.
  rewrite be2, word_sum_zero_field by (rewrite Ll; done). f_equal.
  apply be16_val. exact Hcb.
Qed.

(** ** The patches *)

Section patches.
Variables (my_ip my_mac buf : list Z) (ihl total c d : Z).
Hypothesis (B : buffer buf) (Hip : ip_ok my_ip) (Hmac : mac_ok my_mac).
Hypothesis (Hi : 20 <= ihl <= 60) (He : Z.even ihl = true) (Ht : ihl + 8 <= total <= 1500).

(** The buffer after the ICMP checksum, before and after the IP checksum, and
    at the end. *)
Definition patch1 : list Z := splice (14 + ihl + 2) (be_bytes 2 c) (cleared buf ihl).
Definition patch2 : list Z :=
  splice 24 [0; 0] (splice 30 (slice 26 30 patch1) (splice 26 my_ip patch1)).
Definition patch3 : list Z := splice 24 (be_bytes 2 d) patch2.
Definition patch4 : list Z := splice 6 my_mac (splice 0 (slice 6 12 patch3) patch3).
Definition echo_frame : list Z := slice 0 (14 + total) patch4.

Hypothesis Hc : calculate_checksum (slice (14 + ihl) (14 + total) (cleared buf ihl)) = Ok c.
Hypothesis Hd : calculate_checksum (slice 14 (14 + ihl) patch2) = Ok d.

Lemma patch1_ok : buffer patch1.
Proof.
  apply buffer_splice; [apply cleared_ok; done || lia|apply be_bytes_ok|lia|].
  rewrite Dns.zlen_be_bytes. lia.
Qed.

Lemma patch2_ok : buffer patch2.
Proof.
  pose proof patch1_ok as B1. destruct Hip as [I1 I2].
  pose proof (slice_ip patch1 26 B1 ltac:(lia)) as [S1 S2]. change (26 + 4) with 30 in *.
  apply buffer_splice; [|apply (zeros_ok 2)|lia|by compute].
  apply buffer_splice; [|done|lia|lia]. apply buffer_splice; [done|done|lia|lia].
Qed.

Lemma patch3_ok : buffer patch3.
Proof.
  apply buffer_splice; [apply patch2_ok|apply be_bytes_ok|lia|]. rewrite Dns.zlen_be_bytes. lia.
Qed.

Lemma patch4_ok : buffer patch4.
Proof.
  pose proof patch3_ok as B3. destruct Hmac as [M1 M2].
  pose proof (slice_mac patch3 6 B3 ltac:(lia)) as [S1 S2]. change (6 + 6) with 12 in *.
  apply buffer_splice; [|done|lia|lia]. apply buffer_splice; [done|done|lia|lia].
Qed.

(** A range behind the Ethernet header is that of the IP patches, one behind
    the IP header that of the ICMP patches. *)
Lemma frame_slice lo hi : 12 <= lo <= hi -> hi <= 14 + total -> slice lo hi echo_frame = slice lo hi patch3.
Proof.
  intros H1 H2. destruct patch3_ok as [_ L3], patch4_ok as [_ L4], Hmac as [_ M2].
  pose proof (slice_mac patch3 6 patch3_ok ltac:(lia)) as [_ S2]. change (6 + 6) with 12 in *.
  assert (slice lo hi echo_frame = slice lo hi patch4) as ->.
  { unfold echo_frame, slice. change (drop (Z.to_nat 0) patch4) with patch4.
    rewrite skipn_firstn_comm, take_take. f_equal. lia. }
  unfold patch4. assert (zlen (splice 0 (slice 6 12 patch3) patch3) = 1514).
  { rewrite zlen_splice; lia. }
  rewrite slice_splice_after by lia. by rewrite slice_splice_after by lia.
Qed.

Lemma payload_slice hi : 14 + ihl <= hi <= 14 + total ->
  slice (14 + ihl) hi echo_frame = slice (14 + ihl) hi patch1.
Proof.
  intros H. rewrite frame_slice by lia. destruct patch1_ok as [_ L1], patch2_ok as [_ L2], Hip as [_ I2].
  pose proof (slice_ip patch1 26 patch1_ok ltac:(lia)) as [_ S2]. change (26 + 4) with 30 in *.
  assert (zlen (be_bytes 2 d) = 2) as E2 by apply Dns.zlen_be_bytes.
  assert (zlen (splice 26 my_ip patch1) = 1514) as L26 by (rewrite zlen_splice; lia).
  assert (zlen (splice 30 (slice 26 30 patch1) (splice 26 my_ip patch1)) = 1514) as L30.
  { rewrite zlen_splice; lia. }
  unfold patch3. rewrite slice_splice_after by lia. unfold patch2.
  rewrite slice_splice_after by (change (zlen [0; 0]) with 2; lia).
  by rewrite !slice_splice_after by lia.
Qed.

Lemma icmp_checksum_ok : calculate_checksum (slice (14 + ihl) (14 + total) echo_frame) = Ok 0.
Proof.
  rewrite payload_slice by lia. destruct (cleared_ok buf ihl B ltac:(lia)) as [C1 C2].
  apply checksum_patch; try done; [lia|by replace (14 + ihl + 2 - (14 + ihl)) with 2 by lia|lia|lia|].
  apply (slice_splice_same (14 + ihl + 2) [0; 0]); [lia|]. change (zlen [0; 0]) with 2.
  rewrite zlen_splice; [destruct B; lia|lia|]. change (zlen [0]) with 1. destruct B; lia.
Qed.

Lemma ip_checksum_ok : calculate_checksum (slice 14 (14 + ihl) echo_frame) = Ok 0.
Proof.
  rewrite frame_slice by lia. destruct patch2_ok as [P1 P2].
  apply checksum_patch; try done; [lia|lia|].
  pose proof (slice_ip patch1 26 patch1_ok ltac:(lia)) as [_ S2]. change (26 + 4) with 30 in *.
  destruct patch1_ok as [_ L1], Hip as [_ I2].
  apply (slice_splice_same 24 [0; 0]); [lia|]. change (zlen [0; 0]) with 2.
  rewrite zlen_splice, zlen_splice; try lia. rewrite zlen_splice; lia.
Qed.

(** Every byte of the frame but the checksums. *)
Lemma patch1_byte i :
  0 <= i -> i <> 14 + ihl + 2 -> i <> 14 + ihl + 3 ->
  byte_at patch1 i = if i =? 14 + ihl then 0 else byte_at buf i.
Proof.
  intros H0 H1 H2. destruct (cleared_ok buf ihl B ltac:(lia)) as [_ L1], B as [_ L0].
  unfold patch1. rewrite byte_at_splice by lia. rewrite Dns.zlen_be_bytes.
  destruct (Z.leb_spec (14 + ihl + 2) i), (Z.ltb_spec i (14 + ihl + 2 + Z.of_nat 2)); simpl; try lia;
    unfold cleared; (rewrite byte_at_splice by (rewrite ?zlen_splice; change (zlen [0]) with 1; lia));
    change (zlen [0; 0]) with 2;
    destruct (Z.leb_spec (14 + ihl + 2) i), (Z.ltb_spec i (14 + ihl + 2 + 2)); simpl; try lia;
    rewrite byte_at_splice by lia; change (zlen [0]) with 1;
    destruct (Z.leb_spec (14 + ihl) i), (Z.ltb_spec i (14 + ihl + 1)), (Z.eqb_spec i (14 + ihl));
    simpl; try lia; try done; subst; by rewrite Z.sub_diag.
Qed.

Definition patched (i : Z) : Z :=
  if (26 <=? i) && (i <? 30) then byte_at my_ip (i - 26)
  else if (30 <=? i) && (i <? 34) then byte_at buf (i - 4)
  else if i =? 14 + ihl then 0 else byte_at buf i.

Lemma patch3_byte i :
  0 <= i -> i <> 24 -> i <> 25 -> i <> 14 + ihl + 2 -> i <> 14 + ihl + 3 -> byte_at patch3 i = patched i.
Proof.
  intros H0 H1 H2 H3 H4. destruct patch2_ok as [_ L2], patch1_ok as [_ L1], Hip as [_ I2].
  pose proof (slice_ip patch1 26 patch1_ok ltac:(lia)) as [_ S2]. change (26 + 4) with 30 in *.
  assert (zlen (splice 26 my_ip patch1) = 1514) as L26 by (rewrite zlen_splice; lia).
  assert (zlen (splice 30 (slice 26 30 patch1) (splice 26 my_ip patch1)) = 1514) as L30.
  { rewrite zlen_splice; lia. }
  unfold patch3. rewrite byte_at_splice, Dns.zlen_be_bytes by lia.
  unfold patch2. rewrite byte_at_splice by lia. change (zlen [0; 0]) with 2.
  rewrite byte_at_splice by lia. rewrite S2. rewrite byte_at_splice by lia. rewrite I2.
  unfold patched. destruct (Z.leb_spec 24 i), (Z.ltb_spec i (24 + Z.of_nat 2)), (Z.ltb_spec i (24 + 2));
    simpl; try lia; destruct (Z.leb_spec 30 i), (Z.ltb_spec i (30 + 4)), (Z.leb_spec 26 i),
      (Z.ltb_spec i (26 + 4)), (Z.ltb_spec i 30), (Z.ltb_spec i 34); simpl; try lia; try done;
    try (by apply patch1_byte).
  rewrite byte_at_slice, patch1_byte by lia. rewrite (proj2 (Z.eqb_neq _ _)) by lia. f_equal. lia.
Qed.

Lemma zlen_echo_frame : zlen echo_frame = 14 + total.
Proof. destruct patch4_ok as [_ L4]. unfold echo_frame. rewrite zlen_slice; lia. Qed.

Lemma frame_byte i :
  0 <= i < 14 + total -> i <> 24 -> i <> 25 -> i <> 14 + ihl + 2 -> i <> 14 + ihl + 3 ->
  byte_at echo_frame i =
    if i <? 6 then byte_at buf (i + 6) else if i <? 12 then byte_at my_mac (i - 6) else patched i.
Proof.
  intros H0 H1 H2 H3 H4. destruct patch4_ok as [_ L4], patch3_ok as [_ L3], Hmac as [_ M2].
  pose proof (slice_mac patch3 6 patch3_ok ltac:(lia)) as [_ S2]. change (6 + 6) with 12 in *.
  assert (zlen (splice 0 (slice 6 12 patch3) patch3) = 1514) as L0 by (rewrite zlen_splice; lia).
  unfold echo_frame. rewrite byte_at_slice, Z.add_0_l by lia. unfold patch4.
  rewrite byte_at_splice, M2 by lia. rewrite byte_at_splice, S2 by lia.
  destruct (Z.leb_spec 6 i), (Z.ltb_spec i (6 + 6)), (Z.ltb_spec i 6), (Z.ltb_spec i 12),
    (Z.leb_spec 0 i), (Z.ltb_spec i (0 + 6)); simpl; try lia; try done;
    try (apply patch3_byte; lia).
  rewrite byte_at_slice, patch3_byte by lia. unfold patched.
  rewrite (proj2 (Z.leb_gt 26 _)), (proj2 (Z.leb_gt 30 _)), (proj2 (Z.eqb_neq _ _)) by lia. simpl.
  f_equal. lia.
Qed.

End patches.

(** [echo_reply] transmits the patched frame. *)
Lemma echo_reply_frame {N} `{NetworkDriver N} {BU : Build} my_ip my_mac buf ihl :
  buffer buf -> 20 <= ihl <= 60 -> ihl + 8 <= field16 buf 16 <= 1500 ->
  exists c d,
    calculate_checksum (slice (14 + ihl) (14 + field16 buf 16) (cleared buf ihl)) = Ok c /\
    calculate_checksum (slice 14 (14 + ihl) (patch2 my_ip buf ihl c)) = Ok d /\
    forall s : net N, echo_reply my_ip my_mac buf ihl s =
      (run! transmit (echo_frame my_ip my_mac buf ihl (field16 buf 16) c d) in kret tt) s.
Proof.
  intros B Hi Ht. destruct (cleared_ok buf ihl B ltac:(lia)) as [_ L].
  destruct (calculate_checksum_total (slice (14 + ihl) (14 + field16 buf 16) (cleared buf ihl)))
    as [c Hc]; [apply slice_nonempty; lia|].
  destruct (calculate_checksum_total (slice 14 (14 + ihl) (patch2 my_ip buf ihl c))) as [d Hd].
  { apply slice_nonempty; [lia|lia|]. unfold patch2, patch1.
    do 4 (apply splice_long; [lia|]). lia. }
  exists c, d. split_and!; [done|done|]. intros s. unfold echo_reply. fold (cleared buf ihl).
  rewrite cleared_total by (done || lia).
  rewrite (kbind_Ok _ _ s s (field16 buf 16 - ihl)) by (apply arith64_small; unfold u64_max; lia).
  replace (14 + ihl + (field16 buf 16 - ihl)) with (14 + field16 buf 16) by lia.
  rewrite (proj2 (Z.ltb_ge _ _)) by lia.
  rewrite Hc. unfold kbind at 1, lift_res at 1. fold (patch1 buf ihl c).
  fold (patch2 my_ip buf ihl c). rewrite Hd. done.
Qed.

End NetEcho.
