(* ===== verification/NetTheorems.v ===== *)
(** What the network stack promises end to end: a datagram sent on one host is
    received on the other, ARP finds the address of a neighbour, a ping is
    answered, and no frame but malformed pings and, with overflow checks, ping
    replies of impossible length stops the receiver. *)

From S2P Require Import Prelude Checksum Dns Tcp NetTcp Udp UdpInv Net NetRx NetFrames NetEcho.
Open Scope kmonad_scope.

Module NetTheorems.
Import Net NetRx NetFrames NetEcho.

Section net.
Context {N : Type} `{Wire N} {BU : Build}.
Implicit Type s : net N.

(** ** UDP *)

Lemma on_udp_eq {A} (m : M Udp.udp A) s : on_udp m s = (set_udp (m (udp s)).1 s, (m (udp s)).2).
Proof. unfold on_udp. by destruct (m (udp s)). Qed.

Lemma set_udp_ok u s : net_ok s -> UdpInv.wf u -> net_ok (set_udp u s).
Proof. intros K W. destruct K. by split. Qed.

(** A socket has a port after [ensure_bound], or all are taken. *)
Lemma ensure_bound_spec u i k :
  UdpInv.wf u -> Udp.socks u !! i = Some k -> Udp.strong k = true ->
  match Udp.ensure_bound i u with
  | (u', Ok p) =>
      UdpInv.wf u' /\ UdpInv.port_ok p /\
      exists k', Udp.socks u' !! i = Some k' /\ Udp.local_port (Udp.state k') = p
  | (u', Err AddressInUse) =>
      UdpInv.wf u' /\ forall q, Udp.EPHEMERAL_FIRST <= q <= u16_max -> UdpInv.taken u q
  | _ => False
  end.
Proof.
  intros W E Es. unfold Udp.ensure_bound, Udp.get_state, kbind. rewrite E.
  destruct (Z.eqb_spec (Udp.local_port (Udp.state k)) 0) as [E0|E0]; simpl.
  - pose proof (UdpInv.bind_port_spec u i k 0 true W E E0 ltac:(lia)) as B.
    destruct (Udp.bind_port i 0 true u) as [u' [p|[]| |]]; try done.
    + destruct B as (W' & Hs & _ & Hp & _). split_and!; [done|done|].
      exists (Udp.upd_state (Udp.set_port p) k). by rewrite Hs, list_lookup_alter_eq, E.
    + by destruct B as (W' & _ & Ht).
  - split_and!; [done| |by eauto]. by destruct (UdpInv.t_port _ (UdpInv.w_state u W i k E)).
Qed.

Lemma get_ip_Some s my_ip : get_ip_address s = Some my_ip -> my_ip = host_ip s.
Proof. unfold get_ip_address. case_bool_decide; [done|]. by intros [= <-]. Qed.

Lemma lookup_mac addr s mac : net_ok s -> arp_cache_lookup addr s = Some mac -> zlen mac = 6.
Proof.
  intros K. unfold arp_cache_lookup, cache_lookup.
  destruct (first_such _ _) as [e|] eqn:F; simpl; [|done]. intros [= <-].
  apply first_such_Some in F as [Hin _]. by apply (proj1 (Forall_forall _ _) (k_entry s K)) in Hin as [_ [_ ?]].
Qed.

(** [transmit_ipv4] when the next hop is in the cache. *)
Lemma transmit_ipv4_cached_wp sleep dst protocol payload s hop dm :
  net_ok s -> next_hop dst s = Some hop -> arp_cache_lookup hop s = Some dm -> zlen payload <= 1480 ->
  wp (transmit_ipv4 sleep dst protocol payload)
    (fun b s' => same_state s s' /\
       if b then exists my_mac c, zlen my_mac = 6 /\
         wire s' = wire s ++ [ipv4_frame dm my_mac protocol c (host_ip s) dst payload]
       else wire s' = wire s) s.
Proof.
  intros K Eh El Hp. unfold transmit_ipv4. apply wp_bind, wp_gets. rewrite Eh.
  unfold arp_resolve. apply wp_bind, wp_bind, wp_gets. rewrite El. apply wp_ret.
  assert (get_ip_address s = Some (host_ip s)) as Ei.
  { unfold next_hop in Eh. destruct (get_ip_address s) as [x|] eqn:E; [|done].
    by rewrite (get_ip_Some s x E). }
  destruct (get_mac_address s) as [my_mac|] eqn:Em.
  - assert (zlen my_mac = 6) as Lm.
    { unfold get_mac_address in Em. destruct (active_nic s) as [n|] eqn:En; [|done].
      simpl in Em. injection Em as <-. by apply nic_mac_ok, (k_nic s K). }
    eapply wp_mono; [by apply (transmit_to_wp dm dst protocol payload s (host_ip s) my_mac)|].
    intros b s' (_ & S & c & _ & W). split; [done|]. destruct b; eauto.
  - unfold transmit_to. rewrite (proj2 (Z.ltb_ge _ _)) by lia.
    apply wp_bind, wp_gets. rewrite Ei. apply wp_bind, wp_gets. rewrite Em. apply wp_ret.
    split; [|done]. by split_and!.
Qed.

Lemma set_udp_same s : set_udp (udp s) s = s.
Proof. by destruct s. Qed.

Lemma destination_Some i d len u :
  len <= Udp.MAX_PAYLOAD -> Tcp.port d <> 0 -> Udp.destination i (Some d) len u = (u, Ok d).
Proof.
  intros Hl Hp. unfold Udp.destination. rewrite (proj2 (Z.ltb_ge _ _)) by lia.
  unfold kbind, kret. by rewrite (proj2 (Z.eqb_neq _ _)).
Qed.

(** What [send_to] puts on the wire. *)
Lemma send_to_wire sleep s i k dest payload hop dm :
  net_ok s -> Udp.socks (udp s) !! i = Some k -> Udp.strong k = true ->
  UdpInv.endpoint_ok dest -> Tcp.port dest <> 0 -> bytes_ok payload ->
  zlen payload <= Udp.MAX_PAYLOAD ->
  next_hop (Tcp.ip dest) s = Some hop -> arp_cache_lookup hop s = Some dm ->
  match send_to sleep i (Some dest) payload s with
  | (s', Ok n) =>
      n = zlen payload /\
      exists p k' seg my_mac c, UdpInv.port_ok p /\
        Udp.socks (udp s') !! i = Some k' /\ Udp.local_port (Udp.state k') = p /\
        Udp.segment_bytes (host_ip s) p dest payload = Ok seg /\ zlen my_mac = 6 /\
        wire s' = wire s ++ [ipv4_frame dm my_mac Udp.PROTOCOL c (host_ip s) (Tcp.ip dest) seg]
  | (s', Err NetworkUnreachable) => wire s' = wire s
  | (s', Err AddressInUse) =>
      wire s' = wire s /\ forall q, Udp.EPHEMERAL_FIRST <= q <= u16_max -> UdpInv.taken (udp s) q
  | _ => False
  end.
Proof.
  intros K Ek Es [Hd Hp] Hp0 Hb Hl Eh El. unfold send_to. unfold kbind at 1.
  rewrite on_udp_eq, destination_Some by done. simpl fst. simpl snd. rewrite set_udp_same.
  pose proof (ensure_bound_spec (udp s) i k (k_udp s K) Ek Es) as B.
  unfold kbind at 1. rewrite on_udp_eq.
  destruct (Udp.ensure_bound i (udp s)) as [u [p|[]| |]]; try contradiction; simpl fst; simpl snd;
    [|split; [done|apply B]].
  destruct B as (W & Hok & k' & Ek' & Ep). set (s1 := set_udp u s).
  assert (net_ok s1) as K1 by by apply set_udp_ok.
  assert (get_ip_address s1 = Some (host_ip s)) as Ei by (change (get_ip_address s1) with (get_ip_address s);
    unfold next_hop in Eh; destruct (get_ip_address s) as [x|] eqn:E; [by rewrite (get_ip_Some s x E)|done]).
  unfold kbind at 1, gets at 1. rewrite Ei. unfold kbind at 1, ok_or, kret at 1.
  destruct (udp_segment_ok (host_ip s) p dest payload (k_ip s K) Hd Hb Hl) as (c & Eseg & _).
  unfold kbind at 1, lift_res at 1. rewrite Eseg. set (seg := _ ++ _ ++ payload) in *.
  assert (zlen seg <= 1480) as Ls.
  { unfold seg. rewrite zlen_app, zlen_app, Dns.zlen_be_bytes. change (zlen (Udp.header _ _ _)) with 6.
    unfold Udp.MAX_PAYLOAD, Udp.HEADER_LEN in Hl. lia. }
  pose proof (transmit_ipv4_cached_wp sleep (Tcp.ip dest) Udp.PROTOCOL seg s1 hop dm K1 Eh El Ls) as T.
  unfold wp in T. unfold kbind at 1.
  destruct (transmit_ipv4 _ _ _ _ s1) as [s2 [b| | |]]; try contradiction.
  destruct T as [S T]. destruct b; [|by apply T]. split; [done|].
  destruct T as (my_mac & c' & Lm & T). destruct S as (_ & Eu & _).
  exists p, k', seg, my_mac, c'. rewrite Eu. by split_and!.
Qed.

(** A frame with a UDP segment reaches the UDP layer. *)
Lemma udp_frame_received now my_mac b f fs dm sm c src dst seg u r :
  net_ok b -> waiting b = f :: fs -> f = ipv4_frame dm sm Udp.PROTOCOL c src dst seg ->
  zlen dm = 6 -> zlen sm = 6 -> ip_ok src -> ip_ok dst -> bytes_ok seg -> zlen seg <= 1480 ->
  8 <= zlen seg ->
  Udp.handle_incoming src dst seg (udp b) =
    (match r with Some i => (u, Ok (Udp.Queued i)) | None => (udp b, Ok Udp.Ignored) end) ->
  exists b', handle_incoming_packets now dst my_mac b = (b', Ok true) /\ net_ok b' /\
    match r with
    | Some i => udp b' = u /\ woken b' = woken b ++ [Reader i]
    | None => udp b' = udp b /\ woken b' = woken b
    end.
Proof.
  intros K Ew -> Ld Lm Hs Hd Bs Ls L8 D.
  destruct (ipv4_frame_fields dm sm Udp.PROTOCOL c src dst seg Ld Lm (proj2 Hs) (proj2 Hd) Ls)
    as (F1 & F2 & F3 & F4 & F5 & F6 & F7).
  set (f := ipv4_frame dm sm Udp.PROTOCOL c src dst seg) in *.
  assert (zlen f = 34 + zlen seg) as Lf by (apply zlen_ipv4_frame; try done; apply Hs || apply Hd).
  assert (take 1514 f = f) as Et by (apply take_ge; unfold zlen in *; lia).
  assert (stops dst f = false) as Hb.
  { unfold stops, bad_echo, short_reply, icmp_for. rewrite F4. change (Udp.PROTOCOL =? 1) with false.
    rewrite !andb_false_r. by destruct overflow_checks. }
  pose proof (packets_wp now dst my_mac b f fs K Ew ltac:(lia) ltac:(by rewrite Et)) as P.
  assert (wp (handle_incoming_packets now dst my_mac) (fun x b' => x = true /\
    match r with
    | Some i => udp b' = u /\ woken b' = woken b ++ [Reader i]
    | None => udp b' = udp b /\ woken b' = woken b
    end) b) as R.
  { apply (packets_taken _ _ _ _ f fs); [done|done|lia|]. intros b1 K1 _ Eu Ewk _ _.
    unfold dispatch. rewrite F1. simpl. unfold handle_ipv4. fold (ihl_of (rx_buffer f)).
    rewrite (proj2 (Z.ltb_ge _ _)), F2, F3, F4, F5, F6 by lia.
    rewrite bool_decide_eq_true_2 by done. simpl. rewrite !(proj2 (Z.leb_le _ _)) by lia. simpl.
    replace (slice (14 + 20) (14 + (20 + zlen seg)) (rx_buffer f)) with seg
      by (rewrite <- F7 at 1; f_equal; lia).
    unfold udp_incoming, wp. unfold kbind at 1. rewrite on_udp_eq, Eu, D, <- Ewk.
    by destruct r as [i|]. }
  unfold wp in P, R. destruct (handle_incoming_packets now dst my_mac b) as [b' [x| | |]]; try contradiction.
  destruct P as (K' & -> & _), R as [_ R]. eauto.
Qed.

(** C11: a datagram that [send_to] sends arrives: when the frame it put on the
    wire is the next one the other host takes from its card, the payload and
    the sender's address and port are appended to the queue of the socket bound
    to the destination port and its readers are woken, or the datagram is
    dropped because the queue is full or the socket is connected to someone
    else; a reader of an empty queue gets exactly the payload.  [send_to] sends
    one frame, or none and reports that the network cannot be reached or that
    no port is free. *)
Theorem udp_end_to_end sleep (a b : net N) i k dest payload hop dm j kb fs now my_mac :
  net_ok a -> Udp.socks (udp a) !! i = Some k -> Udp.strong k = true ->
  UdpInv.endpoint_ok dest -> Tcp.port dest <> 0 -> bytes_ok payload ->
  zlen payload <= Udp.MAX_PAYLOAD ->
  next_hop (Tcp.ip dest) a = Some hop -> arp_cache_lookup hop a = Some dm ->
  net_ok b -> Udp.socks (udp b) !! j = Some kb -> Udp.strong kb = true ->
  Udp.local_port (Udp.state kb) = Tcp.port dest ->
  match send_to sleep i (Some dest) payload a with
  | (a', Ok n) =>
      n = zlen payload /\
      exists f ka, wire a' = wire a ++ [f] /\ Udp.socks (udp a') !! i = Some ka /\
        let d := Udp.mkDatagram (Tcp.mkEndpoint (host_ip a) (Udp.local_port (Udp.state ka))) payload in
        (waiting b = f :: fs ->
         exists b', handle_incoming_packets now (Tcp.ip dest) my_mac b = (b', Ok true) /\ net_ok b' /\
           if Udp.accepts (Udp.from d) (Udp.state kb) then
             udp b' = Udp.upd j (fun t => Udp.set_queue (Udp.queue t ++ [d]) t) (udp b) /\
             woken b' = woken b ++ [Reader j] /\
             (Udp.queue (Udp.state kb) = [] -> forall len,
                (Udp.recv_round j len None now (udp b')).2 =
                  Tcp.Return (Ok (slice 0 (Z.min (zlen payload) len) payload, Udp.from d)))
           else udp b' = udp b /\ woken b' = woken b)
  | (a', Err NetworkUnreachable) => wire a' = wire a
  | (a', Err AddressInUse) =>
      wire a' = wire a /\ forall q, Udp.EPHEMERAL_FIRST <= q <= u16_max -> UdpInv.taken (udp a) q
  | _ => False
  end.
Proof.
  intros K Ek Es He Hp0 Hb Hl Eh El Kb Ekb Esb Epb.
  pose proof (send_to_wire sleep a i k dest payload hop dm K Ek Es He Hp0 Hb Hl Eh El) as T.
  destruct (send_to sleep i (Some dest) payload a) as [a' [n|[]| |]]; try done.
  destruct T as (-> & p & ka & seg & mm & c & Hok & Eka & Epa & Eseg & Lm & W).
  split; [done|]. eexists _, ka. split; [exact W|]. split; [done|]. intros d Ew. subst p.
  destruct He as [Hd Hq]. pose proof (lookup_mac hop a dm K El) as Ld.
  unfold UdpInv.port_ok, u16_max in Hok.
  assert (Tcp.port dest <> Dns.SRC_PORT) as Hn.
  { destruct (UdpInv.t_port _ (UdpInv.w_state _ (k_udp b Kb) j kb Ekb)) as [|[_ ?]]; congruence. }
  destruct (udp_delivered (host_ip a) (Udp.local_port (Udp.state ka)) dest payload seg (udp b)
    (k_ip a K) Hd ltac:(lia) Hq Hn Hb Hl Eseg) as (Ls & Bs & D).
  rewrite (proj2 (UdpInv.find_socket_iff _ _ j (k_udp b Kb) Hp0)) in D by eauto.
  fold d in D. unfold Udp.deliver in D. rewrite Ekb in D.
  assert (8 <= zlen seg <= 1480) as [L8 L9].
  { pose proof (zlen_nonneg payload). unfold Udp.MAX_PAYLOAD, Udp.HEADER_LEN in Hl. lia. }
  pose proof (fun u r => udp_frame_received now my_mac b _ fs dm mm c (host_ip a) (Tcp.ip dest) seg
    u r Kb Ew eq_refl Ld Lm (k_ip a K) Hd Bs L9 L8) as R.
  destruct (Udp.accepts (Udp.from d) (Udp.state kb)).
  - destruct (R _ (Some j) D) as (b' & Eb & Kb' & Eu & Ewk). exists b'. split_and!; try done.
    intros Eq len. rewrite Eu. unfold Udp.recv_round. simpl. rewrite list_lookup_alter_eq, Ekb. simpl.
    by rewrite Epb, (proj2 (Z.eqb_neq _ _)), Eq.
  - destruct (R (udp b) None D) as (b' & Eb & Kb' & Eu & Ewk). by exists b'.
Qed.

(** ** ARP *)

(** A frame that is an ARP packet reaches [handle_arp]. *)
Lemma arp_frame_received now my_ip my_mac s fs dm sm op smac sip tmac tip Q :
  let f := arp_frame dm sm op smac sip tmac tip in
  net_ok s -> waiting s = f :: fs -> mac_ok dm -> mac_ok sm -> mac_ok smac -> ip_ok sip ->
  mac_ok tmac -> ip_ok tip -> 0 <= op < 2 ^ 16 ->
  (forall s1, net_ok s1 -> arp_cache s1 = arp_cache s -> woken s1 = woken s -> wire s1 = wire s ->
     active_nic s1 = polled s -> wp (handle_arp my_ip my_mac (rx_buffer f)) (fun _ => Q) s1) ->
  wp (handle_incoming_packets now my_ip my_mac) (fun b s' => b = true /\ Q s') s.
Proof.
  intros f K Ew [_ L1] [_ L2] [_ L3] [_ L4] [_ L5] [_ L6] Hop HQ.
  destruct (arp_frame_fields dm sm op smac sip tmac tip L1 L2 L3 L4 L5 L6 Hop) as (Lf & F1 & _).
  fold f in Lf, F1. apply (packets_taken _ _ _ _ f fs); [done|done|lia|].
  intros s1 K1 C _ Wk W En. unfold dispatch. rewrite F1. by apply HQ.
Qed.

(** The request for [ip_b] by the host [ip_a], and its answer. *)
Definition arp_question (ip_a mac_a ip_b : list Z) : list Z :=
  arp_frame (replicate 6 0xFF) mac_a 1 mac_a ip_a (zeros 6) ip_b.
Definition arp_answer (ip_a mac_a ip_b mac_b : list Z) : list Z :=
  arp_frame mac_a mac_b 2 mac_b ip_b mac_a ip_a.

(** C40: the ARP exchange.  [send_arp_request] puts exactly the request on the
    wire, unless the card refuses the frame.  The host that owns the address and
    gets the request learns the asker's mapping and sends it exactly the answer,
    again unless its card refuses the frame; every other host ignores it.  The
    asker, getting the answer, learns the mapping and wakes exactly the tasks
    waiting for this address.  A mapping is learned when the cache has room for
    it (an entry for the address or a free one); when all eight entries are held
    by other addresses nothing changes.  Mappings of other addresses stay. *)
Theorem arp_exchange (a b c : net N) now ip_a mac_a ip_b mac_b fb fc :
  net_ok a -> net_ok b -> net_ok c -> ip_ok ip_a -> ip_ok ip_b -> mac_ok mac_a -> mac_ok mac_b ->
  waiting b = arp_question ip_a mac_a ip_b :: fb ->
  waiting c = arp_answer ip_a mac_a ip_b mac_b :: fc ->
  wp (send_arp_request ip_b ip_a mac_a)
     (fun _ a' => let f := arp_question ip_a mac_a ip_b in
        wire a' = if takes (active_nic a) f then wire a ++ [f] else wire a) a /\
  wp (handle_incoming_packets now ip_b mac_b)
     (fun r b' => r = true /\
        (let f := arp_answer ip_a mac_a ip_b mac_b in
         wire b' = if takes (polled b) f then wire b ++ [f] else wire b) /\
        (room ip_a (arp_cache b) -> arp_cache_lookup ip_a b' = Some mac_a) /\
        (~ room ip_a (arp_cache b) -> arp_cache b' = arp_cache b) /\
        forall ip, ip <> ip_a -> arp_cache_lookup ip b' = arp_cache_lookup ip b) b /\
  (forall my_ip my_mac, my_ip <> ip_b ->
     wp (handle_incoming_packets now my_ip my_mac)
       (fun r b' => r = true /\ wire b' = wire b /\ arp_cache b' = arp_cache b) b) /\
  wp (handle_incoming_packets now ip_a mac_a)
     (fun r c' => r = true /\ wire c' = wire c /\
        woken c' = woken c ++ [Event (arp_wait_key ip_b)] /\
        (room ip_b (arp_cache c) -> arp_cache_lookup ip_b c' = Some mac_b) /\
        (~ room ip_b (arp_cache c) -> arp_cache c' = arp_cache c) /\
        forall ip, ip <> ip_b -> arp_cache_lookup ip c' = arp_cache_lookup ip c) c.
Proof.
  intros Ka Kb Kc Ia Ib Ma Mb Wb Wc.
  assert (mac_ok (replicate 6 0xFF)) as Hf.
  { split; [|done]. apply Forall_replicate. done. }
  assert (mac_ok (zeros 6)) as Hz by (split; [apply zeros_ok|done]).
  destruct (arp_frame_fields (replicate 6 0xFF) mac_a 1 mac_a ip_a (zeros 6) ip_b
    (proj2 Hf) (proj2 Ma) (proj2 Ma) (proj2 Ia) (proj2 Hz) (proj2 Ib) ltac:(lia))
    as (_ & _ & F1 & F2 & F3 & F4).
  destruct (arp_frame_fields mac_a mac_b 2 mac_b ip_b mac_a ip_a (proj2 Ma) (proj2 Mb) (proj2 Mb)
    (proj2 Ib) (proj2 Ma) (proj2 Ia) ltac:(lia)) as (_ & _ & G1 & G2 & G3 & G4).
  split_and!.
  - apply wp_bind. eapply wp_mono; [by apply transmit_state|]. intros r a' (_ & _ & -> & W).
    by apply wp_ret.
  - eapply (arp_frame_received now ip_b mac_b b fb); [exact Kb|exact Wb|done..|lia|].
    intros b1 K1 C1 _ W1 E1. unfold handle_arp. rewrite F1, F2, F3, F4, bool_decide_eq_true_2 by done.
    simpl. apply wp_bind, wp_modify, wp_bind.
    eapply wp_mono; [apply transmit_state, keeps_cache_insert_ok; done|].
    intros r b2 (_ & (C2 & _) & Er & W2). apply wp_ret. unfold arp_cache_lookup.
    rewrite W2, C2. simpl. rewrite C1. change (wire (arp_cache_insert ip_a mac_a b1)) with (wire b1).
    rewrite W1, Er. change (active_nic (arp_cache_insert ip_a mac_a b1)) with (active_nic b1). rewrite E1.
    split_and!; [done| | |].
    + apply cache_insert_lookup.
    + apply cache_insert_full.
    + intros ip. apply cache_insert_other.
  - intros my_ip my_mac Hn. eapply (arp_frame_received now my_ip my_mac b fb); [exact Kb|exact Wb|done..|lia|].
    intros b1 K1 C1 _ W1 _. unfold handle_arp. rewrite F1, F4, bool_decide_eq_false_2 by done.
    simpl. by apply wp_ret.
  - eapply (arp_frame_received now ip_a mac_a c fc); [exact Kc|exact Wc|done..|lia|].
    intros c1 K1 C1 Wk W1 _. unfold handle_arp. rewrite G1, G2, G3. simpl.
    apply wp_bind, wp_modify, wp_modify. unfold arp_cache_lookup. simpl. rewrite C1, Wk.
    split_and!; [exact W1|done|apply cache_insert_lookup|apply cache_insert_full|].
    intros ip. apply cache_insert_other.
Qed.

(** ** Ping *)

(** An echo request for [my_ip] in the frame [f], with a header of [ihl] bytes
    and [total] bytes of IPv4. *)
Record ping (my_ip f : list Z) (ihl total : Z) : Prop := {
  p_type : field16 f 12 = 0x0800;
  p_ihl : ihl_of f = ihl /\ 20 <= ihl;
  p_total : field16 f 16 = total /\ ihl + 8 <= total /\ 14 + total <= zlen f <= 1514;
  p_icmp : byte_at f 23 = 1 /\ byte_at f (14 + ihl) = 8;
  p_dst : slice 30 34 f = my_ip;
}.

(** The answer [g] to it. *)
Record pong (my_ip my_mac f g : list Z) (ihl total : Z) : Prop := {
  g_len : zlen g = 14 + total;
  g_eth : slice 0 6 g = slice 6 12 f /\ slice 6 12 g = my_mac;
  g_ip : slice 26 30 g = my_ip /\ slice 30 34 g = slice 26 30 f;
  g_type : byte_at g (14 + ihl) = 0;
  g_ip_sum : calculate_checksum (slice 14 (14 + ihl) g) = Ok 0;
  g_icmp_sum : calculate_checksum (slice (14 + ihl) (14 + total) g) = Ok 0;
  g_rest : forall i, 12 <= i < 14 + total -> ~ (24 <= i < 34) -> ~ (14 + ihl <= i < 14 + ihl + 4) \/ i = 15 + ihl ->
    byte_at g i = byte_at f i;
}.

Lemma rx_byte f i : 0 <= i < zlen f -> byte_at (rx_buffer f) i = byte_at f i.
Proof. intros Hi. apply byte_at_app_l. done. Qed.

Lemma rx_slice f lo hi : 0 <= lo <= hi -> hi <= zlen f -> slice lo hi (rx_buffer f) = slice lo hi f.
Proof. intros. by apply slice_app_l. Qed.

Lemma rx_field f o : 0 <= o -> o + 1 < zlen f -> field16 (rx_buffer f) o = field16 f o.
Proof. intros. unfold field16. by rewrite !rx_byte by lia. Qed.

Lemma slice_bytes g lo hi (x : list Z) :
  0 <= lo -> hi = lo + zlen x -> hi <= zlen g ->
  (forall i, 0 <= i < zlen x -> byte_at g (lo + i) = byte_at x i) -> slice lo hi g = x.
Proof.
  intros H1 H2 H3 Hb. pose proof (zlen_nonneg x). apply bytes_eq.
  - rewrite zlen_slice; lia.
  - intros i. rewrite zlen_slice by lia. intros Hi. rewrite byte_at_slice by lia. apply Hb. lia.
Qed.

(** The patched frame is the answer. *)
Lemma echo_frame_pong my_ip my_mac f ihl total c d :
  bytes_ok f -> ping my_ip f ihl total -> ip_ok my_ip -> mac_ok my_mac ->
  let buf := rx_buffer f in
  calculate_checksum (slice (14 + ihl) (14 + total) (cleared buf ihl)) = Ok c ->
  calculate_checksum (slice 14 (14 + ihl) (patch2 my_ip buf ihl c)) = Ok d ->
  pong my_ip my_mac f (echo_frame my_ip my_mac buf ihl total c d) ihl total.
Proof.
  intros Hf [P1 [P2 P2'] (P3 & P4 & P5) _ _] Hip Hmac buf Hc Hd.
  pose proof (rx_buffer_ok f Hf ltac:(lia)) as B. fold buf in B.
  assert (ihl <= 60 /\ Z.even ihl = true) as [Hi He].
  { rewrite <- P2. unfold ihl_of. change 0x0F with (Z.ones 4). rewrite Z.land_ones by lia.
    pose proof (Z.mod_pos_bound (byte_at f 14) (2 ^ 4)). split; [lia|]. by rewrite Z.even_mul, orb_true_r. }
  assert (total <= 1500) as Ht by lia.
  pose proof (zlen_echo_frame my_ip my_mac buf ihl total c d B Hip Hmac ltac:(lia) ltac:(lia)) as Lg.
  set (g := echo_frame my_ip my_mac buf ihl total c d) in *.
  assert (forall i, 0 <= i < 14 + total -> i <> 24 -> i <> 25 -> i <> 14 + ihl + 2 -> i <> 14 + ihl + 3 ->
    byte_at g i = if i <? 6 then byte_at buf (i + 6) else if i <? 12 then byte_at my_mac (i - 6)
                  else patched my_ip buf ihl i) as Fb.
  { intros. apply frame_byte; try done; lia. }
  assert (forall i, 0 <= i < zlen f -> byte_at buf i = byte_at f i) as Eb by (intros; by apply rx_byte).
  destruct Hip as [I1 I2], Hmac as [M1 M2]. unfold patched in Fb. split; [done|split|split| | | |].
  - apply slice_bytes; [lia| |lia|].
    { rewrite zlen_slice; lia. }
    intros i Hl. rewrite zlen_slice in Hl by lia. rewrite Fb by lia. rewrite (proj2 (Z.ltb_lt _ _)), Eb, byte_at_slice by lia. f_equal. lia.
  - apply slice_bytes; [lia|lia|lia|]. intros i Hl. rewrite Fb by lia.
    rewrite (proj2 (Z.ltb_ge _ _)), (proj2 (Z.ltb_lt _ _)) by lia. f_equal. lia.
  - apply slice_bytes; [lia|lia|lia|]. intros i Hl. rewrite Fb by lia.
    rewrite !(proj2 (Z.ltb_ge (26 + i) _)), (proj2 (Z.leb_le _ _)), (proj2 (Z.ltb_lt _ _)) by lia.
    simpl. f_equal. lia.
  - apply slice_bytes; [lia| |lia|].
    { rewrite zlen_slice; lia. }
    intros i Hl. rewrite zlen_slice in Hl by lia. rewrite Fb by lia.
    rewrite !(proj2 (Z.ltb_ge (30 + i) _)), andb_false_r by lia.
    rewrite (proj2 (Z.leb_le _ _)), (proj2 (Z.ltb_lt _ _)), Eb, byte_at_slice by lia. f_equal. lia.
  - rewrite Fb by lia. rewrite !(proj2 (Z.ltb_ge _ _)), !andb_false_r by lia. by rewrite Z.eqb_refl.
  - by apply ip_checksum_ok; try lia.
  - by apply icmp_checksum_ok; try lia.
  - intros i Hl H1 H2. rewrite Fb by lia. rewrite (proj2 (Z.ltb_ge i 6)), (proj2 (Z.ltb_ge i 12)) by lia.
    assert (((26 <=? i) && (i <? 30)) = false /\ ((30 <=? i) && (i <? 34)) = false) as [-> ->].
    { destruct (Z.leb_spec 26 i), (Z.ltb_spec i 30), (Z.leb_spec 30 i), (Z.ltb_spec i 34); simpl; try lia; done. }
    rewrite (proj2 (Z.eqb_neq _ _)), Eb by lia. done.
Qed.

(** C13: a well-formed echo request, with IP options or without, is answered
    with exactly one frame, which goes on the wire unless the card refuses it:
    sent back to the MAC and IP address it came from, as an echo reply, with
    correct IP and ICMP checksums, and with identifier, sequence number,
    payload, options and all other bytes unchanged. *)
Theorem ping_answered s f fs now my_ip my_mac ihl total :
  net_ok s -> waiting s = f :: fs -> ping my_ip f ihl total -> ip_ok my_ip -> mac_ok my_mac ->
  exists g, pong my_ip my_mac f g ihl total /\
    wp (handle_incoming_packets now my_ip my_mac)
       (fun r s' => r = true /\ wire s' = if takes (polled s) g then wire s ++ [g] else wire s) s.
Proof.
  intros K Ew P Hip Hmac. pose proof (waiting_ok s K) as W. rewrite Ew in W.
  apply Forall_cons in W as [Hf _]. pose proof P as [P1 [P2 P2'] (P3 & P4 & P5) [P6 P7] P8].
  pose proof (rx_buffer_ok f Hf ltac:(lia)) as B.
  assert (ihl <= 60) as Hi by (destruct (ihl_range _ B) as [E|E]; unfold ihl_of in *;
    rewrite rx_byte in E by lia; lia).
  destruct (echo_reply_frame my_ip my_mac (rx_buffer f) ihl B ltac:(lia) ltac:(rewrite rx_field; lia))
    as (c & d & Hc & Hd & E). rewrite rx_field, P3 in Hc, E by lia.
  exists (echo_frame my_ip my_mac (rx_buffer f) ihl total c d). split; [by apply echo_frame_pong|].
  apply (packets_taken _ _ _ _ f fs); [done|done|lia|]. intros s1 K1 _ _ _ W1 En. unfold dispatch.
  rewrite rx_field, P1 by lia. simpl. unfold handle_ipv4. fold (ihl_of (rx_buffer f)).
  rewrite (proj2 (Z.ltb_ge _ _)) by lia. unfold ihl_of in *. rewrite !rx_byte, P2, P6, rx_slice, P8 by lia.
  rewrite bool_decide_eq_true_2 by done. simpl. unfold handle_icmp.
  rewrite (proj2 (Z.ltb_ge _ _)), rx_byte, P7 by lia. simpl.
  unfold wp at 1. rewrite E. apply wp_bind. eapply wp_mono; [by apply transmit_state|].
  intros b s2 (_ & _ & -> & W2). apply wp_ret. by rewrite W2, W1, En.
Qed.

(** ** Every frame *)

(** C10: which frames stop the kernel.  [handle_incoming_packets] stops on an
    echo request for this host whose IP header length is 0, or whose total
    length is not more than the header length or is more than 1500 (it is not
    compared with the length of the frame, and the code reads past its buffer),
    and, in a build with overflow checks, on an echo reply for this host whose
    total length is below the header length; every other frame, whatever its
    bytes, whether it is addressed to a socket, the DNS client, a TCP connection
    or nobody, is handled, and leaves the stack well formed. *)
Theorem net_rx_total s f fs now my_ip my_mac :
  net_ok s -> waiting s = f :: fs -> 14 <= zlen f ->
  if stops my_ip (take 1514 f)
  then (handle_incoming_packets now my_ip my_mac s).2 = Panic
  else exists s', handle_incoming_packets now my_ip my_mac s = (s', Ok true) /\
                  net_ok s' /\ waiting s' = fs.
Proof.
  intros K Ew L. destruct (stops my_ip (take 1514 f)) eqn:Hb; [by eapply packets_panic|].
  pose proof (packets_wp now my_ip my_mac s f fs K Ew L Hb) as P. unfold wp in P.
  destruct (handle_incoming_packets now my_ip my_mac s) as [s' [x| | |]]; try contradiction.
  destruct P as (K' & -> & W & _). eauto.
Qed.

(** [poll] returns whatever frames wait, malformed pings aside.  With
    receive work announced it takes the eight oldest frames and keeps the work
    announced as long as frames are left, so that no backlog gets stuck; without
    it the card is left alone. *)
Theorem net_poll_backlog s now :
  net_ok s -> Forall (harmless (host_ip s)) (waiting s) ->
  exists s', poll now s = (s', Ok tt) /\ net_ok s' /\
    if rx_work s && bool_decide (host_ip s <> [0; 0; 0; 0])
    then waiting s' = drop 8 (waiting s) /\ (waiting s' <> [] -> rx_work s' = true)
    else waiting s' = waiting s.
Proof.
  intros K Hw. pose proof (poll_wp now s K Hw) as P. unfold wp in P.
  destruct (poll now s) as [s' [[]| | |]]; try contradiction. eauto.
Qed.

End net.

(** ** A card for the examples *)

#[local] Existing Instance dev_build.

(** A card that takes every frame. *)
Record card : Type := mkCard { c_mac : list Z; c_in : list (list Z); c_out : list (list Z) }.

#[export] Instance card_driver : NetworkDriver card := {
  nic_transmit c f := (mkCard (c_mac c) (c_in c) (c_out c ++ [f]), true);
  nic_poll_rx c len :=
    (mkCard (c_mac c) (tail (c_in c)) (c_out c), take (Z.to_nat len) (default [] (head (c_in c))));
  nic_mac := c_mac;
}.

#[export, refine] Instance card_wire : Wire card := {
  nic_ok c := mac_ok (c_mac c) /\ Forall bytes_ok (c_in c);
  sent := c_out;
  arrived := c_in;
}.
Proof.
  - by intros c [H _].
  - by intros c [_ H].
  - intros c f [H1 H2]. by split_and!.
  - intros [m [|g gs] o] len [H1 H2] _; simpl in *; split_and!; try done.
    + by destruct (Z.to_nat len).
    + by apply Forall_cons in H2 as [_ H2].
Defined.

Definition free_entry : ArpEntry := mkArpEntry [0; 0; 0; 0] (zeros 6) false.

(** A host that has just booted, with sockets, known neighbours and frames. *)
Definition host (addr mac : list Z) (known : list ArpEntry) (u : Udp.udp) (frames : list (list Z))
  : net card :=
  mkNet (Some (mkCard mac frames [])) addr (known ++ replicate (8 - length known) free_entry)
    (replicate 16 no_reply) 0 0 1 true None u (Tcp.mkTcp [] [] 50000 [] []) [].

Lemma host_ok addr mac known u frames :
  ip_ok addr -> mac_ok mac -> (length known <= 8)%nat ->
  Forall (fun e => ip_ok (e_ip e) /\ mac_ok (e_mac e)) known -> UdpInv.wf u -> Forall bytes_ok frames ->
  net_ok (host addr mac known u frames).
Proof.
  intros Ha Hm Hl Hk Hu Hf. split; simpl; try done.
  - by intros n [= <-].
  - unfold zlen, ARP_CACHE_SIZE. rewrite length_app, length_replicate. lia.
  - apply Forall_app. split; [done|]. apply Forall_replicate. simpl.
    split; (split; [|done]); [apply (zeros_ok 4)|apply (zeros_ok 6)].
Qed.

Definition ip_a : list Z := [10; 0; 2; 15].
Definition ip_b : list Z := [10; 0; 2; 9].
Definition mac_a : list Z := [0x52; 0x54; 0; 0x12; 0x34; 0x56].
Definition mac_b : list Z := [0x52; 0x54; 0; 0x12; 0x34; 0x57].

(** Lists of literal bytes. *)
Ltac bytes := apply (bool_decide_unpack _); vm_compute; done.
#[local] Instance is_byte_dec b : Decision (is_byte b).
Proof. unfold is_byte. apply _. Defined.

Lemma demo_addresses : ip_ok ip_a /\ ip_ok ip_b /\ mac_ok mac_a /\ mac_ok mac_b.
Proof. repeat split; unfold bytes_ok; bytes. Qed.

(** An echo request of [ip_b] whose IP header claims [total] bytes. *)
Definition ping_frame (total : Z) : list Z :=
  mac_a ++ mac_b ++ [8; 0] ++ [0x45; 0] ++ be_bytes 2 total ++ [0; 0; 0; 0; 64; 1; 0; 0] ++
  ip_b ++ ip_a ++ [8; 0; 0; 0; 0; 1; 0; 7; 104; 105].

(** A socket bound to port 7. *)
Definition echo_socket : Udp.udp := (Udp.bind_port 0 7 false (Udp.new_socket Udp.init).1).1.
Definition echo_state : Udp.Socket := Udp.mkSocket (Udp.mkState 7 None []) true.

Lemma echo_socket_wf : UdpInv.wf echo_socket.
Proof. apply UdpInv.bind_wf; [apply UdpInv.new_wf, UdpInv.init_wf|vm_compute; done|lia]. Qed.

Definition demo_host (frames : list (list Z)) : net card := host ip_a mac_a [] echo_socket frames.

Lemma demo_host_ok frames : Forall bytes_ok frames -> net_ok (demo_host frames).
Proof.
  intros Hf. destruct demo_addresses as (A & B & C & D).
  apply host_ok; [done|done|simpl; lia|constructor|apply echo_socket_wf|done].
Qed.

(** An echo reply of [ip_b] to [ip_a] whose IP header claims [total] bytes. *)
Definition pong_frame (total : Z) : list Z :=
  mac_a ++ mac_b ++ [8; 0] ++ [0x45; 0] ++ be_bytes 2 total ++ [0; 0; 0; 0; 64; 1; 0; 0] ++
  ip_b ++ ip_a ++ [0; 0; 0; 0; 0; 1; 0; 7; 104; 105].

Lemma net_rx_total_witness :
  (handle_incoming_packets (BU := release_build) 0 ip_a mac_a (demo_host [ping_frame 2000])).2 = Panic /\
  (handle_incoming_packets (BU := dev_build) 0 ip_a mac_a (demo_host [pong_frame 10])).2 = Panic /\
  (exists s', handle_incoming_packets (BU := release_build) 0 ip_a mac_a (demo_host [pong_frame 10]) = (s', Ok true) /\
     net_ok s' /\ waiting s' = []) /\
  exists s', handle_incoming_packets (BU := dev_build) 0 ip_a mac_a (demo_host [ping_frame 30]) = (s', Ok true) /\
             net_ok s' /\ waiting s' = [].
Proof.
  split; [|split; [|split]].
  - apply (net_rx_total (BU := release_build) (demo_host [ping_frame 2000]) (ping_frame 2000) [] 0 ip_a mac_a);
      [apply demo_host_ok; bytes|done|by compute].
  - apply (net_rx_total (BU := dev_build) (demo_host [pong_frame 10]) (pong_frame 10) [] 0 ip_a mac_a);
      [apply demo_host_ok; bytes|done|by compute].
  - apply (net_rx_total (BU := release_build) (demo_host [pong_frame 10]) (pong_frame 10) [] 0 ip_a mac_a);
      [apply demo_host_ok; bytes|done|by compute].
  - apply (net_rx_total (BU := dev_build) (demo_host [ping_frame 30]) (ping_frame 30) [] 0 ip_a mac_a);
      [apply demo_host_ok; bytes|done|by compute].
Defined.

Lemma net_poll_backlog_witness :
  exists s', poll 0 (demo_host (replicate 10 (ping_frame 30))) = (s', Ok tt) /\ net_ok s' /\
    waiting s' = replicate 2 (ping_frame 30) /\ (waiting s' <> [] -> rx_work s' = true).
Proof.
  destruct (net_poll_backlog (demo_host (replicate 10 (ping_frame 30))) 0) as (s' & E & K & R).
  - apply demo_host_ok. bytes.
  - apply Forall_replicate. split; [by compute|vm_compute; done].
  - rewrite bool_decide_eq_true_2 in R by done. change (rx_work (demo_host _)) with true in R.
    cbn [andb] in R. destruct R as [R1 R2]. exists s'.
    split; [exact E|]. split; [exact K|]. split; [exact R1|exact R2].
Defined.

Lemma ping_answered_witness :
  exists g, pong ip_a mac_a (ping_frame 30) g 20 30 /\
    wp (handle_incoming_packets 0 ip_a mac_a) (fun r s' => r = true /\ wire s' = [g]) (demo_host [ping_frame 30]).
Proof.
  destruct demo_addresses as (A & B & C & D).
  assert (ping ip_a (ping_frame 30) 20 30) as P by (split; repeat split; by compute).
  assert (net_ok (demo_host [ping_frame 30])) as K by (apply demo_host_ok; bytes).
  destruct (ping_answered (demo_host [ping_frame 30]) (ping_frame 30) [] 0 ip_a mac_a 20 30 K eq_refl P A C) as (g & G & W).
  exists g. split; [exact G|]. eapply wp_mono; [exact W|]. intros r s' [-> W']. split; [reflexivity|exact W'].
Defined.

(** Host [ip_b] knows [ip_a] and has an unbound socket; [ip_a] listens on 7. *)
Definition sender : net card :=
  host ip_b mac_b [mkArpEntry ip_a mac_a true] (Udp.new_socket Udp.init).1 [].
Definition listener : Tcp.Endpoint := Tcp.mkEndpoint ip_a 7.
Definition udp_wire : list Z :=
  default [] (last (wire (send_to (fun _ s => s) 0 (Some listener) [104; 105] sender).1)).

Lemma sender_ok : net_ok sender.
Proof.
  destruct demo_addresses as (A & B & C & D).
  apply host_ok; [done|done|simpl; lia| |apply UdpInv.new_wf, UdpInv.init_wf|constructor].
  constructor; [done|constructor].
Qed.

Lemma udp_end_to_end_witness :
  exists b', handle_incoming_packets 0 ip_a mac_a (demo_host [udp_wire]) = (b', Ok true) /\
    woken b' = [Reader 0] /\
    forall len, (Udp.recv_round 0 len None 0 (udp b')).2 =
      Tcp.Return (Ok (slice 0 (Z.min 2 len) [104; 105], Tcp.mkEndpoint ip_b 50000)).
Proof.
  destruct demo_addresses as (A & B & C & D).
  pose proof (udp_end_to_end (fun _ s => s) sender (demo_host [udp_wire]) 0
    (Udp.mkSocket (Udp.mkState 0 None []) true) listener [104; 105] ip_a mac_a 0 echo_state [] 0 mac_a
    sender_ok) as T.
  destruct (send_to (fun _ s => s) 0 (Some listener) [104; 105] sender) as [a' r] eqn:E.
  assert (r = Ok 2) as -> by (change r with (a', r).2; rewrite <- E; vm_compute; done).
  assert (net_ok (demo_host [udp_wire])) as Kb by (apply demo_host_ok; bytes).
  destruct T as (_ & f & ka & W & Eka & T);
    [vm_compute; done|done|by split|done|bytes|by compute|vm_compute; done|vm_compute; done|exact Kb
    |vm_compute; done|done|done|].
  assert (wire a' = [udp_wire]) as W'.
  { change a' with (a', @Ok Z 2).1. rewrite <- E. vm_compute. done. }
  rewrite W' in W. injection W as <-.
  assert (ka = Udp.mkSocket (Udp.mkState 50000 None []) true) as ->.
  { assert (Udp.socks (udp a') !! 0%nat = Some (Udp.mkSocket (Udp.mkState 50000 None []) true)) as E'
      by (change a' with (a', @Ok Z 2).1; rewrite <- E; vm_compute; done). congruence. }
  destruct (T eq_refl) as (b' & Eb & _ & _ & Wk & R). exists b'. split_and!; [done|done|].
  by apply R.
Defined.

(** The exchange between [ip_b], which asks for [ip_a], and [ip_a]. *)
Lemma arp_exchange_witness :
  wp (send_arp_request ip_a ip_b mac_b) (fun _ a' => wire a' = [arp_question ip_b mac_b ip_a]) sender /\
  wp (handle_incoming_packets 0 ip_a mac_a)
     (fun r b' => r = true /\ wire b' = [arp_answer ip_b mac_b ip_a mac_a] /\ arp_cache_lookup ip_b b' = Some mac_b)
     (demo_host [arp_question ip_b mac_b ip_a]) /\
  wp (handle_incoming_packets 0 ip_b mac_b)
     (fun r c' => r = true /\ arp_cache_lookup ip_a c' = Some mac_a /\
                  woken c' = [Event (arp_wait_key ip_a)])
     (host ip_b mac_b [] Udp.init [arp_answer ip_b mac_b ip_a mac_a]).
Proof.
  destruct demo_addresses as (A & B & C & D).
  assert (net_ok (demo_host [arp_question ip_b mac_b ip_a])) as Kb by (apply demo_host_ok; bytes).
  assert (net_ok (host ip_b mac_b [] Udp.init [arp_answer ip_b mac_b ip_a mac_a])) as Kc.
  { apply host_ok; [done|done|simpl; lia|constructor|apply UdpInv.init_wf|bytes]. }
  destruct (arp_exchange sender (demo_host [arp_question ip_b mac_b ip_a])
    (host ip_b mac_b [] Udp.init [arp_answer ip_b mac_b ip_a mac_a]) 0 ip_b mac_b ip_a mac_a [] []
    sender_ok Kb Kc B A D C eq_refl eq_refl) as (T0 & T1 & _ & T2). split; [exact T0|split].
  - eapply wp_mono; [exact T1|]. intros r b' (-> & W & R & _). split; [done|]. split; [exact W|].
    apply R. left. by right.
  - eapply wp_mono; [exact T2|]. intros r c' (-> & _ & W & R & _). split_and!; [done| |exact W].
    apply R. left. by right.
Defined.

(** The event number of 255.255.255.255 is that of the DNS client, although the
    comment of [arp_wait_key] reserves a range for ARP. *)
Lemma arp_key_clash : arp_wait_key [255; 255; 255; 255] = Dns.WAIT_KEY.
Proof. done. Qed.

(** With eight neighbours known, the mapping of a ninth is never learned. *)
Definition full_cache : list ArpEntry :=
  (fun i => mkArpEntry [10; 0; 2; i] mac_b true) <$> seqZ 100 8.

Lemma arp_cache_full : cache_lookup ip_b (cache_insert ip_b mac_b full_cache) = None.
Proof. vm_compute. done. Qed.

End NetTheorems.
